(* ===== verification/_CoqProject ===== *)
-Q . S2P
Prelude.v
GoStd.v
GoNet.v
GoJson.v
Ipam.v
Domain.v
Interfaces.v
Catalog.v
Puller.v
Download.v
ControlPlane.v
VMService.v
CreateVM.v
Resources.v
Recovery.v
Lifecycle.v
PgControl.v
PgSound.v
Deployment.v
Witnesses.v
Float64.v
Scheduler.v
Qcow2.v
Storage.v
StorageProofs.v
StorageWitnesses.v
Network.v
NetworkProofs.v
NetworkWitnesses.v
Host.v
CloudInit.v
Qemu.v
HostInfo.v
Agent.v
AgentProofs.v
AgentCommands.v
AgentLive.v
AgentWitnesses.v
Metrics.v
Http.v
Requests.v
Streams.v
VMState.v
Handlers.v
HandlerProofs.v
StorageHandlers.v
NetworkHandlers.v
SchedulerHandlers.v
Gateway.v
HandlerWitnesses.v
Config.v
MetricsStream.v
Deadlines.v
Startup.v
Server.v
Background.v
Mains.v
AnswerFields.v
Answers.v
RuntimeWitnesses.v
Messages.v
System.v
EndToEnd.v
SystemWitnesses.v
Contention.v
ContentionWitnesses.v
