(* ===== verification/Prelude.v ===== *)
(** * RymeVisor: a verification development

    RymeVisor manages virtual machines on a set of nodes.  A control plane
    ([services/controlplane], [cmd/control-plane]) stores machines, nodes,
    images, flavors, keys, snapshots and backups in PostgreSQL, hands out
    addresses ([internal/ipam]), fetches operating system images in the
    background and commands nodes through a NATS stream.  Each node runs an
    agent that starts and stops QEMU.  A scheduler, a network service, a storage
    service and an HTTP gateway are separate programs beside it.

    ** How Go is modelled

    A Go call that can fail is a computation in [M W A] (this file): it threads
    a world [W] and ends in a value, an error (its text) or a panic; effects
    made before an error stay, as in Go.  [wp] is a total weakest-precondition
    calculus: what it proves includes that the call ends.  Integers are [Z]
    with their wrap-around written out ([int32], [int64], [uint32]), byte
    strings are lists of [N] or [string], [float64] is binary64 ([Float64]).
    Maps whose order Go leaves open are [gmap]s; where an order shows, the
    order of the visit is an argument.

    ** Files, and what they model

    - [Prelude]: outcomes, the monad and its calculus, machine integers,
      sorting and the lemmas all files share.
    - [GoStd], [GoNet], [GoJson]: what the source uses of [strings],
      [filepath], [strconv], [encoding/hex], [encoding/base64],
      [crypto/sha256], [net] and [encoding/json] (values, their text, and the
      decoding of a value into a struct).
    - [Ipam]: [internal/ipam/ipam.go], [internal/mac/mac.go].  The allocator
      returns the least free host, serves a block to its last address, and what
      it allocates is read back as used.
    - [Domain]: the structs, statuses and repository interfaces of
      [services/controlplane/domain].
    - [Interfaces]: what a service may rely on: an abstract state ([Abs]) and
      the laws (type classes) of repositories, publisher, allocator and
      environment over it.  All service theorems are proved against these laws.
    - [Catalog]: [catalog/catalog.go], the table of official images.
    - [Puller]: the request side of [image_puller.go].  [Download]: its
      goroutine; interruption at any byte keeps a resumable file, a clean run
      ends with the resource; and ([ActiveDownloads]) the set of active downloads
      with its mutex, statement by statement: one download per image at a time.
    - [ControlPlane], [VMService], [CreateVM], [Resources]: [service.go], method
      by method.  [VMService] has power, size, update, delete, snapshots;
      [CreateVM] creation and cloning with flavors, images, addresses and
      retries; [Resources] nodes, images, flavors, keys, backups.  Each theorem
      gives the guard of the handler, the change of state on success, what a
      failure leaves, and what is published.
    - [Recovery]: the reconciliation of [recovery.go].
    - [Lifecycle]: every request refines one step of an abstract life cycle of
      machine statuses; invariants of reachable states follow.
    - [PgControl]: the repositories of [services/controlplane/postgres], the
      publisher and the environment over a relational state with the keys,
      enumerations and unique indexes of the migrations; any statement may be
      refused.  [PgSound]: they satisfy the laws of [Interfaces].
    - [Deployment]: the construction made by [cmd/control-plane/main.go]
      satisfies all laws at once, so the service theorems hold of it; pages,
      batch loading, round trips through the tables, and requests that succeed
      when no statement is refused.
    - [Witnesses]: a concrete database and service on which the hypotheses of
      the theorems hold.
    - [Storage], [StorageProofs], [StorageWitnesses]: [services/storage], over
      the command lines of [internal/qcow2] ([Qcow2]): no request panics
      whatever fails, and a pool's count of used bytes against its volumes.
    - [Network], [NetworkProofs], [NetworkWitnesses]: [services/network]: the
      constraints of the tables under any refused statements, the floating
      address that is picked, what deleting a network removes.
    - [Float64], [Scheduler]: [services/scheduler]: the node chosen is eligible
      and of highest score (scores are never NaN), pages of placements, the race
      between two requests for one machine.

    - [Host]: a node: files, a clock, the programs the agent runs, monitor
      connections, what each call's fate is.  [CloudInit], [Qemu], [HostInfo],
      [Agent]: [services/nodeagent] and [internal/hostinfo] over it, with the
      JSON of commands, of [vm.json] and of QEMU's monitor.
    - [AgentProofs], [AgentCommands], [AgentLive], [AgentWitnesses]: the polling
      loops end, each command is answered once, what a start command of the
      control plane makes the node run and that it does so when nothing fails,
      what is persisted and recovered, how the monitor's replies are read.
    - [Metrics]: [internal/metrics/collector.go]: a round always gives a result,
      no index being out of range, and its processor usage is a percentage.

    - [Http]: requests, answers, the router as a class with laws,
      [internal/jsonutil], [internal/middleware], [internal/health] and the key
      check of [internal/ws].  [Requests]: the JSON of request bodies.
    - [Handlers], [HandlerProofs]: [handler.go] of the control plane, the streams
      under [/ws] included, and the chain of its [main]: requests refine the life
      cycle and change at most the machine they name, GETs are safe, nothing
      happens without the key, answers are well typed.
    - [StorageHandlers], [NetworkHandlers], [SchedulerHandlers]: the HTTP side of
      these services: every request is answered, the tables keep their
      constraints, and placements change only as the answer tells.
    - [Streams], [VMState]: the WebSocket streams of [internal/ws], of the control
      plane and of the gateway: what is sent of a log, which changes of a
      machine's status are reported, that both state streams show the same of it.
    - [Gateway]: [services/gateway] and [cmd/api-gateway]: its table agrees with
      those of the services, but for one stream it does not know.
    - [HandlerWitnesses]: a router with the laws, and requests.
    - [Config]: [internal/config], the pool's sizes, the streams and subjects of
      messages, over [time.ParseDuration].
    - [MetricsStream]: the stream of metrics over the collector: every tick is a
      message.
    - [Deadlines]: pings and deadlines of the streams over a connection with laws:
      those of a machine's state fall silent, those of logs and metrics last.
    - [AnswerFields], [Answers]: the JSON text of the control plane's answers, and
      what a client decodes from it: every struct is read back, and the gateway's
      stream of a machine, which goes through that text, shows the stored status.

    - [Startup], [Server]: [internal/bootstrap], [internal/database],
      [internal/nats], [internal/logging]: what [Run] opens and closes whatever
      fails, and [RunHTTP] with its two goroutines over a server of [net/http]
      with its documented laws: the shutdown is graceful and ends.
    - [Background]: the goroutines of [Recover] between requests, and
      [WaitReady].  [Mains]: the programs under [cmd] from [main] on.
      [RuntimeWitnesses]: runs of the deployed control plane.
    - [Messages], [System], [EndToEnd], [SystemWitnesses]: control plane, stream
      of commands and agents as one transition system: an agent takes only what
      the control plane published for its node, and a request to power a machine
      on ends with QEMU running it.
    - [Contention], [ContentionWitnesses]: the loop of [CreateVM] cut at its
      statements, for requests at the same time on one network: three machines
      with one interface each get different addresses, of four one may give up.

    ** Kinds of theorems

    Refinement: [Lifecycle.serve_refines_lifecycle] and
    [HandlerProofs.http_refines_lifecycle] (service and HTTP interface against
    the life cycle), [Deployment.deployment_refines_interfaces] (SQL against laws),
    [AgentCommands.start_command_runs_machine] (what runs on the node against
    the machine the control plane stores), [Background.background_refines_lifecycle]
    (the same life cycle with the reconciliation running).
    Functional: the [_correct] theorems, one per operation, on every branch.
    Liveness: the [_succeeds] theorems, [Ipam.allocation_capacity],
    [Download.resumed_download_completes], [EndToEnd.power_on_starts_machine],
    [Contention.three_creations_succeed], [Mains.node_agent_survives].  Safety and
    invariants: sticky errors, statuses in use, one download per image, files
    under faults, [System.agents_obey_control_plane], connections at start-up and
    shutdown.
    Types: [HandlerProofs.answers_typed].  Equivalence: batch loading against
    single loading, the gateway's routes and streams against the services'.
    Round trips: addresses, rows, placements, persisted configurations, answers.
    Error theorems state behaviour the code has and probably does not mean.

    ** Bounds and fuel

    The search of the allocator walks from the first host to the broadcast
    address and is given that distance as fuel, so it never runs out; creation
    retries three times, as the code does; a polling loop is given one round
    more than its timeout holds sleeps, and [AgentProofs.waiting_ends] shows that
    it never uses them up, and so for [WaitReady] of the puller; [n] concurrent
    requests to create a machine make at most [7 * n] turns, which is proved; a
    duration has
    as many terms as bytes at most; everything else is structural.
    Faults are a list of answers, one per call, after which nothing fails;
    theorems quantify over it.

    ** Not modelled

    Concurrent requests on a service are modelled as sequences of whole
    requests, except where the code is about their interleaving: downloads and
    the scheduler (which use a mutex), the reconciliation in the background,
    creations that pick the same address, and the queue of commands.  Matching
    of paths is done by the router (chi), a parameter with laws; the redirects of
    [http.ServeMux] for paths that are not clean are left out.  What pgx, nats.go
    and zap do by themselves are parameters or fates: parsing a URL, connecting,
    the text of log lines.  The WebSocket library is a parameter too: the upgrade
    of a request ([Upgrader]) and the connection ([WsConn]), whose two writers are
    taken to write one at a time.  So are the operator [<<=] of PostgreSQL
    ([InetWithin]), the server of [net/http] ([HttpServer]) and the text of a
    number of more than 53 bits as a [float64] ([FloatText]).  A command that the
    exit of the node agent cuts off is not described.  Of the wrappers of chi only the recovery of the
    scheduler matters to an answer and is a parameter; elsewhere a panic stays an
    outcome.  The gateway's round trip to a service is a parameter except in
    [Answers].  Times in answers, whose text depends on the zone of the process,
    are a parameter. *)
From stdpp Require Import base gmap strings list sorting numbers pretty.
From stdpp Require Import options.

(** * Outcomes of Go calls

    A Go function that returns [(T, error)] ends in one of three ways: it
    returns a value with a nil error, it returns a non-nil error (modelled by
    the text [err.Error()] yields), or it panics.  In all three cases the
    effects it performed so far stay in the world, so the monad threads the
    world through every outcome: nothing is rolled back by an error. *)
Inductive outcome (A : Type) : Type :=
| Ret (a : A)
| Err (e : string)
| Panic.
Arguments Ret {_} _.
Arguments Err {_} _.
Arguments Panic {_}.

Definition M (W A : Type) : Type := W → outcome A * W.

#[global] Instance M_ret {W} : MRet (M W) := λ A a w, (Ret a, w).

#[global] Instance M_bind {W} : MBind (M W) := λ A B f m w,
  match m w with
  | (Ret a, w') => f a w'
  | (Err e, w') => (Err e, w')
  | (Panic, w') => (Panic, w')
  end.

(** A pure function that may fail. *)
#[global] Instance outcome_ret : MRet outcome := λ A a, Ret a.
#[global] Instance outcome_bind : MBind outcome := λ A B f o,
  match o with
  | Ret a => f a
  | Err e => Err e
  | Panic => Panic
  end.

(** [return nil, err] *)
Definition fail {W A} (e : string) : M W A := λ w, (Err e, w).

(** A nil dereference, an index out of range. *)
Definition panic {W A} : M W A := λ w, (Panic, w).

(** [if err != nil { return nil, fmt.Errorf("ctx: %w", err) }] *)
Definition wrap {W A} (ctx : string) (m : M W A) : M W A := λ w,
  match m w with
  | (Err e, w') => (Err (ctx +:+ ": " +:+ e), w')
  | r => r
  end.

(** [v, err := m], with both kept: the value, or the error text. *)
Definition attempt {W A} (m : M W A) : M W (A + string) := λ w,
  match m w with
  | (Ret a, w') => (Ret (inl a), w')
  | (Err e, w') => (Ret (inr e), w')
  | (Panic, w') => (Panic, w')
  end.

(** [v, _ := m], where [d] is what the callee returns beside the error. *)
Definition or_zero {W A} (d : A) (m : M W A) : M W A := λ w,
  match m w with
  | (Err _, w') => (Ret d, w')
  | r => r
  end.

(** [_ = m] *)
Definition ignore {W A} (m : M W A) : M W () := λ w,
  match m w with
  | (Panic, w') => (Panic, w')
  | (_, w') => (Ret (), w')
  end.

Definition gets {W A} (f : W → A) : M W A := λ w, (Ret (f w), w).
Definition modify {W} (f : W → W) : M W () := λ w, (Ret (), f w).

(** [for _, x := range l { acc = body(acc, x) }] with early return on error. *)
Fixpoint foldM {W A B} (f : B → A → M W B) (acc : B) (l : list A) : M W B :=
  match l with
  | [] => mret acc
  | x :: l' => acc' ← f acc x; foldM f acc' l'
  end.

(** [for i := range l], collecting what each iteration appends. *)
Fixpoint imapM {W A B} (f : nat → A → M W B) (i : nat) (l : list A) : M W (list B) :=
  match l with
  | [] => mret []
  | x :: l' => y ← f i x; ys ← imapM f (S i) l'; mret (y :: ys)
  end.

Definition iterM {W A} (f : A → M W ()) (l : list A) : M W () :=
  foldM (λ _, f) () l.

(** ** Weakest preconditions

    [wp m Q w]: running [m] in [w] ends in an outcome and a world that
    satisfy [Q].  The calculus is total: every model in this development
    terminates, so [wp] also says that the run ends. *)
Definition wp {W A} (m : M W A) (Q : outcome A → W → Prop) (w : W) : Prop :=
  Q (m w).1 (m w).2.

(** The usual shape of a postcondition: one clause for the value, one for the
    error, and no panic. *)
Definition post {W A} (QR : A → W → Prop) (QE : string → W → Prop)
    (o : outcome A) (w : W) : Prop :=
  match o with
  | Ret a => QR a w
  | Err e => QE e w
  | Panic => False
  end.

Section wp_rules.
Context {W A B : Type}.
Implicit Types (m : M W A) (w : W).

Lemma wp_ret (a : A) Q w : Q (Ret a) w → wp (mret a : M W A) Q w.
Proof. done. Qed.

Lemma wp_fail e (Q : outcome A → W → Prop) w : Q (Err e) w → wp (fail e) Q w.
Proof. done. Qed.

Lemma wp_gets (f : W → A) Q w : Q (Ret (f w)) w → wp (gets f) Q w.
Proof. done. Qed.

Lemma wp_modify (f : W → W) Q w : Q (Ret ()) (f w) → wp (modify f) Q w.
Proof. done. Qed.

Lemma wp_mono m (Q Q' : outcome A → W → Prop) w :
  wp m Q w → (∀ o w', Q o w' → Q' o w') → wp m Q' w.
Proof. unfold wp. eauto. Qed.

Lemma wp_post m QR QE QR' QE' w :
  wp m (post QR QE) w →
  (∀ a w', QR a w' → QR' a w') → (∀ e w', QE e w' → QE' e w') →
  wp m (post QR' QE') w.
Proof. intros H HR HE. eapply wp_mono; [exact H|]. intros [] ?; simpl; eauto. Qed.

Lemma wp_bind m (f : A → M W B) Q w :
  wp m (λ o w', match o with
                | Ret a => wp (f a) Q w'
                | Err e => Q (Err e) w'
                | Panic => Q Panic w'
                end) w →
  wp (m ≫= f) Q w.
Proof. unfold wp, mbind, M_bind. destruct (m w) as [[] ?]; done. Qed.

(** The rule the proofs use: the first computation never panics. *)
Lemma wp_bind_post m (f : A → M W B) Q QR QE w :
  wp m (post QR QE) w →
  (∀ a w', QR a w' → wp (f a) Q w') →
  (∀ e w', QE e w' → Q (Err e) w') →
  wp (m ≫= f) Q w.
Proof.
  intros H HR HE. apply wp_bind. eapply wp_mono; [exact H|]. intros [] ?; simpl; eauto.
  done.
Qed.

Lemma wp_wrap ctx m QR QE w :
  wp m (post QR QE) w →
  wp (wrap ctx m) (post QR (λ e w', ∃ e', e = ctx +:+ ": " +:+ e' ∧ QE e' w')) w.
Proof. unfold wp, wrap. destruct (m w) as [[] ?]; simpl; eauto. Qed.

Lemma wp_attempt m QR QE w :
  wp m (post QR QE) w →
  wp (attempt m) (post (λ r w', match r with inl a => QR a w' | inr e => QE e w' end)
                       (λ _ _, False)) w.
Proof. unfold wp, attempt. destruct (m w) as [[] ?]; simpl; done. Qed.

Lemma wp_or_zero d m QR QE w :
  wp m (post QR QE) w →
  wp (or_zero d m) (post (λ a w', QR a w' ∨ (a = d ∧ ∃ e, QE e w')) (λ _ _, False)) w.
Proof. unfold wp, or_zero. destruct (m w) as [[] ?]; simpl; eauto. Qed.

Lemma wp_ignore m QR QE w :
  wp m (post QR QE) w →
  wp (ignore m) (post (λ _ w', (∃ a, QR a w') ∨ (∃ e, QE e w')) (λ _ _, False)) w.
Proof. unfold wp, ignore. destruct (m w) as [[] ?]; simpl; eauto. Qed.

End wp_rules.

(** Loop rules: an invariant indexed by the elements already handled. *)
Lemma wp_foldM {W A B} (f : B → A → M W B) (I : list A → B → W → Prop)
    (QE : string → W → Prop) l :
  (∀ done x acc w, I done acc w →
     wp (f acc x) (post (I (done ++ [x])) QE) w) →
  ∀ done acc w, I done acc w →
  wp (foldM f acc l) (post (I (done ++ l)) QE) w.
Proof.
  intros Hstep. induction l as [|x l IH]; intros done acc w HI; simpl.
  - by rewrite app_nil_r.
  - eapply wp_bind_post; [by apply Hstep| |].
    + intros acc' w' HI'. specialize (IH _ _ _ HI').
      by rewrite <-(assoc_L (++)) in IH.
    + intros e w' HE. exact HE.
Qed.

Lemma wp_iterM {W A} (f : A → M W ()) (I : list A → W → Prop) (QE : string → W → Prop) l w :
  (∀ done x w, I done w → wp (f x) (post (λ _, I (done ++ [x])) QE) w) →
  I [] w →
  wp (iterM f l) (post (λ _, I l) QE) w.
Proof.
  intros Hstep HI.
  apply (wp_foldM (λ _, f) (λ dn _ w, I dn w) QE l) with (done := []); eauto.
Qed.

Lemma wp_imapM {W A B} (f : nat → A → M W B) (P : nat → A → B → Prop) (I : W → Prop)
    (QE : string → W → Prop) l :
  (∀ i x w, I w → wp (f i x) (post (λ b w', P i x b ∧ I w') QE) w) →
  ∀ i w, I w →
  wp (imapM f i l)
     (post (λ bs w', length bs = length l ∧ I w' ∧
              ∀ k x b, l !! k = Some x → bs !! k = Some b → P (i + k) x b) QE) w.
Proof.
  intros Hstep. induction l as [|x l IH]; intros i w HI; simpl.
  - apply wp_ret; simpl. split_and!; [done..|]. intros k ???. by rewrite lookup_nil.
  - eapply wp_bind_post; [by apply Hstep| |done].
    intros b w' [HP HI']. eapply wp_bind_post; [by apply IH| |done].
    intros bs w'' (Hlen & HI'' & Hbs). apply wp_ret; simpl.
    split_and!; [by rewrite Hlen|done|].
    intros [|k] y c; simpl.
    + intros [= <-] [= <-]. by rewrite Nat.add_0_r.
    + intros ??. replace (i + S k) with (S i + k) by lia. eauto.
Qed.

(** * Sorting

    [ORDER BY]: a stable insertion sort; [lt x y] says that [x] comes strictly
    before [y]. *)
Fixpoint insert_by {A} (lt : A → A → bool) (x : A) (l : list A) : list A :=
  match l with
  | [] => [x]
  | y :: l' => if lt y x then y :: insert_by lt x l' else x :: l
  end.

Definition sort_by {A} (lt : A → A → bool) (l : list A) : list A := foldr (insert_by lt) [] l.

Lemma insert_by_perm {A} lt (x : A) l : insert_by lt x l ≡ₚ x :: l.
Proof.
  induction l as [|y l IH]; simpl; [done|]. destruct (lt y x); [|done].
  rewrite IH. apply Permutation_swap.
Qed.

Lemma sort_by_perm {A} lt (l : list A) : sort_by lt l ≡ₚ l.
Proof. induction l as [|x l IH]; simpl; [done|]. by rewrite insert_by_perm, IH. Qed.

(** Sorting commutes with maps that keep the order, and with filters. *)
Lemma sort_by_fmap {A B} (lt : A → A → bool) (lt' : B → B → bool) (f : A → B) l :
  (∀ x y, lt' (f x) (f y) = lt x y) → sort_by lt' (f <$> l) = f <$> sort_by lt l.
Proof.
  intros Hf. unfold sort_by. induction l as [|x l IH]; csimpl; [done|]. rewrite IH.
  generalize (foldr (insert_by lt) [] l). intros k. induction k as [|y k IHk]; csimpl; [done|]. rewrite Hf.
  destruct (lt y x); csimpl; [by rewrite IHk|done].
Qed.

Section sort_key.
Context {A : Type} (f : A → Z).
Let lt (x y : A) : bool := (f x <? f y)%Z.

Lemma insert_by_key_sorted x l :
  StronglySorted (λ a b, (f a ≤ f b)%Z) l → StronglySorted (λ a b, (f a ≤ f b)%Z) (insert_by lt x l).
Proof.
  induction 1 as [|y l Hs IH Hy]; simpl; [by repeat constructor|].
  unfold lt at 1. destruct (Z.ltb_spec (f y) (f x)).
  - constructor; [done|]. rewrite insert_by_perm. constructor; [lia|done].
  - constructor; [by constructor|]. constructor; [lia|]. eapply Forall_impl; [exact Hy|]. intros z ?. simpl in *. lia.
Qed.

Lemma sort_by_key_sorted l : StronglySorted (λ a b, (f a ≤ f b)%Z) (sort_by lt l).
Proof. induction l; simpl; [constructor|]. by apply insert_by_key_sorted. Qed.

Lemma insert_by_key_skip x l : Forall (λ y, (f x ≤ f y)%Z) l → insert_by lt x l = x :: l.
Proof.
  destruct 1 as [|y l Hy ?]; simpl; [done|]. unfold lt. by destruct (Z.ltb_spec (f y) (f x)); [lia|].
Qed.

Lemma sort_by_key_filter (P : A → Prop) `{!∀ x, Decision (P x)} l :
  filter P (sort_by lt l) = sort_by lt (filter P l).
Proof.
  induction l as [|x l IH]; [done|].
  assert (Hins : ∀ k, StronglySorted (λ a b, (f a ≤ f b)%Z) k →
    filter P (insert_by lt x k) = if decide (P x) then insert_by lt x (filter P k) else filter P k).
  { induction 1 as [|y k Hs IHk Hy]; simpl; [by rewrite filter_cons|].
    unfold lt at 1. destruct (Z.ltb_spec (f y) (f x)) as [Hlt|Hge].
    - rewrite !filter_cons, IHk. repeat case_decide; simpl; try done.
      unfold lt. by destruct (Z.ltb_spec (f y) (f x)); [|lia].
    - rewrite filter_cons. case_decide; [|done]. symmetry. apply insert_by_key_skip.
      apply Forall_forall. intros z Hz%list_elem_of_filter. destruct Hz as [_ Hz].
      apply elem_of_cons in Hz as [->|Hz]; [done|]. rewrite Forall_forall in Hy.
      specialize (Hy z Hz). simpl in Hy. lia. }
  simpl. rewrite Hins by apply sort_by_key_sorted. rewrite filter_cons, IH. by case_decide.
Qed.

End sort_key.

(** A list in order is left as it is. *)
Lemma sort_by_sorted {A} (lt : A → A → bool) l :
  (∀ i j x y, i ≤ j → l !! i = Some x → l !! j = Some y → lt y x = false) →
  sort_by lt l = l.
Proof.
  induction l as [|x l IH]; intros Hs; simpl; [done|]. rewrite IH.
  - destruct l as [|y l]; simpl; [done|]. by rewrite (Hs 0 1 x y) by (done || lia).
  - intros i j a b ? Ha Hb. apply (Hs (S i) (S j)); [lia|done..].
Qed.

(** * Maps *)
Lemma alter_at {K A} `{Countable K} (f : A → A) (k : K) (x : A) (m : gmap K A) :
  m !! k = Some x → alter f k m = <[k := f x]> m.
Proof.
  intros Hk. apply map_eq. intros j. destruct (decide (k = j)) as [->|].
  - by rewrite lookup_alter_eq, lookup_insert_eq, Hk.
  - by rewrite lookup_alter_ne, lookup_insert_ne.
Qed.

(** * Machine integers

    A [w]-bit Go integer is a [Z] in its range; arithmetic that can leave the
    range is written with the wrap-around of the language. *)
Definition int32 (z : Z) : Z := ((z + 2 ^ 31) `mod` 2 ^ 32 - 2 ^ 31)%Z.
Definition int64 (z : Z) : Z := ((z + 2 ^ 63) `mod` 2 ^ 64 - 2 ^ 63)%Z.
Definition uint32 (z : Z) : Z := (z `mod` 2 ^ 32)%Z.

Definition in_int32 (z : Z) : Prop := (- 2 ^ 31 ≤ z < 2 ^ 31)%Z.
Definition in_int64 (z : Z) : Prop := (- 2 ^ 63 ≤ z < 2 ^ 63)%Z.
Definition in_uint32 (z : Z) : Prop := (0 ≤ z < 2 ^ 32)%Z.

Lemma int32_id z : in_int32 z → int32 z = z.
Proof. unfold in_int32, int32. intros ?. rewrite Z.mod_small; lia. Qed.

Lemma int64_id z : in_int64 z → int64 z = z.
Proof. unfold in_int64, int64. intros ?. rewrite Z.mod_small; lia. Qed.

Lemma uint32_id z : in_uint32 z → uint32 z = z.
Proof. unfold in_uint32, uint32. intros ?. by rewrite Z.mod_small. Qed.

Lemma int64_range z : in_int64 (int64 z).
Proof. unfold in_int64, int64. pose proof (Z.mod_pos_bound (z + 2 ^ 63) (2 ^ 64)). lia. Qed.

Lemma int32_range z : in_int32 (int32 z).
Proof. unfold in_int32, int32. pose proof (Z.mod_pos_bound (z + 2 ^ 31) (2 ^ 32)). lia. Qed.

Lemma uint32_range z : in_uint32 (uint32 z).
Proof. unfold in_uint32, uint32. apply Z.mod_pos_bound. lia. Qed.

Create HintDb go.
Create Rewrite HintDb go.
#[export] Hint Resolve int32_range int64_range uint32_range : go.
#[export] Hint Rewrite int32_id int64_id uint32_id
  using (unfold in_int32, in_int64, in_uint32 in *; lia) : go.
