(* ===== verification/GoStd.v ===== *)
(** The part of Go's standard library the sources use on strings and bytes:
    package [strings] (on ASCII text), [strconv.Quote] and [fmt]'s [%q],
    [encoding/hex], [encoding/base64] and [crypto/sha256].  A Go string is a
    sequence of bytes, modelled by [string]; every function here is executable. *)
From stdpp Require Import base strings list numbers pretty.
From S2P Require Import Prelude.
From stdpp Require Import options.

(** * Package strings *)
Module Strings.

Definition HasPrefix (s pre : string) : bool := String.prefix pre s.

(** Index of the first occurrence of [sub], scanning from the left. *)
Definition Index (s sub : string) : option nat := String.index 0 sub s.

Definition Contains (s sub : string) : bool :=
  match Index s sub with Some _ => true | None => false end.

Definition lower_ascii (c : Ascii.ascii) : Ascii.ascii :=
  let n := Ascii.N_of_ascii c in
  if ((65 <=? n) && (n <=? 90))%N then Ascii.ascii_of_N (n + 32) else c.

Fixpoint ToLower (s : string) : string :=
  match s with
  | EmptyString => EmptyString
  | String c s' => String (lower_ascii c) (ToLower s')
  end.

(** [unicode.IsSpace] on ASCII: tab, newline, vertical tab, form feed,
    carriage return, space. *)
Definition is_space (c : Ascii.ascii) : bool :=
  let n := Ascii.N_of_ascii c in
  ((9 <=? n) && (n <=? 13))%N || (n =? 32)%N.

Fixpoint trim_left (p : Ascii.ascii → bool) (s : string) : string :=
  match s with
  | EmptyString => EmptyString
  | String c s' => if p c then trim_left p s' else s
  end.

Fixpoint trim_right (p : Ascii.ascii → bool) (s : string) : string :=
  match s with
  | EmptyString => EmptyString
  | String c s' =>
      match trim_right p s' with
      | EmptyString => if p c then EmptyString else String c EmptyString
      | r => String c r
      end
  end.

Definition TrimSpace (s : string) : string := trim_right is_space (trim_left is_space s).

Definition TrimPrefix (s pre : string) : string :=
  if HasPrefix s pre then String.substring (String.length pre) (String.length s) s else s.

(** [strings.Split] at a one-byte separator; never the empty list. *)
Fixpoint SplitByte (s : string) (sep : Ascii.ascii) : list string :=
  match s with
  | EmptyString => [EmptyString]
  | String c s' =>
      if Ascii.eqb c sep then EmptyString :: SplitByte s' sep
      else match SplitByte s' sep with
           | [] => [String c EmptyString]
           | w :: ws => String c w :: ws
           end
  end.

(** [strings.Cut] at a one-byte separator. *)
Fixpoint CutByte (s : string) (sep : Ascii.ascii) : option (string * string) :=
  match s with
  | EmptyString => None
  | String c s' =>
      if Ascii.eqb c sep then Some (EmptyString, s')
      else match CutByte s' sep with
           | Some (a, b) => Some (String c a, b)
           | None => None
           end
  end.

(** [strings.Fields]: maximal runs of non-space bytes. *)
Fixpoint fields_go (s cur : string) : list string :=
  match s with
  | EmptyString => if String.eqb cur "" then [] else [cur]
  | String c s' =>
      if is_space c then
        (if String.eqb cur "" then [] else [cur]) ++ fields_go s' ""
      else fields_go s' (cur +:+ String c EmptyString)
  end.
Definition Fields (s : string) : list string := fields_go s "".

Fixpoint Join (l : list string) (sep : string) : string :=
  match l with
  | [] => ""
  | [x] => x
  | x :: l' => x +:+ sep +:+ Join l' sep
  end.

(** [strings.ReplaceAll] of one byte by nothing. *)
Fixpoint RemoveByte (s : string) (b : Ascii.ascii) : string :=
  match s with
  | EmptyString => EmptyString
  | String c s' => if Ascii.eqb c b then RemoveByte s' b else String c (RemoveByte s' b)
  end.

(** [s[:n]] for [n] within the length. *)
Fixpoint Take (n : nat) (s : string) : string :=
  match n, s with
  | S n', String c s' => String c (Take n' s')
  | _, _ => EmptyString
  end.

End Strings.

(** * Package path/filepath *)
Module Filepath.

Definition sep : Ascii.ascii := Ascii.ascii_of_N 47.

(** The elements of a cleaned path, last first. *)
Definition clean_step (rooted : bool) (out : list string) (e : string) : list string :=
  if String.eqb e "" || String.eqb e "." then out
  else if String.eqb e ".." then
    match out with
    | [] => if rooted then [] else [".."]
    | o :: out' => if String.eqb o ".." then ".." :: out else out'
    end
  else e :: out.

Definition Clean (p : string) : string :=
  let rooted := match p with String c _ => Ascii.eqb c sep | EmptyString => false end in
  let body := Strings.Join (rev (foldl (clean_step rooted) [] (Strings.SplitByte p sep))) "/" in
  if rooted then "/" +:+ body
  else if String.eqb body "" then "." else body.

Definition Join (l : list string) : string :=
  match filter (λ s, s ≠ "") l with
  | [] => ""
  | l' => Clean (Strings.Join l' "/")
  end.

(** [filepath.Ext]: from the last dot of the last element. *)
Fixpoint ext_go (s cur : string) : string :=
  match s with
  | EmptyString => cur
  | String c s' =>
      if Ascii.eqb c sep then ext_go s' ""
      else if Ascii.eqb c (Ascii.ascii_of_N 46) then ext_go s' (String c "")
      else ext_go s' (if String.eqb cur "" then "" else cur +:+ String c "")
  end.
Definition Ext (s : string) : string := ext_go s "".

End Filepath.

(** * Byte-level formatting *)
Definition hex_digit (n : N) : Ascii.ascii :=
  if (n <? 10)%N then Ascii.ascii_of_N (48 + n) else Ascii.ascii_of_N (87 + n).

(** [%02x] of a byte. *)
Definition hex02 (n : N) : string :=
  String (hex_digit ((n / 16) `mod` 16)) (String (hex_digit (n `mod` 16)) EmptyString).

Definition hex_EncodeToString (bs : list N) : string :=
  foldr (λ b s, hex02 b +:+ s) "" bs.

Definition bytes_of (s : string) : list N :=
  map Ascii.N_of_ascii (String.list_ascii_of_string s).

Definition of_bytes (bs : list N) : string :=
  String.string_of_list_ascii (map Ascii.ascii_of_N bs).

Definition dquote : Ascii.ascii := Ascii.ascii_of_N 34.
Definition backslash : Ascii.ascii := Ascii.ascii_of_N 92.

(** One byte of [strconv.Quote]; bytes from 0x80 on are copied (the printable
    part of UTF-8 is). *)
Definition quote_byte (c : Ascii.ascii) : string :=
  let n := Ascii.N_of_ascii c in
  let esc (x : N) := String backslash (String (Ascii.ascii_of_N x) EmptyString) in
  if (n =? 34)%N || (n =? 92)%N then esc n
  else if (n =? 7)%N then esc 97%N
  else if (n =? 8)%N then esc 98%N
  else if (n =? 12)%N then esc 102%N
  else if (n =? 10)%N then esc 110%N
  else if (n =? 13)%N then esc 114%N
  else if (n =? 9)%N then esc 116%N
  else if (n =? 11)%N then esc 118%N
  else if (n <? 32)%N || (n =? 127)%N then esc 120%N +:+ hex02 n
  else String c EmptyString.

(** [fmt]'s [%q]. *)
Definition Quote (s : string) : string :=
  String dquote EmptyString
  +:+ foldr (λ c r, quote_byte c +:+ r) "" (String.list_ascii_of_string s)
  +:+ String dquote EmptyString.

(** * crypto/sha256 (FIPS 180-4), on 32-bit words held in [N] *)
Module Sha256.

Definition w32 (n : N) : N := N.land n 0xffffffff.
Definition add32 (a b : N) : N := w32 (a + b).
Definition rotr (k x : N) : N := N.lor (N.shiftr x k) (w32 (N.shiftl x (32 - k))).
Definition not32 (x : N) : N := N.lxor x 0xffffffff.

Definition Ch (x y z : N) : N := N.lxor (N.land x y) (N.land (not32 x) z).
Definition Maj (x y z : N) : N := N.lxor (N.lxor (N.land x y) (N.land x z)) (N.land y z).
Definition Sig0 (x : N) : N := N.lxor (N.lxor (rotr 2 x) (rotr 13 x)) (rotr 22 x).
Definition Sig1 (x : N) : N := N.lxor (N.lxor (rotr 6 x) (rotr 11 x)) (rotr 25 x).
Definition sig0 (x : N) : N := N.lxor (N.lxor (rotr 7 x) (rotr 18 x)) (N.shiftr x 3).
Definition sig1 (x : N) : N := N.lxor (N.lxor (rotr 17 x) (rotr 19 x)) (N.shiftr x 10).

(** The constants as the standard defines them: the first 32 bits of the
    fractional parts of the cube roots (for [K]) and square roots (for [H0]) of
    the first primes. *)
Definition is_prime (n : N) : bool :=
  forallb (λ d, negb (N.eqb (n mod (N.of_nat d)) 0)) (seq 2 (N.to_nat (N.sqrt n) - 1)).
Definition primes (n : nat) : list N :=
  take n (List.filter is_prime (map N.of_nat (seq 2 400))).

(** The integer cube root, bit by bit from bit [k - 1] down. *)
Fixpoint cube_root (k : nat) (acc x : N) : N :=
  match k with
  | O => acc
  | S k' =>
      let t := (acc + N.shiftl 1 (N.of_nat k'))%N in
      cube_root k' (if (t * t * t <=? x)%N then t else acc) x
  end.

Definition K : list N :=
  Eval vm_compute in map (λ p, w32 (cube_root 36 0 (N.shiftl p 96))) (primes 64).
Definition H0 : list N :=
  Eval vm_compute in map (λ p, w32 (N.sqrt (N.shiftl p 64))) (primes 8).

Definition be_bytes (n : nat) (x : N) : list N :=
  map (λ i, N.land (N.shiftr x (8 * N.of_nat (n - 1 - i))) 0xff) (seq 0 n).

(** The message, 0x80, zeros up to 56 modulo 64, and the bit length. *)
Definition pad (m : list N) : list N :=
  let l := length m in
  m ++ [0x80%N] ++ replicate ((55 + 64 - l `mod` 64) `mod` 64) 0%N
    ++ be_bytes 8 (8 * N.of_nat l).

Fixpoint words (n : nat) (bs : list N) : list N :=
  match n, bs with
  | S n', a :: b :: c :: d :: r =>
      N.lor (N.shiftl a 24) (N.lor (N.shiftl b 16) (N.lor (N.shiftl c 8) d)) :: words n' r
  | _, _ => []
  end.

(** The schedule is kept newest first: W[t-2], W[t-7], W[t-15], W[t-16] are at
    positions 1, 6, 14, 15. *)
Fixpoint extend (n : nat) (rev_w : list N) : list N :=
  match n with
  | O => rev_w
  | S n' =>
      let g i := nth i rev_w 0%N in
      extend n' (add32 (add32 (sig1 (g 1)) (g 6)) (add32 (sig0 (g 14)) (g 15)) :: rev_w)
  end.

Definition round (st : list N) (kw : N * N) : list N :=
  match st with
  | [a; b; c; d; e; f; g; h] =>
      let t1 := add32 (add32 (add32 h (Sig1 e)) (add32 (Ch e f g) kw.1)) kw.2 in
      let t2 := add32 (Sig0 a) (Maj a b c) in
      [add32 t1 t2; a; b; c; add32 d t1; e; f; g]
  | _ => st
  end.

Definition compress (h : list N) (block : list N) : list N :=
  let w := rev (extend 48 (rev (words 16 block))) in
  zip_with add32 h (foldl round h (zip K w)).

Fixpoint blocks (n : nat) (h : list N) (bs : list N) : list N :=
  match n with
  | O => h
  | S n' => blocks n' (compress h (take 64 bs)) (drop 64 bs)
  end.

Definition Sum256 (m : list N) : list N :=
  let p := pad m in
  foldr (λ x r, be_bytes 4 x ++ r) [] (blocks (length p / 64) H0 p).

(** The published test vector for "abc", and the digest has 32 bytes. *)
Example Sum256_abc : hex_EncodeToString (Sum256 (bytes_of "abc"))
  = "ba7816bf8f01cfea414140de5dae2223b00361a396177a9cb410ff61f20015ad".
Proof. vm_compute. reflexivity. Qed.

Example Sum256_two_blocks :
  hex_EncodeToString (Sum256 (bytes_of "abcdbcdecdefdefgefghfghighijhijkijkljklmklmnlmnomnopnopq"))
  = "248d6a61d20638b8e5c026930c3e6039a33ce45964ff2167f6ecedd419db06c1".
Proof. vm_compute. reflexivity. Qed.

End Sha256.

(** * encoding/base64 *)
Module Base64.

Definition alphabet : string :=
  "ABCDEFGHIJKLMNOPQRSTUVWXYZabcdefghijklmnopqrstuvwxyz0123456789+/".

Definition value (c : Ascii.ascii) : option N :=
  N.of_nat <$> String.index 0 (String c EmptyString) alphabet.

(** Newlines are skipped by the decoder. *)
Definition skip_newlines (s : string) : string :=
  Strings.RemoveByte (Strings.RemoveByte s (Ascii.ascii_of_N 10)) (Ascii.ascii_of_N 13).

Definition eq_sign : Ascii.ascii := Ascii.ascii_of_N 61.

(** Quanta of four digits; the last one may be shorter ([padded] = false,
    [RawStdEncoding]) or padded ([padded] = true, [StdEncoding]).  Decoding is
    not strict: leftover bits of the last digit are ignored. *)
Fixpoint decode_go (padded : bool) (n : nat) (s : string) : option (list N) :=
  match n with
  | O => None
  | S n' =>
    match s with
    | EmptyString => Some []
    | String a (String b (String c (String d r))) =>
        va ← value a; vb ← value b;
        if padded && Ascii.eqb c eq_sign && Ascii.eqb d eq_sign && String.eqb r "" then
          Some [N.lor (N.shiftl va 2) (N.shiftr vb 4)]
        else
          vc ← value c;
          if padded && Ascii.eqb d eq_sign && String.eqb r "" then
            Some [N.lor (N.shiftl va 2) (N.shiftr vb 4);
                  N.lor (N.land (N.shiftl vb 4) 0xff) (N.shiftr vc 2)]
          else
            vd ← value d;
            rest ← decode_go padded n' r;
            Some (N.lor (N.shiftl va 2) (N.shiftr vb 4)
                  :: N.lor (N.land (N.shiftl vb 4) 0xff) (N.shiftr vc 2)
                  :: N.lor (N.land (N.shiftl vc 6) 0xff) vd :: rest)
    | String a (String b EmptyString) =>
        if padded then None else
        va ← value a; vb ← value b;
        Some [N.lor (N.shiftl va 2) (N.shiftr vb 4)]
    | String a (String b (String c EmptyString)) =>
        if padded then None else
        va ← value a; vb ← value b; vc ← value c;
        Some [N.lor (N.shiftl va 2) (N.shiftr vb 4);
              N.lor (N.land (N.shiftl vb 4) 0xff) (N.shiftr vc 2)]
    | _ => None
    end
  end.

Definition StdDecode (s : string) : option (list N) :=
  let t := skip_newlines s in decode_go true (S (String.length t)) t.

Definition RawStdDecode (s : string) : option (list N) :=
  let t := skip_newlines s in decode_go false (S (String.length t)) t.

Example decode_padded : StdDecode "aGVsbG8=" = Some (bytes_of "hello").
Proof. vm_compute. reflexivity. Qed.
Example decode_raw : RawStdDecode "aGVsbG8" = Some (bytes_of "hello").
Proof. vm_compute. reflexivity. Qed.

End Base64.

(** * Package strconv *)
Module Strconv.

Definition is_digit (c : Ascii.ascii) : bool :=
  let n := Ascii.N_of_ascii c in ((48 <=? n) && (n <=? 57))%N.

Fixpoint all_digits (s : string) : bool :=
  match s with
  | EmptyString => true
  | String c s' => is_digit c && all_digits s'
  end.

Fixpoint value (s : string) (acc : Z) : Z :=
  match s with
  | EmptyString => acc
  | String c s' => value s' (acc * 10 + (Z.of_N (Ascii.N_of_ascii c) - 48))
  end.

(** [strconv.ParseInt(s, 10, 64)]: the value and whether the error is nil.  On
    a syntax error the value is 0, out of range it is the nearest bound. *)
Definition unsigned (s : string) : option Z :=
  if negb (String.eqb s "") && all_digits s then Some (value s 0) else None.

Definition ParseInt (s : string) : Z * bool :=
  let '(neg, body) :=
    match s with
    | String c s' =>
        if Ascii.eqb c (Ascii.ascii_of_N 45) then (true, s')
        else if Ascii.eqb c (Ascii.ascii_of_N 43) then (false, s')
        else (false, s)
    | EmptyString => (false, "")
    end in
  match unsigned body with
  | None => (0%Z, false)
  | Some n =>
      let v := if (neg : bool) then (- n)%Z else n in
      if (2 ^ 63 <=? v)%Z then (2 ^ 63 - 1, false)%Z
      else if (v <? - 2 ^ 63)%Z then (- 2 ^ 63, false)%Z
      else (v, true)
  end.

(** [strconv.Atoi], where [int] has 64 bits: the value when the error is nil. *)
Definition Atoi (s : string) : option Z :=
  let '(v, ok) := ParseInt s in if (ok : bool) then Some v else None.

(** Whatever the text, the value fits in 64 bits. *)
Lemma ParseInt_range s : in_int64 (ParseInt s).1.
Proof.
  unfold ParseInt, in_int64. repeat case_match; simplify_eq; simpl; try lia;
    repeat match goal with
      | H : (_ <=? _)%Z = false |- _ => apply Z.leb_gt in H
      | H : (_ <? _)%Z = false |- _ => apply Z.ltb_ge in H
      end; lia.
Qed.

Lemma Atoi_range s v : Atoi s = Some v → in_int64 v.
Proof.
  unfold Atoi. pose proof (ParseInt_range s) as H. destruct (ParseInt s) as [x []]; [|done].
  by intros [= <-].
Qed.

Example Atoi_pid : Atoi "4711" = Some 4711%Z.
Proof. reflexivity. Qed.
Example ParseInt_large : ParseInt "-9223372036854775809" = ((- 2 ^ 63)%Z, false).
Proof. vm_compute. reflexivity. Qed.

End Strconv.
