(* ===== verification/GoNet.v ===== *)
(** The part of Go's packages [net] and [net/netip] the address code uses:
    parsing of IP addresses and CIDR blocks (IPv4, IPv6 and IPv4-in-IPv6),
    masks, containment and printing.  The theorem the clients rely on is the
    round trip: an IPv4 address printed by [IP.String] parses back to itself,
    with or without a prefix length. *)
From stdpp Require Import base strings list numbers pretty.
From S2P Require Import Prelude.
From S2P Require Import GoStd.
From stdpp Require Import options.
Local Open Scope Z_scope.

Abbreviation chars := (list Ascii.ascii).

Definition code (c : Ascii.ascii) : Z := Z.of_N (Ascii.N_of_ascii c).
Definition is_digit (c : Ascii.ascii) : bool := (48 <=? code c) && (code c <=? 57).
Definition dot : Ascii.ascii := Ascii.ascii_of_N 46.
Definition colon : Ascii.ascii := Ascii.ascii_of_N 58.
Definition percent : Ascii.ascii := Ascii.ascii_of_N 37.
Definition slash : Ascii.ascii := Ascii.ascii_of_N 47.

(** * netip *)

(** [parseIPv4Fields]: [prev] is the byte before the current position (none at
    the start), [val] and [digLen] the octet being read, [fields] the octets
    already stored. *)
Fixpoint parseIPv4Fields (s : chars) (prev : option Ascii.ascii) (val digLen : Z)
    (fields : list Z) : option (list Z) :=
  match s with
  | [] => if bool_decide (length fields = 3)%nat then Some (fields ++ [val]) else None
  | c :: s' =>
      if is_digit c then
        if (digLen =? 1) && (val =? 0) then None
        else
          let val' := val * 10 + (code c - 48) in
          if val' >? 255 then None
          else parseIPv4Fields s' (Some c) val' (digLen + 1) fields
      else if Ascii.eqb c dot then
        if match prev with
           | None => true
           | Some p => Ascii.eqb p dot
           end || match s' with [] => true | _ => false end then None
        else if bool_decide (length fields = 3)%nat then None
        else parseIPv4Fields s' (Some c) 0 0 (fields ++ [val])
      else None
  end.

Definition hex_value (c : Ascii.ascii) : option Z :=
  let n := code c in
  if (48 <=? n) && (n <=? 57) then Some (n - 48)
  else if (97 <=? n) && (n <=? 102) then Some (n - 87)
  else if (65 <=? n) && (n <=? 70) then Some (n - 55)
  else None.

(** The hexadecimal number at the head of [s]: its value, how many digits, and
    the rest; [None] beyond four digits. *)
Fixpoint hex_run (s : chars) (acc off : Z) : option (Z * Z * chars) :=
  match s with
  | [] => Some (acc, off, [])
  | c :: s' =>
      match hex_value c with
      | None => Some (acc, off, s)
      | Some v => if off >? 3 then None else hex_run s' (acc * 16 + v) (off + 1)
      end
  end.

(** The loop of [parseIPv6].  [ip] holds the bytes written so far, [ellipsis]
    where [::] stood; the result is the bytes, the ellipsis and what of the
    string was not consumed. *)
Fixpoint parseIPv6_loop (fuel : nat) (s : chars) (ip : list Z) (ellipsis : option nat)
    : option (list Z * option nat * chars) :=
  match fuel with
  | O => Some (ip, ellipsis, s)
  | S fuel' =>
      '(acc, off, rest) ← hex_run s 0 0;
      if off =? 0 then None
      else if match rest with c :: _ => Ascii.eqb c dot | [] => false end then
        if match ellipsis with None => negb (bool_decide (length ip = 12)%nat) | _ => false end
        then None
        else if bool_decide (12 < length ip)%nat then None
        else v4 ← parseIPv4Fields s None 0 0 []; Some (ip ++ v4, ellipsis, [])
      else
        let ip' := ip ++ [acc / 256; acc `mod` 256] in
        match rest with
        | [] => Some (ip', ellipsis, [])
        | [_] => None
        | c :: c2 :: rest' =>
            if negb (Ascii.eqb c colon) then None
            else if Ascii.eqb c2 colon then
              match ellipsis with
              | Some _ => None
              | None =>
                  match rest' with
                  | [] => Some (ip', Some (length ip'), [])
                  | _ => parseIPv6_loop fuel' rest' ip' (Some (length ip'))
                  end
              end
            else parseIPv6_loop fuel' (c2 :: rest') ip' ellipsis
        end
  end.

(** The address without its zone: eight turns of the loop fill 16 bytes. *)
Definition parseIPv6_body (s : chars) : option (list Z) :=
  let finish (r : list Z * option nat * chars) :=
    let '(ip, ellipsis, rest) := r in
    match rest with
    | _ :: _ => None
    | [] =>
        if bool_decide (length ip < 16)%nat then
          match ellipsis with
          | None => None
          | Some e => Some (take e ip ++ replicate (16 - length ip) 0 ++ drop e ip)
          end
        else match ellipsis with Some _ => None | None => Some ip end
    end in
  match s with
  | c1 :: c2 :: s' =>
      if Ascii.eqb c1 colon && Ascii.eqb c2 colon then
        match s' with
        | [] => Some (replicate 16 0)
        | _ => r ← parseIPv6_loop 8 s' [] (Some O); finish r
        end
      else r ← parseIPv6_loop 8 s [] None; finish r
  | _ => r ← parseIPv6_loop 8 s [] None; finish r
  end.

(** [netip.Addr]: the family and the bytes, 4 or 16 of them; the zone only
    matters by being there or not. *)
Record Addr := mkAddr { a_is4 : bool; a_bytes : list Z; a_zone : bool }.

Definition parseIPv6 (s : chars) : option Addr :=
  match Strings.CutByte (String.string_of_list_ascii s) percent with
  | None => ip ← parseIPv6_body s; Some (mkAddr false ip false)
  | Some (h, zone) =>
      if String.eqb zone "" then None
      else ip ← parseIPv6_body (String.list_ascii_of_string h); Some (mkAddr false ip true)
  end.

(** The first of [.], [:] and [%] decides. *)
Fixpoint addr_kind (s : chars) : option Ascii.ascii :=
  match s with
  | [] => None
  | c :: s' =>
      if Ascii.eqb c dot || Ascii.eqb c colon || Ascii.eqb c percent then Some c
      else addr_kind s'
  end.

Definition ParseAddr (str : string) : option Addr :=
  let s := String.list_ascii_of_string str in
  match addr_kind s with
  | None => None
  | Some c =>
      if Ascii.eqb c dot then
        b ← parseIPv4Fields s None 0 0 []; Some (mkAddr true b false)
      else if Ascii.eqb c colon then parseIPv6 s
      else None
  end.

(** * net *)

(** [net.IP]: no bytes (nil), 4 or 16. *)
Abbreviation IP := (list Z).

Definition v4InV6Prefix : list Z := replicate 10 0 ++ [255; 255].

Definition As16 (a : Addr) : IP := if a_is4 a then v4InV6Prefix ++ a_bytes a else a_bytes a.
Definition BitLen (a : Addr) : Z := if a_is4 a then 32 else 128.

Definition To4 (ip : IP) : option IP :=
  if bool_decide (length ip = 4)%nat then Some ip
  else if bool_decide (length ip = 16)%nat && bool_decide (take 12 ip = v4InV6Prefix)
  then Some (drop 12 ip) else None.

Definition ParseIP (s : string) : option IP :=
  a ← ParseAddr s; if a_zone a then None else Some (As16 a).

(** [dtoi]: a decimal number below 0xFFFFFF that is the whole string. *)
Fixpoint dtoi (s : chars) (n : Z) : option Z :=
  match s with
  | [] => Some n
  | c :: s' =>
      if is_digit c then
        let n' := n * 10 + (code c - 48) in
        if n' >=? 0xFFFFFF then None else dtoi s' n'
      else None
  end.

(** [CIDRMask(n, 8 * len)] as bytes. *)
Definition CIDRMask (n : Z) (len : nat) : list Z :=
  map (λ i : nat, let k := Z.max 0 (Z.min 8 (n - 8 * Z.of_nat i)) in 256 - 2 ^ (8 - k)) (seq 0 len).

Record IPNet := mkIPNet { n_IP : IP; n_Mask : list Z }.

(** [IP.Mask]. *)
Definition Mask (ip : IP) (mask : list Z) : IP :=
  let mask := if bool_decide (length mask = 16)%nat && bool_decide (length ip = 4)%nat
                 && bool_decide (take 12 mask = replicate 12 255) then drop 12 mask else mask in
  let ip := if bool_decide (length mask = 4)%nat && bool_decide (length ip = 16)%nat
               && bool_decide (take 12 ip = v4InV6Prefix) then drop 12 ip else ip in
  if bool_decide (length ip = length mask) then zip_with Z.land ip mask else [].

(** [ParseCIDR]; its error text is "invalid CIDR address: " and the input. *)
Definition ParseCIDR (s : string) : option (IP * IPNet) :=
  '(addr, mask) ← Strings.CutByte s slash;
  a ← ParseAddr addr;
  if a_zone a then None
  else
    n ← (if String.eqb mask "" then None else dtoi (String.list_ascii_of_string mask) 0);
    if n >? BitLen a then None
    else
      let m := CIDRMask n (if a_is4 a then 4 else 16) in
      Some (As16 a, mkIPNet (Mask (As16 a) m) m).

Definition ParseCIDR_error (s : string) : string := "invalid CIDR address: " +:+ s.

(** [IPMask.Size]'s first result, for a mask built by [CIDRMask]: the number
    of leading ones. *)
Fixpoint byte_ones (fuel : nat) (b : Z) : Z :=
  match fuel with
  | O => 0
  | S f => if Z.testbit b 7 then 1 + byte_ones f (Z.land (Z.shiftl b 1) 255) else 0
  end.

Fixpoint mask_ones (m : list Z) : Z :=
  match m with
  | [] => 0
  | b :: m' => if b =? 255 then 8 + mask_ones m' else byte_ones 8 b
  end.

(** [IPNet.Contains]. *)
Definition Contains (n : IPNet) (ip : IP) : bool :=
  let nn := match To4 (n_IP n) with Some x => x | None => n_IP n end in
  let m := if bool_decide (length (n_Mask n) = 16)%nat && bool_decide (length nn = 4)%nat
           then drop 12 (n_Mask n) else n_Mask n in
  let x := match To4 ip with Some x => x | None => ip end in
  bool_decide (length nn = length m) && bool_decide (length x = length nn) &&
  bool_decide (zip_with Z.land nn m = zip_with Z.land x m).

(** [%x] of a 16-bit group. *)
Definition hex_group (n : Z) : string :=
  let d k := String (hex_digit (Z.to_N (Z.land (Z.shiftr n k) 15))) EmptyString in
  if n >=? 4096 then d 12 +:+ d 8 +:+ d 4 +:+ d 0
  else if n >=? 256 then d 8 +:+ d 4 +:+ d 0
  else if n >=? 16 then d 4 +:+ d 0 else d 0.

(** Length of the run of zero groups at the head. *)
Fixpoint zero_run (gs : list Z) : nat :=
  match gs with
  | g :: gs' => if g =? 0 then S (zero_run gs') else O
  | [] => O
  end.

(** The first longest run of at least two zero groups: (start, length). *)
Fixpoint best_run (gs : list Z) (i : nat) (best : nat * nat) : nat * nat :=
  match gs with
  | [] => best
  | g :: gs' =>
      let r := zero_run gs in
      best_run gs' (S i) (if bool_decide (best.2 < r ∧ 2 <= r)%nat then (i, r) else best)
  end.

Fixpoint groups (bs : list Z) : list Z :=
  match bs with
  | a :: b :: r => (a * 256 + b) :: groups r
  | _ => []
  end.

(** [Addr.String] of an IPv6 address without zone. *)
Definition string6 (bs : list Z) : string :=
  let gs := groups bs in
  let '(z, n) := best_run gs 0 (O, O) in
  if bool_decide (n = 0)%nat then Strings.Join (map hex_group gs) ":"
  else Strings.Join (map hex_group (take z gs)) ":" +:+ "::"
       +:+ Strings.Join (map hex_group (drop (z + n) gs)) ":".

Definition string4 (bs : list Z) : string := Strings.Join (map (λ b : Z, pretty b) bs) ".".

(** [IP.String]. *)
Definition String_IP (ip : IP) : string :=
  match To4 ip with
  | Some p4 => string4 p4
  | None =>
      if bool_decide (length ip = 0)%nat then "<nil>"
      else if bool_decide (length ip = 16)%nat then string6 ip
      else "?" +:+ hex_EncodeToString (map Z.to_N ip)
  end.

(** [binary.BigEndian.Uint32]: the first four bytes. *)
Definition Uint32 (bs : list Z) : Z :=
  match bs with
  | a :: b :: c :: d :: _ => a * 2 ^ 24 + b * 2 ^ 16 + c * 2 ^ 8 + d
  | _ => 0
  end.

(** [binary.BigEndian.PutUint32] into a fresh slice of four bytes. *)
Definition PutUint32 (n : Z) : list Z :=
  [(n / 2 ^ 24) `mod` 256; (n / 2 ^ 16) `mod` 256; (n / 2 ^ 8) `mod` 256; n `mod` 256].

(** * Octets and 32-bit words *)
Definition octet (b : Z) : Prop := 0 ≤ b < 256.
Definition octets4 (bs : list Z) : Prop := length bs = 4%nat ∧ Forall octet bs.

Lemma octets4_inv bs : octets4 bs →
  ∃ a b c d, bs = [a; b; c; d] ∧ octet a ∧ octet b ∧ octet c ∧ octet d.
Proof.
  intros [Hl Hf]. do 5 (destruct bs as [|? bs]; try done).
  apply Forall_cons in Hf as [? Hf]. do 3 (apply Forall_cons in Hf as [? Hf]). eauto 10.
Qed.

Lemma PutUint32_octets n : octets4 (PutUint32 n).
Proof.
  split; [done|]. unfold PutUint32, octet.
  repeat constructor; apply Z.mod_pos_bound; lia.
Qed.

Lemma Uint32_range bs : octets4 bs → in_uint32 (Uint32 bs).
Proof.
  intros (a & b & c & d & -> & ?)%octets4_inv. unfold octet, in_uint32 in *. simpl. lia.
Qed.

Lemma Uint32_PutUint32 n : in_uint32 n → Uint32 (PutUint32 n) = n.
Proof.
  unfold in_uint32, Uint32, PutUint32. intros Hn.
  pose proof (Z.div_mod n 256). pose proof (Z.div_mod (n / 2 ^ 8) 256).
  pose proof (Z.div_mod (n / 2 ^ 16) 256).
  assert (n / 2 ^ 8 / 256 = n / 2 ^ 16) by (rewrite Z.div_div by lia; done).
  assert (n / 2 ^ 16 / 256 = n / 2 ^ 24) by (rewrite Z.div_div by lia; done).
  rewrite (Z.mod_small (n / 2 ^ 24)).
  - change (2 ^ 8) with 256 in *. lia.
  - split; [apply Z.div_pos; lia|apply Z.div_lt_upper_bound; lia].
Qed.

Lemma PutUint32_Uint32 bs : octets4 bs → PutUint32 (Uint32 bs) = bs.
Proof.
  intros (a & b & c & d & -> & Ha & Hb & Hc & Hd)%octets4_inv. unfold octet in *.
  assert (Hr : in_uint32 (Uint32 [a; b; c; d])) by (unfold in_uint32; simpl; lia).
  pose proof (Uint32_PutUint32 _ Hr) as E.
  pose proof (PutUint32_octets (Uint32 [a; b; c; d])) as Ho.
  revert E Ho. generalize (PutUint32 (Uint32 [a; b; c; d])). intros l E Ho.
  apply octets4_inv in Ho as (a' & b' & c' & d' & -> & ?). unfold octet in *.
  simpl in E. repeat f_equal; lia.
Qed.

Lemma PutUint32_inj n m : in_uint32 n → in_uint32 m → PutUint32 n = PutUint32 m → n = m.
Proof.
  intros Hn Hm E. by rewrite <-(Uint32_PutUint32 n), <-(Uint32_PutUint32 m), E.
Qed.

(** ** Bitwise operations act on the bytes *)
Lemma land_cat hi lo hi' lo' k : 0 ≤ k → 0 ≤ lo < 2 ^ k → 0 ≤ lo' < 2 ^ k →
  Z.land (hi * 2 ^ k + lo) (hi' * 2 ^ k + lo') = Z.land hi hi' * 2 ^ k + Z.land lo lo'.
Proof.
  intros Hk Hl Hl'.
  rewrite (Z.div_mod (Z.land (hi * 2 ^ k + lo) (hi' * 2 ^ k + lo')) (2 ^ k)) by lia.
  assert (Hd : ∀ h l, 0 ≤ l < 2 ^ k → Z.shiftr (h * 2 ^ k + l) k = h).
  { intros h l ?. rewrite Z.shiftr_div_pow2, Z.div_add_l, Z.div_small by lia. lia. }
  assert (Hm : ∀ h l, 0 ≤ l < 2 ^ k → Z.land (h * 2 ^ k + l) (Z.ones k) = l).
  { intros h l ?. rewrite Z.land_ones, Z.add_comm, Z.mod_add, Z.mod_small by lia. done. }
  rewrite <-Z.shiftr_div_pow2, Z.shiftr_land, !Hd by done.
  rewrite <-Z.land_ones by done.
  replace (Z.land (Z.land _ _) (Z.ones k)) with (Z.land lo lo'); [lia|].
  rewrite <-(Hm hi lo) at 1 by done. rewrite <-(Hm hi' lo') at 1 by done.
  apply Z.bits_inj'. intros i _. rewrite !Z.land_spec.
  by destruct (Z.testbit (Z.ones k) i); rewrite ?andb_true_r, ?andb_false_r.
Qed.

Lemma land_octet a b : octet a → 0 ≤ Z.land a b < 256.
Proof.
  unfold octet. intros Ha.
  replace (Z.land a b) with (Z.land (Z.land a b) (Z.ones 8)).
  - rewrite Z.land_ones by lia. apply Z.mod_pos_bound. lia.
  - rewrite <-Z.land_assoc, (Z.land_comm b), Z.land_assoc, Z.land_ones by lia.
    by rewrite Z.mod_small.
Qed.

Lemma zip_land_octets xs ys : octets4 xs → length ys = 4%nat → octets4 (zip_with Z.land xs ys).
Proof.
  intros (a & b & c & d & -> & ?)%octets4_inv ?.
  do 5 (destruct ys as [|? ys]; try done).
  split; [done|]. simpl. repeat constructor; apply land_octet; tauto.
Qed.

Lemma Uint32_land xs ys : octets4 xs → octets4 ys →
  Uint32 (zip_with Z.land xs ys) = Z.land (Uint32 xs) (Uint32 ys).
Proof.
  intros (a & b & c & d & -> & ?)%octets4_inv (a' & b' & c' & d' & -> & ?)%octets4_inv.
  unfold octet in *. unfold Uint32, zip_with.
  replace (a * 2 ^ 24 + b * 2 ^ 16 + c * 2 ^ 8 + d)
    with (((a * 2 ^ 8 + b) * 2 ^ 8 + c) * 2 ^ 8 + d) by lia.
  replace (a' * 2 ^ 24 + b' * 2 ^ 16 + c' * 2 ^ 8 + d')
    with (((a' * 2 ^ 8 + b') * 2 ^ 8 + c') * 2 ^ 8 + d') by lia.
  rewrite !land_cat by lia. lia.
Qed.

(** ** Prefix masks *)
Definition ones_mask (p : Z) : Z := 2 ^ 32 - 2 ^ (32 - p).

(** A property of a prefix length is checked on all 33 of them. *)
Definition prefix_lengths : list Z := map Z.of_nat (seq 0 33).

Lemma prefix_lengths_spec p : 0 ≤ p ≤ 32 → p ∈ prefix_lengths.
Proof.
  intros ?. apply list_elem_of_fmap. exists (Z.to_nat p). split; [lia|].
  apply elem_of_seq. lia.
Qed.

Lemma by_prefix (P : Z → Prop) `{∀ p, Decision (P p)} :
  forallb (λ p, bool_decide (P p)) prefix_lengths = true → ∀ p, 0 ≤ p ≤ 32 → P p.
Proof.
  rewrite forallb_forall. intros Hall p Hp.
  eapply bool_decide_eq_true_1, Hall, list_elem_of_In, prefix_lengths_spec, Hp.
Qed.

Lemma CIDRMask_Uint32 p : 0 ≤ p ≤ 32 → Uint32 (CIDRMask p 4) = ones_mask p.
Proof. apply (by_prefix (λ p, Uint32 (CIDRMask p 4) = ones_mask p)). vm_compute. reflexivity. Qed.

#[global] Instance octet_dec b : Decision (octet b).
Proof. unfold octet. apply _. Defined.

Lemma CIDRMask_octets p : 0 ≤ p ≤ 32 → octets4 (CIDRMask p 4).
Proof.
  intros Hp. split; [done|]. revert p Hp.
  apply (by_prefix (λ p, Forall octet (CIDRMask p 4))). vm_compute. reflexivity.
Qed.

Lemma mask_ones_CIDRMask p : 0 ≤ p ≤ 32 → mask_ones (CIDRMask p 4) = p.
Proof. apply (by_prefix (λ p, mask_ones (CIDRMask p 4) = p)). vm_compute. reflexivity. Qed.

(** Masking with a prefix rounds down to a multiple of the block size. *)
Lemma land_ones_mask n p : in_uint32 n → 0 ≤ p ≤ 32 →
  Z.land n (ones_mask p) = n - n `mod` 2 ^ (32 - p).
Proof.
  intros Hn Hp. unfold ones_mask, in_uint32 in *.
  set (k := 32 - p). assert (0 ≤ k ≤ 32) by lia.
  replace (2 ^ 32 - 2 ^ k) with ((2 ^ (32 - k) - 1) * 2 ^ k + 0).
  2:{ rewrite Z.mul_sub_distr_r, <-Z.pow_add_r by lia.
      replace (32 - k + k) with 32 by lia. lia. }
  rewrite (Z.div_mod n (2 ^ k)) at 1 by lia. rewrite (Z.mul_comm (2 ^ k)).
  rewrite land_cat by (try lia; apply Z.mod_pos_bound; lia).
  rewrite Z.land_0_r. replace (2 ^ (32 - k) - 1) with (Z.ones (32 - k)) by (rewrite Z.ones_equiv; lia).
  assert (0 ≤ n / 2 ^ k < 2 ^ (32 - k)).
  { split; [apply Z.div_pos; lia|]. apply Z.div_lt_upper_bound; [lia|].
    rewrite <-Z.pow_add_r by lia. replace (k + (32 - k)) with 32 by lia. lia. }
  rewrite Z.land_ones, Z.mod_small by lia.
  pose proof (Z.div_mod n (2 ^ k)). lia.
Qed.

(** * Printing and parsing IPv4 *)

(** What a run of digits does to the octet being read. *)
Fixpoint eat (ds : chars) (val digLen : Z) : option (Z * Z) :=
  match ds with
  | [] => Some (val, digLen)
  | c :: ds' =>
      if negb (is_digit c) || ((digLen =? 1) && (val =? 0)) || (val * 10 + (code c - 48) >? 255)
      then None else eat ds' (val * 10 + (code c - 48)) (digLen + 1)
  end.

Lemma parse4_eat ds rest prev val dl fields val' dl' :
  eat ds val dl = Some (val', dl') →
  parseIPv4Fields (ds ++ rest) prev val dl fields
  = parseIPv4Fields rest (match last ds with Some c => Some c | None => prev end) val' dl' fields.
Proof.
  revert prev val dl. induction ds as [|c ds IH]; intros prev val dl;
    [by intros [= <- <-]|]. rewrite last_cons. simpl.
  destruct (is_digit c); simpl; [|done].
  destruct ((dl =? 1) && (val =? 0)); simpl; [done|].
  destruct (_ >? 255); [done|]. intros E. rewrite (IH _ _ _ E).
  by destruct (last ds).
Qed.

(** The decimal text of an octet, as the parser sees it. *)
Definition octet_chars (b : Z) : chars := String.list_ascii_of_string (pretty b).

Definition octet_good (b : Z) : bool :=
  bool_decide (eat (octet_chars b) 0 0 = Some (b, Z.of_nat (length (octet_chars b))))
  && match last (octet_chars b) with Some c => is_digit c | None => false end
  && forallb is_digit (octet_chars b)
  && bool_decide (dtoi (octet_chars b) 0 = Some b).

Lemma octet_good_all b : octet b → octet_good b = true.
Proof.
  intros [??]. assert (Hall : forallb (λ i, octet_good (Z.of_nat i)) (seq 0 256) = true)
    by (vm_compute; reflexivity).
  rewrite forallb_forall in Hall. specialize (Hall (Z.to_nat b)).
  rewrite Z2Nat.id in Hall by lia. apply Hall, in_seq. lia.
Qed.

Lemma octet_chars_parse b rest prev fields : octet b →
  ∃ c l, is_digit c = true ∧
  parseIPv4Fields (octet_chars b ++ rest) prev 0 0 fields
  = parseIPv4Fields rest (Some c) b l fields.
Proof.
  intros Hb%octet_good_all. unfold octet_good in Hb. rewrite !andb_true_iff in Hb.
  destruct Hb as [[[He%bool_decide_eq_true_1 Hl] _] _].
  destruct (last (octet_chars b)) as [c|] eqn:Hc; [|done].
  exists c, (Z.of_nat (length (octet_chars b))). split; [done|].
  by rewrite (parse4_eat _ _ _ _ _ _ _ _ He), Hc.
Qed.

Lemma octet_chars_dtoi b : octet b → dtoi (octet_chars b) 0 = Some b ∧ octet_chars b ≠ [].
Proof.
  intros Hb%octet_good_all. unfold octet_good in Hb. rewrite !andb_true_iff in Hb.
  destruct Hb as [[[_ Hl] _] Hd%bool_decide_eq_true_1]. split; [done|].
  by intros E; rewrite E in Hl.
Qed.

Lemma octet_chars_digits b : octet b → Forall (λ c, is_digit c = true) (octet_chars b).
Proof.
  intros Hb%octet_good_all. unfold octet_good in Hb. rewrite !andb_true_iff, forallb_forall in Hb.
  destruct Hb as [[_ Hb] _].
  apply Forall_forall. intros c Hc%list_elem_of_In. by apply Hb.
Qed.

Lemma list_ascii_app s t :
  String.list_ascii_of_string (s +:+ t)
  = String.list_ascii_of_string s ++ String.list_ascii_of_string t.
Proof. induction s as [|c s IH]; simpl; [done|]. by rewrite IH. Qed.

Definition string4_chars (a b c d : Z) : chars :=
  octet_chars a ++ [dot] ++ octet_chars b ++ [dot] ++ octet_chars c ++ [dot] ++ octet_chars d.

Lemma string4_chars_eq a b c d :
  String.list_ascii_of_string (string4 [a; b; c; d]) = string4_chars a b c d.
Proof. unfold string4, string4_chars, octet_chars. simpl. by rewrite !list_ascii_app. Qed.

(** A dot after an octet opens the next one. *)
Lemma parse4_dot x val l fields b rest : is_digit x = true → octet b → (length fields < 3)%nat →
  ∃ y l', is_digit y = true ∧
  parseIPv4Fields (dot :: octet_chars b ++ rest) (Some x) val l fields
  = parseIPv4Fields rest (Some y) b l' (fields ++ [val]).
Proof.
  intros Hx Hb Hf.
  destruct (octet_chars_parse b rest (Some dot) (fields ++ [val]) Hb) as (y & l' & Hy & E).
  exists y, l'. split; [done|]. rewrite <-E. simpl.
  rewrite bool_decide_false by lia.
  assert (Ascii.eqb x dot = false) as ->.
  { apply Ascii.eqb_neq. intros ->. vm_compute in Hx. done. }
  destruct (octet_chars_dtoi b Hb) as [_ Hne].
  by destruct (octet_chars b).
Qed.

Lemma parse_string4 a b c d : octet a → octet b → octet c → octet d →
  parseIPv4Fields (string4_chars a b c d) None 0 0 [] = Some [a; b; c; d].
Proof.
  intros Ha Hb Hc Hd. unfold string4_chars. cbn [app].
  edestruct (octet_chars_parse a) as (x1 & l1 & H1 & ->); [done|].
  edestruct (parse4_dot x1) as (x2 & l2 & H2 & ->); [done|done|simpl; lia|].
  edestruct (parse4_dot x2) as (x3 & l3 & H3 & ->); [done|done|simpl; lia|].
  rewrite <-(app_nil_r (octet_chars d)).
  edestruct (parse4_dot x3) as (x4 & l4 & H4 & ->); [done|done|simpl; lia|].
  done.
Qed.

Lemma addr_kind_digits ds rest : Forall (λ c, is_digit c = true) ds →
  addr_kind (ds ++ rest) = addr_kind rest.
Proof.
  induction 1 as [|c ds Hc _ IH]; simpl; [done|]. rewrite IH.
  assert (∀ k, is_digit k = false → Ascii.eqb c k = false) as Hk.
  { intros k Hk. apply Ascii.eqb_neq. congruence. }
  by rewrite !Hk by (vm_compute; reflexivity).
Qed.

(** The round trip: the dotted text of four octets parses to them. *)
Lemma ParseAddr_string4 bs : octets4 bs → ParseAddr (string4 bs) = Some (mkAddr true bs false).
Proof.
  intros (a & b & c & d & -> & Ha & Hb & Hc & Hd)%octets4_inv. unfold ParseAddr.
  rewrite string4_chars_eq. unfold string4_chars at 1.
  rewrite addr_kind_digits by by apply octet_chars_digits. simpl.
  by rewrite parse_string4.
Qed.

Lemma To4_v4 bs : octets4 bs → To4 (v4InV6Prefix ++ bs) = Some bs.
Proof.
  intros [Hl _]. unfold To4. by rewrite !length_app, Hl.
Qed.

Lemma ParseIP_string4 bs : octets4 bs → ParseIP (string4 bs) = Some (v4InV6Prefix ++ bs).
Proof. intros H. unfold ParseIP. by rewrite ParseAddr_string4. Qed.

Lemma String_IP_v4 bs : octets4 bs → String_IP (v4InV6Prefix ++ bs) = string4 bs.
Proof. intros H. unfold String_IP. by rewrite To4_v4. Qed.

Lemma String_IP_4 bs : octets4 bs → String_IP bs = string4 bs.
Proof. intros [H _]. unfold String_IP, To4. by rewrite bool_decide_true. Qed.

Lemma CutByte_app s t sep : Forall (λ c, c ≠ sep) (String.list_ascii_of_string s) →
  Strings.CutByte (s +:+ String sep t) sep = Some (s, t).
Proof.
  induction s as [|c s IH]; simpl; intros Hs; [by rewrite Ascii.eqb_refl|].
  inversion_clear Hs as [|?? Hc Hs']. rewrite IH by done.
  by apply Ascii.eqb_neq in Hc as ->.
Qed.

Lemma string4_no_slash bs : octets4 bs →
  Forall (λ c, c ≠ slash) (String.list_ascii_of_string (string4 bs)).
Proof.
  intros (a & b & c & d & -> & Ha & Hb & Hc & Hd)%octets4_inv. rewrite string4_chars_eq.
  assert (Hds : ∀ x, octet x → Forall (λ c, c ≠ slash) (octet_chars x)).
  { intros x Hx%octet_chars_digits. eapply Forall_impl; [exact Hx|].
    intros ch Hch ->. vm_compute in Hch. done. }
  unfold string4_chars. rewrite !Forall_app, !Forall_singleton.
  split_and!; auto; vm_compute; done.
Qed.

(** The text [fmt.Sprintf("%s/%d", ip, ones)] of an IPv4 address. *)
Definition cidr_text (bs : list Z) (p : Z) : string := string4 bs +:+ "/" +:+ pretty p.

Lemma Mask_v4 bs p : octets4 bs → 0 ≤ p ≤ 32 →
  Mask (v4InV6Prefix ++ bs) (CIDRMask p 4) = zip_with Z.land bs (CIDRMask p 4).
Proof.
  intros (a & b & c & d & -> & _)%octets4_inv Hp. reflexivity.
Qed.

Lemma ParseCIDR_cidr_text bs p : octets4 bs → 0 ≤ p ≤ 32 →
  ParseCIDR (cidr_text bs p)
  = Some (v4InV6Prefix ++ bs,
          mkIPNet (zip_with Z.land bs (CIDRMask p 4)) (CIDRMask p 4)).
Proof.
  intros Hbs Hp. unfold ParseCIDR, cidr_text.
  change ("/" +:+ pretty p) with (String slash (pretty p)).
  rewrite (CutByte_app (string4 bs) (pretty p) slash) by (by apply string4_no_slash).
  cbn [mbind option_bind]. rewrite ParseAddr_string4 by done. simpl.
  destruct (octet_chars_dtoi p) as [Hd Hne]; [unfold octet; lia|].
  unfold octet_chars in *. rewrite Hd.
  destruct (String.eqb_spec (pretty p) "") as [E|_]; [by rewrite E in Hne|].
  unfold BitLen, As16. cbn [mbind option_bind a_is4 a_bytes].
  replace (p >? 32) with false by lia.
  by rewrite Mask_v4.
Qed.

(** ** What the parser can return *)
Lemma parseIPv4Fields_octets s prev val dl fields bs :
  parseIPv4Fields s prev val dl fields = Some bs →
  octet val → Forall octet fields → octets4 bs.
Proof.
  revert prev val dl fields. induction s as [|c s IH]; intros prev val dl fields; simpl.
  - case_bool_decide as Hl; intros [= <-] Hv Hf. split; [rewrite length_app; simpl; lia|].
    apply Forall_app; auto.
  - destruct (is_digit c) eqn:Hc.
    + destruct (_ && _); [done|]. destruct (_ >? 255) eqn:Hv; [done|]. intros E ??.
      eapply IH; eauto. unfold is_digit, octet in *. lia.
    + destruct (Ascii.eqb c dot); [|done]. destruct (_ || _); [done|].
      case_bool_decide; [done|]. intros E ??. eapply IH; eauto; [unfold octet; lia|].
      apply Forall_app; auto.
Qed.

Lemma ParseAddr_v4 s a : ParseAddr s = Some a → a_is4 a = true →
  octets4 (a_bytes a) ∧ a_zone a = false.
Proof.
  unfold ParseAddr. destruct (addr_kind _); simpl; [|done]. destruct (Ascii.eqb _ dot).
  - destruct (parseIPv4Fields _ _ _ _ _) eqn:E; simpl; [|done]. intros [= <-] _. simpl.
    split; [|done]. eapply parseIPv4Fields_octets; eauto. unfold octet; lia.
  - destruct (Ascii.eqb _ colon); [|done]. unfold parseIPv6.
    repeat (case_match || destruct (parseIPv6_body _)); simpl in *; try done;
      intros [= <-]; done.
Qed.

Lemma dtoi_nonneg s n k : dtoi s n = Some k → 0 ≤ n → 0 ≤ k.
Proof.
  revert n. induction s as [|c s IH]; intros n; simpl; [by intros [= <-]|].
  destruct (is_digit c) eqn:Hc; [|done]. destruct (_ >=? _); [done|]. intros E ?.
  eapply IH; [done|]. unfold is_digit in Hc. lia.
Qed.

(** A CIDR whose mask has four bytes is an IPv4 block in canonical form. *)
Lemma ParseCIDR_v4 s ip n : ParseCIDR s = Some (ip, n) → length (n_Mask n) = 4%nat →
  ∃ bs p, octets4 bs ∧ 0 ≤ p ≤ 32 ∧ ip = v4InV6Prefix ++ bs ∧
    n = mkIPNet (zip_with Z.land bs (CIDRMask p 4)) (CIDRMask p 4).
Proof.
  unfold ParseCIDR. destruct (Strings.CutByte s slash) as [[addr mask]|]; simpl; [|done].
  destruct (ParseAddr addr) as [a|] eqn:Ha; simpl; [|done].
  destruct (a_zone a); [done|]. destruct (String.eqb mask ""); simpl; [done|].
  destruct (dtoi _ 0) as [p|] eqn:Hp; simpl; [|done].
  destruct (p >? BitLen a) eqn:Hle; [done|]. intros [= <- <-]. simpl.
  apply dtoi_nonneg in Hp; [|lia].
  unfold BitLen, As16 in *. destruct (a_is4 a) eqn:H4; [|done].
  intros _. destruct (ParseAddr_v4 _ _ Ha H4) as [Hbs _].
  exists (a_bytes a), p. split_and!; [done|lia|lia|done|]. by rewrite Mask_v4 by (done || lia).
Qed.

(** On four-byte values [Contains] compares the masked bytes. *)
Lemma Contains_4 nip m x :
  length nip = 4%nat → length m = 4%nat → length x = 4%nat →
  Contains (mkIPNet nip m) x = bool_decide (zip_with Z.land nip m = zip_with Z.land x m).
Proof.
  intros H1 H2 H3. unfold Contains. simpl n_IP; simpl n_Mask. unfold To4.
  rewrite H1, H2, H3. simpl. by rewrite H1, H2, H3.
Qed.
