(* ===== verification/GoJson.v ===== *)
(** Package [encoding/json], as the sources use it: values, their text, and the
    decoding of a value into a struct.

    [Marshal] writes a value as Go does (no spaces, the characters [<], [>] and
    [&] escaped); [Unmarshal] reads a text that holds one value, [Decode] the
    first value of a stream.  Text is taken to be valid UTF-8: bytes from 0x80
    on are copied, where Go would replace an invalid sequence.  Nesting is
    limited to 10000, as in Go.

    Decoding into a struct updates it in place, member by member: an absent
    member and [null] leave a field alone.  A decoder is therefore a function of
    the value and of what the field held before. *)
From stdpp Require Import base strings list numbers pretty gmap.
From S2P Require Import Prelude.
From S2P Require Import GoStd.
From stdpp Require Import options.

(** * Values: object members in order; [JLit] is a number that is not a plain
    integer, kept as text *)
Inductive json :=
| JNull
| JStr (s : string)
| JNum (z : Z)
| JLit (s : string)
| JBool (b : bool)
| JArr (l : list json)
| JObj (kvs : list (string * json)).

(** [omitempty] members. *)
Definition omit_str (k v : string) : list (string * json) :=
  if String.eqb v "" then [] else [(k, JStr v)].
Definition omit_num (k : string) (v : Z) : list (string * json) :=
  if Z.eqb v 0 then [] else [(k, JNum v)].
Definition omit_bool (k : string) (v : bool) : list (string * json) :=
  if v then [(k, JBool true)] else [].
Definition omit_arr (k : string) (l : list json) : list (string * json) :=
  match l with [] => [] | _ => [(k, JArr l)] end.

(** Induction through the lists of a value. *)
Section json_induction.
Context (P : json → Prop).
Context (HNull : P JNull) (HStr : ∀ s, P (JStr s)) (HNum : ∀ z, P (JNum z))
  (HLit : ∀ s, P (JLit s)) (HBool : ∀ b, P (JBool b)).
Context (HArr : ∀ l, Forall P l → P (JArr l)).
Context (HObj : ∀ kvs, Forall (λ kv, P kv.2) kvs → P (JObj kvs)).

Fixpoint json_nested_ind (v : json) : P v :=
  match v with
  | JNull => HNull
  | JStr s => HStr s
  | JNum z => HNum z
  | JLit s => HLit s
  | JBool b => HBool b
  | JArr l =>
      HArr l ((fix go l : Forall P l :=
        match l with
        | [] => Forall_nil_2 _
        | x :: l' => Forall_cons_2 _ _ _ (json_nested_ind x) (go l')
        end) l)
  | JObj kvs =>
      HObj kvs ((fix go kvs : Forall (λ kv, P kv.2) kvs :=
        match kvs with
        | [] => Forall_nil_2 _
        | x :: l' => Forall_cons_2 _ _ _ (json_nested_ind x.2) (go l')
        end) kvs)
  end.

End json_induction.

(** * Text *)
Abbreviation text := (list Ascii.ascii).

Definition chr (n : N) : Ascii.ascii := Ascii.ascii_of_N n.
Definition ord (c : Ascii.ascii) : N := Ascii.N_of_ascii c.
Definition lit (s : string) : text := String.list_ascii_of_string s.

(** ** Writing *)
Definition esc (c : Ascii.ascii) : text :=
  let n := ord c in
  let short (x : N) := [backslash; chr x] in
  if ((n =? 34) || (n =? 92))%N then short n
  else if (n =? 8)%N then short 98%N
  else if (n =? 12)%N then short 102%N
  else if (n =? 10)%N then short 110%N
  else if (n =? 13)%N then short 114%N
  else if (n =? 9)%N then short 116%N
  else if ((n <? 32) || (n =? 60) || (n =? 62) || (n =? 38))%N
  then backslash :: chr 117 :: chr 48 :: chr 48 :: lit (hex02 n)
  else [c].

Definition enc_chars (s : text) : text := dquote :: flat_map esc s ++ [dquote].
Definition enc_string (s : string) : text := enc_chars (lit s).

(** Items between commas. *)
Fixpoint commas (l : list text) : text :=
  match l with
  | [] => []
  | [x] => x
  | x :: l' => x ++ chr 44 :: commas l'
  end.

Fixpoint enc (v : json) : text :=
  match v with
  | JNull => lit "null"
  | JStr s => enc_string s
  | JNum z => lit (pretty z)
  | JLit s => lit s
  | JBool b => lit (if b then "true" else "false")
  | JArr l => chr 91 :: commas (map enc l) ++ [chr 93]
  | JObj kvs =>
      chr 123 :: commas (map (λ kv, enc_string kv.1 ++ chr 58 :: enc kv.2) kvs) ++ [chr 125]
  end.

Definition Marshal (v : json) : string := String.string_of_list_ascii (enc v).

(** ** Reading *)
Definition is_ws (c : Ascii.ascii) : bool :=
  let n := ord c in ((n =? 32) || (n =? 9) || (n =? 10) || (n =? 13))%N.

Fixpoint skip_ws (s : text) : text :=
  match s with
  | c :: s' => if is_ws c then skip_ws s' else s
  | [] => []
  end.

Definition hexval (c : Ascii.ascii) : option N :=
  let n := ord c in
  if ((48 <=? n) && (n <=? 57))%N then Some (n - 48)%N
  else if ((97 <=? n) && (n <=? 102))%N then Some (n - 87)%N
  else if ((65 <=? n) && (n <=? 70))%N then Some (n - 55)%N
  else None.

Definition hex4 (a b c d : Ascii.ascii) : option N :=
  a ← hexval a; b ← hexval b; c ← hexval c; d ← hexval d;
  Some (((a * 16 + b) * 16 + c) * 16 + d)%N.

(** The UTF-8 encoding of a code point. *)
Definition utf8 (u : N) : text :=
  if (u <? 0x80)%N then [chr u]
  else if (u <? 0x800)%N then [chr (0xc0 + u / 64); chr (0x80 + u mod 64)]
  else if (u <? 0x10000)%N
  then [chr (0xe0 + u / 4096); chr (0x80 + (u / 64) mod 64); chr (0x80 + u mod 64)]
  else [chr (0xf0 + u / 262144); chr (0x80 + (u / 4096) mod 64); chr (0x80 + (u / 64) mod 64);
        chr (0x80 + u mod 64)].

Definition is_surrogate (u : N) : bool := ((0xd800 <=? u) && (u <? 0xe000))%N.

(** A one-character escape. *)
Definition unesc (c : Ascii.ascii) : option Ascii.ascii :=
  let n := ord c in
  if ((n =? 34) || (n =? 92) || (n =? 47))%N then Some c
  else if (n =? 98)%N then Some (chr 8)
  else if (n =? 102)%N then Some (chr 12)
  else if (n =? 110)%N then Some (chr 10)
  else if (n =? 114)%N then Some (chr 13)
  else if (n =? 116)%N then Some (chr 9)
  else None.

Definition push (pre : text) (r : option (text * text)) : option (text * text) :=
  match r with Some (s, rest) => Some (pre ++ s, rest) | None => None end.

(** After the opening quote, up to and including the closing one.  Two escaped
    halves of a surrogate pair are one character; a lone half is U+FFFD. *)
Fixpoint dec_chars (s : text) : option (text * text) :=
  match s with
  | [] => None
  | c :: s1 =>
    if (ord c =? 34)%N then Some ([], s1)
    else if (ord c =? 92)%N then
      match s1 with
      | [] => None
      | e :: s2 =>
        if (ord e =? 117)%N then
          match s2 with
          | a :: b :: c' :: d :: s3 =>
            match hex4 a b c' d with
            | None => None
            | Some u =>
              if is_surrogate u then
                match s3 with
                | b1 :: u1 :: a' :: b' :: c'' :: d' :: s4 =>
                  match (if ((u <? 0xdc00) && (ord b1 =? 92) && (ord u1 =? 117))%N
                         then hex4 a' b' c'' d' else None) with
                  | Some v =>
                      if ((0xdc00 <=? v) && (v <? 0xe000))%N
                      then push (utf8 (0x10000 + (u - 0xd800) * 1024 + (v - 0xdc00))) (dec_chars s4)
                      else push (utf8 0xfffd) (dec_chars s3)
                  | None => push (utf8 0xfffd) (dec_chars s3)
                  end
                | _ => push (utf8 0xfffd) (dec_chars s3)
                end
              else push (utf8 u) (dec_chars s3)
            end
          | _ => None
          end
        else match unesc e with
             | Some x => push [x] (dec_chars s2)
             | None => None
             end
      end
    else if (ord c <? 32)%N then None
    else push [c] (dec_chars s1)
  end.

(** Numbers.  A run of digits, and its value. *)
Definition digit (c : Ascii.ascii) : bool := ((48 <=? ord c) && (ord c <=? 57))%N.

Fixpoint digits (s : text) : text * text :=
  match s with
  | c :: s' => if digit c then let '(ds, r) := digits s' in (c :: ds, r) else ([], s)
  | [] => ([], [])
  end.

Definition digits_value (ds : text) : Z :=
  foldl (λ a c, (a * 10 + (Z.of_N (ord c) - 48))%Z) 0%Z ds.

(** The optional fraction and exponent: what was read, and the rest. *)
Definition dec_frac (s : text) : option (text * text) :=
  match s with
  | c :: s' =>
      if (ord c =? 46)%N then
        match digits s' with ([], _) => None | (ds, r) => Some (c :: ds, r) end
      else Some ([], s)
  | [] => Some ([], [])
  end.

Definition dec_exp (s : text) : option (text * text) :=
  match s with
  | c :: s' =>
      if ((ord c =? 101) || (ord c =? 69))%N then
        let '(sg, s'') := match s' with
                          | d :: t => if ((ord d =? 43) || (ord d =? 45))%N then ([d], t) else ([], s')
                          | [] => ([], [])
                          end in
        match digits s'' with ([], _) => None | (ds, r) => Some (c :: sg ++ ds, r) end
      else Some ([], s)
  | [] => Some ([], [])
  end.

(** The digits of the integer part: a zero stands alone. *)
Definition dec_int_part (s : text) : option (text * text) :=
  match s with
  | c :: s' =>
      if (ord c =? 48)%N then Some ([c], s')
      else match digits s with ([], _) => None | (ds, r) => Some (ds, r) end
  | [] => None
  end.

(** The number after its sign. *)
Definition dec_unsigned (neg : bool) (s1 : text) : option (json * text) :=
  '(ds, s2) ← dec_int_part s1;
  '(fr, s3) ← dec_frac s2;
  '(ex, s4) ← dec_exp s3;
  Some (match fr, ex with
        | [], [] => JNum (if neg then - digits_value ds else digits_value ds)%Z
        | _, _ => JLit (String.string_of_list_ascii ((if neg then [chr 45] else []) ++ ds ++ fr ++ ex))
        end, s4).

Definition dec_number (s : text) : option (json * text) :=
  match s with
  | c :: s' => if (ord c =? 45)%N then dec_unsigned true s' else dec_unsigned false s
  | [] => None
  end.

(** A fixed word. *)
Fixpoint dec_word (w s : text) : option text :=
  match w, s with
  | [], _ => Some s
  | a :: w', b :: s' => if Ascii.eqb a b then dec_word w' s' else None
  | _, _ => None
  end.

(** Elements and members, separated by commas, up to and including the closing
    bracket; [k] bounds their number. *)
Section containers.
Context (pv : text → option (json * text)).

Fixpoint dec_elems (k : nat) (s : text) : option (list json * text) :=
  match k with
  | O => None
  | S k' =>
      '(v, r) ← pv s;
      match skip_ws r with
      | c :: r' =>
          if (ord c =? 44)%N then '(vs, r'') ← dec_elems k' r'; Some (v :: vs, r'')
          else if (ord c =? 93)%N then Some ([v], r') else None
      | [] => None
      end
  end.

Definition dec_member (s : text) : option ((string * json) * text) :=
  match skip_ws s with
  | q :: s1 =>
      if (ord q =? 34)%N then
        '(key, s2) ← dec_chars s1;
        match skip_ws s2 with
        | c :: s3 =>
            if (ord c =? 58)%N
            then '(v, s4) ← pv s3; Some ((String.string_of_list_ascii key, v), s4)
            else None
        | [] => None
        end
      else None
  | [] => None
  end.

Fixpoint dec_members (k : nat) (s : text) : option (list (string * json) * text) :=
  match k with
  | O => None
  | S k' =>
      '(m, r) ← dec_member s;
      match skip_ws r with
      | c :: r' =>
          if (ord c =? 44)%N then '(ms, r'') ← dec_members k' r'; Some (m :: ms, r'')
          else if (ord c =? 125)%N then Some ([m], r') else None
      | [] => None
      end
  end.

End containers.

Fixpoint dec_value (depth : nat) (s : text) : option (json * text) :=
  match skip_ws s with
  | [] => None
  | c :: r =>
      let n := ord c in
      if (n =? 34)%N then '(cs, r') ← dec_chars r; Some (JStr (String.string_of_list_ascii cs), r')
      else if (n =? 91)%N then
        match depth with
        | O => None
        | S d =>
            match skip_ws r with
            | c' :: r' =>
                if (ord c' =? 93)%N then Some (JArr [], r')
                else '(vs, r'') ← dec_elems (dec_value d) (length r) r; Some (JArr vs, r'')
            | [] => None
            end
        end
      else if (n =? 123)%N then
        match depth with
        | O => None
        | S d =>
            match skip_ws r with
            | c' :: r' =>
                if (ord c' =? 125)%N then Some (JObj [], r')
                else '(ms, r'') ← dec_members (dec_value d) (length r) r; Some (JObj ms, r'')
            | [] => None
            end
        end
      else if (n =? 116)%N then r' ← dec_word (lit "rue") r; Some (JBool true, r')
      else if (n =? 102)%N then r' ← dec_word (lit "alse") r; Some (JBool false, r')
      else if (n =? 110)%N then r' ← dec_word (lit "ull") r; Some (JNull, r')
      else dec_number (c :: r)
  end.

Definition maxNestingDepth : Z := 10000.

Definition dec_top (s : text) : option (json * text) := dec_value (Z.to_nat maxNestingDepth) s.

(** [json.Unmarshal]: one value and nothing after it. *)
Definition Unmarshal (s : string) : option json :=
  '(v, r) ← dec_top (lit s);
  match skip_ws r with [] => Some v | _ => None end.

Definition is_container (v : json) : bool :=
  match v with JArr _ | JObj _ => true | _ => false end.

(** [json.NewDecoder(r).Decode]: the first value; what follows a scalar must be
    a space. *)
Definition Decode (s : string) : option json :=
  '(v, r) ← dec_top (lit s);
  match r with
  | c :: _ => if is_container v || is_ws c then Some v else None
  | [] => Some v
  end.

(** * Decoding into Go values *)
Definition decoder (A : Type) : Type := json → A → option A.

Definition into_string : decoder string := λ v old,
  match v with JStr s => Some s | JNull => Some old | _ => None end.
Definition into_bool : decoder bool := λ v old,
  match v with JBool b => Some b | JNull => Some old | _ => None end.
Definition into_int (lo hi : Z) : decoder Z := λ v old,
  match v with
  | JNum z => if ((lo <=? z) && (z <? hi))%Z then Some z else None
  | JNull => Some old
  | _ => None
  end.
Definition into_int32 : decoder Z := into_int (- 2 ^ 31) (2 ^ 31).
Definition into_int64 : decoder Z := into_int (- 2 ^ 63) (2 ^ 63).

(** A slice: elements are decoded over those the slice held. *)
Fixpoint into_elems {A} (d : decoder A) (zero : A) (vs : list json) (old : list A) : option (list A) :=
  match vs with
  | [] => Some []
  | v :: vs' =>
      x ← d v (default zero (head old));
      xs ← into_elems d zero vs' (tail old);
      Some (x :: xs)
  end.
Definition into_slice {A} (d : decoder A) (zero : A) : decoder (list A) := λ v old,
  match v with
  | JArr vs => into_elems d zero vs old
  | JNull => Some []
  | _ => None
  end.

(** A pointer: [null] makes it nil, otherwise what it points to is decoded. *)
Definition into_ptr {A} (d : decoder A) (zero : A) : decoder (option A) := λ v old,
  match v with
  | JNull => Some None
  | _ => x ← d v (default zero old); Some (Some x)
  end.

(** [map[string]string]: members are added to the map there was. *)
Fixpoint into_entries (kvs : list (string * json)) (m : gmap string string) : option (gmap string string) :=
  match kvs with
  | [] => Some m
  | (k, v) :: kvs' => s ← into_string v ""; into_entries kvs' (<[k := s]> m)
  end.
Definition into_map : decoder (gmap string string) := λ v old,
  match v with
  | JObj kvs => into_entries kvs old
  | JNull => Some ∅
  | _ => None
  end.

(** The fields of a struct, by their JSON names; a member names a field exactly
    or, failing that, up to case. *)
Definition fields (A : Type) : Type := list (string * (json → A → option A)).

Definition field {A B} (get : A → B) (set : B → A → A) (d : decoder B) : json → A → option A :=
  λ v a, b ← d v (get a); Some (set b a).

Fixpoint find_by {A} (p : string → bool) (fs : fields A) : option (json → A → option A) :=
  match fs with
  | [] => None
  | (name, d) :: fs' => if p name then Some d else find_by p fs'
  end.
Definition find_exact {A} (fs : fields A) (k : string) : option (json → A → option A) :=
  find_by (λ name, String.eqb name k) fs.
Definition find_fold {A} (fs : fields A) (k : string) : option (json → A → option A) :=
  find_by (λ name, String.eqb (Strings.ToLower name) (Strings.ToLower k)) fs.
Definition find_field {A} (fs : fields A) (k : string) : option (json → A → option A) :=
  match find_exact fs k with
  | Some d => Some d
  | None => find_fold fs k
  end.

Fixpoint into_members {A} (fs : fields A) (kvs : list (string * json)) (a : A) : option A :=
  match kvs with
  | [] => Some a
  | (k, v) :: kvs' =>
      a' ← match find_field fs k with Some d => d v a | None => Some a end;
      into_members fs kvs' a'
  end.

Definition into_struct {A} (fs : fields A) : decoder A := λ v old,
  match v with
  | JObj kvs => into_members fs kvs old
  | JNull => Some old
  | _ => None
  end.

(** * What is written is read back *)
Lemma lit_inv s : String.string_of_list_ascii (lit s) = s.
Proof. apply String.string_of_list_ascii_of_string. Qed.

Lemma lit_of (t : text) : lit (String.string_of_list_ascii t) = t.
Proof. apply String.list_ascii_of_string_of_list_ascii. Qed.

Lemma lit_app s t : lit (s +:+ t) = lit s ++ lit t.
Proof. unfold lit. induction s as [|c s IH]; simpl; [done|]. by rewrite IH. Qed.

(** ** Strings *)
Lemma dec_chars_esc c rest : dec_chars (esc c ++ rest) = push [c] (dec_chars rest).
Proof. destruct c as [[] [] [] [] [] [] [] []]; reflexivity. Qed.

Lemma dec_chars_enc s rest : dec_chars (flat_map esc s ++ dquote :: rest) = Some (s, rest).
Proof.
  induction s as [|c s IH]; [done|]. simpl flat_map. rewrite <-(assoc_L (++)), dec_chars_esc, IH.
  done.
Qed.

(** ** Integers *)
Lemma digits_app ds rest : Forall (λ c, digit c = true) ds →
  (match rest with c :: _ => digit c = false | [] => True end) →
  digits (ds ++ rest) = (ds, rest).
Proof.
  intros Hds Hr. induction Hds as [|c ds Hc _ IH]; simpl.
  - destruct rest as [|c r]; [done|]. simpl. by rewrite Hr.
  - by rewrite Hc, IH.
Qed.

Lemma digits_value_snoc ds c :
  digits_value (ds ++ [c]) = (digits_value ds * 10 + (Z.of_N (ord c) - 48))%Z.
Proof. unfold digits_value. by rewrite foldl_app. Qed.

(** The decimal digits of a positive number: they start with no zero. *)
Definition num_text (t : text) (n : N) : Prop :=
  Forall (λ c, digit c = true) t ∧ digits_value t = Z.of_N n ∧
  ∃ c t', t = c :: t' ∧ (ord c =? 48)%N = false.

Lemma pretty_char_ord d : (d < 10)%N → ord (pretty_N_char d) = (48 + d)%N.
Proof.
  intros ?. assert (d = 0 ∨ d = 1 ∨ d = 2 ∨ d = 3 ∨ d = 4 ∨ d = 5 ∨ d = 6 ∨ d = 7 ∨ d = 8 ∨ d = 9)%N as Hd
    by lia.
  repeat (destruct Hd as [->|Hd]; [reflexivity|]). by subst.
Qed.

Lemma pretty_go_text n s : (0 < n)%N →
  ∃ t, num_text t n ∧ lit (pretty_N_go n s) = t ++ lit s.
Proof.
  revert s. induction n as [n IH] using (well_founded_induction N.lt_wf_0). intros s Hn.
  rewrite pretty_N_go_step by done.
  assert (Hq : (n `div` 10 < n)%N) by (apply N.div_lt; lia).
  pose proof (N.mod_lt n 10 ltac:(done)) as Hm. pose proof (N.div_mod n 10 ltac:(done)) as Hdm.
  generalize dependent (n `mod` 10)%N. generalize dependent (n `div` 10)%N. intros q Hq d Hm Hdm.
  pose proof (pretty_char_ord d Hm) as Hc. set (c := pretty_N_char d) in *.
  assert (Hd : digit c = true).
  { unfold digit. rewrite Hc. apply andb_true_intro; split; apply N.leb_le; lia. }
  destruct (decide (q = 0)%N) as [E|E].
  - exists [c]. rewrite E, pretty_N_go_0. split; [|done].
    split_and!; [by constructor|unfold digits_value; simpl; rewrite Hc; lia|].
    exists c, []. split; [done|]. rewrite Hc. apply N.eqb_neq. lia.
  - destruct (IH q Hq (String c s) ltac:(lia)) as (t & (Hall & Hv & c0 & t' & -> & H0) & ->).
    exists ((c0 :: t') ++ [c]). split; [|simpl; by rewrite <-(assoc_L (++))].
    split_and!.
    + apply Forall_app; split; [done|by constructor].
    + rewrite digits_value_snoc, Hv, Hc. lia.
    + exists c0, (t' ++ [c]). done.
Qed.

Lemma pretty_N_text n : (0 < n)%N → num_text (lit (pretty n)) n.
Proof.
  intros Hn. destruct (pretty_go_text n "" Hn) as (t & Ht & E).
  unfold pretty, pretty_N. rewrite decide_False by lia. rewrite E.
  unfold lit at 1. simpl. by rewrite app_nil_r.
Qed.

(** What may follow a value inside a container, or nothing. *)
Definition follow (rest : text) : Prop :=
  match rest with [] => True | c :: _ => (ord c = 44 ∨ ord c = 93 ∨ ord c = 125)%N end.

Lemma follow_no_digit rest : follow rest →
  match rest with c :: _ => digit c = false | [] => True end.
Proof.
  destruct rest as [|c r]; [done|]. simpl. unfold digit. intros [->|[->| ->]]; reflexivity.
Qed.

Lemma follow_plain rest : follow rest →
  dec_frac rest = Some ([], rest) ∧ dec_exp rest = Some ([], rest).
Proof.
  destruct rest as [|c r]; [done|]. simpl. intros [->|[->| ->]]; done.
Qed.

Lemma dec_int_part_text t n rest : num_text t n → follow rest →
  dec_int_part (t ++ rest) = Some (t, rest).
Proof.
  intros (Hall & _ & c & t' & -> & H0) Hr. cbn [dec_int_part app]. rewrite H0.
  change (c :: t' ++ rest) with ((c :: t') ++ rest).
  by rewrite digits_app by (done || by apply follow_no_digit).
Qed.

Lemma num_text_sign t n : num_text t n → ∃ c t', t = c :: t' ∧ (ord c =? 45)%N = false.
Proof.
  intros (Hall & _ & c & t' & -> & _). exists c, t'. split; [done|].
  apply Forall_cons in Hall as [Hc _]. unfold digit in Hc.
  apply andb_prop in Hc as [Hc%N.leb_le _]. apply N.eqb_neq. lia.
Qed.

Lemma dec_unsigned_text neg t rest : follow rest → dec_int_part (t ++ rest) = Some (t, rest) →
  dec_unsigned neg (t ++ rest)
  = Some (JNum (if neg then - digits_value t else digits_value t)%Z, rest).
Proof.
  intros Hr Ht. pose proof (follow_plain rest Hr) as [Hf He].
  unfold dec_unsigned. rewrite Ht. cbn -[dec_frac dec_exp]. rewrite Hf. cbn -[dec_exp].
  rewrite He. done.
Qed.

Lemma dec_number_pretty z rest : follow rest →
  dec_number (lit (pretty z) ++ rest) = Some (JNum z, rest).
Proof.
  intros Hr. destruct z as [|p|p].
  - exact (dec_unsigned_text false [chr 48] rest Hr eq_refl).
  - change (pretty (Z.pos p)) with (pretty (N.pos p)).
    pose proof (pretty_N_text (N.pos p) ltac:(lia)) as Ht.
    pose proof (dec_unsigned_text false _ _ Hr (dec_int_part_text _ _ _ Ht Hr)) as Hd.
    destruct (num_text_sign _ _ Ht) as (c & t' & E & Hs). rewrite E in *.
    unfold dec_number. cbn [app] in Hd |- *. rewrite Hs, Hd. by destruct Ht as (_ & -> & _).
  - change (pretty (Z.neg p)) with ("-" +:+ pretty (N.pos p)).
    pose proof (pretty_N_text (N.pos p) ltac:(lia)) as Ht. rewrite lit_app.
    change (dec_unsigned true (lit (pretty (N.pos p)) ++ rest) = Some (JNum (Z.neg p), rest)).
    rewrite (dec_unsigned_text true _ _ Hr (dec_int_part_text _ _ _ Ht Hr)).
    by destruct Ht as (_ & -> & _).
Qed.

(** ** Values: depth at most [d], and every number an integer *)
Fixpoint nested (d : nat) (v : json) : Prop :=
  match v with
  | JLit _ => False
  | JArr l => match d with O => False | S d' => Forall (nested d') l end
  | JObj kvs => match d with O => False | S d' => Forall (λ kv, nested d' kv.2) kvs end
  | _ => True
  end.

(** A value starts with a character that is neither a space nor a closing
    bracket. *)
Definition opens (t : text) : Prop :=
  ∃ c t', t = c :: t' ∧ is_ws c = false ∧ (ord c =? 93)%N = false ∧ (ord c =? 125)%N = false.

Lemma num_opens t n : num_text t n → opens t.
Proof.
  intros (Hall & _ & c & t' & -> & _). exists c, t'. apply Forall_cons in Hall as [Hc _].
  split; [done|]. unfold digit in Hc. apply andb_prop in Hc as [H1%N.leb_le H2%N.leb_le].
  unfold is_ws. rewrite !orb_false_iff, !N.eqb_neq. lia.
Qed.

Lemma pretty_opens (z : Z) : opens (lit (pretty z)).
Proof.
  destruct z as [|p|p]; [by exists (chr 48), []|apply (num_opens _ (N.pos p)), (pretty_N_text (N.pos p)); lia|].
  exists (chr 45), (lit (pretty (N.pos p))). done.
Qed.

Lemma enc_opens d v : nested d v → opens (enc v).
Proof.
  destruct d, v as [|s|z|s|[]|l|kvs]; simpl; intros Hv; try done; try (eexists _, _; done); apply pretty_opens.
Qed.

Lemma skip_opens t rest : opens t → skip_ws (t ++ rest) = t ++ rest.
Proof. intros (c & t' & -> & Hc & _). simpl. by rewrite Hc. Qed.

Lemma opens_length t : opens t → 1 ≤ length t.
Proof. intros (c & t' & -> & _). simpl. lia. Qed.

Lemma commas_length l : Forall opens l → length l ≤ length (commas l).
Proof.
  induction 1 as [|x l Hx Hl IH]; [done|]. apply opens_length in Hx.
  destruct l as [|y l]; [simpl; lia|].
  change (commas (x :: y :: l)) with (x ++ chr 44 :: commas (y :: l)).
  rewrite length_app. simpl in *. lia.
Qed.

Lemma commas_opens x l : opens x → opens (commas (x :: l)).
Proof.
  intros (c & t & -> & ?). destruct l as [|y l]; [by exists c, t|].
  change (commas ((c :: t) :: y :: l)) with ((c :: t) ++ chr 44 :: commas (y :: l)).
  by exists c, (t ++ chr 44 :: commas (y :: l)).
Qed.

Section containers_roundtrip.
Context (pv : text → option (json * text)).
Definition reads_back (v : json) : Prop :=
  ∀ rest, follow rest → pv (enc v ++ rest) = Some (v, rest).

Lemma dec_elems_enc v l k rest : Forall reads_back (v :: l) → length (v :: l) ≤ k →
  dec_elems pv k (commas (map enc (v :: l)) ++ chr 93 :: rest) = Some (v :: l, rest).
Proof.
  revert v k. induction l as [|y l IH]; intros v k Hl Hk; (destruct k as [|k]; [simpl in Hk; lia|]);
    apply Forall_cons in Hl as [Hv Hl].
  - simpl. rewrite Hv by (simpl; auto). done.
  - change (commas (map enc (v :: y :: l))) with (enc v ++ chr 44 :: commas (map enc (y :: l))).
    rewrite <-(assoc_L (++)). cbn [dec_elems]. rewrite Hv by (simpl; auto).
    cbn [mbind option_bind app skip_ws]. change (is_ws (chr 44)) with false. cbv iota.
    change ((ord (chr 44) =? 44)%N) with true. cbv iota.
    rewrite (IH y k Hl) by (simpl in *; lia). done.
Qed.

Definition enc_member (kv : string * json) : text := enc_string kv.1 ++ chr 58 :: enc kv.2.

Lemma dec_member_enc kv rest : reads_back kv.2 → follow rest →
  dec_member pv (enc_member kv ++ rest) = Some (kv, rest).
Proof.
  destruct kv as [k v]. intros Hv Hr. unfold dec_member, enc_member, enc_string, enc_chars.
  cbn [fst snd app skip_ws is_ws]. change (is_ws dquote) with false. cbv iota.
  change ((ord dquote =? 34)%N) with true. cbv iota.
  rewrite <-!(assoc_L (++)). simpl (_ ++ _ :: _). cbn [app].
  rewrite dec_chars_enc. simpl mbind. cbn [skip_ws]. change (is_ws (chr 58)) with false. cbv iota.
  change ((ord (chr 58) =? 58)%N) with true. cbv iota. simpl in Hv. rewrite Hv by done.
  simpl. by rewrite lit_inv.
Qed.

Lemma dec_members_enc kv l k rest :
  Forall (λ kv, reads_back kv.2) (kv :: l) → length (kv :: l) ≤ k →
  dec_members pv k (commas (map enc_member (kv :: l)) ++ chr 125 :: rest) = Some (kv :: l, rest).
Proof.
  revert kv k. induction l as [|y l IH]; intros kv k Hl Hk; (destruct k as [|k]; [simpl in Hk; lia|]);
    apply Forall_cons in Hl as [Hv Hl].
  - change (commas (map enc_member [kv])) with (enc_member kv). cbn [dec_members].
    rewrite dec_member_enc by (done || simpl; auto). done.
  - change (commas (map enc_member (kv :: y :: l)))
      with (enc_member kv ++ chr 44 :: commas (map enc_member (y :: l))).
    rewrite <-(assoc_L (++)). cbn [dec_members]. rewrite dec_member_enc by (done || simpl; auto).
    cbn [mbind option_bind app skip_ws]. change (is_ws (chr 44)) with false. cbv iota.
    change ((ord (chr 44) =? 44)%N) with true. cbv iota.
    rewrite (IH y k Hl) by (simpl in *; lia). done.
Qed.

End containers_roundtrip.

Lemma member_opens kv : opens (enc_member kv).
Proof. unfold enc_member, enc_string, enc_chars. eexists _, _. done. Qed.

Lemma dec_value_arr d v l rest :
  (∀ v', v' ∈ v :: l → reads_back (dec_value d) v' ∧ opens (enc v')) →
  dec_value (S d) (enc (JArr (v :: l)) ++ rest) = Some (JArr (v :: l), rest).
Proof.
  intros Hl. set (body := commas (map enc (v :: l)) ++ chr 93 :: rest).
  change (enc (JArr (v :: l)) ++ rest)
    with (chr 91 :: (commas (map enc (v :: l)) ++ [chr 93]) ++ rest).
  rewrite <-(assoc_L (++)). change ([chr 93] ++ rest) with (chr 93 :: rest). fold body.
  assert (Ho : opens (commas (map enc (v :: l)))) by (apply commas_opens, Hl; left).
  assert (Hk : length (v :: l) ≤ length body).
  { unfold body. rewrite length_app. pose proof (commas_length (map enc (v :: l))) as Hc.
    rewrite length_map in Hc. etrans; [apply Hc|lia].
    apply Forall_map, Forall_forall. intros x Hx. by apply Hl. }
  assert (Hd : dec_elems (dec_value d) (length body) body = Some (v :: l, rest)).
  { apply dec_elems_enc; [|done]. apply Forall_forall. intros x Hx. by apply Hl. }
  assert (Hs : skip_ws body = body) by by apply skip_opens.
  destruct Ho as (c & t & E & _ & H93 & _). assert (Hb : body = c :: t ++ chr 93 :: rest)
    by (unfold body; by rewrite E).
  cbn [dec_value skip_ws]. change (is_ws (chr 91)) with false. cbv iota.
  change (ord (chr 91)) with 91%N. cbn [N.eqb Pos.eqb]. rewrite Hs. rewrite Hb at 1. rewrite H93.
  by rewrite Hd.
Qed.

Lemma dec_value_obj d kv l rest :
  (∀ kv', kv' ∈ kv :: l → reads_back (dec_value d) kv'.2) →
  dec_value (S d) (enc (JObj (kv :: l)) ++ rest) = Some (JObj (kv :: l), rest).
Proof.
  intros Hl. set (body := commas (map enc_member (kv :: l)) ++ chr 125 :: rest).
  change (enc (JObj (kv :: l)) ++ rest)
    with (chr 123 :: (commas (map enc_member (kv :: l)) ++ [chr 125]) ++ rest).
  rewrite <-(assoc_L (++)). change ([chr 125] ++ rest) with (chr 125 :: rest). fold body.
  assert (Ho : opens (commas (map enc_member (kv :: l)))) by apply commas_opens, member_opens.
  assert (Hk : length (kv :: l) ≤ length body).
  { unfold body. rewrite length_app. pose proof (commas_length (map enc_member (kv :: l))) as Hc.
    rewrite length_map in Hc. etrans; [apply Hc|lia].
    apply Forall_map, Forall_forall. intros x _. apply member_opens. }
  assert (Hd : dec_members (dec_value d) (length body) body = Some (kv :: l, rest)).
  { apply dec_members_enc; [|done]. apply Forall_forall. intros x Hx. by apply Hl. }
  assert (Hs : skip_ws body = body) by by apply skip_opens.
  destruct Ho as (c & t & E & _ & _ & H125). assert (Hb : body = c :: t ++ chr 125 :: rest)
    by (unfold body; by rewrite E).
  cbn [dec_value skip_ws]. change (is_ws (chr 123)) with false. cbv iota.
  change (ord (chr 123)) with 123%N. cbn [N.eqb Pos.eqb]. rewrite Hs. rewrite Hb at 1. rewrite H125.
  by rewrite Hd.
Qed.

(** A number is none of the other kinds of value. *)
Lemma dec_value_num d z rest : follow rest →
  dec_value d (lit (pretty z) ++ rest) = Some (JNum z, rest).
Proof.
  intros Hr. pose proof (dec_number_pretty z rest Hr) as Hd.
  assert (∃ c t, lit (pretty z) = c :: t ∧ ((ord c = 45)%N ∨ digit c = true)) as (c & t & E & Hc).
  { destruct z as [|p|p]; [by exists (chr 48), []; auto| |by eexists _, _; auto].
    destruct (pretty_N_text (N.pos p) ltac:(lia)) as (Hall & _ & c & t & E & _).
    exists c, t. split; [done|right]. rewrite E in Hall. by apply Forall_cons in Hall as [? _]. }
  rewrite E in *. assert (Hcases : (ord c = 45 ∨ 48 ≤ ord c ≤ 57)%N).
  { destruct Hc as [?|Hc]; [auto|right]. unfold digit in Hc.
    apply andb_prop in Hc as [H1%N.leb_le H2%N.leb_le]. lia. }
  assert (Hw : is_ws c = false) by (unfold is_ws; rewrite !orb_false_iff, !N.eqb_neq; lia).
  cbn [app] in Hd |- *. destruct d; cbn [dec_value skip_ws]; rewrite Hw;
    repeat (rewrite (proj2 (N.eqb_neq (ord c) _)) by lia); done.
Qed.

Lemma dec_value_enc d v : nested d v → reads_back (dec_value d) v.
Proof.
  revert d. induction v as [|s|z|s|b|l IH|kvs IH] using json_nested_ind; intros d Hv rest Hr.
  - by destruct d.
  - destruct d; (change (enc (JStr s) ++ rest) with (dquote :: (flat_map esc (lit s) ++ [dquote]) ++ rest);
      rewrite <-(assoc_L (++)); cbn [dec_value skip_ws]; change (is_ws dquote) with false; cbv iota;
      change (ord dquote) with 34%N; cbn [N.eqb Pos.eqb app]; rewrite dec_chars_enc;
      cbn [mbind option_bind]; by rewrite lit_inv).
  - by apply dec_value_num.
  - by destruct d.
  - by destruct d, b.
  - destruct d as [|d]; [done|]. destruct l as [|v l]; [done|]. simpl in Hv.
    apply dec_value_arr. intros x Hx. rewrite Forall_forall in IH, Hv.
    split; [intros rest' Hr'; by apply IH; [|apply Hv|]|by eapply enc_opens, Hv].
  - destruct d as [|d]; [done|]. destruct kvs as [|kv l]; [done|]. simpl in Hv.
    apply dec_value_obj. intros x Hx rest' Hr'. rewrite Forall_forall in IH, Hv.
    by apply IH; [|apply Hv|].
Qed.

(** The text of a value is read back as that value. *)
Lemma Unmarshal_Marshal v : nested (Z.to_nat maxNestingDepth) v → Unmarshal (Marshal v) = Some v.
Proof.
  intros Hv. unfold Unmarshal, Marshal, dec_top. rewrite lit_of, <-(app_nil_r (enc v)).
  by rewrite (dec_value_enc _ _ Hv []).
Qed.

Lemma Decode_Marshal v : nested (Z.to_nat maxNestingDepth) v → Decode (Marshal v) = Some v.
Proof.
  intros Hv. unfold Decode, Marshal, dec_top. rewrite lit_of, <-(app_nil_r (enc v)).
  by rewrite (dec_value_enc _ _ Hv []).
Qed.

(** Depth is monotone: what the sources build is a few levels deep. *)
Lemma nested_mono d d' v : nested d v → d ≤ d' → nested d' v.
Proof.
  revert d d'. induction v as [|s|z|s|b|l IH|kvs IH] using json_nested_ind; intros d d' Hv Hd;
    destruct d, d'; simpl in *; try done; try lia.
  - rewrite Forall_forall in *. intros x Hx. apply (IH x Hx d); [by apply Hv|lia].
  - rewrite Forall_forall in *. intros x Hx. apply (IH x Hx d); [by apply Hv|lia].
Qed.

(** * The bound on elements is never reached

    Every element takes at least one character, so the length of the text
    bounds their number: a larger bound gives the same result. *)
Lemma skip_ws_length s : length (skip_ws s) ≤ length s.
Proof. induction s as [|c s IH]; simpl; [lia|]. destruct (is_ws c); simpl; lia. Qed.

Definition shrinks {A} (pv : text → option (A * text)) : Prop :=
  ∀ s v r, pv s = Some (v, r) → length r < length s.

Lemma dec_elems_bound pv : shrinks pv →
  ∀ k k' s, length s ≤ k → length s ≤ k' → dec_elems pv k s = dec_elems pv k' s.
Proof.
  intros Hpv. assert (Hnil : pv [] = None).
  { destruct (pv []) as [[v r]|] eqn:E; [|done]. apply Hpv in E. simpl in E. lia. }
  induction k as [|k IH]; intros [|k'] s Hk Hk'; cbn [dec_elems]; try done;
    try (destruct s; [by rewrite Hnil|simpl in *; lia]).
  destruct (pv s) as [[v r]|] eqn:E; [|done]. apply Hpv in E. cbn [mbind option_bind].
  pose proof (skip_ws_length r). destruct (skip_ws r) as [|c r']; [done|]. simpl in *.
  destruct (ord c =? 44)%N; [|done]. by rewrite (IH k') by lia.
Qed.

Lemma dec_members_bound pv : shrinks (dec_member pv) →
  ∀ k k' s, length s ≤ k → length s ≤ k' → dec_members pv k s = dec_members pv k' s.
Proof.
  intros Hpv.
  induction k as [|k IH]; intros [|k'] s Hk Hk'; cbn [dec_members]; try done;
    try (destruct s; [done|simpl in *; lia]).
  destruct (dec_member pv s) as [[v r]|] eqn:E; [|done]. apply Hpv in E. cbn [mbind option_bind].
  pose proof (skip_ws_length r). destruct (skip_ws r) as [|c r']; [done|]. simpl in *.
  destruct (ord c =? 44)%N; [|done]. by rewrite (IH k') by lia.
Qed.

Lemma push_Some pre o v r : push pre o = Some (v, r) → ∃ v', o = Some (v', r).
Proof. destruct o as [[v' r']|]; simpl; [|done]. intros [= _ <-]. eauto. Qed.

Lemma dec_chars_shrinks : shrinks dec_chars.
Proof.
  intros s. remember (length s) as n eqn:Hn. assert (Hle : length s ≤ n) by lia. clear Hn.
  assert (H : ∀ v r, dec_chars s = Some (v, r) → length r < length s); [|intros v r E; apply H in E; lia].
  revert s Hle. induction n as [|n IH]; intros s Hle v r; destruct s as [|c s1]; simpl in *; try done; [lia|].
  intros E. repeat (case_match; try done); simplify_eq; cbn [length] in *; try lia;
    try (apply push_Some in E as [v' E]; apply IH in E; cbn [length] in *; lia).
Qed.

Lemma digits_length s : length (digits s).2 ≤ length s ∧ ((digits s).1 ≠ [] → length (digits s).2 < length s).
Proof.
  induction s as [|c s IH]; simpl; [done|]. destruct (digit c); simpl; [|split; [lia|done]].
  destruct (digits s) as [ds r]; simpl in *. destruct IH as [IH _]. split; [lia|]. intros _. lia.
Qed.

Lemma dec_int_part_shrinks : shrinks dec_int_part.
Proof.
  intros [|c s] v r; [done|]. unfold dec_int_part. destruct (ord c =? 48)%N.
  - intros [= _ <-]. simpl. lia.
  - pose proof (digits_length (c :: s)) as [_ Hl]. destruct (digits (c :: s)) as [[|d ds] r']; [done|].
    intros [= _ <-]. by apply Hl.
Qed.

Lemma dec_frac_le s v r : dec_frac s = Some (v, r) → length r ≤ length s.
Proof.
  destruct s as [|c s]; unfold dec_frac; [by intros [= _ <-]|]. destruct (ord c =? 46)%N.
  - pose proof (digits_length s) as [Hl _]. destruct (digits s) as [[|d ds] r']; [done|].
    intros [= _ <-]. simpl in *. lia.
  - intros [= _ <-]. done.
Qed.

Lemma dec_exp_le s v r : dec_exp s = Some (v, r) → length r ≤ length s.
Proof.
  destruct s as [|c s]; unfold dec_exp; [by intros [= _ <-]|]. case_match.
  - assert (H1 : ∀ sg t, length t ≤ length s →
      match digits t with ([], _) => None | (ds, r) => Some (c :: sg ++ ds, r) end = Some (v, r) →
      length r ≤ length (c :: s)).
    { intros sg t Ht. pose proof (digits_length t) as [Hl _].
      destruct (digits t) as [[|d ds] r']; [done|]. intros [= _ <-]. simpl in *. lia. }
    destruct s as [|d t]; [by apply (H1 [])|]. case_match; simplify_eq.
    case_match; simplify_eq; eapply H1; simpl; lia.
  - intros [= _ <-]. done.
Qed.

Lemma dec_unsigned_shrinks neg : shrinks (dec_unsigned neg).
Proof.
  intros s v r. unfold dec_unsigned.
  destruct (dec_int_part s) as [[ds s2]|] eqn:E1; [|done]. cbn [mbind option_bind].
  destruct (dec_frac s2) as [[fr s3]|] eqn:E2; [|done]. cbn [mbind option_bind].
  destruct (dec_exp s3) as [[ex s4]|] eqn:E3; [|done]. cbn [mbind option_bind]. intros [= _ <-].
  apply dec_int_part_shrinks in E1. apply dec_frac_le in E2. apply dec_exp_le in E3. lia.
Qed.

Lemma dec_word_le w s r : dec_word w s = Some r → length r ≤ length s.
Proof.
  revert s. induction w as [|a w IH]; intros [|b s]; simpl; try done; try (intros [= <-]; simpl; lia).
  destruct (Ascii.eqb a b); [|done]. intros E%IH. lia.
Qed.

Lemma dec_elems_shrinks pv k : shrinks pv → shrinks (dec_elems pv k).
Proof.
  intros Hpv. induction k as [|k IH]; intros s v r; cbn [dec_elems]; [done|].
  destruct (pv s) as [[v1 r1]|] eqn:E; [|done]. apply Hpv in E. cbn [mbind option_bind].
  pose proof (skip_ws_length r1). destruct (skip_ws r1) as [|c r']; [done|]. simpl in *.
  repeat case_match; try done.
  - destruct (dec_elems pv k r') as [[vs r'']|] eqn:E2; [|done]. simpl. intros [= _ <-].
    apply IH in E2. lia.
  - intros [= _ <-]. lia.
Qed.

Lemma dec_member_shrinks pv : shrinks pv → shrinks (dec_member pv).
Proof.
  intros Hpv s v r. unfold dec_member. pose proof (skip_ws_length s).
  destruct (skip_ws s) as [|q s1]; [done|]. case_match; [|done].
  destruct (dec_chars s1) as [[key s2]|] eqn:E; [|done]. apply dec_chars_shrinks in E. cbn [mbind option_bind].
  pose proof (skip_ws_length s2). destruct (skip_ws s2) as [|c s3]; [done|]. case_match; [|done].
  destruct (pv s3) as [[v' s4]|] eqn:E2; [|done]. apply Hpv in E2. simpl. intros [= _ <-]. simpl in *. lia.
Qed.

Lemma dec_members_shrinks pv k : shrinks pv → shrinks (dec_members pv k).
Proof.
  intros Hpv. induction k as [|k IH]; intros s v r; cbn [dec_members]; [done|].
  destruct (dec_member pv s) as [[v1 r1]|] eqn:E; [|done]. apply (dec_member_shrinks _ Hpv) in E. cbn [mbind option_bind].
  pose proof (skip_ws_length r1). destruct (skip_ws r1) as [|c r']; [done|]. simpl in *.
  repeat case_match; try done.
  - destruct (dec_members pv k r') as [[vs r'']|] eqn:E2; [|done]. simpl. intros [= _ <-].
    apply IH in E2. lia.
  - intros [= _ <-]. lia.
Qed.

Lemma dec_value_shrinks d : shrinks (dec_value d).
Proof.
  induction d as [|d IH]; intros s v r; cbn [dec_value]; pose proof (skip_ws_length s);
    destruct (skip_ws s) as [|c r0]; try done; cbn [length] in *.
  all: destruct (ord c =? 34)%N;
    [destruct (dec_chars r0) as [[cs r1]|] eqn:E; [|done]; apply dec_chars_shrinks in E;
     cbn [mbind option_bind]; intros [= _ <-]; lia|].
  all: destruct (ord c =? 91)%N; [try done|].
  all: try match goal with |- context [(ord ?x =? 123)%N] => destruct (ord x =? 123)%N; [try done|] end.
  all: try match goal with |- context [dec_number] =>
    unfold dec_number; repeat (case_match; try done);
    first [match goal with |- (dec_word ?w ?s ≫= _) = _ → _ =>
             destruct (dec_word w s) as [rw|] eqn:Ew; [|done]; apply dec_word_le in Ew;
             simpl; intros [= _ <-]; lia end
          |intros E%dec_unsigned_shrinks; simpl in *; lia] end.
  - pose proof (skip_ws_length r0). destruct (skip_ws r0) as [|c' r']; [done|]. simpl in *.
    case_match; [intros [= _ <-]; lia|].
    destruct (dec_elems (dec_value d) (length r0) r0) as [[vs r'']|] eqn:E; [|done].
    apply dec_elems_shrinks in E; [|done]. simpl. intros [= _ <-]. lia.
  - pose proof (skip_ws_length r0). destruct (skip_ws r0) as [|c' r']; [done|]. simpl in *.
    case_match; [intros [= _ <-]; lia|].
    destruct (dec_members (dec_value d) (length r0) r0) as [[vs r'']|] eqn:E; [|done].
    apply dec_members_shrinks in E; [|done]. simpl. intros [= _ <-]. lia.
Qed.

(** So the bound [length r] of [dec_value] may be any larger one. *)
Lemma dec_value_bounds d k s : length s ≤ k →
  dec_elems (dec_value d) (length s) s = dec_elems (dec_value d) k s ∧
  dec_members (dec_value d) (length s) s = dec_members (dec_value d) k s.
Proof.
  intros Hk. split; [apply dec_elems_bound|apply dec_members_bound]; try done;
    [|apply dec_member_shrinks]; apply dec_value_shrinks.
Qed.

(** Texts with apostrophes in place of quotation marks. *)
Definition quoted (s : string) : string :=
  String.string_of_list_ascii (map (λ c, if Ascii.eqb c (chr 39) then dquote else c) (lit s)).

Example json_text : Unmarshal (quoted " {'a': [1, -2.5e3, '\u00e9\ud83d\ude00', null], 'b' : true } ")
  = Some (JObj [("a", JArr [JNum 1; JLit "-2.5e3"; JStr "é😀"; JNull]); ("b", JBool true)]).
Proof. vm_compute. reflexivity. Qed.

(** * Reading members one by one *)
Lemma deep_enough d v : nested d v → (d ≤ 100)%nat → nested (Z.to_nat maxNestingDepth) v.
Proof. intros Hv Hd. apply (nested_mono d); [done|]. unfold maxNestingDepth. lia. Qed.

Section reading.
Context {A : Type} (fs : fields A).
Implicit Types (a : A).

Lemma read_member k f v a' rest a :
  find_field fs k = Some f → f v a = Some a' →
  into_members fs ((k, v) :: rest) a = into_members fs rest a'.
Proof using Type. intros Hf Hd. cbn [into_members]. by rewrite Hf, Hd. Qed.

(** An omitted member leaves the field at its zero value. *)
Lemma read_omit_str k f s a' rest a :
  find_field fs k = Some f → f (JStr s) a = Some a' → (s = "" → a' = a) →
  into_members fs (omit_str k s ++ rest) a = into_members fs rest a'.
Proof using Type.
  intros Hf Hd Hz. unfold omit_str. destruct (String.eqb_spec s "") as [->|]; [by rewrite Hz|].
  by apply (read_member _ f).
Qed.

Lemma read_omit_num k f z a' rest a :
  find_field fs k = Some f → f (JNum z) a = Some a' → (z = 0%Z → a' = a) →
  into_members fs (omit_num k z ++ rest) a = into_members fs rest a'.
Proof using Type.
  intros Hf Hd Hz. unfold omit_num. destruct (Z.eqb_spec z 0) as [->|]; [by rewrite Hz|].
  by apply (read_member _ f).
Qed.

Lemma read_omit_bool k f b a' rest a :
  find_field fs k = Some f → f (JBool b) a = Some a' → (b = false → a' = a) →
  into_members fs (omit_bool k b ++ rest) a = into_members fs rest a'.
Proof using Type.
  intros Hf Hd Hz. unfold omit_bool. destruct b; [|by rewrite Hz].
  by apply (read_member _ f).
Qed.

Lemma read_omit_arr k f l a' rest a :
  find_field fs k = Some f → f (JArr l) a = Some a' → (l = [] → a' = a) →
  into_members fs (omit_arr k l ++ rest) a = into_members fs rest a'.
Proof using Type.
  intros Hf Hd Hz. unfold omit_arr. destruct l; [by rewrite Hz|]. by apply (read_member _ f).
Qed.

End reading.

Lemma into_int_ok lo hi z old : (lo ≤ z < hi)%Z → into_int lo hi (JNum z) old = Some z.
Proof. intros Hr. unfold into_int. by rewrite (proj2 (Z.leb_le _ _)), (proj2 (Z.ltb_lt _ _)) by lia. Qed.

(** A slice of values that are each decoded to [f x]. *)
Lemma into_slice_map {A B} (d : decoder A) zero (g : B → json) (f : B → A) (l : list B) :
  (∀ x, x ∈ l → d (g x) zero = Some (f x)) → into_elems d zero (g <$> l) [] = Some (f <$> l).
Proof.
  induction l as [|x l IH]; intros Hl; csimpl; [done|]. rewrite (Hl x) by left. simpl.
  rewrite IH; [done|]. intros y Hy. apply Hl. by right.
Qed.

(** Read the next member of an object. *)
Ltac member := erewrite read_member; [|reflexivity|first [reflexivity | done]].
Ltac omitted :=
  first [erewrite read_omit_str; [|reflexivity|reflexivity|by intros ->]
        |erewrite read_omit_num; [|reflexivity| |by intros ->]].

Ltac in_range :=
  cbv beta; cbn -[into_int]; unfold field, into_int32, into_int64; rewrite into_int_ok by done; reflexivity.

(** Objects of scalars and lists are nested as deep as their members. *)
Lemma Forall_omit_str (Q : string * json → Prop) k s : (∀ s, Q (k, JStr s)) → Forall Q (omit_str k s).
Proof. intros HQ. unfold omit_str. case_match; by repeat constructor. Qed.
Lemma Forall_omit_num (Q : string * json → Prop) k z : (∀ z, Q (k, JNum z)) → Forall Q (omit_num k z).
Proof. intros HQ. unfold omit_num. case_match; by repeat constructor. Qed.
Lemma Forall_omit_arr (Q : string * json → Prop) k l : (l ≠ [] → Q (k, JArr l)) → Forall Q (omit_arr k l).
Proof. intros HQ. unfold omit_arr. destruct l; [constructor|]. constructor; [by apply HQ|constructor]. Qed.

Ltac members_nested :=
  repeat match goal with
    | |- Forall _ (_ ++ _) => apply Forall_app; split
    | |- Forall _ (_ :: _) => apply Forall_cons; split; [exact I|]
    | |- Forall _ [] => constructor
    | |- Forall _ (omit_str _ _) => apply Forall_omit_str; intros ?; exact I
    | |- Forall _ (omit_num _ _) => apply Forall_omit_num; intros ?; exact I
    end.
