(* ===== verification/Ipam.v ===== *)
(** Address management and naming helpers: [internal/ipam/ipam.go] (choosing
    the next free IPv4 address of a block, gateways, bridge names),
    [internal/mac/mac.go] (deterministic MAC addresses) and
    [internal/nats/subjects.go] (command subjects).

    The allocator theorems say what address [NextAvailableIP] picks (the
    least free host), that it picks none only when the block is exhausted,
    that what it picks is seen as used by the next call, and so how many
    allocations a block can serve. *)
From stdpp Require Import base gmap strings list numbers pretty.
From S2P Require Import Prelude.
From S2P Require Import GoStd.
From S2P Require Import GoNet.
From stdpp Require Import options.
Local Open Scope Z_scope.

(** * internal/ipam *)

(** [^mask] on [uint32]. *)
Definition not32 (m : Z) : Z := 2 ^ 32 - 1 - m.

(** One entry of [usedIPs] as the loop records it. *)
Definition used_addr (u : string) : option Z :=
  let ipStr := match ParseCIDR u with Some (parsed, _) => String_IP parsed | None => u end in
  ip ← ParseIP ipStr; v4 ← To4 ip; Some (Uint32 v4).

Definition used_addrs (usedIPs : list string) : gset Z := list_to_set (omap used_addr usedIPs).

(** [for candidate := ...; candidate < broadcast; candidate++]: [fuel] is
    [broadcast - candidate], the number of turns left. *)
Fixpoint search (ipNet : IPNet) (usedSet : gset Z) (fuel : nat) (candidate : Z) : option Z :=
  match fuel with
  | O => None
  | S fuel' =>
      if bool_decide (candidate ∈ usedSet) then search ipNet usedSet fuel' (candidate + 1)
      else if negb (Contains ipNet (PutUint32 candidate))
      then search ipNet usedSet fuel' (candidate + 1)
      else Some candidate
  end.

Definition NextAvailableIP (cidr : string) (usedIPs : list string) : outcome (string * string) :=
  match ParseCIDR cidr with
  | None => Err ("invalid CIDR " +:+ Quote cidr +:+ ": " +:+ ParseCIDR_error cidr)
  | Some (_, ipNet) =>
      match To4 (n_IP ipNet) with
      | None => Err ("only IPv4 CIDR supported, got " +:+ Quote cidr)
      | Some ip4 =>
          let mask := Uint32 (n_Mask ipNet) in
          let network := Uint32 ip4 in
          let broadcast := Z.lor network (not32 mask) in
          let gwInt := uint32 (network + 1) in
          let gateway := String_IP (PutUint32 gwInt) in
          let usedSet := {[broadcast]} ∪ ({[gwInt]} ∪ ({[network]} ∪ used_addrs usedIPs)) in
          let start := uint32 (network + 2) in
          match search ipNet usedSet (Z.to_nat (broadcast - start)) start with
          | Some candidate =>
              let ones := mask_ones (n_Mask ipNet) in
              Ret (String_IP (PutUint32 candidate) +:+ "/" +:+ pretty ones, gateway)
          | None =>
              Err ("no available IPs in " +:+ cidr +:+ " (used "
                   +:+ pretty (N.of_nat (size usedSet)) +:+ ")")
          end
      end
  end.

Definition GatewayIP (cidr : string) : outcome string :=
  match ParseCIDR cidr with
  | None => Err (ParseCIDR_error cidr)
  | Some (_, ipNet) =>
      match To4 (n_IP ipNet) with
      | None => Err "only IPv4"
      | Some ip4 => Ret (String_IP (PutUint32 (uint32 (Uint32 ip4 + 1))))
      end
  end.

Definition BareIP (cidrOrIP : string) : string :=
  match ParseCIDR cidrOrIP with
  | Some (ip, _) => String_IP ip
  | None =>
      match ParseIP cidrOrIP with
      | Some ip => String_IP ip
      | None => cidrOrIP
      end
  end.

Definition CIDRPrefix (cidr : string) : Z :=
  match ParseCIDR cidr with
  | None => 24
  | Some (_, ipNet) => mask_ones (n_Mask ipNet)
  end.

Definition dash : Ascii.ascii := Ascii.ascii_of_N 45.

Definition BridgeForNetwork (networkID : string) : outcome string :=
  if String.eqb networkID "" then Err "networkID is required"
  else
    let cleaned := Strings.RemoveByte networkID dash in
    if bool_decide (String.length cleaned < 8)%nat then Ret ("br-" +:+ cleaned)
    else Ret ("br-" +:+ Strings.Take 8 cleaned).

(** * internal/mac *)
Definition GenerateNICMAC (vmID nicID : string) : string :=
  let h := Sha256.Sum256 (bytes_of (vmID +:+ "|" +:+ nicID)) in
  "52:54:" +:+ hex02 (nth 0 h 0%N) +:+ ":" +:+ hex02 (nth 1 h 0%N)
  +:+ ":" +:+ hex02 (nth 2 h 0%N) +:+ ":" +:+ hex02 (nth 3 h 0%N).

(** * internal/nats *)
Definition CommandsNodePrefix : string := "commands.node.".
Definition SubjectForNode (nodeID action : string) : string :=
  CommandsNodePrefix +:+ nodeID +:+ "." +:+ action.

(** * The block of an IPv4 CIDR *)

(** The network address and the prefix length of a parsed CIDR. *)
Definition block (n : IPNet) : Z * Z := (Uint32 (n_IP n), mask_ones (n_Mask n)).
Definition block_size (p : Z) : Z := 2 ^ (32 - p).

(** Hosts the allocator may hand out: neither the network address, nor the
    gateway (the first host), nor the broadcast address. *)
Definition host (n : IPNet) (c : Z) : Prop :=
  (block n).1 + 2 ≤ c < (block n).1 + block_size (block n).2 - 1.

Definition is_v4_block (cidr : string) (n : IPNet) : Prop :=
  (snd <$> ParseCIDR cidr) = Some n ∧ length (n_Mask n) = 4%nat.

Section v4_block.
Context (bs : list Z) (p : Z) (Hbs : octets4 bs) (Hp : 0 ≤ p ≤ 32).

Let n := mkIPNet (zip_with Z.land bs (CIDRMask p 4)) (CIDRMask p 4).

Lemma v4_block_eq : block n = (Uint32 bs - Uint32 bs `mod` block_size p, p).
Proof using Hbs Hp.
  unfold block, n. simpl n_IP; simpl n_Mask. f_equal; [|by apply mask_ones_CIDRMask].
  rewrite Uint32_land by (done || by apply CIDRMask_octets).
  rewrite CIDRMask_Uint32 by done. apply land_ones_mask; [by apply Uint32_range|done].
Qed.

Lemma v4_block_aligned : (block n).1 `mod` block_size p = 0 ∧
  0 ≤ (block n).1 ∧ (block n).1 + block_size p ≤ 2 ^ 32.
Proof using Hbs Hp.
  rewrite v4_block_eq. simpl. pose proof (Uint32_range bs Hbs) as Hr. unfold in_uint32 in Hr.
  unfold block_size. set (s := 2 ^ (32 - p)).
  assert (Hs : 0 < s) by (unfold s; apply Z.pow_pos_nonneg; lia).
  assert (Hdiv : s * 2 ^ p = 2 ^ 32).
  { unfold s. rewrite <-Z.pow_add_r by lia. f_equal. lia. }
  pose proof (Z.div_mod (Uint32 bs) s). pose proof (Z.mod_pos_bound (Uint32 bs) s Hs).
  replace (Uint32 bs - Uint32 bs `mod` s) with (s * (Uint32 bs / s)) by lia.
  assert (0 ≤ Uint32 bs / s) by (apply Z.div_pos; lia).
  split_and!; [by rewrite Z.mul_comm, Z_mod_mult|nia|].
  assert (Uint32 bs / s < 2 ^ p) by (apply Z.div_lt_upper_bound; rewrite ?Hdiv; lia). nia.
Qed.

Lemma v4_broadcast : Z.lor (block n).1 (not32 (Uint32 (n_Mask n))) = (block n).1 + block_size p - 1.
Proof using Hbs Hp.
  destruct v4_block_aligned as [Hm [H0 _]]. unfold block_size in *.
  unfold n at 2. simpl n_Mask. rewrite CIDRMask_Uint32 by done. unfold not32, ones_mask.
  replace (2 ^ 32 - 1 - (2 ^ 32 - 2 ^ (32 - p))) with (Z.ones (32 - p))
    by (rewrite Z.ones_equiv; lia).
  assert (Hz : Z.land (block n).1 (Z.ones (32 - p)) = 0) by (rewrite Z.land_ones; lia).
  rewrite <-Z.lxor_lor, <-Z.add_nocarry_lxor by done. rewrite Z.ones_equiv. lia.
Qed.

(** [Contains] is membership in the aligned range. *)
Lemma v4_contains c : in_uint32 c →
  Contains n (PutUint32 c) = true ↔ (block n).1 ≤ c < (block n).1 + block_size p.
Proof using Hbs Hp.
  intros Hc. destruct v4_block_aligned as [Hm [H0 _]].
  pose proof (zip_land_octets bs (CIDRMask p 4) Hbs eq_refl) as Hnet.
  pose proof (CIDRMask_octets p Hp) as Hmask.
  assert (Heq : Contains n (PutUint32 c)
    = bool_decide (zip_with Z.land (n_IP n) (n_Mask n)
                   = zip_with Z.land (PutUint32 c) (n_Mask n))).
  { apply Contains_4; [apply Hnet|done|done]. }
  rewrite Heq, bool_decide_eq_true.
  assert (Hput : Uint32 (zip_with Z.land (PutUint32 c) (n_Mask n)) = c - c `mod` block_size p).
  { unfold n. simpl n_Mask. rewrite Uint32_land, CIDRMask_Uint32, Uint32_PutUint32
      by (done || apply PutUint32_octets). by apply land_ones_mask. }
  assert (Hself : Uint32 (zip_with Z.land (n_IP n) (n_Mask n)) = (block n).1).
  { unfold n at 1 2. simpl n_IP; simpl n_Mask.
    rewrite Uint32_land, CIDRMask_Uint32 by done.
    change (Uint32 (zip_with Z.land bs (CIDRMask p 4))) with (block n).1.
    rewrite land_ones_mask by (try done; apply Uint32_range, Hnet).
    unfold block_size in Hm. lia. }
  assert (0 < block_size p) by (apply Z.pow_pos_nonneg; lia).
  pose proof (Z.mod_pos_bound c (block_size p)). split.
  - intros E%(f_equal Uint32). rewrite Hself, Hput in E. lia.
  - intros Hin. rewrite <-(PutUint32_Uint32 (zip_with Z.land (n_IP n) _)),
      <-(PutUint32_Uint32 (zip_with Z.land (PutUint32 c) _)).
    + rewrite Hself, Hput. f_equal.
      pose proof (Z.div_mod c (block_size p)).
      apply Z.mod_divide in Hm as [q Hq]; [|lia]. rewrite Hq in *.
      assert (c / block_size p = q) by (symmetry; apply (Z.div_unique c _ q (c - q * block_size p)); lia).
      nia.
    + apply zip_land_octets; [apply PutUint32_octets|apply Hmask].
    + apply zip_land_octets; [apply Hnet|apply Hmask].
Qed.

End v4_block.

Lemma is_v4_block_inv cidr n : is_v4_block cidr n →
  ∃ bs p, octets4 bs ∧ 0 ≤ p ≤ 32 ∧
    n = mkIPNet (zip_with Z.land bs (CIDRMask p 4)) (CIDRMask p 4).
Proof.
  intros [Hn Hl]. destruct (ParseCIDR cidr) as [[ip n']|] eqn:E; simplify_eq/=.
  apply ParseCIDR_v4 in E as (bs & p & ? & ? & _ & ?); [by exists bs, p|done].
Qed.

(** Every IPv4 block lies within the 32-bit address space, and its prefix
    length within 0..32. *)
Lemma v4_block_bounds cidr n : is_v4_block cidr n →
  0 ≤ (block n).2 ≤ 32 ∧ 0 ≤ (block n).1 ∧ (block n).1 + block_size (block n).2 ≤ 2 ^ 32.
Proof.
  intros (bs & p & Hbs & Hp & ->)%is_v4_block_inv.
  destruct (v4_block_aligned bs p Hbs Hp) as (_ & ? & ?).
  rewrite (v4_block_eq bs p Hbs Hp) in *. done.
Qed.

(** ** The search loop *)

(** The loop stops at the first candidate that is neither used nor outside. *)
Lemma search_Some n used fuel c0 c : search n used fuel c0 = Some c →
  c0 ≤ c < c0 + Z.of_nat fuel ∧ c ∉ used ∧ Contains n (PutUint32 c) = true ∧
  ∀ c', c0 ≤ c' < c → c' ∈ used ∨ Contains n (PutUint32 c') = false.
Proof.
  revert c0. induction fuel as [|fuel IH]; intros c0; simpl; [done|].
  case_bool_decide as Hu; [|destruct (Contains n (PutUint32 c0)) eqn:Hc; simpl].
  - intros (? & ? & ? & Hl)%IH. split_and!; [lia|lia|done|done|].
    intros c' ?. destruct (decide (c' = c0)) as [->|]; [by left|apply Hl; lia].
  - intros [= <-]. split_and!; [lia|lia|done|done|lia].
  - intros (? & ? & ? & Hl)%IH. split_and!; [lia|lia|done|done|].
    intros c' ?. destruct (decide (c' = c0)) as [->|]; [by right|apply Hl; lia].
Qed.

Lemma search_None n used fuel c0 : search n used fuel c0 = None →
  ∀ c', c0 ≤ c' < c0 + Z.of_nat fuel → c' ∈ used ∨ Contains n (PutUint32 c') = false.
Proof.
  revert c0. induction fuel as [|fuel IH]; intros c0; simpl; [lia|].
  intros H c' Hc'. destruct (decide (c' = c0)) as [->|].
  - case_bool_decide; [by left|]. destruct (Contains n (PutUint32 c0)); [done|by right].
  - apply (IH (c0 + 1)); [|lia]. case_bool_decide; [done|].
    by destruct (Contains n (PutUint32 c0)).
Qed.

Lemma elem_of_reserved (a b d c : Z) (u : gset Z) :
  c ∈ {[a]} ∪ ({[b]} ∪ ({[d]} ∪ u)) ↔ c = a ∨ c = b ∨ c = d ∨ c ∈ u.
Proof. set_solver. Qed.

(** What a search over an IPv4 block finds, the start possibly wrapped around:
    the least free host, or nothing when there is none. *)
Definition least_free (n : IPNet) (used : gset Z) (r : option Z) : Prop :=
  match r with
  | Some c => host n c ∧ c ∉ used ∧ ∀ c', host n c' → c' < c → c' ∈ used
  | None => ∀ c, host n c → c ∈ used
  end.

Lemma search_least_free cidr n used usedSet :
  is_v4_block cidr n →
  let network := (block n).1 in
  let broadcast := Z.lor network (not32 (Uint32 (n_Mask n))) in
  usedSet = {[broadcast]} ∪ ({[uint32 (network + 1)]} ∪ ({[network]} ∪ used)) →
  least_free n used
    (search n usedSet (Z.to_nat (broadcast - uint32 (network + 2))) (uint32 (network + 2))).
Proof.
  intros (bs & p & Hbs & Hp & ->)%is_v4_block_inv. set (n := mkIPNet _ _).
  intros network broadcast ->.
  destruct (v4_block_aligned bs p Hbs Hp) as (_ & H0 & Hhi). fold n network in H0, Hhi.
  assert (Hb2 : (block n).2 = p) by (unfold n; by rewrite (v4_block_eq bs p Hbs Hp)).
  assert (Hbr : broadcast = network + block_size p - 1) by apply (v4_broadcast bs p Hbs Hp).
  assert (Hsz : 0 < block_size p) by (apply Z.pow_pos_nonneg; lia).
  assert (Hcont : ∀ c, in_uint32 c → (Contains n (PutUint32 c) = true) ↔ network ≤ c < network + block_size p)
    by apply (v4_contains bs p Hbs Hp).
  assert (Hhost : ∀ c, host n c ↔ network + 2 ≤ c < broadcast).
  { intros c. unfold host. fold network. rewrite Hb2, Hbr. done. }
  assert (Hst : in_uint32 (uint32 (network + 2))) by apply uint32_range.
  assert (Hgood : ∀ c, host n c → in_uint32 c ∧ uint32 (network + 2) = network + 2 ∧
            uint32 (network + 1) = network + 1).
  { intros c Hc%Hhost. unfold in_uint32. split; [lia|].
    split; apply uint32_id; unfold in_uint32; lia. }
  destruct (search _ _ _ _) as [c|] eqn:E; simpl.
  - apply search_Some in E as (Hr & Hnu & Hc & Hl).
    assert (Hc32 : in_uint32 c) by (unfold in_uint32 in *; lia).
    apply Hcont in Hc; [|done].
    rewrite elem_of_reserved in Hnu.
    assert (Hh : host n c).
    { apply Hhost. destruct (decide (c = network + 1)) as [->|]; [|destruct (decide (c = network)); lia].
      destruct Hnu. right; left. by rewrite uint32_id. }
    split_and!; [done|tauto|]. intros c' Hh' Hlt.
    destruct (Hgood c' Hh') as (H32 & E2 & E1). pose proof (proj1 (Hhost c') Hh').
    destruct (Hl c') as [Hu|Hu]; [lia| |].
    + rewrite elem_of_reserved, E1 in Hu. destruct Hu as [|[|[|]]]; [lia..|done].
    + pose proof (proj2 (Hcont c' H32)). rewrite Hu in *. lia.
  - intros c' Hh'. destruct (Hgood c' Hh') as (H32 & E2 & E1). pose proof (proj1 (Hhost c') Hh').
    destruct (search_None _ _ _ _ E c') as [Hu|Hu]; [lia| |].
    + rewrite elem_of_reserved, E1 in Hu. destruct Hu as [|[|[|]]]; [lia..|done].
    + pose proof (proj2 (Hcont c' H32)). rewrite Hu in *. lia.
Qed.

(** * Properties of the allocator *)

Lemma n_IP_octets cidr n : is_v4_block cidr n → octets4 (n_IP n).
Proof.
  intros (bs & p & Hbs & Hp & ->)%is_v4_block_inv. by apply zip_land_octets.
Qed.

(** What the allocator prints is read back as the same address. *)
Lemma used_addr_cidr_text c p : in_uint32 c → 0 ≤ p ≤ 32 →
  used_addr (cidr_text (PutUint32 c) p) = Some c.
Proof.
  intros Hc Hp. pose proof (PutUint32_octets c) as Ho. unfold used_addr.
  rewrite ParseCIDR_cidr_text, String_IP_v4, ParseIP_string4 by done. cbn [mbind option_bind].
  rewrite To4_v4 by done. cbn [mbind option_bind]. by rewrite Uint32_PutUint32.
Qed.

Lemma used_addrs_snoc us u c : used_addr u = Some c →
  used_addrs (us ++ [u]) = used_addrs us ∪ {[c]}.
Proof. intros E. unfold used_addrs. rewrite omap_app. simpl. rewrite E. set_solver. Qed.

(** The outcome of a call in terms of the block, for the lemmas below. *)
Lemma NextAvailableIP_v4 cidr n used : is_v4_block cidr n →
  match NextAvailableIP cidr used with
  | Ret (alloc, gw) =>
      ∃ c, least_free n (used_addrs used) (Some c) ∧
           alloc = cidr_text (PutUint32 c) (block n).2 ∧
           gw = string4 (PutUint32 ((block n).1 + 1))
  | Err _ => least_free n (used_addrs used) None
  | Panic => False
  end.
Proof.
  intros Hb. pose proof (n_IP_octets _ _ Hb) as Ho. pose proof (v4_block_bounds _ _ Hb) as Hbd.
  pose proof (search_least_free cidr n (used_addrs used) _ Hb eq_refl) as Hs.
  unfold NextAvailableIP. destruct Hb as [Hn _].
  destruct (ParseCIDR cidr) as [[? ?]|]; simplify_eq/=.
  unfold To4. rewrite bool_decide_true by apply Ho.
  destruct (search _ _ _ _) as [c|]; [|exact Hs]. exists c. split; [done|].
  unfold cidr_text. rewrite !String_IP_4 by apply PutUint32_octets. split; [done|].
  destruct Hs as [Hh _]. unfold host, block in *. simpl in *.
  rewrite uint32_id; [done|]. unfold in_uint32. lia.
Qed.

(** C19: For an IPv4 block, [NextAvailableIP] returns the least host address
    above the gateway that no entry of [usedIPs] denotes, written with the
    prefix length of the block, beside the gateway (the first host); it fails
    only when every such host is used, and it never panics. *)
Theorem next_available_ip_least_free cidr n used :
  is_v4_block cidr n →
  match NextAvailableIP cidr used with
  | Ret (alloc, gw) =>
      ∃ c, least_free n (used_addrs used) (Some c) ∧
           alloc = cidr_text (PutUint32 c) (block n).2 ∧
           gw = string4 (PutUint32 ((block n).1 + 1))
  | Err e =>
      least_free n (used_addrs used) None
  | Panic => False
  end.
Proof. apply NextAvailableIP_v4. Qed.

(** Two calls in a row, the second one told of the first: the pattern of the
    control plane, where a stored NIC makes its address used. *)
Fixpoint allocate_seq (cidr : string) (k : nat) (used : list string) : outcome (list string) :=
  match k with
  | O => Ret []
  | S k' =>
      match NextAvailableIP cidr used with
      | Ret (a, _) =>
          match allocate_seq cidr k' (used ++ [a]) with
          | Ret l => Ret (a :: l)
          | o => o
          end
      | Err e => Err e
      | Panic => Panic
      end
  end.

Definition capacity (n : IPNet) : Z := Z.max 0 (block_size (block n).2 - 3).

(** The allocator has handed out exactly the first [i] hosts. *)
Definition filled (n : IPNet) (i : Z) (used : gset Z) : Prop :=
  ∀ c, host n c → (c ∈ used ↔ c < (block n).1 + 2 + i).

Lemma NextAvailableIP_filled cidr n i used : is_v4_block cidr n → 0 ≤ i →
  filled n i (used_addrs used) →
  if decide (i < capacity n) then
    ∃ gw, NextAvailableIP cidr used
          = Ret (cidr_text (PutUint32 ((block n).1 + 2 + i)) (block n).2, gw)
  else ∃ e, NextAvailableIP cidr used = Err e.
Proof.
  intros Hb Hi Hf. pose proof (NextAvailableIP_v4 cidr n used Hb) as H.
  unfold capacity. destruct (NextAvailableIP cidr used) as [[a gw]|e|]; [| |done].
  - destruct H as (c & (Hh & Hnu & Hl) & -> & ->).
    assert (c = (block n).1 + 2 + i) as ->.
    { apply Z.le_antisymm; [|rewrite (Hf c Hh) in Hnu; lia].
      destruct (decide (c ≤ (block n).1 + 2 + i)); [done|].
      assert (Hm : host n ((block n).1 + 2 + i)) by (unfold host in *; lia).
      apply Hl in Hm as Hm'; [|lia]. apply Hf in Hm'; [lia|done]. }
    unfold host in Hh. rewrite decide_True by lia. eauto.
  - case_decide; [|eauto]. exfalso.
    assert (Hm : host n ((block n).1 + 2 + i)) by (unfold host; lia).
    pose proof (H _ Hm) as Hm'. apply Hf in Hm'; [lia|done].
Qed.

Lemma filled_snoc cidr n i used : is_v4_block cidr n → 0 ≤ i < capacity n →
  filled n i (used_addrs used) →
  filled n (i + 1) (used_addrs (used ++ [cidr_text (PutUint32 ((block n).1 + 2 + i)) (block n).2])).
Proof.
  intros Hb Hi Hf c Hc. pose proof (v4_block_bounds _ _ Hb). unfold capacity in Hi.
  rewrite (used_addrs_snoc _ _ ((block n).1 + 2 + i)).
  2:{ apply used_addr_cidr_text; [unfold in_uint32|]; lia. }
  rewrite elem_of_union, elem_of_singleton, (Hf c Hc). lia.
Qed.

Lemma allocate_seq_filled cidr n k : is_v4_block cidr n →
  ∀ i used, 0 ≤ i → filled n i (used_addrs used) →
  if decide (i + Z.of_nat k ≤ capacity n ∨ k = 0%nat) then
    allocate_seq cidr k used
    = Ret (map (λ j, cidr_text (PutUint32 ((block n).1 + 2 + i + Z.of_nat j)) (block n).2) (seq 0 k))
  else ∃ e, allocate_seq cidr k used = Err e.
Proof.
  intros Hb. induction k as [|k IH]; intros i used Hi Hf; simpl;
    [by rewrite decide_True by lia|].
  pose proof (NextAvailableIP_filled cidr n i used Hb Hi Hf) as Hn.
  destruct (decide (i < capacity n)).
  - destruct Hn as [gw ->]. rewrite Z.add_0_r.
    specialize (IH (i + 1) _ ltac:(lia) (filled_snoc cidr n i used Hb ltac:(lia) Hf)).
    destruct (decide (i + 1 + Z.of_nat k ≤ capacity n ∨ k = 0%nat)).
    + rewrite decide_True by lia. rewrite IH. do 2 f_equal.
      rewrite <-seq_shift, map_map. apply map_ext. intros j.
      by replace ((block n).1 + 2 + (i + 1) + Z.of_nat j)
        with ((block n).1 + 2 + i + Z.of_nat (S j)) by lia.
    + rewrite decide_False by lia. destruct IH as [e ->]. eauto.
  - destruct Hn as [e ->]. rewrite decide_False by lia. eauto.
Qed.

(** C20: Capacity: starting from an empty network, [k] allocations in a row,
    each recorded before the next, succeed exactly when [k] is at most the
    block's size less three (network, gateway and broadcast addresses), and
    they hand out the hosts in increasing order: no address twice, no leak. *)
Theorem allocation_capacity cidr n k :
  is_v4_block cidr n →
  if decide (Z.of_nat k ≤ capacity n) then
    allocate_seq cidr k []
    = Ret (map (λ j, cidr_text (PutUint32 ((block n).1 + 2 + Z.of_nat j)) (block n).2) (seq 0 k))
  else ∃ e, allocate_seq cidr k [] = Err e.
Proof.
  intros Hb. pose proof (allocate_seq_filled cidr n k Hb 0 []) as H.
  rewrite Z.add_0_r in H. specialize (H ltac:(lia)).
  assert (Hf : filled n 0 (used_addrs [])).
  { intros c Hc. unfold host in Hc. split; [set_solver|lia]. }
  specialize (H Hf). rewrite Z.add_0_l in H. unfold capacity in *.
  destruct (decide (_ ≤ _)).
  - by rewrite decide_True in H by lia.
  - by rewrite decide_False in H by lia.
Qed.

(** Round trip: the text [NextAvailableIP] returns for an address and a
    prefix length is read back by [BareIP], [CIDRPrefix] and the used-address
    scan as that address and that prefix length. *)
Theorem allocated_text_roundtrip c p :
  in_uint32 c → 0 ≤ p ≤ 32 →
  BareIP (cidr_text (PutUint32 c) p) = string4 (PutUint32 c) ∧
  CIDRPrefix (cidr_text (PutUint32 c) p) = p ∧
  used_addr (cidr_text (PutUint32 c) p) = Some c.
Proof.
  intros Hc Hp. pose proof (PutUint32_octets c) as Ho.
  split_and!; [| |by apply used_addr_cidr_text].
  - unfold BareIP. by rewrite ParseCIDR_cidr_text, String_IP_v4.
  - unfold CIDRPrefix. rewrite ParseCIDR_cidr_text by done. by apply mask_ones_CIDRMask.
Qed.

(** ** Witnesses *)
Definition cidr29 : string := "10.0.0.0/29".
Definition net29 : IPNet := mkIPNet [10; 0; 0; 0] [255; 255; 255; 248].

Lemma cidr29_block : is_v4_block cidr29 net29.
Proof. split; vm_compute; reflexivity. Defined.

Lemma next_available_ip_witness :
  NextAvailableIP cidr29 ["10.0.0.2/29"; "10.0.0.4"] = Ret ("10.0.0.3/29", "10.0.0.1") ∧
  ∃ c, least_free net29 (used_addrs ["10.0.0.2/29"; "10.0.0.4"]) (Some c) ∧
       "10.0.0.3/29" = cidr_text (PutUint32 c) (block net29).2.
Proof.
  pose proof (next_available_ip_least_free cidr29 net29 ["10.0.0.2/29"; "10.0.0.4"] cidr29_block) as H.
  assert (E : NextAvailableIP cidr29 ["10.0.0.2/29"; "10.0.0.4"] = Ret ("10.0.0.3/29", "10.0.0.1"))
    by (vm_compute; reflexivity).
  rewrite E in H. split; [done|]. destruct H as (c & Hc & Ha & _). by exists c.
Defined.

Lemma allocation_capacity_witness :
  allocate_seq cidr29 5 [] = Ret ["10.0.0.2/29"; "10.0.0.3/29"; "10.0.0.4/29"; "10.0.0.5/29"; "10.0.0.6/29"]
  ∧ ∃ e, allocate_seq cidr29 6 [] = Err e.
Proof.
  split.
  - pose proof (allocation_capacity cidr29 net29 5 cidr29_block) as H. vm_compute in H. exact H.
  - pose proof (allocation_capacity cidr29 net29 6 cidr29_block) as H.
    rewrite decide_False in H; [exact H|]. vm_compute. intros Hle. by apply Hle.
Defined.

Lemma allocated_text_roundtrip_witness :
  BareIP (cidr_text (PutUint32 3232235777) 24) = "192.168.1.1".
Proof.
  pose proof (allocated_text_roundtrip 3232235777 24) as H. unfold in_uint32 in H.
  destruct H as [-> _]; [lia|lia|]. vm_compute. reflexivity.
Defined.
