(* ===== verification/Domain.v ===== *)
(** The control plane's domain types
    ([services/controlplane/domain/{vm,node,image_backup,flavor,keypair}.go]):
    the structs, the status enumerations with their text, the requests and the
    filters.  A Go pointer that may be nil is an [option]; a slice or map whose
    nil-ness the code tests is an [option] too; a time is its instant as a
    number, 0 for the zero time. *)
From stdpp Require Import base gmap strings list numbers.
From S2P Require Import Prelude.
From stdpp Require Import options.

(** * Status enumerations *)
Inductive VMStatus :=
| VMStatusCreating | VMStatusRunning | VMStatusStopped | VMStatusPaused | VMStatusRebooting
| VMStatusShuttingDown | VMStatusTerminated | VMStatusError | VMStatusMigrating
| VMStatusSnapshottting.

#[global] Instance VMStatus_eq_dec : EqDecision VMStatus.
Proof. solve_decision. Defined.

Definition string_of_VMStatus (s : VMStatus) : string :=
  match s with
  | VMStatusCreating => "creating"
  | VMStatusRunning => "running"
  | VMStatusStopped => "stopped"
  | VMStatusPaused => "paused"
  | VMStatusRebooting => "rebooting"
  | VMStatusShuttingDown => "shutting_down"
  | VMStatusTerminated => "terminated"
  | VMStatusError => "error"
  | VMStatusMigrating => "migrating"
  | VMStatusSnapshottting => "snapshottting"
  end.

Inductive NodeStatus :=
| NodeStatusOnline | NodeStatusOffline | NodeStatusDraining | NodeStatusMaintenance
| NodeStatusError.

#[global] Instance NodeStatus_eq_dec : EqDecision NodeStatus.
Proof. solve_decision. Defined.

Definition string_of_NodeStatus (s : NodeStatus) : string :=
  match s with
  | NodeStatusOnline => "online"
  | NodeStatusOffline => "offline"
  | NodeStatusDraining => "draining"
  | NodeStatusMaintenance => "maintenance"
  | NodeStatusError => "error"
  end.

(** [ImageType] and [BackupType] are plain strings: requests may carry any. *)
Definition ImageTypeOS : string := "os".
Definition ImageTypeApplication : string := "application".
Definition ImageTypeSnapshot : string := "snapshot".
Definition BackupTypeFull : string := "full".
Definition BackupTypeIncremental : string := "incremental".

Inductive ImageStatus :=
| ImageStatusReady | ImageStatusDownloading | ImageStatusProcessing | ImageStatusError.

#[global] Instance ImageStatus_eq_dec : EqDecision ImageStatus.
Proof. solve_decision. Defined.

Definition string_of_ImageStatus (s : ImageStatus) : string :=
  match s with
  | ImageStatusReady => "ready"
  | ImageStatusDownloading => "downloading"
  | ImageStatusProcessing => "processing"
  | ImageStatusError => "error"
  end.

Inductive BackupStatus :=
| BackupStatusCreating | BackupStatusRunning | BackupStatusCompleted | BackupStatusFailed
| BackupStatusDeleted.

(** * Virtual machines *)
Record Disk := mkDisk {
  disk_ID : string;
  disk_Name : string;
  disk_SizeBytes : Z;
  disk_Type : string;
  disk_StoragePool : string;
  disk_ImageID : string;
  disk_Boot : bool;
  disk_Order : Z;
}.

Record NetworkInterface := mkNIC {
  nic_ID : string;
  nic_Name : string;
  nic_NetworkID : string;
  nic_MACAddress : string;
  nic_IPv4Addresses : list string;
  nic_IPv6Addresses : list string;
  nic_IsPrimary : bool;
}.

Record VirtualMachine := mkVM {
  vm_ID : string;
  vm_Name : string;
  vm_NodeID : option string;
  vm_OrganizationID : string;
  vm_ProjectID : option string;
  vm_Status : VMStatus;
  vm_VCpus : Z;
  vm_MemoryMB : Z;
  vm_CPUModel : string;
  vm_MachineType : string;
  vm_EnableSecureBoot : bool;
  vm_EnableTPM : bool;
  vm_Hugepages : bool;
  vm_CloudInit : string;
  vm_SSHKeyID : option string;
  vm_Tags : option (list string);
  vm_Metadata : option (gmap string string);
  vm_Labels : option (gmap string string);
  vm_Disks : list Disk;
  vm_NetworkInterfaces : list NetworkInterface;
  vm_CreatedAt : Z;
  vm_UpdatedAt : Z;
}.

(** Field assignments. *)
Definition vm_set_status (s : VMStatus) (v : VirtualMachine) : VirtualMachine :=
  mkVM (vm_ID v) (vm_Name v) (vm_NodeID v) (vm_OrganizationID v) (vm_ProjectID v) s
    (vm_VCpus v) (vm_MemoryMB v) (vm_CPUModel v) (vm_MachineType v) (vm_EnableSecureBoot v)
    (vm_EnableTPM v) (vm_Hugepages v) (vm_CloudInit v) (vm_SSHKeyID v) (vm_Tags v)
    (vm_Metadata v) (vm_Labels v) (vm_Disks v) (vm_NetworkInterfaces v)
    (vm_CreatedAt v) (vm_UpdatedAt v).

Definition vm_set_node (n : option string) (v : VirtualMachine) : VirtualMachine :=
  mkVM (vm_ID v) (vm_Name v) n (vm_OrganizationID v) (vm_ProjectID v) (vm_Status v)
    (vm_VCpus v) (vm_MemoryMB v) (vm_CPUModel v) (vm_MachineType v) (vm_EnableSecureBoot v)
    (vm_EnableTPM v) (vm_Hugepages v) (vm_CloudInit v) (vm_SSHKeyID v) (vm_Tags v)
    (vm_Metadata v) (vm_Labels v) (vm_Disks v) (vm_NetworkInterfaces v)
    (vm_CreatedAt v) (vm_UpdatedAt v).

Definition vm_set_times (c u : Z) (v : VirtualMachine) : VirtualMachine :=
  mkVM (vm_ID v) (vm_Name v) (vm_NodeID v) (vm_OrganizationID v) (vm_ProjectID v) (vm_Status v)
    (vm_VCpus v) (vm_MemoryMB v) (vm_CPUModel v) (vm_MachineType v) (vm_EnableSecureBoot v)
    (vm_EnableTPM v) (vm_Hugepages v) (vm_CloudInit v) (vm_SSHKeyID v) (vm_Tags v)
    (vm_Metadata v) (vm_Labels v) (vm_Disks v) (vm_NetworkInterfaces v) c u.

Definition vm_set_related (ds : list Disk) (ns : list NetworkInterface) (v : VirtualMachine)
    : VirtualMachine :=
  mkVM (vm_ID v) (vm_Name v) (vm_NodeID v) (vm_OrganizationID v) (vm_ProjectID v) (vm_Status v)
    (vm_VCpus v) (vm_MemoryMB v) (vm_CPUModel v) (vm_MachineType v) (vm_EnableSecureBoot v)
    (vm_EnableTPM v) (vm_Hugepages v) (vm_CloudInit v) (vm_SSHKeyID v) (vm_Tags v)
    (vm_Metadata v) (vm_Labels v) ds ns (vm_CreatedAt v) (vm_UpdatedAt v).

Definition vm_edit (name : string) (vcpus mem : Z) (tags : option (list string))
    (metadata labels : option (gmap string string)) (v : VirtualMachine) : VirtualMachine :=
  mkVM (vm_ID v) name (vm_NodeID v) (vm_OrganizationID v) (vm_ProjectID v) (vm_Status v)
    vcpus mem (vm_CPUModel v) (vm_MachineType v) (vm_EnableSecureBoot v)
    (vm_EnableTPM v) (vm_Hugepages v) (vm_CloudInit v) (vm_SSHKeyID v) tags
    metadata labels (vm_Disks v) (vm_NetworkInterfaces v) (vm_CreatedAt v) (vm_UpdatedAt v).

(** The columns [VMRepository.Update] writes, taken from [u]. *)
Definition vm_set_editable (u : VirtualMachine) : VirtualMachine → VirtualMachine :=
  vm_edit (vm_Name u) (vm_VCpus u) (vm_MemoryMB u) (vm_Tags u) (vm_Metadata u) (vm_Labels u).

Record Snapshot := mkSnapshot {
  snap_ID : string;
  snap_VMID : string;
  snap_Name : string;
  snap_Description : string;
  snap_SizeBytes : Z;
  snap_Status : string;
  snap_CreatedAt : Z;
}.

Record VMFilter := mkVMFilter {
  vf_OrganizationID : string;
  vf_ProjectID : string;
  vf_NodeID : string;
  vf_Status : string;
  vf_Search : string;
  vf_Page : Z;
  vf_PerPage : Z;
}.

Record CreateDiskRequest := mkDiskReq {
  dr_Name : string;
  dr_SizeBytes : Z;
  dr_Type : string;
  dr_StoragePool : string;
  dr_ImageID : string;
  dr_Image : string;
}.

Record CreateNetworkInterfaceRequest := mkNICReq {
  nr_NetworkID : string;
  nr_IsPrimary : bool;
}.

Record CreateVMRequest := mkCreateVM {
  cr_Name : string;
  cr_NodeID : string;
  cr_FlavorID : string;
  cr_Flavor : string;
  cr_VCpus : Z;
  cr_MemoryMB : Z;
  cr_CPUModel : string;
  cr_MachineType : string;
  cr_EnableSecureBoot : bool;
  cr_EnableTPM : bool;
  cr_Hugepages : bool;
  cr_CloudInit : string;
  cr_KeypairID : string;
  cr_Keypair : string;
  cr_Disks : list CreateDiskRequest;
  cr_NetworkInterfaces : list CreateNetworkInterfaceRequest;
  cr_Tags : option (list string);
  cr_Metadata : option (gmap string string);
  cr_Labels : option (gmap string string);
}.

Definition cr_set_size (vcpus mem : Z) (ds : list CreateDiskRequest) (r : CreateVMRequest)
    : CreateVMRequest :=
  mkCreateVM (cr_Name r) (cr_NodeID r) (cr_FlavorID r) (cr_Flavor r) vcpus mem
    (cr_CPUModel r) (cr_MachineType r) (cr_EnableSecureBoot r) (cr_EnableTPM r) (cr_Hugepages r)
    (cr_CloudInit r) (cr_KeypairID r) (cr_Keypair r) ds (cr_NetworkInterfaces r)
    (cr_Tags r) (cr_Metadata r) (cr_Labels r).

Definition cr_set_keypair (k : string) (r : CreateVMRequest) : CreateVMRequest :=
  mkCreateVM (cr_Name r) (cr_NodeID r) (cr_FlavorID r) (cr_Flavor r) (cr_VCpus r) (cr_MemoryMB r)
    (cr_CPUModel r) (cr_MachineType r) (cr_EnableSecureBoot r) (cr_EnableTPM r) (cr_Hugepages r)
    (cr_CloudInit r) k (cr_Keypair r) (cr_Disks r) (cr_NetworkInterfaces r)
    (cr_Tags r) (cr_Metadata r) (cr_Labels r).

Record UpdateVMRequest := mkUpdateVM {
  ur_Name : string;
  ur_Metadata : option (gmap string string);
  ur_Labels : option (gmap string string);
  ur_Tags : option (list string);
}.

(** * Nodes *)
Record NodeResources := mkResources {
  res_TotalCPUs : Z;
  res_UsedCPUs : Z;
  res_TotalMemoryMB : Z;
  res_UsedMemoryMB : Z;
  res_TotalStorageBytes : Z;
  res_UsedStorageBytes : Z;
  res_TotalGPUs : Z;
  res_UsedGPUs : Z;
}.

(** The eight resource fields of a node are the ones of [NodeResources]. *)
Record Node := mkNode {
  node_ID : string;
  node_Name : string;
  node_Address : string;
  node_Port : Z;
  node_Status : NodeStatus;
  node_Resources : NodeResources;
  node_Labels : option (gmap string string);
  node_Metadata : option (gmap string string);
  node_LastHeartbeat : option Z;
  node_CreatedAt : Z;
  node_UpdatedAt : Z;
}.

Definition node_set_status (s : NodeStatus) (n : Node) : Node :=
  mkNode (node_ID n) (node_Name n) (node_Address n) (node_Port n) s (node_Resources n)
    (node_Labels n) (node_Metadata n) (node_LastHeartbeat n) (node_CreatedAt n) (node_UpdatedAt n).

Definition node_set_labels (l : option (gmap string string)) (n : Node) : Node :=
  mkNode (node_ID n) (node_Name n) (node_Address n) (node_Port n) (node_Status n)
    (node_Resources n) l (node_Metadata n) (node_LastHeartbeat n)
    (node_CreatedAt n) (node_UpdatedAt n).

Record NodeFilter := mkNodeFilter {
  nf_Status : string;
  nf_Search : string;
  nf_Page : Z;
  nf_PerPage : Z;
}.

Record RegisterNodeRequest := mkRegister {
  rr_Name : string;
  rr_Address : string;
  rr_Port : Z;
  rr_Labels : option (gmap string string);
  rr_Resources : NodeResources;
}.

(** * Images, backups, flavors, keypairs *)
Record Image := mkImage {
  img_ID : string;
  img_Name : string;
  img_Description : string;
  img_OS : string;
  img_OSVersion : string;
  img_Architecture : string;
  img_Type : string;
  img_SizeBytes : Z;
  img_Status : ImageStatus;
  img_Checksum : string;
  img_SourceURL : string;
  img_Tags : option (list string);
  img_CreatedAt : Z;
  img_UpdatedAt : Z;
}.

Definition img_set_new (id : string) (s : ImageStatus) (i : Image) : Image :=
  mkImage id (img_Name i) (img_Description i) (img_OS i) (img_OSVersion i) (img_Architecture i)
    (img_Type i) (img_SizeBytes i) s (img_Checksum i) (img_SourceURL i) (img_Tags i)
    (img_CreatedAt i) (img_UpdatedAt i).

Definition img_set_result (s : ImageStatus) (size : Z) (sum : string) (i : Image) : Image :=
  mkImage (img_ID i) (img_Name i) (img_Description i) (img_OS i) (img_OSVersion i)
    (img_Architecture i) (img_Type i) size s sum (img_SourceURL i) (img_Tags i)
    (img_CreatedAt i) (img_UpdatedAt i).

Record ImageFilter := mkImageFilter {
  if_OS : string;
  if_Architecture : string;
  if_Type : string;
  if_Search : string;
  if_Page : Z;
  if_PerPage : Z;
}.

Record OfficialImage := mkOfficial {
  oi_Name : string;
  oi_OS : string;
  oi_OSVersion : string;
  oi_Architecture : string;
  oi_URL : string;
  oi_Checksum : string;
  oi_SizeBytes : Z;
  oi_Description : string;
}.

Record ImportImageRequest := mkImport {
  ir_URL : string;
  ir_Name : string;
  ir_OS : string;
  ir_OSVersion : string;
  ir_Architecture : string;
}.

Record Backup := mkBackup {
  bk_ID : string;
  bk_Name : string;
  bk_VMID : string;
  bk_OrganizationID : string;
  bk_Status : BackupStatus;
  bk_SizeBytes : Z;
  bk_Type : string;
  bk_StoragePool : string;
  bk_CreatedAt : Z;
  bk_CompletedAt : option Z;
}.

Definition bk_set_new (id org : string) (s : BackupStatus) (b : Backup) : Backup :=
  mkBackup id (bk_Name b) (bk_VMID b) org s (bk_SizeBytes b) (bk_Type b) (bk_StoragePool b)
    (bk_CreatedAt b) (bk_CompletedAt b).

Record BackupFilter := mkBackupFilter {
  bf_VMID : string;
  bf_OrganizationID : string;
  bf_Page : Z;
  bf_PerPage : Z;
}.

Record Flavor := mkFlavor {
  fl_ID : string;
  fl_Name : string;
  fl_Description : string;
  fl_VCpus : Z;
  fl_MemoryMB : Z;
  fl_DiskGB : Z;
  fl_CreatedAt : Z;
  fl_UpdatedAt : Z;
}.

Record CreateFlavorRequest := mkCreateFlavor {
  fr_Name : string;
  fr_Description : string;
  fr_VCpus : Z;
  fr_MemoryMB : Z;
  fr_DiskGB : Z;
}.

Record Keypair := mkKeypair {
  kp_ID : string;
  kp_Name : string;
  kp_PublicKey : string;
  kp_Fingerprint : string;
  kp_OrganizationID : string;
  kp_CreatedAt : Z;
}.

Record CreateKeypairRequest := mkCreateKeypair {
  kr_Name : string;
  kr_PublicKey : string;
  kr_OrganizationID : string;
}.

(** The text of a status determines it: a status read back from its column is
    the one that was written. *)
Lemma string_of_VMStatus_inj s t : string_of_VMStatus s = string_of_VMStatus t → s = t.
Proof. by destruct s, t. Qed.

Lemma string_of_NodeStatus_inj s t : string_of_NodeStatus s = string_of_NodeStatus t → s = t.
Proof. by destruct s, t. Qed.
