(* ===== verification/Interfaces.v ===== *)
(** The interfaces of the control plane: the repositories, the address
    allocator and the publisher as records of operations (the Go interfaces of
    [services/controlplane/domain] and [service.go]), what lies outside the
    repository as an environment (UUIDs, the file system, goroutines), and, as
    type classes, what each promises to its clients.

    The promises speak of an abstract state [Abs] (finite maps from ids to
    values, the messages published, the goroutines started) of which the world
    [W] has a view [abs].  They are what the service theorems assume and what
    the PostgreSQL repositories discharge. *)
From stdpp Require Import base gmap strings list numbers.
From S2P Require Import Prelude.
From S2P Require Import GoJson.
From S2P Require Import Domain.
From stdpp Require Import options.

(** * Operations *)
Record VMRepository (W : Type) := mkVMRepository {
  VM_Create : VirtualMachine → M W ();
  VM_GetByID : string → M W (option VirtualMachine);
  VM_List : VMFilter → M W (list VirtualMachine * Z);
  VM_Update : VirtualMachine → M W ();
  VM_Delete : string → M W ();
  VM_UpdateStatus : string → VMStatus → M W ();
  VM_AssignNode : string → string → M W ();
}.
Arguments VM_Create {_} _ _.
Arguments VM_GetByID {_} _ _.
Arguments VM_List {_} _ _.
Arguments VM_Update {_} _ _.
Arguments VM_Delete {_} _ _.
Arguments VM_UpdateStatus {_} _ _ _.
Arguments VM_AssignNode {_} _ _ _.

Record NodeRepository (W : Type) := mkNodeRepository {
  Node_Create : Node → M W ();
  Node_GetByID : string → M W (option Node);
  Node_GetByName : string → M W (option Node);
  Node_List : NodeFilter → M W (list Node * Z);
  Node_Update : Node → M W ();
  Node_Delete : string → M W ();
  Node_UpdateStatus : string → NodeStatus → M W ();
  Node_UpdateHeartbeat : string → NodeResources → M W ();
}.
Arguments Node_Create {_} _ _.
Arguments Node_GetByID {_} _ _.
Arguments Node_GetByName {_} _ _.
Arguments Node_List {_} _ _.
Arguments Node_Update {_} _ _.
Arguments Node_Delete {_} _ _.
Arguments Node_UpdateStatus {_} _ _ _.
Arguments Node_UpdateHeartbeat {_} _ _ _.

Record ImageRepository (W : Type) := mkImageRepository {
  Image_Create : Image → M W ();
  Image_GetByID : string → M W (option Image);
  Image_GetByName : string → M W (option Image);
  Image_List : ImageFilter → M W (list Image * Z);
  Image_Update : Image → M W ();
  Image_UpdateStatus : string → ImageStatus → Z → string → M W ();
  Image_Delete : string → M W ();
}.
Arguments Image_Create {_} _ _.
Arguments Image_GetByID {_} _ _.
Arguments Image_GetByName {_} _ _.
Arguments Image_List {_} _ _.
Arguments Image_Update {_} _ _.
Arguments Image_UpdateStatus {_} _ _ _ _ _.
Arguments Image_Delete {_} _ _.

Record SnapshotRepository (W : Type) := mkSnapshotRepository {
  Snap_Create : Snapshot → M W ();
  Snap_GetByID : string → M W (option Snapshot);
  Snap_ListByVM : string → M W (list Snapshot);
  Snap_Delete : string → M W ();
}.
Arguments Snap_Create {_} _ _.
Arguments Snap_GetByID {_} _ _.
Arguments Snap_ListByVM {_} _ _.
Arguments Snap_Delete {_} _ _.

Record BackupRepository (W : Type) := mkBackupRepository {
  Backup_Create : Backup → M W ();
  Backup_GetByID : string → M W (option Backup);
  Backup_List : BackupFilter → M W (list Backup * Z);
  Backup_Update : Backup → M W ();
  Backup_Delete : string → M W ();
}.
Arguments Backup_Create {_} _ _.
Arguments Backup_GetByID {_} _ _.
Arguments Backup_List {_} _ _.
Arguments Backup_Update {_} _ _.
Arguments Backup_Delete {_} _ _.

Record FlavorRepository (W : Type) := mkFlavorRepository {
  Flavor_Create : Flavor → M W ();
  Flavor_GetByID : string → M W (option Flavor);
  Flavor_GetByName : string → M W (option Flavor);
  Flavor_List : M W (list Flavor);
  Flavor_Delete : string → M W ();
}.
Arguments Flavor_Create {_} _ _.
Arguments Flavor_GetByID {_} _ _.
Arguments Flavor_GetByName {_} _ _.
Arguments Flavor_List {_} _.
Arguments Flavor_Delete {_} _ _.

Record KeypairRepository (W : Type) := mkKeypairRepository {
  Keypair_Create : Keypair → M W ();
  Keypair_GetByID : string → M W (option Keypair);
  Keypair_GetByName : string → string → M W (option Keypair);
  Keypair_List : string → M W (list Keypair);
  Keypair_Delete : string → M W ();
}.
Arguments Keypair_Create {_} _ _.
Arguments Keypair_GetByID {_} _ _.
Arguments Keypair_GetByName {_} _ _ _.
Arguments Keypair_List {_} _ _.
Arguments Keypair_Delete {_} _ _.

(** [EnsureDefaultNetwork] returns a network id and its CIDR, [AllocateIP] the
    address, the gateway and the subnet's CIDR. *)
Record IPAMAllocator (W : Type) := mkIPAMAllocator {
  EnsureDefaultNetwork : string → M W (string * string);
  AllocateIP : string → M W (string * string * string);
}.
Arguments EnsureDefaultNetwork {_} _ _.
Arguments AllocateIP {_} _ _.

Record EventPublisher (W : Type) := mkEventPublisher {
  Publish : string → json → M W ();
  PublishVMEvent : string → string → json → M W ();
  PublishNodeEvent : string → string → json → M W ();
}.
Arguments Publish {_} _ _ _.
Arguments PublishVMEvent {_} _ _ _ _.
Arguments PublishNodeEvent {_} _ _ _ _.

(** A [go p.download(ctx, img, url)] statement: the image, the URL, and
    whether the context is the request's own (cancelled when the request's
    handler returns) or [context.Background()]. *)
Record DownloadTask := mkTask {
  task_image : string;
  task_url : string;
  task_request_ctx : bool;
}.

(** What the service takes from outside the repository. *)
Record Env (W : Type) := mkEnv {
  new_uuid : M W string;
  os_Stat : string → M W (option Z);
  go_download : DownloadTask → M W ();
}.
Arguments new_uuid {_} _.
Arguments os_Stat {_} _ _.
Arguments go_download {_} _ _.

(** * The abstract state *)
Record Abs := mkAbs {
  a_vms : gmap string VirtualMachine;
  a_nodes : gmap string Node;
  a_images : gmap string Image;
  a_snaps : gmap string Snapshot;
  a_backups : gmap string Backup;
  a_flavors : gmap string Flavor;
  a_keypairs : gmap string Keypair;
  a_msgs : list (string * json);
  a_tasks : list DownloadTask;
  a_ids : gset string;
}.

Definition on_vms (f : gmap string VirtualMachine → gmap string VirtualMachine) (a : Abs) : Abs :=
  mkAbs (f (a_vms a)) (a_nodes a) (a_images a) (a_snaps a) (a_backups a) (a_flavors a)
    (a_keypairs a) (a_msgs a) (a_tasks a) (a_ids a).
Definition on_nodes (f : gmap string Node → gmap string Node) (a : Abs) : Abs :=
  mkAbs (a_vms a) (f (a_nodes a)) (a_images a) (a_snaps a) (a_backups a) (a_flavors a)
    (a_keypairs a) (a_msgs a) (a_tasks a) (a_ids a).
Definition on_images (f : gmap string Image → gmap string Image) (a : Abs) : Abs :=
  mkAbs (a_vms a) (a_nodes a) (f (a_images a)) (a_snaps a) (a_backups a) (a_flavors a)
    (a_keypairs a) (a_msgs a) (a_tasks a) (a_ids a).
Definition on_snaps (f : gmap string Snapshot → gmap string Snapshot) (a : Abs) : Abs :=
  mkAbs (a_vms a) (a_nodes a) (a_images a) (f (a_snaps a)) (a_backups a) (a_flavors a)
    (a_keypairs a) (a_msgs a) (a_tasks a) (a_ids a).
Definition on_backups (f : gmap string Backup → gmap string Backup) (a : Abs) : Abs :=
  mkAbs (a_vms a) (a_nodes a) (a_images a) (a_snaps a) (f (a_backups a)) (a_flavors a)
    (a_keypairs a) (a_msgs a) (a_tasks a) (a_ids a).
Definition on_flavors (f : gmap string Flavor → gmap string Flavor) (a : Abs) : Abs :=
  mkAbs (a_vms a) (a_nodes a) (a_images a) (a_snaps a) (a_backups a) (f (a_flavors a))
    (a_keypairs a) (a_msgs a) (a_tasks a) (a_ids a).
Definition on_keypairs (f : gmap string Keypair → gmap string Keypair) (a : Abs) : Abs :=
  mkAbs (a_vms a) (a_nodes a) (a_images a) (a_snaps a) (a_backups a) (a_flavors a)
    (f (a_keypairs a)) (a_msgs a) (a_tasks a) (a_ids a).
Definition on_msgs (f : list (string * json) → list (string * json)) (a : Abs) : Abs :=
  mkAbs (a_vms a) (a_nodes a) (a_images a) (a_snaps a) (a_backups a) (a_flavors a)
    (a_keypairs a) (f (a_msgs a)) (a_tasks a) (a_ids a).
Definition on_tasks (f : list DownloadTask → list DownloadTask) (a : Abs) : Abs :=
  mkAbs (a_vms a) (a_nodes a) (a_images a) (a_snaps a) (a_backups a) (a_flavors a)
    (a_keypairs a) (a_msgs a) (f (a_tasks a)) (a_ids a).
Definition on_ids (f : gset string → gset string) (a : Abs) : Abs :=
  mkAbs (a_vms a) (a_nodes a) (a_images a) (a_snaps a) (a_backups a) (a_flavors a)
    (a_keypairs a) (a_msgs a) (a_tasks a) (f (a_ids a)).

(** The abstract maps keep values without their time stamps. *)
Definition vm_untimed (v : VirtualMachine) : VirtualMachine := vm_set_times 0 0 v.
Definition node_untimed (n : Node) : Node :=
  mkNode (node_ID n) (node_Name n) (node_Address n) (node_Port n) (node_Status n)
    (node_Resources n) (node_Labels n) (node_Metadata n) None 0 0.
Definition node_set_resources (r : NodeResources) (n : Node) : Node :=
  mkNode (node_ID n) (node_Name n) (node_Address n) (node_Port n) (node_Status n) r
    (node_Labels n) (node_Metadata n) (node_LastHeartbeat n) (node_CreatedAt n) (node_UpdatedAt n).
Definition node_set_maps (u n : Node) : Node :=
  mkNode (node_ID n) (node_Name n) (node_Address n) (node_Port n) (node_Status n)
    (node_Resources n) (node_Labels u) (node_Metadata u) (node_LastHeartbeat n)
    (node_CreatedAt n) (node_UpdatedAt n).
Definition img_untimed (i : Image) : Image :=
  mkImage (img_ID i) (img_Name i) (img_Description i) (img_OS i) (img_OSVersion i)
    (img_Architecture i) (img_Type i) (img_SizeBytes i) (img_Status i) (img_Checksum i)
    (img_SourceURL i) (img_Tags i) 0 0.

Definition snap_stored (vmid : string) (s : Snapshot) : Snapshot :=
  mkSnapshot (snap_ID s) vmid (snap_Name s) (snap_Description s) (snap_SizeBytes s)
    (snap_Status s) 0.
Definition snap_untimed (s : Snapshot) : Snapshot := snap_stored (snap_VMID s) s.
Definition bk_stored (vmid org : string) (b : Backup) : Backup :=
  mkBackup (bk_ID b) (bk_Name b) vmid org (bk_Status b) (bk_SizeBytes b) (bk_Type b)
    (bk_StoragePool b) 0 None.
Definition bk_untimed (b : Backup) : Backup := bk_stored (bk_VMID b) (bk_OrganizationID b) b.
Definition fl_untimed (f : Flavor) : Flavor :=
  mkFlavor (fl_ID f) (fl_Name f) (fl_Description f) (fl_VCpus f) (fl_MemoryMB f) (fl_DiskGB f) 0 0.
Definition kp_stored (org : string) (k : Keypair) : Keypair :=
  mkKeypair (kp_ID k) (kp_Name k) (kp_PublicKey k) (kp_Fingerprint k) org 0.
Definition kp_untimed (k : Keypair) : Keypair := kp_stored (kp_OrganizationID k) k.

(** What a stored VM shares with the value it was created from: everything but
    the time stamps and the text form of addresses, ids and references to other
    rows being in the canonical form [key] gives them. *)
Definition disk_core (key : string → string) (d : Disk) : Disk :=
  mkDisk (key (disk_ID d)) (disk_Name d) (disk_SizeBytes d) (disk_Type d) (disk_StoragePool d)
    (key (disk_ImageID d)) (disk_Boot d) (disk_Order d).
Definition nic_core (key : string → string) (n : NetworkInterface) : NetworkInterface :=
  mkNIC (key (nic_ID n)) (nic_Name n) (key (nic_NetworkID n)) (nic_MACAddress n) [] []
    (nic_IsPrimary n).
Definition vm_core (key : string → string) (v : VirtualMachine) : VirtualMachine :=
  mkVM (vm_ID v) (vm_Name v) (key <$> vm_NodeID v) (key (vm_OrganizationID v))
    (key <$> vm_ProjectID v) (vm_Status v) (vm_VCpus v) (vm_MemoryMB v) (vm_CPUModel v)
    (vm_MachineType v) (vm_EnableSecureBoot v) (vm_EnableTPM v) (vm_Hugepages v)
    (vm_CloudInit v) (key <$> vm_SSHKeyID v) (vm_Tags v) (vm_Metadata v) (vm_Labels v)
    (disk_core key <$> vm_Disks v) (nic_core key <$> vm_NetworkInterfaces v) 0 0.

(** A machine's disks are listed [ORDER BY "order"]. *)
Definition vm_in_order (v : VirtualMachine) : VirtualMachine :=
  vm_set_related (sort_by (λ x y, (disk_Order x <? disk_Order y)%Z) (vm_Disks v))
    (vm_NetworkInterfaces v) v.

(** Deleting an image clears the references of disks to it. *)
Definition disk_drop_image (k : string) (d : Disk) : Disk :=
  mkDisk (disk_ID d) (disk_Name d) (disk_SizeBytes d) (disk_Type d) (disk_StoragePool d)
    (if String.eqb (disk_ImageID d) k then "" else disk_ImageID d) (disk_Boot d) (disk_Order d).
Definition vm_drop_image (k : string) (v : VirtualMachine) : VirtualMachine :=
  vm_set_related (disk_drop_image k <$> vm_Disks v) (vm_NetworkInterfaces v) v.

(** A status update as [ImageRepository.UpdateStatus] writes it: the size and
    the checksum only when they are given. *)
Definition img_upd_status (s : ImageStatus) (size : Z) (sum : string) (i : Image) : Image :=
  img_set_result s (if (0 <? size)%Z then size else img_SizeBytes i)
    (if String.eqb sum "" then img_Checksum i else sum) i.

Definition fresh_id (id : string) (a : Abs) : Prop :=
  id ∉ a_ids a ∧ a_vms a !! id = None ∧ a_nodes a !! id = None ∧ a_images a !! id = None ∧
  a_snaps a !! id = None ∧ a_backups a !! id = None ∧ a_flavors a !! id = None ∧
  a_keypairs a !! id = None.

(** * Promises *)
Section laws.
Context {W : Type} (abs : W → Abs) (key : string → string).

(** A computation that leaves the abstract state alone and whose value, if it
    returns one, satisfies [Q]; it never panics. *)
Definition reads {A} (m : M W A) (w : W) (Q : A → Prop) : Prop :=
  wp m (post (λ a w', Q a ∧ abs w' = abs w) (λ _ w', abs w' = abs w)) w.

(** The same for one whose error the code handles: it always returns. *)
Definition peeks {A} (m : M W A) (w : W) (Q : A → Prop) : Prop :=
  wp m (post (λ a w', Q a ∧ abs w' = abs w) (λ _ _, False)) w.

(** A computation that, when it succeeds, changes the abstract state by [f],
    and leaves it alone when it fails. *)
Definition writes {A} (m : M W A) (w : W) (f : Abs → Abs) : Prop :=
  wp m (post (λ _ w', abs w' = f (abs w)) (λ _ w', abs w' = abs w)) w.

Class VMRepoLaws (R : VMRepository W) : Prop := {
  law_key_idem : ∀ id, key (key id) = key id;
  law_vm_get : ∀ id w, reads (VM_GetByID R id) w (λ o,
      (vm_untimed <$> o) = a_vms (abs w) !! key id ∧
      ∀ vm, o = Some vm → vm_ID vm = key id);
  law_vm_list : ∀ f w, reads (VM_List R f) w (λ r,
      Forall (λ vm, a_vms (abs w) !! vm_ID vm = Some (vm_untimed vm) ∧
                    key (vm_ID vm) = vm_ID vm) r.1);
  law_vm_create : ∀ vm w, key (vm_ID vm) = vm_ID vm →
      wp (VM_Create R vm) (post
        (λ _ w', ∃ vm', vm_core key vm' = vm_core key (vm_in_order vm) ∧ vm_untimed vm' = vm' ∧
                        abs w' = on_vms <[vm_ID vm := vm']> (abs w) ∧
                        a_vms (abs w) !! vm_ID vm = None)
        (λ _ w', abs w' = abs w)) w;
  law_vm_update : ∀ vm w, key (vm_ID vm) = vm_ID vm →
      writes (VM_Update R vm) w (on_vms (alter (vm_set_editable vm) (vm_ID vm)));
  law_vm_delete : ∀ id w, writes (VM_Delete R id) w (λ a,
      on_backups (filter (λ kb, bk_VMID kb.2 ≠ key id))
      (on_snaps (filter (λ ks, snap_VMID ks.2 ≠ key id))
      (on_vms (delete (key id)) a)));
  law_vm_status : ∀ id s w,
      writes (VM_UpdateStatus R id s) w (on_vms (alter (vm_set_status s) (key id)));
  law_vm_assign : ∀ id n w,
      writes (VM_AssignNode R id n) w (on_vms (alter (vm_set_node (Some (key n))) (key id)));
}.

Class NodeRepoLaws (R : NodeRepository W) : Prop := {
  law_node_get : ∀ id w, reads (Node_GetByID R id) w (λ o,
      (node_untimed <$> o) = a_nodes (abs w) !! key id ∧
      ∀ n, o = Some n → node_ID n = key id ∧ key (node_ID n) = node_ID n);
  law_node_name : ∀ name w, reads (Node_GetByName R name) w (λ o,
      match o with
      | Some n => node_Name n = name ∧ a_nodes (abs w) !! node_ID n = Some (node_untimed n)
      | None => ∀ k n, a_nodes (abs w) !! k = Some n → node_Name n ≠ name
      end);
  law_node_list : ∀ f w, reads (Node_List R f) w (λ r,
      Forall (λ n, a_nodes (abs w) !! node_ID n = Some (node_untimed n) ∧
                   key (node_ID n) = node_ID n ∧
                   (nf_Status f ≠ "" → string_of_NodeStatus (node_Status n) = nf_Status f)) r.1 ∧
      (r.1 = [] → (nf_Page f ≤ 1)%Z → nf_Search f = "" →
         ∀ k n, a_nodes (abs w) !! k = Some n →
           nf_Status f ≠ "" ∧ string_of_NodeStatus (node_Status n) ≠ nf_Status f));
  law_node_create : ∀ n w, key (node_ID n) = node_ID n →
      wp (Node_Create R n) (post
        (λ _ w', abs w' = on_nodes <[node_ID n := node_untimed n]> (abs w) ∧
                 a_nodes (abs w) !! node_ID n = None ∧
                 ∀ k n', a_nodes (abs w) !! k = Some n' → node_Name n' ≠ node_Name n)
        (λ _ w', abs w' = abs w)) w;
  law_node_update : ∀ n w, key (node_ID n) = node_ID n →
      writes (Node_Update R n) w (on_nodes (alter (node_set_maps n) (node_ID n)));
  law_node_status : ∀ id s w,
      writes (Node_UpdateStatus R id s) w (on_nodes (alter (node_set_status s) (key id)));
  law_node_heartbeat : ∀ id r w,
      writes (Node_UpdateHeartbeat R id r) w (on_nodes (alter (node_set_resources r) (key id)));
}.

Class ImageRepoLaws (R : ImageRepository W) : Prop := {
  law_image_get : ∀ id w, reads (Image_GetByID R id) w (λ o,
      (img_untimed <$> o) = a_images (abs w) !! key id ∧
      ∀ i, o = Some i → img_ID i = key id ∧ key (img_ID i) = img_ID i);
  law_image_name : ∀ name w, reads (Image_GetByName R name) w (λ o,
      match o with
      | Some i => img_Name i = name ∧ a_images (abs w) !! img_ID i = Some (img_untimed i) ∧
                  key (img_ID i) = img_ID i
      | None => ∀ k i, a_images (abs w) !! k = Some i → img_Name i ≠ name
      end);
  law_image_list : ∀ f w, reads (Image_List R f) w (λ r,
      Forall (λ i, a_images (abs w) !! img_ID i = Some (img_untimed i)) r.1);
  law_image_create : ∀ i w, key (img_ID i) = img_ID i →
      wp (Image_Create R i) (post
        (λ _ w', abs w' = on_images <[img_ID i := img_untimed i]> (abs w) ∧
                 a_images (abs w) !! img_ID i = None)
        (λ _ w', abs w' = abs w)) w;
  law_image_status : ∀ id s z c w,
      writes (Image_UpdateStatus R id s z c) w (on_images (alter (img_upd_status s z c) (key id)));
  law_image_delete : ∀ id w, writes (Image_Delete R id) w (λ a,
      on_vms (fmap (vm_drop_image (key id))) (on_images (delete (key id)) a));
}.

(** A stored snapshot or backup names its VM by the canonical id. *)
Class SnapshotRepoLaws (R : SnapshotRepository W) : Prop := {
  law_snap_get : ∀ id w, reads (Snap_GetByID R id) w (λ o,
      (snap_untimed <$> o) = a_snaps (abs w) !! key id ∧
      ∀ s, o = Some s → key (snap_VMID s) = snap_VMID s);
  law_snap_create : ∀ s w, key (snap_ID s) = snap_ID s →
      wp (Snap_Create R s) (post
        (λ _ w', abs w' = on_snaps <[snap_ID s := snap_stored (key (snap_VMID s)) s]> (abs w) ∧
                 a_snaps (abs w) !! snap_ID s = None ∧
                 is_Some (a_vms (abs w) !! key (snap_VMID s)))
        (λ _ w', abs w' = abs w)) w;
}.

Class BackupRepoLaws (R : BackupRepository W) : Prop := {
  law_backup_get : ∀ id w, reads (Backup_GetByID R id) w (λ o,
      (bk_untimed <$> o) = a_backups (abs w) !! key id);
  law_backup_create : ∀ b w, key (bk_ID b) = bk_ID b →
      wp (Backup_Create R b) (post
        (λ _ w', abs w' = on_backups <[bk_ID b := bk_stored (key (bk_VMID b)) (key (bk_OrganizationID b)) b]> (abs w) ∧
                 a_backups (abs w) !! bk_ID b = None ∧
                 is_Some (a_vms (abs w) !! key (bk_VMID b)))
        (λ _ w', abs w' = abs w)) w;
  law_backup_delete : ∀ id w, writes (Backup_Delete R id) w (on_backups (delete (key id)));
  law_backup_list : ∀ f w, reads (Backup_List R f) w (λ _, True);
}.

Class FlavorRepoLaws (R : FlavorRepository W) : Prop := {
  law_flavor_get : ∀ id w, reads (Flavor_GetByID R id) w (λ o,
      (fl_untimed <$> o) = a_flavors (abs w) !! key id);
  law_flavor_name : ∀ name w, reads (Flavor_GetByName R name) w (λ o,
      match o with
      | Some f => fl_Name f = name ∧ a_flavors (abs w) !! fl_ID f = Some (fl_untimed f)
      | None => ∀ k f, a_flavors (abs w) !! k = Some f → fl_Name f ≠ name
      end);
  law_flavor_create : ∀ f w, key (fl_ID f) = fl_ID f →
      wp (Flavor_Create R f) (post
        (λ _ w', abs w' = on_flavors <[fl_ID f := fl_untimed f]> (abs w) ∧
                 a_flavors (abs w) !! fl_ID f = None ∧
                 ∀ k f', a_flavors (abs w) !! k = Some f' → fl_Name f' ≠ fl_Name f)
        (λ _ w', abs w' = abs w)) w;
  law_flavor_delete : ∀ id w, writes (Flavor_Delete R id) w (on_flavors (delete (key id)));
  law_flavor_list : ∀ w, reads (Flavor_List R) w (λ _, True);
}.

Class KeypairRepoLaws (R : KeypairRepository W) : Prop := {
  law_keypair_get : ∀ id w, reads (Keypair_GetByID R id) w (λ o,
      (kp_untimed <$> o) = a_keypairs (abs w) !! key id);
  law_keypair_name : ∀ name org w, reads (Keypair_GetByName R name org) w (λ _, True);
  law_keypair_create : ∀ k w, key (kp_ID k) = kp_ID k →
      wp (Keypair_Create R k) (post
        (λ _ w', abs w' = on_keypairs <[kp_ID k := kp_stored (key (kp_OrganizationID k)) k]> (abs w) ∧
                 a_keypairs (abs w) !! kp_ID k = None)
        (λ _ w', abs w' = abs w)) w;
  law_keypair_delete : ∀ id w, writes (Keypair_Delete R id) w (on_keypairs (delete (key id)));
  law_keypair_list : ∀ org w, reads (Keypair_List R org) w (λ _, True);
}.

Class IPAMLaws (R : IPAMAllocator W) : Prop := {
  law_ipam_default : ∀ org w, reads (EnsureDefaultNetwork R org) w (λ _, True);
  law_ipam_allocate : ∀ net w, reads (AllocateIP R net) w (λ _, True);
}.

(** A publish that fails may or may not have reached the stream. *)
Class PublisherLaws (P : EventPublisher W) : Prop := {
  law_publish : ∀ subj d w, wp (Publish P subj d) (post
      (λ _ w', abs w' = on_msgs (λ ms, ms ++ [(subj, d)]) (abs w))
      (λ _ w', abs w' = abs w ∨ abs w' = on_msgs (λ ms, ms ++ [(subj, d)]) (abs w))) w;
  law_publish_vm : ∀ ev id d w,
      let m := ("events.vm." +:+ id +:+ "." +:+ ev, d) in
      wp (PublishVMEvent P ev id d) (post
      (λ _ w', abs w' = on_msgs (λ ms, ms ++ [m]) (abs w))
      (λ _ w', abs w' = abs w ∨ abs w' = on_msgs (λ ms, ms ++ [m]) (abs w))) w;
  law_publish_node : ∀ ev id d w,
      let m := ("events.node." +:+ id +:+ "." +:+ ev, d) in
      wp (PublishNodeEvent P ev id d) (post
      (λ _ w', abs w' = on_msgs (λ ms, ms ++ [m]) (abs w))
      (λ _ w', abs w' = abs w ∨ abs w' = on_msgs (λ ms, ms ++ [m]) (abs w))) w;
}.

(** A version-4 UUID is new, canonical and not empty. *)
Class EnvLaws (E : Env W) : Prop := {
  law_uuid : ∀ w, wp (new_uuid E) (post
      (λ id w', fresh_id id (abs w) ∧ key id = id ∧ id ≠ "" ∧
                abs w' = on_ids (λ s, {[id]} ∪ s) (abs w))
      (λ _ _, False)) w;
  law_stat : ∀ p w, reads (os_Stat E p) w (λ _, True);
  law_go : ∀ t w, wp (go_download E t) (post
      (λ _ w', abs w' = on_tasks (λ ts, ts ++ [t]) (abs w)) (λ _ _, False)) w;
}.

End laws.

(** * Rules for the promises *)
Section rules.
Context {W : Type} (abs : W → Abs).
Implicit Types (w : W).

Lemma reads_wrap {A} c (m : M W A) w Q : reads abs m w Q → reads abs (wrap c m) w Q.
Proof.
  intros H. eapply wp_post; [by apply wp_wrap|done|]. by intros e w' (? & _ & ?).
Qed.

Lemma writes_wrap {A} c (m : M W A) w f : writes abs m w f → writes abs (wrap c m) w f.
Proof.
  intros H. eapply wp_post; [by apply wp_wrap|done|]. by intros e w' (? & _ & ?).
Qed.

Lemma reads_mono {A} (m : M W A) w (Q Q' : A → Prop) :
  reads abs m w Q → (∀ a, Q a → Q' a) → reads abs m w Q'.
Proof. intros H HQ. eapply wp_post; [exact H| |done]. intros ?? []; auto. Qed.

Lemma reads_attempt {A} (m : M W A) w Q : reads abs m w Q →
  reads abs (attempt m) w (λ r, match r with inl a => Q a | inr _ => True end).
Proof.
  intros H. eapply wp_post; [by apply wp_attempt| |done]. intros [a|e] w'; simpl; tauto.
Qed.

Lemma reads_or_zero {A} d (m : M W A) w Q : reads abs m w Q →
  reads abs (or_zero d m) w (λ a, Q a ∨ a = d).
Proof.
  intros H. eapply wp_post; [by apply wp_or_zero| |done].
  intros a w' [[??]|[-> [? ?]]]; auto.
Qed.

(** The error, if that is what came back, is the computation's own. *)
Lemma peeks_attempt {A} (m : M W A) w Q : reads abs m w Q →
  peeks abs (attempt m) w (λ r, match r with inl a => Q a | inr e => (m w).1 = Err e end).
Proof. unfold reads, peeks, wp, attempt. by destruct (m w) as [[] ?]. Qed.

Lemma peeks_or_zero {A} d (m : M W A) w Q : reads abs m w Q →
  peeks abs (or_zero d m) w (λ a, Q a ∨ a = d).
Proof.
  intros H. eapply wp_post; [by apply wp_or_zero| |done].
  intros a w' [[??]|[-> [? ?]]]; auto.
Qed.

Lemma peeks_ret {A} (a : A) w (Q : A → Prop) : Q a → peeks abs (mret a) w Q.
Proof. intros H. by apply wp_ret. Qed.

Lemma wp_bind_peeks {A B} (m : M W A) (k : A → M W B) Q QA w :
  peeks abs m w QA →
  (∀ a w', QA a → abs w' = abs w → wp (k a) Q w') →
  wp (m ≫= k) Q w.
Proof. intros H Ha. eapply wp_bind_post; [exact H| |done]. intros a w' []; auto. Qed.

Lemma wp_bind_reads {A B} (m : M W A) (k : A → M W B) Q QA w :
  reads abs m w QA →
  (∀ a w', QA a → abs w' = abs w → wp (k a) Q w') →
  (∀ e w', abs w' = abs w → Q (Err e) w') →
  wp (m ≫= k) Q w.
Proof. intros H Ha He. eapply wp_bind_post; [exact H| |exact He]. intros a w' []; auto. Qed.

Lemma wp_bind_writes {A B} (m : M W A) (k : A → M W B) Q f w :
  writes abs m w f →
  (∀ a w', abs w' = f (abs w) → wp (k a) Q w') →
  (∀ e w', abs w' = abs w → Q (Err e) w') →
  wp (m ≫= k) Q w.
Proof. intros H Ha He. eapply wp_bind_post; [exact H|exact Ha|exact He]. Qed.

(** [_ = m] for a write: done or not done. *)
Lemma wp_bind_ignore_writes {A B} (m : M W A) (k : () → M W B) Q f w :
  writes abs m w f →
  (∀ u w', abs w' = f (abs w) ∨ abs w' = abs w → wp (k u) Q w') →
  wp (ignore m ≫= k) Q w.
Proof.
  intros H Hk. eapply wp_bind_post; [by apply wp_ignore| |done].
  intros u w' [[??]|[??]]; auto.
Qed.

End rules.
