(* ===== verification/Catalog.v ===== *)
(** The catalogue of official images
    ([services/controlplane/catalog/catalog.go]): the list, the aliases, the
    lookup by OS, version and architecture, and the resolution of the short
    names users write.  A name or pointer returned by the code is an entry of
    the package-level slice; the entry stands for it here. *)
From stdpp Require Import base strings list numbers.
From S2P Require Import Prelude.
From S2P Require Import GoStd.
From S2P Require Import Domain.
From stdpp Require Import options.

Definition officialImages : list OfficialImage := [
  mkOfficial "ubuntu-24.04" "ubuntu" "24.04" "amd64"
    "https://cloud-images.ubuntu.com/noble/current/noble-server-cloudimg-amd64.img" "" 0
    "Ubuntu 24.04 LTS (Noble) cloud image - amd64";
  mkOfficial "ubuntu-22.04" "ubuntu" "22.04" "amd64"
    "https://cloud-images.ubuntu.com/jammy/current/jammy-server-cloudimg-amd64.img" "" 0
    "Ubuntu 22.04 LTS (Jammy) cloud image - amd64";
  mkOfficial "ubuntu-20.04" "ubuntu" "20.04" "amd64"
    "https://cloud-images.ubuntu.com/focal/current/focal-server-cloudimg-amd64.img" "" 0
    "Ubuntu 20.04 LTS (Focal) cloud image - amd64";
  mkOfficial "ubuntu-24.04-arm64" "ubuntu" "24.04" "arm64"
    "https://cloud-images.ubuntu.com/noble/current/noble-server-cloudimg-arm64.img" "" 0
    "Ubuntu 24.04 LTS (Noble) cloud image - arm64";
  mkOfficial "debian-12" "debian" "12" "amd64"
    "https://cloud.debian.org/images/cloud/bookworm/latest/debian-12-generic-amd64.qcow2" "" 0
    "Debian 12 (Bookworm) generic cloud image - amd64";
  mkOfficial "debian-11" "debian" "11" "amd64"
    "https://cloud.debian.org/images/cloud/bullseye/latest/debian-11-generic-amd64.qcow2" "" 0
    "Debian 11 (Bullseye) generic cloud image - amd64";
  mkOfficial "debian-12-arm64" "debian" "12" "arm64"
    "https://cloud.debian.org/images/cloud/bookworm/latest/debian-12-generic-arm64.qcow2" "" 0
    "Debian 12 (Bookworm) generic cloud image - arm64"
].

Definition aliases : list (string * string) := [
  ("ubuntu", "ubuntu-22.04");
  ("ubuntu-lts", "ubuntu-22.04");
  ("ubuntu-latest", "ubuntu-24.04");
  ("debian", "debian-12");
  ("debian-latest", "debian-12")
].

(** [aliases[k]]. *)
Fixpoint assoc (k : string) (l : list (string * string)) : option string :=
  match l with
  | [] => None
  | (k', v) :: l' => if String.eqb k k' then Some v else assoc k l'
  end.

(** [for i := range officialImages { if p(officialImages[i]) { return ... } }] *)
Definition first_image (p : OfficialImage → bool) : option OfficialImage :=
  List.find p officialImages.

Definition List_images : list OfficialImage := officialImages.

Definition Find (os version arch : string) : outcome OfficialImage :=
  let os := Strings.ToLower (Strings.TrimSpace os) in
  let version := Strings.TrimSpace version in
  let arch := Strings.ToLower (Strings.TrimSpace arch) in
  let arch := if String.eqb arch "" then "amd64" else arch in
  let by_alias :=
    match assoc os aliases with
    | Some alias =>
        if String.eqb version "" then
          first_image (λ oi, String.eqb (oi_Name oi) alias && String.eqb (oi_Architecture oi) arch)
        else None
    | None => None
    end in
  match by_alias with
  | Some oi => Ret oi
  | None =>
      let combined :=
        if String.eqb version "" then os
        else if String.eqb arch "amd64" then os +:+ "-" +:+ version
        else os +:+ "-" +:+ version +:+ "-" +:+ arch in
      match first_image (λ oi, String.eqb (oi_Name oi) combined) with
      | Some oi => Ret oi
      | None =>
          match first_image (λ oi, String.eqb (oi_OS oi) os && String.eqb (oi_Architecture oi) arch
                                   && (String.eqb version "" || String.eqb (oi_OSVersion oi) version)) with
          | Some oi => Ret oi
          | None => Err ("official image not found for os=" +:+ os +:+ " version=" +:+ version
                         +:+ " arch=" +:+ arch)
          end
      end
  end.

Definition dash : Ascii.ascii := Ascii.ascii_of_N 45.

Definition ResolveImageAlias (image : string) : outcome OfficialImage :=
  let image := Strings.ToLower (Strings.TrimSpace image) in
  if String.eqb image "" then Err "image alias is empty"
  else
    match first_image (λ oi, String.eqb (oi_Name oi) image) with
    | Some oi => Ret oi
    | None =>
        match (match assoc image aliases with
               | Some alias => first_image (λ oi, String.eqb (oi_Name oi) alias)
               | None => None
               end) with
        | Some oi => Ret oi
        | None =>
            let '(os, version, arch) :=
              match Strings.SplitByte image dash with
              | [] => ("", "", "amd64")
              | [os] => (os, "", "amd64")
              | [os; x] =>
                  if String.eqb x "amd64" || String.eqb x "arm64" then (os, "", x)
                  else (os, x, "amd64")
              | os :: version :: arch :: _ => (os, version, arch)
              end in
            match Find os version arch with
            | Ret oi => Ret oi
            | _ => Err ("unknown image alias " +:+ Quote image
                        +:+ ", try ubuntu, ubuntu-22.04, ubuntu-24.04, debian, debian-12")
            end
        end
    end.

(** * Properties *)
Lemma first_image_Some p oi : first_image p = Some oi → oi ∈ officialImages ∧ p oi = true.
Proof. intros [??]%find_some. by rewrite list_elem_of_In. Qed.

#[global] Instance OfficialImage_eq_dec : EqDecision OfficialImage.
Proof. solve_decision. Defined.

(** A property of every entry, checked by evaluation. *)
Lemma all_images (P : OfficialImage → bool) :
  forallb P officialImages = true → ∀ oi, oi ∈ officialImages → P oi = true.
Proof. rewrite forallb_forall. intros H oi ?. by apply H, list_elem_of_In. Qed.

Definition no_dash (s : string) : Prop := Forall (λ c, c ≠ dash) (String.list_ascii_of_string s).

Lemma SplitByte_cons a b : no_dash a →
  Strings.SplitByte (a +:+ String dash b) dash = a :: Strings.SplitByte b dash.
Proof.
  unfold no_dash. induction a as [|c a IH]; simpl; intros Ha; [done|].
  inversion_clear Ha as [|?? Hc Ha']. rewrite IH by done.
  by apply Ascii.eqb_neq in Hc as ->.
Qed.

Lemma SplitByte_single a : no_dash a → Strings.SplitByte a dash = [a].
Proof.
  unfold no_dash. induction a as [|c a IH]; simpl; intros Ha; [done|].
  inversion_clear Ha as [|?? Hc Ha']. rewrite IH by done.
  by apply Ascii.eqb_neq in Hc as ->.
Qed.

(** An entry is what its three attributes say: its name is OS, version and,
    unless it is amd64, architecture, joined by dashes. *)
Definition name_parts (oi : OfficialImage) : list string :=
  oi_OS oi :: oi_OSVersion oi ::
  (if String.eqb (oi_Architecture oi) "amd64" then [] else [oi_Architecture oi]).

Lemma name_parts_split oi : oi ∈ officialImages →
  Strings.SplitByte (oi_Name oi) dash = name_parts oi.
Proof.
  intros Hoi. apply (bool_decide_eq_true_1 _).
  revert oi Hoi. apply all_images. vm_compute. reflexivity.
Qed.

Lemma SplitByte_ne s : Strings.SplitByte s dash ≠ [].
Proof. induction s as [|c s IH]; simpl; [done|]. by destruct (Ascii.eqb c dash), (Strings.SplitByte s dash). Qed.

Lemma SplitByte_one s x : Strings.SplitByte s dash = [x] → s = x.
Proof.
  revert x. induction s as [|c s IH]; intros x; simpl; [by intros [= <-]|].
  destruct (Ascii.eqb c dash).
  - intros [= _ E]. by apply SplitByte_ne in E.
  - destruct (Strings.SplitByte s dash) as [|y ys] eqn:E; [by apply SplitByte_ne in E|].
    intros [= <- ->]. f_equal. by apply IH.
Qed.

(** An alias without a dash stands for an image of the OS it names. *)
Definition alias_good (kv : string * string) : bool :=
  negb (bool_decide (Strings.SplitByte kv.1 dash = [kv.1]))
  || forallb (λ oi, negb (String.eqb (oi_Name oi) kv.2) || String.eqb (oi_OS oi) kv.1) officialImages.

Lemma assoc_elem k v l : assoc k l = Some v → (k, v) ∈ l.
Proof.
  induction l as [|[k' v'] l IH]; simpl; [done|].
  destruct (String.eqb_spec k k') as [->|_]; [intros [= ->]; left|right; auto].
Qed.

Lemma alias_os k v oi : assoc k aliases = Some v → no_dash k → oi ∈ officialImages →
  oi_Name oi = v → oi_OS oi = k.
Proof.
  intros Ha%assoc_elem Hk Hoi Hv.
  assert (Hg : forallb alias_good aliases = true) by (vm_compute; reflexivity).
  rewrite forallb_forall in Hg. apply list_elem_of_In, Hg in Ha. unfold alias_good in Ha.
  cbn [fst snd] in Ha. rewrite bool_decide_true in Ha by (by apply SplitByte_single).
  cbn [negb orb] in Ha.
  rewrite forallb_forall in Ha. apply list_elem_of_In, Ha in Hoi.
  rewrite Hv, String.eqb_refl in Hoi. simpl in Hoi. by apply String.eqb_eq.
Qed.

(** The architecture a lookup is about: amd64 unless one is given. *)
Definition norm_arch (arch : string) : string :=
  let a := Strings.ToLower (Strings.TrimSpace arch) in if String.eqb a "" then "amd64" else a.

(** When neither the OS nor the version contains a dash, an image [Find]
    returns is in the catalogue and is what was asked for: its OS and
    architecture are the normalised ones, and its version is the one given,
    if any. *)
Theorem find_sound os version arch oi :
  no_dash (Strings.ToLower (Strings.TrimSpace os)) →
  no_dash (Strings.TrimSpace version) →
  Find os version arch = Ret oi →
  oi ∈ officialImages ∧
  oi_OS oi = Strings.ToLower (Strings.TrimSpace os) ∧
  oi_Architecture oi = norm_arch arch ∧
  (Strings.TrimSpace version ≠ "" → oi_OSVersion oi = Strings.TrimSpace version).
Proof.
  unfold Find. fold (norm_arch arch).
  set (o := Strings.ToLower _). set (v := Strings.TrimSpace version). intros Ho Hv.
  destruct (match assoc o aliases with Some _ => _ | None => None end) as [r|] eqn:Ea.
  { destruct (assoc o aliases) as [al|] eqn:Eal; [|done].
    destruct (String.eqb_spec v "") as [Hv0|]; [|done]. intros [= <-].
    apply first_image_Some in Ea as [Hin [Hn Har]%andb_true_iff].
    apply String.eqb_eq in Hn, Har. split_and!; [done| |done|done].
    by eapply alias_os. }
  clear Ea. destruct (first_image (λ oi, String.eqb (oi_Name oi) _)) as [r|] eqn:En.
  { intros [= <-]. apply first_image_Some in En as [Hin Hn%String.eqb_eq].
    apply name_parts_split in Hin as Hp. rewrite Hn in Hp. unfold name_parts in Hp.
    destruct (String.eqb_spec v "") as [Hv0|Hv0].
    { rewrite SplitByte_single in Hp by done. done. }
    destruct (String.eqb_spec (norm_arch arch) "amd64") as [Hamd|Hamd].
    - change ("-" +:+ v) with (String dash v) in Hp.
      rewrite SplitByte_cons, SplitByte_single in Hp by done.
      destruct (String.eqb_spec (oi_Architecture r) "amd64") as [Hr|_]; [|done].
      injection Hp as Ep1 Ep2. split_and!; congruence.
    - change ("-" +:+ (v +:+ ("-" +:+ norm_arch arch)))
        with (String dash (v +:+ String dash (norm_arch arch))) in Hp.
      rewrite !SplitByte_cons in Hp by done. injection Hp as Ep1 Ep2 Hp.
      destruct (String.eqb_spec (oi_Architecture r) "amd64") as [Hr|_].
      + by apply SplitByte_ne in Hp.
      + apply SplitByte_one in Hp. split_and!; done. }
  clear En. destruct (first_image _) as [r|] eqn:E3; [|done]. intros [= <-].
  apply first_image_Some in E3 as [Hin [[Ho' Har]%andb_true_iff Hver]%andb_true_iff].
  apply String.eqb_eq in Ho', Har. split_and!; [done..|]. intros Hne.
  apply String.eqb_neq in Hne. fold v in Hne. rewrite Hne in Hver. simpl in Hver.
  by apply String.eqb_eq.
Qed.

(** Completeness: every entry of the catalogue is found by its OS, version
    and architecture, and resolved by its own name; every alias resolves to
    the entry it names. *)
Theorem catalog_complete :
  (∀ oi, oi ∈ officialImages →
     Find (oi_OS oi) (oi_OSVersion oi) (oi_Architecture oi) = Ret oi ∧
     ResolveImageAlias (oi_Name oi) = Ret oi) ∧
  (∀ k v, (k, v) ∈ aliases →
     ∃ oi, ResolveImageAlias k = Ret oi ∧ oi_Name oi = v).
Proof.
  pose (ret_is := λ (o : outcome OfficialImage) oi,
    match o with Ret oi' => bool_decide (oi' = oi) | _ => false end).
  assert (Hret : ∀ o oi, ret_is o oi = true → o = Ret oi).
  { intros [oi'|e|] oi; simpl; [|done..]. by intros ->%bool_decide_eq_true_1. }
  split.
  - intros oi Hoi.
    pose proof (all_images (λ oi, ret_is (Find (oi_OS oi) (oi_OSVersion oi) (oi_Architecture oi)) oi
      && ret_is (ResolveImageAlias (oi_Name oi)) oi)) as H.
    specialize (H ltac:(vm_compute; reflexivity) oi Hoi).
    apply andb_true_iff in H as [H1 H2]. split; by apply Hret.
  - intros k v Hkv.
    assert (H : forallb (λ kv, match ResolveImageAlias kv.1 with
                | Ret oi => String.eqb (oi_Name oi) kv.2 | _ => false end) aliases = true)
      by (vm_compute; reflexivity).
    rewrite forallb_forall in H. apply list_elem_of_In, H in Hkv. simpl in Hkv.
    destruct (ResolveImageAlias k) as [oi| |]; [|done..]. exists oi. by apply String.eqb_eq in Hkv.
Qed.

(** Without the condition on dashes the architecture is not respected: a
    lookup of "ubuntu-22.04" for arm64 with no version is answered with the
    amd64 image, because the match on the combined name ignores the
    architecture asked for. *)
Theorem find_ignores_arch_on_name_match :
  ∃ oi, Find "ubuntu-22.04" "" "arm64" = Ret oi ∧ oi_Architecture oi = "amd64".
Proof. eexists. split; vm_compute; reflexivity. Qed.

Lemma find_sound_witness :
  ∃ oi, Find " Debian" "12" "ARM64" = Ret oi ∧ oi_OS oi = "debian" ∧ oi_Architecture oi = "arm64".
Proof.
  eexists. split; [vm_compute; reflexivity|].
  edestruct (find_sound " Debian" "12" "ARM64") as (_ & -> & -> & _).
  - unfold no_dash. apply (bool_decide_unpack _). vm_compute. exact I.
  - unfold no_dash. apply (bool_decide_unpack _). vm_compute. exact I.
  - vm_compute. reflexivity.
  - vm_compute. done.
Defined.
