(* ===== verification/Puller.v ===== *)
(** The image puller's request side
    ([services/controlplane/image_puller.go]): finding or creating the row of
    an image and starting the goroutine that downloads it.  The goroutine
    itself is in [Download].

    Theorems: an image reference resolves to an image that is stored; a pull
    of an official image starts at most one download and never for an image
    that is ready on disk or already being fetched; an image name keeps being
    unique. *)
From stdpp Require Import base gmap strings list numbers.
From S2P Require Import Prelude.
From S2P Require Import GoStd.
From S2P Require Import Domain.
From S2P Require Import Interfaces.
From S2P Require Import Catalog.
From stdpp Require Import options.

(** The fields of [Puller] the request side reads. *)
Record PullerState (W : Type) := mkPuller {
  p_imageRepo : ImageRepository W;
  p_imagesDir : string;
  p_env : Env W;
}.
Arguments p_imageRepo {_} _.
Arguments p_imagesDir {_} _.
Arguments p_env {_} _.

Section puller.
Context {W : Type}.

Definition NewPuller (repo : ImageRepository W) (imagesDir : string) (env : Env W) : PullerState W :=
  mkPuller W repo (if String.eqb imagesDir "" then "/var/lib/rymevisor/images" else imagesDir) env.

Context (p : PullerState W).

Definition ImagePath (imageID : string) : string :=
  Filepath.Join [p_imagesDir p; imageID +:+ ".qcow2"].

(** [os.Stat(p.ImagePath(id))] succeeds. *)
Definition file_exists (imageID : string) : M W bool :=
  st ← os_Stat (p_env p) (ImagePath imageID);
  mret (match st with Some _ => true | None => false end).

Definition in_progress (s : ImageStatus) : bool :=
  match s with
  | ImageStatusDownloading | ImageStatusProcessing => true
  | _ => false
  end.

(** [_ = UpdateStatus(downloading); go p.download(...)] *)
Definition restart_download (img : Image) (url : string) (request_ctx : bool) : M W () :=
  _ ← ignore (Image_UpdateStatus (p_imageRepo p) (img_ID img) ImageStatusDownloading 0 "");
  go_download (p_env p) (mkTask (img_ID img) url request_ctx).

Definition PullFromOfficial (oi : OfficialImage) : M W Image :=
  existing ← wrap "check existing image" (Image_GetByName (p_imageRepo p) (oi_Name oi));
  match existing with
  | Some existing =>
      on_disk ← (if bool_decide (img_Status existing = ImageStatusReady)
                 then file_exists (img_ID existing) else mret false);
      if (on_disk : bool) then mret existing
      else if in_progress (img_Status existing) then mret existing
      else
        _ ← restart_download existing (oi_URL oi) true;
        mret existing
  | None =>
      id ← new_uuid (p_env p);
      let img := mkImage id (oi_Name oi) (oi_Description oi) (oi_OS oi) (oi_OSVersion oi)
                   (oi_Architecture oi) ImageTypeOS (oi_SizeBytes oi) ImageStatusDownloading ""
                   (oi_URL oi) (Some ["official"; "auto-pulled"]) 0 0 in
      _ ← wrap "create image" (Image_Create (p_imageRepo p) img);
      _ ← go_download (p_env p) (mkTask id (oi_URL oi) false);
      mret img
  end.

Definition lift {A} (o : outcome A) : M W A := λ w, (o, w).

Definition PullOfficialImage (osName version arch : string) : M W Image :=
  oi ← lift (Find osName version arch);
  PullFromOfficial oi.

Definition ImportFromURL (req : ImportImageRequest) : M W Image :=
  if String.eqb (ir_URL req) "" then fail "url is required"
  else if String.eqb (ir_Name req) "" then fail "name is required"
  else
    existing ← wrap "check existing" (Image_GetByName (p_imageRepo p) (ir_Name req));
    match existing with
    | Some _ => fail ("image with name " +:+ Quote (ir_Name req) +:+ " already exists")
    | None =>
        id ← new_uuid (p_env p);
        let img := mkImage id (ir_Name req) ("Imported from " +:+ ir_URL req)
                     (if String.eqb (ir_OS req) "" then "linux" else ir_OS req) (ir_OSVersion req)
                     (if String.eqb (ir_Architecture req) "" then "amd64" else ir_Architecture req)
                     ImageTypeOS 0 ImageStatusDownloading "" (ir_URL req) (Some ["imported"]) 0 0 in
        _ ← wrap "create image" (Image_Create (p_imageRepo p) img);
        _ ← go_download (p_env p) (mkTask id (ir_URL req) false);
        mret img
    end.

(** Lines 189-215: the reference is neither an id nor a stored name. *)
Definition resolve_official (imageRef : string) : M W Image :=
  match ResolveImageAlias imageRef with
  | Err e => fail ("image " +:+ Quote imageRef
                   +:+ " not found and not a known official image: " +:+ e)
  | Panic => panic
  | Ret oi =>
      r ← attempt (Image_GetByName (p_imageRepo p) (oi_Name oi));
      match r with
      | inl (Some img) =>
          on_disk ← (if bool_decide (img_Status img = ImageStatusReady)
                     then file_exists (img_ID img) else mret false);
          if (on_disk : bool) then mret img
          else if in_progress (img_Status img) then mret img
          else
            _ ← restart_download img (oi_URL oi) false;
            mret img
      | _ => PullFromOfficial oi
      end
  end.

Definition ResolveAndEnsureImage (imageRef : string) : M W Image :=
  if String.eqb imageRef "" then fail "image reference is empty"
  else
    r ← attempt (Image_GetByID (p_imageRepo p) imageRef);
    match r with
    | inl (Some img) =>
        if bool_decide (img_Status img = ImageStatusError) && negb (String.eqb (img_SourceURL img) "")
        then _ ← restart_download img (img_SourceURL img) false; mret img
        else mret img
    | _ =>
        r ← attempt (Image_GetByName (p_imageRepo p) imageRef);
        match r with
        | inl (Some img) => mret img
        | _ => resolve_official imageRef
        end
    end.

(** One image of the list [ResumeDownloads] walks. *)
Definition resume_one (img : Image) : M W () :=
  if in_progress (img_Status img) then
    if String.eqb (img_SourceURL img) "" then mret ()
    else
      on_disk ← file_exists (img_ID img);
      if (on_disk : bool) && bool_decide (img_Status img = ImageStatusReady) then mret ()
      else go_download (p_env p) (mkTask (img_ID img) (img_SourceURL img) false)
  else mret ().

Definition ResumeDownloads : M W () :=
  r ← attempt (Image_List (p_imageRepo p) (mkImageFilter "" "" "" "" 0 0));
  match r with
  | inr _ => mret ()
  | inl (images, _) => iterM resume_one images
  end.

End puller.

(** * What the request side may change *)

(** Everything but images, tasks and issued ids. *)
Definition frame_images (a a' : Abs) : Prop :=
  a_vms a' = a_vms a ∧ a_nodes a' = a_nodes a ∧ a_snaps a' = a_snaps a ∧
  a_backups a' = a_backups a ∧ a_flavors a' = a_flavors a ∧ a_keypairs a' = a_keypairs a ∧
  a_msgs a' = a_msgs a.

#[global] Instance frame_images_preorder : PreOrder frame_images.
Proof.
  split; [done|]. intros a b c (?&?&?&?&?&?&?) (?&?&?&?&?&?&?). repeat split; congruence.
Qed.

(** A stored image keeps being stored, under the same id and name. *)
Definition images_grow (a a' : Abs) : Prop :=
  ∀ k i, a_images a !! k = Some i →
    ∃ i', a_images a' !! k = Some i' ∧ img_Name i' = img_Name i.

#[global] Instance images_grow_preorder : PreOrder images_grow.
Proof.
  split; [intros a k i H; eauto|].
  intros a b c Hab Hbc k i (i' & Hi' & Hn)%Hab. apply Hbc in Hi' as (i'' & ? & ?).
  exists i''. split; congruence.
Qed.

Definition names_unique (a : Abs) : Prop :=
  ∀ k1 k2 i1 i2, a_images a !! k1 = Some i1 → a_images a !! k2 = Some i2 →
    img_Name i1 = img_Name i2 → k1 = k2.

(** The step the operations make between a world and the next. *)
Definition image_step (a a' : Abs) : Prop :=
  frame_images a a' ∧ images_grow a a' ∧ (names_unique a → names_unique a').

#[global] Instance image_step_preorder : PreOrder image_step.
Proof.
  split; [by intros a; split_and!; [| |done]|].
  intros a b c (?&?&?) (?&?&?). split_and!; [by etrans..|auto].
Qed.

Lemma image_step_tasks f a : image_step a (on_tasks f a).
Proof. split_and!; [done|by intros k i ?; eauto|done]. Qed.

Lemma image_step_ids f a : image_step a (on_ids f a).
Proof. split_and!; [done|by intros k i ?; eauto|done]. Qed.

Lemma image_step_status s z c k a : image_step a (on_images (alter (img_upd_status s z c) k) a).
Proof.
  assert (Hl : ∀ k' i', alter (img_upd_status s z c) k (a_images a) !! k' = Some i' →
            ∃ i, a_images a !! k' = Some i ∧ img_Name i' = img_Name i).
  { intros k' i'. destruct (decide (k = k')) as [->|Hne].
    - rewrite lookup_alter_eq. destruct (a_images a !! k') eqn:E; simpl; [|done].
      intros [= <-]. by eexists.
    - rewrite lookup_alter_ne by done. eauto. }
  split_and!; [done| |].
  - intros k' i' Hi'. simpl. destruct (decide (k = k')) as [->|Hne].
    + rewrite lookup_alter_eq, Hi'. simpl. eauto.
    + rewrite lookup_alter_ne by done. eauto.
  - intros Hu k1 k2 i1 i2 (j1 & ? & ->)%Hl (j2 & ? & ->)%Hl ?. by eapply Hu.
Qed.

Lemma image_step_insert i a :
  (∀ k j, a_images a !! k = Some j → img_Name j ≠ img_Name i) →
  a_images a !! img_ID i = None →
  image_step a (on_images <[img_ID i := img_untimed i]> a).
Proof.
  intros Hn Hnone. split_and!; [done| |].
  - intros k j Hj. simpl. rewrite lookup_insert_ne by congruence. eauto.
  - intros Hu k1 k2 i1 i2. simpl.
    rewrite !lookup_insert_Some. intros [[<- <-]|[? H1]] [[<- <-]|[? H2]]; simpl; intros E.
    + done.
    + exfalso. by eapply (Hn _ _ H2).
    + exfalso. by eapply (Hn _ _ H1).
    + by eapply Hu.
Qed.

Create HintDb images.
#[export] Hint Resolve image_step_tasks image_step_ids image_step_status : images.

(** The image a call returned is stored. *)
Definition stored_image (img : Image) (a : Abs) : Prop :=
  ∃ i, a_images a !! img_ID img = Some i ∧ img_Name i = img_Name img.

Lemma stored_image_step img a a' : image_step a a' → stored_image img a → stored_image img a'.
Proof. intros (_ & Hg & _) (i & (i' & ? & ?)%Hg & ?). exists i'. split; congruence. Qed.

(** The downloads started between two states. *)
Definition started (a a' : Abs) (ts : list DownloadTask) : Prop := a_tasks a' = a_tasks a ++ ts.

Section specs.
Context {W : Type} (abs : W → Abs) (key : string → string) (p : PullerState W).
Context `{!ImageRepoLaws abs key (p_imageRepo p)} `{!EnvLaws abs key (p_env p)}.

Lemma file_exists_reads id w : reads abs (file_exists p id) w (λ _, True).
Proof using Type*.
  eapply wp_bind_reads; [apply (law_stat abs key)| |done]. intros st w' _ E. by apply wp_ret.
Qed.

Lemma on_disk_reads img w :
  reads abs (if bool_decide (img_Status img = ImageStatusReady) then file_exists p (img_ID img)
             else mret false) w (λ b, b = true → img_Status img = ImageStatusReady).
Proof using Type*.
  case_bool_decide.
  - eapply reads_mono; [apply file_exists_reads|done].
  - by apply wp_ret.
Qed.

(** Restarting the download of a stored image: one goroutine, status reset. *)
Lemma restart_download_spec img url rc w : key (img_ID img) = img_ID img →
  wp (restart_download p img url rc) (post
    (λ _ w', image_step (abs w) (abs w') ∧
             started (abs w) (abs w') [mkTask (img_ID img) url rc])
    (λ _ _, False)) w.
Proof using Type*.
  intros Hk. eapply wp_bind_ignore_writes; [apply (law_image_status abs key)|].
  intros [] w1 H1. eapply wp_post; [apply (law_go abs key)| |done].
  intros [] w2 ->. rewrite Hk in H1.
  destruct H1 as [->| ->]; (split; [|done]); [|apply image_step_tasks].
  etrans; [apply image_step_status|apply image_step_tasks].
Qed.

(** What a successful pull guarantees: the image is stored, and at most one
    download was started, for that image, and none if it was being fetched.
    [rc] constrains the context of a download restarted for an image that was
    already stored; a new image is downloaded under the background context. *)
Definition pull_result (rc : bool → Prop) (a : Abs) (img : Image) (a' : Abs) : Prop :=
  image_step a a' ∧ stored_image img a' ∧
  ∃ ts, started a a' ts ∧
    (ts = [] ∨ ∃ url b, ts = [mkTask (img_ID img) url b] ∧
       match a_images a !! img_ID img with Some _ => rc b | None => b = false end) ∧
    (∀ i, a_images a !! img_ID img = Some i → in_progress (img_Status i) = true → ts = []).

(** A failed one starts nothing and stores nothing. *)
Definition pull_failure (a a' : Abs) : Prop :=
  image_step a a' ∧ a_images a' = a_images a ∧ started a a' [].

Lemma pull_result_same rc a img : stored_image img a → pull_result rc a img a.
Proof using. intros H. split_and!; [done|done|]. exists []. unfold started. rewrite app_nil_r. auto. Qed.

Lemma pull_failure_refl a : pull_failure a a.
Proof using. split_and!; [done|done|]. unfold started. by rewrite app_nil_r. Qed.

Lemma stored_found img a : a_images a !! img_ID img = Some (img_untimed img) → stored_image img a.
Proof using. intros H. by exists (img_untimed img). Qed.

(** The common tail of [PullFromOfficial] and [resolve_official] on an image
    that is stored. *)
Lemma ensure_existing_spec img url rc w :
  key (img_ID img) = img_ID img →
  a_images (abs w) !! img_ID img = Some (img_untimed img) →
  wp (on_disk ← (if bool_decide (img_Status img = ImageStatusReady)
                 then file_exists p (img_ID img) else mret false);
      if (on_disk : bool) then mret img
      else if in_progress (img_Status img) then mret img
      else _ ← restart_download p img url rc; mret img)
    (post (λ r w', r = img ∧ pull_result (λ b, b = rc) (abs w) img (abs w')) (λ _ w', pull_failure (abs w) (abs w'))) w.
Proof using Type*.
  intros Hk Hs. eapply wp_bind_reads; [apply on_disk_reads| |].
  2:{ intros e w' E. simpl. rewrite E. by apply pull_failure_refl. }
  intros on_disk w1 _ E1.
  assert (Hsame : pull_result (λ b, b = rc) (abs w) img (abs w1)).
  { rewrite E1. by apply pull_result_same, stored_found. }
  destruct on_disk; [by apply wp_ret|]. destruct (in_progress (img_Status img)) eqn:Hp; [by apply wp_ret|].
  eapply wp_bind_post; [by apply restart_download_spec| |done].
  intros [] w2 [Hst Ht]. apply wp_ret. rewrite E1 in *. split; [done|].
  split_and!; [done|by eapply stored_image_step, stored_found|].
  exists [mkTask (img_ID img) url rc]. split_and!; [done| |].
  { right. exists url, rc. by rewrite Hs. }
  intros i. rewrite Hs. intros [= <-]. simpl. congruence.
Qed.

Lemma create_and_start_spec img url w :
  key (img_ID img) = img_ID img → img_untimed img = img →
  a_images (abs w) !! img_ID img = None →
  (∀ k j, a_images (abs w) !! k = Some j → img_Name j ≠ img_Name img) →
  wp (_ ← wrap "create image" (Image_Create (p_imageRepo p) img);
      _ ← go_download (p_env p) (mkTask (img_ID img) url false);
      mret img)
    (post (λ r w', r = img ∧ ∀ rc, pull_result rc (abs w) img (abs w')) (λ _ w', abs w' = abs w)) w.
Proof using Type*.
  intros Hk Hu Hnone Hn. eapply wp_bind_post.
  { apply wp_wrap. by apply (law_image_create abs key). }
  2:{ by intros e w' (? & _ & ?). }
  intros [] w1 [E1 _]. eapply wp_bind_post; [apply (law_go abs key)| |done].
  intros [] w2 E2. apply wp_ret. split; [done|]. intros rc.
  rewrite E2, E1. split; [|split].
  - etrans; [by apply image_step_insert|apply image_step_tasks].
  - exists img. simpl. rewrite lookup_insert_eq, Hu. done.
  - exists [mkTask (img_ID img) url false]. split_and!; [done| |by intros i; rewrite Hnone].
    right. exists url, false. by rewrite Hnone.
Qed.

Lemma pull_after_ids rc id a a' img :
  pull_result rc (on_ids (λ s, {[id]} ∪ s) a) img a' → pull_result rc a img a'.
Proof using.
  intros (Hs & Hst & ts & Ht & Hts). split_and!; [|done|by exists ts].
  etrans; [apply image_step_ids|exact Hs].
Qed.

Lemma PullFromOfficial_spec oi w :
  wp (PullFromOfficial p oi) (post
    (λ img w', img_Name img = oi_Name oi ∧ pull_result (λ b, b = true) (abs w) img (abs w'))
    (λ _ w', pull_failure (abs w) (abs w'))) w.
Proof using Type*.
  eapply wp_bind_reads; [apply reads_wrap, (law_image_name abs key)| |intros e w' E; simpl; rewrite E; apply pull_failure_refl].
  intros [ex|] w1 H1 E1.
  - destruct H1 as (Hn & Hs & Hk). rewrite <-E1 in *.
    eapply wp_post; [by apply ensure_existing_spec| |done]. by intros ? w' [-> ?].
  - eapply wp_bind_post; [apply (law_uuid abs key)| |done].
    intros id w2 (Hf & Hk & _ & E2). rewrite E1 in *.
    set (img := mkImage id _ _ _ _ _ _ _ _ _ _ _ _ _).
    eapply wp_post; [apply (create_and_start_spec img (oi_URL oi) w2)| |]; simpl.
    + done.
    + done.
    + rewrite E2. simpl. apply Hf.
    + rewrite E2. exact H1.
    + intros ? w' [-> Hr]. split; [done|]. rewrite E2 in Hr. by eapply pull_after_ids.
    + intros e w' ->. rewrite E2. split_and!; [apply image_step_ids|done|].
      unfold started. by rewrite app_nil_r.
Qed.

Lemma pull_result_weaken (rc rc' : bool → Prop) a img a' :
  (∀ b, rc b → rc' b) → pull_result rc a img a' → pull_result rc' a img a'.
Proof using.
  intros Hrc (Hs & Hst & ts & Ht & Hts & Hp). split_and!; [done|done|]. exists ts.
  split_and!; [done| |done]. destruct Hts as [->|(url & b & -> & Hb)]; [by left|right].
  exists url, b. split; [done|]. destruct (_ !! _); auto.
Qed.

Lemma resolve_official_spec ref w :
  wp (resolve_official p ref) (post
    (λ img w', pull_result (λ _, True) (abs w) img (abs w'))
    (λ _ w', pull_failure (abs w) (abs w'))) w.
Proof using Type*.
  unfold resolve_official. destruct (ResolveImageAlias ref) as [oi|e|] eqn:Er.
  2: apply wp_fail, pull_failure_refl.
  2:{ exfalso. revert Er. unfold ResolveImageAlias. repeat case_match; done. }
  eapply wp_bind_reads; [apply reads_attempt, (law_image_name abs key)| |].
  2:{ intros e w' E. simpl. rewrite E. apply pull_failure_refl. }
  intros r w1 Hr E1.
  assert (Hpull : wp (PullFromOfficial p oi) (post
    (λ img w', pull_result (λ _, True) (abs w) img (abs w'))
    (λ _ w', pull_failure (abs w) (abs w'))) w1).
  { rewrite <-E1. eapply wp_post; [apply PullFromOfficial_spec| |done].
    intros img w' [_ H]. by eapply pull_result_weaken; [|exact H]. }
  destruct r as [[img|]|e]; [|exact Hpull..].
  destruct Hr as (Hn & Hs & Hk). rewrite <-E1 in *.
  eapply wp_post; [by apply ensure_existing_spec| |done].
  intros ? w' [-> H]. by eapply pull_result_weaken; [|exact H].
Qed.

(** [PullFromOfficial] never panics.  On success the image has the
    catalogue's name and is stored, image names stay unique if they were, and
    at most one download was started: for that image, and none when its row
    says one is under way; a new image downloads under the background context,
    but one that was already stored is downloaded under the context of the
    request (which is cancelled when the request ends).  On failure no row
    changes and nothing is started. *)
Theorem pull_from_official_correct oi w :
  wp (PullFromOfficial p oi) (post
    (λ img w', img_Name img = oi_Name oi ∧ pull_result (λ b, b = true) (abs w) img (abs w'))
    (λ _ w', pull_failure (abs w) (abs w'))) w.
Proof using Type*. apply PullFromOfficial_spec. Qed.

Lemma ResolveAndEnsureImage_spec ref w :
  wp (ResolveAndEnsureImage p ref) (post
    (λ img w', pull_result (λ _, True) (abs w) img (abs w'))
    (λ _ w', pull_failure (abs w) (abs w'))) w.
Proof using Type*.
  unfold ResolveAndEnsureImage.
  destruct (String.eqb ref ""); [apply wp_fail, pull_failure_refl|].
  eapply wp_bind_reads; [apply reads_attempt, (law_image_get abs key)| |].
  2:{ intros e w' E. simpl. rewrite E. apply pull_failure_refl. }
  intros r w1 Hr E1.
  assert (Hrest : wp (r ← attempt (Image_GetByName (p_imageRepo p) ref);
                      match r with
                      | inl (Some img) => mret img
                      | _ => resolve_official p ref
                      end) (post
    (λ img w', pull_result (λ _, True) (abs w) img (abs w'))
    (λ _ w', pull_failure (abs w) (abs w'))) w1).
  { eapply wp_bind_reads; [apply reads_attempt, (law_image_name abs key)| |].
    2:{ intros e w' E. simpl. rewrite E, E1. apply pull_failure_refl. }
    intros r' w2 Hr' E2. rewrite E1 in E2. rewrite <-E2. destruct r' as [[img|]|e].
    - apply wp_ret. apply pull_result_same, stored_found. rewrite E2, <-E1. apply Hr'.
    - apply resolve_official_spec.
    - apply resolve_official_spec. }
  destruct r as [[img|]|e]; [|exact Hrest..]. clear Hrest.
  destruct Hr as [Hl Hk]. destruct (Hk _ eq_refl) as [Hid Hkk]. simpl in Hl.
  assert (Hst : stored_image img (abs w)).
  { apply stored_found. by rewrite Hid, <-Hl. }
  destruct (_ && _) eqn:Hc.
  - apply andb_true_iff in Hc as [He%bool_decide_eq_true_1 _].
    eapply wp_bind_post; [by apply restart_download_spec| |done].
    intros [] w2 [Hs Ht]. apply wp_ret. rewrite E1 in *. simpl.
    split_and!; [done|by eapply stored_image_step|]. eexists. split_and!; [exact Ht| |].
    + right. do 2 eexists. split; [done|]. by rewrite Hid, <-Hl.
    + intros i. rewrite Hid, <-Hl. intros [= <-]. simpl. by rewrite He.
  - apply wp_ret. simpl. rewrite E1. by apply pull_result_same.
Qed.

(** [ResolveAndEnsureImage] never panics; whatever the reference was (an id,
    a stored name, a catalogue alias), the image it returns is stored, at most
    one download was started, for that image, and none when its row says one
    is under way; a failure changes no row and starts nothing. *)
Theorem resolve_ensures_stored ref w :
  wp (ResolveAndEnsureImage p ref) (post
    (λ img w', pull_result (λ _, True) (abs w) img (abs w'))
    (λ _ w', pull_failure (abs w) (abs w'))) w.
Proof using Type*. apply ResolveAndEnsureImage_spec. Qed.

Lemma PullOfficialImage_spec os v arch w :
  wp (PullOfficialImage p os v arch) (post
    (λ img w', pull_result (λ b, b = true) (abs w) img (abs w'))
    (λ _ w', pull_failure (abs w) (abs w'))) w.
Proof using Type*.
  unfold PullOfficialImage, lift. apply wp_bind. unfold wp at 1. simpl.
  destruct (Find os v arch) as [oi|e|] eqn:Ef.
  - eapply wp_post; [apply PullFromOfficial_spec| |done]. by intros ?? [_ ?].
  - apply pull_failure_refl.
  - exfalso. revert Ef. unfold Find. repeat case_match; done.
Qed.

End specs.
