(* ===== verification/Download.v ===== *)
(** The goroutine that downloads an image
    ([services/controlplane/image_puller.go], [download], [detectImageFormat],
    [IsReady]): the set of active downloads behind its mutex, the temporary file
    that a later run resumes, the conversion to qcow2 and the row's status.

    Files are byte sequences, the HTTP server and [qemu-img convert] are
    parameters, and every call that can fail takes its fate from a list of
    faults: [Some k] makes the call fail (a copy fails after [k] bytes, which is
    also how a broken connection or a cancelled context shows).  When the list
    is used up nothing fails.

    Theorems: one download per image at a time; however often a download is
    interrupted, what is on disk is a beginning of the resource, so that a run
    without fault ends with exactly the resource (or its conversion) and a row
    whose size and checksum are those of the file; a row becomes ready only
    together with a complete file; and a complete temporary file that was not
    converted is never recovered from. *)
From stdpp Require Import base gmap strings list numbers.
From S2P Require Import Prelude.
From S2P Require Import GoStd.
From S2P Require Import Domain.
From S2P Require Import Interfaces.
From stdpp Require Import options.

Record DWorld := mkDWorld {
  d_files : gmap string (list N);
  d_rows : gmap string Image;
  d_faults : list (option nat);
}.

Definition on_files (f : gmap string (list N) → gmap string (list N)) (w : DWorld) : DWorld :=
  mkDWorld (f (d_files w)) (d_rows w) (d_faults w).
Definition on_rows (f : gmap string Image → gmap string Image) (w : DWorld) : DWorld :=
  mkDWorld (d_files w) (f (d_rows w)) (d_faults w).

(** The fate of the next call. *)
Definition fault : M DWorld (option nat) := λ w,
  match d_faults w with
  | [] => (Ret None, w)
  | f :: fs => (Ret f, mkDWorld (d_files w) (d_rows w) fs)
  end.

(** A call that succeeds or not and has no effect of its own. *)
Definition call_ok : M DWorld bool := f ← fault; mret (match f with None => true | Some _ => false end).

(** * The operating system *)
Definition file_size (path : string) : M DWorld (option Z) :=
  ok ← call_ok;
  if (ok : bool) then gets (λ w, Z.of_nat ∘ length <$> (d_files w !! path)) else mret None.

(** [if f, err := os.Open(path); err == nil { io.Copy(hasher, f) }]: the bytes
    the hasher was given, or [None]. *)
Definition read_into_hasher (path : string) : M DWorld (option (list N)) :=
  ok ← call_ok;
  content ← gets (λ w, d_files w !! path);
  match content with
  | Some c =>
      if (ok : bool)
      then f ← fault; mret (Some (match f with None => c | Some k => take k c end))
      else mret None
  | None => mret None
  end.

Definition os_Remove (path : string) : M DWorld () :=
  ok ← call_ok;
  if (ok : bool) then modify (on_files (delete path)) else mret ().

Definition os_Rename (old new : string) : M DWorld bool :=
  ok ← call_ok;
  content ← gets (λ w, d_files w !! old);
  match content with
  | Some c => if (ok : bool) then _ ← modify (on_files (λ fs, <[new := c]> (delete old fs))); mret true
              else mret false
  | None => mret false
  end.

(** Opening the temporary file: to append, or truncated. *)
Definition open_append (path : string) : M DWorld bool :=
  ok ← call_ok;
  content ← gets (λ w, d_files w !! path);
  mret (ok && bool_decide (is_Some content)).
Definition os_Create (path : string) : M DWorld bool :=
  ok ← call_ok;
  if (ok : bool) then _ ← modify (on_files <[path := []]>); mret true else mret false.

(** [io.Copy(io.MultiWriter(out, hasher), body)]: whether all was copied. *)
Definition copy_body (path : string) (body : list N) : M DWorld bool :=
  f ← fault;
  match f with
  | None => _ ← modify (on_files (alter (λ c, c ++ body) path)); mret true
  | Some k => _ ← modify (on_files (alter (λ c, c ++ take k body) path)); mret false
  end.

(** * The repository, as its interface says *)
Definition row_UpdateStatus (id : string) (s : ImageStatus) (size : Z) (sum : string) : M DWorld () :=
  ok ← call_ok;
  if (ok : bool) then modify (on_rows (alter (img_upd_status s size sum) id)) else mret ().
Definition row_GetByID (id : string) : M DWorld (option Image) :=
  ok ← call_ok;
  if (ok : bool) then gets (λ w, d_rows w !! id) else mret None.
Definition row_Update (img : Image) : M DWorld () :=
  ok ← call_ok;
  if (ok : bool) then modify (on_rows (alter (λ _, img) (img_ID img))) else mret ().

(** * The goroutine *)
Record http_response := mkResponse { resp_status : Z; resp_body : list N }.

Definition qcow2_magic (bs : list N) : bool :=
  match bs with
  | 81%N :: 70%N :: 73%N :: 251%N :: _ => true
  | _ => false
  end.

Section download.
(** What the server answers to a request for a URL from an offset (0: without a
    range); [qemu-img convert]; and the directory of the images. *)
Context (server : string → Z → http_response).
Context (convert : string → list N → option (list N)).
Context (imagesDir : string).

Definition finalPath (id : string) : string := Filepath.Join [imagesDir; id +:+ ".qcow2"].
Definition tmpPath (id : string) : string := finalPath id +:+ ".tmp".

Definition checksum_of (bs : list N) : string := hex_EncodeToString (Sha256.Sum256 bs).

(** Four bytes that cannot be read leave the format unknown. *)
Definition detectImageFormat (path : string) : M DWorld string :=
  ok ← call_ok;
  content ← gets (λ w, d_files w !! path);
  match content with
  | Some c =>
      if negb ok then mret ""
      else f ← fault;
           match f with
           | Some _ => mret ""
           | None => if Nat.ltb (length c) 4 then mret ""
                     else mret (if qcow2_magic c then "qcow2" else "raw")
           end
  | None => mret ""
  end.

Definition set_error (id : string) : M DWorld () := row_UpdateStatus id ImageStatusError 0 "".

(** [qcow2.Convert]: a failure may leave a part of the output. *)
Definition run_convert (src dst sourceFmt : string) : M DWorld bool :=
  content ← gets (λ w, d_files w !! src);
  f ← fault;
  match content ≫= convert sourceFmt with
  | None => mret false
  | Some out =>
      match f with
      | None => _ ← modify (on_files <[dst := out]>); mret true
      | Some k => _ ← modify (on_files <[dst := take k out]>); mret false
      end
  end.

(** Lines 391-406: the row of a finished image. *)
Definition finish (id : string) (sizeBytes : Z) (finalChecksum : string) : M DWorld () :=
  _ ← call_ok;
  _ ← row_UpdateStatus id ImageStatusReady sizeBytes finalChecksum;
  updatedImg ← row_GetByID id;
  match updatedImg with
  | Some img => row_Update (img_set_result ImageStatusReady sizeBytes finalChecksum img)
  | None => mret ()
  end.

(** Lines 361-380: a conversion. *)
Definition install_converted (id sourceFmt : string) (totalWritten : Z) (checksum : string) : M DWorld () :=
  _ ← os_Remove (finalPath id);
  ok ← run_convert (tmpPath id) (finalPath id) sourceFmt;
  if negb ok then set_error id
  else
    _ ← os_Remove (tmpPath id);
    st ← file_size (finalPath id);
    hashed ← read_into_hasher (finalPath id);
    finish id (default totalWritten st)
      (match hashed with Some bs => checksum_of bs | None => checksum end).

(** Lines 381-389: the file is in the right format. *)
Definition install_renamed (id : string) (totalWritten : Z) (checksum : string) : M DWorld () :=
  _ ← os_Remove (finalPath id);
  ok ← os_Rename (tmpPath id) (finalPath id);
  if negb ok then set_error id
  else finish id totalWritten checksum.

(** Lines 347-406: the temporary file is complete. *)
Definition install (id url : string) (totalWritten : Z) (checksum : string) : M DWorld () :=
  detected ← detectImageFormat (tmpPath id);
  let sourceFmt := if String.eqb detected "" then
                     (if String.eqb (Filepath.Ext url) ".qcow2" then "qcow2" else "raw")
                   else detected in
  if negb (String.eqb sourceFmt "qcow2") then install_converted id sourceFmt totalWritten checksum
  else install_renamed id totalWritten checksum.

(** Lines 328-345: the body is copied to the open file. *)
Definition write_body (id url : string) (offset : Z) (hashed body : list N) : M DWorld () :=
  ok ← copy_body (tmpPath id) body;
  if negb ok then row_UpdateStatus id ImageStatusDownloading 0 ""
  else install id url (offset + Z.of_nat (length body)) (checksum_of (hashed ++ body)).

(** Lines 314-345: the response is accepted; [hashed] are the bytes the hasher
    already holds. *)
Definition receive (id url : string) (offset : Z) (hashed body : list N) : M DWorld () :=
  _ ← row_UpdateStatus id ImageStatusProcessing 0 "";
  opened ← (if (0 <? offset)%Z then open_append (tmpPath id) else os_Create (tmpPath id));
  if negb opened then set_error id else write_body id url offset hashed body.

(** Lines 300-311: what is done with the response. *)
Definition respond (id url : string) (offset : Z) (hashed : list N) : M DWorld () :=
  let resp := server url offset in
  if (0 <? offset)%Z && (resp_status resp =? 200)%Z then
    _ ← os_Remove (tmpPath id);
    receive id url 0 [] (resp_body resp)
  else if negb (resp_status resp =? 200)%Z && negb (resp_status resp =? 206)%Z then set_error id
  else receive id url offset hashed (resp_body resp).

(** Lines 282-298: the request, with a range when there is an offset. *)
Definition send (id url : string) (offset : Z) (hashed : list N) : M DWorld () :=
  built ← call_ok;
  if negb built then set_error id
  else
    answered ← call_ok;
    if negb answered then set_error id
    else respond id url offset hashed.

(** Lines 265-279: where to resume. *)
Definition request (id url : string) : M DWorld () :=
  st ← file_size (tmpPath id);
  let offset := match st with Some n => if (0 <? n)%Z then n else 0%Z | None => 0%Z end in
  hashed ← (if (0 <? offset)%Z then read_into_hasher (tmpPath id) else mret None);
  send id url offset (default [] hashed).

(** The body of [download] between taking and giving up its place. *)
Definition download_body (id url : string) : M DWorld () :=
  made ← call_ok;
  if negb made then set_error id else request id url.

Definition IsReady (id : string) : M DWorld bool :=
  st ← file_size (finalPath id);
  mret (match st with Some n => (0 <? n)%Z | None => false end).

End download.

(** * Rules *)
Section rules.
Implicit Types (F : gmap string (list N)) (T : gmap string Image) (fs : list (option nat)).

Lemma wp_fault Q F T fs : (∀ f fs', Q (Ret f) (mkDWorld F T fs')) → wp fault Q (mkDWorld F T fs).
Proof. intros HQ. unfold wp, fault. destruct fs; apply HQ. Qed.

Lemma wp_call_ok Q F T fs : (∀ b fs', Q (Ret b) (mkDWorld F T fs')) → wp call_ok Q (mkDWorld F T fs).
Proof. intros HQ. apply wp_bind, wp_fault. intros f fs'. apply wp_ret, HQ. Qed.
Lemma wp_file_size path Q F T fs :
  (∀ fs', Q (Ret None) (mkDWorld F T fs') ∧
          Q (Ret (Z.of_nat ∘ length <$> F !! path)) (mkDWorld F T fs')) →
  wp (file_size path) Q (mkDWorld F T fs).
Proof. intros HQ. apply wp_bind, wp_call_ok. intros [] fs'; apply HQ. Qed.

Lemma wp_read_into_hasher path Q F T fs :
  (∀ r fs', Q (Ret r) (mkDWorld F T fs')) → wp (read_into_hasher path) Q (mkDWorld F T fs).
Proof.
  intros HQ. apply wp_bind, wp_call_ok. intros b fs'. apply wp_bind, wp_gets. simpl.
  destruct (F !! path); [|apply HQ]. destruct b; [|apply HQ].
  apply wp_bind, wp_fault. intros f fs''. apply HQ.
Qed.

Lemma wp_os_Remove path Q F T fs :
  (∀ fs', Q (Ret ()) (mkDWorld F T fs') ∧ Q (Ret ()) (mkDWorld (delete path F) T fs')) →
  wp (os_Remove path) Q (mkDWorld F T fs).
Proof. intros HQ. apply wp_bind, wp_call_ok. intros [] fs'; apply HQ. Qed.

Lemma wp_os_Rename old new c Q F T fs : F !! old = Some c →
  (∀ fs', Q (Ret false) (mkDWorld F T fs') ∧ Q (Ret true) (mkDWorld (<[new := c]> (delete old F)) T fs')) →
  wp (os_Rename old new) Q (mkDWorld F T fs).
Proof.
  intros Hc HQ. apply wp_bind, wp_call_ok. intros b fs'. apply wp_bind, wp_gets. simpl. rewrite Hc.
  destruct b; apply HQ.
Qed.

Lemma wp_row_UpdateStatus id s size sum Q F T fs :
  (∀ fs', Q (Ret ()) (mkDWorld F T fs') ∧
          Q (Ret ()) (mkDWorld F (alter (img_upd_status s size sum) id T) fs')) →
  wp (row_UpdateStatus id s size sum) Q (mkDWorld F T fs).
Proof. intros HQ. apply wp_bind, wp_call_ok. intros [] fs'; apply HQ. Qed.

Lemma wp_detectImageFormat path Q F T fs :
  (∀ r fs', Q (Ret r) (mkDWorld F T fs')) → wp (detectImageFormat path) Q (mkDWorld F T fs).
Proof.
  intros HQ. apply wp_bind, wp_call_ok. intros b fs1. apply wp_bind, wp_gets. simpl.
  destruct (F !! path) as [c|]; [|apply HQ]. destruct b; simpl; [|apply HQ].
  apply wp_bind, wp_fault. intros [] fs2; [apply HQ|]. destruct (Nat.ltb _ 4); apply HQ.
Qed.
End rules.

Lemma tmpPath_ne dir id : tmpPath dir id ≠ finalPath dir id.
Proof.
  unfold tmpPath. generalize (finalPath dir id). intros p. induction p as [|c p IH]; [done|].
  intros [= E]. by apply IH.
Qed.

(** * Safety under any faults *)
Section safety.
Context (server : string → Z → http_response) (convert : string → list N → option (list N)) (dir : string).
Context (id url : string) (R : list N).

(** What HTTP promises of a static resource [R]: a 200 carries all of it, a 206
    what is asked for.  Any other status may be answered at any time. *)
Record serves : Prop := {
  serves_200 : ∀ off, (0 ≤ off)%Z → resp_status (server url off) = 200%Z → resp_body (server url off) = R;
  serves_206 : ∀ off, (0 ≤ off)%Z → resp_status (server url off) = 206%Z →
    resp_body (server url off) = drop (Z.to_nat off) R;
}.

(** The temporary file is a beginning of the resource. *)
Definition tmp_ok (F : gmap string (list N)) : Prop := ∀ c, F !! tmpPath dir id = Some c → c `prefix_of` R.

(** The image is there in full: as it was served, or converted. *)
Definition complete (F : gmap string (list N)) : Prop :=
  F !! finalPath dir id = Some R ∨ ∃ fmt out, convert fmt R = Some out ∧ F !! finalPath dir id = Some out.

Definition is_ready (T : gmap string Image) : Prop :=
  ∃ i, T !! id = Some i ∧ img_Status i = ImageStatusReady.

(** Only the status, the size and the checksum of the one row may change. *)
Definition strip (i : Image) : Image := img_set_result ImageStatusError 0 "" i.
Definition same_rows (T T' : gmap string Image) : Prop :=
  strip <$> T' !! id = strip <$> T !! id ∧ ∀ k, k ≠ id → T' !! k = T !! k.

Context (T0 : gmap string Image) (Hkey : ∀ i, T0 !! id = Some i → img_ID i = id).

Definition not_ready (T : gmap string Image) : Prop := ¬ is_ready T ∧ same_rows T0 T.

Definition good (o : outcome ()) (w : DWorld) : Prop :=
  o = Ret () ∧ tmp_ok (d_files w) ∧ same_rows T0 (d_rows w) ∧
  (is_ready (d_rows w) → complete (d_files w)).

Lemma same_rows_alter T f : same_rows T0 T → (∀ i, T !! id = Some i → strip (f i) = strip i) →
  same_rows T0 (alter f id T).
Proof using Type*.
  intros [H1 H2] Hf. split.
  - rewrite lookup_alter_eq, <-H1. destruct (T !! id) as [i|]; simpl; [|done]. by rewrite Hf.
  - intros k Hk. rewrite lookup_alter_ne by done. by apply H2.
Qed.

Lemma not_ready_status s size sum T : s ≠ ImageStatusReady → not_ready T →
  not_ready (alter (img_upd_status s size sum) id T).
Proof using Type*.
  intros Hs [HT Hr]. split; [|by apply same_rows_alter].
  intros (i & Hi & Hrdy). rewrite lookup_alter_eq in Hi. destruct (T !! id); simplify_eq/=.
Qed.

Lemma good_status s size sum F T fs : s ≠ ImageStatusReady → tmp_ok F → not_ready T →
  wp (row_UpdateStatus id s size sum) good (mkDWorld F T fs).
Proof using Type*.
  intros Hs HF HT. apply wp_row_UpdateStatus. intros fs'.
  split; [destruct HT as [Hn ?]; by split_and!|].
  apply (not_ready_status s size sum) in HT as [Hn ?]; [|done]. by split_and!.
Qed.

Lemma tmp_ok_delete F p : tmp_ok F → tmp_ok (delete p F).
Proof using Type*. intros HF c [_ Hc]%lookup_delete_Some. by apply HF. Qed.

Lemma tmp_ok_insert_final F c : tmp_ok F → tmp_ok (<[finalPath dir id := c]> F).
Proof using Type*.
  intros HF c' Hc. rewrite lookup_insert_ne in Hc by (intros E; by apply (tmpPath_ne dir id)). by apply HF.
Qed.

Lemma good_finish size sum F T fs : tmp_ok F → complete F → same_rows T0 T →
  wp (finish id size sum) good (mkDWorld F T fs).
Proof using Hkey.
  intros HF HC. revert T fs.
  assert (Hgood : ∀ T fs, same_rows T0 T → good (Ret ()) (mkDWorld F T fs)) by (intros; by split_and!).
  assert (Hrest : ∀ T fs, same_rows T0 T → wp (updatedImg ← row_GetByID id;
    match updatedImg with
    | Some img => row_Update (img_set_result ImageStatusReady size sum img)
    | None => mret ()
    end) good (mkDWorld F T fs)).
  { intros T fs HT. apply wp_bind, wp_bind, wp_call_ok. intros [] fs'; [|by apply Hgood]. apply wp_gets. simpl.
    destruct (T !! id) as [i|] eqn:Hi; [|by apply Hgood].
    assert (Hid : img_ID i = id).
    { destruct HT as [H1 _]. rewrite Hi in H1. destruct (T0 !! id) as [i0|] eqn:Hi0; simplify_eq/=.
      rewrite <-(Hkey i0 eq_refl). congruence. }
    apply wp_bind, wp_call_ok. intros [] fs''; [|by apply Hgood]. apply Hgood. simpl. rewrite Hid.
    apply same_rows_alter; [done|]. by intros i' [= <-]%(eq_trans (eq_sym Hi)). }
  intros T fs HT. apply wp_bind, wp_call_ok. intros b fs1. apply wp_bind, wp_row_UpdateStatus.
  intros fs'. split; apply Hrest; [done|by apply same_rows_alter].
Qed.

Lemma tmp_full F : F !! tmpPath dir id = Some R → tmp_ok F.
Proof using Type*. intros HR c Hc. by replace c with R by congruence. Qed.

Lemma complete_delete_tmp F : complete F → complete (delete (tmpPath dir id) F).
Proof using Type*.
  intros [Hc|(fmt & out & ? & Hc)]; [left|right; exists fmt, out; split; [done|]];
    by rewrite lookup_delete_ne by apply tmpPath_ne.
Qed.

(** Removing the old final file keeps the temporary one. *)
Lemma wp_remove_final (m : M DWorld ()) Q F T fs :
  F !! tmpPath dir id = Some R →
  (∀ F' fs', F' !! tmpPath dir id = Some R → wp m Q (mkDWorld F' T fs')) →
  wp (_ ← os_Remove (finalPath dir id); m) Q (mkDWorld F T fs).
Proof using Type*.
  intros HR Hm. apply wp_bind, wp_os_Remove. intros fs'. split; apply Hm; [done|].
  rewrite lookup_delete_ne; [done|]. intros E. by apply (tmpPath_ne dir id).
Qed.

Lemma good_install_converted fmt total sum F T fs : F !! tmpPath dir id = Some R → not_ready T →
  wp (install_converted convert dir id fmt total sum) good (mkDWorld F T fs).
Proof using Type*.
  intros HR0 HT. apply wp_remove_final; [done|]. clear F fs HR0. intros F fs HR. apply tmp_full in HR as HF.
  apply wp_bind. unfold run_convert. apply wp_bind, wp_gets. simpl. rewrite HR. simpl.
  apply wp_bind, wp_fault. intros f fs3. destruct (convert fmt R) as [out|] eqn:Hout; [|by apply good_status].
  destruct f as [k|]; apply wp_bind, wp_modify; simpl; apply wp_ret; simpl;
    [apply good_status; [done|by apply tmp_ok_insert_final|done]|].
  assert (Hc : complete (<[finalPath dir id:=out]> F)) by (right; exists fmt, out; by rewrite lookup_insert_eq).
  apply (tmp_ok_insert_final F out) in HF.
  apply wp_bind, wp_os_Remove. intros fs4.
  split; apply wp_bind, wp_file_size; intros fs5; split; apply wp_bind, wp_read_into_hasher; intros r fs6;
    apply good_finish; auto using tmp_ok_delete, complete_delete_tmp; apply HT.
Qed.

Lemma good_install_renamed total sum F T fs : F !! tmpPath dir id = Some R → not_ready T →
  wp (install_renamed dir id total sum) good (mkDWorld F T fs).
Proof using Type*.
  intros HR0 HT. apply wp_remove_final; [done|]. clear F fs HR0. intros F fs HR. apply tmp_full in HR as HF.
  apply wp_bind. eapply wp_os_Rename; [done|]. intros fs3. split; [by apply good_status|].
  apply good_finish; [by apply tmp_ok_insert_final, tmp_ok_delete| |apply HT]. left. by rewrite lookup_insert_eq.
Qed.

Lemma good_install total sum F T fs : F !! tmpPath dir id = Some R → not_ready T →
  wp (install convert dir id url total sum) good (mkDWorld F T fs).
Proof using Type*.
  intros HR HT. apply wp_bind, wp_detectImageFormat. intros d fs'. cbv zeta.
  destruct (negb _); [by apply good_install_converted|by apply good_install_renamed].
Qed.

Lemma good_write_body off hashed body c F T fs :
  F !! tmpPath dir id = Some c → c ++ body = R → not_ready T →
  wp (write_body convert dir id url off hashed body) good (mkDWorld F T fs).
Proof using Type*.
  intros Hc HR HT. apply wp_bind. unfold copy_body. apply wp_bind, wp_fault. intros [k|] fs2;
    apply wp_bind, wp_modify, wp_ret; simpl.
  - apply good_status; [done| |done]. intros c'. simpl. rewrite lookup_alter_eq, Hc. intros [= <-].
    rewrite <-HR. apply prefix_app. exists (drop k body). by rewrite take_drop.
  - unfold on_files. simpl. apply good_install; [|done]. rewrite lookup_alter_eq, Hc. simpl. by rewrite HR.
Qed.

Lemma good_receive off hashed body F T fs : tmp_ok F → not_ready T →
  (if (0 <? off)%Z then ∀ c, F !! tmpPath dir id = Some c → c ++ body = R else body = R) →
  wp (receive convert dir id url off hashed body) good (mkDWorld F T fs).
Proof using Type*.
  intros HF HT0 Hbody. apply wp_bind.
  eapply (wp_mono _ (λ o w, o = Ret () ∧ ∃ T' fs', w = mkDWorld F T' fs' ∧ not_ready T')).
  { apply wp_row_UpdateStatus. intros fs'. split; (split; [done|]); eauto 6 using not_ready_status. }
  clear T HT0 fs. intros o w (-> & T & fs & -> & HT). apply wp_bind. destruct (0 <? off)%Z.
  - apply wp_bind, wp_call_ok. intros b fs2. apply wp_bind, wp_gets, wp_ret. simpl.
    destruct (F !! tmpPath dir id) as [c|] eqn:Hc; [|by rewrite andb_false_r; apply good_status].
    destruct b; simpl; [|by apply good_status]. apply (good_write_body _ _ _ c); [done|by apply Hbody|done].
  - apply wp_bind, wp_call_ok. intros [] fs2; [|by apply good_status].
    apply wp_bind, wp_modify, wp_ret. unfold on_files. simpl. apply (good_write_body _ _ _ []); [by rewrite lookup_insert_eq|done|done].
Qed.

Lemma good_respond off hashed F T fs : serves → tmp_ok F → not_ready T → (0 ≤ off)%Z →
  (∀ c, (0 < off)%Z → F !! tmpPath dir id = Some c → off = Z.of_nat (length c)) →
  wp (respond server convert dir id url off hashed) good (mkDWorld F T fs).
Proof using Type*.
  intros [H200 H206] HF HT Hoff Hlen. unfold respond.
  destruct (Z.eqb_spec (resp_status (server url off)) 200) as [E|E].
  - rewrite (H200 off Hoff E). destruct (0 <? off)%Z eqn:Epos; simpl.
    + apply wp_bind, wp_os_Remove. intros fs'. split; (apply good_receive; [|done|done]); auto using tmp_ok_delete.
    + apply good_receive; [done|done|]. by rewrite Epos.
  - rewrite andb_false_r. simpl. destruct (Z.eqb_spec (resp_status (server url off)) 206) as [E'|E'];
      [simpl|by apply good_status].
    rewrite (H206 off Hoff E'). apply good_receive; [done|done|].
    destruct (Z.ltb_spec 0 off) as [Hpos|Hpos]; [|by replace off with 0%Z by lia].
    intros c Hc. rewrite (Hlen c Hpos Hc), Nat2Z.id. apply HF in Hc as [k ->]. by rewrite drop_app_length.
Qed.

Lemma good_download F T fs : serves → tmp_ok F → not_ready T →
  wp (download_body server convert dir id url) good (mkDWorld F T fs).
Proof using Type*.
  intros Hs HF HT. apply wp_bind, wp_call_ok. intros [] fs1; simpl; [|by apply good_status].
  assert (Hrest : ∀ off hashed fs', (0 ≤ off)%Z →
    (∀ c, (0 < off)%Z → F !! tmpPath dir id = Some c → off = Z.of_nat (length c)) →
    wp (send server convert dir id url off hashed) good (mkDWorld F T fs')).
  { intros off hashed fs' H1 H2. apply wp_bind, wp_call_ok. intros [] fs2; simpl; [|by apply good_status].
    apply wp_bind, wp_call_ok. intros [] fs3; simpl; [|by apply good_status]. by apply good_respond. }
  apply wp_bind, wp_file_size. intros fs2. split; cbv zeta.
  { apply wp_bind, wp_ret. apply Hrest; [done|lia]. }
  destruct (F !! tmpPath dir id) as [c|] eqn:Hc; simpl; [|by apply wp_bind, wp_ret, Hrest].
  apply wp_bind. destruct (Z.ltb_spec 0 (Z.of_nat (length c))) as [Hp|Hp].
  - rewrite (proj2 (Z.ltb_lt _ _) Hp). apply wp_read_into_hasher. intros r fs3.
    apply Hrest; [lia|]. congruence.
  - simpl. apply Hrest; [done|lia].
Qed.

End safety.

(** C27: Whatever call fails and at whatever byte a copy breaks off, the temporary
    file stays a beginning of the resource; the row of an image that was not
    ready becomes ready only when the final file is complete (the resource as
    served, or its conversion); and nothing of any row changes but the status,
    the size and the checksum of this one. *)
Theorem interrupted_download_safe server convert dir id url R F T fs :
  serves server url R → tmp_ok dir id R F →
  (∀ i, T !! id = Some i → img_ID i = id) → ¬ is_ready id T →
  let r := download_body server convert dir id url (mkDWorld F T fs) in
  r.1 = Ret () ∧ tmp_ok dir id R (d_files r.2) ∧ same_rows id T (d_rows r.2) ∧
  (is_ready id (d_rows r.2) → complete convert dir id R (d_files r.2)).
Proof. intros Hs HF Hkey HT. by apply good_download. Qed.

(** * A run in which nothing fails *)
Section clean.
Context (server : string → Z → http_response) (convert : string → list N → option (list N)) (dir : string).
Context (id url : string) (R : list N).

Lemma wp_calm {A B} (m : M DWorld A) (k : A → M DWorld B) Q w a w' :
  m w = (Ret a, w') → wp (k a) Q w' → wp (m ≫= k) Q w.
Proof using Type*. intros E H. apply wp_bind. unfold wp at 1. by rewrite E. Qed.

Lemma calm_call F T : call_ok (mkDWorld F T []) = (Ret true, mkDWorld F T []).
Proof using Type*. done. Qed.

(** The format the code assumes of a complete temporary file. *)
Definition source_format : string :=
  if Nat.ltb (length R) 4 then (if String.eqb (Filepath.Ext url) ".qcow2" then "qcow2" else "raw")
  else if qcow2_magic R then "qcow2" else "raw".

(** What the final file should hold. *)
Definition image_bytes : option (list N) :=
  if String.eqb source_format "qcow2" then Some R else convert source_format R.

(** The files and the rows after a successful run. *)
Definition done (F : gmap string (list N)) (T : gmap string Image) (i : Image) (img : list N)
    (o : outcome ()) (w : DWorld) : Prop :=
  o = Ret () ∧
  d_files w !! finalPath dir id = Some img ∧ d_files w !! tmpPath dir id = None ∧
  (∀ p, p ≠ finalPath dir id → p ≠ tmpPath dir id → d_files w !! p = F !! p) ∧
  d_rows w = <[id := img_set_result ImageStatusReady (Z.of_nat (length img)) (checksum_of img) i]> T.

Lemma calm_finish size sum F T i Q : T !! id = Some i → img_ID i = id →
  Q (Ret ()) (mkDWorld F (<[id := img_set_result ImageStatusReady size sum i]> T) []) →
  wp (finish id size sum) Q (mkDWorld F T []).
Proof using Type*.
  intros Hi Hid HQ. do 2 (eapply wp_calm; [done|]).
  eapply wp_calm; [done|]. simpl. rewrite lookup_alter_eq, Hi. simpl.
  eapply wp_calm; [done|]. apply wp_modify. unfold on_rows. simpl. rewrite Hid.
  match goal with |- Q _ (mkDWorld _ ?T' _) =>
    replace T' with (<[id := img_set_result ImageStatusReady size sum i]> T); [done|] end.
  apply map_eq. intros k. destruct (decide (k = id)) as [->|Hk].
  - by rewrite lookup_insert_eq, !lookup_alter_eq, Hi.
  - by rewrite lookup_insert_ne, !lookup_alter_ne by done.
Qed.

Lemma calm_detect F T : F !! tmpPath dir id = Some R →
  detectImageFormat (tmpPath dir id) (mkDWorld F T []) =
    (Ret (if Nat.ltb (length R) 4 then "" else if qcow2_magic R then "qcow2" else "raw"), mkDWorld F T []).
Proof using Type*.
  intros HR. unfold detectImageFormat, mbind, M_bind, gets. simpl. rewrite HR. simpl.
  by destruct (Nat.ltb _ 4).
Qed.

Lemma calm_converted fmt out total sum F T i : convert fmt R = Some out →
  F !! tmpPath dir id = Some R → T !! id = Some i → img_ID i = id →
  wp (install_converted convert dir id fmt total sum) (done F T i out) (mkDWorld F T []).
Proof using Type*.
  intros Hout HR Hi Hid. pose proof (tmpPath_ne dir id) as Hne.
  eapply wp_calm; [done|]. unfold on_files. simpl.
  eapply wp_calm.
  { unfold run_convert, mbind, M_bind, gets. simpl. rewrite lookup_delete_ne by done. rewrite HR. simpl.
    by rewrite Hout. }
  unfold on_files. simpl. eapply wp_calm; [done|]. unfold on_files. simpl.
  eapply wp_calm; [done|]. simpl.
  assert (Hfin : delete (tmpPath dir id) (<[finalPath dir id:=out]> (delete (finalPath dir id) F)) !! finalPath dir id
    = Some out) by (by rewrite lookup_delete_ne, lookup_insert_eq by done).
  eapply wp_calm.
  { unfold read_into_hasher, mbind, M_bind, gets. simpl. by rewrite Hfin. }
  rewrite Hfin. simpl. eapply calm_finish; [done|done|]. split_and!; try done; simpl.
  - by rewrite lookup_delete_eq.
  - intros p Hp1 Hp2. by rewrite lookup_delete_ne, lookup_insert_ne, lookup_delete_ne by done.
Qed.

Lemma calm_renamed F T i :
  F !! tmpPath dir id = Some R → T !! id = Some i → img_ID i = id →
  wp (install_renamed dir id (Z.of_nat (length R)) (checksum_of R)) (done F T i R) (mkDWorld F T []).
Proof using Type*.
  intros HR Hi Hid. pose proof (tmpPath_ne dir id) as Hne.
  eapply wp_calm; [done|]. unfold on_files. simpl.
  eapply wp_calm.
  { unfold os_Rename, mbind, M_bind, gets. simpl. rewrite lookup_delete_ne by done. by rewrite HR. }
  unfold on_files. simpl. eapply calm_finish; [done|done|]. split_and!; try done; simpl.
  - by rewrite lookup_insert_eq.
  - by rewrite lookup_insert_ne, lookup_delete_eq by done.
  - intros p Hp1 Hp2. by rewrite lookup_insert_ne, !lookup_delete_ne by done.
Qed.

Lemma calm_install img F T i : image_bytes = Some img →
  F !! tmpPath dir id = Some R → T !! id = Some i → img_ID i = id →
  wp (install convert dir id url (Z.of_nat (length R)) (checksum_of R)) (done F T i img) (mkDWorld F T []).
Proof using Type*.
  intros Himg HR Hi Hid. eapply wp_calm; [by apply calm_detect|]. cbv zeta.
  match goal with |- wp (if negb (String.eqb ?f _) then _ else _) _ _ =>
    replace f with source_format by (unfold source_format; by destruct (Nat.ltb _ 4), (qcow2_magic R)) end.
  unfold image_bytes in Himg. destruct (String.eqb source_format "qcow2"); simpl.
  - injection Himg as <-. by apply calm_renamed.
  - by apply calm_converted.
Qed.
Lemma done_frame F F' T T' i i' img o w :
  (∀ p, p ≠ finalPath dir id → p ≠ tmpPath dir id → F' !! p = F !! p) →
  (∀ k, k ≠ id → T' !! k = T !! k) → strip i' = strip i →
  done F' T' i' img o w → done F T i img o w.
Proof using Type*.
  intros HF HT Hi (-> & ? & ? & Hp & Hr). split_and!; try done.
  - intros p ??. by rewrite Hp, HF.
  - rewrite Hr. apply map_eq. intros k. destruct (decide (k = id)) as [->|Hk].
    + rewrite !lookup_insert_eq. f_equal. unfold strip, img_set_result in *. congruence.
    + rewrite !lookup_insert_ne by done. by apply HT.
Qed.

(** [off] and the bytes the hasher holds, after the temporary file [c]. *)
Lemma calm_receive img c off body F T i : image_bytes = Some img →
  off = Z.of_nat (length c) → c ++ body = R →
  ((0 < off)%Z → F !! tmpPath dir id = Some c) → T !! id = Some i → img_ID i = id →
  wp (receive convert dir id url off c body) (done F T i img) (mkDWorld F T []).
Proof using Type*.
  intros Himg Hoff HR Hc Hi Hid.
  eapply wp_calm; [done|]. unfold on_rows. simpl.
  assert (Hrest : ∀ F', F' !! tmpPath dir id = Some c →
    (∀ p, p ≠ finalPath dir id → p ≠ tmpPath dir id → F' !! p = F !! p) →
    wp (write_body convert dir id url off c body) (done F T i img)
      (mkDWorld F' (alter (img_upd_status ImageStatusProcessing 0 "") id T) [])).
  { intros F' Hc' Hp. eapply wp_calm; [done|]. unfold on_files. simpl.
    replace (off + Z.of_nat (length body))%Z with (Z.of_nat (length R)) by (rewrite Hoff, <-HR, length_app; lia).
    rewrite HR. eapply wp_mono.
    - apply calm_install; [done| | |].
      + rewrite lookup_alter_eq, Hc'. simpl. by rewrite HR.
      + rewrite lookup_alter_eq, Hi. done.
      + done.
    - intros o w. apply done_frame; [|by intros; rewrite lookup_alter_ne|done].
      intros p ??. rewrite lookup_alter_ne by done. by apply Hp. }
  destruct (Z.ltb_spec 0 off) as [Hpos|Hpos].
  - eapply (wp_calm _ _ _ _ true); [|by apply Hrest; [apply Hc|]].
    unfold open_append, mbind, M_bind, gets. simpl. by rewrite Hc.
  - eapply wp_calm; [done|]. unfold on_files. simpl. apply Hrest.
    + rewrite lookup_insert_eq. destruct c; [done|simpl in *; lia].
    + intros p ??. by rewrite lookup_insert_ne.
Qed.

(** Where a run without fault resumes. *)
Definition resume_offset (F : gmap string (list N)) : Z :=
  match F !! tmpPath dir id with Some c => Z.of_nat (length c) | None => 0%Z end.

Definition accepts (off : Z) : Prop :=
  resp_status (server url off) = 200%Z ∨ resp_status (server url off) = 206%Z.

Lemma calm_respond img c F T i : serves server url R → image_bytes = Some img →
  F !! tmpPath dir id = Some c ∨ c = [] → c `prefix_of` R →
  accepts (Z.of_nat (length c)) → T !! id = Some i → img_ID i = id →
  wp (respond server convert dir id url (Z.of_nat (length c)) c) (done F T i img) (mkDWorld F T []).
Proof using Type*.
  intros [H200 H206] Himg Hc [k HR] Hacc Hi Hid. set (off := Z.of_nat (length c)) in *. unfold respond.
  assert (Hoff : (0 ≤ off)%Z) by lia.
  destruct (Z.eqb_spec (resp_status (server url off)) 200) as [E|E].
  - rewrite (H200 off Hoff E). destruct (Z.ltb_spec 0 off) as [Hpos|Hpos]; simpl.
    + eapply wp_calm; [done|]. unfold on_files. simpl. eapply wp_mono.
      * apply (calm_receive img []); [done|done|done|done|done|done].
      * intros o w. apply done_frame; [|done|done]. intros p ??. by rewrite lookup_delete_ne.
    + apply (calm_receive img c); [done|done| |lia|done|done]. destruct c; [done|]. unfold off in Hpos. simpl in Hpos. lia.
  - destruct Hacc as [?|E']; [done|]. rewrite andb_false_r, E'. simpl. rewrite (H206 off Hoff E').
    apply (calm_receive img c); [done|done| |..]; [|intros ?|done|done].
    + unfold off. rewrite Nat2Z.id, HR. by rewrite drop_app_length.
    + destruct Hc as [?| ->]; [done|]. unfold off in *. simpl in *. lia.
Qed.

Lemma calm_download img F T i : serves server url R → image_bytes = Some img →
  tmp_ok dir id R F → accepts (resume_offset F) → T !! id = Some i → img_ID i = id →
  wp (download_body server convert dir id url) (done F T i img) (mkDWorld F T []).
Proof using Type*.
  intros Hs Himg HF Hacc Hi Hid. eapply wp_calm; [done|]. simpl.
  eapply wp_calm; [done|]. unfold resume_offset in Hacc. cbv zeta. simpl.
  destruct (F !! tmpPath dir id) as [c|] eqn:Hc; simpl.
  - destruct (Z.ltb_spec 0 (Z.of_nat (length c))) as [Hp|Hp].
    + rewrite (proj2 (Z.ltb_lt _ _) Hp). eapply wp_calm.
      { unfold read_into_hasher, mbind, M_bind, gets. simpl. by rewrite Hc. }
      simpl. do 2 (eapply wp_calm; [done|]; simpl). apply (calm_respond img c); auto.
    + simpl. eapply wp_calm; [done|]. do 2 (eapply wp_calm; [done|]; simpl).
      destruct c; [|simpl in Hp; lia]. apply (calm_respond img []); auto.
  - eapply wp_calm; [done|]. do 2 (eapply wp_calm; [done|]; simpl).
    apply (calm_respond img []); auto. apply prefix_nil.
Qed.

(** Runs one after the other, each with its faults, until the image is ready. *)
Definition ready_b (T : gmap string Image) : bool :=
  match T !! id with Some i => bool_decide (img_Status i = ImageStatusReady) | None => false end.

Fixpoint runs (fss : list (list (option nat))) (F : gmap string (list N)) (T : gmap string Image)
    : gmap string (list N) * gmap string Image :=
  match fss with
  | [] => (F, T)
  | fs :: fss' =>
      if ready_b T then (F, T)
      else let w := (download_body server convert dir id url (mkDWorld F T fs)).2 in
           runs fss' (d_files w) (d_rows w)
  end.

Lemma ready_b_spec T : ready_b T = true ↔ is_ready id T.
Proof using Type*.
  unfold ready_b, is_ready. clear server convert url R. destruct (T !! id) as [i|]; [|naive_solver].
  rewrite bool_decide_eq_true. naive_solver.
Qed.

Lemma runs_invariant fss F T : serves server url R → tmp_ok dir id R F →
  (∀ i, T !! id = Some i → img_ID i = id) →
  (is_ready id T → complete convert dir id R F) →
  let '(F', T') := runs fss F T in
  tmp_ok dir id R F' ∧ same_rows id T T' ∧ (is_ready id T' → complete convert dir id R F').
Proof using Type*.
  intros Hs. revert F T. induction fss as [|fs fss IH]; intros F T HF Hkey Hrdy; [done|]. simpl.
  destruct (ready_b T) eqn:Hb; [done|].
  destruct (good_download server convert dir id url R T Hkey F T fs Hs HF) as (_ & HF' & [Hsame Hoth] & Hc).
  { split; [|done]. by rewrite <-ready_b_spec, Hb. }
  set (w := (download_body _ _ _ _ _ _).2) in *. specialize (IH (d_files w) (d_rows w) HF'). destruct (runs _ _ _) as [F' T']. destruct IH as (? & [H1 H2] & ?).
  - intros i Hi. rewrite Hi in Hsame. destruct (T !! id) as [i0|] eqn:Hi0; simplify_eq/=.
    rewrite <-(Hkey i0 eq_refl). congruence.
  - done.
  - split_and!; [done| |done]. split; [congruence|]. intros k Hk. rewrite H2 by done. by apply Hoth.
Qed.

(** * A complete temporary file *)
Definition retry (w : DWorld) : DWorld := (download_body server convert dir id url w).2.

Lemma retry_stuck F T : F !! tmpPath dir id = Some R → R ≠ [] →
  ¬ accepts (Z.of_nat (length R)) →
  retry (mkDWorld F T []) = mkDWorld F (alter (img_upd_status ImageStatusError 0 "") id T) [].
Proof using Type*.
  intros HR Hne Hacc.
  assert (Hpos : (0 <? Z.of_nat (length R))%Z = true) by (destruct R; [done|by apply Z.ltb_lt]).
  assert (H : wp (download_body server convert dir id url)
    (λ _ w, w = mkDWorld F (alter (img_upd_status ImageStatusError 0 "") id T) []) (mkDWorld F T [])); [|done].
  do 2 (eapply wp_calm; [done|]; simpl). rewrite HR. simpl. rewrite Hpos. simpl. rewrite Hpos.
  eapply wp_calm.
  { unfold read_into_hasher, mbind, M_bind, gets. simpl. by rewrite HR. }
  do 2 (eapply wp_calm; [done|]; simpl). unfold respond, accepts in *.
  destruct (Z.eqb_spec (resp_status (server url (Z.of_nat (length R)))) 200) as [?|?]; [tauto|].
  destruct (Z.eqb_spec (resp_status (server url (Z.of_nat (length R)))) 206) as [?|?]; [tauto|].
  by rewrite andb_false_r.
Qed.

End clean.

(** C26: A download survives interruptions.  Let the server keep serving one
    resource, whose conversion succeeds where one is needed, and let the row of the
    image exist and not be ready, and the temporary file, if any, be a beginning of
    the resource.  After any number of runs, each broken by any faults, either the
    image is ready and complete, or, provided the server accepts a request from the
    offset that has been reached, a run in which nothing fails ends with exactly
    the resource (or its conversion) in the final file, no temporary file, no other
    file or row touched, and a row that is ready with the size and the SHA-256 of
    the file.  (When the temporary file is already the whole resource a server may
    refuse the offset, and then no run completes: [complete_tmp_never_recovers].) *)
Theorem resumed_download_completes server convert dir id url R img F T i fss :
  serves server url R → image_bytes convert url R = Some img → tmp_ok dir id R F →
  T !! id = Some i → img_ID i = id → ¬ is_ready id T →
  let '(F', T') := runs server convert dir id url fss F T in
  (is_ready id T' ∧ complete convert dir id R F') ∨
  (accepts server url (resume_offset dir id F') →
   ∃ i', strip i' = strip i ∧
     wp (download_body server convert dir id url) (done dir id F' T' i' img) (mkDWorld F' T' [])).
Proof.
  intros Hs Himg HF Hi Hid Hn.
  pose proof (runs_invariant server convert dir id url R fss F T Hs HF) as Hinv.
  destruct (runs _ _ _ _ _ fss F T) as [F' T'].
  destruct Hinv as (HF' & [Hrow _] & Hc); [congruence|done|].
  rewrite Hi in Hrow. destruct (T' !! id) as [i'|] eqn:Hi'; [|done]. injection Hrow as Hrow.
  destruct (ready_b id T') eqn:Hb; [left; rewrite ready_b_spec in Hb; by auto|right].
  intros Hacc. exists i'. split; [unfold strip, img_set_result; congruence|].
  apply (calm_download server convert dir id url R); auto. congruence.
Qed.

(** A temporary file that holds all of the resource (a failed conversion or
    rename leaves one) is never recovered from: the server refuses the range
    behind its end, and every retry leaves the files as they are and the row in
    status error. *)
Theorem complete_tmp_never_recovers server convert dir id url R F T n :
  F !! tmpPath dir id = Some R → R ≠ [] → ¬ accepts server url (Z.of_nat (length R)) →
  let w := Nat.iter (S n) (retry server convert dir id url) (mkDWorld F T []) in
  d_files w = F ∧ ∀ i, d_rows w !! id = Some i → img_Status i = ImageStatusError.
Proof.
  intros HR Hne Hacc. simpl.
  assert (Hit : ∃ T', Nat.iter n (retry server convert dir id url) (mkDWorld F T []) = mkDWorld F T' []).
  { induction n as [|n [T' IH]]; [by exists T|]. simpl. rewrite IH, (retry_stuck _ _ _ _ _ R) by done. eauto. }
  destruct Hit as [T' ->]. rewrite (retry_stuck _ _ _ _ _ R) by done. simpl. split; [done|].
  intros i. rewrite lookup_alter_eq. destruct (T' !! id); simpl; [|done]. by intros [= <-].
Qed.

(** * The set of active downloads

    [download] takes its place in [p.active] in one critical section and gives
    it up in another, deferred, one.  A goroutine is the statements it has still
    to execute; goroutines take turns at any statement.  [p.mu] is a
    [sync.Mutex]: [Lock] waits until it is free, and [Unlock] of a free mutex is
    a fatal error.  Maps of Go may not be used by two goroutines at once, so an
    access to [p.active] without the mutex counts as a fatal error too. *)
Module ActiveDownloads.

Inductive statement :=
| Lock | Unlock
| ReturnIfActive (before : list statement)
| SetActive
| Transfer
| DeleteActive.

Definition download_code : list statement :=
  [Lock; ReturnIfActive [Unlock]; SetActive; Unlock; Transfer] ++ [Lock; DeleteActive; Unlock].

Record dsystem := mkDSystem {
  sys_mutex : option nat;
  sys_active : gset string;
  sys_threads : list (string * list statement);
}.

Inductive progress := Moves (s : dsystem) | Blocked | Fatal | Over.

Definition turn (n : nat) (s : dsystem) : progress :=
  match sys_threads s !! n with
  | None | Some (_, []) => Over
  | Some (id, i :: k) =>
      let mu := sys_mutex s in
      let A := sys_active s in
      let next mu A k := Moves (mkDSystem mu A (<[n := (id, k)]> (sys_threads s))) in
      let holding p := if decide (mu = Some n) then p else Fatal in
      match i with
      | Lock => match mu with None => next (Some n) A k | Some _ => Blocked end
      | Unlock => match mu with None => Fatal | Some _ => next None A k end
      | ReturnIfActive before => holding (next mu A (if decide (id ∈ A) then before else k))
      | SetActive => holding (next mu ({[id]} ∪ A) k)
      | DeleteActive => holding (next mu (A ∖ {[id]}) k)
      | Transfer => next mu A k
      end
  end.

Inductive dstep : dsystem → dsystem → Prop :=
| step_go mu A ts id : dstep (mkDSystem mu A ts) (mkDSystem mu A (ts ++ [(id, download_code)]))
| step_turn n s s' : turn n s = Moves s' → dstep s s'.

Definition no_downloads : dsystem := mkDSystem None ∅ [].

(** The goroutine [m] alone, until the mutex is free. *)
Fixpoint released (turns m : nat) (s : dsystem) : Prop :=
  match sys_mutex s, turns with
  | None, _ => True
  | Some _, 0 => False
  | Some _, S turns => match turn m s with Moves s' => released turns m s' | _ => False end
  end.

(** A goroutine that is at the transfer, one that is counted as active (its place
    is taken and not yet given up), and one between [Lock] and [Unlock]. *)
Definition transfers (k : list statement) : bool :=
  match k with Transfer :: _ => true | _ => false end.
Definition counted (k : list statement) : bool :=
  existsb (λ i, match i with DeleteActive => true | _ => false end) k &&
  negb (existsb (λ i, match i with SetActive => true | _ => false end) k).
Definition inside (k : list statement) : bool :=
  Nat.ltb (length (List.filter (λ i, match i with Lock => true | _ => false end) k))
    (length (List.filter (λ i, match i with Unlock => true | _ => false end) k)).
(** It has found its image inactive. *)
Definition entering (k : list statement) : bool :=
  match k with SetActive :: _ => true | _ => false end.

Definition mutex_ok (mu : option nat) (ts : list (string * list statement)) : Prop :=
  ∀ n, mu = Some n ↔ ∃ id k, ts !! n = Some (id, k) ∧ inside k = true.

(** Goroutine [m] counts for image [id]. *)
Definition counts (ts : list (string * list statement)) (m : nat) (id : string) : Prop :=
  ∃ k, ts !! m = Some (id, k) ∧ counted k = true.

Record active_ok (A : gset string) (ts : list (string * list statement)) : Prop := {
  ao_one : ∀ n m id, counts ts n id → counts ts m id → n = m;
  ao_active : ∀ id, id ∈ A ↔ ∃ n, counts ts n id;
}.

(** Where a goroutine can be. *)
Definition points : list (list statement) := (λ i, drop i download_code) <$> seq 0 9.

Record one_each (s : dsystem) : Prop := {
  oe_points : ∀ n id k, sys_threads s !! n = Some (id, k) → k ∈ points;
  oe_mutex : mutex_ok (sys_mutex s) (sys_threads s);
  oe_active : active_ok (sys_active s) (sys_threads s);
  oe_entering : ∀ n id k, sys_threads s !! n = Some (id, k) → entering k = true → id ∉ sys_active s;
}.

(** Moving a thread on. *)
Lemma moved_lookup (ts : list (string * list statement)) n x y m z : ts !! n = Some x →
  <[n := y]> ts !! m = Some z ↔ (m = n ∧ z = y) ∨ (m ≠ n ∧ ts !! m = Some z).
Proof.
  intros Hn. pose proof (lookup_lt_Some _ _ _ Hn) as Hlt. destruct (decide (m = n)) as [->|Hne].
  - rewrite list_lookup_insert_eq by done. naive_solver.
  - rewrite list_lookup_insert_ne by done. naive_solver.
Qed.

Lemma spawned_lookup (ts : list (string * list statement)) id m z :
  (ts ++ [(id, download_code)]) !! m = Some z ↔ ts !! m = Some z ∨ (m = length ts ∧ z = (id, download_code)).
Proof.
  rewrite lookup_app_Some, list_lookup_singleton_Some. split.
  - intros [H|(? & ? & <-)]; [by left|right; split; [lia|done]].
  - intros [H|[-> ->]]; [by left|right]. split_and!; [lia|lia|done].
Qed.

Lemma mutex_same mu ts n id k k' : mutex_ok mu ts → ts !! n = Some (id, k) → inside k' = inside k →
  mutex_ok mu (<[n := (id, k')]> ts).
Proof.
  intros Hm Hn E m. etransitivity; [apply Hm|]. setoid_rewrite (moved_lookup _ _ _ _ _ _ Hn).
  destruct (decide (m = n)) as [->|]; [|naive_solver]. split.
  - intros (id1 & k1 & H1 & H2). rewrite Hn in H1. injection H1 as <- <-. exists id, k'. rewrite E. by auto.
  - intros (id1 & k1 & [[_ [= -> ->]]|[? _]] & H2); [|done]. exists id, k. by rewrite <-E.
Qed.

Lemma mutex_take ts n id k k' : mutex_ok None ts → ts !! n = Some (id, k) → inside k' = true →
  mutex_ok (Some n) (<[n := (id, k')]> ts).
Proof.
  intros Hm Hn E m. setoid_rewrite (moved_lookup _ _ _ _ _ _ Hn). split; [intros [= <-]; by eauto 10|].
  intros (id1 & k1 & [[-> _]|[_ H1]] & H2); [done|]. exfalso. assert (None = Some m); [apply Hm|]; by eauto.
Qed.

Lemma mutex_give ts n id k k' : mutex_ok (Some n) ts → ts !! n = Some (id, k) → inside k' = false →
  mutex_ok None (<[n := (id, k')]> ts).
Proof.
  intros Hm Hn E m. setoid_rewrite (moved_lookup _ _ _ _ _ _ Hn). split; [done|].
  intros (id1 & k1 & [[-> [= -> ->]]|[Hne H1]] & H2); [congruence|].
  exfalso. apply Hne. assert (Some n = Some m); [apply Hm; by eauto|congruence].
Qed.

Lemma counts_moved ts n id k k' m id1 : ts !! n = Some (id, k) →
  counts (<[n := (id, k')]> ts) m id1 ↔ (m = n ∧ id1 = id ∧ counted k' = true) ∨ (m ≠ n ∧ counts ts m id1).
Proof.
  intros Hn. unfold counts. setoid_rewrite (moved_lookup _ _ _ _ _ _ Hn). split.
  - intros (k1 & [[-> [= -> ->]]|[? ?]] & ?); [by left|right]. split; [done|]. by exists k1.
  - intros [(-> & -> & ?)|(? & k1 & ? & ?)]; [exists k'|exists k1]; by auto.
Qed.

Lemma counts_at ts n id k id1 : ts !! n = Some (id, k) → counts ts n id1 ↔ id1 = id ∧ counted k = true.
Proof. intros Hn. unfold counts. rewrite Hn. split; [intros (k1 & [= -> ->] & ?); done|intros [-> ?]; by exists k]. Qed.

Lemma active_same A ts n id k k' : active_ok A ts → ts !! n = Some (id, k) → counted k' = counted k →
  active_ok A (<[n := (id, k')]> ts).
Proof.
  intros [H1 H2] Hn E.
  assert (Hc : ∀ m id1, counts (<[n := (id, k')]> ts) m id1 ↔ counts ts m id1).
  { intros m id1. rewrite (counts_moved _ _ _ _ _ _ _ Hn), E, <-(counts_at _ _ _ _ id1 Hn).
    destruct (decide (m = n)) as [->|]; naive_solver. }
  split; [intros a b id1; rewrite !Hc; apply H1|intros id1; setoid_rewrite Hc; apply H2].
Qed.

Lemma active_enter A ts n id k k' : active_ok A ts → ts !! n = Some (id, k) → id ∉ A → counted k' = true →
  active_ok ({[id]} ∪ A) (<[n := (id, k')]> ts).
Proof.
  intros [H1 H2] Hn Hid E.
  assert (Hno : ∀ m, ¬ counts ts m id) by (intros m Hm; apply Hid, H2; by exists m).
  split.
  - intros a b id1. rewrite !(counts_moved _ _ _ _ _ _ _ Hn).
    intros [(-> & -> & _)|[_ Ha]] [(-> & ? & _)|[_ Hb]]; subst; try done; [by destruct (Hno b)|by destruct (Hno a)|by eapply H1].
  - intros id1. setoid_rewrite (counts_moved _ _ _ _ _ _ _ Hn). rewrite elem_of_union, elem_of_singleton, H2. split.
    + intros [->|[m Hm]]; [by exists n; left|]. exists m. destruct (decide (m = n)) as [->|]; [|by right].
      exfalso. apply (counts_at _ _ _ _ _ Hn) in Hm as Hm'. destruct Hm' as [-> _]. by apply (Hno n).
    + intros (m & [(_ & -> & _)|[_ Hm]]); [by left|right]. by exists m.
Qed.

Lemma active_leave A ts n id k k' : active_ok A ts → ts !! n = Some (id, k) → counted k = true → counted k' = false →
  active_ok (A ∖ {[id]}) (<[n := (id, k')]> ts).
Proof.
  intros [H1 H2] Hn E E'. assert (Hme : counts ts n id) by (by eapply counts_at).
  split.
  - intros a b id1. rewrite !(counts_moved _ _ _ _ _ _ _ Hn), E'.
    intros [(_ & _ & ?)|[_ Ha]] [(_ & _ & ?)|[_ Hb]]; try done. by eapply H1.
  - intros id1. setoid_rewrite (counts_moved _ _ _ _ _ _ _ Hn). rewrite elem_of_difference, elem_of_singleton, H2, E'. split.
    + intros [[m Hm] Hne]. exists m. right. split; [|done]. intros ->. apply (counts_at _ _ _ _ _ Hn) in Hm as [? _]. done.
    + intros (m & [(_ & _ & ?)|[Hne Hm]]); [done|]. split; [by exists m|]. intros ->. by apply Hne, (H1 _ _ id).
Qed.

(** What holds at each place of the code. *)
Lemma entering_inside k : k ∈ points → entering k = true → inside k = true.
Proof. intros Hk. revert Hk. unfold points. vm_compute. intros Hk. repeat (apply elem_of_cons in Hk as [->|Hk]; [done|]). by apply elem_of_nil in Hk. Qed.

Lemma one_each_moved mu A ts n id k mu' A' k' :
  one_each (mkDSystem mu A ts) → ts !! n = Some (id, k) → k' ∈ points →
  mutex_ok mu' (<[n := (id, k')]> ts) → active_ok A' (<[n := (id, k')]> ts) →
  (entering k' = true → id ∉ A') → A' ⊆ A ∨ mu = Some n →
  one_each (mkDSystem mu' A' (<[n := (id, k')]> ts)).
Proof.
  intros [Hp Hm Ha He] Hn Hk' Hm' Ha' He' Hmine. simpl in *. split; simpl; [|done|done|].
  - intros m id1 k1. rewrite (moved_lookup _ _ _ _ _ _ Hn). intros [[_ [= -> ->]]|[_ ?]]; [done|by eapply Hp].
  - intros m id1 k1. rewrite (moved_lookup _ _ _ _ _ _ Hn). intros [[_ [= -> ->]]|[Hne Hm1]] Hen; [by apply He'|].
    destruct Hmine as [Hsub| ->]; [pose proof (He _ _ _ Hm1 Hen); set_solver|].
    exfalso. apply Hne. assert (Some n = Some m); [|congruence]. apply Hm. exists id1, k1.
    split; [done|]. apply entering_inside; [by eapply Hp|done].
Qed.

(** The goroutine whose turn it is holds the mutex where its code says so. *)
Lemma holds_inside s n id k : one_each s → sys_threads s !! n = Some (id, k) → inside k = true → sys_mutex s = Some n.
Proof. intros Hs Hn Hi. apply (oe_mutex s Hs). by exists id, k. Qed.

Ltac at_point Hk := unfold points in Hk; vm_compute in Hk; repeat (apply elem_of_cons in Hk as [->|Hk]); [..|by apply elem_of_nil in Hk].

Ltac move_on := eapply one_each_moved;
  [done|done|by vm_compute; set_solver
  |first [by eapply mutex_same|by eapply mutex_take|by eapply mutex_give]
  |first [by eapply active_same|by eapply active_leave|idtac]|done|first [by left|left; set_solver|by right]].

Lemma one_each_turn n s s' : one_each s → turn n s = Moves s' → one_each s'.
Proof.
  intros Hs Ht. unfold turn in Ht. destruct s as [mu A ts]. simpl in Ht.
  destruct (ts !! n) as [[id k]|] eqn:Hn; [|done]. pose proof (oe_points _ Hs _ _ _ Hn) as Hk.
  assert (Hin := holds_inside _ _ _ _ Hs Hn). pose proof Hs as [_ Hm Ha He]. simpl in *.
  at_point Hk; simpl in Ht; try done; try rewrite (Hin eq_refl) in *; rewrite ?decide_True in Ht by done.
  - destruct mu; [done|]. simplify_eq. move_on.
  - case_decide as Hid; simplify_eq; move_on.
  - simplify_eq. move_on. eapply active_enter; [done|done| |done]. by eapply He.
  - simplify_eq. move_on.
  - simplify_eq. move_on.
  - destruct mu; [done|]. simplify_eq. move_on.
  - simplify_eq. move_on.
  - simplify_eq. move_on.
Qed.

Lemma one_each_spawn mu A ts id : one_each (mkDSystem mu A ts) → one_each (mkDSystem mu A (ts ++ [(id, download_code)])).
Proof.
  intros [Hp Hm [H1 H2] He]. simpl in *.
  assert (Hc : ∀ m id1, counts (ts ++ [(id, download_code)]) m id1 ↔ counts ts m id1).
  { intros m id1. unfold counts. setoid_rewrite spawned_lookup. split; [|naive_solver].
    intros (k & [?|[_ [= -> ->]]] & E); [by exists k|done]. }
  split; simpl.
  - intros n id1 k [?|[_ [= -> ->]]]%spawned_lookup; [by eapply Hp|by vm_compute; set_solver].
  - intros n. etransitivity; [apply Hm|]. setoid_rewrite spawned_lookup. split; [naive_solver|].
    intros (id1 & k & [?|[_ [= -> ->]]] & E); [by exists id1, k|done].
  - split; [intros n m id1; rewrite !Hc; apply H1|intros id1; setoid_rewrite Hc; apply H2].
  - intros n id1 k [?|[_ [= -> ->]]]%spawned_lookup; [by eapply He|done].
Qed.

Lemma one_each_reachable s : rtc dstep no_downloads s → one_each s.
Proof.
  intros Hr. assert (H0 : one_each no_downloads).
  { split; simpl; [done| | |done].
    - intros n. split; [done|]. by intros (? & ? & ? & _).
    - split; [by intros ? ? ? (? & ? & _)|]. intros id. split; [set_solver|]. by intros (? & ? & ? & _). }
  revert H0. induction Hr as [|x y z Hst _ IH]; [done|]. intros Hx. apply IH.
  destruct Hst; [by apply one_each_spawn|by eapply one_each_turn].
Qed.

(** Nothing goes wrong at a turn, and one that waits waits for another. *)
Lemma turn_sound n s : one_each s → turn n s ≠ Fatal ∧
  (turn n s = Blocked → ∃ m, sys_mutex s = Some m ∧ m ≠ n).
Proof.
  intros Hs. unfold turn. destruct s as [mu A ts]. simpl.
  destruct (ts !! n) as [[id k]|] eqn:Hn; [|done]. pose proof (oe_points _ Hs _ _ _ Hn) as Hk.
  assert (Hin := holds_inside _ _ _ _ Hs Hn). pose proof (proj1 (oe_mutex _ Hs n)) as Hout. simpl in *.
  at_point Hk; simpl; try done; try rewrite (Hin eq_refl); rewrite ?decide_True by done; try done.
  all: destruct mu as [m|]; split; try done; intros _; exists m; split; [done|]; intros ->.
  all: destruct (Hout eq_refl) as (id1 & k1 & H1 & H2); rewrite Hn in H1; by injection H1 as <- <-.
Qed.

(** The goroutine that holds the mutex gives it back within three turns. *)
Lemma holder_releases m s : one_each s → sys_mutex s = Some m → released 3 m s.
Proof.
  intros Hs Hm. destruct (proj1 (oe_mutex _ Hs m) Hm) as (id & k & Hn & Hi).
  pose proof (oe_points _ Hs _ _ _ Hn) as Hk. pose proof (lookup_lt_Some _ _ _ Hn) as Hlt.
  destruct s as [mu A ts]. simpl in *. subst mu.
  assert (Hl : ∀ x, <[m := x]> ts !! m = Some x) by (intros x; by rewrite list_lookup_insert_eq).
  at_point Hk; try done; unfold turn; simpl; rewrite ?Hn; simpl; rewrite ?decide_True by done; simpl;
    rewrite ?Hl; simpl; rewrite ?list_insert_insert_eq, ?Hl; simpl; try done.
  case_decide; [done|]. rewrite ?decide_True by done. simpl. by rewrite list_insert_insert_eq, Hl.
Qed.

(** C28: However goroutines of [download] are started and however their turns are
    interleaved, statement by statement, at most one transfers a given image; an
    image is in [p.active] exactly while some goroutine has entered it and not yet
    deleted it; no goroutine unlocks a free mutex or touches the map without it;
    one that waits for the mutex waits for another goroutine, which gives the mutex
    back within three turns of its own; and when all have ended the mutex is free
    and no image is left active, so that a later request is not refused for ever. *)
Theorem one_download_per_image s : rtc dstep no_downloads s →
  (∀ n m id k k', sys_threads s !! n = Some (id, k) → sys_threads s !! m = Some (id, k') →
     transfers k = true → transfers k' = true → n = m) ∧
  (∀ id, id ∈ sys_active s ↔ ∃ n, counts (sys_threads s) n id) ∧
  (∀ n, turn n s ≠ Fatal) ∧
  (∀ n, turn n s = Blocked → ∃ m, sys_mutex s = Some m ∧ m ≠ n ∧ released 3 m s) ∧
  (Forall (λ t, t.2 = []) (sys_threads s) → sys_mutex s = None ∧ sys_active s = ∅).
Proof.
  intros Hr. pose proof (one_each_reachable s Hr) as Hs. pose proof (oe_active _ Hs) as [H1 H2]. split_and!.
  - assert (Ht : ∀ k, k ∈ points → transfers k = true → counted k = true) by (intros k Hk; by at_point Hk).
    intros n m id k k' Hn Hm E E'. apply (H1 n m id); [exists k|exists k']; split; try done; apply Ht; try done; by eapply (oe_points _ Hs).
  - done.
  - intros n. by apply turn_sound.
  - intros n Hb. destruct (proj2 (turn_sound n s Hs) Hb) as (m & Hm & Hne). exists m. split_and!; try done. by apply holder_releases.
  - intros Hend. rewrite Forall_lookup in Hend. split.
    + destruct (sys_mutex s) as [m|] eqn:E; [|done]. apply (oe_mutex _ Hs) in E as (id & k & Hn & Hi).
      apply Hend in Hn. simpl in Hn. by subst k.
    + apply set_eq. intros id. rewrite H2. split; [|set_solver]. intros (n & k & Hn & Hi). apply Hend in Hn. simpl in Hn. by subst k.
Qed.

(** Two goroutines for one image: the second waits while the first holds the
    mutex, and finds the image active afterwards. *)
Definition two_downloads : dsystem :=
  mkDSystem (Some 0) {["img"]} [("img", drop 3 download_code); ("img", download_code)].

Lemma one_download_witness : turn 1 two_downloads = Blocked ∧
  (∀ n m id k k', sys_threads two_downloads !! n = Some (id, k) → sys_threads two_downloads !! m = Some (id, k') →
     transfers k = true → transfers k' = true → n = m) ∧
  (∀ id, id ∈ sys_active two_downloads ↔ ∃ n, counts (sys_threads two_downloads) n id) ∧
  (∀ n, turn n two_downloads ≠ Fatal) ∧
  (∀ n, turn n two_downloads = Blocked → ∃ m, sys_mutex two_downloads = Some m ∧ m ≠ n ∧ released 3 m two_downloads) ∧
  (Forall (λ t, t.2 = []) (sys_threads two_downloads) → sys_mutex two_downloads = None ∧ sys_active two_downloads = ∅).
Proof.
  split; [reflexivity|]. apply (one_download_per_image two_downloads).
  eapply rtc_l; [apply (step_go _ _ _ "img")|]. eapply rtc_l; [apply (step_go _ _ _ "img")|].
  do 2 (eapply rtc_l; [apply (step_turn 0); reflexivity|]).
  apply rtc_once, (step_turn 0). by vm_compute.
Defined.

End ActiveDownloads.

(** * Witnesses: a server with ranges, and a conversion that adds the magic *)
Definition res1 : list N := [1; 2; 3; 4; 5; 6]%N.
Definition server1 (_ : string) (off : Z) : http_response :=
  if (off =? 0)%Z then mkResponse 200 res1
  else if (off <? 6)%Z then mkResponse 206 (drop (Z.to_nat off) res1)
  else mkResponse 416 [].
Definition convert1 (_ : string) (bs : list N) : option (list N) := Some ([81; 70; 73; 251] ++ bs)%N.
Definition row1 : Image := mkImage "img" "ubuntu" "" "linux" "24.04" "amd64" ImageTypeOS 0
  ImageStatusDownloading "" "http://host/u.img" None 0 0.
Definition rows1 : gmap string Image := {["img" := row1]}.

Lemma server1_serves : serves server1 "http://host/u.img" res1.
Proof.
  split; intros off Hoff; unfold server1; destruct (Z.eqb_spec off 0) as [->|]; try done;
    destruct (off <? 6)%Z; done.
Qed.

Lemma tmp_ok_empty dir id R : tmp_ok dir id R ∅.
Proof. by intros c. Qed.

(** A copy that breaks off after two bytes. *)
Definition broken : list (option nat) := [None; None; None; None; None; None; Some 2].

Lemma interrupted_witness :
  let r := download_body server1 convert1 "/i" "img" "http://host/u.img" (mkDWorld ∅ rows1 broken) in
  d_files r.2 !! tmpPath "/i" "img" = Some [1; 2]%N ∧
  r.1 = Ret () ∧ tmp_ok "/i" "img" res1 (d_files r.2) ∧ same_rows "img" rows1 (d_rows r.2) ∧
  (is_ready "img" (d_rows r.2) → complete convert1 "/i" "img" res1 (d_files r.2)).
Proof.
  split; [vm_compute; reflexivity|].
  apply interrupted_download_safe.
  - apply server1_serves.
  - apply tmp_ok_empty.
  - intros i. unfold rows1. rewrite lookup_singleton_eq. by intros [= <-].
  - intros (i & Hi & Hs). unfold rows1 in Hi. rewrite lookup_singleton_eq in Hi. by injection Hi as <-.
Defined.

Lemma resumed_witness :
  let '(F', T') := runs server1 convert1 "/i" "img" "http://host/u.img" [broken] ∅ rows1 in
  F' !! tmpPath "/i" "img" = Some [1; 2]%N ∧
  ((is_ready "img" T' ∧ complete convert1 "/i" "img" res1 F') ∨
   (accepts server1 "http://host/u.img" (resume_offset "/i" "img" F') →
    ∃ i', strip i' = strip row1 ∧
      wp (download_body server1 convert1 "/i" "img" "http://host/u.img")
        (done "/i" "img" F' T' i' [81; 70; 73; 251; 1; 2; 3; 4; 5; 6]%N) (mkDWorld F' T' []))).
Proof.
  pose proof (resumed_download_completes server1 convert1 "/i" "img" "http://host/u.img" res1
    [81; 70; 73; 251; 1; 2; 3; 4; 5; 6]%N ∅ rows1 row1 [broken] server1_serves eq_refl
    (tmp_ok_empty _ _ _) eq_refl eq_refl) as H.
  assert (Htmp : let '(F', _) := runs server1 convert1 "/i" "img" "http://host/u.img" [broken] ∅ rows1 in
    F' !! tmpPath "/i" "img" = Some [1; 2]%N) by (vm_compute; reflexivity).
  destruct (runs _ _ _ _ _ _ _ _) as [F' T']. split; [exact Htmp|]. apply H.
  intros (i & Hi & Hs). unfold rows1 in Hi. rewrite lookup_singleton_eq in Hi. by injection Hi as <-.
Defined.

(** The conversion fails once; what it leaves is the state of the theorem. *)
Definition failed_convert : DWorld :=
  (download_body server1 convert1 "/i" "img" "http://host/u.img"
     (mkDWorld ∅ rows1 [None; None; None; None; None; None; None; None; None; None; Some 3])).2.

Lemma never_recovers_witness :
  d_files failed_convert !! tmpPath "/i" "img" = Some res1 ∧
  let w := Nat.iter 4 (retry server1 convert1 "/i" "img" "http://host/u.img")
             (mkDWorld (d_files failed_convert) (d_rows failed_convert) []) in
  d_files w = d_files failed_convert ∧ ∀ i, d_rows w !! "img" = Some i → img_Status i = ImageStatusError.
Proof.
  split; [vm_compute; reflexivity|].
  apply (complete_tmp_never_recovers server1 convert1 "/i" "img" "http://host/u.img" res1 _ _ 3).
  - vm_compute. reflexivity.
  - done.
  - intros [H|H]; vm_compute in H; discriminate H.
Defined.
