(* ===== verification/ControlPlane.v ===== *)
(** The control plane's VM service ([services/controlplane/service.go]):
    creating, powering, resizing, cloning, snapshotting and deleting virtual
    machines.  One definition per method; [CreateVM] and [Clone] are cut at the
    blocks of their bodies.  Nil-able collaborators of the [Service] struct are
    options. *)
From stdpp Require Import base gmap strings list numbers pretty.
From S2P Require Import Prelude.
From S2P Require Import GoStd.
From S2P Require Import GoNet.
From S2P Require Import Ipam.
From S2P Require Import Domain.
From S2P Require Import GoJson.
From S2P Require Import Interfaces.
From S2P Require Import Catalog.
From S2P Require Import Puller.
From stdpp Require Import options.

Record Service (W : Type) := mkService {
  vmRepo : VMRepository W;
  nodeRepo : NodeRepository W;
  imageRepo : ImageRepository W;
  backupRepo : BackupRepository W;
  snapRepo : SnapshotRepository W;
  flavorRepo : option (FlavorRepository W);
  keypairRepo : option (KeypairRepository W);
  ipam : option (IPAMAllocator W);
  publisher : option (EventPublisher W);
  puller : option (PullerState W);
  env : Env W;
}.
Arguments vmRepo {_} _.
Arguments nodeRepo {_} _.
Arguments imageRepo {_} _.
Arguments backupRepo {_} _.
Arguments snapRepo {_} _.
Arguments flavorRepo {_} _.
Arguments keypairRepo {_} _.
Arguments ipam {_} _.
Arguments publisher {_} _.
Arguments puller {_} _.
Arguments env {_} _.

(** * Helpers without state *)
Definition hasPrimary (nics : list CreateNetworkInterfaceRequest) : bool :=
  existsb nr_IsPrimary nics.

Definition isUniqueViolation (err : string) : bool :=
  let msg := Strings.ToLower err in
  Strings.Contains msg "duplicate" || Strings.Contains msg "unique"
  || Strings.Contains msg "idx_vm_nics".

Definition default_org : string := "00000000-0000-0000-0000-000000000000".

(** [m["organization_id"]] of a map that may be nil. *)
Definition org_entry (m : option (gmap string string)) : string :=
  match m with
  | Some m' => match m' !! "organization_id" with Some v => v | None => "" end
  | None => ""
  end.

Definition org_of (req : CreateVMRequest) : string :=
  if negb (String.eqb (org_entry (cr_Labels req)) "") then org_entry (cr_Labels req)
  else if negb (String.eqb (org_entry (cr_Metadata req)) "") then org_entry (cr_Metadata req)
  else default_org.

Definition non_empty (s : string) : option string := if String.eqb s "" then None else Some s.

Definition or_default (s d : string) : string := if String.eqb s "" then d else s.

Definition gib20 : Z := (20 * 1024 * 1024 * 1024)%Z.

(** [parseCIDR]: a CIDR, or an address taken as a /24. *)
Definition parseCIDR (cidr : string) : outcome (IP * IPNet) :=
  match ParseCIDR cidr with
  | Some r => Ret r
  | None =>
      match ParseIP cidr with
      | Some ip =>
          match ParseCIDR (String_IP ip +:+ "/24") with
          | Some (_, ipNet) => Ret (ip, ipNet)
          | None => Panic
          end
      | None => Err ("invalid CIDR " +:+ Quote cidr)
      end
  end.

(** The carry loop over the bytes, last byte first. *)
Fixpoint inc_bytes (rev_bytes : list Z) : list Z :=
  match rev_bytes with
  | [] => []
  | b :: bs =>
      let b' := ((b + 1) `mod` 256)%Z in
      if Z.eqb b' 0 then 0%Z :: inc_bytes bs else b' :: bs
  end.

Definition gatewayFromIP (cidrOrIP : string) : outcome string :=
  match parseCIDR cidrOrIP with
  | Err e => Err e
  | Panic => Panic
  | Ret (_, ipNet) =>
      let gwIP := n_IP ipNet in
      let gwIP :=
        if bool_decide (length gwIP = 16) then
          match (ip ← ParseIP (String_IP gwIP); To4 ip) with Some v4 => v4 | None => gwIP end
        else gwIP in
      Ret (String_IP (rev (inc_bytes (rev gwIP))))
  end.

(** * Creating a VM *)
Section service.
Context {W : Type} (s : Service W).

(** [if s.publisher != nil { _ = s.publisher.PublishVMEvent(...) }] *)
Definition emit_vm_event (ev id : string) (data : json) : M W () :=
  match publisher s with
  | Some pub => ignore (PublishVMEvent pub ev id data)
  | None => mret ()
  end.

Definition svc_PullOfficialImage (osName version arch : string) : M W Image :=
  match puller s with
  | None => fail "image puller not configured"
  | Some p => Puller.PullOfficialImage p osName version arch
  end.

(** Lines 102-133: sizes and a default disk from the flavor. *)
Definition resolve_flavor (req : CreateVMRequest) : M W CreateVMRequest :=
  if negb (String.eqb (cr_FlavorID req) "") || negb (String.eqb (cr_Flavor req) "") then
    match flavorRepo s with
    | Some repo =>
        flavor ← wrap "get flavor"
                   (if negb (String.eqb (cr_FlavorID req) "") then Flavor_GetByID repo (cr_FlavorID req)
                    else Flavor_GetByName repo (cr_Flavor req));
        match flavor with
        | None => fail ("flavor " +:+ Quote (cr_Flavor req +:+ cr_FlavorID req) +:+ " not found")
        | Some flavor =>
            mret (cr_set_size
              (if Z.eqb (cr_VCpus req) 0 then fl_VCpus flavor else cr_VCpus req)
              (if Z.eqb (cr_MemoryMB req) 0 then fl_MemoryMB flavor else cr_MemoryMB req)
              (match cr_Disks req with
               | [] => if (0 <? fl_DiskGB flavor)%Z
                       then [mkDiskReq "root" (int64 (fl_DiskGB flavor * 1024 * 1024 * 1024))
                               "qcow2" "default" "" ""]
                       else []
               | ds => ds
               end) req)
        end
    | None =>
        if Z.eqb (cr_VCpus req) 0 || Z.eqb (cr_MemoryMB req) 0
        then fail "flavor not available, specify vcpus and memory directly"
        else mret req
    end
  else mret req.

(** Lines 136-140. *)
Definition resolve_keypair (req : CreateVMRequest) : M W CreateVMRequest :=
  if negb (String.eqb (cr_Keypair req) "") && String.eqb (cr_KeypairID req) "" then
    match keypairRepo s with
    | Some repo =>
        kp ← or_zero None (Keypair_GetByName repo (cr_Keypair req) "");
        mret (match kp with Some kp => cr_set_keypair (kp_ID kp) req | None => req end)
    | None => mret req
    end
  else mret req.

(** Lines 142-147, and the same guards of [Resize]. *)
Definition check_size (vcpus memoryMB : Z) : M W () :=
  if (vcpus <? 1)%Z then fail "vcpus must be at least 1"
  else if (memoryMB <? 256)%Z then fail "memory must be at least 256 MB"
  else mret ().

(** Lines 200-246: the image of a disk, and its size when the image gives it. *)
Definition disk_image (d : CreateDiskRequest) : M W (string * Z) :=
  if String.eqb (dr_ImageID d) "" && negb (String.eqb (dr_Image d) "") then
    match puller s with
    | Some p =>
        r ← attempt (ResolveAndEnsureImage p (dr_Image d));
        match r with
        | inl img =>
            mret (img_ID img,
                  if Z.eqb (dr_SizeBytes d) 0 && (0 <? img_SizeBytes img)%Z
                  then img_SizeBytes img else dr_SizeBytes d)
        | inr err =>
            imageID ← (match ResolveImageAlias (dr_Image d) with
                       | Ret oi =>
                           r ← attempt (svc_PullOfficialImage (oi_OS oi) (oi_OSVersion oi) (oi_Architecture oi));
                           mret (match r with inl pulled => img_ID pulled | inr _ => "" end)
                       | _ => mret ""
                       end);
            if String.eqb imageID ""
            then fail ("image " +:+ Quote (dr_Image d) +:+ " not found: " +:+ err)
            else mret (imageID, dr_SizeBytes d)
        end
    | None =>
        img ← or_zero None (Image_GetByName (imageRepo s) (dr_Image d));
        match img with
        | Some img => mret (img_ID img, dr_SizeBytes d)
        | None =>
            let q := String dquote EmptyString in
            match ResolveImageAlias (dr_Image d) with
            | Ret oi =>
                fail ("image " +:+ Quote (dr_Image d)
                      +:+ " not cached, pull it first via POST /api/v1/images/pull {"
                      +:+ q +:+ "os" +:+ q +:+ ":" +:+ q +:+ oi_OS oi +:+ q +:+ ","
                      +:+ q +:+ "os_version" +:+ q +:+ ":" +:+ q +:+ oi_OSVersion oi +:+ q +:+ ","
                      +:+ q +:+ "architecture" +:+ q +:+ ":" +:+ q +:+ oi_Architecture oi +:+ q +:+ "}")
            | _ => fail ("unknown image " +:+ Quote (dr_Image d))
            end
        end
    end
  else if negb (String.eqb (dr_ImageID d) "") then
    match puller s with
    | Some p =>
        r ← attempt (ResolveAndEnsureImage p (dr_ImageID d));
        match r with
        | inr err => fail ("image " +:+ Quote (dr_ImageID d) +:+ ": " +:+ err)
        | inl img => mret (img_ID img, dr_SizeBytes d)
        end
    | None =>
        img ← or_zero None (Image_GetByID (imageRepo s) (dr_ImageID d));
        match img with
        | None => fail ("image " +:+ Quote (dr_ImageID d) +:+ " not found")
        | Some _ => mret (dr_ImageID d, dr_SizeBytes d)
        end
    end
  else mret ("", dr_SizeBytes d).

Definition disk_name (i : nat) (name : string) : string :=
  if String.eqb name "" then
    if bool_decide (i = 0) then "root" else "disk-" +:+ pretty (N.of_nat i)
  else name.

(** Lines 198-278, one turn. *)
Definition make_disk (i : nat) (d : CreateDiskRequest) : M W Disk :=
  '(imageID, size) ← disk_image d;
  id ← new_uuid (env s);
  mret (mkDisk id (disk_name i (dr_Name d))
          (if Z.eqb size 0 then gib20 else size)
          (or_default (dr_Type d) "qcow2") (or_default (dr_StoragePool d) "default")
          imageID (bool_decide (i = 0)) (int32 (Z.of_nat i))).

(** Lines 185-279. *)
Definition make_disks (reqs : list CreateDiskRequest) : M W (list Disk) :=
  match reqs with
  | [] =>
      id ← new_uuid (env s);
      mret [mkDisk id "root" gib20 "qcow2" "default" "" true 0]
  | _ => imapM make_disk 0 reqs
  end.

(** The address of a NIC in [networkID]: none without an allocator. *)
Definition allocate_first (ctx networkID : string) : M W (list string) :=
  match ipam s with
  | Some a =>
      if String.eqb networkID "" then mret []
      else
        r ← wrap ctx (AllocateIP a networkID);
        mret [r.1.1]
  | None => mret []
  end.

(** The network a NIC goes to when the request names none. *)
Definition default_network (orgID : string) : M W string :=
  match ipam s with
  | Some a => r ← wrap "ensure default network" (EnsureDefaultNetwork a orgID); mret r.1
  | None => mret ""
  end.

(** Lines 285-317, one turn. *)
Definition make_nic (vmID orgID : string) (reqs : list CreateNetworkInterfaceRequest)
    (i : nat) (nicReq : CreateNetworkInterfaceRequest) : M W NetworkInterface :=
  networkID ← (if String.eqb (nr_NetworkID nicReq) "" then default_network orgID
               else mret (nr_NetworkID nicReq));
  nicID ← new_uuid (env s);
  let macAddr := GenerateNICMAC vmID nicID in
  ipv4 ← allocate_first ("allocate IP in network " +:+ networkID) networkID;
  let isPrimary := nr_IsPrimary nicReq || (bool_decide (i = 0) && negb (hasPrimary reqs)) in
  mret (mkNIC nicID ("eth" +:+ pretty (N.of_nat i)) networkID macAddr ipv4 [] isPrimary).

(** Lines 284-347. *)
Definition make_nics (vmID orgID : string) (reqs : list CreateNetworkInterfaceRequest)
    : M W (list NetworkInterface) :=
  match reqs with
  | [] =>
      networkID ← default_network orgID;
      nicID ← new_uuid (env s);
      let macAddr := GenerateNICMAC vmID nicID in
      ipv4 ← allocate_first "allocate IP in default network" networkID;
      mret [mkNIC nicID "eth0" networkID macAddr ipv4 [] true]
  | _ => imapM (make_nic vmID orgID reqs) 0 reqs
  end.

(** Lines 358-367: new addresses after a collision. *)
Definition realloc_nic (vmID suffix : string) (nic : NetworkInterface) : M W NetworkInterface :=
  match ipam s with
  | Some a =>
      if String.eqb (nic_NetworkID nic) "" then mret nic
      else
        r ← attempt (AllocateIP a (nic_NetworkID nic));
        let ips := match r with inl r => [r.1.1] | inr _ => nic_IPv4Addresses nic end in
        mret (mkNIC (nic_ID nic) (nic_Name nic) (nic_NetworkID nic)
                (GenerateNICMAC vmID (nic_ID nic +:+ suffix)) ips
                (nic_IPv6Addresses nic) (nic_IsPrimary nic))
  | None => mret nic
  end.

(** Lines 350-374; [fuel] counts the attempts left, [att] the ones made. *)
Fixpoint create_loop (fuel att : nat) (vm : VirtualMachine) : M W VirtualMachine :=
  match fuel with
  | O => mret vm
  | S fuel' =>
      r ← attempt (VM_Create (vmRepo s) vm);
      match r with
      | inl _ => mret vm
      | inr err =>
          if isUniqueViolation err then
            nics ← imapM (λ _, realloc_nic (vm_ID vm) ("-" +:+ pretty (N.of_nat att))) 0
                     (vm_NetworkInterfaces vm);
            if bool_decide (att = 2) then fail ("create vm: " +:+ err)
            else create_loop fuel' (S att) (vm_set_related (vm_Disks vm) nics vm)
          else fail ("create vm: " +:+ err)
      end
  end.

Definition CreateVM (req : CreateVMRequest) : M W VirtualMachine :=
  if String.eqb (cr_Name req) "" then fail "vm name is required"
  else
    req ← resolve_flavor req;
    req ← resolve_keypair req;
    _ ← check_size (cr_VCpus req) (cr_MemoryMB req);
    let orgID := org_of req in
    id ← new_uuid (env s);
    disks ← make_disks (cr_Disks req);
    nics ← make_nics id orgID (cr_NetworkInterfaces req);
    let vm := mkVM id (cr_Name req) (non_empty (cr_NodeID req)) orgID None VMStatusCreating
                (cr_VCpus req) (cr_MemoryMB req) (cr_CPUModel req) (cr_MachineType req)
                (cr_EnableSecureBoot req) (cr_EnableTPM req) (cr_Hugepages req) (cr_CloudInit req)
                (non_empty (cr_KeypairID req)) (cr_Tags req) (cr_Metadata req) (cr_Labels req)
                disks nics 0 0 in
    vm ← create_loop 3 0 vm;
    _ ← emit_vm_event "created" (vm_ID vm)
          (JObj [("status", JStr (string_of_VMStatus (vm_Status vm))); ("vm_id", JStr (vm_ID vm))]);
    mret vm.

(** * Reading, updating, deleting *)
Definition GetVM (id : string) : M W (option VirtualMachine) := VM_GetByID (vmRepo s) id.
Definition ListVMs (f : VMFilter) : M W (list VirtualMachine * Z) := VM_List (vmRepo s) f.

(** [vm, err := GetByID; if err ...; if vm == nil ...] *)
Definition get_vm (id : string) : M W VirtualMachine :=
  vm ← wrap "get vm" (VM_GetByID (vmRepo s) id);
  match vm with None => fail "vm not found" | Some vm => mret vm end.

Definition or_old {A} (n o : option A) : option A := match n with Some _ => n | None => o end.

Definition UpdateVM (id : string) (req : UpdateVMRequest) : M W VirtualMachine :=
  vm ← get_vm id;
  let vm := vm_edit (or_default (ur_Name req) (vm_Name vm)) (vm_VCpus vm) (vm_MemoryMB vm)
              (or_old (ur_Tags req) (vm_Tags vm)) (or_old (ur_Metadata req) (vm_Metadata vm))
              (or_old (ur_Labels req) (vm_Labels vm)) vm in
  _ ← wrap "update vm" (VM_Update (vmRepo s) vm);
  mret vm.

Definition DeleteVM (id : string) (force : bool) : M W () :=
  vm ← get_vm id;
  if negb force && negb (bool_decide (vm_Status vm = VMStatusStopped)) then
    fail ("vm must be stopped before deletion (current status: "
          +:+ string_of_VMStatus (vm_Status vm) +:+ ")")
  else wrap "delete vm" (VM_Delete (vmRepo s) id).

(** * Power *)
Definition nodeCommandSubject (nodeID action : string) : M W string :=
  r ← attempt (Node_GetByID (nodeRepo s) nodeID);
  let subjectNode :=
    match r with
    | inl (Some n) => or_default (node_Name n) nodeID
    | _ => nodeID
    end in
  mret (SubjectForNode subjectNode action).

(** Lines 535-565, one NIC of the start command. *)
Definition nic_config (vmID : string) (nic : NetworkInterface) : outcome (string * json) :=
  let macAddr := if String.eqb (nic_MACAddress nic) "" then GenerateNICMAC vmID (nic_ID nic)
                 else nic_MACAddress nic in
  let ip := match nic_IPv4Addresses nic with ip :: _ => ip | [] => "" end in
  let gw := if String.eqb ip "" then Ret ""
            else match gatewayFromIP ip with Ret g => Ret g | Err _ => Ret "" | Panic => Panic end in
  match gw, BridgeForNetwork (nic_NetworkID nic) with
  | Ret gw, Ret bridge =>
      Ret (macAddr, JObj ([("network_id", JStr (nic_NetworkID nic)); ("mac_address", JStr macAddr);
                           ("ip_address", JStr ip)]
                          ++ omit_str "gateway" gw ++ omit_str "bridge" bridge
                          ++ omit_str "name" (nic_Name nic)))
  | Panic, _ => Panic
  | _, Err e => Err ("bridge for network " +:+ nic_NetworkID nic +:+ ": " +:+ e)
  | _, _ => Panic
  end.

Fixpoint nic_configs (vmID : string) (nics : list NetworkInterface) : outcome (list (string * json)) :=
  match nics with
  | [] => Ret []
  | nic :: nics' =>
      match nic_config vmID nic with
      | Ret c =>
          match nic_configs vmID nics' with
          | Ret cs => Ret (c :: cs)
          | o => o
          end
      | Err e => Err e
      | Panic => Panic
      end
  end.

(** Lines 576-590: the image and size of the boot disk. *)
Definition boot_source (disks : list Disk) : string * Z :=
  match disks with
  | [] => ("", 0%Z)
  | d0 :: _ =>
      let '(img, size) := match List.find disk_Boot disks with
                          | Some d => (disk_ImageID d, disk_SizeBytes d)
                          | None => ("", 0%Z)
                          end in
      if String.eqb img "" then (disk_ImageID d0, disk_SizeBytes d0) else (img, size)
  end.

(** Lines 592-604: the command itself; [nics] has the MAC address and the JSON of
    each interface, in order. *)
Definition start_cfg (vm : VirtualMachine) (sshKey : string) (nics : list (string * json)) : json :=
  let legacyMAC := match nics with (mac, _) :: _ => mac | [] => "" end in
  let '(imageID, sizeBytes) := boot_source (vm_Disks vm) in
  JObj ([("name", JStr (vm_Name vm)); ("vcpus", JNum (vm_VCpus vm)); ("memory_mb", JNum (vm_MemoryMB vm))]
        ++ omit_str "mac_address" legacyMAC ++ omit_str "ssh_key" sshKey
        ++ omit_str "image_id" imageID ++ omit_num "size_bytes" sizeBytes
        ++ omit_str "machine_type" (vm_MachineType vm)
        ++ omit_arr "network_interfaces" (snd <$> nics)).

Definition start_command (vm : VirtualMachine) (sshKey : string) (nics : list (string * json)) : json :=
  JObj [("action", JStr "start"); ("vm_id", JStr (vm_ID vm)); ("config", start_cfg vm sshKey nics)].

Definition publishVMStart (vm : VirtualMachine) : M W () :=
  match publisher s with
  | None => mret ()
  | Some pub =>
      nics ← Puller.lift (nic_configs (vm_ID vm) (vm_NetworkInterfaces vm));
      match nics with
      | [] => fail ("no NICs provided for VM " +:+ vm_ID vm)
      | _ :: _ =>
          sshKey ← (match vm_SSHKeyID vm, keypairRepo s with
                    | Some k, Some repo =>
                        if String.eqb k "" then mret ""
                        else
                          kp ← or_zero None (Keypair_GetByID repo k);
                          mret (match kp with Some kp => kp_PublicKey kp | None => "" end)
                    | _, _ => mret ""
                    end);
          match vm_NodeID vm with
          | None => panic
          | Some node =>
              subject ← nodeCommandSubject node "start";
              Publish pub subject (start_command vm sshKey nics)
          end
      end
  end.

(** Is [NodeID] a pointer to a non-empty string? *)
Definition assigned (vm : VirtualMachine) : option string :=
  match vm_NodeID vm with
  | Some n => if String.eqb n "" then None else Some n
  | None => None
  end.

(** Lines 458-474: the first online node, or else the first node. *)
Definition schedule_node (id : string) (vm : VirtualMachine) : M W VirtualMachine :=
  match assigned vm with
  | Some _ => mret vm
  | None =>
      let assign (n : Node) : M W VirtualMachine :=
        _ ← ignore (VM_AssignNode (vmRepo s) id (node_ID n));
        mret (vm_set_node (Some (node_ID n)) vm) in
      r ← attempt (Node_List (nodeRepo s) (mkNodeFilter "online" "" 1 1));
      match r with
      | inl (n :: _, _) => assign n
      | _ =>
          r ← or_zero ([], 0%Z) (Node_List (nodeRepo s) (mkNodeFilter "" "" 1 1));
          match r.1 with
          | n :: _ => assign n
          | [] => mret vm
          end
      end
  end.

Definition PowerOn (id : string) : M W VirtualMachine :=
  vm ← get_vm id;
  if negb (bool_decide (vm_Status vm = VMStatusStopped)) &&
     negb (bool_decide (vm_Status vm = VMStatusPaused)) &&
     negb (bool_decide (vm_Status vm = VMStatusCreating)) then
    fail ("vm must be stopped or paused to power on (current status: "
          +:+ string_of_VMStatus (vm_Status vm) +:+ ")")
  else
    vm ← schedule_node id vm;
    _ ← wrap "update status" (VM_UpdateStatus (vmRepo s) id VMStatusRunning);
    let vm := vm_set_status VMStatusRunning vm in
    _ ← (match publisher s, assigned vm with
         | Some _, Some _ => ignore (publishVMStart vm)
         | _, _ => mret ()
         end);
    _ ← emit_vm_event "started" id (JObj [("vm_id", JStr id)]);
    mret vm.

(** [{"action":..., "vm_id":..., "force":...}] *)
Definition power_command (action id : string) (force : bool) : json :=
  JObj ([("action", JStr action); ("vm_id", JStr id)] ++ omit_bool "force" force).

(** Lines 660-668 and 701-709. *)
Definition send_command (action id : string) (force : bool) (vm : VirtualMachine) : M W () :=
  match publisher s, assigned vm with
  | Some pub, Some node =>
      subject ← nodeCommandSubject node action;
      ignore (Publish pub subject (power_command action id force))
  | _, _ => mret ()
  end.

Definition PowerOff (id : string) (force : bool) : M W VirtualMachine :=
  vm ← get_vm id;
  if negb (bool_decide (vm_Status vm = VMStatusRunning)) &&
     negb (bool_decide (vm_Status vm = VMStatusPaused)) && negb force then
    fail ("vm must be running or paused to power off (current status: "
          +:+ string_of_VMStatus (vm_Status vm) +:+ ")")
  else
    _ ← wrap "update status" (VM_UpdateStatus (vmRepo s) id VMStatusShuttingDown);
    _ ← send_command "stop" id force vm;
    _ ← wrap "update status" (VM_UpdateStatus (vmRepo s) id VMStatusStopped);
    let vm := vm_set_status VMStatusStopped vm in
    _ ← emit_vm_event "stopped" id (JObj [("vm_id", JStr id)]);
    mret vm.

Definition Reboot (id : string) (force : bool) : M W VirtualMachine :=
  vm ← get_vm id;
  if negb (bool_decide (vm_Status vm = VMStatusRunning)) && negb force then
    fail ("vm must be running to reboot (current status: "
          +:+ string_of_VMStatus (vm_Status vm) +:+ ")")
  else
    _ ← wrap "update status" (VM_UpdateStatus (vmRepo s) id VMStatusRebooting);
    _ ← send_command "reboot" id force vm;
    _ ← wrap "update status" (VM_UpdateStatus (vmRepo s) id VMStatusRunning);
    let vm := vm_set_status VMStatusRunning vm in
    _ ← emit_vm_event "rebooted" id (JObj [("vm_id", JStr id)]);
    mret vm.

Definition Resize (id : string) (vcpus memoryMB : Z) : M W VirtualMachine :=
  vm ← get_vm id;
  _ ← check_size vcpus memoryMB;
  let vm := vm_edit (vm_Name vm) vcpus memoryMB (vm_Tags vm) (vm_Metadata vm) (vm_Labels vm) vm in
  _ ← wrap "update vm" (VM_Update (vmRepo s) vm);
  _ ← emit_vm_event "resized" id
        (JObj [("memory_mb", JNum memoryMB); ("vcpus", JNum vcpus); ("vm_id", JStr id)]);
  mret vm.

(** * Snapshots and clones *)
Definition Snapshot_VM (vmID name description : string) : M W Snapshot :=
  vm ← get_vm vmID;
  id ← new_uuid (env s);
  let snap := mkSnapshot id vmID name description 0 "creating" 0 in
  _ ← wrap "create snapshot" (Snap_Create (snapRepo s) snap);
  _ ← emit_vm_event "snapshot_created" vmID
        (JObj [("snapshot_id", JStr id); ("vm_id", JStr vmID)]);
  mret snap.

(** Lines 834-845, one turn: the image of the disk is not copied. *)
Definition clone_disk (_ : nat) (d : Disk) : M W Disk :=
  id ← new_uuid (env s);
  mret (mkDisk id (disk_Name d) (disk_SizeBytes d) (disk_Type d) (disk_StoragePool d) ""
          (disk_Boot d) (disk_Order d)).

(** Lines 847-867, one turn. *)
Definition clone_nic (vmID : string) (i : nat) (nic : NetworkInterface) : M W NetworkInterface :=
  nicID ← new_uuid (env s);
  let macAddr := GenerateNICMAC vmID nicID in
  ipv4 ← (match ipam s with
          | Some a =>
              if String.eqb (nic_NetworkID nic) "" then mret []
              else
                r ← attempt (AllocateIP a (nic_NetworkID nic));
                mret (match r with inl r => [r.1.1] | inr _ => [] end)
          | None => mret []
          end);
  let macAddr := if String.eqb macAddr "" then GenerateNICMAC vmID (pretty (N.of_nat i)) else macAddr in
  mret (mkNIC nicID ("eth" +:+ pretty (N.of_nat i)) (nic_NetworkID nic) macAddr ipv4 []
          (nic_IsPrimary nic)).

(** Lines 847-881. *)
Definition clone_nics (vmID orgID : string) (nics : list NetworkInterface)
    : M W (list NetworkInterface) :=
  cloned ← imapM (clone_nic vmID) 0 nics;
  match cloned, ipam s with
  | [], Some a =>
      defID ← or_zero ("", "") (EnsureDefaultNetwork a orgID);
      nicID ← new_uuid (env s);
      r ← or_zero ("", "", "") (AllocateIP a defID.1);
      mret [mkNIC nicID "eth0" defID.1 (GenerateNICMAC vmID nicID) [r.1.1] [] true]
  | _, _ => mret cloned
  end.

(** Lines 886-894, one NIC. *)
Definition clone_realloc (vmID : string) (nic : NetworkInterface) : M W NetworkInterface :=
  ips ← (match ipam s with
         | Some a =>
             if String.eqb (nic_NetworkID nic) "" then mret (nic_IPv4Addresses nic)
             else
               r ← attempt (AllocateIP a (nic_NetworkID nic));
               mret (match r with inl r => [r.1.1] | inr _ => nic_IPv4Addresses nic end)
         | None => mret (nic_IPv4Addresses nic)
         end);
  mret (mkNIC (nic_ID nic) (nic_Name nic) (nic_NetworkID nic)
          (GenerateNICMAC vmID (nic_ID nic +:+ "-retry")) ips
          (nic_IPv6Addresses nic) (nic_IsPrimary nic)).

(** Lines 883-901. *)
Definition clone_create (cloned : VirtualMachine) : M W VirtualMachine :=
  r ← attempt (VM_Create (vmRepo s) cloned);
  match r with
  | inl _ => mret cloned
  | inr err =>
      if isUniqueViolation err then
        nics ← imapM (λ _, clone_realloc (vm_ID cloned)) 0 (vm_NetworkInterfaces cloned);
        let cloned := vm_set_related (vm_Disks cloned) nics cloned in
        _ ← wrap "create cloned vm" (VM_Create (vmRepo s) cloned);
        mret cloned
      else fail ("create cloned vm: " +:+ err)
  end.

(** [make] and copy: never nil in the clone. *)
Definition copy_map (m : option (gmap string string)) : option (gmap string string) :=
  Some (match m with Some m => m | None => ∅ end).
Definition copy_list (l : option (list string)) : option (list string) :=
  Some (match l with Some l => l | None => [] end).

Definition Clone (id name nodeID : string) (linked : bool) : M W VirtualMachine :=
  source ← wrap "get source vm" (VM_GetByID (vmRepo s) id);
  match source with
  | None => fail "source vm not found"
  | Some source =>
      newID ← new_uuid (env s);
      disks ← imapM clone_disk 0 (vm_Disks source);
      nics ← clone_nics newID (vm_OrganizationID source) (vm_NetworkInterfaces source);
      let cloned := mkVM newID name
            (if String.eqb nodeID "" then vm_NodeID source else Some nodeID)
            (vm_OrganizationID source) None VMStatusCreating (vm_VCpus source) (vm_MemoryMB source)
            (vm_CPUModel source) (vm_MachineType source) (vm_EnableSecureBoot source)
            (vm_EnableTPM source) (vm_Hugepages source) (vm_CloudInit source) None
            (copy_list (vm_Tags source)) (copy_map (vm_Metadata source)) (copy_map (vm_Labels source))
            disks nics 0 0 in
      cloned ← clone_create cloned;
      _ ← emit_vm_event "cloned" (vm_ID cloned)
            (JObj [("cloned_vm_id", JStr (vm_ID cloned)); ("source_vm_id", JStr id)]);
      mret cloned
  end.

Definition RestoreSnapshot (snapshotID : string) : M W VirtualMachine :=
  snap ← wrap "get snapshot" (Snap_GetByID (snapRepo s) snapshotID);
  match snap with
  | None => fail "snapshot not found"
  | Some snap =>
      vm ← get_vm (snap_VMID snap);
      _ ← wrap "stop vm" (VM_UpdateStatus (vmRepo s) (vm_ID vm) VMStatusStopped);
      _ ← emit_vm_event "restoring" (vm_ID vm)
            (JObj [("snapshot_id", JStr snapshotID); ("vm_id", JStr (vm_ID vm))]);
      _ ← wrap "restart vm" (VM_UpdateStatus (vmRepo s) (vm_ID vm) VMStatusRunning);
      mret (vm_set_status VMStatusRunning vm)
  end.

End service.
