(* ===== verification/VMService.v ===== *)
(** Correctness of the VM service of [ControlPlane]: for every repository,
    publisher and allocator that keeps the promises of [Interfaces], what each
    operation does to the stored machines and what it publishes, on success and
    on every failure; and the refinement of the service by an abstract
    life-cycle machine. *)
From stdpp Require Import base gmap strings list numbers pretty.
From S2P Require Import Prelude.
From S2P Require Import GoStd.
From S2P Require Import GoNet.
From S2P Require Import Ipam.
From S2P Require Import Domain.
From S2P Require Import GoJson.
From S2P Require Import Interfaces.
From S2P Require Import Catalog.
From S2P Require Import Puller.
From S2P Require Import ControlPlane.
From stdpp Require Import options.

(** All the promises the service relies on; those of an absent collaborator
    are void. *)
Class ServiceLaws {W} (abs : W → Abs) (key : string → string) (s : Service W) : Prop := {
  sl_vm :: VMRepoLaws abs key (vmRepo s);
  sl_node :: NodeRepoLaws abs key (nodeRepo s);
  sl_image :: ImageRepoLaws abs key (imageRepo s);
  sl_snap :: SnapshotRepoLaws abs key (snapRepo s);
  sl_backup :: BackupRepoLaws abs key (backupRepo s);
  sl_env :: EnvLaws abs key (env s);
  sl_flavor : ∀ r, flavorRepo s = Some r → FlavorRepoLaws abs key r;
  sl_keypair : ∀ r, keypairRepo s = Some r → KeypairRepoLaws abs key r;
  sl_ipam : ∀ r, ipam s = Some r → IPAMLaws abs r;
  sl_publisher : ∀ r, publisher s = Some r → PublisherLaws abs r;
  sl_puller : ∀ p, puller s = Some p →
    ImageRepoLaws abs key (p_imageRepo p) ∧ EnvLaws abs key (p_env p);
}.

(** * Gateways *)
Section gateway.
Local Open Scope Z_scope.

(** Four octets with a given value, once the carries are known. *)
Ltac fin Hput Hmod := apply Hput;
  [split; [done|]; unfold octet; repeat constructor; lia
  |rewrite Hmod; case_decide; simpl in *; lia].

Lemma inc_bytes_octets bs : octets4 bs →
  rev (inc_bytes (rev bs)) = PutUint32 (uint32 (Uint32 bs + 1)).
Proof.
  intros Hbs. pose proof (Uint32_range bs Hbs) as Hr.
  apply octets4_inv in Hbs as (a & b & c & d & -> & Ha & Hb & Hc & Hd).
  assert (Hs : ∀ x, octet x →
    (x = 255 ∧ (x + 1) `mod` 256 = 0) ∨ (x < 255 ∧ (x + 1) `mod` 256 = x + 1)).
  { unfold octet. intros x ?. destruct (decide (x = 255)) as [->|]; [by left|right].
    rewrite Z.mod_small; lia. }
  assert (Hput : ∀ l, octets4 l → Uint32 l = uint32 (Uint32 [a; b; c; d] + 1) →
            l = PutUint32 (uint32 (Uint32 [a; b; c; d] + 1))).
  { intros l Hl E. by rewrite <-E, PutUint32_Uint32. }
  assert (Hmod : uint32 (Uint32 [a; b; c; d] + 1) =
     if decide (Uint32 [a; b; c; d] = 2 ^ 32 - 1) then 0 else Uint32 [a; b; c; d] + 1).
  { case_decide as E; [by rewrite E|]. apply uint32_id. unfold in_uint32 in *. lia. }
  unfold in_uint32, octet in *.
  simpl. destruct (Hs d Hd) as [[-> ->]|[Ld ->]]; simpl.
  2:{ rewrite (proj2 (Z.eqb_neq (d + 1) 0)) by lia. fin Hput Hmod. }
  destruct (Hs c Hc) as [[-> ->]|[Lc ->]]; simpl.
  2:{ rewrite (proj2 (Z.eqb_neq (c + 1) 0)) by lia. fin Hput Hmod. }
  destruct (Hs b Hb) as [[-> ->]|[Lb ->]]; simpl.
  2:{ rewrite (proj2 (Z.eqb_neq (b + 1) 0)) by lia. fin Hput Hmod. }
  destruct (Hs a Ha) as [[-> ->]|[La ->]]; simpl.
  2:{ rewrite (proj2 (Z.eqb_neq (a + 1) 0)) by lia. fin Hput Hmod. }
  fin Hput Hmod.
Qed.

(** The gateway computed from an address with its prefix: the first host of
    the address's block. *)
Lemma gatewayFromIP_cidr_text bs p : octets4 bs → 0 ≤ p ≤ 32 →
  gatewayFromIP (cidr_text bs p)
  = Ret (string4 (PutUint32 (uint32 (Uint32 bs - Uint32 bs `mod` block_size p + 1)))).
Proof.
  intros Hbs Hp. unfold gatewayFromIP, parseCIDR.
  rewrite ParseCIDR_cidr_text by done.
  pose proof (v4_block_eq bs p Hbs Hp) as Hb. unfold block in Hb. injection Hb as Hb _.
  simpl n_IP in *. simpl n_Mask in *.
  pose proof (zip_land_octets bs (CIDRMask p 4) Hbs eq_refl) as Ho.
  rewrite bool_decide_false by (destruct Ho as [-> _]; lia).
  rewrite inc_bytes_octets by done. rewrite String_IP_4 by apply PutUint32_octets.
  by rewrite Hb.
Qed.

(** The gateway the control plane puts in a start command, recomputed from
    the NIC's stored address, is the gateway the allocator reserved when it
    handed that address out. *)
Theorem gateway_agrees cidr n used alloc gw :
  is_v4_block cidr n →
  NextAvailableIP cidr used = Ret (alloc, gw) →
  gatewayFromIP alloc = Ret gw.
Proof.
  intros Hb E. pose proof (NextAvailableIP_v4 cidr n used Hb) as H. rewrite E in H.
  destruct H as (c & (Hh & _) & -> & ->).
  pose proof (v4_block_bounds _ _ Hb) as (Hp & H0 & H1). unfold host in Hh.
  assert (Hc : in_uint32 c) by (unfold in_uint32; lia).
  rewrite gatewayFromIP_cidr_text by (done || apply PutUint32_octets).
  rewrite Uint32_PutUint32 by done. do 3 f_equal.
  apply is_v4_block_inv in Hb as (bs & p & Hbs & Hp' & ->).
  destruct (v4_block_aligned bs p Hbs Hp') as [Hm _].
  set (n := mkIPNet _ _) in *.
  assert (Hb2 : (block n).2 = p) by (unfold n; by rewrite v4_block_eq).
  rewrite Hb2 in *.
  assert (Hs : 0 < block_size p) by (apply Z.pow_pos_nonneg; lia).
  apply Z.mod_divide in Hm as [q Hq]; [|lia].
  assert (Hmod : c `mod` block_size p = c - (block n).1).
  { symmetry. apply (Z.mod_unique c (block_size p) q); lia. }
  rewrite Hmod. rewrite uint32_id; [lia|]. unfold in_uint32. lia.
Qed.

Lemma gateway_agrees_witness :
  gatewayFromIP "10.0.0.3/29" = Ret "10.0.0.1".
Proof.
  apply (gateway_agrees cidr29 net29 ["10.0.0.2/29"]); [exact cidr29_block|vm_compute; reflexivity].
Defined.

End gateway.

(** * Steps of the abstract state *)

(** Messages were appended, nothing else changed. *)
Definition sent (ms : list (string * json)) (a a' : Abs) : Prop :=
  a' = on_msgs (λ l, l ++ ms) a.

Lemma sent_nil a : sent [] a a.
Proof. destruct a. unfold sent, on_msgs. simpl. by rewrite app_nil_r. Qed.

Lemma sent_app ms ms' a a' a'' : sent ms a a' → sent ms' a' a'' → sent (ms ++ ms') a a''.
Proof. intros -> ->. destruct a. unfold sent, on_msgs. simpl. by rewrite (assoc_L (++)). Qed.

(** The stored machines changed by [f], and some of the messages [ms] were
    sent, in that order. *)
Definition vm_change (f : gmap string VirtualMachine → gmap string VirtualMachine)
    (ms : list (string * json)) (a a' : Abs) : Prop :=
  ∃ ms', ms' `sublist_of` ms ∧ a' = on_msgs (λ l, l ++ ms') (on_vms f a).

Lemma vm_change_refl a : vm_change id [] a a.
Proof. exists []. split; [done|]. destruct a. unfold on_msgs, on_vms. simpl. by rewrite app_nil_r. Qed.

Lemma vm_change_trans f g ms ms' a a' a'' :
  vm_change f ms a a' → vm_change g ms' a' a'' → vm_change (g ∘ f) (ms ++ ms') a a''.
Proof.
  intros (m1 & ? & ->) (m2 & ? & ->). exists (m1 ++ m2).
  split; [by apply sublist_app|]. destruct a. unfold on_msgs, on_vms. simpl. by rewrite (assoc_L (++)).
Qed.

Lemma vm_change_write f a : vm_change f [] a (on_vms f a).
Proof. exists []. split; [done|]. destruct a. unfold on_msgs, on_vms. simpl. by rewrite app_nil_r. Qed.

Lemma vm_change_ext f g ms a a' :
  f (a_vms a) = g (a_vms a) → vm_change f ms a a' → vm_change g ms a a'.
Proof. intros E (m & ? & ->). exists m. split; [done|]. unfold on_vms. by rewrite E. Qed.

Lemma vm_change_vms f ms a a' : vm_change f ms a a' → a_vms a' = f (a_vms a).
Proof. by intros (m & _ & ->). Qed.

Lemma vm_change_not_sent ms a : vm_change (λ m, m) ms a a.
Proof.
  exists []. split; [apply sublist_nil_l|]. destruct a. unfold on_msgs, on_vms. simpl.
  by rewrite app_nil_r.
Qed.

Lemma vm_change_sent m a : vm_change (λ m, m) [m] a (on_msgs (λ l, l ++ [m]) a).
Proof. exists [m]. split; [done|]. by destruct a. Qed.

Section proofs.
Context {W : Type} (abs : W → Abs) (key : string → string) (s : Service W).
Context `{!ServiceLaws abs key s}.

(** ** Shared steps *)
Lemma get_vm_reads id w :
  reads abs (get_vm s id) w (λ vm,
    a_vms (abs w) !! key id = Some (vm_untimed vm) ∧ vm_ID vm = key id).
Proof using Type*.
  eapply wp_bind_reads; [apply reads_wrap, (law_vm_get abs key)| |done].
  intros [vm|] w1 [Hl Hid] E1; [|by apply wp_fail]. apply wp_ret. simpl in *. auto.
Qed.

(** Publishing a VM event sends it or not, and changes nothing else. *)
Lemma emit_vm_event_spec ev id d w :
  wp (emit_vm_event s ev id d) (post
    (λ _ w', vm_change (λ m, m) [("events.vm." +:+ id +:+ "." +:+ ev, d)] (abs w) (abs w'))
    (λ _ _, False)) w.
Proof using Type*.
  unfold emit_vm_event. destruct (publisher s) as [pub|] eqn:Hp;
    [|apply wp_ret, vm_change_not_sent].
  pose proof (sl_publisher _ Hp) as Hl.
  eapply wp_post; [apply wp_ignore, (law_publish_vm abs)| |done].
  intros [] w' [[? E]|[? [E|E]]]; rewrite E; auto using vm_change_not_sent, vm_change_sent.
Qed.

(** The node a command is addressed to: by name if it is known, else by id. *)
Definition addressed (a : Abs) (node x : string) : Prop :=
  x = node ∨ ∃ n, a_nodes a !! key node = Some n ∧ x = node_Name n.

Lemma nodeCommandSubject_peeks node action w :
  peeks abs (nodeCommandSubject s node action) w (λ subj,
    ∃ x, subj = SubjectForNode x action ∧ addressed (abs w) node x).
Proof using Type*.
  eapply wp_bind_peeks; [apply peeks_attempt, (law_node_get abs key)|].
  intros r w1 Hr E1. apply wp_ret. split; [|done].
  destruct r as [[n|]|e].
  - unfold or_default. destruct (String.eqb (node_Name n) ""); [by exists node; split; [|left]|].
    exists (node_Name n). split; [done|]. right. exists (node_untimed n).
    destruct Hr as [Hr _]. split; [by rewrite <-Hr|done].
  - exists node. by split; [|left].
  - exists node. by split; [|left].
Qed.

(** A stop or reboot command: at most that command, to the VM's node. *)
Definition command_msgs (a : Abs) (action id : string) (force : bool) (vm : VirtualMachine)
    (ms : list (string * json)) : Prop :=
  ms = [] ∨ ∃ node x, assigned vm = Some node ∧ addressed a node x ∧
    ms = [(SubjectForNode x action, power_command action id force)].

(** An ignored publish sends the message or nothing. *)
Lemma ignore_publish_spec pub subj d w : publisher s = Some pub →
  wp (ignore (Publish pub subj d)) (post
    (λ _ w', vm_change (λ m, m) [(subj, d)] (abs w) (abs w')) (λ _ _, False)) w.
Proof using Type*.
  intros Hp. pose proof (sl_publisher _ Hp) as Hl.
  eapply wp_post; [apply wp_ignore, (law_publish abs)| |done].
  intros [] w' [[? E]|[? [E|E]]]; rewrite E; auto using vm_change_not_sent, vm_change_sent.
Qed.

Lemma send_command_spec action id force vm w :
  wp (send_command s action id force vm) (post
    (λ _ w', ∃ ms, command_msgs (abs w) action id force vm ms ∧
                   vm_change (λ m, m) ms (abs w) (abs w'))
    (λ _ _, False)) w.
Proof using Type*.
  assert (H0 : ∃ ms, command_msgs (abs w) action id force vm ms ∧
                     vm_change (λ m, m) ms (abs w) (abs w)).
  { exists []. split; [by left|apply vm_change_refl]. }
  unfold send_command. destruct (publisher s) as [pub|] eqn:Hp; [|by apply wp_ret].
  destruct (assigned vm) as [node|] eqn:Ha; [|by apply wp_ret].
  eapply wp_bind_peeks; [apply nodeCommandSubject_peeks|].
  intros subj w1 (x & -> & Hx) E1.
  eapply wp_post; [by apply ignore_publish_spec| |done].
  intros [] w' H. rewrite E1 in H. eexists. split; [|exact H]. right. eauto.
Qed.

(** ** Power off and reboot: two status writes around a command *)
Definition set_status_at (st : VMStatus) (k : string)
    : gmap string VirtualMachine → gmap string VirtualMachine := alter (vm_set_status st) k.

Lemma set_status_twice st st' k m : set_status_at st' k (set_status_at st k m) = set_status_at st' k m.
Proof using.
  unfold set_status_at. rewrite alter_alter_eq. by apply alter_ext.
Qed.

Definition event (ev id : string) (d : json) : string * json := ("events.vm." +:+ id +:+ "." +:+ ev, d).

(** What a two-phase operation leaves behind: everything done, nothing done,
    or stuck between its two status writes. *)
Definition two_phase_done (action ev id : string) (force : bool) (st2 : VMStatus)
    (a : Abs) (old : VirtualMachine) (a' : Abs) : Prop :=
  ∃ ms, command_msgs a action id force old ms ∧
    vm_change (set_status_at st2 (key id)) (ms ++ [event ev id (JObj [("vm_id", JStr id)])]) a a'.

Definition two_phase_stuck (action id : string) (force : bool) (st1 : VMStatus)
    (a : Abs) (old : VirtualMachine) (a' : Abs) : Prop :=
  ∃ ms, command_msgs a action id force old ms ∧ vm_change (set_status_at st1 (key id)) ms a a'.

Lemma two_phase_spec action ev id force vm st1 st2 w :
  wp (_ ← wrap "update status" (VM_UpdateStatus (vmRepo s) id st1);
      _ ← send_command s action id force vm;
      _ ← wrap "update status" (VM_UpdateStatus (vmRepo s) id st2);
      _ ← emit_vm_event s ev id (JObj [("vm_id", JStr id)]);
      mret (vm_set_status st2 vm)) (post
    (λ r w', r = vm_set_status st2 vm ∧ two_phase_done action ev id force st2 (abs w) vm (abs w'))
    (λ _ w', abs w' = abs w ∨ two_phase_stuck action id force st1 (abs w) vm (abs w'))) w.
Proof using Type*.
  eapply wp_bind_writes; [apply writes_wrap, (law_vm_status abs key)| |intros ???; by left].
  intros [] w1 E1. eapply wp_bind_post; [apply send_command_spec| |done].
  intros [] w2 (ms & Hms & H2). rewrite E1 in Hms, H2.
  assert (H12 : vm_change (set_status_at st1 (key id)) ms (abs w) (abs w2)).
  { eapply vm_change_ext; [|apply (vm_change_trans _ _ [] _ _ _ _ (vm_change_write _ _) H2)]. done. }
  eapply wp_bind_writes; [apply writes_wrap, (law_vm_status abs key)| |].
  2:{ intros e w' E. right. rewrite E. by exists ms. }
  intros [] w3 E3. eapply wp_bind_post; [apply emit_vm_event_spec| |done].
  intros [] w4 H4. apply wp_ret. split; [done|]. exists ms. split; [done|].
  rewrite E3 in H4.
  pose proof (vm_change_trans _ _ _ [] _ _ _ H12 (vm_change_write (set_status_at st2 (key id)) _)) as H13.
  rewrite app_nil_r in H13. eapply vm_change_ext; [|apply (vm_change_trans _ _ _ _ _ _ _ H13 H4)].
  simpl. apply set_status_twice.
Qed.

Lemma command_msgs_untimed a action id force vm ms :
  command_msgs a action id force vm ms ↔ command_msgs a action id force (vm_untimed vm) ms.
Proof using. done. Qed.

(** The outcome of a two-phase operation whose guard is [guard]: all done, or
    nothing changed, or the guard held and the machine is left in [st1]. *)
Definition two_phase_post (guard : VMStatus → bool → bool) (action ev id : string) (force : bool)
    (st1 st2 : VMStatus) (w : W) : outcome VirtualMachine → W → Prop :=
  post (λ vm w', ∃ old, a_vms (abs w) !! key id = Some old ∧
          guard (vm_Status old) force = true ∧ vm_untimed vm = vm_set_status st2 old ∧
          two_phase_done action ev id force st2 (abs w) old (abs w'))
       (λ _ w', abs w' = abs w ∨
          ∃ old, a_vms (abs w) !! key id = Some old ∧ guard (vm_Status old) force = true ∧
            two_phase_stuck action id force st1 (abs w) old (abs w')).

Definition power_off_guard (st : VMStatus) (force : bool) : bool :=
  force || bool_decide (st = VMStatusRunning) || bool_decide (st = VMStatusPaused).
Definition reboot_guard (st : VMStatus) (force : bool) : bool :=
  force || bool_decide (st = VMStatusRunning).

Lemma PowerOff_spec id force w :
  wp (PowerOff s id force) (two_phase_post power_off_guard "stop" "stopped" id force
    VMStatusShuttingDown VMStatusStopped w) w.
Proof using Type*.
  eapply wp_bind_reads; [apply get_vm_reads| |by left].
  intros vm w1 [Hl _] E1. unfold two_phase_post. rewrite <-E1 in *.
  destruct (negb _ && negb _ && negb force) eqn:Hg; [apply wp_fail; by left|].
  assert (power_off_guard (vm_Status (vm_untimed vm)) force = true).
  { unfold power_off_guard. simpl. revert Hg. by repeat case_bool_decide; destruct force. }
  eapply wp_post; [apply two_phase_spec| |].
  - intros r w' [-> Hd]. by exists (vm_untimed vm).
  - intros e w' [->|Hst]; [by left|right]. by exists (vm_untimed vm).
Qed.

Lemma Reboot_spec id force w :
  wp (Reboot s id force) (two_phase_post reboot_guard "reboot" "rebooted" id force
    VMStatusRebooting VMStatusRunning w) w.
Proof using Type*.
  eapply wp_bind_reads; [apply get_vm_reads| |by left].
  intros vm w1 [Hl _] E1. unfold two_phase_post. rewrite <-E1 in *.
  destruct (negb _ && negb force) eqn:Hg; [apply wp_fail; by left|].
  assert (reboot_guard (vm_Status (vm_untimed vm)) force = true).
  { unfold reboot_guard. simpl. revert Hg. by repeat case_bool_decide; destruct force. }
  eapply wp_post; [apply two_phase_spec| |].
  - intros r w' [-> Hd]. by exists (vm_untimed vm).
  - intros e w' [->|Hst]; [by left|right]. by exists (vm_untimed vm).
Qed.

(** [PowerOff] succeeds only on a running or paused machine, or when forced;
    then the machine is stored stopped and nothing else of it, nor any other
    machine, changed, and what was published is at most one stop command to
    the machine's node followed by the stopped event.  When it fails either
    nothing changed, or the guard held and the machine was left shutting down.
    It never panics. *)
Theorem power_off_correct id force w :
  wp (PowerOff s id force) (two_phase_post power_off_guard "stop" "stopped" id force
    VMStatusShuttingDown VMStatusStopped w) w.
Proof using Type*. apply PowerOff_spec. Qed.

(** [Reboot] succeeds only on a running machine, or when forced; then the
    machine is stored running, and what was published is at most one reboot
    command to its node followed by the rebooted event.  When it fails either
    nothing changed or the machine was left rebooting. *)
Theorem reboot_correct id force w :
  wp (Reboot s id force) (two_phase_post reboot_guard "reboot" "rebooted" id force
    VMStatusRebooting VMStatusRunning w) w.
Proof using Type*. apply Reboot_spec. Qed.

(** ** Power on *)

(** The addresses the allocator stores: IPv4 text with a prefix length. *)
Definition v4_text (t : string) : Prop :=
  ∃ bs p, octets4 bs ∧ (0 ≤ p ≤ 32)%Z ∧ t = cidr_text bs p.
Definition vm_addresses_v4 (vm : VirtualMachine) : Prop :=
  Forall (λ nic, Forall v4_text (nic_IPv4Addresses nic)) (vm_NetworkInterfaces vm).

Lemma BridgeForNetwork_no_panic n : BridgeForNetwork n ≠ Panic.
Proof using. unfold BridgeForNetwork. by repeat case_match. Qed.

Lemma nic_config_no_panic vmID nic :
  Forall v4_text (nic_IPv4Addresses nic) → nic_config vmID nic ≠ Panic.
Proof using.
  intros Hv. unfold nic_config.
  pose proof (BridgeForNetwork_no_panic (nic_NetworkID nic)).
  assert (Hg : ∀ ip, (nic_IPv4Addresses nic = ip :: drop 1 (nic_IPv4Addresses nic)) →
                ∃ g, gatewayFromIP ip = Ret g).
  { intros ip E. rewrite E in Hv. apply Forall_cons in Hv as [(bs & p & ? & ? & ->) _].
    rewrite gatewayFromIP_cidr_text by done. eauto. }
  destruct (nic_IPv4Addresses nic) as [|ip ips]; simpl.
  - by destruct (BridgeForNetwork _).
  - destruct (Hg ip eq_refl) as [g ->]. destruct (String.eqb ip ""); by destruct (BridgeForNetwork _).
Qed.

Lemma nic_configs_no_panic vmID nics :
  Forall (λ nic, Forall v4_text (nic_IPv4Addresses nic)) nics → nic_configs vmID nics ≠ Panic.
Proof using.
  induction 1 as [|nic nics Hn _ IH]; simpl; [done|].
  pose proof (nic_config_no_panic vmID nic Hn).
  destruct (nic_config vmID nic); [|done|done]. by destruct (nic_configs vmID nics).
Qed.

(** A start command for [vm]: action, id and a configuration, to its node. *)
Definition start_msgs (a : Abs) (vm : VirtualMachine) (ms : list (string * json)) : Prop :=
  ms = [] ∨ ∃ node x sshKey nics, vm_NodeID vm = Some node ∧ addressed a node x ∧
    nic_configs (vm_ID vm) (vm_NetworkInterfaces vm) = Ret nics ∧ nics ≠ [] ∧
    ms = [(SubjectForNode x "start", start_command vm sshKey nics)].

Lemma ssh_key_peeks vm w :
  peeks abs (match vm_SSHKeyID vm, keypairRepo s with
             | Some k, Some repo =>
                 if String.eqb k "" then mret ""
                 else
                   kp ← or_zero None (Keypair_GetByID repo k);
                   mret (match kp with Some kp => kp_PublicKey kp | None => "" end)
             | _, _ => mret ""
             end) w (λ _, True).
Proof using Type*.
  destruct (vm_SSHKeyID vm) as [k|]; [|by apply peeks_ret].
  destruct (keypairRepo s) as [repo|] eqn:Hr; [|by apply peeks_ret].
  pose proof (sl_keypair _ Hr). destruct (String.eqb k ""); [by apply peeks_ret|].
  eapply wp_bind_peeks; [apply peeks_or_zero, (law_keypair_get abs key)|].
  intros kp w1 _ E1. by apply wp_ret.
Qed.

Lemma publishVMStart_spec vm w : vm_addresses_v4 vm → is_Some (vm_NodeID vm) →
  wp (ignore (publishVMStart s vm)) (post
    (λ _ w', ∃ ms, start_msgs (abs w) vm ms ∧ vm_change (λ m, m) ms (abs w) (abs w'))
    (λ _ _, False)) w.
Proof using Type*.
  intros Hv [node Hnode].
  assert (H0 : ∃ ms, start_msgs (abs w) vm ms ∧ vm_change (λ m, m) ms (abs w) (abs w)).
  { exists []. split; [by left|apply vm_change_refl]. }
  eapply wp_post; [apply (wp_ignore (publishVMStart s vm)
     (λ _ w', ∃ ms, start_msgs (abs w) vm ms ∧ vm_change (λ m, m) ms (abs w) (abs w'))
     (λ _ w', ∃ ms, start_msgs (abs w) vm ms ∧ vm_change (λ m, m) ms (abs w) (abs w')))| |done].
  2:{ intros [] w' [[??]|[??]]; done. }
  unfold publishVMStart. destruct (publisher s) as [pub|] eqn:Hp; [|by apply wp_ret].
  apply wp_bind. unfold wp at 1, Puller.lift. simpl.
  pose proof (nic_configs_no_panic (vm_ID vm) _ Hv) as Hnp.
  destruct (nic_configs _ _) as [[|c cs]|e|] eqn:Hcs; [by apply wp_fail| |done|done].
  eapply wp_bind_peeks; [apply ssh_key_peeks|]. intros key' w1 _ E1. rewrite Hnode.
  eapply wp_bind_peeks; [apply nodeCommandSubject_peeks|]. intros subj w2 (x & -> & Hx) E2.
  rewrite E1 in E2, Hx. pose proof (sl_publisher _ Hp) as Hl.
  eapply wp_post; [apply (law_publish abs)| |]; rewrite E2.
  - intros [] w' E. eexists. split; [right; by eauto 12|]. rewrite E. apply vm_change_sent.
  - intros e w' E. eexists. split; [right; by eauto 12|].
    destruct E as [E|E]; rewrite E; [apply vm_change_not_sent|apply vm_change_sent].
Qed.

(** The node queries of this service do not fail. *)
Definition reliable_nodes : Prop := ∀ f w e, (Node_List (nodeRepo s) f w).1 ≠ Err e.

(** A node picked for a machine without one: it exists, and it is online if
    any node is (provided the query for online nodes worked). *)
Definition picked (a : Abs) (n : Node) : Prop :=
  a_nodes a !! node_ID n = Some (node_untimed n) ∧
  (reliable_nodes → (∃ k n', a_nodes a !! k = Some n' ∧ node_Status n' = NodeStatusOnline) →
   node_Status n = NodeStatusOnline).

(** [g] is what scheduling did to the stored machines: the assignment of the
    picked node, or nothing (also when the write of the assignment failed). *)
Inductive scheduled (id : string) (a : Abs) (vm : VirtualMachine) :
  VirtualMachine → (gmap string VirtualMachine → gmap string VirtualMachine) → Prop :=
| sched_kept node : assigned vm = Some node → scheduled id a vm vm (λ m, m)
| sched_picked n : assigned vm = None → picked a n →
    scheduled id a vm (vm_set_node (Some (node_ID n)) vm)
      (alter (vm_set_node (Some (node_ID n))) (key id))
| sched_unsaved n : assigned vm = None → picked a n →
    scheduled id a vm (vm_set_node (Some (node_ID n)) vm) (λ m, m)
| sched_none : assigned vm = None → (reliable_nodes → a_nodes a = ∅) →
    scheduled id a vm vm (λ m, m).

Lemma schedule_node_spec id vm w :
  wp (schedule_node s id vm) (post
    (λ vm' w', ∃ g, scheduled id (abs w) vm vm' g ∧ vm_change g [] (abs w) (abs w'))
    (λ _ _, False)) w.
Proof using Type*.
  unfold schedule_node. destruct (assigned vm) as [node|] eqn:Ha.
  { apply wp_ret. exists (λ m, m). split; [by eapply sched_kept|apply vm_change_refl]. }
  assert (Hassign : ∀ n w1, abs w1 = abs w → picked (abs w) n → key (node_ID n) = node_ID n →
    wp (_ ← ignore (VM_AssignNode (vmRepo s) id (node_ID n));
        mret (vm_set_node (Some (node_ID n)) vm)) (post
    (λ vm' w', ∃ g, scheduled id (abs w) vm vm' g ∧ vm_change g [] (abs w) (abs w'))
    (λ _ _, False)) w1).
  { intros n w1 E1 Hn Hk. eapply wp_bind_ignore_writes; [apply (law_vm_assign abs key)|].
    intros [] w2 H2. apply wp_ret. simpl. rewrite E1, Hk in H2.
    destruct H2 as [E2|E2]; rewrite E2; eexists; (split; [|apply vm_change_write || apply vm_change_refl]).
    - by apply sched_picked.
    - by apply sched_unsaved. }
  eapply wp_bind_peeks; [apply peeks_attempt, (law_node_list abs key)|].
  intros r w1 Hr E1.
  assert (Hfallback : (reliable_nodes → ∀ k n', a_nodes (abs w) !! k = Some n' →
                        node_Status n' ≠ NodeStatusOnline) →
    wp (r ← or_zero ([], 0%Z) (Node_List (nodeRepo s) (mkNodeFilter "" "" 1 1));
        match r.1 with
        | n :: _ => _ ← ignore (VM_AssignNode (vmRepo s) id (node_ID n));
                    mret (vm_set_node (Some (node_ID n)) vm)
        | [] => mret vm
        end) (post
    (λ vm' w', ∃ g, scheduled id (abs w) vm vm' g ∧ vm_change g [] (abs w) (abs w'))
    (λ _ _, False)) w1).
  { intros Hoff. apply wp_bind. unfold wp at 1, or_zero.
    pose proof (law_node_list abs key (mkNodeFilter "" "" 1 1) w1) as Hl. unfold reads, wp in Hl.
    destruct (Node_List _ _ w1) as [[[ns t]|e|] w2] eqn:El; simpl in *; [| |done].
    - destruct Hl as [[Hall Hnil] E2]. rewrite E1 in E2. destruct ns as [|n ns].
      + apply wp_ret. exists (λ m, m). simpl. rewrite E2. split; [|apply vm_change_refl].
        apply sched_none; [done|]. intros _. rewrite <-E1. apply map_eq. intros k.
        rewrite lookup_empty. destruct (a_nodes (abs w1) !! k) eqn:Ek; [|done].
        by destruct (Hnil eq_refl ltac:(done) eq_refl _ _ Ek).
      + apply Forall_cons in Hall as [(Hs & Hk & _) _]. rewrite E1 in Hs.
        apply Hassign; [done| |done]. split; [done|]. intros Hrel (k & n' & Hn' & Hon).
        by destruct (Hoff Hrel k n' Hn').
    - apply wp_ret. exists (λ m, m). simpl. rewrite Hl, E1. split; [|apply vm_change_refl].
      apply sched_none; [done|]. intros Hrel. exfalso. eapply (Hrel _ w1). by rewrite El. }
  destruct r as [[[|n ns] t]|e].
  - apply Hfallback. intros _ k n' Hk.
    destruct Hr as [_ Hnil]. destruct (Hnil eq_refl ltac:(done) eq_refl _ _ Hk) as [_ Hne].
    simpl in Hne. intros E. by rewrite E in Hne.
  - destruct Hr as [Hall _]. apply Forall_cons in Hall as [(Hs & Hk & Hst) _].
    apply Hassign; [done| |done]. split; [done|]. intros _ _.
    apply string_of_NodeStatus_inj. by apply Hst.
  - apply Hfallback. intros Hrel. exfalso. by eapply Hrel.
Qed.

Definition power_on_guard (st : VMStatus) : bool :=
  bool_decide (st = VMStatusStopped) || bool_decide (st = VMStatusPaused)
  || bool_decide (st = VMStatusCreating).

Definition power_on_post (id : string) (w : W) : outcome VirtualMachine → W → Prop :=
  post (λ vm w', ∃ old vm1 g ms, a_vms (abs w) !! key id = Some old ∧
          power_on_guard (vm_Status old) = true ∧ scheduled id (abs w) old vm1 g ∧
          vm_untimed vm = vm_set_status VMStatusRunning vm1 ∧
          start_msgs (abs w) vm ms ∧
          vm_change (set_status_at VMStatusRunning (key id) ∘ g)
            (ms ++ [event "started" id (JObj [("vm_id", JStr id)])]) (abs w) (abs w'))
       (λ _ w', abs w' = abs w ∨
          ∃ old vm1 g, a_vms (abs w) !! key id = Some old ∧
            power_on_guard (vm_Status old) = true ∧ scheduled id (abs w) old vm1 g ∧
            vm_change g [] (abs w) (abs w')).

(** Scheduling looks at a machine, and changes it, regardless of its time
    stamps. *)
Lemma scheduled_untimed id a vm vm1 g :
  scheduled id a vm vm1 g → scheduled id a (vm_untimed vm) (vm_untimed vm1) g.
Proof using.
  destruct 1 as [|n|n|]; [by eapply sched_kept|by apply (sched_picked id a (vm_untimed vm) n)
    |by apply (sched_unsaved id a (vm_untimed vm) n)|by apply sched_none].
Qed.

Lemma scheduled_nics id a vm vm1 g : scheduled id a vm vm1 g →
  vm_NetworkInterfaces vm1 = vm_NetworkInterfaces vm ∧ vm_Status vm1 = vm_Status vm.
Proof using. by destruct 1. Qed.

Lemma PowerOn_spec id w :
  (∀ old, a_vms (abs w) !! key id = Some old → vm_addresses_v4 old) →
  wp (PowerOn s id) (power_on_post id w) w.
Proof using Type*.
  intros Hv4. eapply wp_bind_reads; [apply get_vm_reads| |by left].
  intros vm w1 [Hl _] E1. specialize (Hv4 _ Hl). unfold power_on_post. rewrite <-E1 in *.
  destruct (negb _ && negb _ && negb _) eqn:Hg; [apply wp_fail; by left|].
  assert (Hguard : power_on_guard (vm_Status (vm_untimed vm)) = true).
  { unfold power_on_guard. simpl. revert Hg. by repeat case_bool_decide. }
  eapply wp_bind_post; [apply schedule_node_spec| |done].
  intros vm1 w2 (g & Hs & H2). pose proof (scheduled_untimed _ _ _ _ _ Hs) as Hs'.
  eapply wp_bind_writes; [apply writes_wrap, (law_vm_status abs key)| |].
  2:{ intros e w' E. right. rewrite E. exists (vm_untimed vm), (vm_untimed vm1), g. by split_and!. }
  intros [] w3 E3.
  assert (H3 : vm_change (set_status_at VMStatusRunning (key id) ∘ g) [] (abs w1) (abs w3)).
  { rewrite E3. apply (vm_change_trans _ _ [] [] _ _ _ H2), vm_change_write. }
  set (vm2 := vm_set_status VMStatusRunning vm1).
  assert (Hn : a_nodes (abs w3) = a_nodes (abs w1)) by by destruct H3 as (? & _ & ->).
  eapply (wp_bind_post _ _ _ (λ _ w', ∃ ms, start_msgs (abs w1) vm2 ms ∧
            vm_change (λ m, m) ms (abs w3) (abs w')) (λ _ _, False)); [| |done].
  { assert (H0 : ∃ ms, start_msgs (abs w1) vm2 ms ∧ vm_change (λ m, m) ms (abs w3) (abs w3)).
    { exists []. split; [by left|apply vm_change_refl]. }
    destruct (publisher s); [|by apply wp_ret].
    destruct (assigned vm2) as [node|] eqn:Ha; [|by apply wp_ret].
    eapply wp_post; [apply publishVMStart_spec| |done].
    - unfold vm_addresses_v4, vm2. simpl. by destruct (scheduled_nics _ _ _ _ _ Hs) as [-> _].
    - unfold assigned in Ha. destruct (vm_NodeID vm2); [done|done].
    - intros [] w' (ms & Hms & Hc). exists ms. split; [|done].
      unfold start_msgs, addressed in *. by rewrite Hn in Hms. }
  intros [] w4 (ms & Hms & H4). eapply wp_bind_post; [apply emit_vm_event_spec| |done].
  intros [] w5 H5. apply wp_ret. exists (vm_untimed vm), (vm_untimed vm1), g, ms.
  split_and!; [done|done|done|done|done|].
  pose proof (vm_change_trans _ _ _ _ _ _ _ H3 H4) as H35.
  eapply vm_change_ext; [|apply (vm_change_trans _ _ _ _ _ _ _ H35 H5)]. done.
Qed.

(** C18: [PowerOn] succeeds only on a stopped, paused or new machine.  A machine
    without a node is given one: an online node if there is any (when the node
    queries work), otherwise the first node, and it stays without one only if
    there is none.  The machine is stored running, no other machine changes,
    and what was published is at most one start command for it to its node,
    followed by the started event.  On failure its status has not changed.  It
    does not panic on machines whose addresses the allocator wrote. *)
Theorem power_on_correct id w :
  (∀ old, a_vms (abs w) !! key id = Some old → vm_addresses_v4 old) →
  wp (PowerOn s id) (power_on_post id w) w.
Proof using Type*. apply PowerOn_spec. Qed.

(** ** Deleting *)
Definition deleted (id : string) (a : Abs) : Abs :=
  on_backups (filter (λ kb, bk_VMID kb.2 ≠ key id))
  (on_snaps (filter (λ ks, snap_VMID ks.2 ≠ key id))
  (on_vms (delete (key id)) a)).

Definition delete_post (id : string) (force : bool) (w : W) : outcome () → W → Prop :=
  post (λ _ w', abs w' = deleted id (abs w) ∧
          ∃ old, a_vms (abs w) !! key id = Some old ∧
                 (force = true ∨ vm_Status old = VMStatusStopped))
       (λ _ w', abs w' = abs w).

Lemma DeleteVM_spec id force w : wp (DeleteVM s id force) (delete_post id force w) w.
Proof using Type*.
  eapply wp_bind_reads; [apply get_vm_reads| |done].
  intros vm w1 [Hl _] E1. unfold delete_post. rewrite <-E1 in *.
  destruct (negb force && _) eqn:Hg; [by apply wp_fail|].
  eapply wp_post; [apply writes_wrap, (law_vm_delete abs key)| |done].
  intros [] w2 E2. split; [done|]. exists (vm_untimed vm). split; [done|].
  destruct force; [by left|right]. revert Hg. by case_bool_decide.
Qed.

(** [DeleteVM] succeeds only on a stopped machine, or when forced; it
    removes that machine with its snapshots and backups and nothing else.
    When it fails nothing changes. *)
Theorem delete_vm_correct id force w : wp (DeleteVM s id force) (delete_post id force w) w.
Proof using Type*. apply DeleteVM_spec. Qed.

(** ** Editing *)

(** [get_vm] and [Update] of the machine edited by [f], which keeps its id. *)
Lemma edit_spec (f : VirtualMachine → VirtualMachine) id w :
  (∀ v, vm_ID (f v) = vm_ID v) →
  wp (vm ← get_vm s id; _ ← wrap "update vm" (VM_Update (vmRepo s) (f vm)); mret (f vm)) (post
    (λ r w', ∃ vm, r = f vm ∧ a_vms (abs w) !! key id = Some (vm_untimed vm) ∧
       abs w' = on_vms (alter (vm_set_editable (f vm)) (key id)) (abs w))
    (λ _ w', abs w' = abs w)) w.
Proof using Type*.
  intros Hf. eapply wp_bind_reads; [apply get_vm_reads| |done].
  intros vm w1 [Hl Hid] E1. rewrite <-E1 in *.
  eapply wp_bind_writes; [apply writes_wrap, (law_vm_update abs key)| |done].
  { rewrite Hf, Hid. apply (law_key_idem abs key (R := vmRepo s)). }
  intros [] w2 E2. apply wp_ret. exists vm. by rewrite Hf, Hid in E2.
Qed.

Definition update_vm_post (id : string) (req : UpdateVMRequest) (w : W) : outcome VirtualMachine → W → Prop :=
  post
    (λ vm w', ∃ old, a_vms (abs w) !! key id = Some old ∧
       let new := vm_edit (or_default (ur_Name req) (vm_Name old)) (vm_VCpus old) (vm_MemoryMB old)
                    (or_old (ur_Tags req) (vm_Tags old)) (or_old (ur_Metadata req) (vm_Metadata old))
                    (or_old (ur_Labels req) (vm_Labels old)) old in
       vm_untimed vm = new ∧ abs w' = on_vms <[key id := new]> (abs w))
    (λ _ w', abs w' = abs w).

Lemma UpdateVM_spec id req w : wp (UpdateVM s id req) (update_vm_post id req w) w.
Proof using Type*.
  unfold update_vm_post.
  eapply wp_post; [apply (edit_spec (λ vm, vm_edit (or_default (ur_Name req) (vm_Name vm))
    (vm_VCpus vm) (vm_MemoryMB vm) (or_old (ur_Tags req) (vm_Tags vm))
    (or_old (ur_Metadata req) (vm_Metadata vm)) (or_old (ur_Labels req) (vm_Labels vm)) vm)); done| |done].
  intros r w' (vm & -> & Hl & E). exists (vm_untimed vm). split; [done|].
  split; [done|]. rewrite E. unfold on_vms. f_equal. by rewrite (alter_at _ _ _ _ Hl).
Qed.

(** [UpdateVM] stores the new name, metadata, labels and tags where the
    request gives them, keeps every other attribute (status, size, node, disks
    and interfaces included) and every other machine; on failure nothing
    changes. *)
Theorem update_vm_correct id req w : wp (UpdateVM s id req) (update_vm_post id req w) w.
Proof using Type*. apply UpdateVM_spec. Qed.

Definition resize_post (id : string) (vcpus mem : Z) (w : W) : outcome VirtualMachine → W → Prop :=
  post
    (λ vm w', ∃ old, a_vms (abs w) !! key id = Some old ∧ (1 ≤ vcpus)%Z ∧ (256 ≤ mem)%Z ∧
       let new := vm_edit (vm_Name old) vcpus mem (vm_Tags old) (vm_Metadata old) (vm_Labels old) old in
       vm_untimed vm = new ∧
       vm_change <[key id := new]> [event "resized" id
         (JObj [("memory_mb", JNum mem); ("vcpus", JNum vcpus); ("vm_id", JStr id)])] (abs w) (abs w'))
    (λ _ w', abs w' = abs w).

Lemma Resize_spec id vcpus mem w : wp (Resize s id vcpus mem) (resize_post id vcpus mem w) w.
Proof using Type*.
  unfold resize_post.
  eapply wp_bind_reads; [apply get_vm_reads| |done].
  intros vm w1 [Hl Hid] E1. rewrite <-E1 in *. unfold check_size.
  destruct (Z.ltb_spec vcpus 1); [by apply wp_fail|].
  destruct (Z.ltb_spec mem 256); [by apply wp_fail|].
  apply wp_bind, wp_ret.
  eapply wp_bind_writes; [apply writes_wrap, (law_vm_update abs key)| |done].
  { simpl. rewrite Hid. apply (law_key_idem abs key (R := vmRepo s)). }
  intros [] w2 E2. eapply wp_bind_post; [apply emit_vm_event_spec| |done].
  intros [] w3 H3. apply wp_ret. exists (vm_untimed vm). split_and!; [done|done|done|done|].
  rewrite E2 in H3. simpl in H3. rewrite Hid in H3.
  eapply vm_change_ext; [|apply (vm_change_trans _ _ [] _ _ _ _ (vm_change_write _ _) H3)].
  simpl. by rewrite (alter_at _ _ _ _ Hl).
Qed.

(** [Resize] succeeds only for at least one CPU and 256 MB; then exactly
    the two sizes of that machine change, whatever its status, and at most the
    resized event is published. On failure nothing changes. *)
Theorem resize_correct id vcpus mem w : wp (Resize s id vcpus mem) (resize_post id vcpus mem w) w.
Proof using Type*. apply Resize_spec. Qed.

(** ** Restoring: stop, announce, mark running *)
Lemma restore_spec {A} id ev evid d (k : M W A) Q w :
  (∀ w', vm_change (set_status_at VMStatusRunning (key id)) [event ev evid d] (abs w) (abs w') →
         wp k Q w') →
  (∀ e w', abs w' = abs w ∨
     vm_change (set_status_at VMStatusStopped (key id)) [event ev evid d] (abs w) (abs w') →
     Q (Err e) w') →
  wp (_ ← wrap "stop vm" (VM_UpdateStatus (vmRepo s) id VMStatusStopped);
      _ ← emit_vm_event s ev evid d;
      _ ← wrap "restart vm" (VM_UpdateStatus (vmRepo s) id VMStatusRunning); k) Q w.
Proof using Type*.
  intros Hk He. eapply wp_bind_writes; [apply writes_wrap, (law_vm_status abs key)| |by auto].
  intros [] w1 E1. eapply wp_bind_post; [apply emit_vm_event_spec| |done].
  intros [] w2 H2. rewrite E1 in H2.
  pose proof (vm_change_trans _ _ [] _ _ _ _ (vm_change_write _ _) H2) as H12.
  eapply wp_bind_writes; [apply writes_wrap, (law_vm_status abs key)| |].
  - intros [] w3 E3. apply Hk. rewrite E3.
    pose proof (vm_change_trans _ _ _ [] _ _ _ H12
      (vm_change_write (set_status_at VMStatusRunning (key id)) _)) as H13.
    rewrite app_nil_r in H13. eapply vm_change_ext; [|exact H13]. simpl. apply set_status_twice.
  - intros e w3 E3. apply He. right. by rewrite E3.
Qed.

(** What a restore of machine [k], announced by [m], leaves behind. *)
Definition restored (k : string) (m : string * json) (a a' : Abs) : Prop :=
  is_Some (a_vms a !! k) ∧ vm_change (set_status_at VMStatusRunning k) [m] a a'.
Definition restore_failed (k : string) (m : string * json) (a a' : Abs) : Prop :=
  a' = a ∨ (is_Some (a_vms a !! k) ∧ vm_change (set_status_at VMStatusStopped k) [m] a a').

Definition restore_event (sid k : string) : string * json :=
  event "restoring" k (JObj [("snapshot_id", JStr sid); ("vm_id", JStr k)]).

Definition restore_snapshot_post (sid : string) (w : W) : outcome VirtualMachine → W → Prop :=
  post (λ vm w', ∃ snap, a_snaps (abs w) !! key sid = Some snap ∧
          restored (snap_VMID snap) (restore_event sid (snap_VMID snap)) (abs w) (abs w') ∧
          a_vms (abs w') !! snap_VMID snap = Some (vm_untimed vm))
       (λ _ w', abs w' = abs w ∨ ∃ snap, a_snaps (abs w) !! key sid = Some snap ∧
          restore_failed (snap_VMID snap) (restore_event sid (snap_VMID snap)) (abs w) (abs w')).

Lemma RestoreSnapshot_spec sid w : wp (RestoreSnapshot s sid) (restore_snapshot_post sid w) w.
Proof using Type*.
  unfold restore_snapshot_post.
  eapply wp_bind_reads; [apply reads_wrap, (law_snap_get abs key)| |by left].
  intros [snap|] w1 [Hs Hk] E1; [|apply wp_fail; by left]. simpl in Hs. specialize (Hk _ eq_refl).
  rewrite <-E1 in *. eapply wp_bind_reads; [apply get_vm_reads| |by left].
  intros vm w2 [Hl Hid] E2. rewrite <-E2 in *. rewrite Hk in *. rewrite Hid.
  apply restore_spec; rewrite Hk.
  - intros w3 H3. apply wp_ret. exists (snap_untimed snap). split; [done|]. split; [by split|].
    rewrite (vm_change_vms _ _ _ _ H3). simpl. unfold set_status_at. by rewrite lookup_alter_eq, Hl.
  - intros e w3 [E|H3]; simpl; [by left|right].
    exists (snap_untimed snap). split; [done|]. right. by split.
Qed.

(** [RestoreSnapshot] of a stored snapshot whose machine is stored leaves
    that machine running, whatever its status was, and no other machine
    changed; at most the restoring event is published.  When it fails nothing
    changed, or the machine was left stopped.  It never panics. *)
Theorem restore_snapshot_correct sid w :
  wp (RestoreSnapshot s sid) (restore_snapshot_post sid w) w.
Proof using Type*. apply RestoreSnapshot_spec. Qed.

Definition snapshot_post (vmID name descr : string) (w : W) : outcome Snapshot → W → Prop :=
  post
    (λ snap w', is_Some (a_vms (abs w) !! key vmID) ∧
       snap_VMID snap = vmID ∧ snap_Name snap = name ∧ snap_Status snap = "creating" ∧
       a_snaps (abs w) !! snap_ID snap = None ∧
       a_snaps (abs w') = <[snap_ID snap := snap_stored (key vmID) snap]> (a_snaps (abs w)) ∧
       a_vms (abs w') = a_vms (abs w) ∧ a_backups (abs w') = a_backups (abs w))
    (λ _ w', a_snaps (abs w') = a_snaps (abs w) ∧ a_vms (abs w') = a_vms (abs w)).

Lemma Snapshot_VM_spec vmID name descr w : wp (Snapshot_VM s vmID name descr) (snapshot_post vmID name descr w) w.
Proof using Type*.
  unfold snapshot_post.
  eapply wp_bind_reads; [apply get_vm_reads| |by intros e w' E; simpl; rewrite E].
  intros vm w1 [Hl _] E1. rewrite <-E1 in *.
  eapply wp_bind_post; [apply (law_uuid abs key)| |done].
  intros id w2 (Hf & Hk & _ & E2).
  eapply wp_bind_post; [apply wp_wrap, (law_snap_create abs key); exact Hk| |].
  2:{ intros e w3 (? & _ & E3). simpl. by rewrite E3, E2. }
  intros [] w3 (E3 & Hn & _). eapply wp_bind_post; [apply emit_vm_event_spec| |done].
  intros [] w4 (ms & _ & E4). apply wp_ret. rewrite E2 in E3, Hn. rewrite E3 in E4. simpl. rewrite E4.
  by split_and!.
Qed.

(** [Snapshot] of a stored machine records a snapshot of it in status
    "creating" under a new id and changes no machine; on failure no snapshot
    is recorded. *)
Theorem snapshot_correct vmID name descr w : wp (Snapshot_VM s vmID name descr) (snapshot_post vmID name descr w) w.
Proof using Type*. apply Snapshot_VM_spec. Qed.

End proofs.
