(* ===== verification/CreateVM.v ===== *)
(** Correctness of [CreateVM] and [Clone]: a machine they return is well formed
    and stored as it is returned, under a new id, with no other machine
    touched; when they fail no machine was stored.  The preparation (flavor,
    keypair, images, addresses) only touches images and downloads. *)
From stdpp Require Import base gmap strings list numbers pretty.
From S2P Require Import Prelude.
From S2P Require Import GoStd.
From S2P Require Import Ipam.
From S2P Require Import Domain.
From S2P Require Import GoJson.
From S2P Require Import Interfaces.
From S2P Require Import Catalog.
From S2P Require Import Puller.
From S2P Require Import ControlPlane.
From S2P Require Import VMService.
From stdpp Require Import options.

(** * Preparation steps: images and issued ids may change, nothing else *)
Section prepares.
Context {W : Type} (abs : W → Abs).

Definition prepares {A} (m : M W A) (w : W) (Q : A → Prop) : Prop :=
  wp m (post (λ a w', Q a ∧ image_step (abs w) (abs w')) (λ _ w', image_step (abs w) (abs w'))) w.

Lemma prepares_ret {A} (a : A) w (Q : A → Prop) : Q a → prepares (mret a) w Q.
Proof. intros ?. by apply wp_ret. Qed.

Lemma prepares_fail {A} e w (Q : A → Prop) : prepares (fail e) w Q.
Proof. by apply wp_fail. Qed.

Lemma prepares_mono {A} (m : M W A) w (Q Q' : A → Prop) :
  prepares m w Q → (∀ a, Q a → Q' a) → prepares m w Q'.
Proof. intros H HQ. eapply wp_post; [exact H| |done]. intros ?? []; auto. Qed.

Lemma prepares_reads {A} (m : M W A) w Q : reads abs m w Q → prepares m w Q.
Proof.
  intros H. eapply wp_post; [exact H| |]; [intros a w' [? ->]|intros e w' ->]; done.
Qed.

Lemma prepares_peeks {A} (m : M W A) w Q : peeks abs m w Q → prepares m w Q.
Proof. intros H. eapply wp_post; [exact H| |done]. intros a w' [? ->]. done. Qed.

Lemma prepares_bind {A B} (m : M W A) (k : A → M W B) w QA Q :
  prepares m w QA → (∀ a w', QA a → prepares (k a) w' Q) → prepares (m ≫= k) w Q.
Proof.
  intros H Hk. eapply wp_bind_post; [exact H| |done]. intros a w' [Ha Hs].
  eapply wp_post; [by apply Hk| |].
  - intros b w'' [? ?]. split; [done|by etrans].
  - intros e w'' ?. by etrans.
Qed.

Lemma prepares_wrap {A} c (m : M W A) w Q : prepares m w Q → prepares (wrap c m) w Q.
Proof. intros H. eapply wp_post; [by apply wp_wrap|done|]. by intros e w' (? & _ & ?). Qed.

Lemma prepares_attempt {A} (m : M W A) w Q : prepares m w Q →
  prepares (attempt m) w (λ r, match r with inl a => Q a | inr _ => True end).
Proof.
  intros H. eapply wp_post; [by apply wp_attempt| |done]. intros [a|e] w'; simpl; tauto.
Qed.

Lemma prepares_or_zero {A} d (m : M W A) w Q : prepares m w Q →
  prepares (or_zero d m) w (λ a, Q a ∨ a = d).
Proof.
  intros H. eapply wp_post; [by apply wp_or_zero| |done]. intros a w' [[??]|[-> [? ?]]]; auto.
Qed.

Lemma prepares_imapM {A B} (f : nat → A → M W B) (P : nat → A → B → Prop) l :
  (∀ i x w, prepares (f i x) w (P i x)) →
  ∀ i w, prepares (imapM f i l) w (λ bs, length bs = length l ∧
           ∀ k x b, l !! k = Some x → bs !! k = Some b → P (i + k)%nat x b).
Proof.
  intros Hf i w. eapply wp_post.
  - apply (wp_imapM f P (λ w', image_step (abs w) (abs w')) (λ _ w', image_step (abs w) (abs w'))); [|done].
    intros j x w1 H1. eapply wp_post; [apply Hf| |].
    + intros b w2 [? ?]. split; [done|by etrans].
    + intros e w2 ?. by etrans.
  - intros bs w' (? & ? & ?). done.
  - done.
Qed.

Context (key : string → string) (E : Env W) `{!EnvLaws abs key E}.

Lemma prepares_uuid w : prepares (new_uuid E) w (λ id, fresh_id id (abs w) ∧ key id = id ∧ id ≠ "").
Proof using Type*.
  eapply wp_post; [apply (law_uuid abs key)| |done].
  intros id w' (? & ? & ? & Eq). rewrite Eq. split; [done|apply image_step_ids].
Qed.

End prepares.

(** * The shape of a created machine *)
Definition nic_shape (n : NetworkInterface) : string * string * string * bool :=
  (nic_ID n, nic_Name n, nic_NetworkID n, nic_IsPrimary n).

(** One boot disk, the first; disks in order, none empty; interfaces named in
    order, one of them primary; and the minimal sizes. *)
Record vm_wf (vm : VirtualMachine) : Prop := {
  wf_name : vm_Name vm ≠ "";
  wf_status : vm_Status vm = VMStatusCreating;
  wf_vcpus : (1 ≤ vm_VCpus vm)%Z;
  wf_memory : (256 ≤ vm_MemoryMB vm)%Z;
  wf_has_disk : vm_Disks vm ≠ [];
  wf_disks : ∀ i d, vm_Disks vm !! i = Some d →
    disk_Boot d = bool_decide (i = 0) ∧ disk_Order d = int32 (Z.of_nat i) ∧
    disk_SizeBytes d ≠ 0%Z ∧ disk_Type d ≠ "" ∧ disk_StoragePool d ≠ "" ∧ disk_Name d ≠ "";
  wf_has_primary : ∃ n, n ∈ vm_NetworkInterfaces vm ∧ nic_IsPrimary n = true;
  wf_nics : ∀ i n, vm_NetworkInterfaces vm !! i = Some n → nic_Name n = "eth" +:+ pretty (N.of_nat i);
}.

(** Its disks are in the order of their numbers. *)
Lemma wf_in_order vm : vm_wf vm → (Z.of_nat (length (vm_Disks vm)) ≤ 2 ^ 31)%Z →
  vm_in_order vm = vm.
Proof.
  intros Hwf Hlen. unfold vm_in_order. rewrite sort_by_sorted; [by destruct vm|].
  intros i j x y Hij Hx Hy. apply Z.ltb_ge.
  destruct (wf_disks _ Hwf _ _ Hx) as (_ & -> & _), (wf_disks _ Hwf _ _ Hy) as (_ & -> & _).
  apply lookup_lt_Some in Hx, Hy. rewrite !int32_id by (unfold in_int32; lia). lia.
Qed.

(** It only depends on the shape of the interfaces. *)
Lemma vm_wf_nics vm nics : nic_shape <$> nics = nic_shape <$> vm_NetworkInterfaces vm →
  vm_wf vm → vm_wf (vm_set_related (vm_Disks vm) nics vm).
Proof.
  intros Hs [? ? ? ? ? ? (n & Hn & Hp) Hnames].
  assert (Hl : ∀ i n, nics !! i = Some n → ∃ n', vm_NetworkInterfaces vm !! i = Some n' ∧
             nic_shape n = nic_shape n').
  { intros i n' Hi. pose proof (f_equal (.!! i) Hs) as H. rewrite !list_lookup_fmap, Hi in H.
    simpl in H. destruct (vm_NetworkInterfaces vm !! i) as [n''|]; [|done].
    exists n''. split; [done|]. by apply (inj Some) in H. }
  split; try done.
  - apply list_elem_of_lookup in Hn as [i Hi].
    pose proof (f_equal (.!! i) Hs) as H. rewrite !list_lookup_fmap, Hi in H. simpl in H.
    destruct (nics !! i) as [n'|] eqn:En; [|done]. simpl. exists n'.
    split; [by eapply list_elem_of_lookup_2|]. unfold nic_shape in H. simpl in H. congruence.
  - intros i n' Hi. apply Hl in Hi as (n'' & Hi & E). unfold nic_shape in E.
    injection E as _ -> _ _. by apply Hnames.
Qed.

Section proofs.
Context {W : Type} (abs : W → Abs) (key : string → string) (s : Service W).
Context `{!ServiceLaws abs key s}.

Lemma make_uuid w : prepares abs (new_uuid (env s)) w (λ id, fresh_id id (abs w) ∧ key id = id ∧ id ≠ "").
Proof using Type*. apply (prepares_uuid abs key), _. Qed.

(** ** Flavor, keypair, size *)
Lemma resolve_flavor_prepares req w :
  prepares abs (resolve_flavor s req) w (λ req', cr_Name req' = cr_Name req).
Proof using Type*.
  unfold resolve_flavor. destruct (_ || _); [|by apply prepares_ret].
  destruct (flavorRepo s) as [repo|] eqn:Hr.
  - pose proof (sl_flavor _ Hr). eapply (prepares_bind _ _ _ _ (λ _, True)).
    + apply prepares_wrap. destruct (negb _); eapply prepares_mono;
        try (apply prepares_reads, (law_flavor_get abs key)); try done.
      apply prepares_reads, (law_flavor_name abs key).
    + intros [fl|] w1 _; [by apply prepares_ret|apply prepares_fail].
  - destruct (_ || _); [apply prepares_fail|by apply prepares_ret].
Qed.

Lemma resolve_keypair_prepares req w :
  prepares abs (resolve_keypair s req) w (λ req', cr_Name req' = cr_Name req).
Proof using Type*.
  unfold resolve_keypair. destruct (_ && _); [|by apply prepares_ret].
  destruct (keypairRepo s) as [repo|] eqn:Hr; [|by apply prepares_ret].
  pose proof (sl_keypair _ Hr). eapply prepares_bind.
  - apply prepares_peeks, peeks_or_zero, (law_keypair_name abs key).
  - intros [kp|] w1 _; by apply prepares_ret.
Qed.

Lemma check_size_prepares vcpus mem w :
  prepares abs (check_size vcpus mem) w (λ _, (1 ≤ vcpus)%Z ∧ (256 ≤ mem)%Z).
Proof using.
  unfold check_size. destruct (Z.ltb_spec vcpus 1); [apply prepares_fail|].
  destruct (Z.ltb_spec mem 256); [apply prepares_fail|by apply prepares_ret].
Qed.

(** ** Disks *)
Lemma pull_prepares {A} (P : A → Prop) (m : M W A) w rc img :
  wp m (post (λ a w', P a ∧ pull_result rc (abs w) (img a) (abs w'))
             (λ _ w', pull_failure (abs w) (abs w'))) w →
  prepares abs m w P.
Proof using.
  intros H. eapply wp_post; [exact H| |].
  - intros a w' [? [? _]]. done.
  - intros e w' [? _]. done.
Qed.

Lemma resolve_prepares p ref w : puller s = Some p →
  prepares abs (ResolveAndEnsureImage p ref) w (λ _, True).
Proof using Type*.
  intros Hp. destruct (sl_puller _ Hp).
  eapply (pull_prepares _ _ _ (λ _, True) (λ i, i)), wp_post; [by apply (ResolveAndEnsureImage_spec abs key)|by auto|done].
Qed.

Lemma pull_official_prepares os v arch w :
  prepares abs (svc_PullOfficialImage s os v arch) w (λ _, True).
Proof using Type*.
  unfold svc_PullOfficialImage. destruct (puller s) as [p|] eqn:Hp; [|apply prepares_fail].
  destruct (sl_puller _ Hp).
  eapply (pull_prepares _ _ _ (λ b, b = true) (λ i, i)), wp_post; [by apply (PullOfficialImage_spec abs key)|by auto|done].
Qed.

Lemma disk_image_prepares d w : prepares abs (disk_image s d) w (λ _, True).
Proof using Type*.
  unfold disk_image. destruct (String.eqb _ _ && _).
  - destruct (puller s) as [p|] eqn:Hp.
    + eapply prepares_bind; [by apply prepares_attempt, resolve_prepares|].
      intros [img|err] w1 _; [by apply prepares_ret|].
      eapply (prepares_bind _ _ _ _ (λ _, True)).
      * destruct (ResolveImageAlias _); try by apply prepares_ret.
        eapply prepares_bind; [by apply prepares_attempt, pull_official_prepares|].
        intros r w2 _. by apply prepares_ret.
      * intros id w2 _. destruct (String.eqb id ""); [apply prepares_fail|by apply prepares_ret].
    + eapply prepares_bind; [apply prepares_peeks, peeks_or_zero, (law_image_name abs key)|].
      intros [img|] w1 _; [by apply prepares_ret|].
      destruct (ResolveImageAlias _); apply prepares_fail.
  - destruct (negb _); [|by apply prepares_ret].
    destruct (puller s) as [p|] eqn:Hp.
    + eapply prepares_bind; [by apply prepares_attempt, resolve_prepares|].
      intros [img|err] w1 _; [by apply prepares_ret|apply prepares_fail].
    + eapply prepares_bind; [apply prepares_peeks, peeks_or_zero, (law_image_get abs key)|].
      intros [img|] w1 _; [by apply prepares_ret|apply prepares_fail].
Qed.

Definition disk_ok (i : nat) (d : Disk) : Prop :=
  disk_Boot d = bool_decide (i = 0) ∧ disk_Order d = int32 (Z.of_nat i) ∧
  disk_SizeBytes d ≠ 0%Z ∧ disk_Type d ≠ "" ∧ disk_StoragePool d ≠ "" ∧ disk_Name d ≠ "".

Lemma disk_name_ne i n : disk_name i n ≠ "".
Proof using.
  unfold disk_name. destruct (String.eqb_spec n ""); [|done]. by case_bool_decide.
Qed.

Lemma or_default_ne n d : d ≠ "" → or_default n d ≠ "".
Proof using. unfold or_default. by destruct (String.eqb_spec n ""). Qed.

Lemma make_disk_prepares i d w : prepares abs (make_disk s i d) w (disk_ok i).
Proof using Type*.
  eapply prepares_bind; [apply disk_image_prepares|]. intros [img size] w1 _.
  eapply prepares_bind; [apply make_uuid|]. intros id w2 _. apply prepares_ret.
  split_and!; simpl; [done|done| |by apply or_default_ne..|by apply disk_name_ne].
  by destruct (Z.eqb_spec size 0).
Qed.

Lemma make_disks_prepares reqs w :
  prepares abs (make_disks s reqs) w (λ ds, ds ≠ [] ∧ ∀ i d, ds !! i = Some d → disk_ok i d).
Proof using Type*.
  unfold make_disks. destruct reqs as [|r reqs].
  - eapply prepares_bind; [apply make_uuid|]. intros id w1 _. apply prepares_ret. split; [done|].
    intros [|i] d Hi; simpl in Hi; simplify_eq. by split_and!.
  - eapply prepares_mono; [apply (prepares_imapM abs _ (λ i _ d, disk_ok i d))|].
    + intros i x w1. apply make_disk_prepares.
    + intros ds [Hlen Hall]. split; [by destruct ds|]. intros i d Hi.
      destruct (lookup_lt_is_Some_2 (r :: reqs) i) as [x Hx].
      { rewrite <-Hlen. by eapply lookup_lt_Some. }
      by apply (Hall i x d).
Qed.

(** ** Interfaces *)
Lemma allocate_first_prepares c net w : prepares abs (allocate_first s c net) w (λ _, True).
Proof using Type*.
  unfold allocate_first. destruct (ipam s) as [a|] eqn:Ha; [|by apply prepares_ret].
  pose proof (sl_ipam _ Ha). destruct (String.eqb net ""); [by apply prepares_ret|].
  eapply prepares_bind; [apply prepares_wrap, prepares_reads, (law_ipam_allocate abs)|].
  intros r w1 _. by apply prepares_ret.
Qed.

Lemma default_network_prepares org w : prepares abs (default_network s org) w (λ _, True).
Proof using Type*.
  unfold default_network. destruct (ipam s) as [a|] eqn:Ha; [|by apply prepares_ret].
  pose proof (sl_ipam _ Ha).
  eapply prepares_bind; [apply prepares_wrap, prepares_reads, (law_ipam_default abs)|].
  intros r w1 _. by apply prepares_ret.
Qed.

Lemma make_nic_prepares vmID org reqs i r w :
  prepares abs (make_nic s vmID org reqs i r) w (λ n,
    nic_Name n = "eth" +:+ pretty (N.of_nat i) ∧
    nic_IsPrimary n = nr_IsPrimary r || (bool_decide (i = 0) && negb (hasPrimary reqs))).
Proof using Type*.
  eapply (prepares_bind _ _ _ _ (λ _, True)).
  { destruct (String.eqb _ ""); [apply default_network_prepares|by apply prepares_ret]. }
  intros net w1 _. eapply prepares_bind; [apply make_uuid|]. intros id w2 _.
  eapply prepares_bind; [apply allocate_first_prepares|]. intros ips w3 _.
  by apply prepares_ret.
Qed.

Definition nics_ok (nics : list NetworkInterface) : Prop :=
  (∃ n, n ∈ nics ∧ nic_IsPrimary n = true) ∧
  ∀ i n, nics !! i = Some n → nic_Name n = "eth" +:+ pretty (N.of_nat i).

Lemma hasPrimary_lookup reqs : hasPrimary reqs = true →
  ∃ i r, reqs !! i = Some r ∧ nr_IsPrimary r = true.
Proof using.
  intros (r & Hin & Hr)%existsb_exists. apply list_elem_of_In, list_elem_of_lookup in Hin as [i Hi].
  eauto.
Qed.

Lemma make_nics_prepares vmID org reqs w : prepares abs (make_nics s vmID org reqs) w nics_ok.
Proof using Type*.
  unfold make_nics. destruct reqs as [|r0 reqs].
  - eapply prepares_bind; [apply default_network_prepares|]. intros net w1 _.
    eapply prepares_bind; [apply make_uuid|]. intros id w2 _.
    eapply prepares_bind; [apply allocate_first_prepares|]. intros ips w3 _.
    apply prepares_ret. split.
    + eexists. split; [left|done].
    + intros [|i] n Hi; simpl in Hi; by simplify_eq.
  - set (rs := r0 :: reqs).
    eapply prepares_mono; [apply (prepares_imapM abs _ (λ i r n,
      nic_Name n = "eth" +:+ pretty (N.of_nat i) ∧
      nic_IsPrimary n = nr_IsPrimary r || (bool_decide (i = 0) && negb (hasPrimary rs))))|].
    + intros i r w1. apply make_nic_prepares.
    + intros ns [Hlen Hall]. simpl in Hall.
      assert (Hlk : ∀ i r, rs !! i = Some r → ∃ n, ns !! i = Some n ∧
                 nic_IsPrimary n = nr_IsPrimary r || (bool_decide (i = 0) && negb (hasPrimary rs))).
      { intros i r Hi. destruct (lookup_lt_is_Some_2 ns i) as [n Hn].
        { rewrite Hlen. by eapply lookup_lt_Some. }
        exists n. split; [done|]. by apply (Hall i r n). }
      split.
      * destruct (hasPrimary rs) eqn:Hp.
        -- apply hasPrimary_lookup in Hp as (i & r & Hi & Hr).
           apply Hlk in Hi as (n & Hn & Hpr). exists n. rewrite Hpr, Hr.
           split; [by eapply list_elem_of_lookup_2|done].
        -- destruct (Hlk 0 r0 eq_refl) as (n & Hn & Hpr). exists n. rewrite Hpr.
           split; [by eapply list_elem_of_lookup_2|]. simpl. by rewrite orb_true_r.
      * intros i n Hi. destruct (lookup_lt_is_Some_2 rs i) as [r Hr].
        { rewrite <-Hlen. by eapply lookup_lt_Some. }
        by apply (Hall i r n).
Qed.

(** ** Storing *)
Lemma realloc_nic_prepares vmID suffix nic w :
  prepares abs (realloc_nic s vmID suffix nic) w (λ n, nic_shape n = nic_shape nic).
Proof using Type*.
  unfold realloc_nic. destruct (ipam s) as [a|] eqn:Ha; [|by apply prepares_ret].
  pose proof (sl_ipam _ Ha). destruct (String.eqb _ ""); [by apply prepares_ret|].
  eapply prepares_bind; [apply prepares_attempt, prepares_reads, (law_ipam_allocate abs)|].
  intros r w1 _. by apply prepares_ret.
Qed.

(** Pointwise equal shapes are equal lists of shapes. *)
Lemma shapes_eq (nics nics' : list NetworkInterface) :
  length nics' = length nics →
  (∀ k x y, nics !! k = Some x → nics' !! k = Some y → nic_shape y = nic_shape x) →
  nic_shape <$> nics' = nic_shape <$> nics.
Proof using.
  intros Hlen Hall. apply list_eq. intros i. rewrite !list_lookup_fmap.
  destruct (nics !! i) as [x|] eqn:Ex, (nics' !! i) as [y|] eqn:Ey; simpl; [|exfalso..|done].
  - f_equal. by eapply Hall.
  - apply lookup_lt_Some in Ex. apply lookup_ge_None in Ey. lia.
  - apply lookup_lt_Some in Ey. apply lookup_ge_None in Ex. lia.
Qed.

Lemma reallocs_prepares (f : NetworkInterface → M W NetworkInterface) nics w :
  (∀ n w', prepares abs (f n) w' (λ n', nic_shape n' = nic_shape n)) →
  prepares abs (imapM (λ _, f) 0 nics) w (λ ns, nic_shape <$> ns = nic_shape <$> nics).
Proof using.
  intros Hf. eapply prepares_mono;
    [apply (prepares_imapM abs (λ _, f) (λ _ n n', nic_shape n' = nic_shape n)); by intros|].
  intros ns [Hlen Hall]. by apply shapes_eq.
Qed.

(** The machine [vm] has been stored, under its new id, and nothing else. *)
Definition stored_new (vm : VirtualMachine) (a a' : Abs) : Prop :=
  ∃ vm', vm_core key vm' = vm_core key (vm_in_order vm) ∧ a_vms a !! vm_ID vm = None ∧
    a_vms a' = <[vm_ID vm := vm']> (a_vms a) ∧
    image_step (on_vms <[vm_ID vm := vm']> a) a'.

Lemma stored_new_step vm a a1 a' : image_step a a1 → stored_new vm a1 a' → stored_new vm a a'.
Proof using.
  intros Hs (vm' & ? & Hn & Ha & Hst). pose proof Hs as ((Hv & Hf) & Hg & Hu).
  exists vm'. rewrite Hv in *. split_and!; [done|done|done|].
  etrans; [|exact Hst]. split_and!.
  - repeat split; simpl; try apply Hf. by rewrite Hv.
  - exact Hg.
  - exact Hu.
Qed.

Lemma create_loop_spec fuel att vm w :
  (fuel + att = 3)%nat → (0 < fuel)%nat → key (vm_ID vm) = vm_ID vm →
  wp (create_loop s fuel att vm) (post
    (λ r w', stored_new r (abs w) (abs w') ∧
             ∃ nics, r = vm_set_related (vm_Disks vm) nics vm ∧
                     nic_shape <$> nics = nic_shape <$> vm_NetworkInterfaces vm)
    (λ _ w', image_step (abs w) (abs w'))) w.
Proof using Type*.
  revert att vm w. induction fuel as [|fuel IH]; intros att vm w Hsum Hpos Hk; [lia|]. simpl.
  eapply wp_bind_post; [apply wp_attempt, (law_vm_create abs key); done| |done].
  intros [[]|err] w1 H1.
  - destruct H1 as (vm' & Hc & _ & E1 & Hn). apply wp_ret. split.
    + exists vm'. rewrite E1. by split_and!.
    + exists (vm_NetworkInterfaces vm). split; [by destruct vm|done].
  - rewrite <-H1. destruct (isUniqueViolation err); [|by apply wp_fail].
    eapply wp_bind_post; [apply reallocs_prepares; intros; apply realloc_nic_prepares| |done].
    intros nics w2 [Hsh Hst]. case_bool_decide; [by apply wp_fail|].
    eapply wp_post; [apply (IH (S att)); [lia|lia|done]| |].
    + intros r w' (Hs & nics' & -> & Hsh'). split; [by eapply stored_new_step|].
      exists nics'. split; [done|]. simpl in Hsh'. congruence.
    + intros e w' ?. by etrans.
Qed.

(** A failure after preparation steps is a preparation step. *)
Ltac chain := intros ???; eapply (transitivity (R := image_step)); eassumption.

(** The whole effect of a creation: the machine and perhaps the event. *)
Definition created (vm : VirtualMachine) (m : string * json) (a a' : Abs) : Prop :=
  (∃ vm', vm_core key vm' = vm_core key (vm_in_order vm) ∧ a_vms a !! vm_ID vm = None ∧
          a_vms a' = <[vm_ID vm := vm']> (a_vms a)) ∧
  a_nodes a' = a_nodes a ∧ a_snaps a' = a_snaps a ∧ a_backups a' = a_backups a ∧
  a_flavors a' = a_flavors a ∧ a_keypairs a' = a_keypairs a ∧ images_grow a a' ∧
  (a_msgs a' = a_msgs a ∨ a_msgs a' = a_msgs a ++ [m]).

(** A failed one: images may have been added or updated and downloads begun,
    nothing else of what the interfaces show. *)
Definition not_created (a a' : Abs) : Prop := image_step a a'.

Lemma stored_then_event vm ev d a a1 a' :
  stored_new vm a a1 → vm_change (λ m, m) [event ev (vm_ID vm) d] a1 a' →
  created vm (event ev (vm_ID vm) d) a a'.
Proof using.
  intros (vm' & Hc & Hn & Ha & Hst) (ms & Hms & ->).
  destruct Hst as ((_ & Hnodes & Hsnaps & Hbk & Hfl & Hkp & Hmsg) & Hg & _).
  split; [by exists vm'|].
  do 5 (split; [done|]). split; [intros k i Hi; by apply Hg|].
  simpl in *. rewrite Hmsg. apply sublist_cons_r in Hms as [Hms|(ms' & -> & Hms)].
  - apply sublist_nil_r in Hms as ->. left. by rewrite app_nil_r.
  - apply sublist_nil_r in Hms as ->. by right.
Qed.

Definition create_vm_post (req : CreateVMRequest) (w : W) : outcome VirtualMachine → W → Prop :=
  post
    (λ vm w', vm_wf vm ∧ vm_Name vm = cr_Name req ∧
       ((Z.of_nat (length (vm_Disks vm)) ≤ 2 ^ 31)%Z → vm_in_order vm = vm) ∧
       created vm (event "created" (vm_ID vm)
         (JObj [("status", JStr "creating"); ("vm_id", JStr (vm_ID vm))])) (abs w) (abs w'))
    (λ _ w', not_created (abs w) (abs w')).

Lemma CreateVM_spec req w : wp (CreateVM s req) (create_vm_post req w) w.
Proof using Type*.
  unfold create_vm_post.
  unfold CreateVM. destruct (String.eqb_spec (cr_Name req) "") as [|Hname]; [by apply wp_fail|].
  eapply wp_bind_post; [apply resolve_flavor_prepares| |done]. intros req1 w1 [Hn1 S1].
  eapply wp_bind_post; [apply resolve_keypair_prepares| |chain].
  intros req2 w2 [Hn2 S2]. assert (S12 : image_step (abs w) (abs w2)) by by etrans.
  eapply wp_bind_post; [apply check_size_prepares| |chain].
  intros [] w3 [[Hcpu Hmem] S3]. assert (S13 : image_step (abs w) (abs w3)) by by etrans.
  eapply wp_bind_post; [apply make_uuid| |chain].
  intros id w4 [(_ & Hk & _) S4]. assert (S14 : image_step (abs w) (abs w4)) by by etrans.
  eapply wp_bind_post; [apply make_disks_prepares| |chain].
  intros disks w5 [[Hd0 Hd] S5]. assert (S15 : image_step (abs w) (abs w5)) by by etrans.
  eapply wp_bind_post; [apply make_nics_prepares| |chain].
  intros nics w6 [[Hprim Hnames] S6]. assert (S16 : image_step (abs w) (abs w6)) by by etrans.
  set (vm := mkVM _ _ _ _ _ _ _ _ _ _ _ _ _ _ _ _ _ _ _ _ _ _).
  assert (Hwf : vm_wf vm).
  { split; try done. simpl. congruence. }
  eapply wp_bind_post; [apply (create_loop_spec 3 0 vm); [lia|lia|done]| |chain].
  intros vm1 w7 (Hst & nics1 & -> & Hsh).
  eapply wp_bind_post; [apply (emit_vm_event_spec abs key s)| |done].
  intros [] w8 H8. assert (Hwf1 := vm_wf_nics vm _ Hsh Hwf).
  apply wp_ret. split_and!; [done|simpl; congruence|by apply wf_in_order|].
  eapply stored_then_event; [by eapply stored_new_step|exact H8].
Qed.

(** C16: [CreateVM] never panics.  A machine it returns is well formed (named,
    with at least one CPU and 256 MB, its first disk and only it the boot disk,
    disks numbered in order and of non-zero size, interfaces named in order
    with a primary one), has the requested name, and is stored as it is
    returned (its disks by number; addresses of interfaces are left to the
    repository) under an id that was not in use.  When it fails no machine is
    stored, changed or announced.  Either way no other
    machine and no node, snapshot, backup, flavor or SSH key changes, no stored
    image is lost, and no message but the event of the creation, after success, is
    published.  What else may change: rows of images may be added or updated and
    downloads begun for a disk that names an image, and a default network and
    subnet may be inserted. *)
Theorem create_vm_correct req w : wp (CreateVM s req) (create_vm_post req w) w.
Proof using Type*. apply CreateVM_spec. Qed.

(** ** Clones *)
Lemma clone_disk_prepares i d w :
  prepares abs (clone_disk s i d) w (λ d', d' =
    mkDisk (disk_ID d') (disk_Name d) (disk_SizeBytes d) (disk_Type d) (disk_StoragePool d) ""
      (disk_Boot d) (disk_Order d)).
Proof using Type*.
  eapply prepares_bind; [apply make_uuid|]. intros id w1 _. by apply prepares_ret.
Qed.

Lemma clone_nic_prepares vmID i n w :
  prepares abs (clone_nic s vmID i n) w (λ n',
    nic_Name n' = "eth" +:+ pretty (N.of_nat i) ∧ nic_NetworkID n' = nic_NetworkID n ∧
    nic_IsPrimary n' = nic_IsPrimary n).
Proof using Type*.
  eapply prepares_bind; [apply make_uuid|]. intros id w1 _.
  eapply (prepares_bind _ _ _ _ (λ _, True)).
  { destruct (ipam s) as [a|] eqn:Ha; [|by apply prepares_ret]. pose proof (sl_ipam _ Ha).
    destruct (String.eqb _ ""); [by apply prepares_ret|].
    eapply prepares_bind; [apply prepares_attempt, prepares_reads, (law_ipam_allocate abs)|].
    intros r w2 _. by apply prepares_ret. }
  intros ips w2 _. by apply prepares_ret.
Qed.

(** Interfaces of a clone: one per interface of the source, on its network; or
    one on the default network when the source has none. *)
Definition nics_cloned (nics nics' : list NetworkInterface) : Prop :=
  (length nics' = length nics ∧
   ∀ k n n', nics !! k = Some n → nics' !! k = Some n' →
     nic_Name n' = "eth" +:+ pretty (N.of_nat k) ∧ nic_NetworkID n' = nic_NetworkID n ∧
     nic_IsPrimary n' = nic_IsPrimary n) ∨
  (nics = [] ∧ ∃ n', nics' = [n'] ∧ nic_IsPrimary n' = true).

Lemma clone_nics_prepares vmID org nics w :
  prepares abs (clone_nics s vmID org nics) w (nics_cloned nics).
Proof using Type*.
  eapply prepares_bind; [apply (prepares_imapM abs _ (λ k n n',
     nic_Name n' = "eth" +:+ pretty (N.of_nat k) ∧ nic_NetworkID n' = nic_NetworkID n ∧
     nic_IsPrimary n' = nic_IsPrimary n)); intros; apply clone_nic_prepares|].
  intros ns w1 [Hlen Hall]. destruct ns as [|n ns]; [|apply prepares_ret; by left].
  destruct (ipam s) as [a|] eqn:Ha; [|apply prepares_ret; by left]. pose proof (sl_ipam _ Ha).
  eapply prepares_bind; [apply prepares_or_zero, prepares_reads, (law_ipam_default abs)|].
  intros net w2 _. eapply prepares_bind; [apply make_uuid|]. intros id w3 _.
  eapply prepares_bind; [apply prepares_or_zero, prepares_reads, (law_ipam_allocate abs)|].
  intros r w4 _. apply prepares_ret. right. destruct nics; [|done]. split; [done|]. eauto.
Qed.

Lemma clone_realloc_prepares vmID nic w :
  prepares abs (clone_realloc s vmID nic) w (λ n, nic_shape n = nic_shape nic).
Proof using Type*.
  eapply (prepares_bind _ _ _ _ (λ _, True)); [|intros ips w1 _; by apply prepares_ret].
  destruct (ipam s) as [a|] eqn:Ha; [|by apply prepares_ret]. pose proof (sl_ipam _ Ha).
  destruct (String.eqb _ ""); [by apply prepares_ret|].
  eapply prepares_bind; [apply prepares_attempt, prepares_reads, (law_ipam_allocate abs)|].
  intros r w2 _. by apply prepares_ret.
Qed.

Lemma clone_create_spec vm w : key (vm_ID vm) = vm_ID vm →
  wp (clone_create s vm) (post
    (λ r w', stored_new r (abs w) (abs w') ∧
             ∃ nics, r = vm_set_related (vm_Disks vm) nics vm ∧
                     nic_shape <$> nics = nic_shape <$> vm_NetworkInterfaces vm)
    (λ _ w', image_step (abs w) (abs w'))) w.
Proof using Type*.
  intros Hk. eapply wp_bind_post; [apply wp_attempt, (law_vm_create abs key); done| |done].
  intros [[]|err] w1 H1.
  - destruct H1 as (vm' & Hc & _ & E1 & Hn). apply wp_ret. split.
    + exists vm'. rewrite E1. by split_and!.
    + exists (vm_NetworkInterfaces vm). split; [by destruct vm|done].
  - rewrite <-H1. destruct (isUniqueViolation err); [|by apply wp_fail].
    eapply wp_bind_post; [apply reallocs_prepares; intros; apply clone_realloc_prepares| |done].
    intros nics w2 [Hsh Hst].
    eapply wp_bind_post; [apply wp_wrap, (law_vm_create abs key); done| |].
    + intros [] w3 (vm' & Hc & _ & E3 & Hn). apply wp_ret. split; [|by exists nics].
      eapply stored_new_step; [done|]. exists vm'. rewrite E3. by split_and!.
    + intros e w3 (? & _ & E3). simpl. by rewrite E3.
Qed.

(** What a clone has in common with its source. *)
Record clone_of (src vm : VirtualMachine) : Prop := {
  cl_status : vm_Status vm = VMStatusCreating;
  cl_size : vm_VCpus vm = vm_VCpus src ∧ vm_MemoryMB vm = vm_MemoryMB src;
  cl_org : vm_OrganizationID vm = vm_OrganizationID src;
  cl_machine : vm_CPUModel vm = vm_CPUModel src ∧ vm_MachineType vm = vm_MachineType src ∧
    vm_EnableSecureBoot vm = vm_EnableSecureBoot src ∧ vm_EnableTPM vm = vm_EnableTPM src ∧
    vm_Hugepages vm = vm_Hugepages src ∧ vm_CloudInit vm = vm_CloudInit src;
  cl_maps : vm_Tags vm = copy_list (vm_Tags src) ∧ vm_Metadata vm = copy_map (vm_Metadata src) ∧
    vm_Labels vm = copy_map (vm_Labels src);
  cl_no_key : vm_SSHKeyID vm = None;
  cl_disks : length (vm_Disks vm) = length (vm_Disks src);
  cl_disk : ∀ k d d', vm_Disks src !! k = Some d → vm_Disks vm !! k = Some d' →
    disk_Name d' = disk_Name d ∧ disk_SizeBytes d' = disk_SizeBytes d ∧ disk_Type d' = disk_Type d ∧
    disk_StoragePool d' = disk_StoragePool d ∧ disk_Boot d' = disk_Boot d ∧
    disk_Order d' = disk_Order d ∧ disk_ImageID d' = "";
  cl_nics : ∃ nics, nics_cloned (vm_NetworkInterfaces src) nics ∧
    nic_shape <$> vm_NetworkInterfaces vm = nic_shape <$> nics;
}.

Definition clone_post (id name nodeID : string) (linked : bool) (w : W) : outcome VirtualMachine → W → Prop :=
  post
    (λ vm w', ∃ src, a_vms (abs w) !! key id = Some src ∧ vm_Name vm = name ∧ clone_of src vm ∧
       created vm (event "cloned" (vm_ID vm)
         (JObj [("cloned_vm_id", JStr (vm_ID vm)); ("source_vm_id", JStr id)])) (abs w) (abs w'))
    (λ _ w', not_created (abs w) (abs w')).

Lemma Clone_spec id name nodeID linked w : wp (Clone s id name nodeID linked) (clone_post id name nodeID linked w) w.
Proof using Type*.
  unfold clone_post.
  eapply wp_bind_post; [apply reads_wrap, (law_vm_get abs key)| |by intros e w' E; simpl; rewrite E].
  intros [src|] w1 [[Hl _] E1]; [|apply wp_fail; simpl; by rewrite E1].
  rewrite <-E1 in *. clear E1. simpl in Hl.
  eapply wp_bind_post; [apply make_uuid| |done]. intros nid w2 [(_ & Hk & _) S2].
  eapply wp_bind_post; [apply (prepares_imapM abs _ _ _ clone_disk_prepares)| |chain].
  intros disks w3 [[Hdl Hd] S3]. assert (S13 : image_step (abs w1) (abs w3)) by by etrans.
  eapply wp_bind_post; [apply clone_nics_prepares| |chain].
  intros nics w4 [Hnics S4]. assert (S14 : image_step (abs w1) (abs w4)) by by etrans.
  set (vm := mkVM _ _ _ _ _ _ _ _ _ _ _ _ _ _ _ _ _ _ _ _ _ _).
  eapply wp_bind_post; [by apply (clone_create_spec vm)| |chain].
  intros vm1 w5 (Hst & nics1 & -> & Hsh).
  eapply wp_bind_post; [apply (emit_vm_event_spec abs key s)| |done].
  intros [] w6 H6. apply wp_ret. exists (vm_untimed src). split_and!; [done|done| |].
  - split; try done; [|by exists nics].
    intros k d d' Hk1 Hk2. simpl in Hk1, Hk2.
    rewrite (Hd k d d' Hk1 Hk2). by split_and!.
  - eapply stored_then_event; [by eapply stored_new_step|exact H6].
Qed.

(** C21: [Clone] never panics.  The machine it returns is new, has the name asked
    for, the size, organisation and machine settings of the source, a disk for
    each disk of the source and an interface on the same network for each of
    its interfaces; the source is unchanged, as is every other machine.  A
    clone carries neither the image of a disk nor the SSH key of the source.
    When it fails no machine is stored. *)
Theorem clone_correct id name nodeID linked w : wp (Clone s id name nodeID linked) (clone_post id name nodeID linked w) w.
Proof using Type*. apply Clone_spec. Qed.

End proofs.
