(* ===== verification/Resources.v ===== *)
(** The control plane's other services ([services/controlplane/service.go],
    from line 951): nodes, images, flavors, keypairs and backups.  Theorems:
    what each operation stores, that names stay unique where the service
    checks them, and that a failed operation stores nothing. *)
From stdpp Require Import base gmap strings list numbers pretty.
From S2P Require Import Prelude.
From S2P Require Import GoStd.
From S2P Require Import Domain.
From S2P Require Import GoJson.
From S2P Require Import Interfaces.
From S2P Require Import Catalog.
From S2P Require Import Puller.
From S2P Require Import ControlPlane.
From S2P Require Import VMService.
From stdpp Require Import options.

(** * Nodes *)
Record NodeServiceImpl (W : Type) := mkNodeService {
  ns_repo : NodeRepository W;
  ns_publisher : option (EventPublisher W);
  ns_env : Env W;
}.
Arguments ns_repo {_} _.
Arguments ns_publisher {_} _.
Arguments ns_env {_} _.

Definition NodeService {W} (s : Service W) : NodeServiceImpl W :=
  mkNodeService W (nodeRepo s) (publisher s) (env s).

Section nodes.
Context {W : Type} (ns : NodeServiceImpl W).

Definition Register (req : RegisterNodeRequest) : M W Node :=
  if String.eqb (rr_Name req) "" then fail "node name is required"
  else if String.eqb (rr_Address req) "" then fail "node address is required"
  else
    existing ← or_zero None (Node_GetByName (ns_repo ns) (rr_Name req));
    match existing with
    | Some _ => fail ("node with name " +:+ rr_Name req +:+ " already exists")
    | None =>
        id ← new_uuid (ns_env ns);
        let node := mkNode id (rr_Name req) (rr_Address req) (rr_Port req) NodeStatusOnline
                      (rr_Resources req) (rr_Labels req) (Some ∅) None 0 0 in
        _ ← wrap "create node" (Node_Create (ns_repo ns) node);
        _ ← (match ns_publisher ns with
             | Some pub =>
                 ignore (PublishNodeEvent pub "registered" id (JObj [("node_id", JStr id)]))
             | None => mret ()
             end);
        mret node
    end.

Definition GetNode (id : string) : M W (option Node) := Node_GetByID (ns_repo ns) id.
Definition ListNodes (f : NodeFilter) : M W (list Node * Z) := Node_List (ns_repo ns) f.

Definition get_node (id : string) : M W Node :=
  node ← wrap "get node" (Node_GetByID (ns_repo ns) id);
  match node with None => fail "node not found" | Some node => mret node end.

Definition UpdateNode (id : string) (labels : option (gmap string string)) : M W Node :=
  node ← get_node id;
  let node := node_set_labels labels node in
  _ ← wrap "update node" (Node_Update (ns_repo ns) node);
  mret node.

Definition Drain (id : string) (timeout : Z) : M W () :=
  _ ← get_node id;
  wrap "update status" (Node_UpdateStatus (ns_repo ns) id NodeStatusDraining).

Definition Heartbeat (nodeID : string) (resources : NodeResources) : M W () :=
  Node_UpdateHeartbeat (ns_repo ns) nodeID resources.

End nodes.

(** * Images, flavors, keypairs, backups *)
Section resources.
Context {W : Type} (s : Service W).

Definition ListImages (f : ImageFilter) : M W (list Image * Z) := Image_List (imageRepo s) f.
Definition GetImage (id : string) : M W (option Image) := Image_GetByID (imageRepo s) id.

Definition CreateImage (img : Image) : M W Image :=
  if String.eqb (img_Name img) "" then fail "image name is required"
  else if String.eqb (img_OS img) "" then fail "os is required"
  else if String.eqb (img_Architecture img) "" then fail "architecture is required"
  else
    id ← new_uuid (env s);
    let img := img_set_new id ImageStatusDownloading img in
    _ ← wrap "create image" (Image_Create (imageRepo s) img);
    mret img.

Definition DeleteImage (id : string) : M W () :=
  img ← wrap "get image" (Image_GetByID (imageRepo s) id);
  match img with
  | None => fail "image not found"
  | Some _ => wrap "delete image" (Image_Delete (imageRepo s) id)
  end.

Definition svc_ImportFromURL (req : ImportImageRequest) : M W Image :=
  match puller s with
  | None => fail "image puller not configured"
  | Some p => Puller.ImportFromURL p req
  end.

Definition ListOfficialImages : M W (list OfficialImage) := mret List_images.

Definition GetOfficialImage (osName version arch : string) : M W OfficialImage :=
  Puller.lift (Find osName version arch).

Definition no_flavors : string := "flavor repository not configured".

Definition CreateFlavor (req : CreateFlavorRequest) : M W Flavor :=
  match flavorRepo s with
  | None => fail no_flavors
  | Some repo =>
      if String.eqb (fr_Name req) "" then fail "flavor name is required"
      else if (fr_VCpus req <? 1)%Z then fail "vcpus must be at least 1"
      else if (fr_MemoryMB req <? 128)%Z then fail "memory must be at least 128 MB"
      else if (fr_DiskGB req <? 1)%Z then fail "disk_gb must be at least 1"
      else
        existing ← or_zero None (Flavor_GetByName repo (fr_Name req));
        match existing with
        | Some _ => fail ("flavor with name " +:+ Quote (fr_Name req) +:+ " already exists")
        | None =>
            id ← new_uuid (env s);
            let f := mkFlavor id (fr_Name req) (fr_Description req) (fr_VCpus req)
                       (fr_MemoryMB req) (fr_DiskGB req) 0 0 in
            _ ← wrap "create flavor" (Flavor_Create repo f);
            mret f
        end
  end.

Definition GetFlavor (id : string) : M W (option Flavor) :=
  match flavorRepo s with None => fail no_flavors | Some repo => Flavor_GetByID repo id end.
Definition ListFlavors : M W (list Flavor) :=
  match flavorRepo s with None => fail no_flavors | Some repo => Flavor_List repo end.

Definition DeleteFlavor (id : string) : M W () :=
  match flavorRepo s with
  | None => fail no_flavors
  | Some repo =>
      f ← Flavor_GetByID repo id;
      match f with None => fail "flavor not found" | Some _ => Flavor_Delete repo id end
  end.

(** [fingerprintPublicKey]: 16 hex digits of the SHA-256 of the key's body. *)
Definition fingerprintPublicKey (pubKey : string) : string :=
  match Strings.Fields pubKey with
  | _ :: body :: _ =>
      match (match Base64.StdDecode body with
             | Some d => Some d
             | None => Base64.RawStdDecode body
             end) with
      | Some decoded => Strings.Take 16 (hex_EncodeToString (Sha256.Sum256 decoded))
      | None => ""
      end
  | _ => ""
  end.

Definition no_keypairs : string := "keypair repository not configured".

Definition CreateKeypair (req : CreateKeypairRequest) : M W Keypair :=
  match keypairRepo s with
  | None => fail no_keypairs
  | Some repo =>
      if String.eqb (kr_Name req) "" then fail "keypair name is required"
      else if String.eqb (kr_PublicKey req) "" then fail "public_key is required"
      else if negb (Strings.Contains (kr_PublicKey req) "ssh-") then fail "invalid public key format"
      else
        let orgID := if String.eqb (kr_OrganizationID req) "" || String.eqb (kr_OrganizationID req) "default"
                     then default_org else kr_OrganizationID req in
        existing ← or_zero None (Keypair_GetByName repo (kr_Name req) orgID);
        match existing with
        | Some _ => fail ("keypair with name " +:+ Quote (kr_Name req) +:+ " already exists")
        | None =>
            id ← new_uuid (env s);
            let k := mkKeypair id (kr_Name req) (kr_PublicKey req)
                       (fingerprintPublicKey (kr_PublicKey req)) orgID 0 in
            _ ← wrap "create keypair" (Keypair_Create repo k);
            mret k
        end
  end.

Definition GetKeypair (id : string) : M W (option Keypair) :=
  match keypairRepo s with None => fail no_keypairs | Some repo => Keypair_GetByID repo id end.
Definition ListKeypairs (org : string) : M W (list Keypair) :=
  match keypairRepo s with None => fail no_keypairs | Some repo => Keypair_List repo org end.

Definition DeleteKeypair (id : string) : M W () :=
  match keypairRepo s with
  | None => fail no_keypairs
  | Some repo =>
      k ← Keypair_GetByID repo id;
      match k with None => fail "keypair not found" | Some _ => Keypair_Delete repo id end
  end.

Definition ListBackups (f : BackupFilter) : M W (list Backup * Z) := Backup_List (backupRepo s) f.
Definition GetBackup (id : string) : M W (option Backup) := Backup_GetByID (backupRepo s) id.

Definition CreateBackup (backup : Backup) : M W Backup :=
  if String.eqb (bk_VMID backup) "" then fail "vm_id is required"
  else if String.eqb (bk_Name backup) "" then fail "backup name is required"
  else
    vm ← get_vm s (bk_VMID backup);
    id ← new_uuid (env s);
    let backup := bk_set_new id (vm_OrganizationID vm) BackupStatusCreating backup in
    _ ← wrap "create backup" (Backup_Create (backupRepo s) backup);
    mret backup.

Definition get_backup (id : string) : M W Backup :=
  b ← wrap "get backup" (Backup_GetByID (backupRepo s) id);
  match b with None => fail "backup not found" | Some b => mret b end.

Definition DeleteBackup (id : string) : M W () :=
  _ ← get_backup id;
  wrap "delete backup" (Backup_Delete (backupRepo s) id).

Definition RestoreBackup (backupID vmID : string) : M W () :=
  _ ← get_backup backupID;
  _ ← get_vm s vmID;
  _ ← wrap "stop vm" (VM_UpdateStatus (vmRepo s) vmID VMStatusStopped);
  _ ← emit_vm_event s "restoring_backup" vmID
        (JObj [("backup_id", JStr backupID); ("vm_id", JStr vmID)]);
  _ ← wrap "restart vm" (VM_UpdateStatus (vmRepo s) vmID VMStatusRunning);
  mret ().

End resources.

(** * Properties *)

(** Node names are unique. *)
Definition node_names_unique (a : Abs) : Prop :=
  ∀ k1 k2 n1 n2, a_nodes a !! k1 = Some n1 → a_nodes a !! k2 = Some n2 →
    node_Name n1 = node_Name n2 → k1 = k2.

Definition flavor_names_unique (a : Abs) : Prop :=
  ∀ k1 k2 f1 f2, a_flavors a !! k1 = Some f1 → a_flavors a !! k2 = Some f2 →
    fl_Name f1 = fl_Name f2 → k1 = k2.

(** Adding a value whose name nobody has keeps names unique. *)
Lemma insert_unique {A} (name : A → string) (m : gmap string A) k x :
  (∀ k1 k2 x1 x2, m !! k1 = Some x1 → m !! k2 = Some x2 → name x1 = name x2 → k1 = k2) →
  (∀ k' x', m !! k' = Some x' → name x' ≠ name x) →
  ∀ k1 k2 x1 x2, <[k:=x]> m !! k1 = Some x1 → <[k:=x]> m !! k2 = Some x2 →
    name x1 = name x2 → k1 = k2.
Proof.
  intros Hu Hn k1 k2 x1 x2. rewrite !lookup_insert_Some.
  intros [[<- <-]|[? H1]] [[<- <-]|[? H2]] E; [done| | |by eapply Hu].
  - exfalso. eapply (Hn _ _ H2). done.
  - exfalso. eapply (Hn _ _ H1). done.
Qed.

Section proofs.
Context {W : Type} (abs : W → Abs) (key : string → string) (s : Service W).
Context `{!ServiceLaws abs key s}.

(** [Register] needs a name and an address; the node it returns is online,
    stored under a new id as it is returned, and its name was free, so node
    names stay unique; nothing else is stored.  When it fails no node changes.
    It never panics. *)
Theorem register_correct req w :
  wp (Register (NodeService s) req) (post
    (λ n w', rr_Name req ≠ "" ∧ rr_Address req ≠ "" ∧
       node_Name n = rr_Name req ∧ node_Address n = rr_Address req ∧
       node_Status n = NodeStatusOnline ∧ node_Resources n = rr_Resources req ∧
       a_nodes (abs w) !! node_ID n = None ∧
       a_nodes (abs w') = <[node_ID n := node_untimed n]> (a_nodes (abs w)) ∧
       a_vms (abs w') = a_vms (abs w) ∧
       (node_names_unique (abs w) → node_names_unique (abs w')))
    (λ _ w', a_nodes (abs w') = a_nodes (abs w) ∧ a_vms (abs w') = a_vms (abs w))) w.
Proof using Type*.
  unfold Register. destruct (String.eqb_spec (rr_Name req) ""); [by apply wp_fail|].
  destruct (String.eqb_spec (rr_Address req) ""); [by apply wp_fail|]. simpl.
  eapply wp_bind_peeks; [apply peeks_or_zero, (law_node_name abs key)|].
  intros [ex|] w1 _ E1; [apply wp_fail; simpl; by rewrite E1|]. rewrite <-E1. clear E1.
  eapply wp_bind_post; [apply (law_uuid abs key)| |done]. intros id w2 (Hf & Hk & _ & E2).
  eapply wp_bind_post; [apply wp_wrap, (law_node_create abs key); exact Hk| |].
  2:{ intros e w3 (? & _ & E3). simpl. by rewrite E3, E2. }
  intros [] w3 (E3 & Hn & Hu). rewrite E2 in E3, Hn, Hu. simpl in *.
  eapply (wp_bind_post _ _ _ (λ _ w4, a_nodes (abs w4) = a_nodes (abs w3) ∧
            a_vms (abs w4) = a_vms (abs w3)) (λ _ _, False)); [| |done].
  { destruct (publisher s) as [pub|] eqn:Hp; [|by apply wp_ret]. pose proof (sl_publisher _ Hp).
    eapply wp_post; [apply wp_ignore, (law_publish_node abs)| |done].
    intros [] w4 [[? E]|[? [E|E]]]; by rewrite E. }
  intros [] w4 [En Ev]. apply wp_ret. simpl. rewrite E3 in En, Ev. simpl in En, Ev.
  split_and!; [done..|].
  unfold node_names_unique. rewrite En. intros Hun. by apply insert_unique.
Qed.

Lemma get_node_reads id w :
  reads abs (get_node (NodeService s) id) w (λ n,
    a_nodes (abs w) !! key id = Some (node_untimed n) ∧ node_ID n = key id ∧
    key (node_ID n) = node_ID n).
Proof using Type*.
  eapply wp_bind_reads; [apply reads_wrap, (law_node_get abs key)| |done].
  intros [n|] w1 [Hl Hid] E1; [|by apply wp_fail]. apply wp_ret. simpl in *.
  destruct (Hid _ eq_refl). auto.
Qed.

(** [Drain] marks exactly the given node draining; machines stay where they
    are and in the status they had (nothing is moved or stopped). *)
Theorem drain_correct id timeout w :
  wp (Drain (NodeService s) id timeout) (post
    (λ _ w', is_Some (a_nodes (abs w) !! key id) ∧
             abs w' = on_nodes (alter (node_set_status NodeStatusDraining) (key id)) (abs w))
    (λ _ w', abs w' = abs w)) w.
Proof using Type*.
  eapply wp_bind_reads; [apply get_node_reads| |done].
  intros n w1 (Hl & _) E1. rewrite <-E1 in *.
  eapply wp_post; [apply writes_wrap, (law_node_status abs key)| |done].
  intros [] w2 E2. split; [by eexists|done].
Qed.

(** [CreateFlavor] only accepts a named flavor with at least one CPU, 128 MB
    and 1 GB; what it returns is stored under a new id, its name was free, so
    flavor names stay unique.  When it fails no flavor changes. *)
Theorem create_flavor_correct req w :
  wp (CreateFlavor s req) (post
    (λ f w', fr_Name req ≠ "" ∧ (1 ≤ fl_VCpus f)%Z ∧ (128 ≤ fl_MemoryMB f)%Z ∧ (1 ≤ fl_DiskGB f)%Z ∧
       fl_Name f = fr_Name req ∧ a_flavors (abs w) !! fl_ID f = None ∧
       a_flavors (abs w') = <[fl_ID f := f]> (a_flavors (abs w)) ∧
       (flavor_names_unique (abs w) → flavor_names_unique (abs w')))
    (λ _ w', a_flavors (abs w') = a_flavors (abs w))) w.
Proof using Type*.
  unfold CreateFlavor. destruct (flavorRepo s) as [repo|] eqn:Hr; [|by apply wp_fail].
  pose proof (sl_flavor _ Hr).
  destruct (String.eqb_spec (fr_Name req) ""); [by apply wp_fail|].
  destruct (Z.ltb_spec (fr_VCpus req) 1); [by apply wp_fail|].
  destruct (Z.ltb_spec (fr_MemoryMB req) 128); [by apply wp_fail|].
  destruct (Z.ltb_spec (fr_DiskGB req) 1); [by apply wp_fail|].
  eapply wp_bind_peeks; [apply peeks_or_zero, (law_flavor_name abs key)|].
  intros [ex|] w1 _ E1; [apply wp_fail; simpl; by rewrite E1|]. rewrite <-E1. clear E1.
  eapply wp_bind_post; [apply (law_uuid abs key)| |done]. intros id w2 (Hf & Hk & _ & E2).
  eapply wp_bind_post; [apply wp_wrap, (law_flavor_create abs key); exact Hk| |].
  2:{ intros e w3 (? & _ & E3). simpl. by rewrite E3, E2. }
  intros [] w3 (E3 & Hn & Hu). rewrite E2 in E3, Hn, Hu. apply wp_ret. simpl in *. rewrite E3.
  split_and!; [done..|]. unfold flavor_names_unique. intros Hun. by apply insert_unique.
Qed.

(** [CreateKeypair] only accepts a named key whose text contains "ssh-"; it
    stores the key with its fingerprint under a new id, in the organisation
    given or the default one.  When it fails no keypair changes. *)
Theorem create_keypair_correct req w :
  wp (CreateKeypair s req) (post
    (λ k w', kr_Name req ≠ "" ∧ Strings.Contains (kr_PublicKey req) "ssh-" = true ∧
       kp_Name k = kr_Name req ∧ kp_PublicKey k = kr_PublicKey req ∧
       kp_Fingerprint k = fingerprintPublicKey (kr_PublicKey req) ∧
       kp_OrganizationID k ≠ "" ∧ a_keypairs (abs w) !! kp_ID k = None ∧
       a_keypairs (abs w') = <[kp_ID k := kp_stored (key (kp_OrganizationID k)) k]> (a_keypairs (abs w)))
    (λ _ w', a_keypairs (abs w') = a_keypairs (abs w))) w.
Proof using Type*.
  unfold CreateKeypair. destruct (keypairRepo s) as [repo|] eqn:Hr; [|by apply wp_fail].
  pose proof (sl_keypair _ Hr).
  destruct (String.eqb_spec (kr_Name req) ""); [by apply wp_fail|].
  destruct (String.eqb_spec (kr_PublicKey req) ""); [by apply wp_fail|].
  destruct (Strings.Contains (kr_PublicKey req) "ssh-") eqn:Hc; [|by apply wp_fail]. simpl negb.
  set (org := if _ || _ then _ else _).
  assert (Horg : org ≠ "").
  { unfold org. destruct (String.eqb_spec (kr_OrganizationID req) ""); [done|].
    by destruct (String.eqb _ "default"). }
  eapply wp_bind_peeks; [apply peeks_or_zero, (law_keypair_name abs key)|].
  intros [ex|] w1 _ E1; [apply wp_fail; simpl; by rewrite E1|]. rewrite <-E1. clear E1.
  eapply wp_bind_post; [apply (law_uuid abs key)| |done]. intros id w2 (Hf & Hk & _ & E2).
  eapply wp_bind_post; [apply wp_wrap, (law_keypair_create abs key); exact Hk| |].
  2:{ intros e w3 (? & _ & E3). simpl. by rewrite E3, E2. }
  intros [] w3 (E3 & Hn). rewrite E2 in E3, Hn. apply wp_ret. simpl in *. rewrite E3.
  by split_and!.
Qed.

Lemma get_backup_reads id w :
  reads abs (get_backup s id) w (λ b, a_backups (abs w) !! key id = Some (bk_untimed b)).
Proof using Type*.
  eapply wp_bind_reads; [apply reads_wrap, (law_backup_get abs key)| |done].
  intros [b|] w1 Hl E1; [|by apply wp_fail]. by apply wp_ret.
Qed.

(** [CreateBackup] needs a machine that is stored and a name; the backup is
    stored in status "creating", in the organisation of its machine, under a
    new id.  When it fails no backup changes. *)
Theorem create_backup_correct b w :
  wp (CreateBackup s b) (post
    (λ r w', ∃ vm, a_vms (abs w) !! key (bk_VMID b) = Some vm ∧ bk_Name b ≠ "" ∧
       bk_VMID r = bk_VMID b ∧ bk_Name r = bk_Name b ∧ bk_Status r = BackupStatusCreating ∧
       bk_OrganizationID r = vm_OrganizationID vm ∧ a_backups (abs w) !! bk_ID r = None ∧
       a_backups (abs w') = <[bk_ID r := bk_stored (key (bk_VMID b)) (key (vm_OrganizationID vm)) r]>
                              (a_backups (abs w)) ∧
       a_vms (abs w') = a_vms (abs w))
    (λ _ w', a_backups (abs w') = a_backups (abs w) ∧ a_vms (abs w') = a_vms (abs w))) w.
Proof using Type*.
  unfold CreateBackup. destruct (String.eqb_spec (bk_VMID b) ""); [by apply wp_fail|].
  destruct (String.eqb_spec (bk_Name b) ""); [by apply wp_fail|].
  eapply wp_bind_reads; [apply (get_vm_reads abs key s)| |by intros e w' E; simpl; rewrite E].
  intros vm w1 [Hl _] E1. rewrite <-E1 in *.
  eapply wp_bind_post; [apply (law_uuid abs key)| |done]. intros id w2 (Hf & Hk & _ & E2).
  eapply wp_bind_post; [apply wp_wrap, (law_backup_create abs key); exact Hk| |].
  2:{ intros e w3 (? & _ & E3). simpl. by rewrite E3, E2. }
  intros [] w3 (E3 & Hn & _). rewrite E2 in E3, Hn. apply wp_ret. simpl in *. rewrite E3.
  exists (vm_untimed vm). by split_and!.
Qed.

Definition restore_backup_event (bid vmID : string) : string * json :=
  event "restoring_backup" vmID (JObj [("backup_id", JStr bid); ("vm_id", JStr vmID)]).

Definition restore_backup_post (bid vmID : string) (w : W) : outcome () → W → Prop :=
  post (λ _ w', is_Some (a_backups (abs w) !! key bid) ∧
          restored (key vmID) (restore_backup_event bid vmID) (abs w) (abs w'))
       (λ _ w', restore_failed (key vmID) (restore_backup_event bid vmID) (abs w) (abs w')).

Lemma RestoreBackup_spec bid vmID w : wp (RestoreBackup s bid vmID) (restore_backup_post bid vmID w) w.
Proof using Type*.
  eapply wp_bind_reads; [apply get_backup_reads| |by left].
  intros b w1 Hb E1. unfold restore_backup_post. rewrite <-E1 in *.
  eapply wp_bind_reads; [apply (get_vm_reads abs key s)| |by left].
  intros vm w2 [Hl _] E2. rewrite <-E2 in *.
  apply (restore_spec abs key s).
  - intros w3 H3. apply wp_ret. split; [by eexists|]. by split.
  - intros e w3 [E3|H3]; [by left|right]. by split.
Qed.

(** [RestoreBackup] needs a stored backup and a stored machine (not
    necessarily the one the backup was taken of); it leaves that machine
    running, whatever its status was, and no other machine changed.  When it
    fails nothing changed, or the machine was left stopped. *)
Theorem restore_backup_correct bid vmID w :
  wp (RestoreBackup s bid vmID) (restore_backup_post bid vmID w) w.
Proof using Type*. apply RestoreBackup_spec. Qed.

End proofs.
