(* ===== verification/Recovery.v ===== *)
(** Recovery after a restart ([services/controlplane/recovery.go]): the
    reconciliation of stored machines with the state of their nodes and
    images.  Theorems: which statuses it may write, that it writes nothing
    else and publishes nothing. *)
From stdpp Require Import base gmap strings list numbers.
From S2P Require Import Prelude.
From S2P Require Import Domain.
From S2P Require Import Interfaces.
From S2P Require Import Puller.
From S2P Require Import ControlPlane.
From S2P Require Import VMService.
From stdpp Require Import options.

Section recovery.
Context {W : Type} (s : Service W).

(** The disks of a machine that was being created. *)
Definition reconcile_disk (vm : VirtualMachine) (disk : Disk) : M W () :=
  if String.eqb (disk_ImageID disk) "" then mret ()
  else
    img ← or_zero None (Image_GetByID (imageRepo s) (disk_ImageID disk));
    match img with
    | Some img =>
        if bool_decide (img_Status img = ImageStatusError)
        then ignore (VM_UpdateStatus (vmRepo s) (vm_ID vm) VMStatusError)
        else mret ()
    | None => mret ()
    end.

(** One turn of the loop over the machines. *)
Definition reconcile_one (vm : VirtualMachine) : M W () :=
  match vm_Status vm with
  | VMStatusRunning | VMStatusRebooting | VMStatusMigrating =>
      match assigned vm with
      | Some nodeID =>
          r ← attempt (Node_GetByID (nodeRepo s) nodeID);
          if (match r with
              | inl (Some node) => bool_decide (node_Status node = NodeStatusOnline)
              | _ => false
              end)
          then mret ()
          else ignore (VM_UpdateStatus (vmRepo s) (vm_ID vm) VMStatusError)
      | None => mret ()
      end
  | VMStatusCreating => iterM (reconcile_disk vm) (vm_Disks vm)
  | VMStatusShuttingDown => ignore (VM_UpdateStatus (vmRepo s) (vm_ID vm) VMStatusStopped)
  | VMStatusPaused => mret ()
  | _ => mret ()
  end.

Definition reconcileVMs : M W () :=
  r ← wrap "list VMs for recovery" (VM_List (vmRepo s) (mkVMFilter "" "" "" "" "" 1 1000));
  iterM reconcile_one r.1.

End recovery.

(** * What reconciliation may do *)

(** The status a machine may have afterwards. *)
Definition reconciled (st st' : VMStatus) : Prop :=
  st' = st ∨
  match st with
  | VMStatusRunning | VMStatusRebooting | VMStatusMigrating | VMStatusCreating => st' = VMStatusError
  | VMStatusShuttingDown => st' = VMStatusStopped
  | _ => False
  end.

(** Machine by machine: only the status differs, and only as allowed. *)
Definition vms_reconciled (m m' : gmap string VirtualMachine) : Prop :=
  ∀ k, match m !! k, m' !! k with
       | Some v, Some v' => ∃ st, reconciled (vm_Status v) st ∧ v' = vm_set_status st v
       | None, None => True
       | _, _ => False
       end.

Lemma vms_reconciled_refl m : vms_reconciled m m.
Proof.
  intros k. destruct (m !! k) as [v|]; [|done]. exists (vm_Status v).
  split; [by left|by destruct v].
Qed.

(** Writing a status allowed for the machine's original one. *)
Lemma vms_reconciled_write m m' k v st :
  vms_reconciled m m' → m !! k = Some v → reconciled (vm_Status v) st →
  vms_reconciled m (alter (vm_set_status st) k m').
Proof.
  intros H Hk Hst j. specialize (H j). destruct (decide (k = j)) as [<-|].
  - rewrite lookup_alter_eq, Hk in *. destruct (m' !! k) as [v'|]; simpl; [|done].
    destruct H as (st' & _ & ->). by exists st.
  - by rewrite lookup_alter_ne.
Qed.

Section proofs.
Context {W : Type} (abs : W → Abs) (key : string → string) (s : Service W).
Context `{!ServiceLaws abs key s}.

(** The invariant of the loops, relative to the state [a] they started from. *)
Definition reconciling (a : Abs) (w : W) : Prop :=
  ∃ m, vms_reconciled (a_vms a) m ∧ abs w = on_vms (λ _, m) a.

Lemma reconciling_write a w k st v :
  reconciling a w → a_vms a !! k = Some v → reconciled (vm_Status v) st → key k = k →
  wp (ignore (VM_UpdateStatus (vmRepo s) k st)) (post (λ _ w', reconciling a w') (λ _ _, False)) w.
Proof using Type*.
  intros (m & Hm & E) Hk Hst Hkk. eapply wp_post; [apply wp_ignore, (law_vm_status abs key)| |done].
  rewrite Hkk, E. intros [] w' [[? E']|[? E']].
  - exists (alter (vm_set_status st) k m). split; [by eapply vms_reconciled_write|].
    by rewrite E'.
  - by exists m.
Qed.

Lemma reconciling_same a w w' : reconciling a w → abs w' = abs w → reconciling a w'.
Proof using. intros (m & ? & E) E'. exists m. split; [done|congruence]. Qed.

(** One machine, read from the list made at the start. *)
Lemma reconcile_one_spec a vm w :
  a_vms a !! vm_ID vm = Some (vm_untimed vm) → key (vm_ID vm) = vm_ID vm → reconciling a w →
  wp (reconcile_one s vm) (post (λ _ w', reconciling a w') (λ _ _, False)) w.
Proof using Type*.
  intros Hl Hk Hr. unfold reconcile_one.
  assert (Hnode : reconciled (vm_Status vm) VMStatusError →
    wp (match assigned vm with
        | Some nodeID =>
            r ← attempt (Node_GetByID (nodeRepo s) nodeID);
            if (match r with
                | inl (Some node) => bool_decide (node_Status node = NodeStatusOnline)
                | _ => false
                end)
            then mret ()
            else ignore (VM_UpdateStatus (vmRepo s) (vm_ID vm) VMStatusError)
        | None => mret ()
        end) (post (λ _ w', reconciling a w') (λ _ _, False)) w).
  { intros Hst. destruct (assigned vm) as [nodeID|]; [|by apply wp_ret].
    eapply wp_bind_peeks; [apply peeks_attempt, (law_node_get abs key)|].
    intros r w1 _ E1. pose proof (reconciling_same _ _ _ Hr E1) as Hr1.
    destruct (match r with inl _ => _ | inr _ => _ end); [by apply wp_ret|].
    by eapply reconciling_write. }
  destruct (vm_Status vm) eqn:Hst; try (by apply wp_ret); try (apply Hnode; by right).
  - apply (wp_iterM _ (λ _ w', reconciling a w')); [|done]. intros dn disk w1 Hr1.
    unfold reconcile_disk. destruct (String.eqb _ ""); [by apply wp_ret|].
    eapply wp_bind_peeks; [apply peeks_or_zero, (law_image_get abs key)|].
    intros img w2 _ E2. pose proof (reconciling_same _ _ _ Hr1 E2) as Hr2.
    destruct img as [img|]; [|by apply wp_ret]. case_bool_decide; [|by apply wp_ret].
    eapply reconciling_write; [done|done| |done]. simpl. rewrite Hst. by right.
  - eapply reconciling_write; [done|done| |done]. simpl. rewrite Hst. by right.
Qed.

Lemma reconcileVMs_spec w :
  wp (reconcileVMs s) (post (λ _ w', reconciling (abs w) w') (λ _ w', abs w' = abs w)) w.
Proof using Type*.
  eapply wp_bind_reads; [apply reads_wrap, (law_vm_list abs key)| |done].
  intros [vms total] w1 Hall E1. simpl in *. rewrite <-E1 in *.
  assert (H : ∀ l, Forall (λ vm, a_vms (abs w1) !! vm_ID vm = Some (vm_untimed vm) ∧
                           key (vm_ID vm) = vm_ID vm) l →
    ∀ w2, reconciling (abs w1) w2 →
    wp (iterM (reconcile_one s) l) (post (λ _ w', reconciling (abs w1) w') (λ _ w', abs w' = abs w1)) w2).
  { unfold iterM. induction 1 as [|vm l [Hl Hk] _ IH]; intros w2 Hr; simpl; [by apply wp_ret|].
    eapply wp_bind_post; [by apply reconcile_one_spec| |done]. intros [] w3 Hr3. by apply IH. }
  apply H; [done|]. exists (a_vms (abs w1)). split; [apply vms_reconciled_refl|by destruct (abs w1)].
Qed.

(** C24: Reconciliation after a restart changes nothing but the status of
    machines: one that was running, rebooting, migrating or being created may
    become failed, one that was shutting down may become stopped, and every
    other machine keeps its status.  It publishes no message: no start command
    is sent although the log announces one.  It never panics, and if the list
    cannot be read nothing changes. *)
Theorem reconcile_correct w :
  wp (reconcileVMs s) (post
    (λ _ w', (∃ m, vms_reconciled (a_vms (abs w)) m ∧ abs w' = on_vms (λ _, m) (abs w)) ∧
             a_msgs (abs w') = a_msgs (abs w))
    (λ _ w', abs w' = abs w)) w.
Proof using Type*.
  eapply wp_post; [apply reconcileVMs_spec| |done].
  intros [] w' (m & Hm & E). split; [by exists m|by rewrite E].
Qed.

End proofs.
