(* ===== verification/Lifecycle.v ===== *)
(** The life cycle of machines: an abstract machine over the statuses alone,
    the proof that every request the control plane serves, whatever its
    outcome, is one step of it, and what follows for every history of
    requests. *)
From stdpp Require Import base gmap strings list numbers pretty.
From S2P Require Import Prelude.
From S2P Require Import Domain.
From S2P Require Import Interfaces.
From S2P Require Import Puller.
From S2P Require Import ControlPlane.
From S2P Require Import VMService.
From S2P Require Import CreateVM.
From S2P Require Import Resources.
From S2P Require Import Recovery.
From stdpp Require Import options.

(** * The abstract machine *)
Definition statuses (a : Abs) : gmap string VMStatus := vm_Status <$> a_vms a.

(** What a request is about. *)
Inductive vm_op :=
| OpCreate
| OpEdit
| OpDelete (k : string) (force : bool)
| OpPowerOn (k : string)
| OpPowerOff (k : string) (force : bool)
| OpReboot (k : string) (force : bool)
| OpRestore
| OpReconcile.

Inductive lc_step : vm_op → gmap string VMStatus → gmap string VMStatus → Prop :=
| lc_stay op m : lc_step op m m
| lc_create k m : m !! k = None → lc_step OpCreate m (<[k := VMStatusCreating]> m)
| lc_delete k st force m :
    m !! k = Some st → force = true ∨ st = VMStatusStopped →
    lc_step (OpDelete k force) m (delete k m)
| lc_power_on k st m :
    m !! k = Some st → power_on_guard st = true →
    lc_step (OpPowerOn k) m (<[k := VMStatusRunning]> m)
| lc_power_off k st force st' m :
    m !! k = Some st → power_off_guard st force = true →
    st' = VMStatusShuttingDown ∨ st' = VMStatusStopped →
    lc_step (OpPowerOff k force) m (<[k := st']> m)
| lc_reboot k st force st' m :
    m !! k = Some st → reboot_guard st force = true →
    st' = VMStatusRebooting ∨ st' = VMStatusRunning →
    lc_step (OpReboot k force) m (<[k := st']> m)
| lc_restore k st st' m :
    m !! k = Some st → st' = VMStatusStopped ∨ st' = VMStatusRunning →
    lc_step OpRestore m (<[k := st']> m)
| lc_reconcile m m' :
    (∀ k, option_relation reconciled (λ _, False) (λ _, False) (m !! k) (m' !! k)) →
    lc_step OpReconcile m m'.

(** ** Status maps of changed machine maps *)
Lemma statuses_lookup a k v : a_vms a !! k = Some v → statuses a !! k = Some (vm_Status v).
Proof. intros H. unfold statuses. by rewrite lookup_fmap, H. Qed.

Lemma statuses_vms a a' : a_vms a' = a_vms a → statuses a' = statuses a.
Proof. unfold statuses. by intros ->. Qed.

Lemma statuses_set a a' k v st :
  a_vms a !! k = Some v → a_vms a' = set_status_at st k (a_vms a) →
  statuses a' = <[k := st]> (statuses a).
Proof.
  intros Hk E. unfold statuses, set_status_at in *.
  rewrite E, (alter_at _ _ _ _ Hk), fmap_insert. done.
Qed.

(** Scheduling assigns a node, which is not a status. *)
Lemma statuses_scheduled {W} (key : string → string) (s : Service W) id a vm vm1 g m :
  scheduled key s id a vm vm1 g → vm_Status <$> g m = vm_Status <$> m.
Proof.
  destruct 1; try done. rewrite (fmap_alter _ _ (λ x, x)) by done. apply alter_id. done.
Qed.

(** The statuses the control plane itself brings about. *)
Definition in_use (st : VMStatus) : Prop :=
  st ∈ [VMStatusCreating; VMStatusRunning; VMStatusStopped; VMStatusRebooting;
        VMStatusShuttingDown; VMStatusError].

Lemma in_use_step op m m' : lc_step op m m' →
  map_Forall (λ _, in_use) m → map_Forall (λ _, in_use) m'.
Proof.
  assert (Hi : ∀ k st (m : gmap string VMStatus), in_use st → map_Forall (λ _, in_use) m → map_Forall (λ _, in_use) (<[k:=st]> m)).
  { intros k st mm Hst Hm. by apply map_Forall_insert_2. }
  intros Hs Hm. destruct Hs as [| | |k st m Hk Hg|k st f st' m Hk Hg Hor|k st f st' m Hk Hg Hor
    |k st st' m Hk Hor|m m' Hr]; try done.
  - apply Hi; [|done]. unfold in_use. set_solver.
  - by apply map_Forall_delete.
  - apply Hi; [|done]. unfold in_use. set_solver.
  - apply Hi; [|done]. unfold in_use. set_solver.
  - apply Hi; [|done]. unfold in_use. set_solver.
  - apply Hi; [|done]. unfold in_use. set_solver.
  - intros k st' Hk'. specialize (Hr k). rewrite Hk' in Hr.
    destruct (m !! k) as [st|] eqn:Hk; simpl in Hr; [|done]. specialize (Hm k st Hk).
    destruct Hr as [->|Hr]; [done|]. unfold in_use. destruct st; try done; rewrite Hr; set_solver.
Qed.

(** * The requests *)
Inductive request :=
| RCreate (req : CreateVMRequest)
| RClone (id name nodeID : string) (linked : bool)
| RUpdate (id : string) (req : UpdateVMRequest)
| RResize (id : string) (vcpus mem : Z)
| RSnapshot (vmID name descr : string)
| RDelete (id : string) (force : bool)
| RPowerOn (id : string)
| RPowerOff (id : string) (force : bool)
| RReboot (id : string) (force : bool)
| RRestoreSnapshot (sid : string)
| RRestoreBackup (bid vmID : string)
| RReconcile.

Section simulation.
Context {W : Type} (abs : W → Abs) (key : string → string) (s : Service W).
Context `{!ServiceLaws abs key s}.

Definition forget {A} (m : M W A) : M W () := m ≫= λ _, mret ().

Definition serve (r : request) : M W () :=
  match r with
  | RCreate req => forget (CreateVM s req)
  | RClone id name nodeID linked => forget (Clone s id name nodeID linked)
  | RUpdate id req => forget (UpdateVM s id req)
  | RResize id vcpus mem => forget (Resize s id vcpus mem)
  | RSnapshot vmID name descr => forget (Snapshot_VM s vmID name descr)
  | RDelete id force => DeleteVM s id force
  | RPowerOn id => forget (PowerOn s id)
  | RPowerOff id force => forget (PowerOff s id force)
  | RReboot id force => forget (Reboot s id force)
  | RRestoreSnapshot sid => forget (RestoreSnapshot s sid)
  | RRestoreBackup bid vmID => RestoreBackup s bid vmID
  | RReconcile => reconcileVMs s
  end.

Definition op_of (r : request) : vm_op :=
  match r with
  | RCreate _ | RClone _ _ _ _ => OpCreate
  | RUpdate _ _ | RResize _ _ _ | RSnapshot _ _ _ => OpEdit
  | RDelete id force => OpDelete (key id) force
  | RPowerOn id => OpPowerOn (key id)
  | RPowerOff id force => OpPowerOff (key id) force
  | RReboot id force => OpReboot (key id) force
  | RRestoreSnapshot _ | RRestoreBackup _ _ => OpRestore
  | RReconcile => OpReconcile
  end.

(** The simulation condition, for any outcome (a panic included). *)
Definition simulates (op : vm_op) (m : M W ()) (w : W) : Prop :=
  wp m (λ _ w', lc_step op (statuses (abs w)) (statuses (abs w'))) w.

Lemma simulates_forget {A} op (m : M W A) w :
  wp m (λ _ w', lc_step op (statuses (abs w)) (statuses (abs w'))) w → simulates op (forget m) w.
Proof using. intros H. apply wp_bind. eapply wp_mono; [exact H|]. by intros [] w'. Qed.

(** Both clauses of a postcondition imply the step. *)
Lemma simulates_post {A} op (m : M W A) QR QE w :
  wp m (post QR QE) w →
  (∀ a w', QR a w' → lc_step op (statuses (abs w)) (statuses (abs w'))) →
  (∀ e w', QE e w' → lc_step op (statuses (abs w)) (statuses (abs w'))) →
  wp m (λ _ w', lc_step op (statuses (abs w)) (statuses (abs w'))) w.
Proof using. intros H HR HE. eapply wp_mono; [exact H|]. intros [a|e|] w'; simpl; [apply HR|apply HE|done]. Qed.

Lemma stay op a a' : a_vms a' = a_vms a → lc_step op (statuses a) (statuses a').
Proof using. intros ->%statuses_vms. apply lc_stay. Qed.

Lemma simulates_two_phase guard action ev id force st1 st2 op (m : M W VirtualMachine) w :
  wp m (two_phase_post abs key guard action ev id force st1 st2 w) w →
  (∀ st st' mm, mm !! key id = Some st → guard st force = true → st' = st1 ∨ st' = st2 →
     lc_step op mm (<[key id := st']> mm)) →
  simulates op (forget m) w.
Proof using.
  intros H Hop. apply simulates_forget. eapply simulates_post; [exact H| |].
  - intros vm w' (old & Hl & Hg & _ & (ms & _ & Hc)). apply vm_change_vms in Hc.
    rewrite (statuses_set _ _ _ _ _ Hl Hc). eapply Hop; [by eapply statuses_lookup|done|by right].
  - intros e w' [->|(old & Hl & Hg & (ms & _ & Hc))]; [by apply stay|]. apply vm_change_vms in Hc.
    rewrite (statuses_set _ _ _ _ _ Hl Hc). eapply Hop; [by eapply statuses_lookup|done|by left].
Qed.

Lemma simulates_restore k m a a' :
  restored k m a a' ∨ restore_failed k m a a' → lc_step OpRestore (statuses a) (statuses a').
Proof using.
  intros [[[v Hv] Hc]|[->|[[v Hv] Hc]]]; [| |]; try apply lc_stay.
  - apply vm_change_vms in Hc. rewrite (statuses_set _ _ _ _ _ Hv Hc).
    eapply lc_restore; [by eapply statuses_lookup|by right].
  - apply vm_change_vms in Hc. rewrite (statuses_set _ _ _ _ _ Hv Hc).
    eapply lc_restore; [by eapply statuses_lookup|by left].
Qed.

(** Publishing a start command keeps the machines, even if it panics. *)
Lemma publishVMStart_vms vm w :
  wp (ignore (publishVMStart s vm)) (λ _ w', a_vms (abs w') = a_vms (abs w)) w.
Proof using Type*.
  assert (H : wp (publishVMStart s vm) (λ _ w', a_vms (abs w') = a_vms (abs w)) w).
  { unfold publishVMStart. destruct (publisher s) as [pub|] eqn:Hp; [|done].
    apply wp_bind. unfold wp at 1, Puller.lift. simpl.
    destruct (nic_configs _ _) as [[|[mac c] cs]|e|]; [done| |done|done].
    eapply wp_bind_peeks; [apply (ssh_key_peeks abs key s)|]. intros k w1 _ E1.
    destruct (boot_source (vm_Disks vm)) as [img size].
    destruct (vm_NodeID vm) as [node|]; [|by unfold wp; simpl; rewrite E1].
    eapply wp_bind_peeks; [apply (nodeCommandSubject_peeks abs key s)|]. intros subj w2 _ E2.
    pose proof (sl_publisher _ Hp). eapply wp_mono; [apply (law_publish abs)|].
    intros [[]|e|] w3; simpl; [intros E; by rewrite E, E2, E1| |done].
    intros [E|E]; by rewrite E, E2, E1. }
  unfold wp, ignore in *. by destruct (publishVMStart s vm w) as [[] ?].
Qed.

Lemma simulates_power_on id w : simulates (OpPowerOn (key id)) (forget (PowerOn s id)) w.
Proof using Type*.
  apply simulates_forget.
  eapply wp_bind_reads; [apply (get_vm_reads abs key s)| |intros e w' E; apply stay; by rewrite E].
  intros vm w1 [Hl _] E1. rewrite <-E1 in *. clear E1.
  destruct (negb _ && negb _ && negb _) eqn:Hg; [apply lc_stay|].
  assert (Hguard : power_on_guard (vm_Status vm) = true).
  { unfold power_on_guard. revert Hg. by repeat case_bool_decide. }
  eapply wp_bind_post; [apply (schedule_node_spec abs key s)| |done].
  intros vm1 w2 (g & Hs & H2%vm_change_vms).
  assert (Hst2 : statuses (abs w2) = statuses (abs w1)).
  { unfold statuses. rewrite H2. by eapply statuses_scheduled. }
  eapply wp_bind_writes; [apply writes_wrap, (law_vm_status abs key)| |].
  2:{ intros e w' E. rewrite E, Hst2. apply lc_stay. }
  intros [] w3 E3.
  assert (Hfin : ∀ w', a_vms (abs w') = a_vms (abs w3) →
            lc_step (OpPowerOn (key id)) (statuses (abs w1)) (statuses (abs w'))).
  { intros w' E. rewrite E3 in E.
    assert (Hin : is_Some (a_vms (abs w2) !! key id)).
    { assert (Hs2 : statuses (abs w2) !! key id = Some (vm_Status vm)).
      { rewrite Hst2. unfold statuses. by rewrite lookup_fmap, Hl. }
      unfold statuses in Hs2. rewrite lookup_fmap in Hs2.
      destruct (a_vms (abs w2) !! key id) as [v|]; [by exists v|done]. }
    destruct Hin as [v Hv]. rewrite (statuses_set _ _ _ _ _ Hv E), Hst2.
    eapply lc_power_on; [|exact Hguard]. unfold statuses. by rewrite lookup_fmap, Hl. }
  apply wp_bind. eapply (wp_mono _ (λ _ w', a_vms (abs w') = a_vms (abs w3))).
  { destruct (publisher s); [|by apply wp_ret]. destruct (assigned _); [|by apply wp_ret].
    apply publishVMStart_vms. }
  intros [[]|e|] w4 H4; [|by apply Hfin..].
  eapply wp_bind_post; [apply (emit_vm_event_spec abs key s)| |done].
  intros [] w5 H5%vm_change_vms. apply wp_ret, Hfin. congruence.
Qed.

Lemma statuses_created vm m a a' :
  created key vm m a a' → vm_Status vm = VMStatusCreating → lc_step OpCreate (statuses a) (statuses a').
Proof using.
  intros [(vm' & Hc & Hn & E) _] Hst. unfold statuses. rewrite E, fmap_insert.
  assert (vm_Status vm' = VMStatusCreating) as ->.
  { change (vm_Status vm') with (vm_Status (vm_core key vm')). by rewrite Hc. }
  apply lc_create. by rewrite lookup_fmap, Hn.
Qed.

Lemma simulates_reconcile w : simulates OpReconcile (reconcileVMs s) w.
Proof using Type*.
  eapply simulates_post; [apply (reconcileVMs_spec abs key s)| |].
  - intros [] w' (m & Hm & E). rewrite E. apply lc_reconcile. intros k. specialize (Hm k).
    unfold statuses. simpl. rewrite !lookup_fmap.
    destruct (a_vms (abs w) !! k) as [v|], (m !! k) as [v'|]; simpl; try done.
    by destruct Hm as (st & ? & ->).
  - intros e w' ->. apply lc_stay.
Qed.

Lemma serve_simulates r w : simulates (op_of r) (serve r) w.
Proof using Type*.
  destruct r as [req|id name nid lk|id req|id vc mem|vid nm ds|id fc|id|id fc|id fc|sid|bid vid|];
    simpl.
  - apply simulates_forget. eapply simulates_post; [apply (CreateVM_spec abs key s)| |].
    + intros vm w' ([_ Hst _ _ _ _ _ _] & _ & _ & Hc). by eapply statuses_created.
    + intros e w' ((Hv & _) & _). by apply stay.
  - apply simulates_forget. eapply simulates_post; [apply (Clone_spec abs key s)| |].
    + intros vm w' (src & _ & _ & [Hst _ _ _ _ _ _ _ _] & Hc). by eapply statuses_created.
    + intros e w' ((Hv & _) & _). by apply stay.
  - apply simulates_forget. eapply simulates_post; [apply (UpdateVM_spec abs key s)| |].
    + intros vm w' (old & Hl & _ & E). rewrite E. unfold statuses. simpl.
      rewrite fmap_insert, insert_id; [apply lc_stay|]. by rewrite lookup_fmap, Hl.
    + intros e w' E. apply stay. by rewrite E.
  - apply simulates_forget. eapply simulates_post; [apply (Resize_spec abs key s)| |].
    + intros vm w' (old & Hl & _ & _ & _ & Hc%vm_change_vms). unfold statuses. rewrite Hc.
      rewrite fmap_insert, insert_id; [apply lc_stay|]. by rewrite lookup_fmap, Hl.
    + intros e w' E. apply stay. by rewrite E.
  - apply simulates_forget. eapply simulates_post; [apply (Snapshot_VM_spec abs key s)| |].
    + intros sn w' (_ & _ & _ & _ & _ & _ & Hv & _). by apply stay.
    + intros e w' [_ Hv]. by apply stay.
  - eapply simulates_post; [apply (DeleteVM_spec abs key s)| |].
    + intros [] w' [-> (old & Hl & Hg)]. unfold statuses, deleted. simpl. rewrite fmap_delete.
      eapply lc_delete; [|exact Hg]. by rewrite lookup_fmap, Hl.
    + intros e w' E. apply stay. by rewrite E.
  - apply simulates_power_on.
  - eapply simulates_two_phase; [apply (PowerOff_spec abs key s)|]. intros. by eapply lc_power_off.
  - eapply simulates_two_phase; [apply (Reboot_spec abs key s)|]. intros. by eapply lc_reboot.
  - apply simulates_forget. eapply simulates_post; [apply (RestoreSnapshot_spec abs key s)| |].
    + intros vm w' (snap & _ & Hr & _). eapply simulates_restore. by left.
    + intros e w' [E|(snap & _ & Hr)]; [apply stay; by rewrite E|].
      eapply simulates_restore. by right.
  - eapply simulates_post; [apply (RestoreBackup_spec abs key s)| |].
    + intros [] w' [_ Hr]. eapply simulates_restore. by left.
    + intros e w' Hr. eapply simulates_restore. right. exact Hr.
  - apply simulates_reconcile.
Qed.

(** C1: Refinement: whatever request the control plane serves, in whatever
    state, and however it ends (success, an error after any of its writes, a
    panic), the statuses of the stored machines make one step of the abstract
    life cycle: the guards hold for every status written, one machine at most
    changes (but for reconciliation), and no machine appears or vanishes except
    by creation, cloning or deletion. *)
Theorem serve_refines_lifecycle r w :
  wp (serve r) (λ _ w', lc_step (op_of r) (statuses (abs w)) (statuses (abs w'))) w.
Proof using Type*. apply serve_simulates. Qed.

(** Serving requests one after the other. *)
Fixpoint run_all (rs : list request) (w : W) : W :=
  match rs with
  | [] => w
  | r :: rs' => run_all rs' (serve r w).2
  end.

Lemma run_all_in_use rs w :
  map_Forall (λ _, in_use) (statuses (abs w)) →
  map_Forall (λ _, in_use) (statuses (abs (run_all rs w))).
Proof using Type*.
  revert w. induction rs as [|r rs IH]; intros w Hw; simpl; [done|].
  apply IH. eapply in_use_step; [apply (serve_simulates r w)|done].
Qed.

(** No history of requests ever stores a machine as paused, migrating,
    terminated or snapshotting: from a state in which no machine has one of
    these statuses, every sequence of requests, with any faults, leads to such
    a state again.  (The branches of the service and of the reconciliation
    that handle these statuses are never taken.) *)
Theorem statuses_in_use rs w :
  map_Forall (λ _, in_use) (statuses (abs w)) →
  map_Forall (λ _, in_use) (statuses (abs (run_all rs w))).
Proof using Type*. apply run_all_in_use. Qed.

(** A failed machine does not come back by itself: only a forced power off,
    a forced reboot or a restore gives it another status; in particular
    powering it on, or a restart of the control plane, does not. *)
Theorem error_is_sticky r w k st :
  statuses (abs w) !! k = Some VMStatusError →
  statuses (abs (serve r w).2) !! k = Some st → st ≠ VMStatusError →
  op_of r = OpPowerOff k true ∨ op_of r = OpReboot k true ∨ op_of r = OpRestore.
Proof using Type*.
  intros Hk Hk' Hne. pose proof (serve_simulates r w) as Hs. unfold simulates, wp in Hs.
  destruct Hs as [|k' m Hn|k' st0 f m Hl Hg|k' st0 m Hl Hg|k' st0 f st' m Hl Hg Hor
    |k' st0 f st' m Hl Hg Hor|k' st0 st' m Hl Hor|m m' Hr].
  - congruence.
  - rewrite lookup_insert_ne in Hk' by congruence. congruence.
  - rewrite lookup_delete_Some in Hk'. destruct Hk'. congruence.
  - destruct (decide (k' = k)) as [->|]; [|rewrite lookup_insert_ne in Hk' by done; congruence].
    rewrite Hk in Hl. by simplify_eq.
  - destruct (decide (k' = k)) as [->|]; [|rewrite lookup_insert_ne in Hk' by done; congruence].
    rewrite Hk in Hl. simplify_eq. destruct f; [by left|done].
  - destruct (decide (k' = k)) as [->|]; [|rewrite lookup_insert_ne in Hk' by done; congruence].
    rewrite Hk in Hl. simplify_eq. destruct f; [by right; left|done].
  - by right; right.
  - specialize (Hr k). rewrite Hk, Hk' in Hr. simpl in Hr. destruct Hr as [|Hr]; [congruence|done].
Qed.

End simulation.
