(* ===== verification/PgControl.v ===== *)
(** The control plane's PostgreSQL repositories
    ([services/controlplane/postgres/*.go]) over a relational state: tables
    with the constraints of [migrations/controlplane], statements that run one
    after the other, each of which the server may refuse (a stream of faults),
    and transactions that roll back.  The publisher
    ([services/controlplane/nats/publisher.go]) and the environment of the
    service are here too.

    A UUID column holds values of a type [U]; PostgreSQL's text input and
    output of UUIDs and addresses ([inet_in] gives the text an [inet] column
    is read back as, [cidr_next] that of [x::cidr + 1]), its [ILIKE], and the
    generation of UUIDs are parameters.  What else the server may refuse
    (lengths of texts, integer ranges, lost connections) is in the stream of
    faults. *)
From stdpp Require Import base gmap strings list numbers pretty.
From S2P Require Import Prelude.
From S2P Require Import GoStd.
From S2P Require Import GoNet.
From S2P Require Import Ipam.
From S2P Require Import Domain.
From S2P Require Import GoJson.
From S2P Require Import Interfaces.
From stdpp Require Import options.

(** * The database *)

(** What is not in this repository: PostgreSQL's types and the UUID library. *)
Class Pg (U : Type) `{Countable U} := {
  uuid_out : U → string;
  uuid_in : string → option U;
  uuid_new : gset string → U;
  inet_in : string → option string;
  cidr_next : string → string;
  ilike : string → string → bool;
}.

(** The documented behaviour the theorems use: a UUID printed is read back, the
    empty text is not one, and a generated UUID is a new one. *)
Class PgLaws (U : Type) `{Pg U} : Prop := {
  uuid_in_out : ∀ u, uuid_in (uuid_out u) = Some u;
  uuid_in_empty : uuid_in "" = None;
  uuid_new_fresh : ∀ X, uuid_out (uuid_new X) ∉ X;
}.

Section pg.
Context {U : Type} `{Pg U}.

(** Rows: the columns that refer to other rows are typed, the others are kept
    in the domain value, whose id, references and lists are not used.  The rows
    of [vm_disks] and [vm_network_interfaces] are kept with the machine they
    belong to: the two tables have [vm_id NOT NULL REFERENCES
    virtual_machines(id) ON DELETE CASCADE]. *)
Record disk_row := mkDiskRow { dk_id : U; dk_image : option U; dk_val : Disk }.
Record nic_row := mkNICRow { nk_id : U; nk_net : option U; nk_val : NetworkInterface }.
Record vm_row := mkVMRow {
  vr_node : option U; vr_val : VirtualMachine;
  vr_disks : list disk_row; vr_nics : list nic_row }.
Record snap_row := mkSnapRow { sr_vm : U; sr_val : Snapshot }.
Record backup_row := mkBackupRow { br_vm : U; br_val : Backup }.
Record net_row := mkNetRow { nt_id : U; nt_org : U; nt_name : string; nt_cidr : string }.
Record subnet_row := mkSubnetRow {
  sn_net : U; sn_cidr : string; sn_dhcp : bool; sn_gateway : option string; sn_created : Z }.

Record DB := mkDB {
  t_vms : gmap U vm_row;
  t_nodes : gmap U Node;
  t_images : gmap U Image;
  t_snaps : gmap U snap_row;
  t_backups : gmap U backup_row;
  t_flavors : gmap U Flavor;
  t_keypairs : gmap U Keypair;
  t_networks : list net_row;
  t_subnets : list subnet_row;
  t_now : Z;
}.

(** The world of the service: the database, what the server will answer to the
    next statements ([Some e]: refused), the stream and its answers to the next
    messages ([Some (e, b)]: an error, the message stored if [b]), the
    goroutines started, the files, the ids issued. *)
Record World := mkWorld {
  w_db : DB;
  w_faults : list (option string);
  w_msgs : list (string * json);
  w_pub_faults : list (option (string * bool));
  w_tasks : list DownloadTask;
  w_files : gmap string Z;
  w_ids : gset string;
}.

Definition set_db (d : DB) (w : World) : World :=
  mkWorld d (w_faults w) (w_msgs w) (w_pub_faults w) (w_tasks w) (w_files w) (w_ids w).
Definition pop_fault (w : World) : World :=
  mkWorld (w_db w) (drop 1 (w_faults w)) (w_msgs w) (w_pub_faults w) (w_tasks w) (w_files w) (w_ids w).

(** A statement: refused by the server, or run on the database. *)
Definition stmt {A} (f : DB → outcome (A * DB)) : M World A := λ w,
  match w_faults w with
  | Some e :: _ => (Err e, pop_fault w)
  | _ =>
      match f (w_db w) with
      | Ret (a, d) => (Ret a, set_db d (pop_fault w))
      | Err e => (Err e, pop_fault w)
      | Panic => (Panic, pop_fault w)
      end
  end.

(** The clock has moved when the next statement runs. *)
Definition tick (d : DB) : DB :=
  mkDB (t_vms d) (t_nodes d) (t_images d) (t_snaps d) (t_backups d) (t_flavors d)
    (t_keypairs d) (t_networks d) (t_subnets d) (t_now d + 1).

Definition query {A} (f : DB → outcome A) : M World A :=
  stmt (λ d, a ← f d; mret (a, d)).
Definition exec (f : DB → outcome DB) : M World () :=
  stmt (λ d, d' ← f d; mret ((), tick d')).

(** [rows.Err()] *)
Definition rows_err : M World () := query (λ _, Ret ()).

(** [defer tx.Rollback(ctx)]: unless the body returned a nil error, the
    database is as it was. *)
Definition transaction {A} (m : M World A) : M World A := λ w,
  match m w with
  | (Ret a, w') => (Ret a, w')
  | (o, w') => (o, set_db (w_db w) w')
  end.

(** ** Conversions and errors *)
Definition sql_error (msg code : string) : string := "ERROR: " +:+ msg +:+ " (SQLSTATE " +:+ code +:+ ")".
Definition dup_error (constraint : string) : string :=
  sql_error ("duplicate key value violates unique constraint " +:+ Quote constraint) "23505".
Definition fk_error (table constraint : string) : string :=
  sql_error ("insert or update on table " +:+ Quote table +:+ " violates foreign key constraint "
             +:+ Quote constraint) "23503".

Definition uuid_arg (s : string) : outcome U :=
  match uuid_in s with
  | Some u => Ret u
  | None => Err (sql_error ("invalid input syntax for type uuid: " +:+ Quote s) "22P02")
  end.
Definition uuid_opt (s : option string) : outcome (option U) :=
  match s with
  | None => Ret None
  | Some s => u ← uuid_arg s; Ret (Some u)
  end.
(** [NULLIF($n,'')::uuid] *)
Definition uuid_nullif (s : string) : outcome (option U) :=
  if String.eqb s "" then Ret None else u ← uuid_arg s; Ret (Some u).

Fixpoint inet_args (l : list string) : outcome (list string) :=
  match l with
  | [] => Ret []
  | s :: l' =>
      match inet_in s with
      | Some c => r ← inet_args l'; Ret (c :: r)
      | None => Err (sql_error ("invalid input syntax for type inet: " +:+ Quote s) "22P02")
      end
  end.

Definition opt_text (u : option U) : string := match u with Some u => uuid_out u | None => "" end.

(** ** Changes of one table *)
Definition on_t_vms f (d : DB) : DB :=
  mkDB (f (t_vms d)) (t_nodes d) (t_images d) (t_snaps d) (t_backups d)
    (t_flavors d) (t_keypairs d) (t_networks d) (t_subnets d) (t_now d).
Definition on_t_nodes f (d : DB) : DB :=
  mkDB (t_vms d) (f (t_nodes d)) (t_images d) (t_snaps d) (t_backups d)
    (t_flavors d) (t_keypairs d) (t_networks d) (t_subnets d) (t_now d).
Definition on_t_images f (d : DB) : DB :=
  mkDB (t_vms d) (t_nodes d) (f (t_images d)) (t_snaps d) (t_backups d)
    (t_flavors d) (t_keypairs d) (t_networks d) (t_subnets d) (t_now d).
Definition on_t_snaps f (d : DB) : DB :=
  mkDB (t_vms d) (t_nodes d) (t_images d) (f (t_snaps d)) (t_backups d)
    (t_flavors d) (t_keypairs d) (t_networks d) (t_subnets d) (t_now d).
Definition on_t_backups f (d : DB) : DB :=
  mkDB (t_vms d) (t_nodes d) (t_images d) (t_snaps d) (f (t_backups d))
    (t_flavors d) (t_keypairs d) (t_networks d) (t_subnets d) (t_now d).
Definition on_t_flavors f (d : DB) : DB :=
  mkDB (t_vms d) (t_nodes d) (t_images d) (t_snaps d) (t_backups d)
    (f (t_flavors d)) (t_keypairs d) (t_networks d) (t_subnets d) (t_now d).
Definition on_t_keypairs f (d : DB) : DB :=
  mkDB (t_vms d) (t_nodes d) (t_images d) (t_snaps d) (t_backups d)
    (t_flavors d) (f (t_keypairs d)) (t_networks d) (t_subnets d) (t_now d).
Definition on_t_networks f (d : DB) : DB :=
  mkDB (t_vms d) (t_nodes d) (t_images d) (t_snaps d) (t_backups d)
    (t_flavors d) (t_keypairs d) (f (t_networks d)) (t_subnets d) (t_now d).
Definition on_t_subnets f (d : DB) : DB :=
  mkDB (t_vms d) (t_nodes d) (t_images d) (t_snaps d) (t_backups d)
    (t_flavors d) (t_keypairs d) (t_networks d) (f (t_subnets d)) (t_now d).

(** ** Paging: [LIMIT perPage OFFSET (page - 1) * perPage] *)
Definition page_of (page : Z) : Z := if (page <? 1)%Z then 1%Z else page.
Definition per_page_of (perPage : Z) : Z := if (perPage <? 1)%Z then 20%Z else perPage.
Definition page_slice {A} (page perPage : Z) (l : list A) : outcome (list A) :=
  let perPage := per_page_of perPage in
  let offset := int64 ((page_of page - 1) * perPage) in
  if (offset <? 0)%Z then Err (sql_error "OFFSET must not be negative" "2201X")
  else Ret (take (Z.to_nat perPage) (drop (Z.to_nat offset) l)).

Lemma page_slice_np {A} p q (l : list A) : page_slice p q l ≠ Panic.
Proof using. unfold page_slice. by case_match. Qed.

(** [ORDER BY created_at DESC] *)
Definition newest_first {A} (created : A → Z) : list A → list A :=
  sort_by (λ x y, (created y <? created x)%Z).

(** * VMRepository *)
Definition vm_read (u : U) (r : vm_row) : VirtualMachine :=
  let v := vr_val r in
  mkVM (uuid_out u) (vm_Name v) (uuid_out <$> vr_node r) (vm_OrganizationID v) (vm_ProjectID v)
    (vm_Status v) (vm_VCpus v) (vm_MemoryMB v) (vm_CPUModel v) (vm_MachineType v)
    (vm_EnableSecureBoot v) (vm_EnableTPM v) (vm_Hugepages v) (vm_CloudInit v) (vm_SSHKeyID v)
    (vm_Tags v) (vm_Metadata v) (vm_Labels v) [] [] (vm_CreatedAt v) (vm_UpdatedAt v).

Definition disk_read (r : disk_row) : Disk :=
  let d := dk_val r in
  mkDisk (uuid_out (dk_id r)) (disk_Name d) (disk_SizeBytes d) (disk_Type d) (disk_StoragePool d)
    (opt_text (dk_image r)) (disk_Boot d) (disk_Order d).

Definition nic_read (r : nic_row) : NetworkInterface :=
  let n := nk_val r in
  mkNIC (uuid_out (nk_id r)) (nic_Name n) (opt_text (nk_net r)) (nic_MACAddress n)
    (nic_IPv4Addresses n) (nic_IPv6Addresses n) (nic_IsPrimary n).

(** [ORDER BY "order"] *)
Definition by_order {A} (order : A → Z) (l : list A) : list A :=
  sort_by (λ x y, (order x <? order y)%Z) l.

Definition vm_exists (d : DB) (u : U) : bool := bool_decide (is_Some (t_vms d !! u)).
Definition fk_broken {A} (m : gmap U A) (o : option U) : bool :=
  match o with Some u => bool_decide (m !! u = None) | None => false end.

(** Every disk and every interface, with the machine it belongs to. *)
Definition all_disks (d : DB) : list (U * disk_row) :=
  ur ← map_to_list (t_vms d); pair ur.1 <$> vr_disks ur.2.
Definition all_nics (d : DB) : list (U * nic_row) :=
  ur ← map_to_list (t_vms d); pair ur.1 <$> vr_nics ur.2.

Definition insert_vm (vm : VirtualMachine) (d : DB) : outcome DB :=
  id ← uuid_arg (vm_ID vm);
  node ← uuid_opt (vm_NodeID vm);
  org ← uuid_arg (vm_OrganizationID vm);
  proj ← uuid_opt (vm_ProjectID vm);
  ssh ← uuid_opt (vm_SSHKeyID vm);
  if vm_exists d id then Err (dup_error "virtual_machines_pkey")
  else if fk_broken (t_nodes d) node
  then Err (fk_error "virtual_machines" "virtual_machines_node_id_fkey")
  else
    let v := mkVM "" (vm_Name vm) None (uuid_out org) (uuid_out <$> proj) (vm_Status vm)
               (vm_VCpus vm) (vm_MemoryMB vm) (vm_CPUModel vm) (vm_MachineType vm)
               (vm_EnableSecureBoot vm) (vm_EnableTPM vm) (vm_Hugepages vm) (vm_CloudInit vm)
               (uuid_out <$> ssh) (vm_Tags vm) (vm_Metadata vm) (vm_Labels vm) [] []
               (t_now d) (t_now d) in
    Ret (on_t_vms <[id := mkVMRow node v [] []]> d).

Definition disk_types : list string := ["qcow2"; "raw"; "block"].

Definition enum_error (ty s : string) : string :=
  sql_error ("invalid input value for enum " +:+ ty +:+ ": " +:+ Quote s) "22P02".

Definition vm_add_disk (r : disk_row) (v : vm_row) : vm_row :=
  mkVMRow (vr_node v) (vr_val v) (vr_disks v ++ [r]) (vr_nics v).
Definition vm_add_nic (r : nic_row) (v : vm_row) : vm_row :=
  mkVMRow (vr_node v) (vr_val v) (vr_disks v) (vr_nics v ++ [r]).

Definition insert_disk (vmID : string) (disk : Disk) (d : DB) : outcome DB :=
  id ← uuid_arg (disk_ID disk);
  vm ← uuid_arg vmID;
  if negb (existsb (String.eqb (disk_Type disk)) disk_types)
  then Err (enum_error "disk_type" (disk_Type disk))
  else
    image ← uuid_nullif (disk_ImageID disk);
    if existsb (λ ur, bool_decide (dk_id ur.2 = id)) (all_disks d) then Err (dup_error "vm_disks_pkey")
    else if negb (vm_exists d vm) then Err (fk_error "vm_disks" "vm_disks_vm_id_fkey")
    else if fk_broken (t_images d) image then Err (fk_error "vm_disks" "vm_disks_image_id_fkey")
    else Ret (on_t_vms (alter (vm_add_disk (mkDiskRow id image disk)) vm) d).

(** The two partial unique indexes of migration 3. *)
Definition same_ip (net : option U) (ips : list string) (r : nic_row) : bool :=
  match net, nk_net r, ips, nic_IPv4Addresses (nk_val r) with
  | Some n, Some n', ip :: _, ip' :: _ => bool_decide (n = n') && String.eqb ip ip'
  | _, _, _, _ => false
  end.
Definition same_mac (mac : string) (r : nic_row) : bool :=
  negb (String.eqb mac "") && String.eqb mac (nic_MACAddress (nk_val r)).

Definition insert_nic (vmID : string) (nic : NetworkInterface) (d : DB) : outcome DB :=
  id ← uuid_arg (nic_ID nic);
  vm ← uuid_arg vmID;
  net ← uuid_nullif (nic_NetworkID nic);
  ips ← inet_args (nic_IPv4Addresses nic);
  ips6 ← inet_args (nic_IPv6Addresses nic);
  if existsb (λ ur, bool_decide (nk_id ur.2 = id)) (all_nics d)
  then Err (dup_error "vm_network_interfaces_pkey")
  else if existsb (λ ur, same_ip net ips ur.2) (all_nics d)
  then Err (dup_error "idx_vm_nics_unique_ip_per_network")
  else if existsb (λ ur, same_mac (nic_MACAddress nic) ur.2) (all_nics d)
  then Err (dup_error "idx_vm_nics_unique_mac")
  else if negb (vm_exists d vm)
  then Err (fk_error "vm_network_interfaces" "vm_network_interfaces_vm_id_fkey")
  else
    let n := mkNIC "" (nic_Name nic) "" (nic_MACAddress nic) ips ips6 (nic_IsPrimary nic) in
    Ret (on_t_vms (alter (vm_add_nic (mkNICRow id net n)) vm) d).

Definition VMRepo_Create (vm : VirtualMachine) : M World () :=
  transaction (
    _ ← wrap "vm_repo: begin tx" (query (λ _, Ret ()));
    _ ← wrap "vm_repo: insert vm" (exec (insert_vm vm));
    _ ← iterM (λ disk, wrap "vm_repo: insert disk" (exec (insert_disk (vm_ID vm) disk))) (vm_Disks vm);
    _ ← iterM (λ nic, wrap "vm_repo: insert nic" (exec (insert_nic (vm_ID vm) nic)))
          (vm_NetworkInterfaces vm);
    query (λ _, Ret ())).

(** The disks and the interfaces of the machine [u]. *)
Definition disks_of (d : DB) (u : U) : list Disk :=
  match t_vms d !! u with
  | Some r => by_order disk_Order (disk_read <$> vr_disks r)
  | None => []
  end.
Definition nics_of (d : DB) (u : U) : list NetworkInterface :=
  match t_vms d !! u with Some r => nic_read <$> vr_nics r | None => [] end.

Definition q_vm (id : string) (d : DB) : outcome (option VirtualMachine) :=
  u ← uuid_arg id; Ret (vm_read u <$> t_vms d !! u).
Definition q_disks (id : string) (d : DB) : outcome (list Disk) :=
  u ← uuid_arg id; Ret (disks_of d u).
Definition q_nics (id : string) (d : DB) : outcome (list NetworkInterface) :=
  u ← uuid_arg id; Ret (nics_of d u).

Definition loadRelated (vm : VirtualMachine) : M World VirtualMachine :=
  disks ← wrap "vm_repo: query disks" (query (q_disks (vm_ID vm)));
  _ ← rows_err;
  nics ← wrap "vm_repo: query nics" (query (q_nics (vm_ID vm)));
  _ ← rows_err;
  mret (vm_set_related (vm_Disks vm ++ disks) (vm_NetworkInterfaces vm ++ nics) vm).

Definition VMRepo_GetByID (id : string) : M World (option VirtualMachine) :=
  r ← wrap "vm_repo: get by id" (query (q_vm id));
  match r with
  | None => mret None
  | Some vm => vm ← loadRelated vm; mret (Some vm)
  end.

Definition vm_statuses : list string :=
  ["creating"; "running"; "stopped"; "paused"; "rebooting"; "shutting_down"; "terminated"; "error";
   "migrating"; "snapshottting"].
Definition enum_filter (ty : string) (values : list string) (s : string) : outcome () :=
  if String.eqb s "" || existsb (String.eqb s) values then Ret () else Err (enum_error ty s).

(** [column = $n], when the filter is given. *)
Definition text_is (o : option U) (t : option string) : bool :=
  match o with None => true | Some u => bool_decide (t = Some (uuid_out u)) end.
Definition string_is (filter s : string) : bool := String.eqb filter "" || String.eqb s filter.
Definition search_ok (search name : string) : bool :=
  String.eqb search "" || ilike name ("%" +:+ search +:+ "%").

(** The [WHERE] clause of [List]. *)
Definition q_vm_matching (f : VMFilter) (d : DB) : outcome (list (U * vm_row)) :=
  org ← uuid_nullif (vf_OrganizationID f);
  proj ← uuid_nullif (vf_ProjectID f);
  node ← uuid_nullif (vf_NodeID f);
  _ ← enum_filter "vm_status" vm_statuses (vf_Status f);
  Ret (filter (λ ur : U * vm_row, Is_true (
         text_is org (Some (vm_OrganizationID (vr_val ur.2))) &&
         text_is proj (vm_ProjectID (vr_val ur.2)) &&
         text_is node (uuid_out <$> vr_node ur.2) &&
         string_is (vf_Status f) (string_of_VMStatus (vm_Status (vr_val ur.2))) &&
         search_ok (vf_Search f) (vm_Name (vr_val ur.2))))
       (map_to_list (t_vms d))).

(** [SELECT COUNT(...)] and the page of a [List]. *)
Definition q_count {A} (q : DB → outcome (list A)) (d : DB) : outcome Z :=
  l ← q d; Ret (Z.of_nat (length l)).
Definition q_page {A B} (q : DB → outcome (list A)) (created : A → Z) (read : A → B)
    (page perPage : Z) (d : DB) : outcome (list B) :=
  l ← q d;
  page ← page_slice page perPage (newest_first created l);
  Ret (map read page).

(** [vmMap[vm.ID] = vm]: a map of pointers to the elements of [vms]. *)
Definition vmMap (vms : list VirtualMachine) : gmap string nat :=
  foldl (λ m ivm, <[vm_ID ivm.2 := ivm.1]> m) ∅ (imap pair vms).

Definition add_disk (ix : gmap string nat) (vms : list VirtualMachine) (r : U * disk_row)
    : list VirtualMachine :=
  match ix !! uuid_out r.1 with
  | Some i => alter (λ vm, vm_set_related (vm_Disks vm ++ [disk_read r.2]) (vm_NetworkInterfaces vm) vm) i vms
  | None => vms
  end.
Definition add_nic (ix : gmap string nat) (vms : list VirtualMachine) (r : U * nic_row)
    : list VirtualMachine :=
  match ix !! uuid_out r.1 with
  | Some i => alter (λ vm, vm_set_related (vm_Disks vm) (vm_NetworkInterfaces vm ++ [nic_read r.2]) vm) i vms
  | None => vms
  end.

Fixpoint uuid_args (l : list string) : outcome (list U) :=
  match l with
  | [] => Ret []
  | s :: l' => u ← uuid_arg s; us ← uuid_args l'; Ret (u :: us)
  end.

(** [WHERE vm_id = ANY($1::uuid[])] *)
Definition q_disks_any (ids : list string) (d : DB) : outcome (list (U * disk_row)) :=
  us ← uuid_args ids;
  Ret (by_order (λ ur, disk_Order (dk_val ur.2)) (filter (λ ur : U * disk_row, ur.1 ∈ us) (all_disks d))).
Definition q_nics_any (ids : list string) (d : DB) : outcome (list (U * nic_row)) :=
  us ← uuid_args ids;
  Ret (filter (λ ur : U * nic_row, ur.1 ∈ us) (all_nics d)).

Definition batchLoadRelated (vms : list VirtualMachine) : M World (list VirtualMachine) :=
  let vmIDs := vm_ID <$> vms in
  let ix := vmMap vms in
  disks ← wrap "vm_repo: batch query disks" (query (q_disks_any vmIDs));
  let vms := foldl (add_disk ix) vms disks in
  _ ← rows_err;
  nics ← wrap "vm_repo: batch query nics" (query (q_nics_any vmIDs));
  let vms := foldl (add_nic ix) vms nics in
  _ ← rows_err;
  mret vms.

Definition VMRepo_List (f : VMFilter) : M World (list VirtualMachine * Z) :=
  total ← wrap "vm_repo: count" (query (q_count (q_vm_matching f)));
  vms ← wrap "vm_repo: list query" (query (q_page (q_vm_matching f)
          (λ ur, vm_CreatedAt (vr_val ur.2)) (λ ur, vm_read ur.1 ur.2) (vf_Page f) (vf_PerPage f)));
  _ ← wrap "vm_repo: rows error" rows_err;
  vms ← (match vms with [] => mret [] | _ => batchLoadRelated vms end);
  mret (vms, total).

(** Updates of the row of a machine: [updated_at = now()]. *)
Definition vm_row_map (f : VirtualMachine → VirtualMachine) (r : vm_row) : vm_row :=
  mkVMRow (vr_node r) (f (vr_val r)) (vr_disks r) (vr_nics r).
Definition vm_touch (now : Z) (v : VirtualMachine) : VirtualMachine :=
  vm_set_times (vm_CreatedAt v) now v.

Definition VMRepo_Update (vm : VirtualMachine) : M World () :=
  wrap "vm_repo: update" (exec (λ d,
    u ← uuid_arg (vm_ID vm);
    Ret (on_t_vms (alter (vm_row_map (λ v, vm_touch (t_now d) (vm_set_editable vm v))) u) d))).

(** [DELETE], with the cascades to disks, interfaces, snapshots and backups. *)
Definition VMRepo_Delete (id : string) : M World () :=
  wrap "vm_repo: delete" (exec (λ d,
    u ← uuid_arg id;
    Ret (on_t_backups (filter (λ kr, br_vm kr.2 ≠ u))
        (on_t_snaps (filter (λ kr, sr_vm kr.2 ≠ u))
        (on_t_vms (delete u) d))))).

Definition VMRepo_UpdateStatus (id : string) (st : VMStatus) : M World () :=
  wrap "vm_repo: update status" (exec (λ d,
    u ← uuid_arg id;
    Ret (on_t_vms (alter (vm_row_map (λ v, vm_touch (t_now d) (vm_set_status st v))) u) d))).

Definition VMRepo_AssignNode (id nodeID : string) : M World () :=
  wrap "vm_repo: assign node" (exec (λ d,
    n ← uuid_arg nodeID;
    u ← uuid_arg id;
    if vm_exists d u && fk_broken (t_nodes d) (Some n)
    then Err (fk_error "virtual_machines" "virtual_machines_node_id_fkey")
    else Ret (on_t_vms (alter (λ r, mkVMRow (Some n) (vm_touch (t_now d) (vr_val r))
                                      (vr_disks r) (vr_nics r)) u) d))).

Definition pg_VMRepository : VMRepository World :=
  mkVMRepository World VMRepo_Create VMRepo_GetByID VMRepo_List VMRepo_Update VMRepo_Delete
    VMRepo_UpdateStatus VMRepo_AssignNode.

(** * NodeRepository *)
Definition node_read (u : U) (n : Node) : Node :=
  mkNode (uuid_out u) (node_Name n) (node_Address n) (node_Port n) (node_Status n)
    (node_Resources n) (node_Labels n) (node_Metadata n) (node_LastHeartbeat n)
    (node_CreatedAt n) (node_UpdatedAt n).

Definition node_touch (now : Z) (n : Node) : Node :=
  mkNode (node_ID n) (node_Name n) (node_Address n) (node_Port n) (node_Status n)
    (node_Resources n) (node_Labels n) (node_Metadata n) (node_LastHeartbeat n)
    (node_CreatedAt n) now.

(** A row with the same value in a unique column. *)
Definition taken {A} (column : A → string) (v : string) (m : gmap U A) : bool :=
  existsb (λ ua, String.eqb (column ua.2) v) (map_to_list m).

Definition NodeRepo_Create (node : Node) : M World () :=
  wrap "node_repo: insert" (exec (λ d,
    u ← uuid_arg (node_ID node);
    if bool_decide (is_Some (t_nodes d !! u)) then Err (dup_error "nodes_pkey")
    else if taken node_Name (node_Name node) (t_nodes d) then Err (dup_error "nodes_name_key")
    else Ret (on_t_nodes <[u := mkNode "" (node_Name node) (node_Address node) (node_Port node)
                (node_Status node) (node_Resources node) (node_Labels node) (node_Metadata node)
                None (t_now d) (t_now d)]> d))).

(** [SELECT ... WHERE id = $1] *)
Definition q_by_id {A B} (table : DB → gmap U A) (read : U → A → B) (id : string) (d : DB)
    : outcome (option B) :=
  u ← uuid_arg id; Ret (read u <$> table d !! u).

(** The first row with the name: [SELECT ... WHERE name = $1], [LIMIT 1]. *)
Definition q_by_name {A B} (table : DB → gmap U A) (read : U → A → B) (name_of : A → string)
    (name : string) (d : DB) : outcome (option B) :=
  Ret ((λ ua, read ua.1 ua.2) <$> head (filter (λ ua, name_of ua.2 = name) (map_to_list (table d)))).

Definition NodeRepo_GetByID (id : string) : M World (option Node) :=
  wrap "node_repo: get by id" (query (q_by_id t_nodes node_read id)).

Definition NodeRepo_GetByName (name : string) : M World (option Node) :=
  wrap "node_repo: get by name" (query (q_by_name t_nodes node_read node_Name name)).

Definition node_statuses : list string := ["online"; "offline"; "draining"; "maintenance"; "error"].

Definition q_node_matching (f : NodeFilter) (d : DB) : outcome (list (U * Node)) :=
  _ ← enum_filter "node_status" node_statuses (nf_Status f);
  Ret (filter (λ un : U * Node, Is_true (
         string_is (nf_Status f) (string_of_NodeStatus (node_Status un.2)) &&
         search_ok (nf_Search f) (node_Name un.2)))
       (map_to_list (t_nodes d))).

Definition NodeRepo_List (f : NodeFilter) : M World (list Node * Z) :=
  total ← wrap "node_repo: count" (query (q_count (q_node_matching f)));
  nodes ← wrap "node_repo: list query" (query (q_page (q_node_matching f)
            (λ un, node_CreatedAt un.2) (λ un, node_read un.1 un.2) (nf_Page f) (nf_PerPage f)));
  _ ← wrap "node_repo: rows error" rows_err;
  mret (nodes, total).

Definition NodeRepo_Update (node : Node) : M World () :=
  wrap "node_repo: update" (exec (λ d,
    u ← uuid_arg (node_ID node);
    Ret (on_t_nodes (alter (λ n, node_touch (t_now d) (node_set_maps node n)) u) d))).

(** [DELETE], with [ON DELETE SET NULL] on the machines of the node. *)
Definition NodeRepo_Delete (id : string) : M World () :=
  wrap "node_repo: delete" (exec (λ d,
    u ← uuid_arg id;
    Ret (on_t_vms (fmap (λ r, mkVMRow (if bool_decide (vr_node r = Some u) then None else vr_node r)
                                (vr_val r) (vr_disks r) (vr_nics r)))
        (on_t_nodes (delete u) d)))).

Definition NodeRepo_UpdateStatus (id : string) (st : NodeStatus) : M World () :=
  wrap "node_repo: update status" (exec (λ d,
    u ← uuid_arg id;
    Ret (on_t_nodes (alter (λ n, node_touch (t_now d) (node_set_status st n)) u) d))).

Definition node_beat (now : Z) (r : NodeResources) (n : Node) : Node :=
  mkNode (node_ID n) (node_Name n) (node_Address n) (node_Port n) (node_Status n) r
    (node_Labels n) (node_Metadata n) (Some now) (node_CreatedAt n) now.

Definition NodeRepo_UpdateHeartbeat (id : string) (r : NodeResources) : M World () :=
  wrap "node_repo: update heartbeat" (exec (λ d,
    u ← uuid_arg id;
    Ret (on_t_nodes (alter (node_beat (t_now d) r) u) d))).

Definition pg_NodeRepository : NodeRepository World :=
  mkNodeRepository World NodeRepo_Create NodeRepo_GetByID NodeRepo_GetByName NodeRepo_List
    NodeRepo_Update NodeRepo_Delete NodeRepo_UpdateStatus NodeRepo_UpdateHeartbeat.

(** * ImageRepository *)
Definition img_read (u : U) (i : Image) : Image :=
  mkImage (uuid_out u) (img_Name i) (img_Description i) (img_OS i) (img_OSVersion i)
    (img_Architecture i) (img_Type i) (img_SizeBytes i) (img_Status i) (img_Checksum i)
    (img_SourceURL i) (img_Tags i) (img_CreatedAt i) (img_UpdatedAt i).

Definition img_touch (created now : Z) (i : Image) : Image :=
  mkImage "" (img_Name i) (img_Description i) (img_OS i) (img_OSVersion i)
    (img_Architecture i) (img_Type i) (img_SizeBytes i) (img_Status i) (img_Checksum i)
    (img_SourceURL i) (img_Tags i) created now.

Definition ImageRepo_Create (img : Image) : M World () :=
  wrap "image_repo: insert" (exec (λ d,
    u ← uuid_arg (img_ID img);
    if bool_decide (is_Some (t_images d !! u)) then Err (dup_error "images_pkey")
    else Ret (on_t_images <[u := img_touch (t_now d) (t_now d) img]> d))).

Definition ImageRepo_GetByID (id : string) : M World (option Image) :=
  wrap "image_repo: get by id" (query (q_by_id t_images img_read id)).

Definition ImageRepo_GetByName (name : string) : M World (option Image) :=
  wrap "image_repo: get by name" (query (q_by_name t_images img_read img_Name name)).

Definition q_image_matching (f : ImageFilter) (d : DB) : outcome (list (U * Image)) :=
  Ret (filter (λ ui : U * Image, Is_true (
         string_is (if_OS f) (img_OS ui.2) &&
         string_is (if_Architecture f) (img_Architecture ui.2) &&
         string_is (if_Type f) (img_Type ui.2) &&
         search_ok (if_Search f) (img_Name ui.2)))
       (map_to_list (t_images d))).

Definition ImageRepo_List (f : ImageFilter) : M World (list Image * Z) :=
  total ← wrap "image_repo: count" (query (q_count (q_image_matching f)));
  images ← wrap "image_repo: list query" (query (q_page (q_image_matching f)
             (λ ui, img_CreatedAt ui.2) (λ ui, img_read ui.1 ui.2) (if_Page f) (if_PerPage f)));
  _ ← wrap "image_repo: rows error" rows_err;
  mret (images, total).

Definition ImageRepo_Update (img : Image) : M World () :=
  wrap "image_repo: update" (exec (λ d,
    u ← uuid_arg (img_ID img);
    Ret (on_t_images (alter (λ i, img_touch (img_CreatedAt i) (t_now d) img) u) d))).

(** [UPDATE images SET status, ..., updated_at=now()] with the columns given. *)
Definition set_image (id : string) (st : ImageStatus) (size : option Z) (sum : option string)
    : M World () :=
  wrap "image_repo: update status" (exec (λ d,
    u ← uuid_arg id;
    Ret (on_t_images (alter (λ i, img_touch (img_CreatedAt i) (t_now d)
           (img_set_result st (default (img_SizeBytes i) size) (default (img_Checksum i) sum) i)) u) d))).

Definition ImageRepo_UpdateStatus (id : string) (st : ImageStatus) (sizeBytes : Z) (checksum : string)
    : M World () :=
  if (0 <? sizeBytes)%Z && negb (String.eqb checksum "")
  then set_image id st (Some sizeBytes) (Some checksum)
  else if (0 <? sizeBytes)%Z then set_image id st (Some sizeBytes) None
  else if negb (String.eqb checksum "") then set_image id st None (Some checksum)
  else set_image id st None None.

(** [DELETE], with [ON DELETE SET NULL] on the disks made from the image. *)
Definition disk_unlink (u : U) (r : disk_row) : disk_row :=
  mkDiskRow (dk_id r) (if bool_decide (dk_image r = Some u) then None else dk_image r) (dk_val r).

Definition ImageRepo_Delete (id : string) : M World () :=
  wrap "image_repo: delete" (exec (λ d,
    u ← uuid_arg id;
    Ret (on_t_vms (fmap (λ r, mkVMRow (vr_node r) (vr_val r) (disk_unlink u <$> vr_disks r) (vr_nics r)))
        (on_t_images (delete u) d)))).

Definition pg_ImageRepository : ImageRepository World :=
  mkImageRepository World ImageRepo_Create ImageRepo_GetByID ImageRepo_GetByName ImageRepo_List
    ImageRepo_Update ImageRepo_UpdateStatus ImageRepo_Delete.

(** * SnapshotRepository *)
Definition snap_read (u : U) (r : snap_row) : Snapshot :=
  let s := sr_val r in
  mkSnapshot (uuid_out u) (uuid_out (sr_vm r)) (snap_Name s) (snap_Description s)
    (snap_SizeBytes s) (snap_Status s) (snap_CreatedAt s).

Definition snapshot_statuses : list string := ["creating"; "ready"; "deleted"; "error"].

Definition SnapRepo_Create (snap : Snapshot) : M World () :=
  wrap "snapshot_repo: insert" (exec (λ d,
    u ← uuid_arg (snap_ID snap);
    vm ← uuid_arg (snap_VMID snap);
    if negb (existsb (String.eqb (snap_Status snap)) snapshot_statuses)
    then Err (enum_error "snapshot_status" (snap_Status snap))
    else if bool_decide (is_Some (t_snaps d !! u)) then Err (dup_error "snapshots_pkey")
    else if negb (vm_exists d vm) then Err (fk_error "snapshots" "snapshots_vm_id_fkey")
    else Ret (on_t_snaps <[u := mkSnapRow vm (mkSnapshot "" "" (snap_Name snap)
                (snap_Description snap) (snap_SizeBytes snap) (snap_Status snap) (t_now d))]> d))).

Definition SnapRepo_GetByID (id : string) : M World (option Snapshot) :=
  wrap "snapshot_repo: get by id" (query (q_by_id t_snaps snap_read id)).

Definition q_snaps_of (vmID : string) (d : DB) : outcome (list Snapshot) :=
  u ← uuid_arg vmID;
  Ret (map (λ ur, snap_read ur.1 ur.2)
         (newest_first (λ ur, snap_CreatedAt (sr_val ur.2))
            (filter (λ ur : U * snap_row, sr_vm ur.2 = u) (map_to_list (t_snaps d))))).

Definition SnapRepo_ListByVM (vmID : string) : M World (list Snapshot) :=
  snapshots ← wrap "snapshot_repo: list by vm" (query (q_snaps_of vmID));
  _ ← wrap "snapshot_repo: rows error" rows_err;
  mret snapshots.

Definition SnapRepo_Delete (id : string) : M World () :=
  wrap "snapshot_repo: delete" (exec (λ d,
    u ← uuid_arg id; Ret (on_t_snaps (delete u) d))).

Definition pg_SnapshotRepository : SnapshotRepository World :=
  mkSnapshotRepository World SnapRepo_Create SnapRepo_GetByID SnapRepo_ListByVM SnapRepo_Delete.

(** * BackupRepository *)
Definition backup_read (u : U) (r : backup_row) : Backup :=
  let b := br_val r in
  mkBackup (uuid_out u) (bk_Name b) (uuid_out (br_vm r)) (bk_OrganizationID b) (bk_Status b)
    (bk_SizeBytes b) (bk_Type b) (bk_StoragePool b) (bk_CreatedAt b) (bk_CompletedAt b).

Definition BackupRepo_Create (backup : Backup) : M World () :=
  wrap "backup_repo: insert" (exec (λ d,
    u ← uuid_arg (bk_ID backup);
    vm ← uuid_arg (bk_VMID backup);
    org ← uuid_arg (bk_OrganizationID backup);
    if bool_decide (is_Some (t_backups d !! u)) then Err (dup_error "backups_pkey")
    else if negb (vm_exists d vm) then Err (fk_error "backups" "backups_vm_id_fkey")
    else Ret (on_t_backups <[u := mkBackupRow vm (mkBackup "" (bk_Name backup) "" (uuid_out org)
                (bk_Status backup) (bk_SizeBytes backup) (bk_Type backup) (bk_StoragePool backup)
                (t_now d) None)]> d))).

Definition BackupRepo_GetByID (id : string) : M World (option Backup) :=
  wrap "backup_repo: get by id" (query (q_by_id t_backups backup_read id)).

Definition q_backup_matching (f : BackupFilter) (d : DB) : outcome (list (U * backup_row)) :=
  vm ← uuid_nullif (bf_VMID f);
  org ← uuid_nullif (bf_OrganizationID f);
  Ret (filter (λ ur : U * backup_row, Is_true (
         text_is vm (Some (uuid_out (br_vm ur.2))) &&
         text_is org (Some (bk_OrganizationID (br_val ur.2)))))
       (map_to_list (t_backups d))).

Definition BackupRepo_List (f : BackupFilter) : M World (list Backup * Z) :=
  total ← wrap "backup_repo: count" (query (q_count (q_backup_matching f)));
  backups ← wrap "backup_repo: list query" (query (q_page (q_backup_matching f)
              (λ ur, bk_CreatedAt (br_val ur.2)) (λ ur, backup_read ur.1 ur.2) (bf_Page f) (bf_PerPage f)));
  _ ← wrap "backup_repo: rows error" rows_err;
  mret (backups, total).

Definition backup_edit (b : Backup) (r : backup_row) : backup_row :=
  let v := br_val r in
  mkBackupRow (br_vm r) (mkBackup (bk_ID v) (bk_Name v) (bk_VMID v) (bk_OrganizationID v)
    (bk_Status b) (bk_SizeBytes b) (bk_Type v) (bk_StoragePool v) (bk_CreatedAt v) (bk_CompletedAt b)).

Definition BackupRepo_Update (backup : Backup) : M World () :=
  wrap "backup_repo: update" (exec (λ d,
    u ← uuid_arg (bk_ID backup); Ret (on_t_backups (alter (backup_edit backup) u) d))).

Definition BackupRepo_Delete (id : string) : M World () :=
  wrap "backup_repo: delete" (exec (λ d,
    u ← uuid_arg id; Ret (on_t_backups (delete u) d))).

Definition pg_BackupRepository : BackupRepository World :=
  mkBackupRepository World BackupRepo_Create BackupRepo_GetByID BackupRepo_List BackupRepo_Update
    BackupRepo_Delete.

(** * FlavorRepository *)
Definition fl_at (id : string) (created updated : Z) (f : Flavor) : Flavor :=
  mkFlavor id (fl_Name f) (fl_Description f) (fl_VCpus f) (fl_MemoryMB f) (fl_DiskGB f) created updated.
Definition fl_read (u : U) (f : Flavor) : Flavor :=
  fl_at (uuid_out u) (fl_CreatedAt f) (fl_UpdatedAt f) f.

Definition FlavorRepo_Create (f : Flavor) : M World () :=
  wrap "flavor_repo: insert" (exec (λ d,
    u ← uuid_arg (fl_ID f);
    if bool_decide (is_Some (t_flavors d !! u)) then Err (dup_error "flavors_pkey")
    else if taken fl_Name (fl_Name f) (t_flavors d) then Err (dup_error "flavors_name_key")
    else Ret (on_t_flavors <[u := fl_at "" (t_now d) (t_now d) f]> d))).

Definition FlavorRepo_GetByID (id : string) : M World (option Flavor) :=
  wrap "flavor_repo: get by id" (query (q_by_id t_flavors fl_read id)).

Definition FlavorRepo_GetByName (name : string) : M World (option Flavor) :=
  wrap "flavor_repo: get by name" (query (q_by_name t_flavors fl_read fl_Name name)).

(** [ORDER BY vcpus, memory_mb] *)
Definition q_flavors (d : DB) : outcome (list Flavor) :=
  Ret (sort_by (λ f g, (fl_VCpus f <? fl_VCpus g)%Z
                       || ((fl_VCpus f =? fl_VCpus g)%Z && (fl_MemoryMB f <? fl_MemoryMB g)%Z))
         (map (λ uf, fl_read uf.1 uf.2) (map_to_list (t_flavors d)))).

Definition FlavorRepo_List : M World (list Flavor) :=
  out ← wrap "flavor_repo: list" (query q_flavors);
  _ ← rows_err;
  mret out.

Definition FlavorRepo_Delete (id : string) : M World () :=
  wrap "flavor_repo: delete" (exec (λ d,
    u ← uuid_arg id; Ret (on_t_flavors (delete u) d))).

Definition pg_FlavorRepository : FlavorRepository World :=
  mkFlavorRepository World FlavorRepo_Create FlavorRepo_GetByID FlavorRepo_GetByName FlavorRepo_List
    FlavorRepo_Delete.

(** * KeypairRepository *)
Definition kp_read (u : U) (k : Keypair) : Keypair :=
  mkKeypair (uuid_out u) (kp_Name k) (kp_PublicKey k) (kp_Fingerprint k) (kp_OrganizationID k)
    (kp_CreatedAt k).

(** [UNIQUE(name, organization_id)] *)
Definition KeypairRepo_Create (k : Keypair) : M World () :=
  wrap "keypair_repo: insert" (exec (λ d,
    u ← uuid_arg (kp_ID k);
    org ← uuid_arg (kp_OrganizationID k);
    if bool_decide (is_Some (t_keypairs d !! u)) then Err (dup_error "keypairs_pkey")
    else if existsb (λ ur, String.eqb (kp_Name ur.2) (kp_Name k)
                           && String.eqb (kp_OrganizationID ur.2) (uuid_out org))
              (map_to_list (t_keypairs d))
    then Err (dup_error "keypairs_name_organization_id_key")
    else Ret (on_t_keypairs <[u := mkKeypair "" (kp_Name k) (kp_PublicKey k) (kp_Fingerprint k)
                                    (uuid_out org) (t_now d)]> d))).

Definition KeypairRepo_GetByID (id : string) : M World (option Keypair) :=
  wrap "keypair_repo: get by id" (query (q_by_id t_keypairs kp_read id)).

Definition q_keypair (name orgID : string) (d : DB) : outcome (option Keypair) :=
  org ← uuid_nullif orgID;
  Ret ((λ uk, kp_read uk.1 uk.2) <$>
       head (filter (λ uk : U * Keypair,
                kp_Name uk.2 = name ∧ Is_true (text_is org (Some (kp_OrganizationID uk.2))))
              (map_to_list (t_keypairs d)))).

Definition KeypairRepo_GetByName (name orgID : string) : M World (option Keypair) :=
  wrap "keypair_repo: get by name" (query (q_keypair name orgID)).

Definition q_keypairs (orgID : string) (d : DB) : outcome (list Keypair) :=
  org ← uuid_nullif orgID;
  Ret (newest_first kp_CreatedAt (map (λ uk, kp_read uk.1 uk.2)
         (filter (λ uk : U * Keypair, Is_true (text_is org (Some (kp_OrganizationID uk.2))))
            (map_to_list (t_keypairs d))))).

Definition KeypairRepo_List (orgID : string) : M World (list Keypair) :=
  out ← wrap "keypair_repo: list" (query (q_keypairs orgID));
  _ ← rows_err;
  mret out.

Definition KeypairRepo_Delete (id : string) : M World () :=
  wrap "keypair_repo: delete" (exec (λ d,
    u ← uuid_arg id; Ret (on_t_keypairs (delete u) d))).

Definition pg_KeypairRepository : KeypairRepository World :=
  mkKeypairRepository World KeypairRepo_Create KeypairRepo_GetByID KeypairRepo_GetByName
    KeypairRepo_List KeypairRepo_Delete.

(** * The world outside the database *)

(** Every id in use: issued by [uuid.New] or stored. *)
Definition ids_in {A} (m : gmap U A) : gset string := list_to_set ((uuid_out ∘ fst) <$> map_to_list m).
Definition known_ids (w : World) : gset string :=
  let d := w_db w in
  w_ids w ∪ ids_in (t_vms d) ∪ ids_in (t_nodes d) ∪ ids_in (t_images d) ∪ ids_in (t_snaps d)
  ∪ ids_in (t_backups d) ∪ ids_in (t_flavors d) ∪ ids_in (t_keypairs d)
  ∪ list_to_set ((uuid_out ∘ nt_id) <$> t_networks d).

Definition uuid_New : M World string := λ w,
  let id := uuid_out (uuid_new (known_ids w)) in
  (Ret id, mkWorld (w_db w) (w_faults w) (w_msgs w) (w_pub_faults w) (w_tasks w) (w_files w)
             ({[id]} ∪ w_ids w)).

Definition stat_file (p : string) : M World (option Z) := gets (λ w, w_files w !! p).

Definition start_download (t : DownloadTask) : M World () :=
  modify (λ w, mkWorld (w_db w) (w_faults w) (w_msgs w) (w_pub_faults w) (w_tasks w ++ [t])
                 (w_files w) (w_ids w)).

Definition pg_Env : Env World := mkEnv World uuid_New stat_file start_download.

(** * EventPublisher *)

(** [p.js.Publish]: the stream stores the message, or reports an error and
    stores it or not. *)
Definition js_Publish (subject : string) (data : json) : M World () := λ w,
  let sent := w_msgs w ++ [(subject, data)] in
  let after ms := mkWorld (w_db w) (w_faults w) ms (drop 1 (w_pub_faults w)) (w_tasks w)
                    (w_files w) (w_ids w) in
  match w_pub_faults w with
  | Some (e, stored) :: _ => (Err e, after (if stored then sent else w_msgs w))
  | _ => (Ret (), after sent)
  end.

Definition pub_Publish (subject : string) (data : json) : M World () :=
  wrap ("nats: publish to " +:+ subject) (js_Publish subject data).
Definition pub_PublishVMEvent (eventType vmID : string) (data : json) : M World () :=
  pub_Publish ("events.vm." +:+ vmID +:+ "." +:+ eventType) data.
Definition pub_PublishNodeEvent (eventType nodeID : string) (data : json) : M World () :=
  pub_Publish ("events.node." +:+ nodeID +:+ "." +:+ eventType) data.

Definition nats_EventPublisher : EventPublisher World :=
  mkEventPublisher World pub_Publish pub_PublishVMEvent pub_PublishNodeEvent.

(** * IPAMRepository *)
Definition no_rows : string := "no rows in result set".

(** The network named ['default'] of an organization. *)
Definition q_default_network (organizationID : string) (d : DB) : outcome (string * string) :=
  org ← uuid_arg organizationID;
  match filter (λ n, nt_org n = org ∧ nt_name n = "default") (t_networks d) with
  | n :: _ => Ret (uuid_out (nt_id n), nt_cidr n)
  | [] => Err no_rows
  end.

(** [INSERT INTO private_networks ... RETURNING id::text]; the id is the
    server's [uuid_generate_v4()], and no constraint can conflict. *)
Definition insert_network (new : U) (organizationID cidr : string) (d : DB) : outcome (string * DB) :=
  org ← uuid_arg organizationID;
  match inet_in cidr with
  | None => Err (sql_error ("invalid input syntax for type inet: " +:+ Quote cidr) "22P02")
  | Some c => Ret (uuid_out new, tick (on_t_networks (λ l, l ++ [mkNetRow new org "default" c]) d))
  end.

Definition insert_subnet (networkID cidr : string) (d : DB) : outcome DB :=
  net ← uuid_arg networkID;
  match inet_in cidr with
  | None => Err (sql_error ("invalid input syntax for type inet: " +:+ Quote cidr) "22P02")
  | Some c =>
      if existsb (λ n, bool_decide (nt_id n = net)) (t_networks d)
      then Ret (on_t_subnets (λ l, l ++ [mkSubnetRow net c true (Some (cidr_next c)) (t_now d)]) d)
      else Err (fk_error "subnets" "subnets_network_id_fkey")
  end.

Definition IPAM_EnsureDefaultNetwork (organizationID : string) : M World (string * string) :=
  let organizationID := if String.eqb organizationID ""
                        then "00000000-0000-0000-0000-000000000000" else organizationID in
  r ← attempt (query (q_default_network organizationID));
  match r with
  | inl nc => mret nc
  | inr _ =>
      let cidr := "10.0.0.0/16" in
      new ← gets (λ w, uuid_new (known_ids w));
      r ← attempt (stmt (insert_network new organizationID cidr));
      match r with
      | inr err =>
          r2 ← attempt (query (q_default_network organizationID));
          match r2 with
          | inl nc => mret nc
          | inr _ => fail ("create default network: " +:+ err)
          end
      | inl networkID =>
          _ ← ignore (exec (insert_subnet networkID cidr));
          mret (networkID, cidr)
      end
  end.

(** [ORDER BY dhcp_enabled DESC, created_at ASC LIMIT 1] *)
Definition subnet_before (x y : subnet_row) : bool :=
  (sn_dhcp x && negb (sn_dhcp y))
  || (Bool.eqb (sn_dhcp x) (sn_dhcp y) && (sn_created x <? sn_created y)%Z).

Definition q_subnet (networkID : string) (d : DB) : outcome (string * string) :=
  net ← uuid_arg networkID;
  match sort_by subnet_before (filter (λ s, sn_net s = net) (t_subnets d)) with
  | s :: _ => Ret (sn_cidr s, default (cidr_next (sn_cidr s)) (sn_gateway s))
  | [] => Err no_rows
  end.

Definition q_used (networkID : string) (d : DB) : outcome (list string) :=
  net ← uuid_arg networkID;
  Ret (omap (λ ur, head (nic_IPv4Addresses (nk_val ur.2)))
         (filter (λ ur : U * nic_row, nk_net ur.2 = Some net) (all_nics d))).

Definition IPAM_AllocateIP (networkID : string) : M World (string * string * string) :=
  sg ← wrap ("network " +:+ networkID +:+ " has no subnet") (query (q_subnet networkID));
  used ← wrap "query used IPs" (query (q_used networkID));
  _ ← rows_err;
  match NextAvailableIP sg.1 used with
  | Ret (allocated, gw2) =>
      mret (allocated, if String.eqb sg.2 "" then gw2 else sg.2, sg.1)
  | Err e => fail e
  | Panic => panic
  end.

Definition pg_IPAM : IPAMAllocator World := mkIPAMAllocator World IPAM_EnsureDefaultNetwork IPAM_AllocateIP.

End pg.
