(* ===== verification/PgSound.v ===== *)
(** What the PostgreSQL repositories promise: the relational state of
    [PgControl] seen as the abstract state of [Interfaces], and each repository
    of [services/controlplane/postgres], the publisher and the environment shown
    to keep the promises its clients rely on, whatever statements the server
    refuses. *)
From stdpp Require Import base gmap strings list numbers fin_maps.
From S2P Require Import Prelude.
From S2P Require Import GoStd.
From S2P Require Import Ipam.
From S2P Require Import Domain.
From S2P Require Import Interfaces.
From S2P Require Import PgControl.
From stdpp Require Import options.

#[local] Set Default Proof Using "Type*".

Section sound.
Context {U : Type} `{Pg U, !PgLaws U}.
Abbreviation World := (PgControl.World (U:=U)).
Abbreviation DB := (PgControl.DB (U:=U)).

(** * The view of a table *)
#[export] Instance uuid_out_inj : Inj (=) (=) (uuid_out (U:=U)).
Proof. intros u v E. apply (f_equal uuid_in) in E. rewrite !uuid_in_out in E. by simplify_eq. Qed.

Lemma uuid_out_ne (u : U) : uuid_out u ≠ "".
Proof. intros E. pose proof (uuid_in_out u) as E2. rewrite E, uuid_in_empty in E2. done. Qed.

Definition pg_key (id : string) : string :=
  match uuid_in (U:=U) id with Some u => uuid_out u | None => id end.

Lemma pg_key_out u : pg_key (uuid_out u) = uuid_out u.
Proof. unfold pg_key. by rewrite uuid_in_out. Qed.

Lemma pg_key_idem id : pg_key (pg_key id) = pg_key id.
Proof. unfold pg_key at 2 3. destruct (uuid_in id) eqn:E; [apply pg_key_out|]. unfold pg_key. by rewrite E. Qed.

Lemma pg_key_empty : pg_key "" = "".
Proof. unfold pg_key. by rewrite uuid_in_empty. Qed.

Lemma uuid_arg_Ret s u : uuid_arg (U:=U) s = Ret u → uuid_out u = pg_key s.
Proof. unfold uuid_arg, pg_key. destruct (uuid_in s); by intros [= ->]. Qed.

Definition view {A B} (read : U → A → B) (m : gmap U A) : gmap string B :=
  kmap uuid_out (map_imap (λ u a, Some (read u a)) m).

Section view.
Context {A B : Type} (read : U → A → B).
Implicit Types m : gmap U A.

Lemma view_lookup m u : view read m !! uuid_out u = read u <$> m !! u.
Proof. unfold view. rewrite lookup_kmap, map_lookup_imap by apply _. by destruct (m !! u). Qed.

Lemma view_Some m k b : view read m !! k = Some b →
  ∃ u a, k = uuid_out u ∧ m !! u = Some a ∧ b = read u a.
Proof.
  unfold view. rewrite lookup_kmap_Some by apply _. intros (u & -> & Hb).
  rewrite map_lookup_imap in Hb. destruct (m !! u) as [a|] eqn:E; simplify_eq/=. eauto.
Qed.

(** Two maps over printed UUIDs are equal when they agree on each UUID. *)
Lemma view_eq m (M' : gmap string B) :
  (∀ u, M' !! uuid_out u = read u <$> m !! u) →
  (∀ k, is_Some (M' !! k) → ∃ u : U, k = uuid_out u) → view read m = M'.
Proof.
  intros Hu Hk. apply map_eq. intros k.
  destruct (view read m !! k) as [b|] eqn:E.
  - apply view_Some in E as (u & a & -> & Ea & ->). by rewrite Hu, Ea.
  - destruct (M' !! k) as [b|] eqn:E'; [|done].
    destruct (Hk k) as [u ->]; [done|]. rewrite Hu in E'. rewrite view_lookup in E. congruence.
Qed.

Lemma view_dom m k : is_Some (view read m !! k) → ∃ u : U, k = uuid_out u.
Proof. intros [b (u & _ & -> & _)%view_Some]. eauto. Qed.

Lemma view_insert m u a : view read (<[u := a]> m) = <[uuid_out u := read u a]> (view read m).
Proof.
  apply view_eq.
  - intros v. destruct (decide (u = v)) as [->|]; [by rewrite !lookup_insert_eq|].
    by rewrite !lookup_insert_ne, view_lookup by (done || by intros ?%(inj uuid_out)).
  - intros k. destruct (decide (uuid_out u = k)) as [<-|]; [by eauto|].
    rewrite lookup_insert_ne by done. apply view_dom.
Qed.

Lemma view_delete m u : view read (delete u m) = delete (uuid_out u) (view read m).
Proof.
  apply view_eq.
  - intros v. destruct (decide (u = v)) as [->|]; [by rewrite !lookup_delete_eq|].
    by rewrite !lookup_delete_ne, view_lookup by (done || by intros ?%(inj uuid_out)).
  - intros k. rewrite lookup_delete_is_Some. intros [_ ?]. by eapply view_dom.
Qed.

Lemma view_alter m u f g : (∀ a, read u (f a) = g (read u a)) →
  view read (alter f u m) = alter g (uuid_out u) (view read m).
Proof.
  intros Hfg. apply view_eq.
  - intros v. destruct (decide (u = v)) as [->|].
    + rewrite !lookup_alter_eq, view_lookup. destruct (m !! v); simpl; [by rewrite Hfg|done].
    + by rewrite !lookup_alter_ne, view_lookup by (done || by intros ?%(inj uuid_out)).
  - intros k. rewrite lookup_alter_is_Some. apply view_dom.
Qed.

Lemma view_fmap m (f : A → A) (g : B → B) : (∀ u a, read u (f a) = g (read u a)) →
  view read (f <$> m) = g <$> view read m.
Proof.
  intros Hfg. apply view_eq.
  - intros u. rewrite !lookup_fmap, view_lookup. destruct (m !! u); simpl; [by rewrite Hfg|done].
  - intros k. rewrite lookup_fmap, fmap_is_Some. apply view_dom.
Qed.

Lemma view_filter m (P : U * A → Prop) (Q : string * B → Prop)
    `{!∀ x, Decision (P x), !∀ x, Decision (Q x)} :
  (∀ u a, P (u, a) ↔ Q (uuid_out u, read u a)) →
  view read (filter P m) = filter Q (view read m).
Proof.
  intros HPQ. apply view_eq.
  - intros u. rewrite !map_lookup_filter, view_lookup.
    destruct (m !! u) as [a|]; simpl; [|done].
    repeat case_guard; simpl; try done; exfalso; naive_solver.
  - intros k [b Hb]. apply map_lookup_filter_Some in Hb as [? _]. by eapply view_dom.
Qed.

End view.

(** * The abstract state *)
Definition full_vm (u : U) (r : vm_row) : VirtualMachine :=
  vm_set_related (by_order disk_Order (disk_read <$> vr_disks r)) (nic_read <$> vr_nics r) (vm_read u r).

Definition pg_abs (w : World) : Abs :=
  let d := w_db w in
  mkAbs (view (λ u r, vm_untimed (full_vm u r)) (t_vms d))
    (view (λ u n, node_untimed (node_read u n)) (t_nodes d))
    (view (λ u i, img_untimed (img_read u i)) (t_images d))
    (view (λ u r, snap_untimed (snap_read u r)) (t_snaps d))
    (view (λ u r, bk_untimed (backup_read u r)) (t_backups d))
    (view (λ u f, fl_untimed (fl_read u f)) (t_flavors d))
    (view (λ u k, kp_untimed (kp_read u k)) (t_keypairs d))
    (w_msgs w) (w_tasks w) (w_ids w).

(** * Statements *)
Lemma bind_np {A B} (m : outcome A) (k : A → outcome B) :
  m ≠ Panic → (∀ a, k a ≠ Panic) → m ≫= k ≠ Panic.
Proof using. by destruct m; simpl; auto. Qed.

Lemma bind_Ret {A B} (m : outcome A) (k : A → outcome B) b :
  m ≫= k = Ret b → ∃ a, m = Ret a ∧ k a = Ret b.
Proof using. destruct m; simpl; [eauto|done..]. Qed.

Lemma uuid_arg_np s : uuid_arg (U:=U) s ≠ Panic.
Proof using. unfold uuid_arg. by case_match. Qed.
Lemma uuid_opt_np s : uuid_opt (U:=U) s ≠ Panic.
Proof using. destruct s; simpl; [|done]. apply bind_np; [apply uuid_arg_np|done]. Qed.
Lemma uuid_nullif_np s : uuid_nullif (U:=U) s ≠ Panic.
Proof using. unfold uuid_nullif. case_match; [done|]. apply bind_np; [apply uuid_arg_np|done]. Qed.
Lemma uuid_args_np l : uuid_args (U:=U) l ≠ Panic.
Proof using.
  induction l; simpl; [done|]. apply bind_np; [apply uuid_arg_np|]. intros u. by apply bind_np.
Qed.
Lemma inet_args_np l : inet_args (U:=U) l ≠ Panic.
Proof using. induction l; simpl; [done|]. case_match; [|done]. by apply bind_np. Qed.
Lemma enum_filter_np ty vs s : enum_filter ty vs s ≠ Panic.
Proof using. unfold enum_filter. by case_match. Qed.

(** No statement panics. *)
Create HintDb sql.
#[local] Hint Unfold q_vm q_disks q_nics q_vm_matching q_count q_page q_disks_any q_nics_any
  q_by_id q_by_name q_node_matching q_image_matching q_snaps_of q_backup_matching q_flavors
  q_keypair q_keypairs q_default_network q_subnet q_used insert_vm insert_disk insert_nic
  insert_network insert_subnet : sql.

Ltac np := autounfold with sql;
  repeat first
    [ done | apply uuid_arg_np | apply uuid_opt_np | apply uuid_nullif_np | apply uuid_args_np
    | apply inet_args_np | apply enum_filter_np | apply page_slice_np
    | apply bind_np; [|intros ?] | case_match ].

(** A statement that succeeded, step by step. *)
Ltac inv_ret H :=
  try autounfold with sql in H;
  repeat match type of H with
  | (_ ≫= _) = Ret _ =>
      let a := fresh "a" in let E := fresh "E" in
      apply bind_Ret in H as (a & E & H)
  | (if _ then _ else _) = Ret _ => case_match; simplify_eq/=
  end.

Lemma wp_query {A} (f : DB → outcome A) w : f (w_db w) ≠ Panic →
  wp (query f) (post
    (λ a w', f (w_db w) = Ret a ∧ w_db w' = w_db w ∧ pg_abs w' = pg_abs w)
    (λ _ w', pg_abs w' = pg_abs w)) w.
Proof.
  intros Hp. unfold wp, query, stmt.
  destruct (w_faults w) as [|[e|] ?]; simpl; [|done|];
    destruct (f (w_db w)) as [a|e'|]; simpl; try done.
Qed.

Lemma reads_query {A} (f : DB → outcome A) w : f (w_db w) ≠ Panic →
  reads pg_abs (query f) w (λ a, f (w_db w) = Ret a).
Proof. intros Hp. eapply wp_post; [by apply wp_query| |done]. by intros a w' (? & _ & ?). Qed.

Lemma writes_exec (f : DB → outcome DB) F w : f (w_db w) ≠ Panic →
  (∀ d, f (w_db w) = Ret d → pg_abs (set_db d w) = F (pg_abs w)) →
  writes pg_abs (exec f) w F.
Proof.
  intros Hp Hf. unfold writes, wp, exec, stmt.
  destruct (w_faults w) as [|[e|] ?]; simpl; [|done|];
    destruct (f (w_db w)) as [d|e'|] eqn:E; simpl; try done; by rewrite <-(Hf d).
Qed.

(** The same with a condition on the state in which the statement succeeded. *)
Lemma creates_exec (f : DB → outcome DB) (Q : Abs → Prop) w : f (w_db w) ≠ Panic →
  (∀ d, f (w_db w) = Ret d → Q (pg_abs (set_db d w))) →
  wp (exec f) (post (λ _ w', Q (pg_abs w')) (λ _ w', pg_abs w' = pg_abs w)) w.
Proof.
  intros Hp Hf. unfold wp, exec, stmt.
  destruct (w_faults w) as [|[e|] ?]; simpl; [|done|];
    destruct (f (w_db w)) as [d|e'|] eqn:E; simpl; try done; by apply (Hf d).
Qed.

Lemma q_by_id_Ret {A B} (table : DB → gmap U A) (read : U → A → B) id d o :
  q_by_id table read id d = Ret o → ∃ u, uuid_out u = pg_key id ∧ o = read u <$> table d !! u.
Proof. intros Hq. inv_ret Hq. exists a. split; [by apply uuid_arg_Ret|by simplify_eq]. Qed.

Lemma q_by_name_Ret {A B} (table : DB → gmap U A) (read : U → A → B) nm name d o :
  q_by_name table read nm name d = Ret o →
  match o with
  | Some b => ∃ u a, b = read u a ∧ table d !! u = Some a ∧ nm a = name
  | None => ∀ u a, table d !! u = Some a → nm a ≠ name
  end.
Proof.
  intros [= <-]. destruct (filter _ _) as [|[u a] l] eqn:E; simpl.
  - intros u a Ha Hn. assert (Hin : (u, a) ∈ filter (λ ua, nm ua.2 = name) (map_to_list (table d))).
    { apply list_elem_of_filter. by rewrite elem_of_map_to_list. }
    rewrite E in Hin. by apply elem_of_nil in Hin.
  - assert (Hin : (u, a) ∈ filter (λ ua, nm ua.2 = name) (map_to_list (table d))) by (rewrite E; left).
    apply list_elem_of_filter in Hin as [? ?%elem_of_map_to_list]. eauto.
Qed.

Lemma taken_spec {A} (column : A → string) v (m : gmap U A) :
  taken column v m = false → ∀ u a, m !! u = Some a → column a ≠ v.
Proof.
  intros Ht u a Ha <-. unfold taken in Ht. apply not_true_iff_false in Ht. apply Ht.
  apply existsb_exists. exists (u, a). split; [by apply list_elem_of_In, elem_of_map_to_list|].
  apply String.eqb_refl.
Qed.

(** A page of a listing is part of the rows that satisfy the filter; the first
    page is empty only when no row does. *)
Lemma page_slice_Ret {A} page perPage (l r : list A) : page_slice page perPage l = Ret r →
  r ⊆+ l ∧ (r = [] → (page ≤ 1)%Z → l = []).
Proof using.
  unfold page_slice. case_match eqn:Ho; [done|]. intros [= <-]. split.
  - etrans; [apply sublist_submseteq, sublist_take|apply sublist_submseteq, sublist_drop].
  - intros Hr Hp. assert (Hz : int64 ((page_of page - 1) * per_page_of perPage) = 0%Z).
    { unfold page_of. case_match; [done|]. by replace page with 1%Z by lia. }
    rewrite Hz in Hr. change (drop (Z.to_nat 0) l) with l in Hr.
    destruct l as [|x l]; [done|]. exfalso.
    assert (Hpp : (1 ≤ per_page_of perPage)%Z) by (unfold per_page_of; case_match; lia).
    replace (Z.to_nat (per_page_of perPage)) with (S (Z.to_nat (per_page_of perPage - 1))) in Hr by lia.
    done.
Qed.

Lemma q_page_Ret {A B} (q : DB → outcome (list A)) created (read : A → B) page perPage d l :
  q_page q created read page perPage d = Ret l →
  ∃ rows pg, q d = Ret rows ∧ l = map read pg ∧ pg ⊆+ rows ∧
    (l = [] → (page ≤ 1)%Z → rows = []).
Proof using.
  intros Hq. inv_ret Hq. simplify_eq. exists a, a0.
  assert (Hp : newest_first created a ≡ₚ a) by apply sort_by_perm.
  apply page_slice_Ret in E0 as [Hs He]. split_and!; [done|done|by rewrite Hp in Hs|].
  intros Hl Hpage. apply map_eq_nil in Hl. rewrite (He Hl Hpage) in Hp. by apply Permutation_nil.
Qed.

Lemma reads_bind {A B} (m : M World A) (k : A → M World B) w QA Q :
  reads pg_abs m w QA →
  (∀ a w', QA a → pg_abs w' = pg_abs w → reads pg_abs (k a) w' Q) →
  reads pg_abs (m ≫= k) w Q.
Proof.
  intros Hm Hk. eapply wp_bind_reads; [exact Hm| |done].
  intros a w' Ha Hw. eapply wp_post; [by apply (Hk a w')| |]; simpl; [|congruence].
  intros b w'' []. split; [done|congruence].
Qed.

(** The listing of a table: a count, a page, and the rows' error. *)
Lemma reads_list {A B} c1 c2 c3 (q : DB → outcome (list A)) created (read : A → B) page perPage w :
  (∀ d, q d ≠ Panic) →
  reads pg_abs (total ← wrap c1 (query (q_count q));
                xs ← wrap c2 (query (q_page q created read page perPage));
                _ ← wrap c3 rows_err;
                mret (xs, total)) w
    (λ r, ∃ w' rows pg, pg_abs w' = pg_abs w ∧ q (w_db w') = Ret rows ∧ r.1 = map read pg ∧
            pg ⊆+ rows ∧ (r.1 = [] → (page ≤ 1)%Z → rows = [])).
Proof.
  intros Hq. eapply reads_bind; [apply reads_wrap, reads_query; by apply bind_np|]. intros n w1 _ E1.
  eapply reads_bind; [apply reads_wrap, reads_query|].
  { apply bind_np; [done|]. intros l. apply bind_np; [apply page_slice_np|done]. }
  intros xs w2 (rows & pg & Hr & Hxs)%q_page_Ret E2.
  eapply reads_bind; [by apply reads_wrap, reads_query|]. intros [] w3 _ E3.
  apply wp_ret. split; [|congruence]. exists w1, rows, pg. split; [congruence|done].
Qed.

Lemma string_is_spec f s : Is_true (string_is f s) → f ≠ "" → s = f.
Proof.
  unfold string_is. intros [Hf|Hs]%orb_prop_elim Hne.
  - by apply Is_true_true, String.eqb_eq in Hf.
  - by apply Is_true_true, String.eqb_eq in Hs.
Qed.

(** * NodeRepository *)
Lemma q_node_matching_Ret f d rows : q_node_matching f d = Ret rows →
  (∀ u n, (u, n) ∈ rows → t_nodes d !! u = Some n ∧
     (nf_Status f ≠ "" → string_of_NodeStatus (node_Status n) = nf_Status f)) ∧
  (rows = [] → nf_Search f = "" → ∀ u n, t_nodes d !! u = Some n →
     nf_Status f ≠ "" ∧ string_of_NodeStatus (node_Status n) ≠ nf_Status f).
Proof.
  intros Hq. inv_ret Hq. injection Hq as <-. split.
  - intros u n [[Hs _]%andb_prop_elim Hl%elem_of_map_to_list]%list_elem_of_filter.
    split; [done|]. by apply string_is_spec.
  - intros Hnil Hse u n Hn. assert (Hnot : ¬ Is_true (string_is (nf_Status f) (string_of_NodeStatus (node_Status n)))).
    { intros Hs. eapply (elem_of_nil (u, n)). rewrite <-Hnil. apply list_elem_of_filter.
      split; [|by apply elem_of_map_to_list]. apply andb_prop_intro. split; [done|].
      unfold search_ok. by rewrite Hse. }
    unfold string_is in Hnot. split; intros E0; apply Hnot; rewrite E0; [done|].
    rewrite String.eqb_refl. by rewrite orb_true_r.
Qed.

#[export] Instance node_laws : NodeRepoLaws pg_abs pg_key pg_NodeRepository.
Proof.
  split; simpl.
  - intros id w. eapply reads_mono; [apply reads_wrap, reads_query; np|].
    intros o (u & Hu & ->)%q_by_id_Ret. rewrite <-Hu, view_lookup. split.
    + by destruct (t_nodes (w_db w) !! u).
    + intros n. destruct (t_nodes (w_db w) !! u); intros [= <-]. split; [done|]. apply pg_key_out.
  - intros name w. eapply reads_mono; [apply reads_wrap, reads_query; np|].
    intros [n|] Hq%q_by_name_Ret.
    + destruct Hq as (u & a & -> & Ha & <-). split; [done|]. simpl. by rewrite view_lookup, Ha.
    + intros k n (u & a & -> & Ha & ->)%view_Some. simpl. by apply (Hq u).
  - intros f w. eapply reads_mono; [apply reads_list; intros; np|].
    intros r (w' & rows & pg & Ew & Hq & Hr & Hsub & Hnil).
    apply q_node_matching_Ret in Hq as [Hin Hempty].
    change (view _ (t_nodes (w_db w))) with (a_nodes (pg_abs w)). rewrite <-Ew. split.
    + rewrite Hr. apply Forall_fmap, Forall_forall. intros [u n] Hun. simpl.
      destruct (Hin u n) as [Hl Hs]; [by eapply elem_of_submseteq|].
      rewrite view_lookup, Hl, pg_key_out. done.
    + intros Hr0 Hp Hse k n (u & a & -> & Ha & ->)%view_Some. simpl.
      apply (Hempty (Hnil Hr0 Hp) Hse u a Ha).
  - intros n w Hk. eapply wp_post; [apply wp_wrap, (creates_exec _ (λ a,
      a = on_nodes <[node_ID n := node_untimed n]> (pg_abs w) ∧
      a_nodes (pg_abs w) !! node_ID n = None ∧
      ∀ k n', a_nodes (pg_abs w) !! k = Some n' → node_Name n' ≠ node_Name n)); [np|]| |].
    + intros d Hd. inv_ret Hd. apply uuid_arg_Ret in E. rewrite Hk in E. simplify_eq.
      split_and!.
      * unfold pg_abs, on_nodes. simpl. rewrite view_insert. unfold node_untimed. simpl. by rewrite E.
      * simpl. rewrite <-E, view_lookup. by destruct (t_nodes (w_db w) !! a).
      * intros k n' (u & a' & -> & Ha & ->)%view_Some. simpl. by eapply taken_spec.
    + done.
    + by intros e w' (? & _ & ?).
  - intros n w Hk. apply writes_wrap, writes_exec; [np|]. intros d Hd. inv_ret Hd.
    apply uuid_arg_Ret in E. rewrite Hk in E. simplify_eq. unfold pg_abs, on_nodes. simpl.
    by rewrite (view_alter _ _ _ _ (node_set_maps n)), E by done.
  - intros id st w. apply writes_wrap, writes_exec; [np|]. intros d Hd. inv_ret Hd.
    apply uuid_arg_Ret in E. simplify_eq. unfold pg_abs, on_nodes. simpl.
    by rewrite (view_alter _ _ _ _ (node_set_status st)), E by done.
  - intros id r w. apply writes_wrap, writes_exec; [np|]. intros d Hd. inv_ret Hd.
    apply uuid_arg_Ret in E. simplify_eq. unfold pg_abs, on_nodes. simpl.
    by rewrite (view_alter _ _ _ _ (node_set_resources r)), E by done.
Qed.

(** * ImageRepository *)
Lemma q_image_matching_Ret f d rows : q_image_matching f d = Ret rows →
  ∀ u i, (u, i) ∈ rows → t_images d !! u = Some i.
Proof using. intros [= <-] u i [_ ?%elem_of_map_to_list]%list_elem_of_filter. done. Qed.

Lemma disk_unlink_read x r : disk_read (disk_unlink x r) = disk_drop_image (uuid_out x) (disk_read r).
Proof.
  unfold disk_read, disk_drop_image, disk_unlink. simpl. f_equal.
  destruct (dk_image r) as [v|]; simpl.
  - destruct (decide (v = x)) as [->|Hv].
    + by rewrite bool_decide_true, String.eqb_refl.
    + rewrite bool_decide_false by congruence.
      destruct (String.eqb_spec (uuid_out v) (uuid_out x)) as [?%(inj uuid_out)|]; [done|done].
  - destruct (String.eqb_spec "" (uuid_out x)) as [E|]; [|by case_match].
    by destruct (uuid_out_ne x).
Qed.

(** [UPDATE images SET status...] on the abstract row. *)
Lemma set_image_writes id st size sum w (g : Image → Image) :
  (∀ u i, img_untimed (img_read u (img_touch (img_CreatedAt i) (t_now (w_db w))
     (img_set_result st (default (img_SizeBytes i) size) (default (img_Checksum i) sum) i)))
   = g (img_untimed (img_read u i))) →
  writes pg_abs (set_image id st size sum) w (on_images (alter g (pg_key id))).
Proof.
  intros Hg. apply writes_wrap, writes_exec; [np|]. intros d Hd. inv_ret Hd.
  apply uuid_arg_Ret in E. simplify_eq. unfold pg_abs, on_images. simpl.
  by rewrite (view_alter _ _ _ _ g), E.
Qed.

#[export] Instance image_laws : ImageRepoLaws pg_abs pg_key pg_ImageRepository.
Proof.
  split; simpl.
  - intros id w. eapply reads_mono; [apply reads_wrap, reads_query; np|].
    intros o (u & Hu & ->)%q_by_id_Ret. rewrite <-Hu, view_lookup. split.
    + by destruct (t_images (w_db w) !! u).
    + intros n. destruct (t_images (w_db w) !! u); intros [= <-]. split; [done|]. apply pg_key_out.
  - intros name w. eapply reads_mono; [apply reads_wrap, reads_query; np|].
    intros [i|] Hq%q_by_name_Ret.
    + destruct Hq as (u & a & -> & Ha & <-). simpl. rewrite view_lookup, Ha, pg_key_out. done.
    + intros k i (u & a & -> & Ha & ->)%view_Some. simpl. by apply (Hq u).
  - intros f w. eapply reads_mono; [apply reads_list; intros; np|].
    intros r (w' & rows & pg & Ew & Hq & Hr & Hsub & _).
    change (view _ (t_images (w_db w))) with (a_images (pg_abs w)). rewrite <-Ew, Hr.
    apply Forall_fmap, Forall_forall. intros [u n] Hun. simpl. rewrite view_lookup.
    by rewrite (q_image_matching_Ret _ _ _ Hq u n) by (by eapply elem_of_submseteq).
  - intros i w Hk. eapply wp_post; [apply wp_wrap, (creates_exec _ (λ a,
      a = on_images <[img_ID i := img_untimed i]> (pg_abs w) ∧
      a_images (pg_abs w) !! img_ID i = None)); [np|]|done|by intros e w' (? & _ & ?)].
    intros d Hd. inv_ret Hd. apply uuid_arg_Ret in E. rewrite Hk in E. simplify_eq. split.
    + unfold pg_abs, on_images. simpl. rewrite view_insert. unfold img_untimed. simpl. by rewrite E.
    + simpl. rewrite <-E, view_lookup. by destruct (t_images (w_db w) !! a).
  - intros id st z c w. unfold ImageRepo_UpdateStatus, img_upd_status.
    destruct (0 <? z)%Z, (String.eqb c ""); apply set_image_writes; done.
  - intros id w. apply writes_wrap, writes_exec; [np|]. intros d Hd. inv_ret Hd.
    apply uuid_arg_Ret in E. simplify_eq. unfold pg_abs, on_images, on_vms. simpl.
    rewrite view_delete, E. f_equal. rewrite <-E. apply view_fmap. intros u r.
    unfold full_vm, vm_untimed, vm_drop_image, vm_set_times, vm_set_related. simpl.
    f_equal. unfold by_order.
    rewrite <-(sort_by_fmap _ (λ x y, (disk_Order x <? disk_Order y)%Z)
                 (disk_drop_image (uuid_out a))) by done.
    f_equal. rewrite <-!list_fmap_compose. apply list_fmap_ext.
    intros ? rd _. apply disk_unlink_read.
Qed.

(** * The other tables *)
Lemma vm_exists_view d u : vm_exists d u = true →
  is_Some (view (λ u r, vm_untimed (full_vm u r)) (t_vms d) !! uuid_out u).
Proof.
  intros [r Hr]%bool_decide_eq_true. rewrite view_lookup, Hr. done.
Qed.

#[export] Instance snap_laws : SnapshotRepoLaws pg_abs pg_key pg_SnapshotRepository.
Proof.
  split; simpl.
  - intros id w. eapply reads_mono; [apply reads_wrap, reads_query; np|].
    intros o (u & Hu & ->)%q_by_id_Ret. rewrite <-Hu, view_lookup. split.
    + by destruct (t_snaps (w_db w) !! u).
    + intros s. destruct (t_snaps (w_db w) !! u); intros [= <-]. apply pg_key_out.
  - intros s w Hk. eapply wp_post; [apply wp_wrap, (creates_exec _ (λ a,
      a = on_snaps <[snap_ID s := snap_stored (pg_key (snap_VMID s)) s]> (pg_abs w) ∧
      a_snaps (pg_abs w) !! snap_ID s = None ∧
      is_Some (a_vms (pg_abs w) !! pg_key (snap_VMID s)))); [np|]|done|by intros e w' (? & _ & ?)].
    intros d Hd. inv_ret Hd. apply uuid_arg_Ret in E, E0. rewrite Hk in E. simplify_eq.
    split_and!.
    + unfold pg_abs, on_snaps. simpl. rewrite view_insert. unfold snap_untimed, snap_stored. simpl.
      by rewrite E, E0.
    + simpl. rewrite <-E, view_lookup. by destruct (t_snaps (w_db w) !! a).
    + simpl. rewrite <-E0. apply vm_exists_view. by apply negb_false_iff.
Qed.

#[export] Instance backup_laws : BackupRepoLaws pg_abs pg_key pg_BackupRepository.
Proof.
  split; simpl.
  - intros id w. eapply reads_mono; [apply reads_wrap, reads_query; np|].
    intros o (u & Hu & ->)%q_by_id_Ret. rewrite <-Hu, view_lookup.
    by destruct (t_backups (w_db w) !! u).
  - intros b w Hk. eapply wp_post; [apply wp_wrap, (creates_exec _ (λ a,
      a = on_backups <[bk_ID b := bk_stored (pg_key (bk_VMID b)) (pg_key (bk_OrganizationID b)) b]> (pg_abs w) ∧
      a_backups (pg_abs w) !! bk_ID b = None ∧
      is_Some (a_vms (pg_abs w) !! pg_key (bk_VMID b)))); [np|]|done|by intros e w' (? & _ & ?)].
    intros d Hd. inv_ret Hd. apply uuid_arg_Ret in E, E0, E1. rewrite Hk in E. simplify_eq.
    split_and!.
    + unfold pg_abs, on_backups. simpl. rewrite view_insert. unfold bk_untimed, bk_stored. simpl.
      by rewrite E, E0, E1.
    + simpl. rewrite <-E, view_lookup. by destruct (t_backups (w_db w) !! a).
    + simpl. rewrite <-E0. apply vm_exists_view. by apply negb_false_iff.
  - intros id w. apply writes_wrap, writes_exec; [np|]. intros d Hd. inv_ret Hd.
    apply uuid_arg_Ret in E. simplify_eq. unfold pg_abs, on_backups. simpl. by rewrite view_delete, E.
  - intros f w. eapply reads_mono; [apply reads_list; intros; np|done].
Qed.

(** A list that is not paged. *)
Lemma reads_all {A} ctx (q : DB → outcome (list A)) : (∀ d, q d ≠ Panic) → ∀ w,
  reads pg_abs (out ← wrap ctx (query q); _ ← rows_err; mret out) w (λ _, True).
Proof.
  intros Hq w. eapply reads_bind; [apply reads_wrap, reads_query, Hq|]. intros out w1 _ _.
  eapply reads_bind; [by apply reads_query|]. intros [] w2 _ _. by apply wp_ret.
Qed.

#[export] Instance flavor_laws : FlavorRepoLaws pg_abs pg_key pg_FlavorRepository.
Proof.
  split; simpl.
  - intros id w. eapply reads_mono; [apply reads_wrap, reads_query; np|].
    intros o (u & Hu & ->)%q_by_id_Ret. rewrite <-Hu, view_lookup.
    by destruct (t_flavors (w_db w) !! u).
  - intros name w. eapply reads_mono; [apply reads_wrap, reads_query; np|].
    intros [n|] Hq%q_by_name_Ret.
    + destruct Hq as (u & a & -> & Ha & <-). split; [done|]. simpl. by rewrite view_lookup, Ha.
    + intros k n (u & a & -> & Ha & ->)%view_Some. simpl. by apply (Hq u).
  - intros f w Hk. eapply wp_post; [apply wp_wrap, (creates_exec _ (λ a,
      a = on_flavors <[fl_ID f := fl_untimed f]> (pg_abs w) ∧
      a_flavors (pg_abs w) !! fl_ID f = None ∧
      ∀ k f', a_flavors (pg_abs w) !! k = Some f' → fl_Name f' ≠ fl_Name f)); [np|]|done|by intros e w' (? & _ & ?)].
    intros d Hd. inv_ret Hd. apply uuid_arg_Ret in E. rewrite Hk in E. simplify_eq. split_and!.
    + unfold pg_abs, on_flavors. simpl. rewrite view_insert. unfold fl_untimed. simpl. by rewrite E.
    + simpl. rewrite <-E, view_lookup. by destruct (t_flavors (w_db w) !! a).
    + intros k f' (u & a' & -> & Ha & ->)%view_Some. simpl. by eapply taken_spec.
  - intros id w. apply writes_wrap, writes_exec; [np|]. intros d Hd. inv_ret Hd.
    apply uuid_arg_Ret in E. simplify_eq. unfold pg_abs, on_flavors. simpl. by rewrite view_delete, E.
  - apply reads_all. np.
Qed.

#[export] Instance keypair_laws : KeypairRepoLaws pg_abs pg_key pg_KeypairRepository.
Proof.
  split; simpl.
  - intros id w. eapply reads_mono; [apply reads_wrap, reads_query; np|].
    intros o (u & Hu & ->)%q_by_id_Ret. rewrite <-Hu, view_lookup.
    by destruct (t_keypairs (w_db w) !! u).
  - intros name org w. eapply reads_mono; [apply reads_wrap, reads_query; np|done].
  - intros k w Hk. eapply wp_post; [apply wp_wrap, (creates_exec _ (λ a,
      a = on_keypairs <[kp_ID k := kp_stored (pg_key (kp_OrganizationID k)) k]> (pg_abs w) ∧
      a_keypairs (pg_abs w) !! kp_ID k = None)); [np|]|done|by intros e w' (? & _ & ?)].
    intros d Hd. inv_ret Hd. apply uuid_arg_Ret in E, E0. rewrite Hk in E. simplify_eq. split.
    + unfold pg_abs, on_keypairs. simpl. rewrite view_insert. unfold kp_untimed, kp_stored. simpl.
      by rewrite E, E0.
    + simpl. rewrite <-E, view_lookup. by destruct (t_keypairs (w_db w) !! a).
  - intros id w. apply writes_wrap, writes_exec; [np|]. intros d Hd. inv_ret Hd.
    apply uuid_arg_Ret in E. simplify_eq. unfold pg_abs, on_keypairs. simpl. by rewrite view_delete, E.
  - intros org. apply reads_all. intros d. np.
Qed.

(** * The publisher and the environment *)
#[export] Instance publisher_laws : PublisherLaws pg_abs nats_EventPublisher.
Proof using.
  assert (Hp : ∀ subj d (w : World), wp (pub_Publish subj d) (post
    (λ _ w', pg_abs w' = on_msgs (λ ms, ms ++ [(subj, d)]) (pg_abs w))
    (λ _ w', pg_abs w' = pg_abs w ∨ pg_abs w' = on_msgs (λ ms, ms ++ [(subj, d)]) (pg_abs w))) w).
  { intros subj d w. unfold wp, pub_Publish, wrap, js_Publish.
    destruct (w_pub_faults w) as [|[[e []]|] ?]; simpl; auto. }
  split; simpl; intros; apply Hp.
Qed.

Lemma ids_in_view {A B} (read : U → A → B) (m : gmap U A) k :
  k ∉ ids_in m → view read m !! k = None.
Proof.
  intros Hk. destruct (view read m !! k) as [b|] eqn:E; [|done].
  apply view_Some in E as (u & a & -> & Ha & _). destruct Hk.
  apply elem_of_list_to_set, list_elem_of_fmap. exists (u, a).
  split; [done|]. by apply elem_of_map_to_list.
Qed.

#[export] Instance env_laws : EnvLaws pg_abs pg_key pg_Env.
Proof.
  split.
  - intros w. unfold wp. simpl. set (id := uuid_new (known_ids w)).
    pose proof (uuid_new_fresh (known_ids w)) as Hf. fold id in Hf. unfold known_ids in Hf.
    rewrite !not_elem_of_union in Hf. destruct Hf as ((((((((? & ?) & ?) & ?) & ?) & ?) & ?) & ?) & ?).
    split_and!; [|apply pg_key_out|apply uuid_out_ne|done].
    split; [done|]. split_and!; by apply ids_in_view.
  - intros p w. by apply wp_gets.
  - intros t w. by apply wp_modify.
Qed.

(** * IPAMRepository: the abstract state is not touched *)
Lemma reads_stmt {A} (f : DB → outcome (A * DB)) w : f (w_db w) ≠ Panic →
  (∀ a d, f (w_db w) = Ret (a, d) → pg_abs (set_db d w) = pg_abs w) →
  reads pg_abs (stmt f) w (λ _, True).
Proof using.
  intros Hp Hf. unfold reads, wp, stmt.
  destruct (w_faults w) as [|[e|] ?]; simpl; [|done|];
    destruct (f (w_db w)) as [[a d]|e'|] eqn:E; simpl; try done; by rewrite <-(Hf a d).
Qed.

Lemma insert_subnet_reads net cidr w : reads pg_abs (ignore (exec (insert_subnet net cidr))) w (λ _, True).
Proof.
  assert (Hw : writes pg_abs (exec (insert_subnet net cidr)) w (λ a, a)).
  { apply writes_exec; [np|]. intros d Hd. inv_ret Hd. repeat case_match; by simplify_eq. }
  eapply wp_post; [apply wp_ignore, Hw| |done]. intros [] w' [[_ ?]|[_ ?]]; done.
Qed.

#[export] Instance ipam_laws : IPAMLaws pg_abs pg_IPAM.
Proof.
  assert (Hd : ∀ org w, reads pg_abs (attempt (query (q_default_network org))) w (λ _, True)).
  { intros org w. eapply reads_mono; [apply reads_attempt, reads_query; np|done]. }
  split; simpl.
  - intros org w. unfold IPAM_EnsureDefaultNetwork. generalize (if String.eqb org "" then
      "00000000-0000-0000-0000-000000000000" else org). clear org. intros org.
    eapply reads_bind; [apply Hd|]. intros [nc|_] w1 _ _; [by apply wp_ret|].
    eapply (reads_bind _ _ _ (λ _, True)); [by apply wp_gets|]. intros new w2 _ _.
    eapply reads_bind; [apply reads_attempt, reads_stmt; [np|]|].
    { intros a d Hq. inv_ret Hq. by case_match; simplify_eq. }
    intros [net|err] w3 _ _.
    + eapply reads_bind; [apply insert_subnet_reads|]. intros [] w4 _ _. by apply wp_ret.
    + eapply reads_bind; [apply Hd|]. intros [nc|_] w4 _ _; [by apply wp_ret|by apply wp_fail].
  - intros net w. eapply reads_bind; [apply reads_wrap, reads_query; np|]. intros sg w1 _ _.
    eapply reads_bind; [apply reads_wrap, reads_query; np|]. intros used w2 _ _.
    eapply reads_bind; [by apply reads_query|]. intros [] w3 _ _.
    destruct (NextAvailableIP sg.1 used) as [[ip gw]|e|] eqn:E; [by apply wp_ret|by apply wp_fail|].
    exfalso. unfold NextAvailableIP in E. by repeat case_match.
Qed.

(** * VMRepository *)

(** Queries of one database, one after the other. *)
Definition dreads {A} (m : M World A) (w : World) (Q : A → Prop) : Prop :=
  wp m (post (λ a w', Q a ∧ w_db w' = w_db w ∧ pg_abs w' = pg_abs w)
             (λ _ w', pg_abs w' = pg_abs w)) w.

Lemma dreads_query {A} c (f : DB → outcome A) w : f (w_db w) ≠ Panic →
  dreads (wrap c (query f)) w (λ a, f (w_db w) = Ret a).
Proof.
  intros Hp. eapply wp_post; [by apply wp_wrap, wp_query|done|]. by intros e w' (? & _ & ?).
Qed.

Lemma dreads_rows_err w : dreads rows_err w (λ _, True).
Proof. eapply wp_post; [by apply wp_query| |done]. by intros a w' (? & ? & ?). Qed.

Lemma dreads_ret {A} (a : A) w (Q : A → Prop) : Q a → dreads (mret a) w Q.
Proof. intros Ha. by apply wp_ret. Qed.

Lemma dreads_bind {A B} (m : M World A) (k : A → M World B) w QA Q :
  dreads m w QA → (∀ a w', QA a → w_db w' = w_db w → dreads (k a) w' Q) →
  dreads (m ≫= k) w Q.
Proof.
  intros Hm Hk. eapply wp_bind_post; [exact Hm| |done].
  intros a w' (Ha & Hd & Hw). eapply wp_post; [by apply (Hk a w')| |]; simpl; [|congruence].
  intros b w'' (? & ? & ?). split; [done|]. split; congruence.
Qed.

Lemma dreads_reads {A} (m : M World A) w Q : dreads m w Q → reads pg_abs m w Q.
Proof. intros Hm. eapply wp_post; [exact Hm| |done]. by intros a w' (? & _ & ?). Qed.

Lemma get_vm_spec id w :
  dreads (VMRepo_GetByID id) w (λ o, ∃ u, uuid_out u = pg_key id ∧
    o = full_vm u <$> t_vms (w_db w) !! u).
Proof.
  eapply dreads_bind; [apply dreads_query; np|]. intros o w1 Hq Hd1.
  inv_ret Hq. simplify_eq. apply uuid_arg_Ret in E.
  destruct (t_vms (w_db w) !! a) as [r|] eqn:Hr; simpl;
    [|apply dreads_ret; exists a; by rewrite Hr].
  eapply (dreads_bind _ _ _ (λ vm, vm = full_vm a r)); [|intros vm w2 -> _; apply dreads_ret; exists a; by rewrite Hr].
  eapply dreads_bind; [apply dreads_query; np|]. intros ds w2 Hds Hd2.
  eapply dreads_bind; [apply dreads_rows_err|]. intros [] w3 _ Hd3.
  eapply dreads_bind; [apply dreads_query; np|]. intros ns w4 Hns Hd4.
  eapply dreads_bind; [apply dreads_rows_err|]. intros [] w5 _ _. apply dreads_ret.
  inv_ret Hds. inv_ret Hns. simplify_eq. simpl in *.
  unfold uuid_arg in *. rewrite !uuid_in_out in *. simplify_eq.
  unfold disks_of, nics_of. by rewrite Hd3, Hd2, Hd1, Hr.
Qed.

(** ** The batch load *)

(** [ix] points each id to the only machine that has it. *)
Definition indexes (ix : gmap string nat) (vms : list VirtualMachine) : Prop :=
  (∀ i vm, vms !! i = Some vm → ix !! vm_ID vm = Some i) ∧
  (∀ id i, ix !! id = Some i → ∃ vm, vms !! i = Some vm ∧ vm_ID vm = id).

Lemma vmMap_snoc l vm : vmMap (l ++ [vm]) = <[vm_ID vm := length l]> (vmMap l).
Proof using. unfold vmMap. rewrite imap_app, foldl_app. simpl. by rewrite Nat.add_0_r. Qed.

Lemma vmMap_indexes vms : NoDup (vm_ID <$> vms) → indexes (vmMap vms) vms.
Proof using.
  induction vms as [|vm vms IH] using rev_ind; intros Hnd; [by split|].
  rewrite fmap_app in Hnd. apply NoDup_app in Hnd as (Hnd & Hnew & _).
  destruct (IH Hnd) as [Hto Hfrom]. rewrite vmMap_snoc. split.
  - intros i x Hx. apply lookup_snoc_Some in Hx as [[? Hx]|[-> <-]]; [|by rewrite lookup_insert_eq].
    rewrite lookup_insert_ne; [by apply Hto|]. intros E. destruct (Hnew (vm_ID x)).
    + apply list_elem_of_fmap. eauto using list_elem_of_lookup_2.
    + rewrite <-E. simpl. left.
  - intros id i Hi. apply lookup_insert_Some in Hi as [[<- <-]|[? Hi]].
    + exists vm. by rewrite lookup_app_r, Nat.sub_diag by lia.
    + apply Hfrom in Hi as (x & Hx & <-). exists x. split; [|done]. by apply lookup_app_l_Some.
Qed.

(** Appending a row to the machine it points to, as a map over the machines. *)
Lemma alter_fmap ix vms (g : VirtualMachine → VirtualMachine) id : indexes ix vms →
  match ix !! id with Some i => alter g i vms | None => vms end
  = (λ vm, if String.eqb (vm_ID vm) id then g vm else vm) <$> vms.
Proof using.
  intros [Hto Hfrom]. apply list_eq. intros j. rewrite list_lookup_fmap.
  destruct (ix !! id) as [i|] eqn:Ei.
  - destruct (Hfrom _ _ Ei) as (x & Hx & <-). destruct (decide (i = j)) as [->|Hij].
    + rewrite list_lookup_alter_eq, Hx. simpl. by rewrite String.eqb_refl.
    + rewrite list_lookup_alter_ne by done. destruct (vms !! j) as [y|] eqn:Ey; simpl; [|done].
      destruct (String.eqb_spec (vm_ID y) (vm_ID x)) as [E|]; [|done].
      apply Hto in Ey. congruence.
  - destruct (vms !! j) as [y|] eqn:Ey; simpl; [|done].
    destruct (String.eqb_spec (vm_ID y) id) as [<-|]; [|done]. apply Hto in Ey. congruence.
Qed.

Lemma indexes_fmap ix vms (h : VirtualMachine → VirtualMachine) :
  (∀ vm, vm_ID (h vm) = vm_ID vm) → indexes ix vms → indexes ix (h <$> vms).
Proof using.
  intros Hh [Hto Hfrom]. split.
  - intros i vm. rewrite list_lookup_fmap. destruct (vms !! i) as [x|] eqn:E; intros [= <-].
    rewrite Hh. by apply Hto.
  - intros id i (x & Hx & <-)%Hfrom. exists (h x). by rewrite list_lookup_fmap, Hx.
Qed.

Section fold_rows.
Context {R : Type} (id_of : R → string) (g : R → VirtualMachine → VirtualMachine).
Context (Hg : ∀ r vm, vm_ID (g r vm) = vm_ID vm).
Context (step : gmap string nat → list VirtualMachine → R → list VirtualMachine).
Context (Hstep : ∀ ix vms r,
  step ix vms r = match ix !! id_of r with Some i => alter (g r) i vms | None => vms end).

Lemma fold_rows ix vms rows : indexes ix vms →
  foldl (step ix) vms rows =
  (λ vm, foldl (λ v r, g r v) vm (filter (λ r, id_of r = vm_ID vm) rows)) <$> vms.
Proof using Hg Hstep.
  revert vms. induction rows as [|r rows IH]; intros vms Hix; simpl.
  - by rewrite list_fmap_id.
  - rewrite Hstep, alter_fmap by done. rewrite IH.
    2:{ apply indexes_fmap; [|done]. intros vm. case_match; [apply Hg|done]. }
    rewrite <-list_fmap_compose. apply list_fmap_ext. intros _ vm _. simpl.
    destruct (String.eqb_spec (vm_ID vm) (id_of r)) as [E|E].
    + rewrite Hg. by rewrite filter_cons_True by done.
    + by rewrite filter_cons_False by done.
Qed.

End fold_rows.

Lemma fold_disks vm (l : list (U * disk_row)) :
  foldl (λ v r, vm_set_related (vm_Disks v ++ [disk_read r.2]) (vm_NetworkInterfaces v) v) vm l
  = vm_set_related (vm_Disks vm ++ (disk_read ∘ snd <$> l)) (vm_NetworkInterfaces vm) vm.
Proof using.
  revert vm. induction l as [|r l IH]; intros vm; simpl; [rewrite app_nil_r; by destruct vm|].
  rewrite IH. simpl. by rewrite <-(assoc_L (++)).
Qed.

Lemma fold_nics vm (l : list (U * nic_row)) :
  foldl (λ v r, vm_set_related (vm_Disks v) (vm_NetworkInterfaces v ++ [nic_read r.2]) v) vm l
  = vm_set_related (vm_Disks vm) (vm_NetworkInterfaces vm ++ (nic_read ∘ snd <$> l)) vm.
Proof using.
  revert vm. induction l as [|r l IH]; intros vm; simpl; [rewrite app_nil_r; by destruct vm|].
  rewrite IH. simpl. by rewrite <-(assoc_L (++)).
Qed.

(** The rows of one machine among those of all machines. *)
Lemma rows_of {R} (get : vm_row (U:=U) → list R) (l : list (U * vm_row (U:=U))) u r :
  NoDup l.*1 → (u, r) ∈ l →
  filter (λ ur : U * R, ur.1 = u) (ur ← l; pair ur.1 <$> get ur.2) = pair u <$> get r.
Proof using.
  assert (Hall : ∀ v (k : list R), filter (λ ur : U * R, ur.1 = v) (pair v <$> k) = pair v <$> k).
  { intros v k. induction k as [|x k IH]; csimpl; [done|].
    rewrite filter_cons_True by done. by rewrite IH. }
  assert (Hno : ∀ v (k : list R), v ≠ u → filter (λ ur : U * R, ur.1 = u) (pair v <$> k) = []).
  { intros v k ?. induction k as [|x k IH]; csimpl; [done|]. by rewrite filter_cons_False. }
  induction l as [|[v x] l IH]; intros Hnd Hin; [by apply elem_of_nil in Hin|].
  csimpl in *. apply NoDup_cons in Hnd as [Hv Hnd]. rewrite filter_app.
  apply elem_of_cons in Hin as [[= <- <-]|Hin].
  - rewrite Hall. assert (Hnil : filter (λ ur : U * R, ur.1 = u) (ur ← l; pair ur.1 <$> get ur.2) = []).
    { clear IH Hnd. induction l as [|[z y] l IH]; csimpl; [done|]. csimpl in Hv.
      apply not_elem_of_cons in Hv as [? ?]. rewrite filter_app, Hno by done. by apply IH. }
    by rewrite Hnil, app_nil_r.
  - rewrite Hno; [by apply IH|]. intros ->. destruct Hv. apply list_elem_of_fmap. by exists (u, r).
Qed.

Lemma uuid_args_out us : uuid_args (uuid_out <$> us) = Ret us.
Proof.
  induction us as [|u us IH]; csimpl; [done|]. unfold uuid_arg. rewrite uuid_in_out. simpl.
  by rewrite IH.
Qed.

(** What the batch query returns for the machine [u], once it is picked out. *)
Lemma pick_rows {R} (get : vm_row (U:=U) → list R) (us : list U) (d : DB) u r :
  u ∈ us → t_vms d !! u = Some r →
  filter (λ ur : U * R, uuid_out ur.1 = uuid_out u)
    (filter (λ ur : U * R, ur.1 ∈ us) (ur ← map_to_list (t_vms d); pair ur.1 <$> get ur.2))
  = pair u <$> get r.
Proof.
  intros Hu Hr. rewrite list_filter_filter.
  rewrite (list_filter_iff _ (λ ur : U * R, ur.1 = u)).
  - apply rows_of; [apply NoDup_fst_map_to_list|by apply elem_of_map_to_list].
  - intros [v x]. simpl. split; [by intros [?%(inj uuid_out) _]|by intros ->].
Qed.

Lemma batch_load_spec (pg : list (U * vm_row)) w :
  NoDup pg.*1 → (∀ u r, (u, r) ∈ pg → t_vms (w_db w) !! u = Some r) →
  dreads (batchLoadRelated (map (λ ur, vm_read ur.1 ur.2) pg)) w
    (λ vms, vms = map (λ ur, full_vm ur.1 ur.2) pg).
Proof.
  intros Hnd Hin. set (vms := map _ pg). unfold batchLoadRelated.
  assert (Hids : vm_ID <$> vms = uuid_out <$> pg.*1).
  { unfold vms. change (map ?f pg) with (f <$> pg). by rewrite <-!list_fmap_compose. }
  rewrite Hids.
  assert (Hix : indexes (vmMap vms) vms).
  { apply vmMap_indexes. rewrite Hids. by apply NoDup_fmap_2; [apply _|]. }
  eapply dreads_bind; [apply dreads_query; np|]. intros ds w1 Hds Hd1.
  eapply dreads_bind; [apply dreads_rows_err|]. intros [] w2 _ Hd2.
  eapply dreads_bind; [apply dreads_query; np|]. intros ns w3 Hns Hd3.
  eapply dreads_bind; [apply dreads_rows_err|]. intros [] w4 _ _. apply dreads_ret.
  unfold q_disks_any in Hds. rewrite uuid_args_out in Hds. injection Hds as <-.
  unfold q_nics_any in Hns. rewrite uuid_args_out, Hd2, Hd1 in Hns. injection Hns as <-.
  rewrite (fold_rows (λ r, uuid_out r.1)
    (λ r v, vm_set_related (vm_Disks v ++ [disk_read r.2]) (vm_NetworkInterfaces v) v)
    (λ _ _, eq_refl) add_disk (λ _ _ _, eq_refl)) by done.
  rewrite (fold_rows (λ r, uuid_out r.1)
    (λ r v, vm_set_related (vm_Disks v) (vm_NetworkInterfaces v ++ [nic_read r.2]) v)
    (λ _ _, eq_refl) add_nic (λ _ _ _, eq_refl)).
  2:{ apply indexes_fmap; [|done]. intros vm. by rewrite fold_disks. }
  unfold vms. change (map ?f pg) with (f <$> pg). rewrite <-!list_fmap_compose.
  apply list_fmap_ext. intros i [u r] Hur%list_elem_of_lookup_2.
  assert (Hu : u ∈ pg.*1) by (apply list_elem_of_fmap; by exists (u, r)).
  simpl. rewrite fold_disks, fold_nics. unfold full_vm, vm_set_related. simpl.
  unfold by_order at 1. rewrite sort_by_key_filter. unfold all_disks, all_nics.
  rewrite !(pick_rows _ _ _ _ r Hu) by (by apply Hin).
  f_equal.
  - rewrite <-(sort_by_fmap _ (λ x y, (disk_Order x <? disk_Order y)%Z)) by done.
    by rewrite <-list_fmap_compose.
  - by rewrite <-list_fmap_compose.
Qed.

Lemma q_vm_matching_Ret f d rows : q_vm_matching f d = Ret rows →
  NoDup rows.*1 ∧ ∀ u r, (u, r) ∈ rows → t_vms d !! u = Some r.
Proof using.
  intros Hq. inv_ret Hq. injection Hq as <-. set (rows := filter _ _).
  assert (Hin : ∀ u r, (u, r) ∈ rows → t_vms d !! u = Some r)
    by (by intros u r [_ ?%elem_of_map_to_list]%list_elem_of_filter).
  split; [|exact Hin]. apply NoDup_fmap_fst.
  - intros u r r' H1%Hin H2%Hin. congruence.
  - apply NoDup_filter, NoDup_map_to_list.
Qed.

Lemma list_vms_spec f w :
  dreads (VMRepo_List f) w (λ r, ∃ rows pg, q_vm_matching f (w_db w) = Ret rows ∧ pg ⊆+ rows ∧
    r.1 = map (λ ur, full_vm ur.1 ur.2) pg ∧ r.2 = Z.of_nat (length rows)).
Proof.
  eapply dreads_bind; [apply dreads_query; np|]. intros total w1 Hc Hd1.
  eapply dreads_bind; [apply dreads_query; np|].
  intros vms w2 (rows & pg & Hq & -> & Hsub & _)%q_page_Ret Hd2. rewrite Hd1 in *.
  unfold q_count in Hc. rewrite Hq in Hc. injection Hc as <-.
  eapply dreads_bind; [by apply dreads_query|]. intros [] w3 _ Hd3.
  apply q_vm_matching_Ret in Hq as Hrows. destruct Hrows as [Hnd Hin].
  eapply (dreads_bind _ _ _ (λ vms, vms = map (λ ur, full_vm ur.1 ur.2) pg)).
  - destruct pg as [|x pg]; [by apply dreads_ret|]. simpl. apply (batch_load_spec (x :: pg)).
    + apply submseteq_Permutation in Hsub as [k Hk]. rewrite Hk, fmap_app in Hnd.
      by apply NoDup_app in Hnd as [? _].
    + intros u r Hur. rewrite Hd3, Hd2, ?Hd1. apply Hin. by eapply elem_of_submseteq.
  - intros vms w4 -> _. apply dreads_ret. by exists rows, pg.
Qed.

(** ** The transaction of [Create] *)
Definition same_rest (w w' : World) : Prop :=
  w_msgs w' = w_msgs w ∧ w_tasks w' = w_tasks w ∧ w_ids w' = w_ids w.

Lemma wp_exec c (f : DB → outcome DB) w : f (w_db w) ≠ Panic →
  wp (wrap c (exec f)) (post
    (λ _ w', ∃ d, f (w_db w) = Ret d ∧ w_db w' = tick d ∧ same_rest w w')
    (λ _ w', same_rest w w')) w.
Proof using.
  intros Hp. unfold wp, wrap, exec, stmt.
  destruct (w_faults w) as [|[e|] ?]; simpl; [|done|];
    destruct (f (w_db w)) as [d|e'|] eqn:E; simpl; try done; by exists d.
Qed.

Lemma wp_transaction {A} (m : M World A) w Q :
  wp m (post Q (λ _ w', same_rest w w')) w →
  wp (transaction m) (post Q (λ _ w', pg_abs w' = pg_abs w ∧ w_db w' = w_db w)) w.
Proof using.
  unfold wp, transaction. destruct (m w) as [[a|e|] w']; simpl; try done.
  intros (E1 & E2 & E3). unfold pg_abs. simpl. by rewrite E1, E2, E3.
Qed.

(** The database between the statements of the transaction: the machine has the
    rows inserted so far, and nothing else has changed. *)
Definition db_with (m : gmap U (vm_row (U:=U))) (now : Z) (d : DB) : DB :=
  mkDB m (t_nodes d) (t_images d) (t_snaps d) (t_backups d) (t_flavors d) (t_keypairs d)
    (t_networks d) (t_subnets d) now.

Definition row_core (u : U) (r : vm_row) : VirtualMachine :=
  vm_core pg_key (vm_set_related (disk_read <$> vr_disks r) (nic_read <$> vr_nics r) (vm_read u r)).

(** The addresses of an interface, as they are read back: those given, none lost,
    in the order given and in the text of the server. *)
Definition same_addresses (given got : NetworkInterface) : Prop :=
  inet_args (nic_IPv4Addresses given) = Ret (nic_IPv4Addresses got) ∧
  inet_args (nic_IPv6Addresses given) = Ret (nic_IPv6Addresses got).

Definition row_of (u : U) (vm : VirtualMachine) (ds : list Disk) (ns : list NetworkInterface) (r : vm_row) : Prop :=
  row_core u r = vm_core pg_key (vm_set_related ds ns vm) ∧ Forall2 same_addresses ns (nic_read <$> vr_nics r).

Definition inserting (u : U) (vm : VirtualMachine) (ds : list Disk) (ns : list NetworkInterface)
    (w w' : World) : Prop :=
  same_rest w w' ∧ ∃ r now, w_db w' = db_with (<[u := r]> (t_vms (w_db w))) now (w_db w) ∧ row_of u vm ds ns r.

Lemma same_rest_trans w w' w'' : same_rest w w' → same_rest w' w'' → same_rest w w''.
Proof using. intros (? & ? & ?) (? & ? & ?). split_and!; congruence. Qed.

Lemma nullif_key s o : uuid_nullif (U:=U) s = Ret o → pg_key (opt_text o) = pg_key s.
Proof.
  unfold uuid_nullif. destruct (String.eqb_spec s "") as [->|]; [by intros [= <-]|].
  intros Hq. inv_ret Hq. simplify_eq. simpl. by rewrite pg_key_out, (uuid_arg_Ret s a).
Qed.

Lemma opt_key s o : uuid_opt (U:=U) s = Ret o → pg_key <$> (uuid_out <$> o) = pg_key <$> s.
Proof.
  destruct s as [s|]; simpl; [|by intros [= <-]]. intros Hq. inv_ret Hq. simplify_eq. simpl.
  by rewrite pg_key_out, (uuid_arg_Ret s a).
Qed.

(** One more disk or interface. *)
Lemma row_core_disk u r r' vm ds ns disk :
  row_of u vm ds ns r →
  disk_core pg_key (disk_read r') = disk_core pg_key disk →
  row_of u vm (ds ++ [disk]) ns (vm_add_disk r' r).
Proof using.
  intros [Hr Ha] Hd. split; [|exact Ha]. revert Hr. unfold row_core, vm_core. simpl. intros Hr. injection Hr as ???????????????????.
  f_equal; try done. rewrite !fmap_app. csimpl. by f_equal; [|f_equal].
Qed.

Lemma row_core_nic u r r' vm ds ns nic :
  row_of u vm ds ns r →
  nic_core pg_key (nic_read r') = nic_core pg_key nic → same_addresses nic (nic_read r') →
  row_of u vm ds (ns ++ [nic]) (vm_add_nic r' r).
Proof using.
  intros [Hr Ha] Hd Hn. split; [|simpl; rewrite fmap_app; apply Forall2_app; [exact Ha|constructor; [exact Hn|constructor]]].
  revert Hr. unfold row_core, vm_core. simpl. intros Hr. injection Hr as ???????????????????.
  f_equal; try done. rewrite !fmap_app. csimpl. by f_equal; [|f_equal].
Qed.

Lemma alter_inserted u vm ds ns ds' ns' w w' w'' f :
  inserting u vm ds ns w w' → same_rest w' w'' →
  w_db w'' = tick (on_t_vms (alter f u) (w_db w')) →
  (∀ r, row_of u vm ds ns r → row_of u vm ds' ns' (f r)) →
  inserting u vm ds' ns' w w''.
Proof using.
  intros (Hr & r & now & Hd & Hc) Hr' Hd' Hf. split; [by eapply same_rest_trans|].
  exists (f r), (now + 1)%Z. split; [|by apply Hf]. rewrite Hd', Hd. unfold db_with, tick, on_t_vms. simpl.
  f_equal. apply map_eq. intros v. destruct (decide (u = v)) as [->|].
  - by rewrite lookup_alter_eq, !lookup_insert_eq.
  - by rewrite lookup_alter_ne, !lookup_insert_ne by done.
Qed.

Lemma insert_disk_step u vm ds ns disk w w' : uuid_out u = pg_key (vm_ID vm) →
  inserting u vm ds ns w w' →
  wp (wrap "vm_repo: insert disk" (exec (insert_disk (vm_ID vm) disk))) (post
    (λ _ w'', inserting u vm (ds ++ [disk]) ns w w'') (λ _ w'', same_rest w w'')) w'.
Proof.
  intros Hu Hi. eapply wp_post; [apply wp_exec; np| |].
  - intros [] w'' (d & Hd & Hdb & Hr). inv_ret Hd. simplify_eq.
    apply uuid_arg_Ret in E, E0. rewrite <-Hu in E0. apply (inj uuid_out) in E0 as ->.
    eapply alter_inserted; [done..|]. intros r Hc. eapply row_core_disk; [done|].
    unfold disk_core, disk_read. simpl. by rewrite E, pg_key_idem, (nullif_key (disk_ImageID disk)).
  - intros e w'' ?. eapply same_rest_trans; [apply Hi|done].
Qed.

Lemma insert_nic_step u vm ds ns nic w w' : uuid_out u = pg_key (vm_ID vm) →
  inserting u vm ds ns w w' →
  wp (wrap "vm_repo: insert nic" (exec (insert_nic (vm_ID vm) nic))) (post
    (λ _ w'', inserting u vm ds (ns ++ [nic]) w w'') (λ _ w'', same_rest w w'')) w'.
Proof.
  intros Hu Hi. eapply wp_post; [apply wp_exec; np| |].
  - intros [] w'' (d & Hd & Hdb & Hr). inv_ret Hd. simplify_eq.
    apply uuid_arg_Ret in E, E0. rewrite <-Hu in E0. apply (inj uuid_out) in E0 as ->.
    eapply alter_inserted; [done..|]. intros r Hc. eapply row_core_nic; [done| |by split].
    unfold nic_core, nic_read. simpl. by rewrite E, pg_key_idem, (nullif_key (nic_NetworkID nic)).
  - intros e w'' ?. eapply same_rest_trans; [apply Hi|done].
Qed.

Lemma insert_vm_step vm w : pg_key (vm_ID vm) = vm_ID vm →
  wp (wrap "vm_repo: insert vm" (exec (insert_vm vm))) (post
    (λ _ w', ∃ u, uuid_out u = pg_key (vm_ID vm) ∧ t_vms (w_db w) !! u = None ∧ inserting u vm [] [] w w')
    (λ _ w', same_rest w w')) w.
Proof.
  intros Hk. eapply wp_post; [apply wp_exec; np| |done].
  intros [] w' (d & Hd & Hdb & Hr). inv_ret Hd. simplify_eq. apply uuid_arg_Ret in E as Hu.
  exists a. split; [done|]. split.
  { unfold vm_exists in *. case_bool_decide; [done|]. by apply eq_None_not_Some. }
  split; [done|]. eexists _, _. split; [by rewrite Hdb|].
  apply uuid_arg_Ret in E1. split; [|constructor]. unfold row_core, vm_core. simpl.
  rewrite (opt_key (vm_NodeID vm)), (opt_key (vm_ProjectID vm)), (opt_key (vm_SSHKeyID vm)) by done.
  by rewrite Hu, Hk, E1, pg_key_idem.
Qed.

Lemma row_core_full u r vm : row_core u r = vm_core pg_key vm →
  vm_core pg_key (vm_untimed (full_vm u r)) = vm_core pg_key (vm_in_order vm).
Proof using.
  unfold row_core, vm_core. simpl. intros Hr. injection Hr as ????????????????? Hds Hns.
  f_equal; try done. unfold by_order.
  rewrite <-!(sort_by_fmap _ (λ x y, (disk_Order x <? disk_Order y)%Z) (disk_core pg_key)) by done.
  by f_equal.
Qed.

(** A stored machine that is read back with all that was given. *)
Definition same_machine (vm got : VirtualMachine) : Prop :=
  vm_core pg_key got = vm_core pg_key (vm_in_order vm) ∧
  Forall2 same_addresses (vm_NetworkInterfaces vm) (vm_NetworkInterfaces got).

Lemma create_vm_spec vm w : pg_key (vm_ID vm) = vm_ID vm →
  wp (VMRepo_Create vm) (post
    (λ _ w', ∃ vm', same_machine vm vm' ∧ vm_untimed vm' = vm' ∧
                    pg_abs w' = on_vms <[vm_ID vm := vm']> (pg_abs w) ∧
                    a_vms (pg_abs w) !! vm_ID vm = None)
    (λ _ w', pg_abs w' = pg_abs w ∧ w_db w' = w_db w)) w.
Proof.
  intros Hk. apply wp_transaction.
  assert (Hq : ∀ w, wp (query (λ _, Ret ())) (post (λ _ w', w_db w' = w_db w ∧ same_rest w w')
    (λ _ w', same_rest w w')) w).
  { intros w0. unfold wp, query, stmt. by destruct (w_faults w0) as [|[e|] ?]. }
  eapply wp_bind_post; [apply wp_wrap, Hq| |by intros e w' (? & _ & ?)]. intros [] w1 [Hd1 Hr1].
  eapply wp_bind_post; [by apply insert_vm_step| |intros e w' ?; by eapply same_rest_trans].
  intros [] w2 (u & Hu & Hnone & Hi). rewrite Hd1 in Hnone.
  assert (Hi2 : inserting u vm [] [] w w2).
  { destruct Hi as (? & r & now & Hdb & Hc). split; [by eapply same_rest_trans|].
    exists r, now. by rewrite <-Hd1. }
  eapply wp_bind_post; [apply (wp_iterM _ (λ ds, inserting u vm ds [] w)); [|done];
    intros; by apply insert_disk_step| |done].
  intros [] w3 Hi3.
  eapply wp_bind_post; [apply (wp_iterM _ (λ ns, inserting u vm (vm_Disks vm) ns w)); [|done];
    intros; by apply insert_nic_step| |done].
  intros [] w4 (Hr4 & r & now & Hd4 & Hc & Ha).
  eapply wp_post; [apply Hq| |intros e w' ?; by eapply same_rest_trans].
  intros [] w5 [Hd5 Hr5]. pose proof (same_rest_trans _ _ _ Hr4 Hr5) as (Em & Et & Ei).
  exists (vm_untimed (full_vm u r)). rewrite <-Hk, <-Hu. split_and!; [|done| |].
  - split; [|exact Ha]. rewrite (row_core_full u r _ Hc). by destruct vm.
  - unfold pg_abs, on_vms. simpl. rewrite Hd5, Hd4, Em, Et, Ei. simpl. by rewrite view_insert.
  - simpl. by rewrite view_lookup, Hnone.
Qed.

#[export] Instance vm_laws : VMRepoLaws pg_abs pg_key pg_VMRepository.
Proof.
  split; simpl.
  - apply pg_key_idem.
  - intros id w. eapply reads_mono; [apply dreads_reads, get_vm_spec|].
    intros o (u & <- & ->). rewrite view_lookup. split; [by destruct (t_vms (w_db w) !! u)|].
    intros vm. by destruct (t_vms (w_db w) !! u); intros [= <-].
  - intros f w. eapply reads_mono; [apply dreads_reads, list_vms_spec|].
    intros r (rows & pg & [_ Hin]%q_vm_matching_Ret & Hsub & -> & _).
    apply Forall_fmap, Forall_forall. intros [u vm] Hu. simpl.
    rewrite view_lookup, pg_key_out, (Hin u vm) by (by eapply elem_of_submseteq). done.
  - intros vm w Hk. eapply wp_post; [by apply create_vm_spec| |by intros e w' []].
    intros [] w' (vm' & [Hc _] & Hrest). by exists vm'.
  - intros vm w Hk. apply writes_wrap, writes_exec; [np|]. intros d Hd. inv_ret Hd.
    apply uuid_arg_Ret in E. rewrite Hk in E. simplify_eq. unfold pg_abs, on_vms. simpl.
    by rewrite (view_alter _ _ _ _ (vm_set_editable vm)), E by done.
  - intros id w. apply writes_wrap, writes_exec; [np|]. intros d Hd. inv_ret Hd.
    apply uuid_arg_Ret in E. simplify_eq. unfold pg_abs, on_vms, on_snaps, on_backups. simpl.
    rewrite view_delete, <-E. f_equal.
    + apply view_filter. intros u r. simpl. split; [by intros Hne ?%(inj uuid_out)|congruence].
    + apply view_filter. intros u r. simpl. split; [by intros Hne ?%(inj uuid_out)|congruence].
  - intros id st w. apply writes_wrap, writes_exec; [np|]. intros d Hd. inv_ret Hd.
    apply uuid_arg_Ret in E. simplify_eq. unfold pg_abs, on_vms. simpl.
    by rewrite (view_alter _ _ _ _ (vm_set_status st)), E by done.
  - intros id n w. apply writes_wrap, writes_exec; [np|]. intros d Hd. inv_ret Hd.
    apply uuid_arg_Ret in E, E0. simplify_eq. unfold pg_abs, on_vms. simpl.
    by rewrite (view_alter _ _ _ _ (vm_set_node (Some (uuid_out a)))), E, E0 by done.
Qed.

End sound.
