(* ===== verification/Deployment.v ===== *)
(** The control plane as [cmd/control-plane/main.go] puts it together: the
    service of [ControlPlane] over the PostgreSQL repositories of [PgControl].

    Theorems: the repositories keep the promises the service was verified
    against, so that every theorem about the service holds of the deployed
    control plane; batch loading returns what loading machine by machine does;
    a page of a listing; a stored machine is read back; and, when no statement
    is refused, the operations succeed. *)
From stdpp Require Import base gmap strings list numbers fin_maps.
From S2P Require Import Prelude.
From S2P Require Import GoStd.
From S2P Require Import Domain.
From S2P Require Import GoJson.
From S2P Require Import Interfaces.
From S2P Require Import Puller.
From S2P Require Import ControlPlane.
From S2P Require Import VMService.
From S2P Require Import PgControl.
From S2P Require Import PgSound.
From stdpp Require Import options.

#[local] Set Default Proof Using "Type*".

(** * Construction of the service *)
Section construction.
Context {W : Type}.

Definition NewService (vmR : VMRepository W) (nodeR : NodeRepository W) (imageR : ImageRepository W)
    (backupR : BackupRepository W) (snapR : SnapshotRepository W) (pub : option (EventPublisher W))
    (e : Env W) : Service W :=
  mkService W vmR nodeR imageR backupR snapR None None None pub None e.

Definition InitPuller (imagesDir : string) (s : Service W) : Service W :=
  mkService W (vmRepo s) (nodeRepo s) (imageRepo s) (backupRepo s) (snapRepo s) (flavorRepo s)
    (keypairRepo s) (ipam s) (publisher s) (Some (NewPuller (imageRepo s) imagesDir (env s))) (env s).

Definition SetFlavorRepository (r : FlavorRepository W) (s : Service W) : Service W :=
  mkService W (vmRepo s) (nodeRepo s) (imageRepo s) (backupRepo s) (snapRepo s) (Some r)
    (keypairRepo s) (ipam s) (publisher s) (puller s) (env s).

Definition SetKeypairRepository (r : KeypairRepository W) (s : Service W) : Service W :=
  mkService W (vmRepo s) (nodeRepo s) (imageRepo s) (backupRepo s) (snapRepo s) (flavorRepo s)
    (Some r) (ipam s) (publisher s) (puller s) (env s).

Definition SetIPAMAllocator (a : IPAMAllocator W) (s : Service W) : Service W :=
  mkService W (vmRepo s) (nodeRepo s) (imageRepo s) (backupRepo s) (snapRepo s) (flavorRepo s)
    (keypairRepo s) (Some a) (publisher s) (puller s) (env s).

End construction.

Section deployment.
Context {U : Type} `{Pg U, !PgLaws U}.
Abbreviation World := (PgControl.World (U:=U)).
Abbreviation DB := (PgControl.DB (U:=U)).

(** The service [main] builds; [js] says whether there is a stream. *)
Definition control_plane (imagesDir : string) (js : bool) : Service World :=
  let publisher := if js then Some nats_EventPublisher else None in
  let svc := NewService pg_VMRepository pg_NodeRepository pg_ImageRepository pg_BackupRepository
               pg_SnapshotRepository publisher pg_Env in
  let svc := InitPuller imagesDir svc in
  let svc := SetFlavorRepository pg_FlavorRepository svc in
  let svc := SetKeypairRepository pg_KeypairRepository svc in
  SetIPAMAllocator pg_IPAM svc.

#[export] Instance control_plane_laws imagesDir js :
  ServiceLaws pg_abs pg_key (control_plane imagesDir js).
Proof.
  split; try apply _; simpl.
  - intros r [= <-]. apply _.
  - intros r [= <-]. apply _.
  - intros r [= <-]. apply _.
  - intros r. destruct js; intros [= <-]. apply _.
  - intros p [= <-]. simpl. split; apply _.
Qed.

(** C15: Refinement: the service of [main], on PostgreSQL repositories whose
    server may refuse any statement and roll back any transaction and on a
    stream that may lose any message, keeps every promise the theorems about
    the service rely on: each repository operation either changes the abstract
    state exactly as its interface says or reports an error and changes
    nothing, reads return what is stored, and ids are new. *)
Theorem deployment_refines_interfaces imagesDir js :
  ServiceLaws pg_abs pg_key (control_plane imagesDir js).
Proof. apply control_plane_laws. Qed.

(** C22: [batchLoadRelated], one query over the disks and one over the interfaces
    of all machines of a page, gives each machine the disks and interfaces, in
    the order, that [GetByID] loads for it alone. *)
Theorem batch_load_agrees (pg : list (U * vm_row)) (w : World) :
  NoDup pg.*1 → (∀ u r, (u, r) ∈ pg → t_vms (w_db w) !! u = Some r) →
  wp (batchLoadRelated (map (λ ur, vm_read ur.1 ur.2) pg)) (post
    (λ vms _, Forall2 (λ ur vm, wp (VMRepo_GetByID (uuid_out ur.1)) (post
                 (λ o _, o = Some vm) (λ _ _, True)) w) pg vms)
    (λ _ w', pg_abs w' = pg_abs w)) w.
Proof.
  intros Hnd Hin. eapply wp_post; [by apply batch_load_spec| |done].
  intros vms w' (-> & _ & _). apply Forall2_fmap_r, Forall_Forall2_diag, Forall_forall.
  intros [u r] Hur. eapply wp_post; [apply get_vm_spec| |done].
  intros o w'' ((v & Hv & ->) & _). rewrite pg_key_out in Hv. apply (inj uuid_out) in Hv as ->.
  simpl. by rewrite (Hin u r Hur).
Qed.

(** [List] returns a page of the machines that match the filter, each as
    [GetByID] would load it, none twice, and the number of all that match. *)
Theorem list_page_correct f (w : World) :
  wp (VMRepo_List f) (post
    (λ r w', ∃ rows pg, q_vm_matching f (w_db w) = Ret rows ∧ pg ⊆+ rows ∧ NoDup pg.*1 ∧
       r.1 = map (λ ur, full_vm ur.1 ur.2) pg ∧ r.2 = Z.of_nat (length rows) ∧
       (∀ u row, (u, row) ∈ pg → t_vms (w_db w) !! u = Some row) ∧ pg_abs w' = pg_abs w)
    (λ _ w', pg_abs w' = pg_abs w)) w.
Proof.
  eapply wp_post; [apply list_vms_spec| |done].
  intros r w' ((rows & pg & Hq & Hsub & Hr & Hn) & _ & Hw). exists rows, pg.
  destruct (q_vm_matching_Ret _ _ _ Hq) as [Hnd Hin]. split_and!; try done.
  - apply submseteq_Permutation in Hsub as [k Hk]. rewrite Hk, fmap_app in Hnd.
    by apply NoDup_app in Hnd as [? _].
  - intros u row Hu. apply Hin. by eapply elem_of_submseteq.
Qed.

(** * When nothing is refused *)

(** No fault is ahead: every statement runs and every message is stored. *)
Definition calm (w : World) : Prop := w_faults w = [] ∧ w_pub_faults w = [].

Definition succeeds {A} (m : M World A) (w : World) (Q : A → World → Prop) : Prop :=
  ∃ a w', m w = (Ret a, w') ∧ calm w' ∧ Q a w'.

Lemma succeeds_ret {A} (a : A) w (Q : A → World → Prop) : calm w → Q a w → succeeds (mret a) w Q.
Proof using. intros ??. by exists a, w. Qed.

Lemma succeeds_bind {A B} (m : M World A) (k : A → M World B) w QA Q :
  succeeds m w QA → (∀ a w', calm w' → QA a w' → succeeds (k a) w' Q) → succeeds (m ≫= k) w Q.
Proof using.
  intros (a & w1 & E & Hc & Ha) Hk. destruct (Hk a w1 Hc Ha) as (b & w2 & E2 & ?).
  exists b, w2. split; [|done]. unfold mbind, M_bind. by rewrite E.
Qed.

Lemma succeeds_wrap {A} c (m : M World A) w Q : succeeds m w Q → succeeds (wrap c m) w Q.
Proof using. intros (a & w1 & E & ?). exists a, w1. unfold wrap. by rewrite E. Qed.

Lemma succeeds_attempt {A} (m : M World A) w Q : succeeds m w Q →
  succeeds (attempt m) w (λ r w', ∃ a, r = inl a ∧ Q a w').
Proof using. intros (a & w1 & E & ? & ?). exists (inl a), w1. unfold attempt. rewrite E. eauto. Qed.

Lemma succeeds_ignore {A} (m : M World A) w Q : succeeds m w Q →
  succeeds (ignore m) w (λ _ w', ∃ a, Q a w').
Proof using. intros (a & w1 & E & ? & ?). exists (), w1. unfold ignore. rewrite E. eauto. Qed.

Lemma succeeds_mono {A} (m : M World A) w (Q Q' : A → World → Prop) :
  succeeds m w Q → (∀ a w', Q a w' → Q' a w') → succeeds m w Q'.
Proof using. intros (a & w1 & E & ? & ?) HQ. exists a, w1. eauto. Qed.

Lemma succeeds_query {A} (f : DB → outcome A) a w : calm w → f (w_db w) = Ret a →
  succeeds (query f) w (λ a' w', a' = a ∧ w' = w).
Proof using.
  intros [Hf Hp] Ea. exists a, w. split_and!; try done.
  unfold query, stmt. rewrite Hf, Ea. simpl. by destruct w; simpl in *; subst.
Qed.

Lemma query_calm {A} (f : DB → outcome A) w : calm w → query f w = (f (w_db w), w).
Proof using.
  intros [Hf _]. unfold query, stmt. rewrite Hf.
  assert (Ew : set_db (w_db w) (pop_fault w) = w) by (by destruct w; simpl in *; subst).
  assert (Ep : pop_fault w = w) by (by destruct w; simpl in *; subst).
  by destruct (f (w_db w)); simpl; rewrite ?Ew, ?Ep.
Qed.

(** An allocation reserves nothing: the next one returns the same address. *)
Lemma allocate_calm net w : calm w → (IPAM_AllocateIP net w).2 = w.
Proof using.
  intros Hc. unfold IPAM_AllocateIP, rows_err, mbind, M_bind, wrap. rewrite !query_calm by done.
  destruct (q_subnet net (w_db w)) as [sg| |]; [|done|done]. rewrite query_calm by done.
  destruct (q_used net (w_db w)) as [used| |]; [|done|done]. rewrite query_calm by done.
  by destruct (Ipam.NextAvailableIP sg.1 used) as [[]| |].
Qed.

Lemma succeeds_exec (f : DB → outcome DB) d w : calm w → f (w_db w) = Ret d →
  succeeds (exec f) w (λ _ w', w' = set_db (tick d) w).
Proof using.
  intros [Hf Hp] Ed. exists (), (set_db (tick d) w). split_and!; try done.
  unfold exec, stmt. rewrite Hf, Ed. simpl. by destruct w; simpl in *; subst.
Qed.

Lemma succeeds_publish subj d w : calm w →
  succeeds (pub_Publish subj d) w (λ _ w', w_db w' = w_db w ∧ w_msgs w' = w_msgs w ++ [(subj, d)]).
Proof using.
  intros [Hf Hp]. eexists (), _. unfold pub_Publish, wrap, js_Publish. rewrite Hp. split; [done|].
  done.
Qed.

Lemma get_vm_succeeds imagesDir js id u r w : calm w → uuid_in id = Some u →
  t_vms (w_db w) !! u = Some r →
  succeeds (get_vm (control_plane imagesDir js) id) w (λ vm w', vm = full_vm u r ∧ w' = w).
Proof.
  intros Hc Hu Hr. unfold get_vm, VM_GetByID. simpl.
  eapply (succeeds_bind _ _ _ (λ o w', o = Some (full_vm u r) ∧ w' = w));
    [|intros o w1 Hc1 [-> ->]; by apply succeeds_ret].
  apply succeeds_wrap. unfold VMRepo_GetByID.
  eapply succeeds_bind; [apply succeeds_wrap, (succeeds_query _ (Some (vm_read u r)));
    [done|unfold q_vm, uuid_arg; by rewrite Hu; simpl; rewrite Hr]|].
  intros o w1 _ [-> ->].
  eapply (succeeds_bind _ _ _ (λ vm w', vm = full_vm u r ∧ w' = w));
    [|intros vm w1 Hc1 [-> ->]; by apply succeeds_ret].
  unfold loadRelated. simpl.
  eapply succeeds_bind; [apply succeeds_wrap, (succeeds_query _ (disks_of (w_db w) u)); [done|];
    unfold q_disks, uuid_arg; by rewrite uuid_in_out|]. intros ds w1 _ [-> ->].
  eapply succeeds_bind; [by apply (succeeds_query _ ())|]. intros [] w1 _ [_ ->].
  eapply succeeds_bind; [apply succeeds_wrap, (succeeds_query _ (nics_of (w_db w) u)); [done|];
    unfold q_nics, uuid_arg; by rewrite uuid_in_out|]. intros ns w1 _ [-> ->].
  eapply succeeds_bind; [by apply (succeeds_query _ ())|]. intros [] w1 _ [_ ->].
  apply succeeds_ret; [done|]. split; [|done]. unfold disks_of, nics_of. by rewrite Hr.
Qed.

Lemma update_status_succeeds id u r st w : calm w → uuid_in id = Some u →
  t_vms (w_db w) !! u = Some r →
  succeeds (VMRepo_UpdateStatus id st) w (λ _ w', w_msgs w' = w_msgs w ∧
    t_nodes (w_db w') = t_nodes (w_db w) ∧ ∃ r', t_vms (w_db w') = <[u := r']> (t_vms (w_db w)) ∧
          vm_untimed (full_vm u r') = vm_set_status st (vm_untimed (full_vm u r))).
Proof.
  intros Hc Hu Hr. apply succeeds_wrap.
  eapply succeeds_mono; [apply succeeds_exec; [done|unfold uuid_arg; by rewrite Hu]|].
  intros [] w' ->. split_and!; [done|done|]. eexists. split; [simpl; by apply alter_at|done].
Qed.

(** The command a power operation sends: to the node by its name, or by its id
    when it is not stored. *)
Definition node_label (d : DB) (n : U) : string :=
  match t_nodes d !! n with
  | Some node => or_default (node_Name node) (uuid_out n)
  | None => uuid_out n
  end.
Definition command_to (d : DB) (action id : string) (force : bool) (r : vm_row) : list (string * json) :=
  match vr_node r with
  | Some n => [(Ipam.SubjectForNode (node_label d n) action, power_command action id force)]
  | None => []
  end.

Lemma send_command_succeeds imagesDir action id force u r w : calm w →
  succeeds (send_command (control_plane imagesDir true) action id force (full_vm u r)) w
    (λ _ w', w_db w' = w_db w ∧ w_msgs w' = w_msgs w ++ command_to (w_db w) action id force r).
Proof.
  intros Hc. unfold send_command, command_to, assigned. simpl.
  destruct (vr_node r) as [n|]; simpl; [|apply succeeds_ret; [done|by rewrite app_nil_r]].
  destruct (String.eqb_spec (uuid_out n) "") as [E|_]; [by destruct (uuid_out_ne n)|].
  eapply (succeeds_bind _ _ _ (λ subj w', subj = Ipam.SubjectForNode (node_label (w_db w) n) action ∧ w' = w)).
  - unfold nodeCommandSubject. simpl. eapply succeeds_bind.
    { apply succeeds_attempt, succeeds_wrap, (succeeds_query _ (node_read n <$> t_nodes (w_db w) !! n)); [done|].
      unfold q_by_id, uuid_arg. by rewrite uuid_in_out. }
    intros o w1 Hc1 (a & -> & -> & ->). apply succeeds_ret; [done|]. split; [|done].
    unfold node_label. by destruct (t_nodes (w_db w) !! n).
  - intros subj w1 Hc1 [-> ->]. eapply succeeds_mono; [by apply succeeds_ignore, succeeds_publish|].
    by intros [] w' [? ?].
Qed.

(** A power operation that passed its guard, run to the end. *)
Lemma two_phase_succeeds imagesDir action ev id force st1 st2 u r w :
  let s := control_plane imagesDir true in
  calm w → uuid_in id = Some u → t_vms (w_db w) !! u = Some r →
  succeeds (
    _ ← wrap "update status" (VM_UpdateStatus (vmRepo s) id st1);
    _ ← send_command s action id force (full_vm u r);
    _ ← wrap "update status" (VM_UpdateStatus (vmRepo s) id st2);
    _ ← emit_vm_event s ev id (JObj [("vm_id", JStr id)]);
    mret (vm_set_status st2 (full_vm u r))) w
    (λ vm w', vm = vm_set_status st2 (full_vm u r) ∧
       a_vms (pg_abs w') !! pg_key id = Some (vm_untimed vm) ∧
       w_msgs w' = w_msgs w ++ command_to (w_db w) action id force r ++
         [("events.vm." +:+ id +:+ "." +:+ ev, JObj [("vm_id", JStr id)])]).
Proof.
  intros s Hc Hu Hr. eapply succeeds_bind; [apply succeeds_wrap; by eapply update_status_succeeds|].
  intros [] w1 Hc1 (Hm1 & Hn1 & r1 & Hv1 & Hr1).
  assert (Hnodes : command_to (w_db w1) action id force r = command_to (w_db w) action id force r)
    by (unfold command_to, node_label; by rewrite Hn1).
  eapply succeeds_bind; [by apply send_command_succeeds|]. intros [] w2 Hc2 [Hd2 Hm2].
  eapply succeeds_bind; [apply succeeds_wrap; eapply (update_status_succeeds id u r1); [done..|];
    by rewrite Hd2, Hv1, lookup_insert_eq|].
  intros [] w3 Hc3 (Hm3 & _ & r3 & Hv3 & Hr3).
  eapply succeeds_bind; [by apply succeeds_ignore, succeeds_publish|].
  intros [] w4 Hc4 (_ & Hd4 & Hm4). apply succeeds_ret; [done|].
  split_and!; [done| |].
  - unfold pg_key. rewrite Hu. simpl. rewrite Hd4, view_lookup, Hv3, lookup_insert_eq. simpl.
    rewrite Hr3, Hr1. done.
  - rewrite Hm4, Hm3, Hm2, Hm1, Hnodes. by rewrite <-!(assoc_L (++)).
Qed.

(** Progress: when no statement is refused, [PowerOff] of a stored machine
    that is running or paused, or of any stored machine when forced, succeeds:
    the machine is stored stopped, its node is sent exactly one stop command
    and then the stopped event is published. *)
Theorem power_off_succeeds imagesDir id force u r w :
  calm w → uuid_in id = Some u → t_vms (w_db w) !! u = Some r →
  power_off_guard (vm_Status (vr_val r)) force = true →
  succeeds (PowerOff (control_plane imagesDir true) id force) w (λ vm w',
    vm = vm_set_status VMStatusStopped (full_vm u r) ∧
    a_vms (pg_abs w') !! pg_key id = Some (vm_untimed vm) ∧
    w_msgs w' = w_msgs w ++ command_to (w_db w) "stop" id force r ++
      [("events.vm." +:+ id +:+ ".stopped", JObj [("vm_id", JStr id)])]).
Proof.
  intros Hc Hu Hr Hg. eapply succeeds_bind; [by apply get_vm_succeeds|].
  intros vm w1 _ [-> ->]. unfold power_off_guard in Hg. simpl.
  destruct (negb _ && negb _ && negb force) eqn:E;
    [|by apply (two_phase_succeeds imagesDir "stop" "stopped")].
  exfalso. revert Hg E. by repeat case_bool_decide; destruct force.
Qed.

(** Progress: when no statement is refused, [Reboot] of a stored machine
    that is running, or of any when forced, succeeds and leaves it running; its
    node is sent exactly one reboot command, then the event is published. *)
Theorem reboot_succeeds imagesDir id force u r w :
  calm w → uuid_in id = Some u → t_vms (w_db w) !! u = Some r →
  reboot_guard (vm_Status (vr_val r)) force = true →
  succeeds (Reboot (control_plane imagesDir true) id force) w (λ vm w',
    vm = vm_set_status VMStatusRunning (full_vm u r) ∧
    a_vms (pg_abs w') !! pg_key id = Some (vm_untimed vm) ∧
    w_msgs w' = w_msgs w ++ command_to (w_db w) "reboot" id force r ++
      [("events.vm." +:+ id +:+ ".rebooted", JObj [("vm_id", JStr id)])]).
Proof.
  intros Hc Hu Hr Hg. eapply succeeds_bind; [by apply get_vm_succeeds|].
  intros vm w1 _ [-> ->]. unfold reboot_guard in Hg. simpl.
  destruct (negb _ && negb force) eqn:E; [|by apply (two_phase_succeeds imagesDir "reboot" "rebooted")].
  exfalso. revert Hg E. by repeat case_bool_decide; destruct force.
Qed.

(** Progress: when no statement is refused, [DeleteVM] of a stored machine
    that is stopped, or of any when forced, succeeds; the machine is gone, with
    its snapshots and backups. *)
Theorem delete_succeeds imagesDir id force u r w :
  calm w → uuid_in id = Some u → t_vms (w_db w) !! u = Some r →
  force || bool_decide (vm_Status (vr_val r) = VMStatusStopped) = true →
  succeeds (DeleteVM (control_plane imagesDir true) id force) w (λ _ w',
    t_vms (w_db w') = delete u (t_vms (w_db w)) ∧
    (∀ k s, t_snaps (w_db w') !! k = Some s → sr_vm s ≠ u) ∧
    (∀ k b, t_backups (w_db w') !! k = Some b → br_vm b ≠ u) ∧ w_msgs w' = w_msgs w).
Proof.
  intros Hc Hu Hr Hg. eapply succeeds_bind; [by apply get_vm_succeeds|].
  intros vm w1 _ [-> ->]. simpl. destruct (negb force && negb _) eqn:E.
  { exfalso. revert Hg E. by case_bool_decide; destruct force. }
  eapply succeeds_wrap, succeeds_wrap, succeeds_mono;
    [apply succeeds_exec; [done|unfold uuid_arg; by rewrite Hu]|].
  intros [] w' ->. simpl. split_and!; [done| | |done].
  - by intros k s [_ ?]%map_lookup_filter_Some.
  - by intros k b [_ ?]%map_lookup_filter_Some.
Qed.

(** C23: Round trip: when [Create] stores a machine, [GetByID] of its id returns,
    unless a statement of it is refused, that machine with every field and disk and
    every interface with all its addresses: ids and references in canonical form,
    disks by their order number, addresses in the text the server gives them.  The
    id is new and reading changes nothing.  When [Create] fails, at whichever
    statement, the database is what it was.  (The id is given in canonical form, as
    the service generates it.) *)
Theorem create_get_roundtrip vm (w : World) : pg_key (U:=U) (vm_ID vm) = vm_ID vm →
  wp (VMRepo_Create vm) (post
    (λ _ w1, a_vms (pg_abs w) !! vm_ID vm = None ∧
       wp (VMRepo_GetByID (vm_ID vm)) (post
         (λ o w2, ∃ got, o = Some got ∧ same_machine vm got ∧
            pg_abs w1 = on_vms <[vm_ID vm := vm_untimed got]> (pg_abs w) ∧ pg_abs w2 = pg_abs w1)
         (λ _ w2, pg_abs w2 = pg_abs w1)) w1)
    (λ _ w1, pg_abs w1 = pg_abs w ∧ w_db w1 = w_db w)) w.
Proof.
  intros Hk. eapply wp_post; [by apply create_vm_spec| |done].
  intros [] w1 (vm' & Hsame & Hun & Hw & Hnew). split; [done|].
  eapply wp_post; [apply (law_vm_get pg_abs pg_key (R:=pg_VMRepository) (vm_ID vm) w1)| |done].
  intros o w2 [[Ho _] Hw2]. rewrite Hw in Ho. simpl in Ho. rewrite Hk, lookup_insert_eq in Ho.
  destruct o as [got|]; [|done]. injection Ho as <-. by exists got.
Qed.

End deployment.
