(* ===== verification/Witnesses.v ===== *)
(** The hypotheses of the theorems about the control plane hold at concrete
    inputs: a UUID type that satisfies the laws of [PgControl], the deployed
    service over it, a database with a node, a network, two machines, an image,
    a snapshot and a backup, and each theorem applied to a request that succeeds
    there.  The last section runs requests for their outcome. *)
From stdpp Require Import base gmap strings list numbers.
From S2P Require Import Prelude.
From S2P Require Import GoStd.
From S2P Require Import Ipam.
From S2P Require Import Domain.
From S2P Require Import GoJson.
From S2P Require Import Interfaces.
From S2P Require Import Catalog.
From S2P Require Import Puller.
From S2P Require Import ControlPlane.
From S2P Require Import VMService.
From S2P Require Import CreateVM.
From S2P Require Import Resources.
From S2P Require Import Recovery.
From S2P Require Import Lifecycle.
From S2P Require Import PgControl.
From S2P Require Import PgSound.
From S2P Require Import Deployment.
From stdpp Require Import options.

(** * UUIDs as non-empty texts *)
Record text := mkText { text_chars : string; text_ne : bool_decide (text_chars ≠ "") }.

#[export] Instance text_eq_dec : EqDecision text.
Proof.
  intros [s Hs] [t Ht]. destruct (decide (s = t)) as [E|E].
  - left. subst. f_equal. apply proof_irrel.
  - right. by intros [= ?].
Defined.

Definition text_of (s : string) : option text :=
  match decide (bool_decide (s ≠ "")) with left H => Some (mkText s H) | right _ => None end.

Lemma text_of_chars t : text_of (text_chars t) = Some t.
Proof.
  destruct t as [s Hs]. unfold text_of. simpl. destruct (decide _) as [H|H]; [|done].
  f_equal. f_equal. apply proof_irrel.
Qed.

#[export] Instance text_countable : Countable text := inj_countable text_chars text_of text_of_chars.

(** A text longer than all those of a set. *)
Fixpoint u_chars (n : nat) : string := match n with O => "" | S n => "u" +:+ u_chars n end.
Definition longest (X : gset string) : nat := foldr Nat.max 0 (String.length <$> elements X).
Definition text_new (X : gset string) : text := mkText ("u" +:+ u_chars (longest X)) I.

Lemma text_new_fresh X : text_chars (text_new X) ∉ X.
Proof.
  intros Hin. apply elem_of_elements in Hin.
  assert (Hlen : ∀ n, String.length (u_chars n) = n) by (intros n; induction n as [|n IHn]; [done|]; change (S (String.length (u_chars n)) = S n); by rewrite IHn).
  assert (Hmax : ∀ (l : list string) s, s ∈ l → String.length s ≤ foldr Nat.max 0 (String.length <$> l)).
  { intros l s. induction l as [|x l IH]; csimpl; [by intros ?%elem_of_nil|].
    intros [->|Hs]%elem_of_cons; [lia|]. specialize (IH Hs). lia. }
  specialize (Hmax _ _ Hin). fold (longest X) in Hmax.
  change (String.length _) with (S (String.length (u_chars (longest X)))) in Hmax.
  rewrite Hlen in Hmax. lia.
Qed.

#[export] Instance text_pg : Pg text := {
  uuid_out := text_chars;
  uuid_in := text_of;
  uuid_new := text_new;
  inet_in s := Some s;
  cidr_next c := match GatewayIP c with Ret g => g | _ => c end;
  ilike name pat := String.eqb pat ("%" +:+ name +:+ "%");
}.

#[export] Instance text_pg_laws : PgLaws text.
Proof. split; [apply text_of_chars|done|apply text_new_fresh]. Qed.

(** * A database *)
Definition org0 : string := "00000000-0000-0000-0000-000000000000".
Definition id (s : string) (H : bool_decide (s ≠ "")) : text := mkText s H.

Definition a_vm (name : string) (st : VMStatus) : VirtualMachine :=
  mkVM "" name None org0 None st 2 2048 "host" "q35" false false false "" None None None None [] [] 0 0.
Definition a_disk : Disk := mkDisk "" "disk-0" 21474836480 "qcow2" "default" "" true 0.
Definition a_nic (mac ip : string) : NetworkInterface := mkNIC "" "eth0" "" mac [ip] [] true.
Definition an_image : Image :=
  mkImage "" "ubuntu-22.04" "" "ubuntu" "22.04" "amd64" "os" 100 ImageStatusReady "" "" None 0 0.
Definition a_node : Node :=
  mkNode "" "node-1" "10.0.0.5" 9000 NodeStatusOnline (mkResources 8 0 16384 0 0 0 0 0) None None None 0 0.

Definition db0 : DB (U:=text) := mkDB
  (<[id "vm-run" I := mkVMRow (Some (id "n1" I)) (a_vm "web" VMStatusRunning)
       [mkDiskRow (id "d1" I) (Some (id "img1" I)) a_disk]
       [mkNICRow (id "i1" I) (Some (id "net1" I)) (a_nic "52:54:00:00:00:01" "10.1.0.2/24")]]>
  (<[id "vm-off" I := mkVMRow None (a_vm "db" VMStatusStopped)
       [mkDiskRow (id "d2" I) None a_disk]
       [mkNICRow (id "i2" I) (Some (id "net1" I)) (a_nic "52:54:00:00:00:02" "10.1.0.3/24")]]>
  (<[id "vm-err" I := mkVMRow None (a_vm "old" VMStatusError) [] []]> ∅)))
  {[id "n1" I := a_node]} {[id "img1" I := an_image]}
  {[id "s1" I := mkSnapRow (id "vm-off" I) (mkSnapshot "" "" "before" "" 0 "ready" 0)]}
  {[id "b1" I := mkBackupRow (id "vm-off" I)
      (mkBackup "" "nightly" "" org0 BackupStatusCompleted 0 "full" "default" 0 None)]}
  {[id "f1" I := mkFlavor "" "small" "" 1 1024 20 0 0]} ∅
  [mkNetRow (id "net1" I) (id org0 I) "default" "10.1.0.0/24"]
  [mkSubnetRow (id "net1" I) "10.1.0.0/24" true (Some "10.1.0.1") 0] 100.

Definition w0 : World (U:=text) := mkWorld db0 [] [] [] [] ∅ ∅.
Definition svc : Service (World (U:=text)) := control_plane "" true.
Definition puller0 : PullerState (World (U:=text)) := NewPuller pg_ImageRepository "" pg_Env.

Definition ok {A} (r : outcome A * World (U:=text)) : bool :=
  match r.1 with Ret _ => true | _ => false end.

(** * Power *)
Lemma power_off_witness : ok (PowerOff svc "vm-run" false w0) = true ∧
  wp (PowerOff svc "vm-run" false) (two_phase_post pg_abs pg_key power_off_guard "stop" "stopped"
    "vm-run" false VMStatusShuttingDown VMStatusStopped w0) w0.
Proof. split; [vm_compute; reflexivity|apply (power_off_correct pg_abs pg_key svc)]. Defined.

Lemma reboot_witness : ok (Reboot svc "vm-run" false w0) = true ∧
  wp (Reboot svc "vm-run" false) (two_phase_post pg_abs pg_key reboot_guard "reboot" "rebooted"
    "vm-run" false VMStatusRebooting VMStatusRunning w0) w0.
Proof. split; [vm_compute; reflexivity|apply (reboot_correct pg_abs pg_key svc)]. Defined.

Lemma power_on_witness : ok (PowerOn svc "vm-off" w0) = true ∧
  wp (PowerOn svc "vm-off") (power_on_post pg_abs pg_key svc "vm-off" w0) w0.
Proof.
  split; [vm_compute; reflexivity|]. apply (power_on_correct pg_abs pg_key svc).
  intros old E. vm_compute in E. injection E as <-.
  constructor; [|constructor]. constructor; [|constructor]. exists [10; 1; 0; 3]%Z, 24%Z.
  split_and!; [|lia|lia|vm_compute; reflexivity].
  split; [done|]. repeat constructor; unfold GoNet.octet; lia.
Defined.

Lemma power_off_succeeds_witness : ∃ u r,
  succeeds (PowerOff (control_plane "" true) "vm-run" false) w0 (λ vm w',
    vm = vm_set_status VMStatusStopped (full_vm u r) ∧
    a_vms (pg_abs w') !! pg_key (U:=text) "vm-run" = Some (vm_untimed vm) ∧
    w_msgs w' = w_msgs w0 ++ command_to (w_db w0) "stop" "vm-run" false r ++
      [("events.vm." +:+ "vm-run" +:+ ".stopped", JObj [("vm_id", JStr "vm-run")])]).
Proof. eexists _, _. apply power_off_succeeds; [done|reflexivity|vm_compute; reflexivity|reflexivity]. Defined.

Lemma reboot_succeeds_witness : ∃ u r,
  succeeds (Reboot (control_plane "" true) "vm-run" false) w0 (λ vm w',
    vm = vm_set_status VMStatusRunning (full_vm u r) ∧
    a_vms (pg_abs w') !! pg_key (U:=text) "vm-run" = Some (vm_untimed vm) ∧
    w_msgs w' = w_msgs w0 ++ command_to (w_db w0) "reboot" "vm-run" false r ++
      [("events.vm." +:+ "vm-run" +:+ ".rebooted", JObj [("vm_id", JStr "vm-run")])]).
Proof. eexists _, _. apply reboot_succeeds; [done|reflexivity|vm_compute; reflexivity|reflexivity]. Defined.

Lemma delete_succeeds_witness : ∃ u,
  succeeds (DeleteVM (control_plane "" true) "vm-off" false) w0 (λ _ w',
    t_vms (w_db w') = delete u (t_vms (w_db w0)) ∧
    (∀ k s, t_snaps (w_db w') !! k = Some s → sr_vm s ≠ u) ∧
    (∀ k b, t_backups (w_db w') !! k = Some b → br_vm b ≠ u) ∧ w_msgs w' = w_msgs w0).
Proof.
  eexists. eapply delete_succeeds; [done|reflexivity|vm_compute; reflexivity|reflexivity].
Defined.

(** * The other operations on machines *)
Lemma delete_vm_witness : ok (DeleteVM svc "vm-off" false w0) = true ∧
  wp (DeleteVM svc "vm-off" false) (delete_post pg_abs pg_key "vm-off" false w0) w0.
Proof. split; [vm_compute; reflexivity|apply (delete_vm_correct pg_abs pg_key svc)]. Defined.

Definition rename : UpdateVMRequest := mkUpdateVM "new-name" None (Some {["tier" := "gold"]}) None.
Lemma update_vm_witness : ok (UpdateVM svc "vm-run" rename w0) = true ∧
  wp (UpdateVM svc "vm-run" rename) (update_vm_post pg_abs pg_key "vm-run" rename w0) w0.
Proof. split; [vm_compute; reflexivity|apply (update_vm_correct pg_abs pg_key svc)]. Defined.

Lemma resize_witness : ok (Resize svc "vm-run" 4 4096 w0) = true ∧
  wp (Resize svc "vm-run" 4 4096) (resize_post pg_abs pg_key "vm-run" 4 4096 w0) w0.
Proof. split; [vm_compute; reflexivity|apply (resize_correct pg_abs pg_key svc)]. Defined.

Lemma restore_snapshot_witness : ok (RestoreSnapshot svc "s1" w0) = true ∧
  wp (RestoreSnapshot svc "s1") (restore_snapshot_post pg_abs pg_key "s1" w0) w0.
Proof. split; [vm_compute; reflexivity|apply (restore_snapshot_correct pg_abs pg_key svc)]. Defined.

Lemma snapshot_witness : ok (Snapshot_VM svc "vm-run" "s" "" w0) = true ∧
  wp (Snapshot_VM svc "vm-run" "s" "") (snapshot_post pg_abs pg_key "vm-run" "s" "" w0) w0.
Proof. split; [vm_compute; reflexivity|apply (snapshot_correct pg_abs pg_key svc)]. Defined.

Definition new_vm (nics : list CreateNetworkInterfaceRequest) : CreateVMRequest :=
  mkCreateVM "fresh" "" "" "small" 0 0 "" "" false false false "" "" "" [] nics None None None.
Lemma create_vm_witness : ok (CreateVM svc (new_vm []) w0) = true ∧
  wp (CreateVM svc (new_vm [])) (create_vm_post pg_abs pg_key (new_vm []) w0) w0.
Proof. split; [vm_compute; reflexivity|apply (create_vm_correct pg_abs pg_key svc)]. Defined.

Lemma clone_witness : ok (Clone svc "vm-run" "copy" "" false w0) = true ∧
  wp (Clone svc "vm-run" "copy" "" false) (clone_post pg_abs pg_key "vm-run" "copy" "" false w0) w0.
Proof. split; [vm_compute; reflexivity|apply (clone_correct pg_abs pg_key svc)]. Defined.

(** * Images *)
Definition jammy : OfficialImage :=
  mkOfficial "ubuntu-24.04" "ubuntu" "24.04" "amd64" "https://example.org/i.img" "" 10 "".

Lemma pull_from_official_witness : ok (PullFromOfficial puller0 jammy w0) = true ∧
  wp (PullFromOfficial puller0 jammy) (post
    (λ img w', img_Name img = oi_Name jammy ∧ pull_result (λ b, b = true) (pg_abs w0) img (pg_abs w'))
    (λ _ w', pull_failure (pg_abs w0) (pg_abs w'))) w0.
Proof.
  split; [vm_compute; reflexivity|].
  apply (pull_from_official_correct pg_abs pg_key puller0 (ImageRepoLaws0 := image_laws) (EnvLaws0 := env_laws)).
Defined.

Lemma resolve_ensures_witness : ok (ResolveAndEnsureImage puller0 "ubuntu-22.04" w0) = true ∧
  wp (ResolveAndEnsureImage puller0 "ubuntu-22.04") (post
    (λ img w', pull_result (λ _, True) (pg_abs w0) img (pg_abs w'))
    (λ _ w', pull_failure (pg_abs w0) (pg_abs w'))) w0.
Proof.
  split; [vm_compute; reflexivity|].
  apply (resolve_ensures_stored pg_abs pg_key puller0 (ImageRepoLaws0 := image_laws) (EnvLaws0 := env_laws)).
Defined.

(** * Nodes, flavors, keypairs, backups *)
Definition join : RegisterNodeRequest :=
  mkRegister "node-2" "10.0.0.6" 9000 None (mkResources 4 0 8192 0 0 0 0 0).
Lemma register_witness : ok (Register (NodeService svc) join w0) = true ∧
  wp (Register (NodeService svc) join) (post
    (λ n w', rr_Name join ≠ "" ∧ rr_Address join ≠ "" ∧
       node_Name n = rr_Name join ∧ node_Address n = rr_Address join ∧
       node_Status n = NodeStatusOnline ∧ node_Resources n = rr_Resources join ∧
       a_nodes (pg_abs w0) !! node_ID n = None ∧
       a_nodes (pg_abs w') = <[node_ID n := node_untimed n]> (a_nodes (pg_abs w0)) ∧
       a_vms (pg_abs w') = a_vms (pg_abs w0) ∧
       (node_names_unique (pg_abs w0) → node_names_unique (pg_abs w')))
    (λ _ w', a_nodes (pg_abs w') = a_nodes (pg_abs w0) ∧ a_vms (pg_abs w') = a_vms (pg_abs w0))) w0.
Proof. split; [vm_compute; reflexivity|apply (register_correct pg_abs pg_key svc)]. Defined.

Lemma drain_witness : ok (Drain (NodeService svc) "n1" 60 w0) = true ∧
  wp (Drain (NodeService svc) "n1" 60) (post
    (λ _ w', is_Some (a_nodes (pg_abs w0) !! pg_key (U:=text) "n1") ∧
             pg_abs w' = on_nodes (alter (node_set_status NodeStatusDraining) (pg_key (U:=text) "n1")) (pg_abs w0))
    (λ _ w', pg_abs w' = pg_abs w0)) w0.
Proof. split; [vm_compute; reflexivity|apply (drain_correct pg_abs pg_key svc)]. Defined.

Definition tiny : CreateFlavorRequest := mkCreateFlavor "tiny" "" 1 512 5.
Lemma create_flavor_witness : ok (CreateFlavor svc tiny w0) = true ∧
  wp (CreateFlavor svc tiny) (post
    (λ f w', fr_Name tiny ≠ "" ∧ (1 ≤ fl_VCpus f)%Z ∧ (128 ≤ fl_MemoryMB f)%Z ∧ (1 ≤ fl_DiskGB f)%Z ∧
       fl_Name f = fr_Name tiny ∧ a_flavors (pg_abs w0) !! fl_ID f = None ∧
       a_flavors (pg_abs w') = <[fl_ID f := f]> (a_flavors (pg_abs w0)) ∧
       (flavor_names_unique (pg_abs w0) → flavor_names_unique (pg_abs w')))
    (λ _ w', a_flavors (pg_abs w') = a_flavors (pg_abs w0))) w0.
Proof. split; [vm_compute; reflexivity|apply (create_flavor_correct pg_abs pg_key svc)]. Defined.

Definition a_key : CreateKeypairRequest := mkCreateKeypair "laptop" "ssh-ed25519 AAAAC3Nza me@host" "".
Lemma create_keypair_witness : ok (CreateKeypair svc a_key w0) = true ∧
  wp (CreateKeypair svc a_key) (post
    (λ k w', kr_Name a_key ≠ "" ∧ Strings.Contains (kr_PublicKey a_key) "ssh-" = true ∧
       kp_Name k = kr_Name a_key ∧ kp_PublicKey k = kr_PublicKey a_key ∧
       kp_Fingerprint k = fingerprintPublicKey (kr_PublicKey a_key) ∧
       kp_OrganizationID k ≠ "" ∧ a_keypairs (pg_abs w0) !! kp_ID k = None ∧
       a_keypairs (pg_abs w') =
         <[kp_ID k := kp_stored (pg_key (U:=text) (kp_OrganizationID k)) k]> (a_keypairs (pg_abs w0)))
    (λ _ w', a_keypairs (pg_abs w') = a_keypairs (pg_abs w0))) w0.
Proof. split; [vm_compute; reflexivity|apply (create_keypair_correct pg_abs pg_key svc)]. Defined.

Definition a_backup : Backup :=
  mkBackup "" "weekly" "vm-run" "" BackupStatusCreating 0 "full" "default" 0 None.
Lemma create_backup_witness : ok (CreateBackup svc a_backup w0) = true ∧
  wp (CreateBackup svc a_backup) (post
    (λ r w', ∃ vm, a_vms (pg_abs w0) !! pg_key (U:=text) (bk_VMID a_backup) = Some vm ∧ bk_Name a_backup ≠ "" ∧
       bk_VMID r = bk_VMID a_backup ∧ bk_Name r = bk_Name a_backup ∧ bk_Status r = BackupStatusCreating ∧
       bk_OrganizationID r = vm_OrganizationID vm ∧ a_backups (pg_abs w0) !! bk_ID r = None ∧
       a_backups (pg_abs w') =
         <[bk_ID r := bk_stored (pg_key (U:=text) (bk_VMID a_backup))
                        (pg_key (U:=text) (vm_OrganizationID vm)) r]> (a_backups (pg_abs w0)) ∧
       a_vms (pg_abs w') = a_vms (pg_abs w0))
    (λ _ w', a_backups (pg_abs w') = a_backups (pg_abs w0) ∧ a_vms (pg_abs w') = a_vms (pg_abs w0))) w0.
Proof. split; [vm_compute; reflexivity|apply (create_backup_correct pg_abs pg_key svc)]. Defined.

Lemma restore_backup_witness : ok (RestoreBackup svc "b1" "vm-off" w0) = true ∧
  wp (RestoreBackup svc "b1" "vm-off") (restore_backup_post pg_abs pg_key "b1" "vm-off" w0) w0.
Proof. split; [vm_compute; reflexivity|apply (restore_backup_correct pg_abs pg_key svc)]. Defined.

(** * Recovery and the life cycle *)
Lemma reconcile_witness : ok (reconcileVMs svc w0) = true ∧
  wp (reconcileVMs svc) (post
    (λ _ w', (∃ m, vms_reconciled (a_vms (pg_abs w0)) m ∧ pg_abs w' = on_vms (λ _, m) (pg_abs w0)) ∧
             a_msgs (pg_abs w') = a_msgs (pg_abs w0))
    (λ _ w', pg_abs w' = pg_abs w0)) w0.
Proof. split; [vm_compute; reflexivity|apply (reconcile_correct pg_abs pg_key svc)]. Defined.

Lemma serve_refines_witness : ok (serve svc (RPowerOff "vm-run" false) w0) = true ∧
  wp (serve svc (RPowerOff "vm-run" false)) (λ _ w',
    lc_step (op_of (pg_key (U:=text)) (RPowerOff "vm-run" false)) (statuses (pg_abs w0)) (statuses (pg_abs w'))) w0.
Proof. split; [vm_compute; reflexivity|apply (serve_refines_lifecycle pg_abs pg_key svc)]. Defined.

Definition a_day : list request :=
  [RCreate (new_vm []); RPowerOn "vm-off"; RReboot "vm-run" false; RPowerOff "vm-off" true; RReconcile].
Lemma statuses_in_use_witness :
  map_Forall (λ _, in_use) (statuses (pg_abs (run_all svc a_day w0))).
Proof.
  apply (statuses_in_use pg_abs pg_key svc).
  unfold in_use. eapply bool_decide_unpack. vm_compute. exact I.
Defined.

Lemma error_is_sticky_witness :
  op_of (pg_key (U:=text)) (RReboot "vm-err" true) = OpPowerOff "vm-err" true ∨
  op_of (pg_key (U:=text)) (RReboot "vm-err" true) = OpReboot "vm-err" true ∨
  op_of (pg_key (U:=text)) (RReboot "vm-err" true) = OpRestore.
Proof.
  apply (error_is_sticky pg_abs pg_key svc (RReboot "vm-err" true) w0 "vm-err" VMStatusRunning);
    [vm_compute; reflexivity|vm_compute; reflexivity|done].
Defined.

(** * The deployment *)
Lemma deployment_witness : ServiceLaws pg_abs pg_key (control_plane (U:=text) "" true).
Proof. apply (deployment_refines_interfaces (U:=text) "" true). Defined.

Lemma batch_load_witness :
  wp (batchLoadRelated (map (λ ur, vm_read ur.1 ur.2) (map_to_list (t_vms db0)))) (post
    (λ vms _, Forall2 (λ ur vm, wp (VMRepo_GetByID (uuid_out ur.1)) (post
                 (λ o _, o = Some vm) (λ _ _, True)) w0) (map_to_list (t_vms db0)) vms)
    (λ _ w', pg_abs w' = pg_abs w0)) w0.
Proof.
  apply (batch_load_agrees (U:=text)); [apply NoDup_fst_map_to_list|].
  by intros u r ?%elem_of_map_to_list.
Defined.

Definition all_vms : VMFilter := mkVMFilter "" "" "" "" "" 1 2.
Lemma list_page_witness : ok (VMRepo_List all_vms w0) = true ∧
  wp (VMRepo_List all_vms) (post
    (λ r w', ∃ rows pg, q_vm_matching all_vms (w_db w0) = Ret rows ∧ pg ⊆+ rows ∧ NoDup pg.*1 ∧
       r.1 = map (λ ur, full_vm ur.1 ur.2) pg ∧ r.2 = Z.of_nat (length rows) ∧
       (∀ u row, (u, row) ∈ pg → t_vms (w_db w0) !! u = Some row) ∧ pg_abs w' = pg_abs w0)
    (λ _ w', pg_abs w' = pg_abs w0)) w0.
Proof. split; [vm_compute; reflexivity|apply (list_page_correct (U:=text))]. Defined.

Definition stored_vm : VirtualMachine :=
  mkVM "vm-x" "x" (Some "n1") org0 None VMStatusCreating 1 512 "" "q35" false false false "" None
    (Some ["a"]) None None
    [mkDisk "d9" "disk-0" 1 "qcow2" "default" "img1" true 0]
    [mkNIC "i9" "eth0" "net1" "52:54:00:00:00:09" ["10.1.0.9/24"] [] true] 0 0.
Lemma create_get_witness : ok ((_ ← VMRepo_Create stored_vm; VMRepo_GetByID (vm_ID stored_vm)) w0) = true ∧
  wp (VMRepo_Create stored_vm) (post
    (λ _ w1, a_vms (pg_abs w0) !! vm_ID stored_vm = None ∧
       wp (VMRepo_GetByID (vm_ID stored_vm)) (post
         (λ o w2, ∃ got, o = Some got ∧ same_machine stored_vm got ∧
            pg_abs w1 = on_vms <[vm_ID stored_vm := vm_untimed got]> (pg_abs w0) ∧ pg_abs w2 = pg_abs w1)
         (λ _ w2, pg_abs w2 = pg_abs w1)) w1)
    (λ _ w1, pg_abs w1 = pg_abs w0 ∧ w_db w1 = w_db w0)) w0.
Proof.
  split; [vm_compute; reflexivity|]. apply (create_get_roundtrip (U:=text)). vm_compute. reflexivity.
Defined.

(** * Two interfaces on one network *)

(** The allocator reserves nothing, so that two allocations in a row return
    the same address; a request for two interfaces on one network therefore
    breaks the unique index on addresses at every one of the three attempts and
    fails, where the same request with one interface succeeds. *)
Theorem two_nics_on_one_network_fail :
  (∀ net (w : World (U:=text)), calm w → IPAM_AllocateIP net (IPAM_AllocateIP net w).2 = IPAM_AllocateIP net w) ∧
  ok (CreateVM svc (new_vm [mkNICReq "net1" true]) w0) = true ∧
  (CreateVM svc (new_vm [mkNICReq "net1" true; mkNICReq "net1" false]) w0).1 =
    Err ("create vm: vm_repo: insert nic: " +:+ dup_error "idx_vm_nics_unique_ip_per_network").
Proof.
  split; [intros net w Hc; by rewrite allocate_calm|]. split; vm_compute; reflexivity.
Qed.
