(* ===== verification/Float64.v ===== *)
(** Go's [float64] as the binary64 format of [SpecFloat], and what keeps a sum
    of machine integers a number: a value that is not negative, or negative and
    small ([safe]), stays so when a value that is not negative is added.  Used
    for the scores of the scheduler, which no label or node can turn into a NaN
    (a NaN would break the order they are sorted by). *)
From Stdlib Require Import SpecFloat.
From stdpp Require Import base numbers.
From S2P Require Import Prelude.
From stdpp Require Import options.
Local Open Scope Z_scope.

Definition float64 : Type := spec_float.

(** [float64(z)] of an integer, and the operators. *)
Definition of_int (z : Z) : float64 := binary_normalize 53 1024 z 0 false.
Definition fadd (x y : float64) : float64 := SFadd 53 1024 x y.
Definition fmul (x y : float64) : float64 := SFmul 53 1024 x y.
Definition fdiv (x y : float64) : float64 := SFdiv 53 1024 x y.

Definition is_num (f : float64) : bool := match f with S754_nan => false | _ => true end.

(** * Order *)

(** The order of numbers is the lexicographic one on this rank. *)
Definition rank (f : float64) : Z * Z * Z :=
  match f with
  | S754_nan => (0, 0, 0)
  | S754_infinity true => (-2, 0, 0)
  | S754_finite true m e => (-1, - e, - Zpos m)
  | S754_zero _ => (0, 0, 0)
  | S754_finite false m e => (1, e, Zpos m)
  | S754_infinity false => (2, 0, 0)
  end.

Definition rank_lt (x y : Z * Z * Z) : Prop :=
  x.1.1 < y.1.1 ∨ (x.1.1 = y.1.1 ∧ (x.1.2 < y.1.2 ∨ (x.1.2 = y.1.2 ∧ x.2 < y.2))).

Lemma SFltb_rank x y : is_num x = true → is_num y = true →
  SFltb x y = true ↔ rank_lt (rank x) (rank y).
Proof.
  unfold SFltb, rank_lt. intros Hx Hy.
  destruct x as [[]|[]| |[] m1 e1], y as [[]|[]| |[] m2 e2]; try done; simpl; try lia.
  - destruct (Z.compare_spec e1 e2); [|lia..]. subst.
    change (Pos.compare_cont Eq m1 m2) with (Pos.compare m1 m2).
    destruct (Pos.compare_spec m1 m2); simpl; lia.
  - destruct (Z.compare_spec e1 e2); [|lia..]. subst.
    change (Pos.compare_cont Eq m1 m2) with (Pos.compare m1 m2).
    destruct (Pos.compare_spec m1 m2); simpl; lia.
Qed.

(** * Rounding keeps a power of two as a bound *)

Lemma iter_pos_ind {A} (f : A → A) (P : Z → A → Prop) :
  (∀ k x, 0 ≤ k → P k x → P (k + 1) (f x)) →
  ∀ n k x, 0 ≤ k → P k x → P (k + Zpos n) (SpecFloat.iter_pos f n x).
Proof.
  intros Hf n. induction n as [n IH|n IH|]; intros k x Hk Hx; simpl.
  - replace (k + Zpos n~1) with (k + 1 + Zpos n + Zpos n) by lia.
    apply IH; [lia|]. apply IH; [lia|]. by apply Hf.
  - replace (k + Zpos n~0) with (k + Zpos n + Zpos n) by lia.
    apply IH; [lia|]. by apply IH.
  - by apply Hf.
Qed.

(** After [k] shifts of [m0] the mantissa is at most [m0 / 2^k], and less when
    a bit was lost. *)
Definition shifted (m0 k : Z) (mrs : shr_record) : Prop :=
  0 ≤ shr_m mrs ∧ shr_m mrs * 2 ^ k ≤ m0 ∧
  (shr_r mrs || shr_s mrs = true → shr_m mrs * 2 ^ k < m0).

Lemma shr_1_shifted m0 k mrs : 0 ≤ k → shifted m0 k mrs → shifted m0 (k + 1) (shr_1 mrs).
Proof.
  intros Hk. destruct mrs as [m r s]. unfold shifted. cbn [shr_m shr_r shr_s].
  rewrite Z.pow_add_r by lia. intros (Hm & Hle & Hlt).
  pose proof (Z.pow_pos_nonneg 2 k). unfold shr_1. destruct m as [|[p|p|]|]; cbn [shr_m shr_r shr_s];
    destruct (r || s); simpl; split_and?; intros; try lia; try (specialize (Hlt eq_refl)); nia.
Qed.

Lemma shr_1_nonneg mrs : 0 ≤ shr_m mrs → 0 ≤ shr_m (shr_1 mrs).
Proof. destruct mrs as [[|[]|] r s]; simpl; lia. Qed.

Lemma shr_nonneg mrs e n : 0 ≤ shr_m mrs → 0 ≤ shr_m (shr mrs e n).1.
Proof.
  intros Hm. unfold shr. destruct n as [|n|]; simpl; [done| |done].
  apply (iter_pos_ind shr_1 (λ _ r, 0 ≤ shr_m r) (λ _ x _, shr_1_nonneg x) n 0 mrs); [lia|done].
Qed.

Lemma shr_exp mrs e n : (shr mrs e n).2 = e + Z.max n 0.
Proof. destruct n; simpl; lia. Qed.

Lemma shr_shifted m e n :
  shifted m (Z.max n 0) (shr (shr_record_of_loc m loc_Exact) e n).1 ∨ m < 0.
Proof.
  destruct (Z.lt_ge_cases m 0); [by right|left].
  assert (H0 : shifted m 0 (shr_record_of_loc m loc_Exact)) by (unfold shifted; simpl; lia).
  unfold shr. destruct n as [|n|]; cbn [fst]; [done| |done].
  apply (iter_pos_ind shr_1 (shifted m) (λ k x, shr_1_shifted m k x) n 0); [lia|done].
Qed.

Lemma round_nonneg m l : 0 ≤ m → 0 ≤ round_nearest_even m l.
Proof. destruct l as [|[]]; simpl; [lia| |lia..]. destruct (Z.even m); lia. Qed.

(** A multiple of [2^k] that bounds the number bounds what it is rounded to. *)
Lemma round_shifted m0 k mrs t : 0 ≤ k → shifted m0 k mrs → m0 ≤ t * 2 ^ k →
  round_nearest_even (shr_m mrs) (loc_of_shr_record mrs) ≤ t.
Proof.
  intros Hk (Hm & Hle & Hlt) Ht. pose proof (Z.pow_pos_nonneg 2 k).
  destruct mrs as [m [] []]; cbn [shr_m shr_r shr_s] in *;
    try (specialize (Hlt eq_refl)); simpl; [nia| |nia|nia].
  destruct (Z.even m); nia.
Qed.

Lemma digits2_pos_lower p : 2 ^ (Zpos (digits2_pos p) - 1) ≤ Zpos p.
Proof.
  induction p as [p IH|p IH|]; simpl; [| |done];
    rewrite Pos2Z.inj_succ, <-Z.add_1_r, Z.add_simpl_r;
    replace (Zpos (digits2_pos p)) with (Zpos (digits2_pos p) - 1 + 1) by lia;
    rewrite Z.pow_add_r by lia; lia.
Qed.

Section bounded.
Context (B : Z) (HB : 0 ≤ B ≤ 900).

(** [m * 2^e] is at most [2^B]. *)
Definition fits (m e : Z) : Prop := 0 ≤ m ∧ e ≤ B ∧ m ≤ 2 ^ (B - e).

Lemma fits_fexp m e : fits m e → fexp 53 1024 (Zdigits2 m + e) ≤ B.
Proof using Type*.
  intros (H0 & He & Hm). unfold fexp, emin. destruct m as [|p|p]; simpl; [lia| |lia].
  pose proof (digits2_pos_lower p) as Hd.
  assert (Zpos (digits2_pos p) - 1 ≤ B - e); [|lia].
  apply (Z.pow_le_mono_r_iff 2); lia.
Qed.

Lemma shr_fexp_fits m e : fits m e →
  let '(mrs, e') := shr_fexp 53 1024 m e loc_Exact in
  fits (round_nearest_even (shr_m mrs) (loc_of_shr_record mrs)) e' ∧ fits (shr_m mrs) e'.
Proof using Type*.
  intros Hf. pose proof (fits_fexp m e Hf) as He'. destruct Hf as (H0 & He & Hm).
  unfold shr_fexp. set (n := fexp _ _ _ - e).
  destruct (shr_shifted m e n) as [Hs|?]; [|lia]. pose proof (shr_exp (shr_record_of_loc m loc_Exact) e n) as Hexp.
  destruct (shr _ e n) as [mrs e'] eqn:E. cbn [fst snd] in *. subst e'.
  assert (Hpow : 2 ^ (B - e) = 2 ^ (B - (e + Z.max n 0)) * 2 ^ Z.max n 0)
    by (rewrite <-Z.pow_add_r by lia; f_equal; lia).
  pose proof Hs as (Hnn & Hle & _). split; split_and!; [by apply round_nonneg|lia| |done|lia|].
  - apply (round_shifted m (Z.max n 0)); [lia|done|]. by rewrite <-Hpow.
  - pose proof (Z.pow_pos_nonneg 2 (Z.max n 0)). nia.
Qed.

(** * Values that stay numbers *)

(** Not negative (a zero counts), possibly infinite. *)
Definition nonneg (f : float64) : Prop :=
  match f with S754_zero _ | S754_finite false _ _ | S754_infinity false => True | _ => False end.

(** Not negative, or negative and at least [-2^B]. *)
Definition safe (f : float64) : Prop :=
  match f with S754_finite true m e => fits (Zpos m) e | _ => nonneg f end.

Lemma nonneg_safe f : nonneg f → safe f.
Proof using Type. by destruct f as [|[]| |[]]. Qed.

Lemma safe_num f : safe f → is_num f = true.
Proof using Type. by destruct f. Qed.

Lemma round_aux_pos m e l : 0 ≤ m → nonneg (binary_round_aux 53 1024 false m e l).
Proof using Type.
  intros Hm. unfold binary_round_aux, shr_fexp.
  pose proof (shr_nonneg (shr_record_of_loc m l) e (fexp 53 1024 (Zdigits2 m + e) - e)) as Hs.
  destruct (shr _ e _) as [mrs e1]. cbn [fst] in Hs.
  set (m1 := round_nearest_even _ _).
  assert (0 ≤ m1) by (apply round_nonneg, Hs; by destruct l as [|[]]).
  pose proof (shr_nonneg (shr_record_of_loc m1 loc_Exact) e1 (fexp 53 1024 (Zdigits2 m1 + e1) - e1)) as Hs'.
  destruct (shr _ e1 _) as [mrs' e2]. cbn [fst] in Hs'.
  destruct (shr_m mrs') as [|p|p]; [done| |by apply Hs' in H].
  by destruct (Z.leb _ _).
Qed.

Lemma round_aux_neg m e : fits m e → safe (binary_round_aux 53 1024 true m e loc_Exact).
Proof using Type*.
  intros Hf. unfold binary_round_aux. apply shr_fexp_fits in Hf.
  destruct (shr_fexp _ _ m e _) as [mrs e1]. destruct Hf as [Hf _]. apply shr_fexp_fits in Hf.
  destruct (shr_fexp _ _ _ e1 _) as [mrs' e2]. destruct Hf as [_ Hf]. pose proof Hf as (H0 & He & _).
  destruct (shr_m mrs') as [|p|p]; [done| |lia].
  by rewrite (proj2 (Z.leb_le _ _)) by lia.
Qed.

Lemma shl_align_spec m e e' :
  Zpos (shl_align m e e').1 = Zpos m * 2 ^ (e - (shl_align m e e').2) ∧ (shl_align m e e').2 = Z.min e e'.
Proof using Type.
  unfold shl_align. destruct (e' - e) as [|d|d] eqn:E; cbn [fst snd];
    [rewrite Z.sub_diag, Z.mul_1_r; lia|rewrite Z.sub_diag, Z.mul_1_r; lia|].
  split; [|lia]. replace (e - e') with (Zpos d) by lia. clear E.
  induction d as [|d IH] using Pos.peano_ind; [simpl; lia|].
  rewrite Pos.iter_succ, Pos2Z.inj_succ, Z.pow_succ_r by lia. lia.
Qed.

Lemma shl_align_fits m e e' : fits (Zpos m) e → fits (Zpos (shl_align m e e').1) (Z.min e e').
Proof using Type*.
  intros (H0 & He & Hm). pose proof (shl_align_spec m e e') as [Hv He']. rewrite <-He'.
  split_and!; [lia|lia|]. rewrite Hv, He'.
  replace (B - Z.min e e') with (B - e + (e - Z.min e e')) by lia.
  rewrite Z.pow_add_r by lia. apply Z.mul_le_mono_nonneg_r; lia.
Qed.

Lemma normalize_nonneg z e : 0 ≤ z → nonneg (binary_normalize 53 1024 z e false).
Proof using Type.
  intros Hz. destruct z as [|p|p]; [done| |lia]. simpl. unfold binary_round.
  destruct (shl_align p e _) as [mz ez]. by apply round_aux_pos.
Qed.

Lemma normalize_safe z e : (z < 0 → fits (- z) e) → safe (binary_normalize 53 1024 z e false).
Proof using Type*.
  intros Hz. destruct (Z.lt_ge_cases z 0) as [Hneg|]; [|by apply nonneg_safe, normalize_nonneg].
  apply Hz in Hneg as Hf. destruct z as [|p|p]; [lia..|]. simpl in *. unfold binary_round.
  pose proof (shl_align_fits p e (fexp 53 1024 (Zpos (digits2_pos p) + e)) Hf) as Hs.
  pose proof (shl_align_spec p e (fexp 53 1024 (Zpos (digits2_pos p) + e))) as [_ He].
  destruct (shl_align p e _) as [mz ez]. cbn [fst snd] in *. subst ez. by apply round_aux_neg.
Qed.

Lemma of_int_nonneg z : 0 ≤ z → nonneg (of_int z).
Proof using Type. apply normalize_nonneg. Qed.

(** Of two summands of different sign the sum is at most the negative one. *)
Lemma add_mixed_safe m1 e1 m2 e2 : fits (Zpos m1) e1 →
  safe (binary_normalize 53 1024
    (- Zpos (shl_align m1 e1 (Z.min e1 e2)).1 + Zpos (shl_align m2 e2 (Z.min e1 e2)).1) (Z.min e1 e2) false).
Proof using Type*.
  intros Hf. apply normalize_safe. intros Hneg.
  destruct (shl_align_fits m1 e1 (Z.min e1 e2) Hf) as (? & ? & Hle).
  replace (Z.min e1 (Z.min e1 e2)) with (Z.min e1 e2) in Hle by lia. split_and!; [lia|lia|].
  etrans; [|exact Hle]. lia.
Qed.

Lemma fadd_safe_l x y : safe x → nonneg y → safe (fadd x y).
Proof using Type*.
  intros Hx Hy. unfold fadd.
  destruct x as [[]|[]| |[] m1 e1], y as [[]|[]| |[] m2 e2]; try done; cbn [SFadd cond_Zopp].
  - by apply add_mixed_safe.
  - by apply nonneg_safe, normalize_nonneg.
Qed.

Lemma fadd_safe_r x y : nonneg x → safe y → safe (fadd x y).
Proof using Type*.
  intros Hx Hy. unfold fadd.
  destruct x as [[]|[]| |[] m1 e1], y as [[]|[]| |[] m2 e2]; try done; cbn [SFadd cond_Zopp].
  - rewrite Z.min_comm, Z.add_comm. by apply add_mixed_safe.
  - by apply nonneg_safe, normalize_nonneg.
Qed.

Lemma fadd_nonneg x y : nonneg x → nonneg y → nonneg (fadd x y).
Proof using Type.
  intros Hx Hy. unfold fadd.
  destruct x as [[]|[]| |[] m1 e1], y as [[]|[]| |[] m2 e2]; try done; cbn [SFadd cond_Zopp].
  by apply normalize_nonneg.
Qed.

End bounded.

Lemma fmul_nonneg x m e : nonneg x → nonneg (fmul x (S754_finite false m e)).
Proof. destruct x as [|[]| |[]]; try done. intros _. simpl. by apply round_aux_pos. Qed.

Lemma fdiv_nonneg x m e : nonneg x → nonneg (fdiv x (S754_finite false m e)).
Proof.
  destruct x as [|[]| |[] m1 e1]; try done. intros _. unfold fdiv. simpl.
  unfold SFdiv_core_binary. set (m' := match _ with Z0 => _ | Zpos _ => _ | Zneg _ => _ end).
  assert (0 ≤ m').
  { unfold m'. destruct (_ - _); [lia|apply Z.shiftl_nonneg; lia|lia]. }
  pose proof (Z.div_pos m' (Zpos m)) as Hq. unfold Z.div in Hq.
  destruct (Z.div_eucl m' (Zpos m)) as [q r]. apply round_aux_pos, Hq; lia.
Qed.

(** [float64(z) * 5] for a 32-bit integer. *)
Lemma fmul_int32_safe z : in_int32 z → safe 34 (fmul (of_int z) (of_int 5)).
Proof.
  unfold in_int32. intros Hz. change (of_int 5) with (S754_finite false 5629499534213120 (-50)).
  assert (Hs : safe 31 (of_int z)).
  { apply normalize_safe; [lia|]. intros Hneg. split_and!; [lia|lia|]. simpl. lia. }
  destruct (of_int z) as [|[]| |[] m e]; try done; simpl; [|by apply nonneg_safe, round_aux_pos].
  destruct Hs as (_ & He & Hm). apply round_aux_neg; [lia|]. split_and!; [lia|lia|].
  replace (34 - (e + -50)) with ((31 - e) + 53) by lia. rewrite Z.pow_add_r by lia.
  rewrite Pos2Z.inj_mul. nia.
Qed.

(** * Numbers from numbers

    Rounding a mantissa that is not negative never gives NaN, whatever the sign;
    so a quotient by a finite number that is not zero, a product with a finite
    one and a difference from a finite one are numbers when their other operand
    is. *)
Lemma round_aux_num s m e l : 0 ≤ m → is_num (binary_round_aux 53 1024 s m e l) = true.
Proof.
  intros Hm. pose proof (round_aux_pos m e l Hm) as Hp. unfold binary_round_aux in *.
  destruct (shr_fexp 53 1024 m e l) as [mrs e1]. destruct (shr_fexp _ _ _ e1 _) as [mrs' e2].
  destruct (shr_m mrs'); [done| |done]. by destruct (Z.leb _ _).
Qed.

Lemma fdiv_num x s m e : is_num x = true → is_num (fdiv x (S754_finite s m e)) = true.
Proof.
  destruct x as [| | |sx m1 e1]; try done. intros _. unfold fdiv. simpl.
  unfold SFdiv_core_binary. set (m' := match _ with Z0 => _ | Zpos _ => _ | Zneg _ => _ end).
  assert (0 ≤ m').
  { unfold m'. destruct (_ - _); [lia|apply Z.shiftl_nonneg; lia|lia]. }
  pose proof (Z.div_pos m' (Zpos m)) as Hq. unfold Z.div in Hq.
  destruct (Z.div_eucl m' (Zpos m)) as [q r]. apply round_aux_num, Hq; lia.
Qed.

Lemma fmul_num s m e x : is_num x = true → is_num (fmul (S754_finite s m e) x) = true.
Proof. destruct x as [| | |]; try done. intros _. simpl. by apply round_aux_num. Qed.

Lemma normalize_num z e s : is_num (binary_normalize 53 1024 z e s) = true.
Proof.
  destruct z as [|p|p]; [done|..]; simpl; unfold binary_round;
    destruct (shl_align p e _) as [mz ez]; by apply round_aux_num.
Qed.

Lemma fsub_num s m e x : is_num x = true → is_num (SFsub 53 1024 (S754_finite s m e) x) = true.
Proof. destruct x as [| | |]; try done. intros _. simpl. by apply normalize_num. Qed.

(** ** Integers are finite, and only zero is zero *)

(** After [k] shifts of [m0] what is left of it, and one more, is above it. *)
Lemma shr_1_above m0 k mrs : 0 ≤ k → 0 ≤ shr_m mrs ∧ m0 < (shr_m mrs + 1) * 2 ^ k →
  0 ≤ shr_m (shr_1 mrs) ∧ m0 < (shr_m (shr_1 mrs) + 1) * 2 ^ (k + 1).
Proof.
  intros Hk [H0 H1]. split; [by apply shr_1_nonneg|]. rewrite Z.pow_add_r by lia.
  pose proof (Z.pow_pos_nonneg 2 k). destruct mrs as [[|[p|p|]|] r s]; simpl in *; nia.
Qed.

Lemma digits2_pos_max m n : 0 < m → n ≤ Zdigits2 m - 1 → 2 ^ Z.max n 0 ≤ m.
Proof.
  intros Hm Hn. destruct m as [|p|p]; [lia| |lia]. simpl in Hn.
  pose proof (digits2_pos_lower p). etrans; [|done]. apply Z.pow_le_mono_r; lia.
Qed.

(** A mantissa that reaches the smallest exponent does not vanish. *)
Lemma shr_fexp_pos m e : 0 < m → -1073 ≤ Zdigits2 m + e →
  let '(mrs, e') := shr_fexp 53 1024 m e loc_Exact in 0 < shr_m mrs ∧ -1074 ≤ e'.
Proof.
  intros Hm He. unfold shr_fexp. set (n := fexp _ _ _ - e).
  assert (Hn : n ≤ Zdigits2 m - 1 ∧ -1074 ≤ e + Z.max n 0) by (unfold n, fexp, emin; lia).
  pose proof (digits2_pos_max m n Hm (proj1 Hn)) as Hp.
  pose proof (shr_exp (shr_record_of_loc m loc_Exact) e n) as Hexp.
  assert (Hs : m < (shr_m (shr (shr_record_of_loc m loc_Exact) e n).1 + 1) * 2 ^ Z.max n 0).
  { unfold shr. destruct n as [|n'|n']; cbn [fst shr_record_of_loc shr_m]; [rewrite Z.mul_1_r; lia| |rewrite Z.mul_1_r; lia].
    eapply (iter_pos_ind shr_1 (λ k r, 0 ≤ shr_m r ∧ m < (shr_m r + 1) * 2 ^ k)
              (λ k x, shr_1_above m k x) n' 0); [lia|simpl; lia]. }
  destruct (shr _ e n) as [mrs e']. cbn [fst snd] in *. split; [nia|lia].
Qed.

Lemma round_above m l : m ≤ round_nearest_even m l.
Proof. destruct l as [|[]]; simpl; [lia| |lia..]. destruct (Z.even m); lia. Qed.

Lemma Zdigits2_pos m : 0 < m → 1 ≤ Zdigits2 m.
Proof. destruct m; simpl; lia. Qed.

Lemma round_aux_finite B s m e : 0 ≤ B ≤ 900 → 0 < m → fits B m e → -1073 ≤ Zdigits2 m + e →
  ∃ m' e', binary_round_aux 53 1024 s m e loc_Exact = S754_finite s m' e'.
Proof.
  intros HB Hm Hf He. unfold binary_round_aux.
  pose proof (shr_fexp_fits B HB m e Hf) as Hf1. pose proof (shr_fexp_pos m e Hm He) as Hp1.
  destruct (shr_fexp _ _ m e _) as [mrs e1]. destruct Hf1 as [Hf1 _].
  set (m1 := round_nearest_even _ _) in *.
  assert (Hm1 : 0 < m1) by (pose proof (round_above (shr_m mrs) (loc_of_shr_record mrs)); unfold m1; lia).
  pose proof (shr_fexp_fits B HB m1 e1 Hf1) as Hf2. pose proof (Zdigits2_pos m1 Hm1).
  pose proof (shr_fexp_pos m1 e1 Hm1 ltac:(lia)) as Hp2.
  destruct (shr_fexp _ _ m1 e1 _) as [mrs' e2]. destruct Hf2 as [_ (_ & He2 & _)].
  destruct (shr_m mrs') as [|p|p]; [lia| |lia].
  rewrite (proj2 (Z.leb_le _ _)) by lia. eauto.
Qed.

Lemma shl_align_digits m e e' :
  Zdigits2 (Zpos (shl_align m e e').1) + (shl_align m e e').2 = Zdigits2 (Zpos m) + e.
Proof.
  unfold shl_align. destruct (e' - e) as [|d|d] eqn:E; cbn [fst snd]; [done|done|].
  assert (Hd : Zdigits2 (Zpos (Pos.iter xO m d)) = Zdigits2 (Zpos m) + Zpos d); [|lia].
  clear E. induction d as [|d IH] using Pos.peano_ind; [cbn -[Z.add]; lia|].
  rewrite Pos.iter_succ. cbn -[Z.add] in *. lia.
Qed.

(** [float64(z)] of a 64-bit integer is finite, and a zero only for 0. *)
Lemma of_int_finite z : z ≠ 0 → in_int64 z → ∃ s m e, of_int z = S754_finite s m e.
Proof.
  unfold in_int64. intros Hz Hr.
  assert (∀ s p, Zpos p ≤ 2 ^ 63 → ∃ m e, binary_round 53 1024 s p 0 = S754_finite s m e) as Hb.
  { intros s p Hp. unfold binary_round. set (t := fexp _ _ _).
    pose proof (shl_align_fits 63 ltac:(lia) p 0 t) as Hf.
    pose proof (shl_align_digits p 0 t) as Hd. pose proof (Zdigits2_pos (Zpos p) ltac:(lia)).
    pose proof (shl_align_spec p 0 t) as [_ He].
    destruct (shl_align p 0 t) as [mz ez]. cbn [fst snd] in *. subst ez.
    apply (round_aux_finite 63); [lia|lia| |lia]. apply Hf. split_and!; [lia|lia|]. by rewrite Z.sub_0_r. }
  destruct z as [|p|p]; [done|..]; simpl; [destruct (Hb false p) as (?&?&->)|destruct (Hb true p) as (?&?&->)];
    eauto; lia.
Qed.
