(* ===== verification/Scheduler.v ===== *)
(** The scheduler ([services/scheduler/service.go] with its in-memory
    repository [services/scheduler/postgres/scheduler_repository.go] and the
    HTTP handlers of [services/scheduler/handler/handler.go]): filtering nodes
    by constraints, scoring them in double precision, recording the placement,
    listing placements by page.

    [sort.Slice] is not stable and Go visits a map in any order: the sort is an
    interface with the law its documentation gives, and a listing takes the
    order in which the map was visited.

    Theorems: what node a request is placed on and when it is refused; what a
    page of placements holds and that the pages of one visit partition it; that
    a page number can make the listing panic; and that two overlapping
    requests for one machine can both be placed. *)
From Stdlib Require Import SpecFloat.
From stdpp Require Import base gmap strings list sorting numbers.
From S2P Require Import Prelude.
From S2P Require Import GoStd.
From S2P Require Import Float64.
From stdpp Require Import options.

(** * Data *)
Record NodeInfo := mkNodeInfo {
  ni_ID : string;
  ni_Labels : gmap string string;
  ni_AvailableCPUs : Z;
  ni_AvailableMemory : Z;
  ni_AvailableGPUs : Z;
  ni_RunningVMs : Z;
}.

Record SchedulingConstraints := mkConstraints {
  sc_PreferredNode : string;
  sc_RequiredLabels : list string;
  sc_PreferredLabels : list string;
  sc_AvoidLabels : list string;
  sc_RequireGPU : bool;
  sc_AvailabilityZone : string;
}.

Record ScheduledJob := mkJob {
  job_VMID : string;
  job_NodeID : string;
  job_Priority : Z;
  job_Constraints : option SchedulingConstraints;
}.

Abbreviation Jobs := (gmap string ScheduledJob).

(** * [sort.Slice] *)
Class SortSlice := sort_slice : ∀ {A : Type}, (A → A → bool) → list A → list A.

(** A strict weak order on the elements of a list. *)
Record weak_order {A} (less : A → A → bool) (l : list A) : Prop := {
  wo_asym : ∀ x y, x ∈ l → y ∈ l → less x y = true → less y x = false;
  wo_neg_trans : ∀ x y z, x ∈ l → y ∈ l → z ∈ l →
    less x y = false → less y z = false → less x z = false;
}.

(** What its documentation promises for such an order: the elements are
    rearranged so that none is less than an earlier one. *)
Class SortLaws `{SortSlice} : Prop := {
  sort_perm : ∀ A (less : A → A → bool) l, sort_slice less l ≡ₚ l;
  sort_sorted : ∀ A (less : A → A → bool) l, weak_order less l →
    StronglySorted (λ x y, less y x = false) (sort_slice less l);
}.

(** * Constraints and scores *)

(** [strings.SplitN(label, "=", 2)]: the key, and the value or [""]. *)
Definition equals : Ascii.ascii := Ascii.ascii_of_N 61.
Definition label_parts (label : string) : string * string :=
  match Strings.CutByte label equals with Some kv => kv | None => (label, "") end.

(** [nv, ok := n.Labels[key]; ok && (val == "" || nv == val)] *)
Definition has_label (n : NodeInfo) (label : string) : bool :=
  let '(key, val) := label_parts label in
  match ni_Labels n !! key with
  | Some nv => String.eqb val "" || String.eqb nv val
  | None => false
  end.

(** Line 121 tests the negation. *)
Definition lacks_label (n : NodeInfo) (label : string) : bool :=
  let '(key, val) := label_parts label in
  match ni_Labels n !! key with
  | None => true
  | Some nv => negb (String.eqb val "") && negb (String.eqb nv val)
  end.

Definition nodeMatchesConstraints (n : NodeInfo) (c : SchedulingConstraints) : bool :=
  if existsb (lacks_label n) (sc_RequiredLabels c) then false
  else if existsb (has_label n) (sc_AvoidLabels c) then false
  else if sc_RequireGPU c && (ni_AvailableGPUs n <=? 0)%Z then false
  else true.

Definition filterNodes (nodes : list NodeInfo) (constraints : option SchedulingConstraints)
    : list NodeInfo :=
  match constraints with
  | None => nodes
  | Some c =>
      if negb (String.eqb (sc_PreferredNode c) "") then
        match List.find (λ n, String.eqb (ni_ID n) (sc_PreferredNode c)) nodes with
        | Some n => [n]
        | None => []
        end
      else List.filter (λ n, nodeMatchesConstraints n c) nodes
  end.

Definition add_preferred (n : NodeInfo) (score : float64) (label : string) : float64 :=
  if has_label n label then fadd score (of_int 25) else score.

Definition calculateScore (n : NodeInfo) (constraints : option SchedulingConstraints) : float64 :=
  let score := S754_zero false in
  let score := if (0 <? ni_AvailableCPUs n)%Z
               then fadd score (fmul (of_int (ni_AvailableCPUs n)) (of_int 10)) else score in
  let score := if (0 <? ni_AvailableMemory n)%Z
               then fadd score (fdiv (of_int (ni_AvailableMemory n)) (of_int (1024 * 1024))) else score in
  let score := if (0 <=? ni_RunningVMs n)%Z
               then fadd score (fmul (of_int (int32 (100 - ni_RunningVMs n))) (of_int 5)) else score in
  let score := if (0 <? ni_AvailableGPUs n)%Z
               then fadd score (fmul (of_int (ni_AvailableGPUs n)) (of_int 50)) else score in
  match constraints with
  | Some c => foldl (add_preferred n) score (sc_PreferredLabels c)
  | None => score
  end.

Record scoredNode := mkScored { sn_node : NodeInfo; sn_score : float64 }.

Definition scoreNodes (nodes : list NodeInfo) (constraints : option SchedulingConstraints)
    : list scoredNode :=
  map (λ n, mkScored n (calculateScore n constraints)) nodes.

(** [scored[i].score > scored[j].score] *)
Definition score_before (x y : scoredNode) : bool := SFltb (sn_score y) (sn_score x).

(** * The repository *)
Definition repo_Schedule (job : ScheduledJob) : M Jobs () :=
  modify <[job_VMID job := job]>.

Definition repo_GetByVMID (vmID : string) : M Jobs ScheduledJob := λ jobs,
  match jobs !! vmID with
  | Some job => (Ret job, jobs)
  | None => (Err ("scheduled job not found for vm " +:+ vmID), jobs)
  end.

Definition repo_Delete (vmID : string) : M Jobs () := λ jobs,
  match jobs !! vmID with
  | Some _ => (Ret (), delete vmID jobs)
  | None => (Err ("scheduled job not found for vm " +:+ vmID), jobs)
  end.

(** [filtered[start:end]]: out of range it panics. *)
Definition slice {A} (l : list A) (start stop : Z) : outcome (list A) :=
  if (0 <=? start)%Z && (start <=? stop)%Z && (stop <=? Z.of_nat (length l))%Z
  then Ret (take (Z.to_nat (stop - start)) (drop (Z.to_nat start) l))
  else Panic.

Section service.
Context `{SortSlice}.

(** [visit] is the order in which [range r.jobs] visited the map. *)
Definition filtered_jobs (visit : list ScheduledJob) (nodeID : string) : list ScheduledJob :=
  sort_slice (λ x y, (job_Priority y <? job_Priority x)%Z)
    (List.filter (λ job, String.eqb nodeID "" || String.eqb (job_NodeID job) nodeID) visit).

Definition repo_List (visit : list ScheduledJob) (nodeID : string) (page perPage : Z)
    : outcome (list ScheduledJob * Z) :=
  let filtered := filtered_jobs visit nodeID in
  let total := Z.of_nat (length filtered) in
  let start := int64 (int64 (page - 1) * perPage) in
  if (total <=? start)%Z then Ret ([], total)
  else
    let stop := int64 (start + perPage) in
    let stop := if (total <? stop)%Z then total else stop in
    jobs ← slice filtered start stop;
    Ret (jobs, total).

(** * The service *)

(** [registry] is nil, or what [GetAvailableNodes] answers. *)
Definition Schedule (registry : option (outcome (list NodeInfo))) (vmID : string)
    (constraints : option SchedulingConstraints) (priority : Z) : M Jobs string :=
  existing ← attempt (repo_GetByVMID vmID);
  match existing with
  | inl existing => fail ("vm " +:+ vmID +:+ " already scheduled on node " +:+ job_NodeID existing)
  | inr _ =>
      match registry with
      | None => fail "node registry not configured"
      | Some answer =>
          nodes ← wrap "failed to query available nodes" (λ jobs, (answer, jobs));
          let candidates := filterNodes nodes constraints in
          if Nat.eqb (length candidates) 0 then fail "no nodes match the scheduling constraints"
          else
            match sort_slice score_before (scoreNodes candidates constraints) with
            | [] => panic
            | best :: _ =>
                _ ← wrap "failed to record scheduled job"
                      (repo_Schedule (mkJob vmID (ni_ID (sn_node best)) priority constraints));
                mret (ni_ID (sn_node best))
            end
      end
  end.

Definition CancelSchedule (vmID : string) : M Jobs () := repo_Delete vmID.

(** * The handlers: a status code, and the value or the error of the body *)
Record scheduleRequest := mkScheduleRequest {
  sr_VMID : string;
  sr_Constraints : option SchedulingConstraints;
  sr_Priority : Z;
}.

(** [body] is [None] when it does not decode. *)
Definition handleSchedule (registry : option (outcome (list NodeInfo))) (body : option scheduleRequest)
    : M Jobs (Z * (string + string)) :=
  match body with
  | None => mret (400%Z, inr "invalid request body")
  | Some req =>
      if String.eqb (sr_VMID req) "" then mret (400%Z, inr "vm_id is required")
      else
        let constraints := match sr_Constraints req with
                           | Some c => Some c
                           | None => Some (mkConstraints "" [] [] [] false "")
                           end in
        r ← attempt (Schedule registry (sr_VMID req) constraints (sr_Priority req));
        match r with
        | inl nodeID => mret (200%Z, inl nodeID)
        | inr e => mret (500%Z, inr e)
        end
  end.

Definition handleCancel (body : option string) : M Jobs (Z * option string) :=
  match body with
  | None => mret (400%Z, Some "invalid request body")
  | Some vmID =>
      if String.eqb vmID "" then mret (400%Z, Some "vm_id is required")
      else
        r ← attempt (CancelSchedule vmID);
        match r with
        | inl _ => mret (204%Z, None)
        | inr e => mret (500%Z, Some e)
        end
  end.

(** [page] and [perPage] are what [strconv.Atoi] returned. *)
Definition handleListJobs (visit : list ScheduledJob) (nodeID : string) (page perPage : Z)
    : outcome (list ScheduledJob * Z * Z) :=
  let page := if (page <? 1)%Z then 1%Z else page in
  let perPage := if (perPage <? 1)%Z || (100 <? perPage)%Z then 20%Z else perPage in
  r ← repo_List visit nodeID page perPage;
  Ret (r.1, r.2, page).

End service.

(** * Scores are numbers, and ordered *)

Lemma add_preferred_safe n score label : safe 34 score → safe 34 (add_preferred n score label).
Proof.
  intros Hs. unfold add_preferred. destruct (has_label n label); [|done].
  apply fadd_safe_l; [lia|done|]. by apply of_int_nonneg.
Qed.

(** No node and no constraint gives a NaN: the terms are not negative, but for
    the one of the running machines, which is small. *)
Lemma calculateScore_num n constraints : is_num (calculateScore n constraints) = true.
Proof.
  apply (safe_num 34). unfold calculateScore.
  set (s1 := if (0 <? ni_AvailableCPUs n)%Z then _ else _).
  set (s2 := if (0 <? ni_AvailableMemory n)%Z then _ else s1).
  set (s3 := if (0 <=? ni_RunningVMs n)%Z then _ else s2).
  set (s4 := if (0 <? ni_AvailableGPUs n)%Z then _ else s3).
  assert (H1 : nonneg s1).
  { unfold s1. destruct (Z.ltb_spec 0 (ni_AvailableCPUs n)); [|done].
    apply fadd_nonneg; [done|]. apply fmul_nonneg, of_int_nonneg. lia. }
  assert (H2 : nonneg s2).
  { unfold s2. destruct (Z.ltb_spec 0 (ni_AvailableMemory n)); [|done].
    apply fadd_nonneg; [done|]. apply fdiv_nonneg, of_int_nonneg. lia. }
  assert (H3 : safe 34 s3).
  { unfold s3. destruct (0 <=? ni_RunningVMs n)%Z; [|by apply nonneg_safe].
    apply fadd_safe_r; [lia|done|]. apply fmul_int32_safe, int32_range. }
  assert (H4 : safe 34 s4).
  { unfold s4. destruct (Z.ltb_spec 0 (ni_AvailableGPUs n)); [|done].
    apply fadd_safe_l; [lia|done|]. apply fmul_nonneg, of_int_nonneg. lia. }
  destruct constraints as [c|]; [|done]. generalize s4 H4. clear.
  induction (sc_PreferredLabels c) as [|l ls IH]; intros s Hs; simpl; [done|].
  by apply IH, add_preferred_safe.
Qed.

Lemma score_weak_order nodes constraints : weak_order score_before (scoreNodes nodes constraints).
Proof.
  set (l := scoreNodes nodes constraints).
  assert (Hl : ∀ s, s ∈ l → is_num (sn_score s) = true).
  { intros s (n & -> & _)%list_elem_of_fmap. apply calculateScore_num. }
  assert (Hlt : ∀ x y, x ∈ l → y ∈ l →
    score_before x y = false ↔ ¬ rank_lt (rank (sn_score y)) (rank (sn_score x))).
  { intros x y Hx Hy. unfold score_before.
    pose proof (SFltb_rank (sn_score y) (sn_score x) (Hl y Hy) (Hl x Hx)) as Hr.
    by rewrite <-Hr, not_true_iff_false. }
  split.
  - intros x y Hx Hy Hxy. apply Hlt; [done|done|]. apply not_false_iff_true in Hxy.
    rewrite Hlt in Hxy by done. intros ?. apply Hxy. unfold rank_lt in *. lia.
  - intros x y z Hx Hy Hz Hxy Hyz. apply Hlt; [done|done|]. apply Hlt in Hxy; [|done|done].
    apply Hlt in Hyz; [|done|done]. unfold rank_lt in *. lia.
Qed.

(** * Constraints, declaratively *)

(** The label text ["key=value"], or ["key"] for any value, holds of a node. *)
Definition label_holds (n : NodeInfo) (label : string) : Prop :=
  ∃ v, ni_Labels n !! (label_parts label).1 = Some v ∧
       ((label_parts label).2 = "" ∨ v = (label_parts label).2).

Lemma has_label_spec n label : has_label n label = true ↔ label_holds n label.
Proof.
  unfold has_label, label_holds. destruct (label_parts label) as [key val]. simpl.
  destruct (ni_Labels n !! key) as [nv|]; [|naive_solver].
  rewrite orb_true_iff, !String.eqb_eq. naive_solver.
Qed.

Lemma lacks_label_spec n label : lacks_label n label = negb (has_label n label).
Proof.
  unfold has_label, lacks_label. destruct (label_parts label) as [key val].
  destruct (ni_Labels n !! key) as [nv|]; [|done]. by rewrite negb_orb.
Qed.

(** What a node must satisfy to be a candidate. *)
Definition eligible (constraints : option SchedulingConstraints) (n : NodeInfo) : Prop :=
  match constraints with
  | None => True
  | Some c =>
      (sc_PreferredNode c ≠ "" → ni_ID n = sc_PreferredNode c) ∧
      (sc_PreferredNode c = "" →
        Forall (label_holds n) (sc_RequiredLabels c) ∧
        Forall (λ l, ¬ label_holds n l) (sc_AvoidLabels c) ∧
        (sc_RequireGPU c = true → 0 < ni_AvailableGPUs n)%Z)
  end.

Lemma matches_spec n c : nodeMatchesConstraints n c = true ↔
  Forall (label_holds n) (sc_RequiredLabels c) ∧ Forall (λ l, ¬ label_holds n l) (sc_AvoidLabels c) ∧
  (sc_RequireGPU c = true → 0 < ni_AvailableGPUs n)%Z.
Proof.
  unfold nodeMatchesConstraints. rewrite !list.Forall_forall.
  assert (Hreq : existsb (lacks_label n) (sc_RequiredLabels c) = false ↔
    ∀ x, x ∈ sc_RequiredLabels c → label_holds n x).
  { rewrite <-not_true_iff_false, existsb_exists. split.
    - intros Hno x Hx. apply has_label_spec. destruct (has_label n x) eqn:E; [done|].
      destruct Hno. exists x. rewrite lacks_label_spec, E. by rewrite <-list_elem_of_In.
    - intros Hall (x & Hx%list_elem_of_In & Hl). rewrite lacks_label_spec in Hl.
      by rewrite (proj2 (has_label_spec n x) (Hall x Hx)) in Hl. }
  assert (Hav : existsb (has_label n) (sc_AvoidLabels c) = false ↔
    ∀ x, x ∈ sc_AvoidLabels c → ¬ label_holds n x).
  { rewrite <-not_true_iff_false, existsb_exists. split.
    - intros Hno x Hx Hl%has_label_spec. destruct Hno. exists x. by rewrite <-list_elem_of_In.
    - intros Hall (x & Hx%list_elem_of_In & Hl%has_label_spec). by eapply Hall. }
  rewrite <-Hreq, <-Hav.
  destruct (existsb (lacks_label n) _); [naive_solver|]. destruct (existsb (has_label n) _); [naive_solver|].
  destruct (sc_RequireGPU c); simpl; [|naive_solver].
  destruct (Z.leb_spec (ni_AvailableGPUs n) 0); [|naive_solver]. split; [done|]. intros (_ & _ & Hg).
  specialize (Hg eq_refl). lia.
Qed.

Lemma filterNodes_spec nodes constraints :
  (∀ n, n ∈ filterNodes nodes constraints → n ∈ nodes ∧ eligible constraints n) ∧
  (filterNodes nodes constraints = [] → ∀ n, n ∈ nodes → ¬ eligible constraints n).
Proof.
  destruct constraints as [c|]; simpl.
  2:{ split; [done|]. intros -> n Hn. by apply elem_of_nil in Hn. }
  destruct (String.eqb_spec (sc_PreferredNode c) "") as [Hp|Hp]; simpl.
  - split.
    + intros n [Hn Hm]%list_elem_of_In%filter_In. apply matches_spec in Hm.
      split; [by apply list_elem_of_In|done].
    + intros Hnil n Hn [_ Hel]. specialize (Hel Hp). apply matches_spec in Hel.
      eapply (in_nil (a := n)). rewrite <-Hnil. apply filter_In. by rewrite <-list_elem_of_In.
  - destruct (List.find _ nodes) as [m|] eqn:Hf.
    + apply find_some in Hf as [Hm%list_elem_of_In Heq%String.eqb_eq]. split; [|done].
      intros n ->%list_elem_of_singleton. done.
    + split; [by intros n Hn%elem_of_nil|]. intros _ n Hn [Hel _].
      eapply find_none in Hf; [|by apply list_elem_of_In].
      rewrite (Hel Hp), String.eqb_refl in Hf. done.
Qed.

(** * Placement *)
Section placement.
Context `{SortLaws}.

(** The highest score among the candidates. *)
Definition best_of (constraints : option SchedulingConstraints) (candidates : list NodeInfo)
    (n : NodeInfo) : Prop :=
  n ∈ candidates ∧ ∀ m, m ∈ candidates →
    SFltb (calculateScore n constraints) (calculateScore m constraints) = false.

Lemma sorted_head_best constraints candidates best rest :
  sort_slice score_before (scoreNodes candidates constraints) = best :: rest →
  best_of constraints candidates (sn_node best).
Proof using H0.
  intros Hs.
  pose proof (score_weak_order candidates constraints) as Hw.
  pose proof (sort_perm _ score_before (scoreNodes candidates constraints)) as Hp.
  pose proof (sort_sorted _ _ _ Hw) as Hsort. rewrite Hs in Hp, Hsort.
  apply StronglySorted_inv in Hsort as [_ Hall]. rewrite list.Forall_forall in Hall.
  assert (Hin : ∀ x, x ∈ scoreNodes candidates constraints →
    sn_node x ∈ candidates ∧ sn_score x = calculateScore (sn_node x) constraints).
  { intros x (n & -> & Hn)%list_elem_of_fmap. done. }
  destruct (Hin best) as [Hb Hsc]; [rewrite <-Hp; left|]. split; [done|]. intros m Hm.
  assert (Hmin : mkScored m (calculateScore m constraints) ∈ best :: rest).
  { rewrite Hp. apply list_elem_of_fmap. by exists m. }
  apply elem_of_cons in Hmin as [E|Hmin].
  - rewrite <-E in *. simpl. destruct (SFltb _ _) eqn:Hlt; [|done].
    assert (Hm' : mkScored m (calculateScore m constraints) ∈ scoreNodes candidates constraints)
      by (apply list_elem_of_fmap; by exists m).
    pose proof (wo_asym _ _ Hw _ _ Hm' Hm' Hlt) as Hf. unfold score_before in Hf. simpl in Hf. congruence.
  - apply Hall in Hmin. unfold score_before in Hmin. simpl in Hmin. by rewrite <-Hsc.
Qed.

Definition schedule_post (registry : option (outcome (list NodeInfo))) (vmID : string)
    (constraints : option SchedulingConstraints) (priority : Z) (jobs : Jobs) : outcome string → Jobs → Prop :=
  post
    (λ id jobs', jobs !! vmID = None ∧ ∃ nodes n, registry = Some (Ret nodes) ∧ n ∈ nodes ∧
       eligible constraints n ∧ best_of constraints (filterNodes nodes constraints) n ∧
       id = ni_ID n ∧ jobs' = <[vmID := mkJob vmID id priority constraints]> jobs)
    (λ _ jobs', jobs' = jobs ∧
       (is_Some (jobs !! vmID) ∨ registry = None ∨ (∃ e, registry = Some (Err e)) ∨
        ∃ nodes, registry = Some (Ret nodes) ∧ ∀ n, n ∈ nodes → ¬ eligible constraints n)).

Lemma schedule_places registry vmID constraints priority jobs :
  registry ≠ Some Panic →
  wp (Schedule registry vmID constraints priority) (schedule_post registry vmID constraints priority jobs) jobs.
Proof using H0.
  intros Hnp. unfold schedule_post, wp, Schedule, attempt, repo_GetByVMID, mbind, M_bind.
  destruct (jobs !! vmID) as [job|] eqn:Hj; [by simpl; split; [|left]|].
  destruct registry as [[nodes|e|]|]; [|simpl..]; [|split; [done|]; by eauto 6|done|split; [done|]; by eauto].
  destruct (filterNodes_spec nodes constraints) as [Hin Hnil].
  cbn -[scoreNodes filterNodes].
  remember (filterNodes nodes constraints) as cands eqn:Hcands. destruct (Nat.eqb_spec (length cands) 0) as [Hl|Hl].
  { split; [done|]. do 3 right. exists nodes. split; [done|]. apply Hnil. by apply nil_length_inv. }
  pose proof (sort_perm _ score_before (scoreNodes cands constraints)) as Hp.
  destruct (sort_slice score_before _) as [|best rest] eqn:Hs; cbn -[scoreNodes].
  { apply Permutation_nil, map_eq_nil in Hp. by rewrite Hp in Hl. }
  pose proof (sorted_head_best constraints cands best rest Hs) as Hb.
  split; [done|]. exists nodes, (sn_node best). destruct (Hin (sn_node best)) as [??]; [apply Hb|].
  by rewrite <-Hcands.
Qed.

(** [Schedule] places a machine that has no placement, on a node the
    registry offers that satisfies the constraints (the preferred node if one is
    named, otherwise all required labels, no label to avoid, and a GPU if
    asked), with the highest score of those, and records it.  It refuses, and
    records nothing, exactly when the machine is already placed, there is no
    registry, the registry fails, or no node offered is eligible. *)
Theorem schedule_correct registry vmID constraints priority jobs :
  registry ≠ Some Panic →
  wp (Schedule registry vmID constraints priority) (schedule_post registry vmID constraints priority jobs) jobs.
Proof using H0. apply schedule_places. Qed.

(** A request answered 200 is refused when repeated, and cancelling it
    (answered 204) restores exactly the placements there were before. *)
Theorem schedule_cancel_roundtrip registry body jobs nodeID jobs' :
  handleSchedule registry body jobs = (Ret (200%Z, inl nodeID), jobs') →
  ∃ req, body = Some req ∧
    handleSchedule registry body jobs' =
      (Ret (500%Z, inr ("vm " +:+ sr_VMID req +:+ " already scheduled on node " +:+ nodeID)), jobs') ∧
    handleCancel (Some (sr_VMID req)) jobs' = (Ret (204%Z, None), jobs).
Proof using Type.
  destruct body as [req|]; [|done]. unfold handleSchedule, handleCancel. intros Hs. exists req. split; [done|].
  destruct (String.eqb (sr_VMID req) ""); [done|]. revert Hs.
  generalize (match sr_Constraints req with Some c => Some c | None => Some (mkConstraints "" [] [] [] false "") end).
  intros constraints. unfold CancelSchedule, repo_Delete, Schedule, attempt, repo_GetByVMID, mbind, M_bind.
  destruct (jobs !! sr_VMID req) eqn:Hj; [done|].
  destruct registry as [[nodes|e|]|]; [|done..]. cbn -[scoreNodes filterNodes].
  destruct (Nat.eqb _ 0); [done|]. destruct (sort_slice score_before _) as [|best rest]; [done|].
  cbn -[scoreNodes filterNodes]. intros [= <- <-]. rewrite lookup_insert_eq. simpl.
  by rewrite delete_insert_id.
Qed.

End placement.

(** * Listings *)
Section listing.
Context `{SortLaws}.

Definition wanted (nodeID : string) (job : ScheduledJob) : Prop := nodeID = "" ∨ job_NodeID job = nodeID.

Lemma filtered_jobs_spec visit nodeID :
  filtered_jobs visit nodeID ≡ₚ List.filter (λ job, String.eqb nodeID "" || String.eqb (job_NodeID job) nodeID) visit ∧
  StronglySorted (λ x y, job_Priority y ≤ job_Priority x)%Z (filtered_jobs visit nodeID).
Proof using H0.
  unfold filtered_jobs. split; [apply sort_perm|].
  rewrite <-(list_fmap_id (sort_slice _ _)).
  eapply StronglySorted_fmap; [|apply sort_sorted].
  - intros x y. simpl. rewrite Z.ltb_ge. done.
  - split; intros; rewrite ?Z.ltb_ge, ?Z.ltb_lt in *; lia.
Qed.

Lemma elem_of_filtered visit nodeID job :
  job ∈ filtered_jobs visit nodeID ↔ job ∈ visit ∧ wanted nodeID job.
Proof using H0.
  pose proof (proj1 (filtered_jobs_spec visit nodeID)) as Hp. rewrite Hp.
  rewrite list_elem_of_In, filter_In, <-list_elem_of_In, orb_true_iff, !String.eqb_eq. done.
Qed.

(** Within the range of [int] a page is the expected part of the sorted list. *)
Lemma repo_List_page visit nodeID page perPage :
  (1 ≤ page)%Z → (1 ≤ perPage)%Z → (page * perPage < 2 ^ 63)%Z →
  (Z.of_nat (length visit) < 2 ^ 62)%Z →
  repo_List visit nodeID page perPage =
    Ret (take (Z.to_nat perPage) (drop (Z.to_nat ((page - 1) * perPage)) (filtered_jobs visit nodeID)),
         Z.of_nat (length (filtered_jobs visit nodeID))).
Proof using Type.
  intros Hp Hpp Hov Hlen. unfold repo_List. set (l := filtered_jobs visit nodeID).
  assert (Hs : int64 (int64 (page - 1) * perPage) = ((page - 1) * perPage)%Z).
  { rewrite (int64_id (page - 1)) by (unfold in_int64; nia). apply int64_id. unfold in_int64. nia. }
  rewrite Hs. destruct (Z.leb_spec (Z.of_nat (length l)) ((page - 1) * perPage)).
  { rewrite drop_ge by lia. by rewrite take_nil. }
  rewrite int64_id by (unfold in_int64; nia).
  replace ((page - 1) * perPage + perPage)%Z with (page * perPage)%Z by lia.
  unfold slice. destruct (Z.ltb_spec (Z.of_nat (length l)) (page * perPage)).
  - rewrite (proj2 (Z.leb_le 0 ((page - 1) * perPage))) by nia.
    rewrite (proj2 (Z.leb_le ((page - 1) * perPage) (Z.of_nat (length l)))) by lia.
    rewrite Z.leb_refl. simpl. rewrite !take_ge; [done|..]; rewrite length_drop; lia.
  - rewrite (proj2 (Z.leb_le 0 ((page - 1) * perPage))) by nia.
    rewrite (proj2 (Z.leb_le ((page - 1) * perPage) (page * perPage))) by nia.
    rewrite (proj2 (Z.leb_le (page * perPage) (Z.of_nat (length l)))) by lia.
    simpl. by replace (page * perPage - (page - 1) * perPage)%Z with perPage by lia.
Qed.

(** For page numbers whose offset fits in an [int], the listing handler
    returns a page of the placements on the node (or of all), highest priority
    first, with their number; and the first pages of one visit of the map,
    taken together, are the beginning of the sorted list, so that no placement
    is listed twice or left out. *)
Theorem list_jobs_correct visit nodeID k perPage :
  (1 ≤ perPage ≤ 100)%Z → (Z.of_nat k < 2 ^ 56)%Z → (Z.of_nat (length visit) < 2 ^ 62)%Z →
  ∃ pages, Forall2 (λ i p, handleListJobs visit nodeID (Z.of_nat i) perPage =
                             Ret (p, Z.of_nat (length (filtered_jobs visit nodeID)), Z.of_nat i)) (seq 1 k) pages ∧
    concat pages = take (k * Z.to_nat perPage) (filtered_jobs visit nodeID) ∧
    StronglySorted (λ x y, job_Priority y ≤ job_Priority x)%Z (concat pages) ∧
    ∀ job, job ∈ filtered_jobs visit nodeID ↔ job ∈ visit ∧ wanted nodeID job.
Proof using H0.
  intros Hpp Hk Hlen. set (l := filtered_jobs visit nodeID). set (n := Z.to_nat perPage).
  exists ((λ i, take n (drop ((i - 1) * n) l)) <$> seq 1 k).
  assert (Hcat : ∀ j, concat ((λ i, take n (drop ((i - 1) * n) l)) <$> seq 1 j) = take (j * n) l).
  { intros j. induction j as [|j IH]; [done|].
    rewrite seq_S, fmap_app, concat_app, IH. simpl. rewrite app_nil_r, Nat.sub_0_r.
    replace (n + j * n) with (j * n + n) by lia. by rewrite take_take_drop. }
  split_and!; [|apply Hcat| |apply elem_of_filtered].
  - apply Forall2_fmap_r, Forall_Forall2_diag, list.Forall_forall. intros i Hi%elem_of_seq.
    unfold handleListJobs. destruct (Z.ltb_spec (Z.of_nat i) 1); [lia|].
    destruct (Z.ltb_spec perPage 1), (Z.ltb_spec 100 perPage); try lia. simpl.
    rewrite repo_List_page by (lia || nia). simpl. fold l n. do 3 f_equal.
    f_equal. unfold n. rewrite Z2Nat.inj_mul by lia. f_equal. lia.
  - rewrite Hcat. destruct (filtered_jobs_spec visit nodeID) as [_ Hs]. fold l in Hs.
    rewrite <-(take_drop (k * n) l) in Hs. by apply StronglySorted_app in Hs as (_ & ? & _).
Qed.

End listing.

(** * Overlapping requests

    [Schedule] takes the lock of the repository twice: to look the machine up
    and to record the placement.  Between the two other requests run. *)
Section overlap.
Context `{SortSlice}.

Record sched_request := mkReq {
  rq_registry : option (outcome (list NodeInfo));
  rq_vm : string;
  rq_constraints : option SchedulingConstraints;
  rq_priority : Z;
}.

(** Where a request is: before the lookup, about to record, or answered. *)
Inductive sched_phase :=
| Looking
| Placing (job : ScheduledJob)
| Answered (o : outcome string).

(** One critical section, with the computation up to the next. *)
Definition sched_step (rq : sched_request) (ph : sched_phase) (jobs : Jobs) : sched_phase * Jobs :=
  match ph with
  | Looking =>
      match jobs !! rq_vm rq with
      | Some existing =>
          (Answered (Err ("vm " +:+ rq_vm rq +:+ " already scheduled on node " +:+ job_NodeID existing)), jobs)
      | None =>
          match rq_registry rq with
          | None => (Answered (Err "node registry not configured"), jobs)
          | Some (Err e) => (Answered (Err ("failed to query available nodes" +:+ ": " +:+ e)), jobs)
          | Some Panic => (Answered Panic, jobs)
          | Some (Ret nodes) =>
              let candidates := filterNodes nodes (rq_constraints rq) in
              if Nat.eqb (length candidates) 0
              then (Answered (Err "no nodes match the scheduling constraints"), jobs)
              else
                match sort_slice score_before (scoreNodes candidates (rq_constraints rq)) with
                | [] => (Answered Panic, jobs)
                | best :: _ => (Placing (mkJob (rq_vm rq) (ni_ID (sn_node best)) (rq_priority rq)
                                           (rq_constraints rq)), jobs)
                end
          end
      end
  | Placing job => (Answered (Ret (job_NodeID job)), <[job_VMID job := job]> jobs)
  | Answered o => (Answered o, jobs)
  end.

Definition sched_alone (rq : sched_request) (jobs : Jobs) : sched_phase * Jobs :=
  let '(ph, jobs) := sched_step rq Looking jobs in sched_step rq ph jobs.

(** Two requests, both looking before either records. *)
Definition sched_overlap (a b : sched_request) (jobs : Jobs) : sched_phase * sched_phase * Jobs :=
  let '(pa, jobs) := sched_step a Looking jobs in
  let '(pb, jobs) := sched_step b Looking jobs in
  let '(pa, jobs) := sched_step a pa jobs in
  let '(pb, jobs) := sched_step b pb jobs in
  (pa, pb, jobs).

(** The steps are those of [Schedule]. *)
Lemma sched_alone_Schedule rq jobs :
  sched_alone rq jobs =
  (λ r, (Answered r.1, r.2)) (Schedule (rq_registry rq) (rq_vm rq) (rq_constraints rq) (rq_priority rq) jobs).
Proof.
  unfold sched_alone, Schedule, mbind, M_bind, attempt, repo_GetByVMID, sched_step, wrap.
  destruct (jobs !! rq_vm rq); [done|]. destruct (rq_registry rq) as [[nodes|e|]|]; try done.
  cbn -[scoreNodes filterNodes]. destruct (Nat.eqb _ 0); [done|].
  by destruct (sort_slice score_before _).
Qed.

(** The lookup and the recording of [Schedule] are separate critical
    sections: run one after the other, the second of two requests for one
    machine is refused; overlapping, both are answered with a node, and only
    the placement of the later one is kept. *)
Theorem overlapping_schedules_both_succeed a b na nb jobs ja jb :
  rq_vm a = rq_vm b →
  sched_alone a jobs = (Answered (Ret na), ja) → sched_alone b jobs = (Answered (Ret nb), jb) →
  (∃ e, sched_alone b ja = (Answered (Err e), ja)) ∧
  sched_overlap a b jobs = (Answered (Ret na), Answered (Ret nb), jb).
Proof.
  intros Hvm Ha Hb. unfold sched_alone, sched_overlap in *.
  assert (Hstep : ∀ rq n j, (let '(ph, jobs) := sched_step rq Looking jobs in sched_step rq ph jobs)
      = (Answered (Ret n), j) →
    ∃ job, sched_step rq Looking jobs = (Placing job, jobs) ∧ job_VMID job = rq_vm rq ∧
           job_NodeID job = n ∧ j = <[rq_vm rq := job]> jobs).
  { intros rq n j. unfold sched_step. destruct (jobs !! rq_vm rq); [done|].
    destruct (rq_registry rq) as [[nodes|e|]|]; try done.
    destruct (Nat.eqb _ 0); [done|]. destruct (sort_slice score_before _) as [|best]; [done|].
    intros [= <- <-]. by eexists. }
  destruct (Hstep _ _ _ Ha) as (joba & -> & Hva & <- & ->).
  destruct (Hstep _ _ _ Hb) as (jobb & Hlb & Hvb & <- & ->). rewrite Hlb. split.
  - eexists. unfold sched_step. rewrite <-Hvm, lookup_insert_eq. done.
  - simpl. rewrite Hva, Hvb, Hvm. by rewrite insert_insert_eq.
Qed.

End overlap.

(** * A sort that satisfies the laws, and witnesses *)
#[export] Instance insertion_sort : SortSlice := @sort_by.

Lemma sort_by_weak {A} (less : A → A → bool) l :
  weak_order less l → StronglySorted (λ x y, less y x = false) (sort_by less l).
Proof.
  intros [Hasym Htr].
  assert (Hins : ∀ x k, x ∈ l → k ⊆ l → StronglySorted (λ x y, less y x = false) k →
    StronglySorted (λ x y, less y x = false) (insert_by less x k)).
  { intros x k Hx. induction k as [|y k IH]; intros Hk Hs; simpl; [by repeat constructor|].
    apply StronglySorted_inv in Hs as [Hs Hy].
    assert (Hyl : y ∈ l) by (apply Hk; left).
    assert (Hkl : k ⊆ l) by (intros z ?; apply Hk; by right).
    destruct (less y x) eqn:E.
    - constructor; [by apply IH|]. rewrite insert_by_perm. constructor; [|done].
      by apply Hasym.
    - constructor; [by constructor|]. constructor; [done|].
      rewrite list.Forall_forall in *. intros z Hz. apply (Htr z y x); auto. }
  assert (Hall : ∀ k, k ⊆ l → StronglySorted (λ x y, less y x = false) (sort_by less k)).
  { intros k. induction k as [|x k IH]; intros Hk; simpl; [constructor|]. apply Hins.
    - apply Hk. left.
    - intros z Hz. apply Hk. right. by rewrite <-(sort_by_perm less k).
    - apply IH. intros z Hz. apply Hk. by right. }
  by apply Hall.
Qed.

#[export] Instance insertion_sort_laws : SortLaws.
Proof. split; [intros; apply sort_by_perm|intros; by apply sort_by_weak]. Qed.

Definition node_a : NodeInfo := mkNodeInfo "a" {["zone" := "east"; "ssd" := ""]} 8 17179869184 0 3.
Definition node_b : NodeInfo := mkNodeInfo "b" {["zone" := "west"]} 16 34359738368 1 10.
Definition want_east : option SchedulingConstraints :=
  Some (mkConstraints "" ["zone=east"; "ssd"] ["zone=east"] ["old"] false "").

Lemma schedule_witness :
  (Schedule (Some (Ret [node_b; node_a])) "vm1" want_east 5 ∅).1 = Ret "a" ∧
  wp (Schedule (Some (Ret [node_b; node_a])) "vm1" want_east 5)
    (schedule_post (Some (Ret [node_b; node_a])) "vm1" want_east 5 ∅) ∅.
Proof.
  split; [vm_compute; reflexivity|]. by apply schedule_correct.
Defined.

Definition body1 : option scheduleRequest := Some (mkScheduleRequest "vm1" want_east 5).
Lemma schedule_cancel_witness :
  ∃ req, body1 = Some req ∧
    handleSchedule (Some (Ret [node_b; node_a])) body1 {["vm1" := mkJob "vm1" "a" 5 want_east]} =
      (Ret (500%Z, inr ("vm " +:+ sr_VMID req +:+ " already scheduled on node " +:+ "a")),
       {["vm1" := mkJob "vm1" "a" 5 want_east]}) ∧
    handleCancel (Some (sr_VMID req)) {["vm1" := mkJob "vm1" "a" 5 want_east]} = (Ret (204%Z, None), ∅).
Proof. apply (schedule_cancel_roundtrip (Some (Ret [node_b; node_a])) body1 ∅ "a"). vm_compute. reflexivity. Defined.

Definition jobs3 : list ScheduledJob :=
  [mkJob "v1" "a" 1 None; mkJob "v2" "b" 9 None; mkJob "v3" "a" 4 None].
Lemma list_jobs_witness : ∃ pages,
  Forall2 (λ i p, handleListJobs jobs3 "a" (Z.of_nat i) 1 =
             Ret (p, Z.of_nat (length (filtered_jobs jobs3 "a")), Z.of_nat i)) (seq 1 2) pages ∧
  concat pages = take (2 * Z.to_nat 1) (filtered_jobs jobs3 "a") ∧
  StronglySorted (λ x y, job_Priority y ≤ job_Priority x)%Z (concat pages) ∧
  ∀ job, job ∈ filtered_jobs jobs3 "a" ↔ job ∈ jobs3 ∧ wanted "a" job.
Proof. apply (list_jobs_correct jobs3 "a" 2 1); [lia|lia|vm_compute; reflexivity]. Defined.

Definition rq_a : sched_request := mkReq (Some (Ret [node_a])) "vm1" None 1.
Definition rq_b : sched_request := mkReq (Some (Ret [node_b])) "vm1" None 2.
Lemma overlapping_witness :
  (∃ e, sched_alone rq_b {["vm1" := mkJob "vm1" "a" 1 None]} = (Answered (Err e), {["vm1" := mkJob "vm1" "a" 1 None]})) ∧
  sched_overlap rq_a rq_b ∅ = (Answered (Ret "a"), Answered (Ret "b"), {["vm1" := mkJob "vm1" "b" 2 None]}).
Proof.
  apply (overlapping_schedules_both_succeed rq_a rq_b "a" "b" ∅); vm_compute; reflexivity.
Defined.

(** A page number for which the offset leaves the range of [int] makes the
    listing handler panic (a slice with a negative bound), although it only
    checked that the number is positive; the scheduler [main] builds has no node
    registry, so that it refuses every placement. *)
Theorem scheduler_edge_cases :
  handleListJobs jobs3 "" 461168601842738792 20 = Panic ∧
  ∀ vmID constraints priority (jobs : Jobs), jobs !! vmID = None →
    Schedule None vmID constraints priority jobs = (Err "node registry not configured", jobs).
Proof.
  split; [vm_compute; reflexivity|]. intros vmID constraints priority jobs Hj.
  unfold Schedule, attempt, repo_GetByVMID, mbind, M_bind. by rewrite Hj.
Qed.
