(* ===== verification/Qcow2.v ===== *)
(** [internal/qcow2/qcow2.go]: the command lines of [qemu-img].  Running a
    command is an operation of the world it is used in; decoding the JSON of
    [qemu-img info] is a parameter, of which only the format is read. *)
From stdpp Require Import base strings list numbers pretty.
From S2P Require Import Prelude.
From S2P Require Import GoStd.
From stdpp Require Import options.

(** [exec.CommandContext(...).CombinedOutput()]: the output, and the error. *)
Class Host (W : Type) := run_command : list string → M W (string * option string).
(** [json.Unmarshal(out, &info)], of which the code reads [info.Format]. *)
Class InfoJSON := info_format : string → option string.

Definition gib : Z := 1024 * 1024 * 1024.

Definition formatSize (sizeBytes : Z) : string :=
  if (sizeBytes <=? 0)%Z then "1G"
  else if (sizeBytes `mod` gib =? 0)%Z then pretty (sizeBytes `div` gib)%Z +:+ "G"
  else pretty sizeBytes.

Section qcow2.
Context {W : Type} `{Host W} `{InfoJSON}.

(** Run a command; an error is wrapped with the output. *)
Definition qemu_img (ctx : string) (args : list string) : M W () :=
  r ← run_command ("qemu-img" :: args);
  match r.2 with
  | Some e => fail (ctx +:+ ": " +:+ e +:+ ": " +:+ r.1)
  | None => mret ()
  end.

Definition qcow2_Stat (path : string) : M W string :=
  r ← run_command ["qemu-img"; "info"; "--output=json"; path];
  match r.2 with
  | Some e => fail ("qemu-img info " +:+ path +:+ ": " +:+ e +:+ ": " +:+ r.1)
  | None => match info_format r.1 with
            | Some fmt => mret fmt
            | None => fail "parse qemu-img info"
            end
  end.

Definition qcow2_Create (path : string) (sizeBytes : Z) : M W () :=
  qemu_img "qemu-img create" ["create"; "-f"; "qcow2"; path; formatSize sizeBytes].

Definition qcow2_Resize (path : string) (sizeBytes : Z) : M W () :=
  qemu_img "qemu-img resize" ["resize"; path; formatSize sizeBytes].

Definition qcow2_CreateWithBacking (path backingPath : string) (sizeBytes : Z) : M W () :=
  info ← attempt (qcow2_Stat backingPath);
  let backingFmt :=
    match info with
    | inl fmt => if negb (String.eqb fmt "") then fmt
                 else if String.eqb (Filepath.Ext backingPath) ".img" then "raw" else "qcow2"
    | inr _ => if String.eqb (Filepath.Ext backingPath) ".img" then "raw" else "qcow2"
    end in
  _ ← qemu_img ("qemu-img create with backing " +:+ backingPath)
        ["create"; "-f"; "qcow2"; "-b"; backingPath; "-F"; backingFmt; path];
  if (0 <? sizeBytes)%Z then ignore (qcow2_Resize path sizeBytes) else mret ().

Definition qcow2_SnapshotCreate (diskPath snap : string) : M W () :=
  qemu_img "qemu-img snapshot create" ["snapshot"; "-c"; snap; diskPath].
Definition qcow2_SnapshotDelete (diskPath snap : string) : M W () :=
  qemu_img "qemu-img snapshot delete" ["snapshot"; "-d"; snap; diskPath].
Definition qcow2_SnapshotApply (diskPath snap : string) : M W () :=
  qemu_img "qemu-img snapshot apply" ["snapshot"; "-a"; snap; diskPath].

Definition qcow2_Convert (src dst srcFmt dstFmt : string) : M W () :=
  qemu_img "qemu-img convert" ["convert"; "-f"; srcFmt; "-O"; dstFmt; src; dst].

Definition qcow2_Clone (srcPath dstPath : string) : M W () :=
  qcow2_CreateWithBacking dstPath srcPath 0.

End qcow2.
