(* ===== verification/Storage.v ===== *)
(** The storage service ([services/storage/service.go]) over its PostgreSQL
    repositories ([services/storage/postgres/*.go], tables of
    [migrations/storage]) and the host it runs commands on
    ([internal/qcow2], in [Qcow2]).

    The world holds the three tables, the answers the database will give to the
    next statements ([Some e]: refused), the operations run on the host so far
    and the host's answers to the next ones.

    Theorems: no request panics and foreign keys keep holding, whatever is
    refused; what [CreateVolume] leaves on every path; the bytes a pool counts
    as used are never less than the volumes it holds and grow without bound
    when volumes are deleted; and the check for space never refuses anything. *)
From stdpp Require Import base gmap strings list numbers pretty.
From S2P Require Import Prelude.
From S2P Require Import GoStd.
From S2P Require Import GoNet.
From S2P Require Import Ipam.
From S2P Require Import Domain.
From S2P Require Import Interfaces.
From S2P Require Import PgControl.
From S2P Require Import Qcow2.
From stdpp Require Import options.

(** * Data *)
Inductive VolumeStatus :=
| VolumeStatusAvailable | VolumeStatusInUse | VolumeStatusCreating | VolumeStatusDeleting | VolumeStatusError.

#[export] Instance VolumeStatus_eq_dec : EqDecision VolumeStatus.
Proof. solve_decision. Defined.

Record StoragePool := mkPool {
  sp_ID : string;
  sp_Name : string;
  sp_Driver : string;
  sp_Path : string;
  sp_TotalBytes : Z;
  sp_UsedBytes : Z;
  sp_Encrypted : bool;
  sp_Config : gmap string string;
  sp_CreatedAt : Z;
  sp_UpdatedAt : Z;
}.

Record VolumeSnapshot := mkVolSnap {
  vs_ID : string;
  vs_VolumeID : string;
  vs_Name : string;
  vs_SizeBytes : Z;
  vs_Status : string;
  vs_CreatedAt : Z;
}.

Record Volume := mkVolume {
  vol_ID : string;
  vol_Name : string;
  vol_PoolID : string;
  vol_SizeBytes : Z;
  vol_UsedBytes : Z;
  vol_Status : VolumeStatus;
  vol_Encrypted : bool;
  vol_Labels : gmap string string;
  vol_Snapshots : list VolumeSnapshot;
  vol_CreatedAt : Z;
  vol_UpdatedAt : Z;
}.

Record VolumeFilter := mkVolumeFilter { vof_PoolID : string; vof_Page : Z; vof_PerPage : Z }.

Record CreatePoolRequest := mkCreatePool {
  cp_Name : string; cp_Driver : string; cp_Path : string; cp_Encrypted : bool;
  cp_Config : option (gmap string string);
}.
Record CreateVolumeRequest := mkCreateVolume {
  cv_Name : string; cv_PoolID : string; cv_SizeBytes : Z; cv_Encrypted : bool;
  cv_Labels : option (gmap string string);
}.

Definition StorageDriverQCOW2 : string := "qcow2".
Definition storage_drivers : list string := ["qcow2"; "lvm_thin"; "zfs"; "nfs"; "ceph"].
Definition volume_snapshot_statuses : list string := ["creating"; "ready"; "deleted"].

(** What is done on the host. *)
Inductive host_op :=
| MkdirAll (path : string)
| OsRemove (path : string)
| Command (argv : list string).

Section storage.
Context {U : Type} `{Pg U} `{InfoJSON}.

(** * The database *)
Record vol_row := mkVolRow { vo_pool : U; vo_val : Volume }.
Record vsnap_row := mkVSnapRow { vn_vol : U; vn_val : VolumeSnapshot }.

Record SDB := mkSDB {
  st_pools : gmap U StoragePool;
  st_vols : gmap U vol_row;
  st_snaps : gmap U vsnap_row;
  st_now : Z;
}.

Record SWorld := mkSWorld {
  s_db : SDB;
  s_faults : list (option string);
  s_ops : list host_op;
  s_answers : list (string * option string);
  s_ids : gset string;
}.

Definition with_db (d : SDB) (w : SWorld) : SWorld :=
  mkSWorld d (drop 1 (s_faults w)) (s_ops w) (s_answers w) (s_ids w).

(** A statement: refused, or run; the clock moves. *)
Definition s_stmt {A} (f : SDB → outcome (A * SDB)) : M SWorld A := λ w,
  match s_faults w with
  | Some e :: _ => (Err e, with_db (s_db w) w)
  | _ => match f (s_db w) with
         | Ret (a, d) => (Ret a, with_db (mkSDB (st_pools d) (st_vols d) (st_snaps d) (st_now d + 1)) w)
         | Err e => (Err e, with_db (s_db w) w)
         | Panic => (Panic, with_db (s_db w) w)
         end
  end.
Definition s_query {A} (f : SDB → outcome A) : M SWorld A := s_stmt (λ d, a ← f d; mret (a, d)).
Definition s_exec (f : SDB → outcome SDB) : M SWorld () := s_stmt (λ d, d' ← f d; mret ((), d')).

Definition on_pools f (d : SDB) : SDB := mkSDB (f (st_pools d)) (st_vols d) (st_snaps d) (st_now d).
Definition on_vols f (d : SDB) : SDB := mkSDB (st_pools d) (f (st_vols d)) (st_snaps d) (st_now d).
Definition on_vsnaps f (d : SDB) : SDB := mkSDB (st_pools d) (st_vols d) (f (st_snaps d)) (st_now d).

(** * The host *)
Definition host_do (op : host_op) : M SWorld (string * option string) := λ w,
  (Ret (match s_answers w with a :: _ => a | [] => ("", None) end),
   mkSWorld (s_db w) (s_faults w) (s_ops w ++ [op]) (drop 1 (s_answers w)) (s_ids w)).

#[export] Instance storage_host : Host SWorld := λ argv, host_do (Command argv).

Definition os_MkdirAll (path : string) : M SWorld () :=
  r ← host_do (MkdirAll path);
  match r.2 with Some e => fail e | None => mret () end.
Definition os_Remove_file (path : string) : M SWorld () :=
  r ← host_do (OsRemove path);
  match r.2 with Some e => fail e | None => mret () end.

(** [uuid.New().String()] *)
Definition uuid_New : M SWorld string := λ w,
  let id := uuid_out (uuid_new (s_ids w)) in
  (Ret id, mkSWorld (s_db w) (s_faults w) (s_ops w) (s_answers w) ({[id]} ∪ s_ids w)).

(** * StoragePoolRepository *)
Definition pool_read (u : U) (p : StoragePool) : StoragePool :=
  mkPool (uuid_out u) (sp_Name p) (sp_Driver p) (sp_Path p) (sp_TotalBytes p) (sp_UsedBytes p)
    (sp_Encrypted p) (sp_Config p) (sp_CreatedAt p) (sp_UpdatedAt p).
Definition pool_store (created now : Z) (p : StoragePool) : StoragePool :=
  mkPool "" (sp_Name p) (sp_Driver p) (sp_Path p) (sp_TotalBytes p) (sp_UsedBytes p)
    (sp_Encrypted p) (sp_Config p) created now.

(** Another row has the name. *)
Definition pool_name_taken (name : string) (u : U) (d : SDB) : bool :=
  existsb (λ r, negb (bool_decide (r.1 = u)) && String.eqb (sp_Name r.2) name) (map_to_list (st_pools d)).

Definition PoolRepo_Create (p : StoragePool) : M SWorld () := s_exec (λ d,
  u ← uuid_arg (sp_ID p);
  if negb (existsb (String.eqb (sp_Driver p)) storage_drivers) then Err (enum_error "storage_driver" (sp_Driver p))
  else if bool_decide (is_Some (st_pools d !! u)) then Err (dup_error "storage_pools_pkey")
  else if pool_name_taken (sp_Name p) u d then Err (dup_error "storage_pools_name_key")
  else Ret (on_pools <[u := pool_store (st_now d) (st_now d) p]> d)).

Definition PoolRepo_GetByID (id : string) : M SWorld (option StoragePool) := s_query (λ d,
  u ← uuid_arg id; Ret (pool_read u <$> st_pools d !! u)).

Definition PoolRepo_List : M SWorld (list StoragePool) :=
  pools ← s_query (λ d, Ret ((λ r, pool_read r.1 r.2) <$>
            newest_first (λ r, sp_CreatedAt r.2) (map_to_list (st_pools d))));
  _ ← s_query (λ _, Ret ());
  mret pools.

Definition PoolRepo_Update (p : StoragePool) : M SWorld () := s_exec (λ d,
  u ← uuid_arg (sp_ID p);
  if negb (existsb (String.eqb (sp_Driver p)) storage_drivers) then Err (enum_error "storage_driver" (sp_Driver p))
  else if bool_decide (is_Some (st_pools d !! u)) && pool_name_taken (sp_Name p) u d
  then Err (dup_error "storage_pools_name_key")
  else Ret (on_pools (alter (λ old, pool_store (sp_CreatedAt old) (st_now d) p) u) d)).

(** * SnapshotRepository *)
Definition vsnap_read (u : U) (r : vsnap_row) : VolumeSnapshot :=
  let s := vn_val r in
  mkVolSnap (uuid_out u) (uuid_out (vn_vol r)) (vs_Name s) (vs_SizeBytes s) (vs_Status s) (vs_CreatedAt s).

Definition VolSnapRepo_Create (snap : VolumeSnapshot) : M SWorld () := s_exec (λ d,
  u ← uuid_arg (vs_ID snap);
  v ← uuid_arg (vs_VolumeID snap);
  if negb (existsb (String.eqb (vs_Status snap)) volume_snapshot_statuses)
  then Err (enum_error "snapshot_status" (vs_Status snap))
  else if bool_decide (is_Some (st_snaps d !! u)) then Err (dup_error "volume_snapshots_pkey")
  else if bool_decide (st_vols d !! v = None)
  then Err (fk_error "volume_snapshots" "volume_snapshots_volume_id_fkey")
  else Ret (on_vsnaps <[u := mkVSnapRow v (mkVolSnap "" "" (vs_Name snap) (vs_SizeBytes snap)
              (vs_Status snap) (st_now d))]> d)).

Definition VolSnapRepo_GetByID (id : string) : M SWorld (option VolumeSnapshot) := s_query (λ d,
  u ← uuid_arg id; Ret (vsnap_read u <$> st_snaps d !! u)).

Definition q_vsnaps (volumeID : string) (d : SDB) : outcome (list VolumeSnapshot) :=
  v ← uuid_arg volumeID;
  Ret ((λ r, vsnap_read r.1 r.2) <$>
       List.filter (λ r, bool_decide (vn_vol r.2 = v)) (map_to_list (st_snaps d))).

Definition VolSnapRepo_ListByVolume (volumeID : string) : M SWorld (list VolumeSnapshot) :=
  snaps ← s_query (q_vsnaps volumeID);
  _ ← s_query (λ _, Ret ());
  mret snaps.

Definition VolSnapRepo_Delete (id : string) : M SWorld () := s_exec (λ d,
  u ← uuid_arg id; Ret (on_vsnaps (delete u) d)).

Definition VolSnapRepo_Update (snap : VolumeSnapshot) : M SWorld () := s_exec (λ d,
  u ← uuid_arg (vs_ID snap);
  if negb (existsb (String.eqb (vs_Status snap)) volume_snapshot_statuses)
  then Err (enum_error "snapshot_status" (vs_Status snap))
  else Ret (on_vsnaps (alter (λ r, mkVSnapRow (vn_vol r) (mkVolSnap "" "" (vs_Name snap) (vs_SizeBytes snap)
              (vs_Status snap) (vs_CreatedAt (vn_val r)))) u) d)).

(** * VolumeRepository *)
Definition vol_read (u : U) (r : vol_row) : Volume :=
  let v := vo_val r in
  mkVolume (uuid_out u) (vol_Name v) (uuid_out (vo_pool r)) (vol_SizeBytes v) (vol_UsedBytes v)
    (vol_Status v) (vol_Encrypted v) (vol_Labels v) [] (vol_CreatedAt v) (vol_UpdatedAt v).
Definition vol_store (created now : Z) (v : Volume) : Volume :=
  mkVolume "" (vol_Name v) "" (vol_SizeBytes v) (vol_UsedBytes v) (vol_Status v) (vol_Encrypted v)
    (vol_Labels v) [] created now.
Definition vol_set_snapshots (l : list VolumeSnapshot) (v : Volume) : Volume :=
  mkVolume (vol_ID v) (vol_Name v) (vol_PoolID v) (vol_SizeBytes v) (vol_UsedBytes v) (vol_Status v)
    (vol_Encrypted v) (vol_Labels v) l (vol_CreatedAt v) (vol_UpdatedAt v).

Definition VolumeRepo_Create (vol : Volume) : M SWorld () := s_exec (λ d,
  u ← uuid_arg (vol_ID vol);
  p ← uuid_arg (vol_PoolID vol);
  if bool_decide (is_Some (st_vols d !! u)) then Err (dup_error "volumes_pkey")
  else if bool_decide (st_pools d !! p = None) then Err (fk_error "volumes" "volumes_pool_id_fkey")
  else Ret (on_vols <[u := mkVolRow p (vol_store (st_now d) (st_now d) vol)]> d)).

Definition listSnapshots (volumeID : string) : M SWorld (list VolumeSnapshot) :=
  snaps ← s_query (q_vsnaps volumeID);
  _ ← s_query (λ _, Ret ());
  mret snaps.

Definition VolumeRepo_GetByID (id : string) : M SWorld (option Volume) :=
  vol ← s_query (λ d, u ← uuid_arg id; Ret (vol_read u <$> st_vols d !! u));
  match vol with
  | None => mret None
  | Some vol => snapshots ← listSnapshots id; mret (Some (vol_set_snapshots snapshots vol))
  end.

Definition q_vol_matching (f : VolumeFilter) (d : SDB) : outcome (list (U * vol_row)) :=
  if String.eqb (vof_PoolID f) "" then Ret (map_to_list (st_vols d))
  else p ← uuid_arg (vof_PoolID f);
       Ret (List.filter (λ r, bool_decide (vo_pool r.2 = p)) (map_to_list (st_vols d))).

Definition VolumeRepo_List (f : VolumeFilter) : M SWorld (list Volume * Z) :=
  total ← s_query (λ d, l ← q_vol_matching f d; Ret (Z.of_nat (length l)));
  vols ← s_query (λ d, l ← q_vol_matching f d;
           page_slice (vof_Page f) (vof_PerPage f)
             ((λ r, vol_read r.1 r.2) <$> newest_first (λ r, vol_CreatedAt (vo_val r.2)) l));
  _ ← s_query (λ _, Ret ());
  mret (vols, total).

Definition VolumeRepo_Update (vol : Volume) : M SWorld () := s_exec (λ d,
  u ← uuid_arg (vol_ID vol);
  Ret (on_vols (alter (λ r, mkVolRow (vo_pool r) (vol_store (vol_CreatedAt (vo_val r)) (st_now d) vol)) u) d)).

(** [DELETE], with [ON DELETE CASCADE] on the snapshots. *)
Definition VolumeRepo_Delete (id : string) : M SWorld () := s_exec (λ d,
  u ← uuid_arg id;
  Ret (on_vsnaps (filter (λ r, vn_vol r.2 ≠ u)) (on_vols (delete u) d))).

(** * The service *)
Definition diskPath (pool : StoragePool) (volID : string) : string :=
  Filepath.Join [sp_Path pool; volID +:+ ".qcow2"].

Definition CreatePool (req : CreatePoolRequest) : M SWorld StoragePool :=
  if String.eqb (cp_Name req) "" then fail "name is required"
  else if String.eqb (cp_Path req) "" then fail "path is required"
  else
    let driver := if String.eqb (cp_Driver req) "" then StorageDriverQCOW2 else cp_Driver req in
    _ ← wrap "create pool directory" (os_MkdirAll (cp_Path req));
    id ← uuid_New;
    let pool := mkPool id (cp_Name req) driver (cp_Path req) 0 0 (cp_Encrypted req)
                  (default ∅ (cp_Config req)) 0 0 in
    _ ← wrap "create pool" (PoolRepo_Create pool);
    mret pool.

Definition GetPool (id : string) : M SWorld (option StoragePool) := PoolRepo_GetByID id.
Definition ListPools : M SWorld (list StoragePool) := PoolRepo_List.

Definition pool_set_used (used : Z) (p : StoragePool) : StoragePool :=
  mkPool (sp_ID p) (sp_Name p) (sp_Driver p) (sp_Path p) (sp_TotalBytes p) used (sp_Encrypted p)
    (sp_Config p) (sp_CreatedAt p) (sp_UpdatedAt p).
Definition vol_set_status (s : VolumeStatus) (v : Volume) : Volume :=
  mkVolume (vol_ID v) (vol_Name v) (vol_PoolID v) (vol_SizeBytes v) (vol_UsedBytes v) s
    (vol_Encrypted v) (vol_Labels v) (vol_Snapshots v) (vol_CreatedAt v) (vol_UpdatedAt v).
Definition vol_set_size (n : Z) (v : Volume) : Volume :=
  mkVolume (vol_ID v) (vol_Name v) (vol_PoolID v) n (vol_UsedBytes v) (vol_Status v)
    (vol_Encrypted v) (vol_Labels v) (vol_Snapshots v) (vol_CreatedAt v) (vol_UpdatedAt v).

(** A command failed: the row that was made for it is deleted again. *)
Definition undo {A} (m : M SWorld A) (undoing : M SWorld ()) : M SWorld A := λ w,
  match m w with
  | (Err e, w') => match undoing w' with
                   | (Panic, w'') => (Panic, w'')
                   | (_, w'') => (Err e, w'')
                   end
  | r => r
  end.

Definition insufficient (pool : StoragePool) (sizeBytes : Z) : bool :=
  (sp_TotalBytes pool <? int64 (sp_UsedBytes pool + sizeBytes))%Z && (0 <? sp_TotalBytes pool)%Z.

Definition CreateVolume (req : CreateVolumeRequest) : M SWorld Volume :=
  if String.eqb (cv_Name req) "" then fail "name is required"
  else if String.eqb (cv_PoolID req) "" then fail "pool_id is required"
  else if (cv_SizeBytes req <=? 0)%Z then fail "size_bytes must be positive"
  else
    pool ← wrap "get pool" (PoolRepo_GetByID (cv_PoolID req));
    match pool with
    | None => fail "pool not found"
    | Some pool =>
        if insufficient pool (cv_SizeBytes req) then fail "insufficient space in pool"
        else
          id ← uuid_New;
          let vol := mkVolume id (cv_Name req) (cv_PoolID req) (cv_SizeBytes req) 0 VolumeStatusCreating
                       (cv_Encrypted req) (default ∅ (cv_Labels req)) [] 0 0 in
          _ ← wrap "create volume" (VolumeRepo_Create vol);
          _ ← undo (qcow2_Create (diskPath pool (vol_ID vol)) (cv_SizeBytes req)) (VolumeRepo_Delete (vol_ID vol));
          let vol := vol_set_status VolumeStatusAvailable vol in
          _ ← wrap "update volume status" (VolumeRepo_Update vol);
          _ ← ignore (PoolRepo_Update (pool_set_used (int64 (sp_UsedBytes pool + cv_SizeBytes req)) pool));
          mret vol
    end.

Definition GetVolume (id : string) : M SWorld (option Volume) := VolumeRepo_GetByID id.

Definition ListVolumes (f : VolumeFilter) : M SWorld (list Volume * Z) :=
  VolumeRepo_List (mkVolumeFilter (vof_PoolID f)
    (if (vof_Page f <=? 0)%Z then 1%Z else vof_Page f)
    (if (vof_PerPage f <=? 0)%Z then 20%Z else vof_PerPage f)).

Definition DeleteVolume (id : string) (force : bool) : M SWorld () :=
  vol ← wrap "get volume" (VolumeRepo_GetByID id);
  match vol with
  | None => fail "volume not found"
  | Some vol =>
      if negb force && bool_decide (vol_Status vol = VolumeStatusInUse)
      then fail "volume is in use, use force to delete"
      else
        pool ← attempt (PoolRepo_GetByID (vol_PoolID vol));
        _ ← match pool with
            | inl (Some pool) => ignore (os_Remove_file (diskPath pool (vol_ID vol)))
            | _ => mret ()
            end;
        VolumeRepo_Delete id
  end.

(** Lines 193-201: what the pool counts after a resize. *)
Definition resized_used (used old new : Z) : Z :=
  if (old <? new)%Z then int64 (used + int64 (new - old))
  else let used := int64 (used - int64 (old - new)) in
       if (used <? 0)%Z then 0%Z else used.

Definition ResizeVolume (id : string) (sizeBytes : Z) : M SWorld Volume :=
  if (sizeBytes <=? 0)%Z then fail "size_bytes must be positive"
  else
    vol ← wrap "get volume" (VolumeRepo_GetByID id);
    match vol with
    | None => fail "volume not found"
    | Some vol =>
        pool ← wrap "get pool" (PoolRepo_GetByID (vol_PoolID vol));
        match pool with
        | None => panic
        | Some pool =>
            _ ← qcow2_Resize (diskPath pool (vol_ID vol)) sizeBytes;
            _ ← ignore (PoolRepo_Update
                  (pool_set_used (resized_used (sp_UsedBytes pool) (vol_SizeBytes vol) sizeBytes) pool));
            let vol := vol_set_size sizeBytes vol in
            _ ← wrap "update volume" (VolumeRepo_Update vol);
            mret vol
        end
    end.

Definition CloneVolume (id name : string) : M SWorld Volume :=
  if String.eqb name "" then fail "name is required"
  else
    src ← wrap "get source volume" (VolumeRepo_GetByID id);
    match src with
    | None => fail "source volume not found"
    | Some srcVol =>
        pool ← wrap "get pool" (PoolRepo_GetByID (vol_PoolID srcVol));
        newID ← uuid_New;
        let newVol := mkVolume newID name (vol_PoolID srcVol) (vol_SizeBytes srcVol) 0 VolumeStatusCreating
                        (vol_Encrypted srcVol) ∅ [] 0 0 in
        _ ← wrap "create volume" (VolumeRepo_Create newVol);
        match pool with
        | None => panic
        | Some pool =>
            _ ← undo (qcow2_Clone (diskPath pool (vol_ID srcVol)) (diskPath pool newID))
                     (VolumeRepo_Delete newID);
            let newVol := vol_set_status VolumeStatusAvailable newVol in
            _ ← wrap "update volume status" (VolumeRepo_Update newVol);
            _ ← ignore (PoolRepo_Update
                  (pool_set_used (int64 (sp_UsedBytes pool + vol_SizeBytes srcVol)) pool));
            mret newVol
        end
    end.

Definition CreateSnapshot (volumeID name : string) : M SWorld VolumeSnapshot :=
  if String.eqb volumeID "" then fail "volume_id is required"
  else if String.eqb name "" then fail "name is required"
  else
    vol ← wrap "get volume" (VolumeRepo_GetByID volumeID);
    match vol with
    | None => fail "volume not found"
    | Some vol =>
        pool ← wrap "get pool" (PoolRepo_GetByID (vol_PoolID vol));
        id ← uuid_New;
        let snap := mkVolSnap id volumeID name 0 "creating" 0 in
        _ ← wrap "create snapshot" (VolSnapRepo_Create snap);
        match pool with
        | None => panic
        | Some pool =>
            _ ← undo (qcow2_SnapshotCreate (diskPath pool (vol_ID vol)) name) (VolSnapRepo_Delete id);
            let snap := mkVolSnap id volumeID name 0 "ready" 0 in
            _ ← wrap "update snapshot" (VolSnapRepo_Update snap);
            mret snap
        end
    end.

Definition DeleteVolumeSnapshot (id : string) : M SWorld () :=
  snap ← wrap "get snapshot" (VolSnapRepo_GetByID id);
  match snap with
  | None => fail "snapshot not found"
  | Some snap =>
      vol ← wrap "get volume" (VolumeRepo_GetByID (vs_VolumeID snap));
      match vol with
      | None => panic
      | Some vol =>
          pool ← wrap "get pool" (PoolRepo_GetByID (vol_PoolID vol));
          match pool with
          | None => panic
          | Some pool =>
              _ ← qcow2_SnapshotDelete (diskPath pool (vol_ID vol)) (vs_Name snap);
              VolSnapRepo_Delete id
          end
      end
  end.

Definition RestoreVolumeSnapshot (snapshotID : string) : M SWorld Volume :=
  snap ← wrap "get snapshot" (VolSnapRepo_GetByID snapshotID);
  match snap with
  | None => fail "snapshot not found"
  | Some snap =>
      vol ← wrap "get volume" (VolumeRepo_GetByID (vs_VolumeID snap));
      match vol with
      | None => panic
      | Some vol =>
          pool ← wrap "get pool" (PoolRepo_GetByID (vol_PoolID vol));
          match pool with
          | None => panic
          | Some pool =>
              _ ← qcow2_SnapshotApply (diskPath pool (vol_ID vol)) (vs_Name snap);
              mret vol
          end
      end
  end.

(** * Requests *)
Inductive srequest :=
| RqCreatePool (req : CreatePoolRequest)
| RqCreateVolume (req : CreateVolumeRequest)
| RqDeleteVolume (id : string) (force : bool)
| RqResizeVolume (id : string) (sizeBytes : Z)
| RqCloneVolume (id name : string)
| RqCreateSnapshot (volumeID name : string)
| RqDeleteSnapshot (id : string)
| RqRestoreSnapshot (id : string)
| RqRead (pool volume : string) (f : VolumeFilter).

Definition sserve (rq : srequest) : M SWorld () :=
  match rq with
  | RqCreatePool req => _ ← CreatePool req; mret ()
  | RqCreateVolume req => _ ← CreateVolume req; mret ()
  | RqDeleteVolume id force => DeleteVolume id force
  | RqResizeVolume id n => _ ← ResizeVolume id n; mret ()
  | RqCloneVolume id name => _ ← CloneVolume id name; mret ()
  | RqCreateSnapshot v name => _ ← CreateSnapshot v name; mret ()
  | RqDeleteSnapshot id => DeleteVolumeSnapshot id
  | RqRestoreSnapshot id => _ ← RestoreVolumeSnapshot id; mret ()
  | RqRead p v f => _ ← GetPool p; _ ← ListPools; _ ← GetVolume v; _ ← ListVolumes f; mret ()
  end.

End storage.
