(* ===== verification/StorageProofs.v ===== *)
(** What the storage service guarantees (see [Storage] for the model). *)
From stdpp Require Import base gmap strings list numbers pretty fin_maps.
From S2P Require Import Prelude.
From S2P Require Import GoStd.
From S2P Require Import PgControl.
From S2P Require Import Qcow2.
From S2P Require Import Storage.
From stdpp Require Import options.

Section proofs.
Context {U : Type} `{PgLaws U} `{InfoJSON}.
Implicit Types (w : SWorld (U:=U)) (d : SDB (U:=U)).

Definition calm w : Prop := s_faults w = [].

(** The tables are as they were, and so is the good will of the server. *)
Definition keeps w w' : Prop :=
  st_pools (s_db w') = st_pools (s_db w) ∧ st_vols (s_db w') = st_vols (s_db w) ∧
  st_snaps (s_db w') = st_snaps (s_db w) ∧ (calm w → calm w').

#[global] Instance keeps_preorder : PreOrder keeps.
Proof.
  split; [done|]. intros a b c (?&?&?&?) (?&?&?&?). unfold keeps. split_and!; [congruence..|auto].
Qed.

(** ** Statements *)
Lemma wp_s_query {A} (f : SDB → outcome A) w : f (s_db w) ≠ Panic →
  wp (s_query f) (post (λ a w', f (s_db w) = Ret a ∧ keeps w w')
                       (λ e w', keeps w w' ∧ (calm w → f (s_db w) = Err e))) w.
Proof using Type*.
  intros Hp. unfold wp, s_query, s_stmt, keeps, calm.
  destruct (s_faults w) as [|[e|] fs] eqn:E; simpl.
  - destruct (f (s_db w)); simpl; rewrite ?E; [by split_and!|by split_and!|done].
  - rewrite E. by split_and!.
  - destruct (f (s_db w)); simpl; rewrite ?E; [by split_and!|by split_and!|done].
Qed.

(** What an accepted statement leaves. *)
Definition becomes w w' d : Prop :=
  st_pools (s_db w') = st_pools d ∧ st_vols (s_db w') = st_vols d ∧
  st_snaps (s_db w') = st_snaps d ∧ (calm w → calm w').

Lemma wp_s_exec (f : SDB → outcome SDB) w : f (s_db w) ≠ Panic →
  wp (s_exec f) (post (λ _ w', ∃ d, f (s_db w) = Ret d ∧ becomes w w' d)
                      (λ e w', keeps w w' ∧ (calm w → f (s_db w) = Err e))) w.
Proof using Type*.
  intros Hp. unfold wp, s_exec, s_stmt, becomes, keeps, calm.
  destruct (s_faults w) as [|[e|] fs] eqn:E; simpl.
  - destruct (f (s_db w)); simpl; rewrite ?E; [eexists; by split_and!|by split_and!|done].
  - rewrite E. by split_and!.
  - destruct (f (s_db w)); simpl; rewrite ?E; [eexists; by split_and!|by split_and!|done].
Qed.

Lemma wp_host op w Q : (∀ r w', keeps w w' → Q (Ret r) w') → wp (host_do op) Q w.
Proof using Type*. intros HQ. apply HQ. unfold keeps, calm. by split_and!. Qed.

Lemma wp_uuid_New w Q : (∀ u w', keeps w w' → Q (Ret (uuid_out u)) w') → wp uuid_New Q w.
Proof using Type*. intros HQ. apply HQ. unfold keeps, calm. by split_and!. Qed.

(** A command on the host, of any kind, changes no table. *)
Definition quiet {A} (m : M SWorld A) : Prop :=
  ∀ w, wp m (post (λ _ w', keeps w w') (λ _ w', keeps w w')) w.

Lemma quiet_bind {A B} (m : M SWorld A) (k : A → M SWorld B) :
  quiet m → (∀ a, quiet (k a)) → quiet (m ≫= k).
Proof using Type*.
  intros Hm Hk w. eapply wp_bind_post; [apply Hm| |done].
  intros a w' Hw. eapply wp_post; [apply Hk|..]; simpl; intros ?? Hw'; exact (transitivity Hw Hw').
Qed.

Lemma quiet_ret {A} (a : A) : quiet (mret a).
Proof using Type*. intros w. apply wp_ret. simpl. done. Qed.
Lemma quiet_fail {A} e : quiet (fail e : M SWorld A).
Proof using Type*. intros w. apply wp_fail. simpl. done. Qed.
Lemma quiet_host op : quiet (host_do op).
Proof using Type*. intros w. by apply wp_host. Qed.
Lemma quiet_run argv : quiet (run_command argv).
Proof using Type*. apply quiet_host. Qed.
Lemma quiet_attempt {A} (m : M SWorld A) : quiet m → quiet (attempt m).
Proof using Type*. intros Hm w. eapply wp_post; [apply wp_attempt, Hm|by intros [] ?|done]. Qed.
Lemma quiet_ignore {A} (m : M SWorld A) : quiet m → quiet (ignore m).
Proof using Type*. intros Hm w. eapply wp_post; [apply wp_ignore, Hm|by intros ?? [[]|[]]|done]. Qed.

Lemma quiet_uuid_New : quiet uuid_New.
Proof using Type*. intros w. by apply wp_uuid_New. Qed.

Hint Resolve quiet_ret quiet_fail quiet_host quiet_run quiet_attempt quiet_ignore quiet_uuid_New : core.

Ltac quiet := repeat first
  [ solve [eauto] | apply quiet_bind; [|intros ?] | apply quiet_attempt | apply quiet_ignore
  | match goal with |- quiet (match ?x with _ => _ end) => destruct x end ].

Lemma quiet_qemu_img ctx args : quiet (qemu_img ctx args).
Proof using Type*. unfold qemu_img. quiet. Qed.
Hint Resolve quiet_qemu_img : core.

Lemma quiet_clone src dst : quiet (qcow2_Clone src dst).
Proof using Type*.
  unfold qcow2_Clone, qcow2_CreateWithBacking, qcow2_Stat, qcow2_Resize. quiet.
Qed.

Lemma quiet_os_Remove path : quiet (os_Remove_file path).
Proof using Type*. unfold os_Remove_file. quiet. Qed.
Lemma quiet_MkdirAll path : quiet (os_MkdirAll path).
Proof using Type*. unfold os_MkdirAll. quiet. Qed.

(** ** Well-formed tables: the constraints of the migrations, and the size of a
    pool, which no request sets *)
Record wf d : Prop := {
  wf_vol_pool : ∀ u r, st_vols d !! u = Some r → is_Some (st_pools d !! vo_pool r);
  wf_snap_vol : ∀ u r, st_snaps d !! u = Some r → is_Some (st_vols d !! vn_vol r);
  wf_names : ∀ u1 u2 p1 p2, st_pools d !! u1 = Some p1 → st_pools d !! u2 = Some p2 →
    sp_Name p1 = sp_Name p2 → u1 = u2;
  wf_drivers : ∀ u p, st_pools d !! u = Some p → existsb (String.eqb (sp_Driver p)) storage_drivers = true;
  wf_total : ∀ u p, st_pools d !! u = Some p → sp_TotalBytes p = 0%Z;
}.

Lemma wf_tables d d' : st_pools d' = st_pools d → st_vols d' = st_vols d → st_snaps d' = st_snaps d →
  wf d → wf d'.
Proof using Type*. intros E1 E2 E3 [? ? ? ? ?]. split; rewrite ?E1, ?E2, ?E3; auto. Qed.

Lemma keeps_wf w w' : keeps w w' → wf (s_db w) → wf (s_db w').
Proof using Type*. intros (?&?&?&_). by apply wf_tables. Qed.

Lemma s_uuid_arg_Ret s u : uuid_arg s = Ret u → uuid_in s = Some u.
Proof using Type*. unfold uuid_arg. destruct (uuid_in s); congruence. Qed.
Lemma uuid_arg_out u : uuid_arg (uuid_out u) = Ret u.
Proof using Type*. unfold uuid_arg. by rewrite uuid_in_out. Qed.
Lemma uuid_arg_no_panic s : uuid_arg s ≠ Panic.
Proof using Type*. unfold uuid_arg. by destruct (uuid_in s). Qed.

Lemma pool_name_taken_false name u d : pool_name_taken name u d = false →
  ∀ u' p, st_pools d !! u' = Some p → sp_Name p = name → u' = u.
Proof using Type*.
  unfold pool_name_taken. intros Ht u' p Hp Hn. destruct (decide (u' = u)) as [|Hne]; [done|].
  apply not_true_iff_false in Ht. destruct Ht. apply existsb_exists. exists (u', p). split.
  - by apply list_elem_of_In, elem_of_map_to_list.
  - simpl. rewrite bool_decide_false by done. simpl. by apply String.eqb_eq.
Qed.

Lemma pool_name_free d u p : wf d → st_pools d !! u = Some p → pool_name_taken (sp_Name p) u d = false.
Proof using Type*.
  intros Hwf Hp. apply not_true_iff_false. intros ([u' p'] & Hin & Hc)%existsb_exists.
  apply list_elem_of_In, elem_of_map_to_list in Hin. simpl in Hc.
  apply andb_true_iff in Hc as [Hne Hn%String.eqb_eq]. apply negb_true_iff, bool_decide_eq_false in Hne.
  apply Hne. by eapply wf_names.
Qed.

(** ** Reads *)
Lemma wp_PoolRepo_GetByID id w :
  wp (PoolRepo_GetByID id) (post
    (λ o w', keeps w w' ∧ ∃ u, uuid_in id = Some u ∧ o = pool_read u <$> st_pools (s_db w) !! u)
    (λ _ w', keeps w w')) w.
Proof using Type*.
  eapply wp_post; [apply wp_s_query|..].
  - pose proof (uuid_arg_no_panic id). by destruct (uuid_arg id).
  - intros o w' [Ho Hk]. split; [done|]. destruct (uuid_arg id) as [u| |] eqn:E; try done.
    exists u. split; [by apply s_uuid_arg_Ret|]. by injection Ho as <-.
  - by intros e w' [? _].
Qed.

Lemma wp_VolSnapRepo_GetByID id w :
  wp (VolSnapRepo_GetByID id) (post
    (λ o w', keeps w w' ∧ ∃ u, uuid_in id = Some u ∧ o = vsnap_read u <$> st_snaps (s_db w) !! u)
    (λ _ w', keeps w w')) w.
Proof using Type*.
  eapply wp_post; [apply wp_s_query|..].
  - pose proof (uuid_arg_no_panic id). by destruct (uuid_arg id).
  - intros o w' [Ho Hk]. split; [done|]. destruct (uuid_arg id) as [u| |] eqn:E; try done.
    exists u. split; [by apply s_uuid_arg_Ret|]. by injection Ho as <-.
  - by intros e w' [? _].
Qed.

Lemma quiet_query {A} (f : SDB → outcome A) : (∀ d, f d ≠ Panic) → quiet (s_query f).
Proof using Type*.
  intros Hf w. eapply wp_post; [by apply wp_s_query|by intros ?? [_ ?]|by intros ?? [? _]].
Qed.

Lemma q_vsnaps_no_panic v d : q_vsnaps v d ≠ Panic.
Proof using Type*. unfold q_vsnaps. pose proof (uuid_arg_no_panic v). by destruct (uuid_arg v). Qed.

Lemma quiet_listSnapshots v : quiet (listSnapshots v).
Proof using Type*.
  apply quiet_bind; [apply quiet_query, q_vsnaps_no_panic|]. intros snaps.
  apply quiet_bind; [by apply quiet_query|done].
Qed.

Lemma wp_VolumeRepo_GetByID id w :
  wp (VolumeRepo_GetByID id) (post
    (λ o w', keeps w w' ∧ ∃ u, uuid_in id = Some u ∧
       match o with
       | None => st_vols (s_db w) !! u = None
       | Some v => ∃ r l, st_vols (s_db w) !! u = Some r ∧ v = vol_set_snapshots l (vol_read u r)
       end)
    (λ _ w', keeps w w')) w.
Proof using Type*.
  eapply wp_bind_post; [apply wp_s_query| |by intros e w' [? _]].
  { pose proof (uuid_arg_no_panic id). by destruct (uuid_arg id). }
  intros o w1 [Ho Hk]. destruct (uuid_arg id) as [u| |] eqn:E; try done.
  apply s_uuid_arg_Ret in E. injection Ho as <-.
  destruct (st_vols (s_db w) !! u) as [r|] eqn:Hr; simpl.
  - eapply wp_bind_post; [apply quiet_listSnapshots| |].
    + intros l w2 Hk2. apply wp_ret. simpl. split; [by etrans|]. eauto 6.
    + intros e w2 Hk2. simpl. by etrans.
  - apply wp_ret. simpl. eauto.
Qed.

(** ** No request breaks the constraints or panics *)
Definition wf_post {A} : outcome A → SWorld → Prop :=
  post (λ _ w', wf (s_db w')) (λ _ w', wf (s_db w')).
(** From well-formed tables that satisfy [P]. *)
Definition safe_in {A} (P : SWorld → Prop) (m : M SWorld A) : Prop :=
  ∀ w, wf (s_db w) → P w → wp m wf_post w.
Definition safe {A} (m : M SWorld A) : Prop := safe_in (λ _, True) m.

Lemma safe_weaken {A} P (m : M SWorld A) : safe m → safe_in P m.
Proof using Type*. intros Hm w ? _. by apply Hm. Qed.

Lemma quiet_safe {A} (m : M SWorld A) : quiet m → safe m.
Proof using Type*.
  intros Hm w Hw _. eapply wp_post; [apply Hm|..]; intros ?? Hk; exact (keeps_wf _ _ Hk Hw).
Qed.

Lemma safe_bind {A B} P (m : M SWorld A) (k : A → M SWorld B) :
  safe_in P m → (∀ a, safe (k a)) → safe_in P (m ≫= k).
Proof using Type*.
  intros Hm Hk w Hw HP. eapply wp_bind_post; [by apply Hm| |done]. intros a w' Hw'. by apply Hk.
Qed.

Lemma safe_wrap {A} P ctx (m : M SWorld A) : safe_in P m → safe_in P (wrap ctx m).
Proof using Type*.
  intros Hm w Hw HP. eapply wp_post; [apply wp_wrap; by apply Hm|done|]. by intros e w' (_ & _ & ?).
Qed.
Lemma safe_ignore {A} P (m : M SWorld A) : safe_in P m → safe_in P (ignore m).
Proof using Type*.
  intros Hm w Hw HP. eapply wp_post; [apply wp_ignore; by apply Hm|by intros ?? [[]|[]]|done].
Qed.
Lemma safe_undo {A} P (m : M SWorld A) u : safe_in P m → safe u → safe_in P (undo m u).
Proof using Type*.
  intros Hm Hu w Hw HP. specialize (Hm w Hw HP). unfold wp, undo, wf_post in *.
  destruct (m w) as [[a|e|] w']; simpl in *; [done| |done].
  specialize (Hu w' Hm I). unfold wp, wf_post in Hu. by destruct (u w') as [[]].
Qed.
Lemma safe_match_unit {A} (x : option StoragePool + string) (f : StoragePool → M SWorld A) (g : M SWorld A) :
  (∀ p, safe (f p)) → safe g → safe (match x with inl (Some p) => f p | _ => g end).
Proof using Type*. intros Hf Hg. destruct x as [[p|]|]; auto. Qed.

Lemma safe_exec (f : SDB → outcome SDB) :
  (∀ d, f d ≠ Panic) → (∀ d d', wf d → f d = Ret d' → wf d') → safe (s_exec f).
Proof using Type*.
  intros Hp Hf w Hw _. eapply wp_post; [by apply wp_s_exec|..].
  - intros _ w' (d & Hd & ? & ? & ? & _). apply (wf_tables d); [done..|]. by eapply Hf.
  - intros e w' [Hk _]. exact (keeps_wf _ _ Hk Hw).
Qed.

(** One statement: its conversions first, then its checks. *)
Ltac statement :=
  repeat match goal with
  | |- context [uuid_arg ?s] =>
      let E := fresh "E" in pose proof (uuid_arg_no_panic s);
      destruct (uuid_arg s) as [?| |] eqn:E; simpl; [apply s_uuid_arg_Ret in E| |]
  end; repeat match goal with |- context [if ?b then _ else _] => destruct b eqn:? end; try done.

Lemma safe_pool_create p : sp_TotalBytes p = 0%Z → safe (PoolRepo_Create p).
Proof using Type*.
  intros Htot. apply safe_exec; intros d; [statement|]. intros d' [F1 F2 F3 F4 F5]. statement. intros [= <-].
  assert (Hnew : st_pools d !! a = None) by (apply eq_None_not_Some; by eapply bool_decide_eq_false_1).
  split; simpl.
  - intros u r Hr. destruct (F1 u r Hr) as [q Hq]. rewrite lookup_insert_ne by congruence. eauto.
  - done.
  - intros u1 u2 p1 p2 Hp1 Hp2 Hn. rewrite lookup_insert_Some in Hp1, Hp2.
    pose proof (pool_name_taken_false (sp_Name p) a d) as Ht.
    destruct Hp1 as [[<- <-]|[? Hp1]], Hp2 as [[<- <-]|[? Hp2]]; simpl in *; [done| | |by eapply F3].
    + symmetry. by eapply Ht.
    + by eapply Ht.
  - intros u q Hq. rewrite lookup_insert_Some in Hq. destruct Hq as [[<- <-]|[? Hq]]; [|by eapply F4].
    simpl. by apply negb_false_iff.
  - intros u q Hq. rewrite lookup_insert_Some in Hq. destruct Hq as [[<- <-]|[? Hq]]; [done|by eapply F5].
Qed.

Lemma safe_pool_update p : sp_TotalBytes p = 0%Z → safe (PoolRepo_Update p).
Proof using Type*.
  intros Htot. apply safe_exec; intros d; [statement|]. intros d' [F1 F2 F3 F4 F5]. statement. intros [= <-].
  rename Heqb into Hdrv, Heqb0 into Hname.
  assert (Hl : ∀ u q, alter (λ old, pool_store (sp_CreatedAt old) (st_now d) p) a (st_pools d) !! u = Some q →
    (u ≠ a ∧ st_pools d !! u = Some q) ∨
    (u = a ∧ is_Some (st_pools d !! a) ∧ sp_Name q = sp_Name p ∧ sp_Driver q = sp_Driver p ∧ sp_TotalBytes q = 0%Z)).
  { intros u q. rewrite lookup_alter_Some. intros [(-> & q0 & Hq0 & ->)|[? ?]]; [right|left]; eauto 7. }
  split; simpl.
  - intros u r Hr. destruct (F1 u r Hr) as [q Hq]. rewrite lookup_alter_is_Some. eauto.
  - done.
  - assert (Ht : ∀ u q, is_Some (st_pools d !! a) → st_pools d !! u = Some q → sp_Name q = sp_Name p → u = a).
    { intros u q Ha. rewrite (bool_decide_true _ Ha) in Hname. by apply pool_name_taken_false. }
    intros u1 u2 p1 p2 [[? Hp1]|(-> & Ha & Hn1 & _)]%Hl [[? Hp2]|(-> & Ha' & Hn2 & _)]%Hl Hn.
    + by eapply F3.
    + apply (Ht u1 p1); congruence.
    + symmetry. apply (Ht u2 p2); congruence.
    + done.
  - intros u q [[_ Hq]|(_ & _ & _ & -> & _)]%Hl; [by eapply F4|]. by apply negb_false_iff.
  - intros u q [[_ Hq]|(_ & _ & _ & _ & ->)]%Hl; [by eapply F5|done].
Qed.

Lemma safe_vol_create v : safe (VolumeRepo_Create v).
Proof using Type*.
  apply safe_exec; intros d; [statement|]. intros d' [F1 F2 F3 F4 F5]. statement. intros [= <-].
  split; simpl; [| |done|done|done].
  - intros u r Hr. rewrite lookup_insert_Some in Hr. destruct Hr as [[<- <-]|[? Hr]]; [|by eapply F1].
    simpl. apply not_eq_None_Some. by eapply bool_decide_eq_false_1.
  - intros u r Hr. rewrite lookup_insert_is_Some'. right. by eapply F2.
Qed.

Lemma safe_vol_update v : safe (VolumeRepo_Update v).
Proof using Type*.
  apply safe_exec; intros d; [statement|]. intros d' [F1 F2 F3 F4 F5]. statement. intros [= <-].
  split; simpl; [| |done|done|done].
  - intros u r Hr. rewrite lookup_alter_Some in Hr.
    destruct Hr as [(-> & r0 & Hr0 & ->)|[? Hr]]; simpl; by eapply F1.
  - intros u r Hr. rewrite lookup_alter_is_Some. by eapply F2.
Qed.

Lemma safe_vol_delete id : safe (VolumeRepo_Delete id).
Proof using Type*.
  apply safe_exec; intros d; [statement|]. intros d' [F1 F2 F3 F4 F5]. statement. intros [= <-].
  split; simpl; [| |done|done|done].
  - intros u r [_ Hr]%lookup_delete_Some. by eapply F1.
  - intros u r [Hr Hne]%map_lookup_filter_Some. simpl in Hne. rewrite lookup_delete_ne by done. by eapply F2.
Qed.

Lemma safe_snap_create s : safe (VolSnapRepo_Create s).
Proof using Type*.
  apply safe_exec; intros d; [statement|]. intros d' [F1 F2 F3 F4 F5]. statement. intros [= <-].
  split; simpl; [done| |done|done|done].
  intros u r Hr. rewrite lookup_insert_Some in Hr. destruct Hr as [[<- <-]|[? Hr]]; [|by eapply F2].
  simpl. apply not_eq_None_Some. by eapply bool_decide_eq_false_1.
Qed.

Lemma safe_snap_update s : safe (VolSnapRepo_Update s).
Proof using Type*.
  apply safe_exec; intros d; [statement|]. intros d' [F1 F2 F3 F4 F5]. statement. intros [= <-].
  split; simpl; [done| |done|done|done]. intros u r Hr. rewrite lookup_alter_Some in Hr.
  destruct Hr as [(-> & r0 & Hr0 & ->)|[? Hr]]; simpl; by eapply F2.
Qed.

Lemma safe_snap_delete id : safe (VolSnapRepo_Delete id).
Proof using Type*.
  apply safe_exec; intros d; [statement|]. intros d' [F1 F2 F3 F4 F5]. statement. intros [= <-].
  split; simpl; [done| |done|done|done]. intros u r [_ Hr]%lookup_delete_Some. by eapply F2.
Qed.

(** The rows another row refers to. *)
Definition has_pool (v : Volume) w : Prop :=
  ∃ u p, uuid_in (vol_PoolID v) = Some u ∧ st_pools (s_db w) !! u = Some p.
Definition has_volume (sn : VolumeSnapshot) w : Prop :=
  ∃ u r, uuid_in (vs_VolumeID sn) = Some u ∧ st_vols (s_db w) !! u = Some r.

Lemma safe_get_pool {A} v ctx (k : option StoragePool → M SWorld A) :
  (∀ p, sp_TotalBytes p = 0%Z → safe (k (Some p))) → safe_in (has_pool v) (p ← wrap ctx (PoolRepo_GetByID (vol_PoolID v)); k p).
Proof using Type*.
  intros Hk w Hw (u & p & Hu & Hp). eapply wp_bind_post; [apply wp_wrap, wp_PoolRepo_GetByID|..].
  - intros o w' (Hkeep & u' & Hu' & ->). assert (u' = u) as -> by congruence. rewrite Hp. simpl.
    apply Hk; [exact (wf_total _ Hw u p Hp)|exact (keeps_wf _ _ Hkeep Hw)|done].
  - intros e w' (_ & _ & Hkeep). exact (keeps_wf _ _ Hkeep Hw).
Qed.

Lemma safe_get_pool_by_id {A} id ctx (k : option StoragePool → M SWorld A) :
  safe (k None) → (∀ p, sp_TotalBytes p = 0%Z → safe (k (Some p))) →
  safe (p ← wrap ctx (PoolRepo_GetByID id); k p).
Proof using Type*.
  intros Hnone Hk w Hw _. eapply wp_bind_post; [apply wp_wrap, wp_PoolRepo_GetByID|..].
  - intros o w' (Hkeep & u & Hu & ->). pose proof (keeps_wf _ _ Hkeep Hw) as Hw'.
    destruct (st_pools (s_db w) !! u) as [p|] eqn:Hp; simpl; [|by apply Hnone].
    apply Hk; [exact (wf_total _ Hw u p Hp)|done|done].
  - intros e w' (_ & _ & Hkeep). exact (keeps_wf _ _ Hkeep Hw).
Qed.

Lemma vol_get_has_pool w w' u r l : wf (s_db w) → keeps w w' → st_vols (s_db w) !! u = Some r →
  has_pool (vol_set_snapshots l (vol_read u r)) w'.
Proof using Type*.
  intros Hw (Hp & _) Hr. destruct (wf_vol_pool _ Hw u r Hr) as [p ?]. exists (vo_pool r), p.
  split; [apply uuid_in_out|congruence].
Qed.

Lemma safe_get_volume {A} id ctx (k : option Volume → M SWorld A) :
  safe (k None) → (∀ v, safe_in (has_pool v) (k (Some v))) →
  safe (v ← wrap ctx (VolumeRepo_GetByID id); k v).
Proof using Type*.
  intros Hnone Hk w Hw _. eapply wp_bind_post; [apply wp_wrap, wp_VolumeRepo_GetByID|..].
  - intros o w' (Hkeep & u & Hu & Ho). pose proof (keeps_wf _ _ Hkeep Hw) as Hw'.
    destruct o as [v|]; [|by apply Hnone]. destruct Ho as (r & l & Hr & ->).
    apply Hk; [done|]. exact (vol_get_has_pool w w' u r l Hw Hkeep Hr).
  - intros e w' (_ & _ & Hkeep). exact (keeps_wf _ _ Hkeep Hw).
Qed.

Lemma safe_get_its_volume {A} sn ctx (k : option Volume → M SWorld A) :
  (∀ v, safe_in (has_pool v) (k (Some v))) →
  safe_in (has_volume sn) (v ← wrap ctx (VolumeRepo_GetByID (vs_VolumeID sn)); k v).
Proof using Type*.
  intros Hk w Hw (u & r & Hu & Hr). eapply wp_bind_post; [apply wp_wrap, wp_VolumeRepo_GetByID|..].
  - intros o w' (Hkeep & u' & Hu' & Ho). pose proof (keeps_wf _ _ Hkeep Hw) as Hw'.
    assert (u' = u) as -> by congruence. destruct o as [v|]; [|congruence]. destruct Ho as (r' & l & Hr' & ->).
    apply Hk; [done|]. exact (vol_get_has_pool w w' u r' l Hw Hkeep Hr').
  - intros e w' (_ & _ & Hkeep). exact (keeps_wf _ _ Hkeep Hw).
Qed.

Lemma safe_get_snap {A} id ctx (k : option VolumeSnapshot → M SWorld A) :
  safe (k None) → (∀ v, safe_in (has_volume v) (k (Some v))) →
  safe (v ← wrap ctx (VolSnapRepo_GetByID id); k v).
Proof using Type*.
  intros Hnone Hk w Hw _. eapply wp_bind_post; [apply wp_wrap, wp_VolSnapRepo_GetByID|..].
  - intros o w' (Hkeep & u & Hu & ->). pose proof (keeps_wf _ _ Hkeep Hw) as Hw'.
    destruct (st_snaps (s_db w) !! u) as [r|] eqn:Hr; [|by apply Hnone]. simpl. apply Hk; [done|].
    destruct (wf_snap_vol _ Hw u r Hr) as [x Hx]. destruct Hkeep as (_ & Hv & _).
    exists (vn_vol r), x. split; [apply uuid_in_out|congruence].
  - intros e w' (_ & _ & Hkeep). exact (keeps_wf _ _ Hkeep Hw).
Qed.

Lemma q_vol_matching_no_panic f d : q_vol_matching f d ≠ Panic.
Proof using Type*.
  unfold q_vol_matching. destruct (String.eqb _ _); [done|].
  pose proof (uuid_arg_no_panic (vof_PoolID f)). by destruct (uuid_arg _).
Qed.

Lemma quiet_reads p v f :
  quiet (GetPool p) ∧ quiet ListPools ∧ quiet (GetVolume v) ∧ quiet (ListVolumes f).
Proof using Type*.
  split_and!.
  - intros w. eapply wp_post; [apply wp_PoolRepo_GetByID|by intros ?? [? _]|done].
  - unfold ListPools, PoolRepo_List. apply quiet_bind; [apply quiet_query; intros ? [=]|]. intros ?. apply quiet_bind; [by apply quiet_query|apply quiet_ret].
  - intros w. eapply wp_post; [apply wp_VolumeRepo_GetByID|by intros ?? [? _]|done].
  - unfold ListVolumes, VolumeRepo_List. apply quiet_bind; [apply quiet_query|intros total; apply quiet_bind; [apply quiet_query|intros vols]].
    + intros d. pose proof (q_vol_matching_no_panic (mkVolumeFilter (vof_PoolID f)
        (if (vof_Page f <=? 0)%Z then 1%Z else vof_Page f)
        (if (vof_PerPage f <=? 0)%Z then 20%Z else vof_PerPage f)) d). by destruct (q_vol_matching _ d).
    + intros d. pose proof (q_vol_matching_no_panic (mkVolumeFilter (vof_PoolID f)
        (if (vof_Page f <=? 0)%Z then 1%Z else vof_Page f)
        (if (vof_PerPage f <=? 0)%Z then 20%Z else vof_PerPage f)) d).
      destruct (q_vol_matching _ d); [|done|done]. simpl. apply page_slice_np.
    + apply quiet_bind; [by apply quiet_query|apply quiet_ret].
Qed.

Hint Extern 1 (quiet (qcow2_Create _ _)) => apply quiet_qemu_img : core.
Hint Extern 1 (quiet (qcow2_Resize _ _)) => apply quiet_qemu_img : core.
Hint Extern 1 (quiet (qcow2_SnapshotCreate _ _)) => apply quiet_qemu_img : core.
Hint Extern 1 (quiet (qcow2_SnapshotDelete _ _)) => apply quiet_qemu_img : core.
Hint Extern 1 (quiet (qcow2_SnapshotApply _ _)) => apply quiet_qemu_img : core.
Hint Resolve safe_pool_create safe_pool_update safe_vol_create safe_vol_update safe_vol_delete
  safe_snap_create safe_snap_update safe_snap_delete quiet_clone quiet_os_Remove quiet_MkdirAll : core.

Ltac safe := repeat (
  try match goal with |- safe_in (λ _, True) ?m => change (safe m) end;
  first
  [ solve [eauto using quiet_safe]
  | apply safe_bind; [|intros ?] | apply safe_wrap | apply safe_ignore | apply safe_undo
  | match goal with |- safe (if ?b then _ else _) => destruct b end ]).

Lemma sserve_safe rq : safe (sserve rq).
Proof using Type*.
  destruct rq as [req|req|id force|id n|id name|v name|id|id|p v f]; simpl.
  - unfold CreatePool. safe.
  - apply safe_bind; [|safe]. unfold CreateVolume.
    do 3 (match goal with |- safe_in _ (if ?b then _ else _) => destruct b end; [safe|]).
    apply safe_get_pool_by_id; [safe|]. intros pool Htot. safe.
  - unfold DeleteVolume. apply safe_get_volume; [safe|]. intros vol. apply safe_weaken. safe.
    + apply quiet_safe, quiet_attempt. apply (quiet_reads (vol_PoolID vol) "" (mkVolumeFilter "" 0 0)).
    + apply safe_match_unit; safe.
  - apply safe_bind; [|safe]. unfold ResizeVolume. destruct (n <=? 0)%Z; [safe|].
    apply safe_get_volume; [safe|]. intros vol. apply safe_get_pool. intros pool Htot. safe.
  - apply safe_bind; [|safe]. unfold CloneVolume. destruct (String.eqb name ""); [safe|].
    apply safe_get_volume; [safe|]. intros vol. apply safe_get_pool. intros pool Htot. safe.
  - apply safe_bind; [|safe]. unfold CreateSnapshot. destruct (String.eqb v ""); [safe|].
    destruct (String.eqb name ""); [safe|].
    apply safe_get_volume; [safe|]. intros vol. apply safe_get_pool. intros pool Htot. safe.
  - unfold DeleteVolumeSnapshot. apply safe_get_snap; [safe|]. intros sn. apply safe_get_its_volume.
    intros vol. apply safe_get_pool. intros pool Htot. safe.
  - apply safe_bind; [|safe]. unfold RestoreVolumeSnapshot. apply safe_get_snap; [safe|].
    intros sn. apply safe_get_its_volume.
    intros vol. apply safe_get_pool. intros pool Htot. safe.
  - destruct (quiet_reads p v f) as (?&?&?&?). apply quiet_safe. quiet.
Qed.

(** ** What a pool counts as used *)
Local Open Scope Z_scope.

Definition contrib (u : U) (r : vol_row (U:=U)) : Z :=
  if decide (vo_pool r = u) then vol_SizeBytes (vo_val r) else 0.
(** The sizes of the volumes of a pool. *)
Definition vsum (V : gmap U vol_row) (u : U) : Z := map_fold (λ _ r acc, contrib u r + acc) 0 V.

Lemma vsum_insert V k r u : V !! k = None → vsum (<[k := r]> V) u = contrib u r + vsum V u.
Proof using Type*.
  intros Hk. unfold vsum. rewrite map_fold_insert_L; [done| |done]. intros. lia.
Qed.

Lemma vsum_delete V k r u : V !! k = Some r → vsum V u = contrib u r + vsum (delete k V) u.
Proof using Type*.
  intros Hk. rewrite <-(insert_delete_id V k r) at 1 by done. apply vsum_insert. apply lookup_delete_eq.
Qed.

Lemma vsum_alter V k g r u : V !! k = Some r →
  vsum (alter g k V) u = vsum V u - contrib u r + contrib u (g r).
Proof using Type*.
  intros Hk. rewrite (vsum_delete V k r) by done.
  rewrite (vsum_delete (alter g k V) k (g r)) by (by rewrite lookup_alter_eq, Hk).
  replace (delete k (alter g k V)) with (delete k V); [lia|].
  apply map_eq. intros i. destruct (decide (i = k)) as [->|]; [by rewrite !lookup_delete_eq|].
  by rewrite !lookup_delete_ne, lookup_alter_ne by done.
Qed.

Definition slackPV (P : gmap U StoragePool) (V : gmap U vol_row) (u : U) : Z :=
  from_option sp_UsedBytes 0 (P !! u) - vsum V u.
(** What a pool counts as used beyond its volumes. *)
Definition slack d (u : U) : Z := slackPV (st_pools d) (st_vols d) u.

(** Where the sums stay in the range of [int64]. *)
Definition bounded d : Prop :=
  (∀ u p, st_pools d !! u = Some p → 0 ≤ sp_UsedBytes p < 2 ^ 62) ∧
  (∀ u r, st_vols d !! u = Some r → 0 < vol_SizeBytes (vo_val r) < 2 ^ 62).

Lemma vsum_nonneg V u : (∀ k r, V !! k = Some r → 0 < vol_SizeBytes (vo_val r)) → 0 ≤ vsum V u.
Proof using Type*.
  induction V as [|k r V Hk IH] using map_ind; intros HV; [done|]. rewrite vsum_insert by done.
  assert (0 < vol_SizeBytes (vo_val r)) by (apply (HV k); apply lookup_insert_eq).
  assert (0 ≤ vsum V u).
  { apply IH. intros k' r' Hr'. apply (HV k'). rewrite lookup_insert_ne; [done|]. congruence. }
  unfold contrib. destruct (decide _); lia.
Qed.

(** The used bytes and the size of a volume that change together. *)
Lemma slack_pool_alter P V u p g u' : P !! u = Some p →
  slackPV (alter g u P) V u' = slackPV P V u' + (if decide (u = u') then sp_UsedBytes (g p) - sp_UsedBytes p else 0).
Proof using Type*.
  intros Hp. unfold slackPV. destruct (decide (u = u')) as [<-|].
  - rewrite lookup_alter_eq, Hp. simpl. lia.
  - rewrite lookup_alter_ne by done. lia.
Qed.

(** *** Statements when none is refused *)
Definition at_ w P V : Prop := calm w ∧ st_pools (s_db w) = P ∧ st_vols (s_db w) = V.

Lemma keeps_at w w' P V : keeps w w' → at_ w P V → at_ w' P V.
Proof using Type*. intros (?&?&_&?) (?&?&?). split_and!; [auto|congruence..]. Qed.

Lemma at_query {A} (m : M SWorld A) w P V : quiet m → at_ w P V →
  wp m (post (λ _ w', at_ w' P V) (λ _ w', at_ w' P V)) w.
Proof using Type*. intros Hm Hw. eapply wp_post; [apply Hm|..]; intros ?? Hk; exact (keeps_at _ _ _ _ Hk Hw). Qed.

Lemma at_vol_create vol w P V : at_ w P V →
  wp (VolumeRepo_Create vol) (post
    (λ _ w', ∃ v u r, uuid_in (vol_ID vol) = Some v ∧ uuid_in (vol_PoolID vol) = Some u ∧ V !! v = None ∧
       vo_pool r = u ∧ vol_SizeBytes (vo_val r) = vol_SizeBytes vol ∧ at_ w' P (<[v := r]> V))
    (λ _ w', at_ w' P V)) w.
Proof using Type*.
  intros Hw. pose proof Hw as (Hc & HP & HV). eapply wp_post; [apply wp_s_exec|..].
  - statement.
  - intros _ w' (d & Hd & Hb). revert Hd. statement. intros [= <-]. destruct Hb as (Hp & Hv & _ & Hc').
    eexists _, _, (mkVolRow _ (vol_store (st_now (s_db w)) (st_now (s_db w)) vol)). split_and!; [done|done| | | |].
    + rewrite <-HV. apply eq_None_not_Some. by eapply bool_decide_eq_false_1.
    + done.
    + done.
    + split_and!; [auto|by rewrite <-HP|]. rewrite <-HV. exact Hv.
  - intros e w' [Hk _]. exact (keeps_at _ _ _ _ Hk Hw).
Qed.

Lemma at_vol_update vol v w P V : at_ w P V → uuid_in (vol_ID vol) = Some v →
  wp (VolumeRepo_Update vol) (post
    (λ _ w', ∃ g, (∀ r, vo_pool (g r) = vo_pool r ∧ vol_SizeBytes (vo_val (g r)) = vol_SizeBytes vol) ∧
       at_ w' P (alter g v V))
    (λ _ _, False)) w.
Proof using Type*.
  intros Hw Hid. pose proof Hw as (Hc & HP & HV). unfold VolumeRepo_Update, uuid_arg. rewrite Hid.
  eapply wp_post; [by apply wp_s_exec|..].
  - intros _ w' (d & [= <-] & Hp & Hv & _ & Hc'). eexists. split.
    2: { split_and!; [auto|by rewrite <-HP|]. rewrite <-HV. exact Hv. }
    done.
  - intros e w' [_ He]. by apply He in Hc.
Qed.

Lemma at_vol_delete id v w P V : at_ w P V → uuid_in id = Some v →
  wp (VolumeRepo_Delete id) (post (λ _ w', at_ w' P (delete v V)) (λ _ _, False)) w.
Proof using Type*.
  intros Hw Hid. pose proof Hw as (Hc & HP & HV). unfold VolumeRepo_Delete, uuid_arg. rewrite Hid.
  eapply wp_post; [by apply wp_s_exec|..].
  - intros _ w' (d & [= <-] & Hp & Hv & _ & Hc'). split_and!; [auto|by rewrite <-HP|by rewrite <-HV].
  - intros e w' [_ He]. by apply He in Hc.
Qed.

Lemma at_pool_update p0 used u d0 w P V : wf d0 → st_pools d0 = P → at_ w P V →
  P !! u = Some p0 →
  wp (PoolRepo_Update (pool_set_used used (pool_read u p0))) (post
    (λ _ w', ∃ g, (∀ x, sp_UsedBytes (g x) = used) ∧ at_ w' (alter g u P) V)
    (λ _ _, False)) w.
Proof using Type*.
  intros Hwf HP0 Hw Hp0. pose proof Hw as (Hc & HP & HV).
  assert (Hdrv := wf_drivers _ Hwf u p0). rewrite HP0 in Hdrv. specialize (Hdrv Hp0).
  assert (Hname : pool_name_taken (sp_Name p0) u (s_db w) = false).
  { rewrite <-(pool_name_free d0 u p0 Hwf) by (by rewrite HP0). unfold pool_name_taken. by rewrite HP, HP0. }
  unfold PoolRepo_Update. cbn [sp_ID sp_Driver sp_Name pool_set_used pool_read]. rewrite uuid_arg_out, Hdrv.
  eapply wp_post; [apply wp_s_exec|..]; cbn -[pool_name_taken storage_drivers]; rewrite ?Hname, ?andb_false_r.
  - done.
  - intros _ w' (d & Hd & Hb). injection Hd as <-. destruct Hb as (Hp & Hv & _ & Hc'). eexists. split.
    2: { split_and!; [auto| |by rewrite <-HV]. rewrite <-HP. exact Hp. }
    done.
  - intros e w' [_ He]. by apply He in Hc.
Qed.

(** *** Requests when no statement is refused *)
Definition neutral P V w' : Prop :=
  ∃ P' V', at_ w' P' V' ∧ ∀ u, slackPV P' V' u = slackPV P V u.
Definition neutral_post {A} P V : outcome A → SWorld → Prop :=
  post (λ _, neutral P V) (λ _, neutral P V).

Lemma at_neutral w P V : at_ w P V → neutral P V w.
Proof using Type*. by exists P, V. Qed.

Lemma wp_undo {A} (m : M SWorld A) u w Q : quiet m →
  (∀ a w', keeps w w' → Q (Ret a) w') →
  (∀ e w', keeps w w' → wp u (λ o w'', match o with Panic => Q Panic w'' | _ => Q (Err e) w'' end) w') →
  wp (undo m u) Q w.
Proof using Type*.
  intros Hm Hr He. specialize (Hm w). unfold wp, undo, post in *.
  destruct (m w) as [[a|e|] w']; simpl in *; [by apply Hr| |done].
  specialize (He e w' Hm). by destruct (u w') as [[]].
Qed.

(** The row is there: the command, the status, the pool. *)
Lemma at_finish_volume d0 (cmd : M SWorld ()) ctx vol u p0 v r w P V :
  wf d0 → st_pools d0 = P → P !! u = Some p0 → 0 ≤ sp_UsedBytes p0 < 2 ^ 62 → 0 < vol_SizeBytes vol < 2 ^ 62 →
  quiet cmd → uuid_in (vol_ID vol) = Some v → V !! v = None →
  vo_pool r = u → vol_SizeBytes (vo_val r) = vol_SizeBytes vol → at_ w P (<[v := r]> V) →
  wp (_ ← undo cmd (VolumeRepo_Delete (vol_ID vol));
      _ ← wrap ctx (VolumeRepo_Update vol);
      _ ← ignore (PoolRepo_Update (pool_set_used
            (int64 (sp_UsedBytes (pool_read u p0) + vol_SizeBytes vol)) (pool_read u p0)));
      mret vol) (neutral_post P V) w.
Proof using Type*.
  intros Hwf HP Hp0 Hused Hsize Hq Hid HV Hru Hrs Hw.
  apply wp_bind, wp_undo; [done|..].
  - intros a w1 Hk1. pose proof (keeps_at _ _ _ _ Hk1 Hw) as Hw1.
    eapply wp_bind_post; [apply wp_wrap; by apply (at_vol_update _ v _ P (<[v:=r]> V))| |by intros ?? (?&?&?)].
    intros _ w2 (g & Hg & Hw2).
    eapply wp_bind_post; [apply wp_ignore; by eapply (at_pool_update p0)| |done].
    intros _ w3 [(_ & g' & Hg' & Hw3)|(_ & [])]. apply wp_ret. simpl.
    eexists _, _. split; [exact Hw3|]. intros u'. rewrite (slack_pool_alter _ _ _ p0) by done.
    unfold slackPV. rewrite (vsum_alter _ _ _ r) by apply lookup_insert_eq.
    rewrite vsum_insert by done. destruct (Hg r) as [Hg1 Hg2]. rewrite Hg'.
    unfold contrib. rewrite Hg1, Hg2, Hru, Hrs. cbn [sp_UsedBytes pool_read].
    rewrite int64_id by (unfold in_int64; lia). destruct (decide (u = u')); lia.
  - intros e w1 Hk1. pose proof (keeps_at _ _ _ _ Hk1 Hw) as Hw1.
    eapply wp_mono; [by apply (at_vol_delete _ v _ P (<[v:=r]> V))|].
    intros [] w2 Hw2; simpl in *; try done. eexists _, _. split; [exact Hw2|].
    intros u'. by rewrite delete_insert_id.
Qed.

Lemma neutral_wrap {A} ctx (m : M SWorld A) P V w : wp m (neutral_post P V) w → wp (wrap ctx m) (neutral_post P V) w.
Proof using Type*. intros Hm. eapply wp_post; [apply wp_wrap, Hm|done|]. by intros e w' (?&?&?). Qed.

Lemma neutral_fail {A} e P V w : at_ w P V → wp (fail e : M SWorld A) (neutral_post P V) w.
Proof using Type*. intros Hw. apply wp_fail. by apply at_neutral. Qed.

(** Reading rows in a calm world. *)
Lemma at_get_pool {A} ctx id (k : option StoragePool → M SWorld A) w P V : at_ w P V →
  (∀ o u w', at_ w' P V → uuid_in id = Some u → o = pool_read u <$> P !! u → wp (k o) (neutral_post P V) w') →
  wp (p ← wrap ctx (PoolRepo_GetByID id); k p) (neutral_post P V) w.
Proof using Type*.
  intros Hw Hk. pose proof Hw as (_ & HP & _). eapply wp_bind_post; [apply wp_wrap, wp_PoolRepo_GetByID|..].
  - intros o w' (Hkeep & u & Hu & ->). rewrite HP. eapply Hk; [|done|done]. exact (keeps_at _ _ _ _ Hkeep Hw).
  - intros e w' (_ & _ & Hkeep). apply at_neutral. exact (keeps_at _ _ _ _ Hkeep Hw).
Qed.

Lemma at_get_volume {A} ctx id (k : option Volume → M SWorld A) w P V : at_ w P V →
  (∀ w', at_ w' P V → wp (k None) (neutral_post P V) w') →
  (∀ u r l w', at_ w' P V → uuid_in id = Some u → V !! u = Some r →
     wp (k (Some (vol_set_snapshots l (vol_read u r)))) (neutral_post P V) w') →
  wp (v ← wrap ctx (VolumeRepo_GetByID id); k v) (neutral_post P V) w.
Proof using Type*.
  intros Hw Hnone Hk. pose proof Hw as (_ & _ & HV). eapply wp_bind_post; [apply wp_wrap, wp_VolumeRepo_GetByID|..].
  - intros o w' (Hkeep & u & Hu & Ho). pose proof (keeps_at _ _ _ _ Hkeep Hw) as Hw'.
    destruct o as [v|]; [|by apply Hnone]. destruct Ho as (r & l & Hr & ->). rewrite HV in Hr. by apply Hk.
  - intros e w' (_ & _ & Hkeep). apply at_neutral. exact (keeps_at _ _ _ _ Hkeep Hw).
Qed.

(** A new id and a row for it. *)
Lemma at_new_volume {A} ctx (mk : string → Volume) (k : string → M SWorld A) w P V : at_ w P V →
  (∀ v, vol_ID (mk v) = v) →
  (∀ v u r w', uuid_in (vol_PoolID (mk (uuid_out v))) = Some u → V !! v = None → vo_pool r = u →
     vol_SizeBytes (vo_val r) = vol_SizeBytes (mk (uuid_out v)) → at_ w' P (<[v := r]> V) →
     wp (k (uuid_out v)) (neutral_post P V) w') →
  wp (id ← uuid_New; _ ← wrap ctx (VolumeRepo_Create (mk id)); k id) (neutral_post P V) w.
Proof using Type*.
  intros Hw Hmk Hk. apply wp_bind, wp_uuid_New. intros v w1 Hk1. pose proof (keeps_at _ _ _ _ Hk1 Hw) as Hw1.
  eapply wp_bind_post; [apply wp_wrap; by apply at_vol_create|..].
  - intros _ w2 (v' & u & r & Hv' & Hu & HV & Hru & Hrs & Hw2). rewrite Hmk, uuid_in_out in Hv'.
    injection Hv' as <-. by eapply Hk.
  - intros e w2 (_ & _ & Hw2). by apply at_neutral.
Qed.

Lemma vsum_absent V u : (∀ k r, V !! k = Some r → vo_pool r ≠ u) → vsum V u = 0.
Proof using Type*.
  induction V as [|k r V Hk IH] using map_ind; intros HV; [done|]. rewrite vsum_insert by done.
  assert (vo_pool r ≠ u) by (apply (HV k); apply lookup_insert_eq).
  rewrite IH; [unfold contrib; by rewrite decide_False|].
  intros k' r' Hr'. apply (HV k'). rewrite lookup_insert_ne; [done|]. congruence.
Qed.

Lemma vsum_member V k r : V !! k = Some r → (∀ k r, V !! k = Some r → 0 < vol_SizeBytes (vo_val r)) →
  vol_SizeBytes (vo_val r) ≤ vsum V (vo_pool r).
Proof using Type*.
  intros Hk HV. rewrite (vsum_delete V k r) by done. unfold contrib. rewrite decide_True by done.
  assert (0 ≤ vsum (delete k V) (vo_pool r)); [|lia]. apply vsum_nonneg.
  intros k' r' [_ Hr']%lookup_delete_Some. by eapply HV.
Qed.

Section calm_requests.
Context (d0 : SDB (U:=U)) (Hwf : wf d0) (Hb : bounded d0).
Context (Hslack : ∀ u, 0 ≤ slack d0 u).
Let P := st_pools d0.
Let V := st_vols d0.

Lemma at_CreateVolume req w : at_ w P V → cv_SizeBytes req < 2 ^ 62 →
  wp (CreateVolume req) (neutral_post P V) w.
Proof using All.
  intros Hw Hn. unfold CreateVolume.
  do 2 (match goal with |- wp (if ?b then _ else _) _ _ => destruct b end; [by apply neutral_fail|]).
  destruct (Z.leb_spec (cv_SizeBytes req) 0); [by apply neutral_fail|].
  apply at_get_pool; [done|]. intros o u w1 Hw1 Hu ->.
  destruct (P !! u) as [p0|] eqn:Hp0; simpl; [|by apply neutral_fail].
  destruct (insufficient _ _); [by apply neutral_fail|].
  apply (at_new_volume _ (λ id, mkVolume id (cv_Name req) (cv_PoolID req) (cv_SizeBytes req) 0 VolumeStatusCreating
                       (cv_Encrypted req) (default ∅ (cv_Labels req)) [] 0 0)); [done|done|].
  intros v u' r w2 Hu' HV Hru Hrs Hw2. cbn [vol_PoolID] in Hu'. assert (u' = u) as -> by congruence.
  pose proof (proj1 Hb u p0 Hp0).
  refine (at_finish_volume d0 _ _ (vol_set_status VolumeStatusAvailable _) u p0 v r _ P V Hwf eq_refl Hp0 _ _ _ _ HV Hru _ Hw2);
    cbn [vol_set_status vol_SizeBytes vol_ID]; [lia|split; lia|apply quiet_qemu_img|apply uuid_in_out|exact Hrs].
Qed.

Lemma at_CloneVolume id name w : at_ w P V → wp (CloneVolume id name) (neutral_post P V) w.
Proof using All.
  intros Hw. unfold CloneVolume. destruct (String.eqb name ""); [by apply neutral_fail|].
  apply at_get_volume; [done|by intros; apply neutral_fail|]. intros s rs l w1 Hw1 Hs Hrs.
  apply at_get_pool; [done|]. cbn [vol_PoolID vol_set_snapshots vol_read]. intros o u w2 Hw2 Hu ->.
  rewrite uuid_in_out in Hu. injection Hu as <-.
  destruct (wf_vol_pool _ Hwf s rs Hrs) as [p0 Hp0]. fold P in Hp0. rewrite Hp0. simpl.
  apply (at_new_volume _ (λ i, mkVolume i name (uuid_out (vo_pool rs)) (vol_SizeBytes (vo_val rs)) 0 VolumeStatusCreating
                        (vol_Encrypted (vo_val rs)) ∅ [] 0 0)); [done|done|].
  intros v u' r w3 Hu' HV Hru Hsz Hw3. cbn [vol_PoolID] in Hu'. rewrite uuid_in_out in Hu'. injection Hu' as <-.
  pose proof (proj1 Hb _ p0 Hp0). pose proof (proj2 Hb s rs Hrs).
  refine (at_finish_volume d0 _ _ (vol_set_status VolumeStatusAvailable _) _ p0 v r _ P V Hwf eq_refl Hp0 _ _ _ _ HV Hru _ Hw3);
    cbn [vol_set_status vol_SizeBytes vol_ID]; [lia|lia|apply quiet_clone|apply uuid_in_out|exact Hsz].
Qed.

Lemma resized_used_ok used old new : 0 ≤ used < 2 ^ 62 → 0 < old < 2 ^ 62 → 0 < new < 2 ^ 62 → old ≤ used →
  resized_used used old new = used + (new - old).
Proof using Type*.
  intros. unfold resized_used.
  assert (H63 : ∀ z, - 2 ^ 63 ≤ z < 2 ^ 63 → int64 z = z) by (intros; by apply int64_id).
  destruct (Z.ltb_spec old new); [by rewrite (H63 (new - old)), H63 by lia|].
  rewrite (H63 (old - new)), H63 by lia. destruct (Z.ltb_spec (used - (old - new)) 0); lia.
Qed.

Lemma at_ResizeVolume id n w : at_ w P V → n < 2 ^ 62 → wp (ResizeVolume id n) (neutral_post P V) w.
Proof using All.
  intros Hw Hn. unfold ResizeVolume. destruct (Z.leb_spec n 0); [by apply neutral_fail|].
  apply at_get_volume; [done|by intros; apply neutral_fail|]. intros s rs l w1 Hw1 Hs Hrs.
  apply at_get_pool; [done|]. cbn [vol_PoolID vol_set_snapshots vol_read]. intros o u w2 Hw2 Hu ->.
  rewrite uuid_in_out in Hu. injection Hu as <-.
  destruct (wf_vol_pool _ Hwf s rs Hrs) as [p0 Hp0]. fold P in Hp0. rewrite Hp0. simpl.
  pose proof (proj1 Hb _ p0 Hp0) as Hbu. pose proof (proj2 Hb s rs Hrs) as Hbs.
  assert (Hle : vol_SizeBytes (vo_val rs) ≤ sp_UsedBytes p0).
  { pose proof (vsum_member V s rs Hrs (λ k r Hr, proj1 (proj2 Hb k r Hr))).
    specialize (Hslack (vo_pool rs)). unfold slack, slackPV in Hslack. fold P V in Hslack.
    rewrite Hp0 in Hslack. simpl in Hslack. lia. }
  rewrite resized_used_ok by (cbn; lia).
  eapply wp_bind_post; [apply (at_query _ _ P V); [apply quiet_qemu_img|done]| |by intros; apply at_neutral].
  intros ? w3 Hw3. eapply wp_bind_post; [apply wp_ignore; exact (at_pool_update p0 _ (vo_pool rs) d0 w3 P V Hwf eq_refl Hw3 Hp0)| |done].
  intros _ w4 [(_ & g' & Hg' & Hw4)|(_ & [])].
  eapply wp_bind_post; [apply wp_wrap; eapply (at_vol_update _ s); [exact Hw4|apply uuid_in_out]| |by intros ?? (?&?&?)].
  intros _ w5 (g & Hg & Hw5). apply wp_ret. simpl. eexists _, _. split; [exact Hw5|].
  intros u'. rewrite (slack_pool_alter _ _ _ p0) by done.
  unfold slackPV. rewrite (vsum_alter _ _ _ rs) by done. destruct (Hg rs) as [Hg1 Hg2]. rewrite Hg'.
  unfold contrib. rewrite Hg1, Hg2. cbn [vol_SizeBytes vol_set_size sp_UsedBytes pool_read].
  destruct (decide (vo_pool rs = u')); lia.
Qed.

End calm_requests.

(** Computations that leave pools and volumes alone, however they end. *)
Definition fixes {A} (m : M SWorld A) : Prop := ∀ w P V, at_ w P V → at_ (m w).2 P V.

Lemma fixes_quiet {A} (m : M SWorld A) : quiet m → fixes m.
Proof using Type*.
  intros Hm w P V Hw. specialize (Hm w). unfold wp, post in Hm.
  destruct (m w) as [[] w']; simpl in *; [exact (keeps_at _ _ _ _ Hm Hw)..|done].
Qed.
Lemma fixes_bind {A B} (m : M SWorld A) (k : A → M SWorld B) : fixes m → (∀ a, fixes (k a)) → fixes (m ≫= k).
Proof using Type*.
  intros Hm Hk w P V Hw. specialize (Hm w P V Hw). unfold mbind, M_bind.
  destruct (m w) as [[] w']; simpl in *; [by apply Hk|done|done].
Qed.
Lemma fixes_wrap {A} ctx (m : M SWorld A) : fixes m → fixes (wrap ctx m).
Proof using Type*.
  intros Hm w P V Hw. specialize (Hm w P V Hw). unfold wrap. by destruct (m w) as [[] w'].
Qed.
Lemma fixes_undo {A} (m : M SWorld A) u : fixes m → fixes u → fixes (undo m u).
Proof using Type*.
  intros Hm Hu w P V Hw. specialize (Hm w P V Hw). unfold undo. destruct (m w) as [[] w']; simpl in *; [done| |done].
  specialize (Hu w' P V Hm). by destruct (u w') as [[] w''].
Qed.
Lemma fixes_panic {A} : fixes (panic : M SWorld A).
Proof using Type*. intros w P V Hw. exact Hw. Qed.

Lemma fixes_exec (f : SDB → outcome SDB) : (∀ d, f d ≠ Panic) →
  (∀ d d', f d = Ret d' → st_pools d' = st_pools d ∧ st_vols d' = st_vols d) → fixes (s_exec f).
Proof using Type*.
  intros Hp Hf w P V Hw. pose proof Hw as (Hc & HP & HV). pose proof (wp_s_exec f w (Hp _)) as Hwp.
  unfold wp, post in Hwp. destruct (s_exec f w) as [[] w']; simpl in *; [| |done].
  - destruct Hwp as (d & Hd & Hp' & Hv' & _ & Hc'). apply Hf in Hd as [? ?]. split_and!; [auto|congruence..].
  - destruct Hwp as [Hk _]. exact (keeps_at _ _ _ _ Hk Hw).
Qed.

Lemma fixes_snaps sn id : fixes (VolSnapRepo_Create sn) ∧ fixes (VolSnapRepo_Update sn) ∧ fixes (VolSnapRepo_Delete id).
Proof using Type*.
  split_and!; (apply fixes_exec; intros d; [statement|]); intros d'; statement; by intros [= <-].
Qed.

Lemma quiet_snap_get id : quiet (VolSnapRepo_GetByID id).
Proof using Type*. intros w. eapply wp_post; [apply wp_VolSnapRepo_GetByID|by intros ?? [? _]|done]. Qed.
Lemma quiet_vol_get id : quiet (VolumeRepo_GetByID id).
Proof using Type*. intros w. eapply wp_post; [apply wp_VolumeRepo_GetByID|by intros ?? [? _]|done]. Qed.
Lemma quiet_pool_get id : quiet (PoolRepo_GetByID id).
Proof using Type*. intros w. eapply wp_post; [apply wp_PoolRepo_GetByID|by intros ?? [? _]|done]. Qed.

Hint Resolve quiet_snap_get quiet_vol_get quiet_pool_get : core.

Ltac fixes := repeat first
  [ solve [eauto using fixes_quiet] | apply fixes_panic | apply (fixes_snaps _ "")
  | match goal with |- fixes (VolSnapRepo_Delete ?i) => apply (fixes_snaps (mkVolSnap "" "" "" 0 "" 0) i) end
  | apply fixes_wrap | apply fixes_undo | apply fixes_bind; [|intros ?]
  | match goal with
    | |- fixes (if ?b then _ else _) => destruct b
    | |- fixes (match ?x with Some _ => _ | None => _ end) => destruct x
    end ].

Lemma fixes_snapshots id v name p f :
  fixes (CreateSnapshot v name) ∧ fixes (DeleteVolumeSnapshot id) ∧ fixes (RestoreVolumeSnapshot id) ∧
  fixes (sserve (RqRead p v f)).
Proof using Type*.
  split_and!.
  - unfold CreateSnapshot. fixes.
  - unfold DeleteVolumeSnapshot. fixes.
  - unfold RestoreVolumeSnapshot. fixes.
  - destruct (quiet_reads p v f) as (?&?&?&?). apply fixes_quiet. simpl. quiet.
Qed.

Lemma at_CreatePool d0 req w : wf d0 → at_ w (st_pools d0) (st_vols d0) →
  wp (CreatePool req) (neutral_post (st_pools d0) (st_vols d0)) w.
Proof using Type*.
  intros Hwf Hw. unfold CreatePool.
  do 2 (match goal with |- wp (if ?b then _ else _) _ _ => destruct b end; [by apply neutral_fail|]).
  cbv zeta. generalize (if String.eqb (cp_Driver req) "" then StorageDriverQCOW2 else cp_Driver req). intros driver.
  eapply wp_bind_post; [apply wp_wrap; by apply (at_query _ _ (st_pools d0) (st_vols d0))| |].
  2: { intros e w' (_ & _ & ?). by apply at_neutral. }
  intros ? w1 Hw1. apply wp_bind, wp_uuid_New. intros u w2 Hk2. pose proof (keeps_at _ _ _ _ Hk2 Hw1) as Hw2.
  eapply wp_bind_post; [apply wp_wrap, wp_s_exec; statement| |].
  2: { intros e w' (_ & _ & Hk & _). apply at_neutral. exact (keeps_at _ _ _ _ Hk Hw2). }
  intros _ w3 (d & Hd & Hb). apply wp_ret. simpl. revert Hd. cbn [sp_ID]. rewrite uuid_arg_out.
  cbn -[storage_drivers pool_name_taken]. statement. intros [= <-].
  pose proof Hw2 as (Hc & HP & HV). destruct Hb as (Hp & Hv & _ & Hc').
  assert (Hnew : st_pools d0 !! u = None).
  { rewrite <-HP. apply eq_None_not_Some. by eapply bool_decide_eq_false_1. }
  eexists _, _. split; [split_and!; [auto|exact Hp|exact Hv]|]. cbn [st_vols st_pools on_pools]. intros u'.
  rewrite HP, HV. unfold slackPV. destruct (decide (u' = u)) as [->|Hne].
  - by rewrite lookup_insert_eq, Hnew.
  - by rewrite lookup_insert_ne by done.
Qed.

(** Deleting gives nothing back to the pool. *)
Lemma at_DeleteVolume id force w P V : at_ w P V →
  let w' := (DeleteVolume id force w).2 in
  at_ w' P V ∨ ∃ v, at_ w' P (delete v V).
Proof using Type*.
  intros Hw. assert (Hwp : wp (DeleteVolume id force) (λ _ w', at_ w' P V ∨ ∃ v, at_ w' P (delete v V)) w); [|done].
  unfold DeleteVolume. eapply wp_bind_post; [apply wp_wrap, wp_VolumeRepo_GetByID|..].
  2: { intros e w' (_ & _ & Hk). left. exact (keeps_at _ _ _ _ Hk Hw). }
  intros o w1 (Hk & u & Hu & _). pose proof (keeps_at _ _ _ _ Hk Hw) as Hw1.
  destruct o as [vol|]; [|apply wp_fail; by left].
  destruct (negb force && _); [apply wp_fail; by left|].
  eapply wp_bind_post; [apply (at_query _ _ P V); [by apply quiet_attempt|done]| |by left].
  intros x w2 Hw2. eapply wp_bind_post; [apply (at_query _ _ P V); [|done]| |by left].
  { destruct x as [[p|]|]; [apply quiet_ignore, quiet_os_Remove|apply quiet_ret..]. }
  intros ? w3 Hw3. eapply wp_mono; [by apply (at_vol_delete _ u _ P V)|].
  intros [] w4 Hw4; simpl in *; try done. right. eauto.
Qed.

Definition is_delete (rq : srequest) : bool := match rq with RqDeleteVolume _ _ => true | _ => false end.
Definition rq_size (rq : srequest) : Z :=
  match rq with RqCreateVolume req => cv_SizeBytes req | RqResizeVolume _ n => n | _ => 0 end.

Lemma neutral_slack {A B} (m : M SWorld A) (k : A → M SWorld B) d0 w :
  wp m (neutral_post (st_pools d0) (st_vols d0)) w → (∀ a w, (k a w).2 = w) →
  let w' := ((m ≫= k) w).2 in calm w' ∧ ∀ u, slack (s_db w') u = slack d0 u.
Proof using Type*.
  intros Hm Hk. unfold wp, neutral_post, post, mbind, M_bind in *.
  destruct (m w) as [[a|e|] w']; simpl in *; [rewrite Hk| |done];
    destruct Hm as (P' & V' & (? & HP & HV) & Hs); split; try done; intros u; unfold slack;
    rewrite HP, HV; apply Hs.
Qed.

Lemma fixes_slack {A} (m : M SWorld A) w : fixes m → calm w →
  calm (m w).2 ∧ ∀ u, slack (s_db (m w).2) u = slack (s_db w) u.
Proof using Type*.
  intros Hm Hc. destruct (Hm w _ _ ltac:(done)) as (? & HP & HV). split; [done|]. intros u. unfold slack.
  by rewrite HP, HV.
Qed.

Lemma sserve_slack rq w : wf (s_db w) → calm w → bounded (s_db w) → (∀ u, 0 ≤ slack (s_db w) u) →
  rq_size rq < 2 ^ 62 → is_delete rq = false →
  calm (sserve rq w).2 ∧ ∀ u, slack (s_db (sserve rq w).2) u = slack (s_db w) u.
Proof using Type*.
  intros Hwf Hc Hb Hs Hn Hd. assert (Hat : at_ w (st_pools (s_db w)) (st_vols (s_db w))) by done.
  destruct rq as [req|req|id force|id n|id name|v name|id|id|p v f]; try done; cbn [sserve rq_size] in *.
  - apply neutral_slack; [|done]. by apply at_CreatePool.
  - apply neutral_slack; [|done]. by apply at_CreateVolume.
  - apply neutral_slack; [|done]. by apply at_ResizeVolume.
  - apply neutral_slack; [|done]. by apply at_CloneVolume.
  - apply fixes_slack; [|done]. apply fixes_bind; [|intros; apply fixes_quiet, quiet_ret].
    by apply (fixes_snapshots "" v name "" (mkVolumeFilter "" 0 0)).
  - apply fixes_slack; [|done]. by apply (fixes_snapshots id "" "" "" (mkVolumeFilter "" 0 0)).
  - apply fixes_slack; [|done]. apply fixes_bind; [|intros; apply fixes_quiet, quiet_ret].
    by apply (fixes_snapshots id "" "" "" (mkVolumeFilter "" 0 0)).
  - apply fixes_slack; [|done]. by apply (fixes_snapshots "" v "" p f).
Qed.

Lemma sserve_delete_slack id force w : calm w → bounded (s_db w) →
  let w' := (sserve (RqDeleteVolume id force) w).2 in
  calm w' ∧ st_pools (s_db w') = st_pools (s_db w) ∧ ∀ u, slack (s_db w) u ≤ slack (s_db w') u.
Proof using Type*.
  intros Hc Hb. assert (Hat : at_ w (st_pools (s_db w)) (st_vols (s_db w))) by done.
  cbn [sserve]. destruct (at_DeleteVolume id force w _ _ Hat) as [(? & HP & HV)|(v & ? & HP & HV)]; cbv zeta in *;
    (split; [done|split; [done|]]); intros u; unfold slack; rewrite HP, HV; [lia|].
  unfold slackPV. destruct (st_vols (s_db w) !! v) as [r|] eqn:Hr; [|by rewrite delete_id].
  rewrite (vsum_delete (st_vols (s_db w)) v r) by done. pose proof (proj2 Hb v r Hr).
  unfold contrib. destruct (decide _); lia.
Qed.

(** ** The theorems *)

(** Requests one after the other: how each ended, and the world left. *)
Fixpoint sserve_all (rqs : list srequest) w : list (outcome ()) * SWorld :=
  match rqs with
  | [] => ([], w)
  | rq :: rqs' => let '(o, w1) := sserve rq w in
                  let '(os, w2) := sserve_all rqs' w1 in (o :: os, w2)
  end.

Lemma sserve_all_safe rqs w : wf (s_db w) →
  wf (s_db (sserve_all rqs w).2) ∧ Forall (λ o, o ≠ Panic) (sserve_all rqs w).1.
Proof using Type*.
  revert w. induction rqs as [|rq rqs IH]; intros w Hw; simpl; [by split|].
  pose proof (sserve_safe rq w Hw I) as Hs. unfold wp, wf_post, post in Hs.
  destruct (sserve rq w) as [o w1]. simpl in Hs.
  assert (wf (s_db w1) ∧ o ≠ Panic) as [Hw1 Ho] by (destruct o; by split).
  specialize (IH w1 Hw1). destruct (sserve_all rqs w1) as [os w2]. simpl in *. naive_solver.
Qed.

(** Whatever requests arrive and whatever statements and commands fail, no
    request of the storage service dereferences a nil pool or volume (their
    absence is not tested in four of the methods), and the tables keep their
    constraints: a volume has its pool, a snapshot its volume, pool names are
    unique and drivers known. *)
Theorem storage_never_panics rqs w : wf (s_db w) →
  wf (s_db (sserve_all rqs w).2) ∧ Forall (λ o, o ≠ Panic) (sserve_all rqs w).1.
Proof using Type*. apply sserve_all_safe. Qed.

(** C29: Let the constraints of the tables hold, no statement be refused, what
    the pools count and the sizes of the volumes and of the request be below
    [2 ^ 62] (beyond, the sums of the code overflow an [int64]), and no pool count
    less than it holds.  Then a request other than a deletion keeps what a pool
    counts as used in step with the sizes of its volumes, to the byte, whether it
    succeeds or its command fails; a deletion leaves the count alone.  So, under
    these bounds, a pool does not come to count less than it holds, and never gives
    back what is deleted. *)
Theorem used_bytes_accounted rq w :
  wf (s_db w) → calm w → bounded (s_db w) → (∀ u, 0 ≤ slack (s_db w) u) → rq_size rq < 2 ^ 62 →
  let d' := s_db (sserve rq w).2 in
  (is_delete rq = false → ∀ u, slack d' u = slack (s_db w) u) ∧
  (is_delete rq = true → st_pools d' = st_pools (s_db w)) ∧
  ∀ u, slack (s_db w) u ≤ slack d' u.
Proof using Type*.
  intros Hwf Hc Hb Hs Hn. cbv zeta. destruct (is_delete rq) eqn:Hd.
  - destruct rq as [| |id force| | | | | |]; try done.
    destruct (sserve_delete_slack id force w Hc Hb) as (_ & HP & Hle). by split_and!.
  - destruct (sserve_slack rq w Hwf Hc Hb Hs Hn Hd) as [_ Hsl]. split_and!; [done|done|].
    intros u. rewrite Hsl. lia.
Qed.

(** The check for space in [CreateVolume] never refuses anything: no request
    ever gives a pool a size, and a pool of size 0 passes the check whatever it
    already counts as used. *)
Theorem space_check_never_fires rqs w n u p : wf (s_db w) →
  st_pools (s_db (sserve_all rqs w).2) !! u = Some p → insufficient (pool_read u p) n = false.
Proof using Type*.
  intros Hw Hp. destruct (sserve_all_safe rqs w Hw) as [Hw' _].
  unfold insufficient. cbn [sp_TotalBytes pool_read]. rewrite (wf_total _ Hw' u p Hp). by rewrite andb_false_r.
Qed.

End proofs.
