(* ===== verification/StorageWitnesses.v ===== *)
(** The hypotheses of the theorems about the storage service hold at concrete
    inputs, over the UUIDs of [Witnesses]. *)
From stdpp Require Import base gmap strings list numbers.
From S2P Require Import Prelude.
From S2P Require Import PgControl.
From S2P Require Import Witnesses.
From S2P Require Import Qcow2.
From S2P Require Import Storage.
From S2P Require Import StorageProofs.
From stdpp Require Import options.

(** Any answer of [qemu-img info] names the format. *)
#[export] Instance info_qcow2 : InfoJSON := λ _, Some "qcow2".

Definition tp : text := mkText "p" I.
Definition tv : text := mkText "v" I.
Definition pool1 : StoragePool := mkPool "" "fast" "qcow2" "/pool" 0 4096 false ∅ 1 1.
Definition vol1 : Volume := mkVolume "" "disk" "" 4096 0 VolumeStatusAvailable false ∅ [] 2 2.
Definition sdb1 : SDB (U:=text) := mkSDB {[tp := pool1]} {[tv := mkVolRow tp vol1]} ∅ 3.
(** No statement is refused; the third command on the host fails. *)
Definition sw1 : SWorld (U:=text) := mkSWorld sdb1 [] [] [("", None); ("", None); ("no space left", Some "exit status 1")] ∅.
Definition rqs1 : list srequest :=
  [RqResizeVolume "v" 8192; RqCloneVolume "v" "copy"; RqCreateSnapshot "v" "s1";
   RqCreateVolume (mkCreateVolume "d2" "p" 1024 false None); RqDeleteVolume "v" false].

Lemma sdb1_wf : wf sdb1.
Proof.
  split; simpl.
  - intros u r [<- <-]%lookup_singleton_Some. simpl. rewrite lookup_singleton_eq. eauto.
  - intros u r Hr. by rewrite lookup_empty in Hr.
  - intros u1 u2 p1 p2 [<- <-]%lookup_singleton_Some [<- <-]%lookup_singleton_Some. done.
  - by intros u p [<- <-]%lookup_singleton_Some.
  - by intros u p [<- <-]%lookup_singleton_Some.
Qed.

Lemma sdb1_slack u : slack sdb1 u = 0%Z.
Proof.
  unfold slack, slackPV, sdb1. cbn [st_pools st_vols]. rewrite <-(insert_empty tv), vsum_insert by done.
  unfold contrib. cbn [vo_pool vo_val]. destruct (decide (tp = u)) as [<-|Hne].
  - by rewrite lookup_singleton_eq.
  - by rewrite lookup_singleton_ne by done.
Qed.

Lemma storage_safe_witness :
  map (λ o : outcome (), match o with Ret _ => true | _ => false end) (sserve_all rqs1 sw1).1
    = [true; false; true; true; true] ∧
  wf (s_db (sserve_all rqs1 sw1).2) ∧ Forall (λ o, o ≠ Panic) (sserve_all rqs1 sw1).1.
Proof. split; [vm_compute; reflexivity|]. apply storage_never_panics. apply sdb1_wf. Defined.

Lemma accounted_witness :
  let d' := s_db (sserve (RqResizeVolume "v" 8192) sw1).2 in
  (sp_UsedBytes <$> st_pools d' !! tp) = Some 8192%Z ∧
  (is_delete (RqResizeVolume "v" 8192) = false → ∀ u, slack d' u = slack (s_db sw1) u) ∧
  (is_delete (RqResizeVolume "v" 8192) = true → st_pools d' = st_pools (s_db sw1)) ∧
  ∀ u, (slack (s_db sw1) u ≤ slack d' u)%Z.
Proof.
  split; [vm_compute; reflexivity|]. apply used_bytes_accounted.
  - apply sdb1_wf.
  - reflexivity.
  - split; simpl.
    + intros u p Hp. apply lookup_singleton_Some in Hp as [_ <-]. simpl. lia.
    + intros u r Hr. apply lookup_singleton_Some in Hr as [_ <-]. simpl. lia.
  - intros u. change (s_db sw1) with sdb1. pose proof (sdb1_slack u). lia.
  - simpl. lia.
Defined.

Lemma space_check_witness :
  insufficient (pool_read tp (mkPool "" "fast" "qcow2" "/pool" 0 9216 false ∅ 1 24)) (2 ^ 62) = false.
Proof.
  apply (space_check_never_fires rqs1 sw1 (2 ^ 62) tp).
  - apply sdb1_wf.
  - vm_compute. reflexivity.
Defined.
