(* ===== verification/Network.v ===== *)
(** The network service ([services/network/service.go]) over its PostgreSQL
    repositories ([services/network/postgres/*.go], tables of
    [migrations/network]): networks with their subnets and firewall rules, and
    floating addresses.

    The text an [inet] column is read back as is the parameter [inet_in] of
    [PgControl]; the operator [<<=] on [inet] is a parameter here. *)
From stdpp Require Import base gmap strings list numbers pretty.
From S2P Require Import Prelude.
From S2P Require Import GoStd.
From S2P Require Import GoNet.
From S2P Require Import Ipam.
From S2P Require Import Domain.
From S2P Require Import Interfaces.
From S2P Require Import PgControl.
From stdpp Require Import options.

(** * Data *)
Definition NetworkTypePrivate : string := "private".

Record Subnet := mkSubnet {
  sub_ID : string;
  sub_Name : string;
  sub_NetworkID : string;
  sub_CIDR : string;
  sub_IPv6CIDR : option string;
  sub_DHCPEnabled : bool;
  sub_GatewayIP : option string;
  sub_CreatedAt : Z;
}.

Record FirewallRule := mkRule {
  fw_ID : string;
  fw_Name : string;
  fw_NetworkID : string;
  fw_Priority : Z;
  fw_Action : string;
  fw_Direction : string;
  fw_SourceCIDRs : option (list string);
  fw_DestinationCIDRs : option (list string);
  fw_Protocol : string;
  fw_PortMin : option Z;
  fw_PortMax : option Z;
  fw_Enabled : bool;
  fw_CreatedAt : Z;
}.

Record PrivateNetwork := mkNetwork {
  pn_ID : string;
  pn_Name : string;
  pn_OrganizationID : string;
  pn_VpcID : option string;
  pn_Type : string;
  pn_CIDR : string;
  pn_IPv6CIDR : option string;
  pn_InternetGateway : bool;
  pn_Labels : gmap string string;
  pn_Subnets : list Subnet;
  pn_FirewallRules : list FirewallRule;
  pn_CreatedAt : Z;
  pn_UpdatedAt : Z;
}.

Record FloatingIP := mkFloating {
  fip_ID : string;
  fip_IPAddress : string;
  fip_NetworkID : option string;
  fip_VMID : option string;
  fip_OrganizationID : string;
  fip_CreatedAt : Z;
}.

Record NetworkFilter := mkNetFilter { ntf_OrganizationID : string; ntf_Page : Z; ntf_PerPage : Z }.

Record CreateNetworkRequest := mkCreateNetwork {
  cn_Name : string; cn_OrganizationID : string; cn_CIDR : string; cn_IPv6CIDR : string;
  cn_InternetGateway : bool;
}.

Record CreateFirewallRuleRequest := mkCreateRule {
  cf_NetworkID : string;
  cf_Name : string;
  cf_Priority : Z;
  cf_Action : string;
  cf_Direction : string;
  cf_SourceCIDRs : option (list string);
  cf_DestinationCIDRs : option (list string);
  cf_Protocol : string;
  cf_PortMin : option Z;
  cf_PortMax : option Z;
}.

(** [λ a, a <<= b::cidr] on the texts of values; [None]: [b] is not a [cidr]. *)
Class InetWithin := cidr_contains : string → option (string → bool).

Section network.
Context {U : Type} `{Pg U} `{InetWithin}.

(** * The database: the columns that refer to other rows are typed *)
Record nsub_row := mkNSubRow { ns_net : U; ns_val : Subnet }.
Record nrule_row := mkNRuleRow { nr_net : U; nr_val : FirewallRule }.
Record nnet_row := mkNNetRow { nn_org : U; nn_vpc : option U; nn_val : PrivateNetwork }.
Record fip_row := mkFipRow { fr_net : option U; fr_vm : option U; fr_org : U; fr_addr : string; fr_created : Z }.

Record NDB := mkNDB {
  nt_nets : gmap U nnet_row;
  nt_subs : gmap U nsub_row;
  nt_rules : gmap U nrule_row;
  nt_fips : gmap U fip_row;
  nt_now : Z;
}.

Record NWorld := mkNWorld { n_db : NDB; n_faults : list (option string); n_ids : gset string }.

Definition with_ndb (d : NDB) (w : NWorld) : NWorld := mkNWorld d (drop 1 (n_faults w)) (n_ids w).

Definition n_stmt {A} (f : NDB → outcome (A * NDB)) : M NWorld A := λ w,
  match n_faults w with
  | Some e :: _ => (Err e, with_ndb (n_db w) w)
  | _ => match f (n_db w) with
         | Ret (a, d) => (Ret a, with_ndb (mkNDB (nt_nets d) (nt_subs d) (nt_rules d) (nt_fips d) (nt_now d + 1)) w)
         | Err e => (Err e, with_ndb (n_db w) w)
         | Panic => (Panic, with_ndb (n_db w) w)
         end
  end.
Definition n_query {A} (f : NDB → outcome A) : M NWorld A := n_stmt (λ d, a ← f d; mret (a, d)).
Definition n_exec (f : NDB → outcome NDB) : M NWorld () := n_stmt (λ d, d' ← f d; mret ((), d')).

Definition on_nets f (d : NDB) : NDB := mkNDB (f (nt_nets d)) (nt_subs d) (nt_rules d) (nt_fips d) (nt_now d).
Definition on_subs f (d : NDB) : NDB := mkNDB (nt_nets d) (f (nt_subs d)) (nt_rules d) (nt_fips d) (nt_now d).
Definition on_rules f (d : NDB) : NDB := mkNDB (nt_nets d) (nt_subs d) (f (nt_rules d)) (nt_fips d) (nt_now d).
Definition on_fips f (d : NDB) : NDB := mkNDB (nt_nets d) (nt_subs d) (nt_rules d) (f (nt_fips d)) (nt_now d).

Definition n_uuid_New : M NWorld string := λ w,
  let id := uuid_out (uuid_new (n_ids w)) in
  (Ret id, mkNWorld (n_db w) (n_faults w) ({[id]} ∪ n_ids w)).

(** [$n::inet] *)
Definition inet_arg (s : string) : outcome string :=
  match inet_in s with
  | Some c => Ret c
  | None => Err (sql_error ("invalid input syntax for type inet: " +:+ Quote s) "22P02")
  end.
Definition inet_opt (s : option string) : outcome (option string) :=
  match s with None => Ret None | Some s => c ← inet_arg s; Ret (Some c) end.
Definition inet_list (s : option (list string)) : outcome (option (list string)) :=
  match s with None => Ret None | Some l => c ← inet_args l; Ret (Some c) end.
(** [NULLIF($n, '')::uuid] for a column that is [NOT NULL]. *)
Definition uuid_required (column s : string) : outcome U :=
  if String.eqb s "" then Err (sql_error ("null value in column " +:+ Quote column
                                          +:+ " violates not-null constraint") "23502")
  else uuid_arg s.

(** * SubnetRepository *)
Definition sub_read (u : U) (r : nsub_row) : Subnet :=
  let s := ns_val r in
  mkSubnet (uuid_out u) (sub_Name s) (uuid_out (ns_net r)) (sub_CIDR s) (sub_IPv6CIDR s)
    (sub_DHCPEnabled s) (sub_GatewayIP s) (sub_CreatedAt s).

Definition SubnetRepo_Create (s : Subnet) : M NWorld () := n_exec (λ d,
  u ← uuid_arg (sub_ID s);
  net ← uuid_arg (sub_NetworkID s);
  cidr ← inet_arg (sub_CIDR s);
  cidr6 ← inet_opt (sub_IPv6CIDR s);
  gw ← inet_opt (sub_GatewayIP s);
  if bool_decide (is_Some (nt_subs d !! u)) then Err (dup_error "subnets_pkey")
  else if bool_decide (nt_nets d !! net = None) then Err (fk_error "subnets" "subnets_network_id_fkey")
  else Ret (on_subs <[u := mkNSubRow net (mkSubnet "" (sub_Name s) "" cidr cidr6 (sub_DHCPEnabled s) gw (nt_now d))]> d)).

Definition SubnetRepo_GetByID (id : string) : M NWorld (option Subnet) := n_query (λ d,
  u ← uuid_arg id; Ret (sub_read u <$> nt_subs d !! u)).

Definition q_subnets (networkID : string) (d : NDB) : outcome (list Subnet) :=
  net ← uuid_arg networkID;
  Ret ((λ r, sub_read r.1 r.2) <$>
       List.filter (λ r, bool_decide (ns_net r.2 = net)) (map_to_list (nt_subs d))).

Definition SubnetRepo_ListByNetwork (networkID : string) : M NWorld (list Subnet) :=
  l ← n_query (q_subnets networkID);
  _ ← n_query (λ _, Ret ());
  mret l.

Definition SubnetRepo_Delete (id : string) : M NWorld () := n_exec (λ d,
  u ← uuid_arg id; Ret (on_subs (delete u) d)).

(** * FirewallRepository *)
Definition rule_read (u : U) (r : nrule_row) : FirewallRule :=
  let f := nr_val r in
  mkRule (uuid_out u) (fw_Name f) (uuid_out (nr_net r)) (fw_Priority f) (fw_Action f) (fw_Direction f)
    (fw_SourceCIDRs f) (fw_DestinationCIDRs f) (fw_Protocol f) (fw_PortMin f) (fw_PortMax f)
    (fw_Enabled f) (fw_CreatedAt f).

Definition firewall_actions : list string := ["allow"; "deny"].
Definition firewall_directions : list string := ["ingress"; "egress"].

Definition FirewallRepo_Create (f : FirewallRule) : M NWorld () := n_exec (λ d,
  u ← uuid_arg (fw_ID f);
  net ← uuid_arg (fw_NetworkID f);
  src ← inet_list (fw_SourceCIDRs f);
  dst ← inet_list (fw_DestinationCIDRs f);
  if negb (existsb (String.eqb (fw_Action f)) firewall_actions) then Err (enum_error "firewall_action" (fw_Action f))
  else if negb (existsb (String.eqb (fw_Direction f)) firewall_directions)
  then Err (enum_error "firewall_direction" (fw_Direction f))
  else if bool_decide (is_Some (nt_rules d !! u)) then Err (dup_error "firewall_rules_pkey")
  else if bool_decide (nt_nets d !! net = None) then Err (fk_error "firewall_rules" "firewall_rules_network_id_fkey")
  else Ret (on_rules <[u := mkNRuleRow net (mkRule "" (fw_Name f) "" (fw_Priority f) (fw_Action f) (fw_Direction f)
              src dst (fw_Protocol f) (fw_PortMin f) (fw_PortMax f) (fw_Enabled f) (nt_now d))]> d)).

Definition FirewallRepo_GetByID (id : string) : M NWorld (option FirewallRule) := n_query (λ d,
  u ← uuid_arg id; Ret (rule_read u <$> nt_rules d !! u)).

Definition q_rules (networkID : string) (d : NDB) : outcome (list FirewallRule) :=
  net ← uuid_arg networkID;
  Ret ((λ r, rule_read r.1 r.2) <$>
       List.filter (λ r, bool_decide (nr_net r.2 = net)) (map_to_list (nt_rules d))).

Definition FirewallRepo_ListByNetwork (networkID : string) : M NWorld (list FirewallRule) :=
  l ← n_query (q_rules networkID);
  _ ← n_query (λ _, Ret ());
  mret l.

Definition FirewallRepo_Delete (id : string) : M NWorld () := n_exec (λ d,
  u ← uuid_arg id; Ret (on_rules (delete u) d)).

(** * NetworkRepository *)
Definition net_read (u : U) (r : nnet_row) : PrivateNetwork :=
  let n := nn_val r in
  mkNetwork (uuid_out u) (pn_Name n) (uuid_out (nn_org r)) (uuid_out <$> nn_vpc r) (pn_Type n) (pn_CIDR n)
    (pn_IPv6CIDR n) (pn_InternetGateway n) (pn_Labels n) [] [] (pn_CreatedAt n) (pn_UpdatedAt n).
Definition net_set_related (subs : list Subnet) (rules : list FirewallRule) (n : PrivateNetwork) : PrivateNetwork :=
  mkNetwork (pn_ID n) (pn_Name n) (pn_OrganizationID n) (pn_VpcID n) (pn_Type n) (pn_CIDR n) (pn_IPv6CIDR n)
    (pn_InternetGateway n) (pn_Labels n) subs rules (pn_CreatedAt n) (pn_UpdatedAt n).

Definition network_types : list string := ["private"; "public"].

Definition NetworkRepo_Create (n : PrivateNetwork) : M NWorld () := n_exec (λ d,
  u ← uuid_arg (pn_ID n);
  org ← uuid_required "organization_id" (pn_OrganizationID n);
  vpc ← uuid_opt (pn_VpcID n);
  cidr ← inet_arg (pn_CIDR n);
  cidr6 ← inet_opt (pn_IPv6CIDR n);
  if negb (existsb (String.eqb (pn_Type n)) network_types) then Err (enum_error "network_type" (pn_Type n))
  else if bool_decide (is_Some (nt_nets d !! u)) then Err (dup_error "private_networks_pkey")
  else Ret (on_nets <[u := mkNNetRow org vpc (mkNetwork "" (pn_Name n) "" None (pn_Type n) cidr cidr6
              (pn_InternetGateway n) (pn_Labels n) [] [] (nt_now d) (nt_now d))]> d)).

Definition n_listSubnets (networkID : string) : M NWorld (list Subnet) :=
  l ← n_query (q_subnets networkID);
  _ ← n_query (λ _, Ret ());
  mret l.
Definition n_listFirewallRules (networkID : string) : M NWorld (list FirewallRule) :=
  l ← n_query (q_rules networkID);
  _ ← n_query (λ _, Ret ());
  mret l.

Definition NetworkRepo_GetByID (id : string) : M NWorld (option PrivateNetwork) :=
  net ← n_query (λ d, u ← uuid_arg id; Ret (net_read u <$> nt_nets d !! u));
  match net with
  | None => mret None
  | Some net =>
      subnets ← n_listSubnets id;
      rules ← n_listFirewallRules id;
      mret (Some (net_set_related subnets rules net))
  end.

Definition q_net_matching (f : NetworkFilter) (d : NDB) : outcome (list (U * nnet_row)) :=
  if String.eqb (ntf_OrganizationID f) "" then Ret (map_to_list (nt_nets d))
  else org ← uuid_arg (ntf_OrganizationID f);
       Ret (List.filter (λ r, bool_decide (nn_org r.2 = org)) (map_to_list (nt_nets d))).

Definition NetworkRepo_List (f : NetworkFilter) : M NWorld (list PrivateNetwork * Z) :=
  total ← n_query (λ d, l ← q_net_matching f d; Ret (Z.of_nat (length l)));
  nets ← n_query (λ d, l ← q_net_matching f d;
           page_slice (ntf_Page f) (ntf_PerPage f)
             ((λ r, net_read r.1 r.2) <$> newest_first (λ r, pn_CreatedAt (nn_val r.2)) l));
  _ ← n_query (λ _, Ret ());
  mret (nets, total).

(** [DELETE]: subnets and rules cascade, floating addresses lose the network. *)
Definition NetworkRepo_Delete (id : string) : M NWorld () := n_exec (λ d,
  u ← uuid_arg id;
  Ret (mkNDB (delete u (nt_nets d))
         (filter (λ r, ns_net r.2 ≠ u) (nt_subs d))
         (filter (λ r, nr_net r.2 ≠ u) (nt_rules d))
         ((λ r, mkFipRow (if bool_decide (fr_net r = Some u) then None else fr_net r)
                  (fr_vm r) (fr_org r) (fr_addr r) (fr_created r)) <$> nt_fips d)
         (nt_now d))).

(** * FloatingIPRepository *)
Definition fip_read (u : U) (r : fip_row) : FloatingIP :=
  mkFloating (uuid_out u) (fr_addr r) (uuid_out <$> fr_net r) (uuid_out <$> fr_vm r) (uuid_out (fr_org r)) (fr_created r).

(** Arguments of type [*string]: [NULLIF] of a nil pointer is NULL too. *)
Definition FloatingRepo_Allocate (ip : FloatingIP) : M NWorld () := n_exec (λ d,
  u ← uuid_arg (fip_ID ip);
  addr ← inet_arg (fip_IPAddress ip);
  net ← uuid_nullif (default "" (fip_NetworkID ip));
  vm ← uuid_nullif (default "" (fip_VMID ip));
  org ← uuid_required "organization_id" (fip_OrganizationID ip);
  if bool_decide (is_Some (nt_fips d !! u)) then Err (dup_error "floating_ips_pkey")
  else if existsb (λ r, String.eqb (fr_addr r.2) addr) (map_to_list (nt_fips d))
  then Err (dup_error "floating_ips_ip_address_key")
  else if fk_broken (nt_nets d) net then Err (fk_error "floating_ips" "floating_ips_network_id_fkey")
  else Ret (on_fips <[u := mkFipRow net vm org addr (nt_now d)]> d)).

Definition FloatingRepo_Release (id : string) : M NWorld () := n_exec (λ d,
  u ← uuid_arg id; Ret (on_fips (delete u) d)).

(** The argument [organizationID] is not used. *)
Definition FloatingRepo_List (organizationID : string) : M NWorld (list FloatingIP) :=
  l ← n_query (λ d, Ret ((λ r, fip_read r.1 r.2) <$> newest_first (λ r, fr_created r.2) (map_to_list (nt_fips d))));
  _ ← n_query (λ _, Ret ());
  mret l.

(** The query of [FindAvailableIP]. *)
Definition q_used_fips (networkCIDR organizationID : string) (d : NDB) : outcome (list string) :=
  match cidr_contains networkCIDR with
  | None => Err (sql_error ("invalid input syntax for type cidr: " +:+ Quote networkCIDR) "22P02")
  | Some within =>
      let l := List.filter (λ r, within (fr_addr r)) (snd <$> map_to_list (nt_fips d)) in
      if String.eqb organizationID "" then Ret (fr_addr <$> l)
      else org ← uuid_arg organizationID;
           Ret (fr_addr <$> List.filter (λ r, bool_decide (fr_org r = org)) l)
  end.

(** Lines 97-111: an address of the query as the loop records it. *)
Definition fip_used_addr (ipAddr : string) : option Z :=
  let ipStr := if Strings.Contains ipAddr "/"
               then match ParseCIDR ipAddr with Some (parsed, _) => String_IP parsed | None => ipAddr end
               else ipAddr in
  match ParseIP ipStr with
  | Some ip => v4 ← To4 ip; Some (Uint32 v4)
  | None => match ParseCIDR ipAddr with
            | Some (ip, _) => v4 ← To4 ip; Some (Uint32 v4)
            | None => None
            end
  end.

Definition FindAvailableIP (networkCIDR organizationID : string) : M NWorld string :=
  match ParseCIDR networkCIDR with
  | None => fail ("invalid CIDR: " +:+ ParseCIDR_error networkCIDR)
  | Some (_, ipNet) =>
      match To4 (n_IP ipNet) with
      | None => fail ("only IPv4 CIDR supported, got " +:+ Quote networkCIDR)
      | Some ip4 =>
          let mask := Uint32 (n_Mask ipNet) in
          let network := Uint32 ip4 in
          let broadcast := Z.lor network (not32 mask) in
          if (uint32 (broadcast - network) <=? 2)%Z
          then fail ("no available IPs in network " +:+ networkCIDR +:+ " (prefix too small)")
          else
            let gwInt := uint32 (network + 1) in
            used ← n_query (q_used_fips networkCIDR organizationID);
            _ ← n_query (λ _, Ret ());
            let usedSet := {[broadcast]} ∪ ({[gwInt]} ∪ ({[network]} ∪ list_to_set (omap fip_used_addr used))) in
            let start := uint32 (network + 2) in
            match search ipNet usedSet (Z.to_nat (broadcast - start)) start with
            | Some candidate => mret (String_IP (PutUint32 candidate))
            | None => fail ("no available IPs in network " +:+ networkCIDR)
            end
      end
  end.

(** * The service *)
Definition CreateNetwork (req : CreateNetworkRequest) : M NWorld PrivateNetwork :=
  if String.eqb (cn_Name req) "" then fail "name is required"
  else if String.eqb (cn_CIDR req) "" then fail "cidr is required"
  else match ParseCIDR (cn_CIDR req) with
  | None => fail ("invalid CIDR: " +:+ ParseCIDR_error (cn_CIDR req))
  | Some _ =>
      let org := if String.eqb (cn_OrganizationID req) "" then "00000000-0000-0000-0000-000000000000"
                 else cn_OrganizationID req in
      id ← n_uuid_New;
      ipv6 ← (if String.eqb (cn_IPv6CIDR req) "" then mret None
              else match ParseCIDR (cn_IPv6CIDR req) with
                   | None => fail ("invalid IPv6 CIDR: " +:+ ParseCIDR_error (cn_IPv6CIDR req))
                   | Some _ => mret (Some (cn_IPv6CIDR req))
                   end);
      let network := mkNetwork id (cn_Name req) org None NetworkTypePrivate (cn_CIDR req) ipv6
                       (cn_InternetGateway req) ∅ [] [] 0 0 in
      _ ← wrap "create network" (NetworkRepo_Create network);
      sid ← n_uuid_New;
      let defaultSubnet := mkSubnet sid (cn_Name req +:+ "-default") id (cn_CIDR req) None true None 0 in
      _ ← wrap "create default subnet" (SubnetRepo_Create defaultSubnet);
      mret (net_set_related [defaultSubnet] [] network)
  end.

Definition GetNetwork (id : string) : M NWorld PrivateNetwork :=
  network ← wrap "get network" (NetworkRepo_GetByID id);
  match network with
  | None => fail "network not found"
  | Some network => mret network
  end.

Definition ListNetworks (f : NetworkFilter) : M NWorld (list PrivateNetwork * Z) :=
  NetworkRepo_List (mkNetFilter (ntf_OrganizationID f)
    (if (ntf_Page f <=? 0)%Z then 1%Z else ntf_Page f)
    (if (ntf_PerPage f <=? 0)%Z then 20%Z else ntf_PerPage f)).

Definition DeleteNetwork (id : string) : M NWorld () :=
  network ← wrap "get network" (NetworkRepo_GetByID id);
  match network with
  | None => fail "network not found"
  | Some _ =>
      subnets ← wrap "list subnets" (SubnetRepo_ListByNetwork id);
      _ ← iterM (λ sub, if negb (String.eqb (sub_ID sub) "") then ignore (SubnetRepo_Delete (sub_ID sub))
                        else mret ()) subnets;
      NetworkRepo_Delete id
  end.

Definition CreateSubnet (networkID name cidr : string) (dhcp : bool) : M NWorld Subnet :=
  if String.eqb networkID "" then fail "network_id is required"
  else if String.eqb name "" then fail "name is required"
  else if String.eqb cidr "" then fail "cidr is required"
  else
    parentNet ← wrap "get network" (NetworkRepo_GetByID networkID);
    match parentNet with
    | None => fail "network not found"
    | Some parentNet =>
        match ParseCIDR cidr with
        | None => fail ("invalid CIDR: " +:+ ParseCIDR_error cidr)
        | Some (_, subnetNet) =>
            match ParseCIDR (pn_CIDR parentNet) with
            | None => fail ("invalid parent CIDR: " +:+ ParseCIDR_error (pn_CIDR parentNet))
            | Some (_, parentIPNet) =>
                if negb (Contains parentIPNet (n_IP subnetNet))
                then fail "subnet CIDR must be within network CIDR"
                else
                  id ← n_uuid_New;
                  let subnet := mkSubnet id name networkID cidr None dhcp None 0 in
                  _ ← wrap "create subnet" (SubnetRepo_Create subnet);
                  mret subnet
            end
        end
    end.

Definition DeleteSubnet (id : string) : M NWorld () :=
  subnet ← wrap "get subnet" (SubnetRepo_GetByID id);
  match subnet with
  | None => fail "subnet not found"
  | Some _ => SubnetRepo_Delete id
  end.

Definition CreateFirewallRule (req : CreateFirewallRuleRequest) : M NWorld FirewallRule :=
  if String.eqb (cf_NetworkID req) "" then fail "network_id is required"
  else if String.eqb (cf_Name req) "" then fail "name is required"
  else
    let action := if String.eqb (cf_Action req) "" then "allow" else cf_Action req in
    let direction := if String.eqb (cf_Direction req) "" then "ingress" else cf_Direction req in
    let protocol := if String.eqb (cf_Protocol req) "" then "any" else cf_Protocol req in
    _ ← match cf_PortMin req, cf_PortMax req with
        | Some pmin, Some pmax =>
            if (pmin <? 1)%Z || (65535 <? pmax)%Z then fail "port range must be 1-65535"
            else if (pmax <? pmin)%Z then fail "port_min must be <= port_max"
            else mret ()
        | _, _ => mret ()
        end;
    id ← n_uuid_New;
    let rule := mkRule id (cf_Name req) (cf_NetworkID req)
                  (if (cf_Priority req =? 0)%Z then 100%Z else cf_Priority req) action direction
                  (cf_SourceCIDRs req) (cf_DestinationCIDRs req) protocol (cf_PortMin req) (cf_PortMax req) true 0 in
    _ ← wrap "create firewall rule" (FirewallRepo_Create rule);
    mret rule.

Definition DeleteFirewallRule (id : string) : M NWorld () :=
  rule ← wrap "get firewall rule" (FirewallRepo_GetByID id);
  match rule with
  | None => fail "firewall rule not found"
  | Some _ => FirewallRepo_Delete id
  end.

Definition AllocateFloatingIP (networkID vmID : string) : M NWorld FloatingIP :=
  if String.eqb networkID "" then fail "network_id is required"
  else
    network ← wrap "get network" (NetworkRepo_GetByID networkID);
    match network with
    | None => fail "network not found"
    | Some network =>
        ipAddr ← wrap "find available IP" (FindAvailableIP (pn_CIDR network) (pn_OrganizationID network));
        id ← n_uuid_New;
        let fip := mkFloating id ipAddr (Some networkID) (Some vmID) (pn_OrganizationID network) 0 in
        _ ← wrap "allocate floating IP" (FloatingRepo_Allocate fip);
        mret fip
    end.

Definition ReleaseFloatingIP (id : string) : M NWorld () := FloatingRepo_Release id.
Definition ListFloatingIPs : M NWorld (list FloatingIP) := FloatingRepo_List "".

End network.
