(* ===== verification/NetworkProofs.v ===== *)
(** What the network service guarantees (see [Network] for the model): the
    constraints of its tables, the address [FindAvailableIP] picks, and what a
    deletion removes. *)
From stdpp Require Import base gmap strings list numbers pretty fin_maps.
From S2P Require Import Prelude.
From S2P Require Import GoStd.
From S2P Require Import GoNet.
From S2P Require Import Ipam.
From S2P Require Import PgControl.
From S2P Require Import Network.
From stdpp Require Import options.

Section proofs.
Context {U : Type} `{PgLaws U} `{InetWithin}.
Implicit Types (w : NWorld (U:=U)) (d : NDB (U:=U)).

Definition ncalm w : Prop := n_faults w = [].

Definition nsame d d' : Prop :=
  nt_nets d' = nt_nets d ∧ nt_subs d' = nt_subs d ∧ nt_rules d' = nt_rules d ∧ nt_fips d' = nt_fips d.
Definition nkeeps w w' : Prop := nsame (n_db w) (n_db w') ∧ (ncalm w → ncalm w').

#[global] Instance nsame_preorder : PreOrder nsame.
Proof. split; [done|]. intros a b c (?&?&?&?) (?&?&?&?). unfold nsame. split_and!; congruence. Qed.
#[global] Instance nkeeps_preorder : PreOrder nkeeps.
Proof.
  split; [done|]. intros a b c [? ?] [? ?]. split; [by transitivity (n_db b)|auto].
Qed.

(** ** Statements *)
Lemma wp_n_query {A} (f : NDB → outcome A) w : f (n_db w) ≠ Panic →
  wp (n_query f) (post (λ a w', f (n_db w) = Ret a ∧ nkeeps w w')
                       (λ e w', nkeeps w w' ∧ (ncalm w → f (n_db w) = Err e))) w.
Proof using Type.
  intros Hp. unfold wp, n_query, n_stmt, nkeeps, nsame, ncalm.
  destruct (n_faults w) as [|[e|] fs] eqn:E; simpl.
  - destruct (f (n_db w)); simpl; rewrite ?E; [by split_and!|by split_and!|done].
  - rewrite E. by split_and!.
  - destruct (f (n_db w)); simpl; rewrite ?E; [by split_and!|by split_and!|done].
Qed.

Lemma wp_n_exec (f : NDB → outcome NDB) w : f (n_db w) ≠ Panic →
  wp (n_exec f) (post (λ _ w', ∃ d, f (n_db w) = Ret d ∧ nsame d (n_db w') ∧ (ncalm w → ncalm w'))
                      (λ e w', nkeeps w w' ∧ (ncalm w → f (n_db w) = Err e))) w.
Proof using Type.
  intros Hp. unfold wp, n_exec, n_stmt, nkeeps, nsame, ncalm.
  destruct (n_faults w) as [|[e|] fs] eqn:E; simpl.
  - destruct (f (n_db w)); simpl; rewrite ?E; [eexists; by split_and!|by split_and!|done].
  - rewrite E. by split_and!.
  - destruct (f (n_db w)); simpl; rewrite ?E; [eexists; by split_and!|by split_and!|done].
Qed.

Lemma wp_n_uuid_New w Q : (∀ u w', nkeeps w w' → Q (Ret (uuid_out u)) w') → wp n_uuid_New Q w.
Proof using Type. intros HQ. apply HQ. unfold nkeeps, nsame, ncalm. by split_and!. Qed.

(** Computations that only read. *)
Definition nquiet {A} (m : M NWorld A) : Prop :=
  ∀ w, wp m (post (λ _ w', nkeeps w w') (λ _ w', nkeeps w w')) w.

Lemma nquiet_ret {A} (a : A) : nquiet (mret a).
Proof using Type. intros w. apply wp_ret. simpl. done. Qed.
Lemma nquiet_fail {A} e : nquiet (fail e : M NWorld A).
Proof using Type. intros w. apply wp_fail. simpl. done. Qed.
Lemma nquiet_bind {A B} (m : M NWorld A) (k : A → M NWorld B) : nquiet m → (∀ a, nquiet (k a)) → nquiet (m ≫= k).
Proof using Type.
  intros Hm Hk w. eapply wp_bind_post; [apply Hm| |done].
  intros a w' Hw. eapply wp_post; [apply Hk|..]; simpl; intros ?? Hw'; exact (transitivity Hw Hw').
Qed.
Lemma nquiet_wrap {A} ctx (m : M NWorld A) : nquiet m → nquiet (wrap ctx m).
Proof using Type. intros Hm w. eapply wp_post; [apply wp_wrap, Hm|done|]. by intros e w' (?&?&?). Qed.
Lemma nquiet_uuid_New : nquiet n_uuid_New.
Proof using Type. intros w. by apply wp_n_uuid_New. Qed.
Lemma nquiet_query {A} (f : NDB → outcome A) : (∀ d, f d ≠ Panic) → nquiet (n_query f).
Proof using Type.
  intros Hf w. eapply wp_post; [by apply wp_n_query|by intros ?? [_ ?]|by intros ?? [? _]].
Qed.

Lemma n_uuid_arg_no_panic s : uuid_arg s ≠ Panic.
Proof using Type. unfold uuid_arg. by destruct (uuid_in s). Qed.

(** Conversions fail or give a value. *)
Lemma conversions_no_panic s so sl c :
  inet_arg s ≠ Panic ∧ inet_opt so ≠ Panic ∧ inet_list sl ≠ Panic ∧ uuid_required c s ≠ Panic ∧
  uuid_nullif s ≠ Panic ∧ uuid_opt so ≠ Panic.
Proof using Type.
  assert (Ha : ∀ s, inet_arg s ≠ Panic) by (intros t; unfold inet_arg; by destruct (inet_in t)).
  assert (Hl : ∀ l, inet_args l ≠ Panic).
  { intros l. induction l as [|t l IH]; simpl; [done|]. destruct (inet_in t); [|done]. by destruct (inet_args l). }
  pose proof (n_uuid_arg_no_panic s). split_and!.
  - apply Ha.
  - destruct so as [t|]; simpl; [|done]. pose proof (Ha t). by destruct (inet_arg t).
  - destruct sl as [l|]; simpl; [|done]. pose proof (Hl l). by destruct (inet_args l).
  - unfold uuid_required. by destruct (String.eqb _ _).
  - unfold uuid_nullif. destruct (String.eqb _ _); [done|]. by destruct (uuid_arg s).
  - destruct so as [t|]; simpl; [|done]. pose proof (n_uuid_arg_no_panic t). by destruct (uuid_arg t).
Qed.

(** One statement: its conversions first, then its checks. *)
Ltac convert t :=
  let E := fresh "E" in
  assert (t ≠ Panic) by first [apply n_uuid_arg_no_panic
    | apply (conversions_no_panic _ None None "") | apply (conversions_no_panic "" _ None "")
    | apply (conversions_no_panic "" None _ "") | apply (conversions_no_panic _ None None _)];
  destruct t eqn:E; simpl; try done.
Ltac statement :=
  repeat match goal with
  | |- context [uuid_arg ?s ≫= _] => convert (uuid_arg (U:=U) s)
  | |- context [inet_arg ?s ≫= _] => convert (inet_arg (U:=U) s)
  | |- context [inet_opt ?s ≫= _] => convert (inet_opt (U:=U) s)
  | |- context [inet_list ?s ≫= _] => convert (inet_list (U:=U) s)
  | |- context [uuid_required ?c ?s ≫= _] => convert (uuid_required (U:=U) c s)
  | |- context [uuid_nullif ?s ≫= _] => convert (uuid_nullif (U:=U) s)
  | |- context [uuid_opt ?s ≫= _] => convert (uuid_opt (U:=U) s)
  end; repeat match goal with |- context [if ?b then _ else _] => destruct b eqn:? end; try done.

(** ** Well-formed tables: the constraints of the migrations *)
Record nwf d : Prop := {
  nwf_sub : ∀ u r, nt_subs d !! u = Some r → is_Some (nt_nets d !! ns_net r);
  nwf_rule : ∀ u r, nt_rules d !! u = Some r → is_Some (nt_nets d !! nr_net r) ∧
    existsb (String.eqb (fw_Action (nr_val r))) firewall_actions = true ∧
    existsb (String.eqb (fw_Direction (nr_val r))) firewall_directions = true;
  nwf_fip : ∀ u r v, nt_fips d !! u = Some r → fr_net r = Some v → is_Some (nt_nets d !! v);
  nwf_addr : ∀ u1 u2 r1 r2, nt_fips d !! u1 = Some r1 → nt_fips d !! u2 = Some r2 →
    fr_addr r1 = fr_addr r2 → u1 = u2;
}.

Lemma nwf_same d d' : nsame d d' → nwf d → nwf d'.
Proof using Type. intros (E1&E2&E3&E4) [? ? ? ?]. split; rewrite ?E1, ?E2, ?E3, ?E4; auto. Qed.

Definition nsafe {A} (m : M NWorld A) : Prop :=
  ∀ w, nwf (n_db w) → wp m (post (λ _ w', nwf (n_db w')) (λ _ w', nwf (n_db w'))) w.

Lemma nquiet_safe {A} (m : M NWorld A) : nquiet m → nsafe m.
Proof using Type.
  intros Hm w Hw. eapply wp_post; [apply Hm|..]; intros ?? [Hs _]; exact (nwf_same _ _ Hs Hw).
Qed.
Lemma nsafe_bind {A B} (m : M NWorld A) (k : A → M NWorld B) : nsafe m → (∀ a, nsafe (k a)) → nsafe (m ≫= k).
Proof using Type. intros Hm Hk w Hw. eapply wp_bind_post; [by apply Hm| |done]. intros a w'. apply Hk. Qed.
Lemma nsafe_wrap {A} ctx (m : M NWorld A) : nsafe m → nsafe (wrap ctx m).
Proof using Type.
  intros Hm w Hw. eapply wp_post; [apply wp_wrap; by apply Hm|done|]. by intros e w' (_ & _ & ?).
Qed.
Lemma nsafe_ignore {A} (m : M NWorld A) : nsafe m → nsafe (ignore m).
Proof using Type.
  intros Hm w Hw. eapply wp_post; [apply wp_ignore; by apply Hm|by intros ?? [[]|[]]|done].
Qed.
Lemma nsafe_iterM {A} (f : A → M NWorld ()) l : (∀ x, nsafe (f x)) → nsafe (iterM f l).
Proof using Type.
  intros Hf. unfold iterM. generalize (). induction l as [|x l IH]; intros acc; simpl.
  - apply nquiet_safe, nquiet_ret.
  - by apply nsafe_bind.
Qed.

Lemma nsafe_exec (f : NDB → outcome NDB) :
  (∀ d, f d ≠ Panic) → (∀ d d', nwf d → f d = Ret d' → nwf d') → nsafe (n_exec f).
Proof using Type.
  intros Hp Hf w Hw. eapply wp_post; [by apply wp_n_exec|..].
  - intros _ w' (d & Hd & Hs & _). apply (nwf_same d); [done|]. by eapply Hf.
  - intros e w' [[Hs _] _]. exact (nwf_same _ _ Hs Hw).
Qed.

Lemma nsafe_net_create n : nsafe (NetworkRepo_Create n).
Proof using Type.
  apply nsafe_exec; intros d; [statement|]. intros d' [F1 F2 F3 F4]. statement. intros [= <-].
  split; simpl; [| | |done].
  - intros u r Hr. rewrite lookup_insert_is_Some'. right. by eapply F1.
  - intros u r Hr. destruct (F2 u r Hr) as (?&?&?). split_and!; [|done|done].
    rewrite lookup_insert_is_Some'. by right.
  - intros u r v Hr Hv. rewrite lookup_insert_is_Some'. right. by eapply F3.
Qed.

Lemma nsafe_sub_create x : nsafe (SubnetRepo_Create x).
Proof using Type.
  apply nsafe_exec; intros d; [statement|]. intros d' [F1 F2 F3 F4]. statement. intros [= <-].
  split; simpl; [|done|done|done].
  intros u r Hr. rewrite lookup_insert_Some in Hr. destruct Hr as [[<- <-]|[? Hr]]; [|by eapply F1].
  simpl. apply not_eq_None_Some. by eapply bool_decide_eq_false_1.
Qed.

Lemma nsafe_sub_delete id : nsafe (SubnetRepo_Delete id).
Proof using Type.
  apply nsafe_exec; intros d; [statement|]. intros d' [F1 F2 F3 F4]. statement. intros [= <-].
  split; simpl; [|done|done|done]. intros u r [_ Hr]%lookup_delete_Some. by eapply F1.
Qed.

Lemma nsafe_rule_create x : nsafe (FirewallRepo_Create x).
Proof using Type.
  apply nsafe_exec; intros d; [statement|]. intros d' [F1 F2 F3 F4].
  unfold FirewallRepo_Create. statement. intros [= <-].
  split; simpl; [done| |done|done].
  intros u r Hr. rewrite lookup_insert_Some in Hr. destruct Hr as [[<- <-]|[? Hr]]; [|by eapply F2].
  simpl. split_and!; [apply not_eq_None_Some; by eapply bool_decide_eq_false_1|by apply negb_false_iff..].
Qed.

Lemma nsafe_rule_delete id : nsafe (FirewallRepo_Delete id).
Proof using Type.
  apply nsafe_exec; intros d; [statement|]. intros d' [F1 F2 F3 F4]. statement. intros [= <-].
  split; simpl; [done| |done|done]. intros u r [_ Hr]%lookup_delete_Some. by eapply F2.
Qed.

Lemma nsafe_net_delete id : nsafe (NetworkRepo_Delete id).
Proof using Type.
  apply nsafe_exec; intros d; [statement|]. intros d' [F1 F2 F3 F4]. statement. intros [= <-].
  split; simpl.
  - intros u r [Hr Hne]%map_lookup_filter_Some. simpl in Hne. rewrite lookup_delete_ne by done. by eapply F1.
  - intros u r [Hr Hne]%map_lookup_filter_Some. simpl in Hne. rewrite lookup_delete_ne by done. by eapply F2.
  - intros u r v. rewrite lookup_fmap. destruct (nt_fips d !! u) as [x|] eqn:Hx; simpl; [|done].
    intros [= <-]. simpl. destruct (bool_decide _) eqn:Hb; [done|]. intros Hv.
    rewrite lookup_delete_ne; [by eapply F3|]. intros ->. by apply bool_decide_eq_false_1 in Hb.
  - intros u1 u2 r1 r2. rewrite !lookup_fmap.
    destruct (nt_fips d !! u1) as [x1|] eqn:Hx1; simpl; [|done].
    destruct (nt_fips d !! u2) as [x2|] eqn:Hx2; simpl; [|done].
    intros [= <-] [= <-]. simpl. by apply F4.
Qed.

Lemma nsafe_fip_release id : nsafe (FloatingRepo_Release id).
Proof using Type.
  apply nsafe_exec; intros d; [statement|]. intros d' [F1 F2 F3 F4]. statement. intros [= <-].
  split; simpl; [done|done| |].
  - intros u r v [_ Hr]%lookup_delete_Some. by eapply F3.
  - intros u1 u2 r1 r2 [_ Hr1]%lookup_delete_Some [_ Hr2]%lookup_delete_Some. by apply F4.
Qed.

Lemma addr_free d addr u r :
  existsb (λ x, String.eqb (fr_addr x.2) addr) (map_to_list (nt_fips d)) = false →
  nt_fips d !! u = Some r → fr_addr r ≠ addr.
Proof using Type.
  intros Hf Hr E. apply not_true_iff_false in Hf. destruct Hf. apply existsb_exists. exists (u, r).
  split; [by apply list_elem_of_In, elem_of_map_to_list|]. by apply String.eqb_eq.
Qed.

Lemma nsafe_fip_allocate x : nsafe (FloatingRepo_Allocate x).
Proof using Type.
  apply nsafe_exec; intros d; [statement|]. intros d' [F1 F2 F3 F4]. statement. intros [= <-].
  split; simpl; [done|done| |].
  - intros u r v Hr Hv. rewrite lookup_insert_Some in Hr. destruct Hr as [[<- <-]|[? Hr]]; [|by eapply F3].
    simpl in Hv. subst. match goal with E : fk_broken _ _ = false |- _ => simpl in E end.
    apply not_eq_None_Some. by eapply bool_decide_eq_false_1.
  - intros u1 u2 r1 r2 Hr1 Hr2 Haddr. rewrite lookup_insert_Some in Hr1, Hr2.
    destruct Hr1 as [[<- <-]|[? Hr1]], Hr2 as [[<- <-]|[? Hr2]]; simpl in *; [done| | |by eapply F4].
    + by destruct (addr_free d _ u2 r2 ltac:(eassumption) Hr2).
    + by destruct (addr_free d _ u1 r1 ltac:(eassumption) Hr1).
Qed.

(** ** Reads *)
Lemma q_lists_no_panic id d : q_subnets id d ≠ Panic ∧ q_rules id d ≠ Panic.
Proof using Type. unfold q_subnets, q_rules. pose proof (n_uuid_arg_no_panic id). by destruct (uuid_arg id). Qed.

Lemma nquiet_lists id : nquiet (n_listSubnets id) ∧ nquiet (n_listFirewallRules id) ∧
  nquiet (SubnetRepo_ListByNetwork id) ∧ nquiet (FirewallRepo_ListByNetwork id).
Proof using Type.
  split_and!; (apply nquiet_bind; [apply nquiet_query; intros d; apply (q_lists_no_panic id d)|]);
    intros l; (apply nquiet_bind; [by apply nquiet_query|intros; apply nquiet_ret]).
Qed.

Lemma nquiet_net_get id : nquiet (NetworkRepo_GetByID id).
Proof using Type.
  apply nquiet_bind; [apply nquiet_query; intros d; pose proof (n_uuid_arg_no_panic id); by destruct (uuid_arg id)|].
  intros [net|]; [|apply nquiet_ret]. destruct (nquiet_lists id) as (?&?&_).
  apply nquiet_bind; [done|]. intros subs. apply nquiet_bind; [done|]. intros rules. apply nquiet_ret.
Qed.

Lemma nquiet_gets id : nquiet (SubnetRepo_GetByID id) ∧ nquiet (FirewallRepo_GetByID id).
Proof using Type.
  split; apply nquiet_query; intros d; pose proof (n_uuid_arg_no_panic id); by destruct (uuid_arg id).
Qed.

Lemma q_used_no_panic cidr org d : q_used_fips cidr org d ≠ Panic.
Proof using Type.
  unfold q_used_fips. destruct (cidr_contains cidr); [|done]. destruct (String.eqb org ""); [done|].
  pose proof (n_uuid_arg_no_panic org). by destruct (uuid_arg org).
Qed.

Lemma nquiet_find cidr org : nquiet (FindAvailableIP cidr org).
Proof using Type.
  unfold FindAvailableIP. destruct (ParseCIDR cidr) as [[ip n]|]; [|apply nquiet_fail].
  destruct (To4 (n_IP n)); [|apply nquiet_fail]. cbv zeta. destruct (_ <=? 2)%Z; [apply nquiet_fail|].
  apply nquiet_bind; [apply nquiet_query, q_used_no_panic|]. intros used.
  apply nquiet_bind; [by apply nquiet_query|]. intros _. destruct (search _ _ _ _); [apply nquiet_ret|apply nquiet_fail].
Qed.

(** ** Requests *)
Inductive nrequest :=
| NqCreateNetwork (req : CreateNetworkRequest)
| NqDeleteNetwork (id : string)
| NqCreateSubnet (networkID name cidr : string) (dhcp : bool)
| NqDeleteSubnet (id : string)
| NqCreateFirewallRule (req : CreateFirewallRuleRequest)
| NqDeleteFirewallRule (id : string)
| NqAllocateFloatingIP (networkID vmID : string)
| NqReleaseFloatingIP (id : string).

Definition nserve (rq : nrequest) : M NWorld () :=
  match rq with
  | NqCreateNetwork req => _ ← CreateNetwork req; mret ()
  | NqDeleteNetwork id => DeleteNetwork id
  | NqCreateSubnet n name cidr dhcp => _ ← CreateSubnet n name cidr dhcp; mret ()
  | NqDeleteSubnet id => DeleteSubnet id
  | NqCreateFirewallRule req => _ ← CreateFirewallRule req; mret ()
  | NqDeleteFirewallRule id => DeleteFirewallRule id
  | NqAllocateFloatingIP n v => _ ← AllocateFloatingIP n v; mret ()
  | NqReleaseFloatingIP id => ReleaseFloatingIP id
  end.

Hint Resolve nquiet_ret nquiet_fail nquiet_uuid_New nquiet_net_get nquiet_find nquiet_safe nsafe_net_create
  nsafe_sub_create nsafe_sub_delete nsafe_rule_create nsafe_rule_delete nsafe_net_delete nsafe_fip_release
  nsafe_fip_allocate : core.
Hint Extern 1 (nquiet (SubnetRepo_GetByID ?i)) => apply (nquiet_gets i) : core.
Hint Extern 1 (nquiet (FirewallRepo_GetByID ?i)) => apply (nquiet_gets i) : core.
Hint Extern 1 (nquiet (SubnetRepo_ListByNetwork ?i)) => apply (nquiet_lists i) : core.

Ltac nsafe := repeat first
  [ solve [eauto] | apply nsafe_wrap | apply nsafe_ignore | apply nsafe_iterM; intros ? | apply nsafe_bind; [|intros ?]
  | match goal with
    | |- nsafe (if ?b then _ else _) => destruct b
    | |- nsafe (match ?x with Some _ => _ | None => _ end) => destruct x
    | |- nsafe (let '(_, _) := ?x in _) => destruct x
    end ].

Lemma nserve_safe rq : nsafe (nserve rq).
Proof using Type*.
  destruct rq; simpl.
  - unfold CreateNetwork. nsafe.
  - unfold DeleteNetwork. nsafe.
  - unfold CreateSubnet. nsafe.
  - unfold DeleteSubnet. nsafe.
  - unfold CreateFirewallRule. nsafe.
  - unfold DeleteFirewallRule. nsafe.
  - unfold AllocateFloatingIP. nsafe.
  - unfold ReleaseFloatingIP. nsafe.
Qed.

(** Whatever requests arrive and whatever statements are refused, in the
    tables of the network service a subnet, a firewall rule and a floating
    address belong to a stored network, rules have known actions and
    directions, no two floating addresses are equal, and no request panics. *)
Theorem network_tables_wf rqs w : nwf (n_db w) →
  let run := foldl (λ acc rq, let r := nserve rq acc.2 in (acc.1 ++ [r.1], r.2)) ([], w) rqs in
  nwf (n_db run.2) ∧ Forall (λ o, o ≠ Panic) run.1.
Proof using Type*.
  intros Hw. cbv zeta. assert (Hgo : ∀ os w, nwf (n_db w) → Forall (λ o, o ≠ Panic) os →
    let run := foldl (λ acc rq, let r := nserve rq acc.2 in (acc.1 ++ [r.1], r.2)) (os, w) rqs in
    nwf (n_db run.2) ∧ Forall (λ o, o ≠ Panic) run.1); [|by apply Hgo].
  clear w Hw. induction rqs as [|rq rqs IH]; intros os w Hw Hos; simpl; [done|].
  pose proof (nserve_safe rq w Hw) as Hs. unfold wp, post in Hs.
  destruct (nserve rq w) as [o w1]. simpl in *. apply IH; [by destruct o|].
  apply Forall_app. split; [done|]. repeat constructor. by destruct o.
Qed.

(** ** The address [FindAvailableIP] picks *)

(** A floating address of the organisation, in the block, stands for [c]. *)
Definition taken (within : string → bool) (org : U) d (c : Z) : Prop :=
  ∃ u r, nt_fips d !! u = Some r ∧ fr_org r = org ∧ within (fr_addr r) = true ∧ fip_used_addr (fr_addr r) = Some c.

Lemma q_used_spec cidr orgID within org d : cidr_contains cidr = Some within → uuid_in orgID = Some org → orgID ≠ "" →
  ∃ used, q_used_fips cidr orgID d = Ret used ∧
    ∀ c, c ∈ (list_to_set (omap fip_used_addr used) : gset Z) ↔ taken within org d c.
Proof using Type.
  intros Hw Ho Hne. unfold q_used_fips, uuid_arg. rewrite Hw, Ho, (proj2 (String.eqb_neq _ _) Hne).
  eexists. split; [done|]. intros c. rewrite elem_of_list_to_set, list_elem_of_omap. unfold taken. split.
  - intros (a & Ha & Hc). apply list_elem_of_fmap in Ha as (r & -> & Hr).
    apply list_elem_of_In, filter_In in Hr as [Hr Horg]. apply filter_In in Hr as [Hr Hin].
    apply list_elem_of_In, list_elem_of_fmap in Hr as ([u r'] & -> & Hu). apply elem_of_map_to_list in Hu.
    exists u, r'. split_and!; [done|by apply bool_decide_eq_true_1 in Horg|done|done].
  - intros (u & r & Hr & Horg & Hin & Hc). exists (fr_addr r). split; [|done].
    apply list_elem_of_fmap. exists r. split; [done|]. apply list_elem_of_In, filter_In. split.
    + apply filter_In. split; [|done]. apply list_elem_of_In, list_elem_of_fmap. exists (u, r).
      split; [done|]. by apply elem_of_map_to_list.
    + by apply bool_decide_eq_true_2.
Qed.

(** The least host that is not taken, or none. *)
Definition least_untaken (n : IPNet) (T : Z → Prop) (r : option Z) : Prop :=
  match r with
  | Some c => host n c ∧ ¬ T c ∧ ∀ c', host n c' → c' < c → T c'
  | None => ∀ c, host n c → T c
  end%Z.

Lemma v4_width cidr n : is_v4_block cidr n →
  Z.lor (block n).1 (not32 (Uint32 (n_Mask n))) = ((block n).1 + block_size (block n).2 - 1)%Z.
Proof using Type.
  intros (bs & p & Hbs & Hp & ->)%is_v4_block_inv. rewrite (v4_broadcast bs p Hbs Hp).
  by rewrite (v4_block_eq bs p Hbs Hp).
Qed.

Lemma find_spec cidr orgID n within org w :
  is_v4_block cidr n → cidr_contains cidr = Some within → uuid_in orgID = Some org → orgID ≠ "" →
  wp (FindAvailableIP cidr orgID) (post
    (λ t w', nkeeps w w' ∧ ∃ c, least_untaken n (taken within org (n_db w)) (Some c) ∧ t = string4 (PutUint32 c))
    (λ _ w', nkeeps w w' ∧ (ncalm w → (30 < (block n).2)%Z ∨ least_untaken n (taken within org (n_db w)) None))) w.
Proof using Type.
  intros Hb Hw Ho Hne. pose proof (n_IP_octets _ _ Hb) as Hoct. pose proof (v4_block_bounds _ _ Hb) as Hbd.
  pose proof (v4_width _ _ Hb) as Hwd. pose proof Hb as [Hparse _]. unfold FindAvailableIP.
  destruct (ParseCIDR cidr) as [[ip n']|]; [|done]. injection Hparse as ->.
  unfold To4. rewrite bool_decide_true by apply Hoct. cbv zeta. change (Uint32 (n_IP n)) with (block n).1.
  assert (Hsz : (0 < block_size (block n).2)%Z) by (unfold block_size; apply Z.pow_pos_nonneg; lia).
  rewrite Hwd, uint32_id by (unfold in_uint32; lia).
  replace ((block n).1 + block_size (block n).2 - 1 - (block n).1)%Z with (block_size (block n).2 - 1)%Z by lia.
  destruct (Z.leb_spec (block_size (block n).2 - 1) 2) as [Hsmall|Hbig].
  { apply wp_fail. simpl. split; [done|]. intros _. left. unfold block_size in Hsmall.
    destruct (Z.lt_ge_cases 30 (block n).2); [done|].
    assert (2 ^ 2 ≤ 2 ^ (32 - (block n).2))%Z by (apply Z.pow_le_mono_r; lia). lia. }
  destruct (q_used_spec cidr orgID within org (n_db w) Hw Ho Hne) as (used & Hused & Hspec).
  eapply wp_bind_post; [apply wp_n_query; rewrite Hused; done|..].
  2: { intros e w' [Hk He]. split; [done|]. intros Hc. by rewrite (He Hc) in Hused. }
  intros l w1 [Hl Hk1]. assert (l = used) as -> by congruence.
  eapply wp_bind_post; [by apply wp_n_query|..].
  2: { intros e w' [Hk He]. split; [exact (transitivity Hk1 Hk)|]. intros Hc. pose proof (proj2 Hk1 Hc) as Hc1. by apply He in Hc1. }
  intros _ w2 [_ Hk2]. assert (Hk : nkeeps w w2) by exact (transitivity Hk1 Hk2).
  pose proof (search_least_free cidr n (list_to_set (omap fip_used_addr used)) _ Hb eq_refl) as Hs.
  cbv zeta in Hs. rewrite Hwd in Hs. destruct (search _ _ _ _) as [c|]; simpl in Hs.
  - apply wp_ret. simpl. split; [done|]. exists c. destruct Hs as (Hh & Hnot & Hmin). split.
    + split_and!; [done|by rewrite <-Hspec|]. intros c' Hh' Hlt. apply Hspec. by apply Hmin.
    + apply String_IP_4, PutUint32_octets.
  - apply wp_fail. simpl. split; [done|]. intros _. right. intros c Hh. by apply Hspec, Hs.
Qed.

Lemma n_uuid_arg_Ret s u : uuid_arg s = Ret u → uuid_in s = Some u.
Proof using Type. unfold uuid_arg. destruct (uuid_in s); congruence. Qed.

Lemma wp_net_get id w :
  wp (NetworkRepo_GetByID id) (post
    (λ o w', nkeeps w w' ∧ ∃ u, uuid_in id = Some u ∧
       match o with
       | None => nt_nets (n_db w) !! u = None
       | Some n => ∃ r l l', nt_nets (n_db w) !! u = Some r ∧ n = net_set_related l l' (net_read u r)
       end)
    (λ _ w', nkeeps w w')) w.
Proof using Type.
  eapply wp_bind_post; [apply wp_n_query| |by intros e w' [? _]].
  { pose proof (n_uuid_arg_no_panic id). by destruct (uuid_arg id). }
  intros o w1 [Ho Hk]. destruct (uuid_arg id) as [u| |] eqn:E; try done.
  apply n_uuid_arg_Ret in E. injection Ho as <-.
  destruct (nt_nets (n_db w) !! u) as [r|] eqn:Hr; simpl; [|apply wp_ret; simpl; eauto].
  destruct (nquiet_lists id) as (Hs & Hf & _).
  eapply wp_bind_post; [apply Hs| |intros e w2 Hk2; exact (transitivity Hk Hk2)].
  intros l w2 Hk2. eapply wp_bind_post; [apply Hf| |].
  - intros l' w3 Hk3. apply wp_ret. simpl.
    split; [exact (transitivity Hk (transitivity Hk2 Hk3))|]. eauto 8.
  - intros e w3 Hk3. exact (transitivity Hk (transitivity Hk2 Hk3)).
Qed.

(** The text of a single address, with or without its prefix length. *)
Definition single (a : string) : bool :=
  match ParseCIDR a with Some (_, n) => ((block n).2 =? 32)%Z | None => negb (Strings.Contains a "/") end.

(** The operator [<<=] of PostgreSQL holds of a single address and the block that
    contains it. *)
Class InetWithinLaws := {
  within_single : ∀ cidr n within a c, is_v4_block cidr n → cidr_contains cidr = Some within → host n c →
    fip_used_addr a = Some c → single a = true → within a = true;
}.

Section allocation.
Context `{!InetWithinLaws} (networkID : string) (u : U) (r : nnet_row (U:=U)) (n : IPNet) (within : string → bool).
Context (w : NWorld (U:=U)).
Context (Hid : uuid_in networkID = Some u) (Hnet : nt_nets (n_db w) !! u = Some r).
Context (Hblock : is_v4_block (pn_CIDR (nn_val r)) n) (Hwithin : cidr_contains (pn_CIDR (nn_val r)) = Some within).

Lemma n_uuid_out_ne (v : U) : uuid_out v ≠ "".
Proof using H1. intros E. pose proof (uuid_in_out v) as Hv. rewrite E, uuid_in_empty in Hv. done. Qed.

Lemma networkID_ne : String.eqb networkID "" = false.
Proof using H1 Hid. apply String.eqb_neq. intros ->. by rewrite uuid_in_empty in Hid. Qed.

(** Up to the choice of the address. *)
Lemma wp_allocate vmID Q :
  (∀ e w', nkeeps w w' → Q (Err e) w') →
  (∀ c v w', nkeeps w w' → least_untaken n (taken within (nn_org r) (n_db w)) (Some c) →
     wp (_ ← wrap "allocate floating IP" (FloatingRepo_Allocate
           (mkFloating (uuid_out v) (string4 (PutUint32 c)) (Some networkID) (Some vmID) (uuid_out (nn_org r)) 0));
         mret (mkFloating (uuid_out v) (string4 (PutUint32 c)) (Some networkID) (Some vmID) (uuid_out (nn_org r)) 0)) Q w') →
  wp (AllocateFloatingIP networkID vmID) Q w.
Proof using All.
  intros HE HQ. unfold AllocateFloatingIP. rewrite networkID_ne.
  eapply wp_bind_post; [apply wp_wrap, wp_net_get| |by intros e w' (_ & _ & Hk); apply HE].
  intros o w1 (Hk1 & u' & Hu' & Ho). assert (u' = u) as -> by congruence.
  destruct o as [net|]; [|congruence]. destruct Ho as (r' & l & l' & Hr' & ->).
  assert (r' = r) as -> by congruence. cbn [pn_CIDR pn_OrganizationID net_set_related net_read].
  assert (Htaken : ∀ c, taken within (nn_org r) (n_db w1) c ↔ taken within (nn_org r) (n_db w) c).
  { intros c. unfold taken. by rewrite (proj2 (proj2 (proj2 (proj1 Hk1)))). }
  eapply wp_bind_post.
  - apply wp_wrap, (find_spec _ _ n within (nn_org r)); [done|done|apply uuid_in_out|apply n_uuid_out_ne].
  - intros t w2 (Hk2 & c & (Hh & Hnot & Hmin) & ->). apply wp_bind, wp_n_uuid_New. intros v w3 Hk3.
    apply HQ; [exact (transitivity Hk1 (transitivity Hk2 Hk3))|]. split_and!; [done|by rewrite <-Htaken|].
    intros c' ??. apply Htaken. by apply Hmin.
  - intros e w2 (e' & _ & Hk2 & _). apply HE. exact (transitivity Hk1 Hk2).
Qed.


(** An address another organisation holds is not seen as taken, but is
    unique in the table: when it is the least one free for an organisation,
    every allocation of that organisation fails, whatever is free beyond it. *)
Theorem floating_ip_blocked vmID c a u' r' :
  least_untaken n (taken within (nn_org r) (n_db w)) (Some c) →
  inet_in (string4 (PutUint32 c)) = Some a → nt_fips (n_db w) !! u' = Some r' → fr_addr r' = a →
  wp (AllocateFloatingIP networkID vmID) (post (λ _ _, False) (λ _ w', nkeeps w w')) w.
Proof using All.
  intros (Hh & Hnot & Hmin) Ha Hr' Haddr. apply wp_allocate; [done|]. intros c' v w1 Hk1 (Hh' & Hnot' & Hmin').
  assert (c' = c) as ->.
  { destruct (Z.lt_trichotomy c c') as [Hlt|[->|Hlt]]; [|done|]; exfalso; auto. }
  pose proof (proj1 Hk1) as (En & Es & Er & Ef).
  eapply wp_bind_post; [apply wp_wrap, wp_n_exec; cbn [fip_ID fip_IPAddress fip_NetworkID fip_VMID fip_OrganizationID default]; statement| |].
  2: { intros e w2 (_ & _ & Hk2 & _). exact (transitivity Hk1 Hk2). }
  intros _ w2 (d & Hd & _). exfalso. revert Hd.
  cbn [fip_ID fip_IPAddress fip_NetworkID fip_VMID fip_OrganizationID].
  change (default "" (Some networkID)) with networkID. change (default "" (Some vmID)) with vmID.
  unfold inet_arg. rewrite Ha. cbn [mbind outcome_bind].
  convert (uuid_arg (U:=U) (uuid_out v)). convert (uuid_nullif (U:=U) networkID). convert (uuid_nullif (U:=U) vmID).
  convert (uuid_required (U:=U) "organization_id" (uuid_out (nn_org r))).
  destruct (bool_decide _); [done|].
  destruct (existsb _ _) eqn:Hfree; [done|]. intros _. rewrite <-Ef in Hr'. by eapply addr_free in Hfree.
Qed.

End allocation.

(** ** Deleting a network *)

(** Only subnets of the network may go. *)
Definition trims (u : U) d d' : Prop :=
  nt_nets d' = nt_nets d ∧ nt_rules d' = nt_rules d ∧ nt_fips d' = nt_fips d ∧
  (∀ k r, nt_subs d !! k = Some r → ns_net r ≠ u → nt_subs d' !! k = Some r) ∧ nt_subs d' ⊆ nt_subs d.

Lemma trims_same u d d1 d2 : trims u d d1 → nsame d1 d2 → trims u d d2.
Proof using Type. intros (?&?&?&?&?) (E1&E2&E3&E4). unfold trims. by rewrite E1, E2, E3, E4. Qed.

Lemma trims_delete u d d1 k : trims u d d1 → (∀ r, nt_subs d !! k = Some r → ns_net r = u) →
  trims u d (on_subs (delete k) d1).
Proof using Type.
  intros (E1&E2&E3&Hkeep&Hsub) Hk. split_and!; simpl; [done|done|done| |].
  - intros k' r Hr Hne. rewrite lookup_delete_ne; [by apply Hkeep|]. intros ->. by apply Hne, Hk.
  - etrans; [apply delete_subseteq|done].
Qed.

(** The loop over the subnets. *)
Lemma trims_loop u d l w : trims u d (n_db w) →
  Forall (λ s, ∀ k, uuid_in (sub_ID s) = Some k → ∀ r, nt_subs d !! k = Some r → ns_net r = u) l →
  wp (iterM (λ sub, if negb (String.eqb (sub_ID sub) "") then ignore (SubnetRepo_Delete (sub_ID sub)) else mret ()) l)
    (post (λ _ w', trims u d (n_db w')) (λ _ _, False)) w.
Proof using Type.
  intros Hw Hl. unfold iterM. revert w Hw.
  induction Hl as [|x l Hx _ IH]; intros w Hw; simpl; [by apply wp_ret|].
  eapply (wp_bind_post _ _ _ (λ _ w', trims u d (n_db w')) (λ _ _, False)); [|intros [] ??; by apply IH|done].
  destruct (negb _); [|by apply wp_ret].
  eapply wp_post; [apply wp_ignore, wp_n_exec; statement| |done].
  intros _ w' [(_ & d' & Hd & Hs & _)|(_ & [Hs _] & _)]; [|by eapply trims_same].
  revert Hd. convert (uuid_arg (U:=U) (sub_ID x)). intros [= <-]. eapply trims_same; [|done].
  apply trims_delete; [done|]. apply Hx. by apply n_uuid_arg_Ret.
Qed.

Lemma wp_list_subnets id w :
  wp (SubnetRepo_ListByNetwork id) (post (λ subs w', q_subnets id (n_db w) = Ret subs ∧ nkeeps w w')
                                         (λ _ w', nkeeps w w')) w.
Proof using Type.
  eapply wp_bind_post; [apply wp_n_query, q_lists_no_panic| |by intros ?? [? _]].
  intros subs w2 [Hs Hk2]. eapply wp_bind_post; [by apply wp_n_query|..].
  - intros _ w3 [_ Hk3]. apply wp_ret. simpl. split; [done|exact (transitivity Hk2 Hk3)].
  - intros e w3 [Hk3 _]. exact (transitivity Hk2 Hk3).
Qed.

(** [DeleteNetwork] removes the network with exactly its subnets and rules
    and takes it off the floating addresses; when it fails the network and its
    rules are still there and at most subnets of it are gone. *)
Theorem delete_network_correct id w :
  wp (DeleteNetwork id) (post
    (λ _ w', ∃ u, uuid_in id = Some u ∧ is_Some (nt_nets (n_db w) !! u) ∧
       nt_nets (n_db w') = delete u (nt_nets (n_db w)) ∧
       nt_subs (n_db w') = filter (λ r, ns_net r.2 ≠ u) (nt_subs (n_db w)) ∧
       nt_rules (n_db w') = filter (λ r, nr_net r.2 ≠ u) (nt_rules (n_db w)) ∧
       ∀ k, fr_addr <$> nt_fips (n_db w') !! k = fr_addr <$> nt_fips (n_db w) !! k)
    (λ _ w', nkeeps w w' ∨ ∃ u, uuid_in id = Some u ∧ trims u (n_db w) (n_db w'))) w.
Proof using Type*.
  unfold DeleteNetwork. eapply wp_bind_post; [apply wp_wrap, wp_net_get| |intros e w' (_ & _ & ?); by left].
  intros o w1 (Hk1 & u & Hu & Ho). destruct o as [net|]; [|apply wp_fail; by left].
  destruct Ho as (r & l & l' & Hr & _). pose proof Hk1 as [(En & Es & Er & Ef) _].
  eapply wp_bind_post; [apply wp_wrap, wp_list_subnets| |].
  2: { intros e w2 (_ & _ & Hk2). left. exact (transitivity Hk1 Hk2). }
  intros subs w2 [Hsubs Hk2]. pose proof (transitivity Hk1 Hk2) as Hk. pose proof Hk as [Hsame _].
  assert (Htr : trims u (n_db w) (n_db w2)).
  { apply (trims_same u (n_db w) (n_db w)); [|done]. by split_and!. }
  eapply wp_bind_post; [apply (trims_loop u (n_db w)); [done|]| |done].
  { unfold q_subnets, uuid_arg in Hsubs. rewrite Hu in Hsubs. injection Hsubs as <-.
    apply list.Forall_forall. intros x Hx k Hk' rk Hrk. apply list_elem_of_fmap in Hx as ([k' r'] & -> & Hin).
    apply list_elem_of_In, filter_In in Hin as [Hin Hnet]. apply list_elem_of_In, elem_of_map_to_list in Hin.
    simpl in Hk', Hnet. rewrite uuid_in_out in Hk'. injection Hk' as <-. rewrite Es in Hin.
    apply bool_decide_eq_true_1 in Hnet. congruence. }
  intros ? w3 Htr3. eapply wp_post; [apply wp_n_exec; statement| |].
  2: { intros e w4 [[Hs4 _] _]. right. exists u. split; [done|]. exact (trims_same _ _ _ _ Htr3 Hs4). }
  intros _ w4 (d & Hd & (Hn & Hs & Hrl & Hf) & _). unfold uuid_arg in Hd. rewrite Hu in Hd. injection Hd as <-.
  destruct Htr3 as (En3 & Er3 & Ef3 & Hkeep & Hsub). exists u. simpl in *.
  split_and!; [done|by rewrite Hr|by rewrite Hn, En3| |by rewrite Hrl, Er3|].
  - rewrite Hs. apply map_eq. intros k. apply option_eq. intros x. rewrite !map_lookup_filter_Some. simpl. split.
    + intros [Hx ?]. split; [|done]. by eapply lookup_weaken.
    + intros [Hx ?]. split; [|done]. by apply Hkeep.
  - intros k. rewrite Hf, Ef3, lookup_fmap. by destruct (nt_fips (n_db w) !! k).
Qed.

End proofs.
