(* ===== verification/NetworkWitnesses.v ===== *)
(** The hypotheses of the theorems about the network service hold at concrete
    inputs, over the UUIDs of [Witnesses]; and two requests run for their
    outcome. *)
From stdpp Require Import base gmap strings list numbers.
From S2P Require Import Prelude.
From S2P Require Import GoNet.
From S2P Require Import Ipam.
From S2P Require Import PgControl.
From S2P Require Import Witnesses.
From S2P Require Import Network.
From S2P Require Import NetworkProofs.
From stdpp Require Import options.

(** [<<=] for the single addresses of an IPv4 block. *)
Definition in_block (n : IPNet) (a : string) : bool :=
  match fip_used_addr a with
  | Some c => single a && ((block n).1 <=? c)%Z && (c <? (block n).1 + block_size (block n).2)%Z
  | None => false
  end.
#[export] Instance within_v4 : InetWithin := λ cidr,
  match ParseCIDR cidr with
  | Some (_, n) => Some (in_block n)
  | None => None
  end.
#[export] Instance within_v4_laws : InetWithinLaws.
Proof.
  split. intros cidr n within a c [Hp _] Hw [Hlo Hhi] Hc Hs. unfold cidr_contains, within_v4 in Hw.
  destruct (ParseCIDR cidr) as [[ip n']|]; [|done]. injection Hp as ->. injection Hw as <-.
  unfold in_block. rewrite Hc, Hs. apply andb_true_intro. split; [apply andb_true_intro; split; [done|]|]; lia.
Qed.

Definition to1 : text := mkText "o1" I.
Definition to2 : text := mkText "o2" I.
Definition tn1 : text := mkText "n1" I.
Definition tn2 : text := mkText "n2" I.
Definition net_of (org : text) (name : string) : nnet_row (U:=text) :=
  mkNNetRow org None (mkNetwork "" name "" None "private" "10.0.0.0/24" None false ∅ [] [] 1 1).
(** Two organisations with a network on the same block; the first holds an
    address. *)
Definition ndb1 : NDB (U:=text) :=
  mkNDB {[tn1 := net_of to1 "a"; tn2 := net_of to2 "b"]}
    {[mkText "s1" I := mkNSubRow tn1 (mkSubnet "" "a-default" "" "10.0.0.0/24" None true None 2)]} ∅
    {[mkText "f1" I := mkFipRow (Some tn1) None to1 "10.0.0.2" 3]} 4.
Definition nw1 : NWorld (U:=text) := mkNWorld ndb1 [] ∅.
Definition block24 : IPNet := mkIPNet [10; 0; 0; 0]%Z [255; 255; 255; 0]%Z.
Definition within24 : string → bool := in_block block24.

Lemma ndb1_wf : nwf ndb1.
Proof.
  split; simpl.
  - intros u r [<- <-]%lookup_singleton_Some. vm_compute. eauto.
  - intros u r Hr. by rewrite lookup_empty in Hr.
  - intros u r v [<- <-]%lookup_singleton_Some [= <-]. vm_compute. eauto.
  - intros u1 u2 r1 r2 [<- <-]%lookup_singleton_Some [<- <-]%lookup_singleton_Some. done.
Qed.

Lemma network_wf_witness :
  let run := foldl (λ acc rq, let r := nserve rq acc.2 in (acc.1 ++ [r.1], r.2)) ([], nw1)
    [NqCreateSubnet "n1" "x" "10.0.0.128/25" true; NqAllocateFloatingIP "n1" ""; NqDeleteNetwork "n2"] in
  nwf (n_db run.2) ∧ Forall (λ o, o ≠ Panic) run.1.
Proof. apply network_tables_wf. apply ndb1_wf. Defined.

Lemma block24_is : is_v4_block "10.0.0.0/24" block24.
Proof. split; vm_compute; reflexivity. Qed.


Lemma floating_ip_blocked_witness :
  wp (AllocateFloatingIP "n2" "") (post (λ _ _, False) (λ _ w', nkeeps nw1 w')) nw1.
Proof.
  apply (floating_ip_blocked "n2" tn2 (net_of to2 "b") block24 within24 nw1) with (c := 167772162%Z)
    (a := "10.0.0.2") (u' := mkText "f1" I) (r' := mkFipRow (Some tn1) None to1 "10.0.0.2" 3).
  - vm_compute. reflexivity.
  - vm_compute. reflexivity.
  - apply block24_is.
  - reflexivity.
  - split; [|split].
    + unfold host. vm_compute. split; [discriminate|reflexivity].
    + intros (u & r & Hr & Ho & _). simpl in Hr. apply lookup_singleton_Some in Hr as [_ <-]. discriminate Ho.
    + intros c' [Hlo _] Hlt. change (block block24).1 with 167772160%Z in Hlo. lia.
  - vm_compute. reflexivity.
  - vm_compute. reflexivity.
  - reflexivity.
Defined.

(** [CreateSubnet] only looks at the network address of the subnet, so a
    subnet larger than its network is accepted; and [CreateFirewallRule] checks
    the ports only when both are given. *)
Theorem network_guards_incomplete :
  (∃ s, (CreateSubnet "n1" "big" "10.0.0.0/8" true nw1).1 = Ret s) ∧
  ∃ f, (CreateFirewallRule (mkCreateRule "n1" "r" 0 "" "" None None "tcp" (Some (-5)%Z) None) nw1).1 = Ret f.
Proof. split; eexists; vm_compute; reflexivity. Qed.

Lemma delete_network_witness :
  wp (DeleteNetwork "n1") (post
    (λ _ w', ∃ u, uuid_in "n1" = Some u ∧ is_Some (nt_nets (n_db nw1) !! u) ∧
       nt_nets (n_db w') = delete u (nt_nets (n_db nw1)) ∧
       nt_subs (n_db w') = filter (λ r, ns_net r.2 ≠ u) (nt_subs (n_db nw1)) ∧
       nt_rules (n_db w') = filter (λ r, nr_net r.2 ≠ u) (nt_rules (n_db nw1)) ∧
       ∀ k, fr_addr <$> nt_fips (n_db w') !! k = fr_addr <$> nt_fips (n_db nw1) !! k)
    (λ _ w', nkeeps nw1 w' ∨ ∃ u, uuid_in "n1" = Some u ∧ trims u (n_db nw1) (n_db w'))) nw1.
Proof. apply delete_network_correct. Defined.
