(* ===== verification/Host.v ===== *)
(** The operating system of a node, as the agent and the QEMU manager use it:
    files and directories, external programs, QEMU's monitor sockets, processes
    and the clock.

    What the outside decides is part of the world.  Every call that can fail
    takes its fate from a list ([h_fates]; an exhausted list means success),
    external programs answer from a list of results and change files as the
    parameter [prog] says, a connection to a monitor follows a script of
    messages, a process is alive as long as [h_alive] says, and time passes by
    sleeping and by unknown amounts between any two readings of the clock.
    Theorems quantify over all of these.  What the code does to the outside is
    recorded in order in [h_log]. *)
From stdpp Require Import base gmap strings list numbers pretty sorting.
From S2P Require Import Prelude.
From S2P Require Import GoStd.
From S2P Require Import GoJson.
From S2P Require Import Qcow2.
From stdpp Require Import options.

(** * Effects *)
Inductive sys_event :=
| Exec (args : list string)
| Qmp (socket : string) (cmd : json)
| Kill (pid : Z)
| Published (subject : string) (data : string)
| Subscribed (durable filter : string)
| Ack
| Nak.

(** What arrives on a connection: the next JSON value, or nothing readable. *)
Definition conn_script : Type := list (option json).

Record HW := mkHW {
  h_files : gmap string string;
  h_dirs : gset string;
  h_clock : Z;
  h_log : list sys_event;
  h_fates : list (option string);
  h_delays : list Z;
  h_conns : list (option conn_script);
  h_results : list (string * option string);
  h_alive : Z → Z → bool;
}.

Definition hw_files (f : gmap string string → gmap string string) (w : HW) : HW :=
  mkHW (f (h_files w)) (h_dirs w) (h_clock w) (h_log w) (h_fates w) (h_delays w) (h_conns w)
    (h_results w) (h_alive w).
Definition hw_dirs (f : gset string → gset string) (w : HW) : HW :=
  mkHW (h_files w) (f (h_dirs w)) (h_clock w) (h_log w) (h_fates w) (h_delays w) (h_conns w)
    (h_results w) (h_alive w).
Definition hw_log (e : sys_event) (w : HW) : HW :=
  mkHW (h_files w) (h_dirs w) (h_clock w) (h_log w ++ [e]) (h_fates w) (h_delays w) (h_conns w)
    (h_results w) (h_alive w).
Definition hw_clock (t : Z) (w : HW) : HW :=
  mkHW (h_files w) (h_dirs w) t (h_log w) (h_fates w) (h_delays w) (h_conns w)
    (h_results w) (h_alive w).

Definition log (e : sys_event) : M HW () := modify (hw_log e).

(** The fate of the next call: nothing, or the text of its error. *)
Definition fate : M HW (option string) := λ w,
  match h_fates w with
  | [] => (Ret None, w)
  | f :: fs => (Ret f, mkHW (h_files w) (h_dirs w) (h_clock w) (h_log w) fs (h_delays w)
                         (h_conns w) (h_results w) (h_alive w))
  end.

(** A call without effect that may fail. *)
Definition may_fail : M HW () :=
  f ← fate; match f with None => mret () | Some e => fail e end.

(** A pure function that may fail or panic. *)
Definition lift_outcome {A} (o : outcome A) : M HW A := λ w, (o, w).

(** * Files *)
Definition MkdirAll (path : string) : M HW () := _ ← may_fail; modify (hw_dirs (union {[path]})).

(** An error of [os.ReadFile] and [os.Stat] is asked whether it says that the
    file does not exist. *)
Inductive file_error := NotExist | OtherError (e : string).

Definition read_file (path : string) : M HW (string + file_error) :=
  f ← fate;
  match f with
  | Some e => mret (inr (OtherError e))
  | None =>
      c ← gets (λ w, h_files w !! path);
      mret (match c with Some s => inl s | None => inr NotExist end)
  end.

Definition not_exist_text (path : string) : string :=
  "open " +:+ path +:+ ": no such file or directory".
Definition error_text (path : string) (e : file_error) : string :=
  match e with NotExist => not_exist_text path | OtherError e => e end.

(** [os.Stat]: a file or a directory. *)
Definition stat_file (path : string) : M HW (() + file_error) :=
  f ← fate;
  match f with
  | Some e => mret (inr (OtherError e))
  | None =>
      b ← gets (λ w, bool_decide (is_Some (h_files w !! path)) || bool_decide (path ∈ h_dirs w));
      mret (if (b : bool) then inl () else inr NotExist)
  end.

Definition is_ok {A} (r : A + file_error) : bool := match r with inl _ => true | inr _ => false end.
Definition is_not_exist {A} (r : A + file_error) : bool :=
  match r with inr NotExist => true | _ => false end.

Definition write_file (path content : string) : M HW () :=
  _ ← may_fail; modify (hw_files <[path := content]>).

Definition remove_file (path : string) : M HW () := _ ← may_fail; modify (hw_files (delete path)).

(** [os.ReadDir]: the entries, by name, with what [IsDir] says of each. *)
Definition entry_name (dir path : string) : option string :=
  let n := Strings.TrimPrefix path (dir +:+ "/") in
  if Strings.HasPrefix path (dir +:+ "/") && negb (String.eqb n "") && negb (Strings.Contains n "/")
  then Some n else None.

Definition string_lt (a b : string) : bool :=
  match String.compare a b with Lt => true | _ => false end.

Definition dir_entries (w : HW) (dir : string) : list (string * bool) :=
  sort_by (λ a b, string_lt a.1 b.1)
    (((., true) <$> omap (entry_name dir) (elements (h_dirs w)))
     ++ ((., false) <$> omap (entry_name dir) (elements (dom (h_files w))))).

Definition ReadDir (dir : string) : M HW (list (string * bool) + file_error) :=
  f ← fate;
  match f with
  | Some e => mret (inr (OtherError e))
  | None =>
      b ← gets (λ w, bool_decide (dir ∈ h_dirs w));
      if (b : bool) then l ← gets (λ w, dir_entries w dir); mret (inl l) else mret (inr NotExist)
  end.

(** * Time *)
Definition time_Now : M HW Z := λ w,
  match h_delays w with
  | [] => (Ret (h_clock w), w)
  | d :: ds =>
      let t := (h_clock w + Z.max 0 d)%Z in
      (Ret t, mkHW (h_files w) (h_dirs w) t (h_log w) (h_fates w) ds (h_conns w)
                (h_results w) (h_alive w))
  end.

Definition Sleep (ms : Z) : M HW () := modify (λ w, hw_clock (h_clock w + Z.max 0 ms) w).

(** * Connections to a monitor: the script of the next one *)
Definition DialTimeout : M HW conn_script := λ w,
  match h_conns w with
  | [] => (Err "connect: connection refused", w)
  | c :: cs =>
      (match c with Some s => Ret s | None => Err "connect: connection refused" end,
       mkHW (h_files w) (h_dirs w) (h_clock w) (h_log w) (h_fates w) (h_delays w) cs
         (h_results w) (h_alive w))
  end.

(** * External programs *)
Section programs.
(** What running a command does to the files. *)
Context (prog : list string → gmap string string → gmap string string).

Definition host_command : Host HW := λ args w,
  let w' := hw_log (Exec args) (hw_files (prog args) w) in
  match h_results w' with
  | [] => (Ret ("", None), w')
  | r :: rs => (Ret r, mkHW (h_files w') (h_dirs w') (h_clock w') (h_log w') (h_fates w')
                         (h_delays w') (h_conns w') rs (h_alive w'))
  end.

End programs.

(** [qcow2.Info], as [qemu-img info --output=json] fills it. *)
Record Info := mkInfo {
  Info_Format : string;
  Info_VirtualSize : Z;
  Info_DiskSize : Z;
  Info_ClusterSize : Z;
  Info_BackingFile : string;
  Info_BackingFmt : string;
}.

Definition Info_fields : fields Info := [
  ("format", field Info_Format (λ x i, mkInfo x (Info_VirtualSize i) (Info_DiskSize i)
      (Info_ClusterSize i) (Info_BackingFile i) (Info_BackingFmt i)) into_string);
  ("virtual-size", field Info_VirtualSize (λ x i, mkInfo (Info_Format i) x (Info_DiskSize i)
      (Info_ClusterSize i) (Info_BackingFile i) (Info_BackingFmt i)) into_int64);
  ("actual-size", field Info_DiskSize (λ x i, mkInfo (Info_Format i) (Info_VirtualSize i) x
      (Info_ClusterSize i) (Info_BackingFile i) (Info_BackingFmt i)) into_int64);
  ("cluster-size", field Info_ClusterSize (λ x i, mkInfo (Info_Format i) (Info_VirtualSize i)
      (Info_DiskSize i) x (Info_BackingFile i) (Info_BackingFmt i)) into_int64);
  ("backing-filename", field Info_BackingFile (λ x i, mkInfo (Info_Format i) (Info_VirtualSize i)
      (Info_DiskSize i) (Info_ClusterSize i) x (Info_BackingFmt i)) into_string);
  ("backing-filename-format", field Info_BackingFmt (λ x i, mkInfo (Info_Format i)
      (Info_VirtualSize i) (Info_DiskSize i) (Info_ClusterSize i) (Info_BackingFile i) x) into_string)
].

#[global] Instance info_json : InfoJSON := λ out,
  v ← Unmarshal out;
  Info_Format <$> into_struct Info_fields v (mkInfo "" 0 0 0 "" "").
