(* ===== verification/CloudInit.v ===== *)
(** [services/nodeagent/cloudinit/cloudinit.go]: the texts of the cloud-init
    data source (meta-data, user-data and network-config) and the command that
    packs them into an ISO image. *)
From stdpp Require Import base strings list numbers pretty.
From S2P Require Import Prelude.
From S2P Require Import GoStd.
From S2P Require Import Qcow2.
From S2P Require Import Host.
From stdpp Require Import options.

(** A line of text, and lines put together. *)
Definition newline : string := String (Ascii.ascii_of_N 10) EmptyString.
Definition line (s : string) : string := s +:+ newline.
Definition lines (l : list string) : string := foldr String.app "" (line <$> l).

Record NetworkInterface := mkIface {
  ni_Name : string;
  ni_MACAddress : string;
  ni_Addresses : list string;
  ni_Gateway : string;
  ni_Nameservers : list string;
}.

Record NetworkConfig := mkNetworkConfig { nc_Interfaces : list NetworkInterface }.

Definition GenerateMetaData (hostname : string) : string :=
  lines ["instance-id: " +:+ hostname; "local-hostname: " +:+ hostname].

(** The lines of one interface. *)
Definition iface_lines (iface : NetworkInterface) : list string :=
  let name := if String.eqb (ni_Name iface) "" then "ens3" else ni_Name iface in
  ["  " +:+ name +:+ ":"]
  ++ (if String.eqb (ni_MACAddress iface) "" then []
      else ["    match:";
            "      macaddress: " +:+ String dquote (Strings.ToLower (ni_MACAddress iface))
              +:+ String dquote EmptyString])
  ++ ["    dhcp4: false"]
  ++ (match ni_Addresses iface with
      | [] => []
      | addrs => "    addresses:" :: ((λ a, "      - " +:+ a) <$> addrs)
      end)
  ++ (if String.eqb (ni_Gateway iface) "" then [] else ["    gateway4: " +:+ ni_Gateway iface])
  ++ (match ni_Nameservers iface with
      | [] => []
      | nss => "    nameservers:" :: "      addresses:" :: ((λ a, "        - " +:+ a) <$> nss)
      end).

Definition GenerateNetworkConfig (cfg : NetworkConfig) : string :=
  lines ("version: 2" :: "ethernets:" :: concat (iface_lines <$> nc_Interfaces cfg)).

(** The keys of a text with one key per line; blank lines are left out. *)
Definition ssh_keys (sshKey : string) : list string :=
  filter (λ k, k ≠ "") (Strings.TrimSpace <$> Strings.SplitByte sshKey (Ascii.ascii_of_N 10)).

Definition GenerateUserDataFromString (hostname sshKey user password : string) : string :=
  let user := if String.eqb user "" then "ubuntu" else user in
  lines (["#cloud-config"]
    ++ (if String.eqb hostname "" then [] else ["hostname: " +:+ hostname])
    ++ ["users:"; "  - name: " +:+ user; "    sudo: ['ALL=(ALL) NOPASSWD:ALL']";
        "    shell: /bin/bash"; "    lock_passwd: false"]
    ++ (if String.eqb sshKey "" then []
        else "    ssh_authorized_keys:" :: ((λ k, "      - " +:+ k) <$> ssh_keys sshKey))
    ++ (if String.eqb password "" then [] else ["    passwd: " +:+ password])
    ++ ["packages:"; "  - qemu-guest-agent"; "runcmd:";
        "  - systemctl enable qemu-guest-agent"; "  - systemctl start qemu-guest-agent";
        "package_update: true"; "package_upgrade: true"]).

Section iso.
Context `{Host HW}.

Definition GenerateISO (outputDir meta user network : string) : M HW string :=
  _ ← wrap "create output dir" (MkdirAll outputDir);
  _ ← wrap "write meta-data" (write_file (Filepath.Join [outputDir; "meta-data"]) meta);
  _ ← wrap "write user-data" (write_file (Filepath.Join [outputDir; "user-data"]) user);
  _ ← wrap "write network-config" (write_file (Filepath.Join [outputDir; "network-config"]) network);
  let isoPath := Filepath.Join [outputDir; "cidata.iso"] in
  r ← run_command ["genisoimage"; "-output"; isoPath; "-volid"; "cidata"; "-v"; "-J";
                   "-joliet-long"; "meta-data"; "user-data"; "network-config"];
  match r.2 with
  | Some e => fail ("genisoimage: " +:+ e +:+ ": " +:+ r.1)
  | None => mret isoPath
  end.

End iso.
