(* ===== verification/Qemu.v ===== *)
(** [services/nodeagent/qemu/manager.go]: the manager that starts, stops and
    resets QEMU processes, talks to their monitors (QMP), creates disks and
    bridges. *)
From stdpp Require Import base gmap strings list numbers pretty.
From S2P Require Import Prelude.
From S2P Require Import GoStd.
From S2P Require Import GoNet.
From S2P Require Import GoJson.
From S2P Require Import Qcow2.
From S2P Require Import Host.
From stdpp Require Import options.

Record NIC := mkQNIC { q_Bridge : string; q_MACAddress : string }.

Record VMConfig := mkVMConfig {
  vc_ID : string;
  vc_Name : string;
  vc_VCPUs : Z;
  vc_MemoryMB : Z;
  vc_DiskPath : string;
  vc_MACAddress : string;
  vc_NICs : list NIC;
  vc_CloudInit : string;
  vc_QMPSocket : string;
  vc_MonitorSocket : string;
  vc_MachineType : string;
}.

(** * The monitor protocol *)
Record qmpError := mkQmpError { qe_Class : string; qe_Desc : string }.
Record qmpResponse := mkQmp {
  qr_Return : option json;
  qr_Error : option qmpError;
  qr_Event : string;
}.
Definition qmp_zero : qmpResponse := mkQmp None None "".

Definition qmpError_fields : fields qmpError := [
  ("class", field qe_Class (λ x e, mkQmpError x (qe_Desc e)) into_string);
  ("desc", field qe_Desc (λ x e, mkQmpError (qe_Class e) x) into_string)
].

(** [json.RawMessage] keeps whatever value is there, [null] included. *)
Definition into_raw : decoder (option json) := λ v _, Some (Some v).

Definition qmp_fields : fields qmpResponse := [
  ("return", field qr_Return (λ x r, mkQmp x (qr_Error r) (qr_Event r)) into_raw);
  ("error", field qr_Error (λ x r, mkQmp (qr_Return r) x (qr_Event r))
     (into_ptr (into_struct qmpError_fields) (mkQmpError "" "")));
  ("event", field qr_Event (λ x r, mkQmp (qr_Return r) (qr_Error r) x) into_string)
].

Definition timeout_text : string := "i/o timeout".

(** [decoder.Decode(&r)]: the next message of the connection, decoded over what
    [r] holds. *)
Definition decode_next (r : qmpResponse) (c : conn_script) : outcome (qmpResponse * conn_script) :=
  match c with
  | [] => Err timeout_text
  | None :: _ => Err timeout_text
  | Some v :: c' =>
      match into_struct qmp_fields v r with
      | Some r' => Ret (r', c')
      | None => Err "json: cannot unmarshal"
      end
  end.

(** The loop that reads the response: one variable for all messages. *)
Fixpoint await_response (r : qmpResponse) (c : conn_script) : outcome qmpResponse :=
  match c with
  | [] => Err ("read response: " +:+ timeout_text)
  | m :: c' =>
      match decode_next r [m] with
      | Err e => Err ("read response: " +:+ e)
      | Panic => Panic
      | Ret (r', _) => if negb (String.eqb (qr_Event r') "") then await_response r' c' else Ret r'
      end
  end.

Definition sendQMPCommandWithReturn (socketPath : string) (cmd : json) : M HW (option json) :=
  conn ← wrap "dial qmp" DialTimeout;
  _ ← wrap "set deadline" may_fail;
  '(_, conn) ← wrap "read qmp greeting" (lift_outcome (decode_next qmp_zero conn));
  _ ← wrap "send capabilities" may_fail;
  _ ← log (Qmp socketPath (JObj [("execute", JStr "qmp_capabilities")]));
  '(_, conn) ← wrap "read capabilities response" (lift_outcome (decode_next qmp_zero conn));
  _ ← wrap "send command" may_fail;
  _ ← log (Qmp socketPath cmd);
  resp ← lift_outcome (await_response qmp_zero conn);
  match qr_Error resp with
  | Some e => fail ("qmp error: " +:+ qe_Class e +:+ ": " +:+ qe_Desc e)
  | None => mret (qr_Return resp)
  end.

Definition sendQMPCommand (socketPath : string) (cmd : json) : M HW () :=
  _ ← sendQMPCommandWithReturn socketPath cmd; mret ().

(** [map[string]interface{}{"execute": name}] *)
Definition execute (name : string) : json := JObj [("execute", JStr name)].

(** * Bridges *)
Section manager.
Context `{Host HW}.

(** [_, _ = exec.Command(...).CombinedOutput()] *)
Definition run_quietly (args : list string) : M HW () := _ ← run_command args; mret ().

Definition EnsureBridge (bridge gatewayIP ipCIDR : string) : M HW () :=
  shown ← run_command ["ip"; "link"; "show"; bridge];
  match shown.2 with
  | None => run_quietly ["ip"; "link"; "set"; bridge; "up"]
  | Some _ =>
      added ← run_command ["ip"; "link"; "add"; bridge; "type"; "bridge"];
      match added.2 with
      | Some _ =>
          if Strings.Contains added.1 "exists" then mret ()
          else if Strings.Contains added.1 "Operation not permitted"
                  || Strings.Contains added.1 "permission" then mret ()
          else fail ("create bridge " +:+ bridge +:+ ": " +:+ added.1)
      | None =>
          up ← run_command ["ip"; "link"; "set"; bridge; "up"];
          match up.2 with
          | Some _ => mret ()
          | None =>
              if String.eqb gatewayIP "" then mret ()
              else
                let prefix :=
                  if String.eqb ipCIDR "" then 24%Z
                  else match ParseCIDR ipCIDR with
                       | Some (_, ipNet) =>
                           if (0 <? mask_ones (n_Mask ipNet))%Z then mask_ones (n_Mask ipNet) else 24%Z
                       | None => 24%Z
                       end in
                let gwCIDR := gatewayIP +:+ "/" +:+ pretty prefix in
                _ ← run_quietly ["ip"; "addr"; "add"; gwCIDR; "dev"; bridge];
                _ ← run_quietly ["iptables"; "-t"; "nat"; "-C"; "POSTROUTING"; "-s"; gwCIDR;
                                 "-j"; "MASQUERADE"];
                there ← run_command ["iptables"; "-t"; "nat"; "-C"; "POSTROUTING"; "-s";
                                     ipCIDR +:+ "/" +:+ pretty prefix; "-j"; "MASQUERADE"];
                _ ← (match there.2 with
                     | Some _ => run_quietly ["iptables"; "-t"; "nat"; "-A"; "POSTROUTING"; "-s";
                                              gwCIDR; "-j"; "MASQUERADE"]
                     | None => mret ()
                     end);
                run_quietly ["sysctl"; "-w"; "net.ipv4.ip_forward=1"]
          end
      end
  end.

(** * The manager *)
Context (baseDir : string).

Definition vmDir (vmID : string) : string := Filepath.Join [baseDir; vmID].
Definition pidFile (vmID : string) : string := Filepath.Join [vmDir vmID; "qemu.pid"].
Definition qmpSock (vmID : string) : string := Filepath.Join [vmDir vmID; "qmp.sock"].

(** ** Waiting *)
Fixpoint waitForSocket_loop (fuel : nat) (path : string) (deadline : Z) : M HW () :=
  match fuel with
  | O => panic
  | S fuel' =>
      t ← time_Now;
      if (t <? deadline)%Z then
        conn ← attempt DialTimeout;
        match conn with
        | inl _ => mret ()
        | inr _ => _ ← Sleep 100; waitForSocket_loop fuel' path deadline
        end
      else fail ("timeout waiting for socket " +:+ path)
  end.

(** Each round sleeps 100 milliseconds. *)
Definition waitForSocket (path : string) (timeout : Z) : M HW () :=
  t ← time_Now;
  waitForSocket_loop (Z.to_nat (timeout / 100 + 2)) path (t + timeout)%Z.

(** [os.Stat("/proc/<pid>")] *)
Definition stat_proc (pid : Z) : M HW (() + file_error) :=
  f ← fate;
  match f with
  | Some e => mret (inr (OtherError e))
  | None => b ← gets (λ w, h_alive w pid (h_clock w)); mret (if (b : bool) then inl () else inr NotExist)
  end.

Fixpoint waitForProcessExit_loop (fuel : nat) (pidPath : string) (deadline : Z) : M HW () :=
  match fuel with
  | O => panic
  | S fuel' =>
      t ← time_Now;
      if (t <? deadline)%Z then
        pidBytes ← read_file pidPath;
        match pidBytes with
        | inr _ => mret ()
        | inl s =>
            match Strconv.Atoi (Strings.TrimSpace s) with
            | None => mret ()
            | Some pid =>
                st ← stat_proc pid;
                if is_not_exist st then ignore (remove_file pidPath)
                else _ ← Sleep 200; waitForProcessExit_loop fuel' pidPath deadline
            end
        end
      else fail "timeout waiting for process to exit"
  end.

Definition waitForProcessExit (vmID : string) (timeout : Z) : M HW () :=
  t ← time_Now;
  waitForProcessExit_loop (Z.to_nat (timeout / 200 + 2)) (pidFile vmID) (t + timeout)%Z.

(** ** Starting *)
Definition nic_args (i : nat) (n : NIC) : list string :=
  ["-netdev"; "bridge,id=net" +:+ pretty i +:+ ",br=" +:+ q_Bridge n;
   "-device"; "virtio-net-pci,netdev=net" +:+ pretty i +:+ ",mac=" +:+ q_MACAddress n].

Definition qemu_args (cfg : VMConfig) (hasKVM : bool) : list string :=
  let machineType := if String.eqb (vc_MachineType cfg) "" then "q35" else vc_MachineType cfg in
  ["-name"; vc_Name cfg; "-smp"; pretty (vc_VCPUs cfg); "-m"; pretty (vc_MemoryMB cfg);
   "-drive"; "file=" +:+ vc_DiskPath cfg +:+ ",format=qcow2,cache=none"]
  ++ concat (imap nic_args (vc_NICs cfg))
  ++ ["-qmp"; "unix:" +:+ vc_QMPSocket cfg +:+ ",server,nowait";
      "-monitor"; "unix:" +:+ vc_MonitorSocket cfg +:+ ",server,nowait"]
  ++ (if hasKVM then ["-enable-kvm"; "-machine"; machineType +:+ ",accel=kvm"]
      else ["-machine"; machineType +:+ ",accel=tcg"])
  ++ ["-display"; "none"; "-daemonize"]
  ++ (if String.eqb (vc_CloudInit cfg) "" then []
      else ["-drive"; "file=" +:+ vc_CloudInit cfg +:+ ",format=raw,if=virtio"])
  ++ ["-pidfile"; pidFile (vc_ID cfg)].

(** [os.Create] of a log file. *)
Definition create_file (path : string) : M HW () := write_file path "".

Definition m_StartVM (cfg : VMConfig) : M HW () :=
  let dir := vmDir (vc_ID cfg) in
  _ ← wrap "create vm dir" (MkdirAll dir);
  match vc_NICs cfg with
  | [] => fail "no NICs provided"
  | nics =>
      _ ← iterM (λ n, ignore (EnsureBridge (q_Bridge n) "" "")) nics;
      kvm ← stat_file "/dev/kvm";
      _ ← wrap "create qemu stdout log" (create_file (Filepath.Join [dir; "qemu-stdout.log"]));
      _ ← wrap "create qemu stderr log" (create_file (Filepath.Join [dir; "qemu-stderr.log"]));
      started ← run_command ("qemu-system-x86_64" :: qemu_args cfg (is_ok kvm));
      match started.2 with
      | Some e => fail ("start qemu: " +:+ e)
      | None => wrap "wait for qmp socket" (waitForSocket (vc_QMPSocket cfg) 10000)
      end
  end.

(** ** Stopping *)
Definition killProcess (vmID : string) : M HW () :=
  pidBytes ← read_file (pidFile vmID);
  match pidBytes with
  | inr e => fail ("read pid file: " +:+ error_text (pidFile vmID) e)
  | inl s =>
      match Strconv.Atoi (Strings.TrimSpace s) with
      | None => fail "parse pid"
      | Some pid =>
          if (pid =? -1)%Z then fail "os: process already released"
          else if (pid =? 0)%Z then fail "os: process not initialized"
          else _ ← log (Kill pid); may_fail
      end
  end.

Definition m_StopVM (vmID : string) (force : bool) : M HW () :=
  r ← attempt (sendQMPCommand (qmpSock vmID) (execute (if force then "quit" else "system_powerdown")));
  match r with
  | inr _ => killProcess vmID
  | inl _ => waitForProcessExit vmID 30000
  end.

Definition m_RebootVM (vmID : string) (force : bool) : M HW () :=
  if force then
    r ← attempt (sendQMPCommand (qmpSock vmID) (execute "quit"));
    match r with
    | inr _ => killProcess vmID
    | inl _ =>
        _ ← waitForProcessExit vmID 10000;
        fail "force reboot requires restart of qemu process"
    end
  else sendQMPCommand (qmpSock vmID) (execute "system_reset").

(** ** Status *)
Record qmpStatus := mkQmpStatus { qs_Status : string; qs_Running : bool }.
Definition qmpStatus_fields : fields qmpStatus := [
  ("status", field qs_Status (λ x s, mkQmpStatus x (qs_Running s)) into_string);
  ("running", field qs_Running (λ x s, mkQmpStatus (qs_Status s) x) into_bool)
].

(** [json.Unmarshal(raw, &status)]; an absent [return] is no JSON text. *)
Definition decode_status (raw : option json) : option qmpStatus :=
  v ← raw; into_struct qmpStatus_fields v (mkQmpStatus "" false).

Definition m_GetVMStatus (vmID : string) : M HW string :=
  pidBytes ← read_file (pidFile vmID);
  match pidBytes with
  | inr NotExist => mret "stopped"
  | inr (OtherError e) => fail ("read pid file: " +:+ e)
  | inl s =>
      match Strconv.Atoi (Strings.TrimSpace s) with
      | None => fail "parse pid"
      | Some pid =>
          st ← stat_proc pid;
          if is_not_exist st then mret "stopped"
          else
            raw ← attempt (sendQMPCommandWithReturn (qmpSock vmID) (execute "query-status"));
            mret (match raw with
                  | inr _ => "running"
                  | inl raw => match decode_status raw with
                               | None => "running"
                               | Some s => qs_Status s
                               end
                  end)
      end
  end.

(** ** Disks *)
Definition CreateDiskFromImage (vmID name : string) (sizeBytes : Z) (imagePath : string) : M HW string :=
  let dir := vmDir vmID in
  _ ← wrap "create vm dir" (MkdirAll dir);
  let path := Filepath.Join [dir; name +:+ ".qcow2"] in
  there ← (if String.eqb imagePath "" then mret false
           else st ← stat_file imagePath; mret (is_ok st));
  if (there : bool) then _ ← qcow2_CreateWithBacking path imagePath sizeBytes; mret path
  else _ ← qcow2_Create path sizeBytes; mret path.

Definition m_CreateDisk (vmID name : string) (sizeBytes : Z) : M HW string :=
  CreateDiskFromImage vmID name sizeBytes "".

Definition blockdev_add (slot : Z) (diskPath : string) : json :=
  JObj [("arguments",
         JObj [("driver", JStr "qcow2");
               ("file", JObj [("driver", JStr "file"); ("filename", JStr diskPath)]);
               ("node-name", JStr ("drive" +:+ pretty slot)); ("read-only", JBool false)]);
        ("execute", JStr "blockdev-add")].
Definition device_add (slot : Z) : json :=
  JObj [("arguments",
         JObj [("bus", JStr ("pci." +:+ pretty (slot + 1)%Z)); ("drive", JStr ("drive" +:+ pretty slot));
               ("driver", JStr "virtio-blk-pci"); ("id", JStr ("virtio-blk-pci" +:+ pretty slot))]);
        ("execute", JStr "device_add")].
Definition device_del (deviceID : string) : json :=
  JObj [("arguments", JObj [("id", JStr deviceID)]); ("execute", JStr "device_del")].
Definition blockdev_del (deviceID : string) : json :=
  JObj [("arguments", JObj [("node-name", JStr deviceID)]); ("execute", JStr "blockdev-del")].

Definition m_AttachDisk (vmID diskPath : string) (slot : Z) : M HW () :=
  _ ← wrap "blockdev-add" (sendQMPCommand (qmpSock vmID) (blockdev_add slot diskPath));
  wrap "device_add" (sendQMPCommand (qmpSock vmID) (device_add slot)).

Definition m_DetachDisk (vmID deviceID : string) : M HW () :=
  _ ← wrap "device_del" (sendQMPCommand (qmpSock vmID) (device_del deviceID));
  _ ← Sleep 100;
  ignore (sendQMPCommand (qmpSock vmID) (blockdev_del deviceID)).

End manager.
