(* ===== verification/HostInfo.v ===== *)
(** [internal/hostinfo/hostinfo.go]: what the agent and the metrics collector
    read from [/proc].  The files are those of the node ([Host]); counters are
    64-bit integers that wrap around, quotients round toward zero, and a number
    that does not parse counts as what [strconv] returns beside its error.  An
    index out of range panics: that no reader does, whatever a file holds, is due
    to the tests of the number of fields and is proved at the end. *)
From Stdlib Require Import SpecFloat.
From stdpp Require Import base gmap strings list numbers pretty.
From S2P Require Import Prelude.
From S2P Require Import GoStd.
From S2P Require Import Host.
From S2P Require Import Float64.
From stdpp Require Import options.
Local Open Scope Z_scope.

(** * Numbers *)
Definition add64 (a b : Z) : Z := int64 (a + b).
Definition sub64 (a b : Z) : Z := int64 (a - b).
Definition mul64 (a b : Z) : Z := int64 (a * b).

(** [v, _ := strconv.ParseInt(s, 10, 64)] *)
Definition parse (s : string) : Z := (Strconv.ParseInt s).1.

(** A [float64] converted to an integer of [w] bits: toward zero; what does not
    fit becomes the smallest integer, as the amd64 instructions give it. *)
Definition to_int (w : Z) (f : float64) : Z :=
  let z := match f with
           | S754_zero _ => 0
           | S754_finite s m e =>
               let n := if 0 <=? e then Zpos m * 2 ^ e else Zpos m / 2 ^ (- e) in
               if s then - n else n
           | _ => 2 ^ w
           end in
  if (- 2 ^ (w - 1) <=? z) && (z <? 2 ^ (w - 1)) then z else - 2 ^ (w - 1).

Definition fsub (x y : float64) : float64 := SFsub 53 1024 x y.
Definition flt (x y : float64) : bool := SFltb x y.
Definition fle (x y : float64) : bool := SFleb x y.
Definition fzero : float64 := S754_zero false.
(** A decimal constant: [m * 10^e], correctly rounded. *)
Definition decimal (m e : Z) : float64 :=
  match m with
  | Z0 => fzero
  | Zpos p => if 0 <=? e then binary_normalize 53 1024 (Zpos p * 10 ^ e) 0 false
              else SFdiv 53 1024 (S754_finite false p 0) (S754_finite false (Z.to_pos (10 ^ (- e))) 0)
  | Zneg p => if 0 <=? e then binary_normalize 53 1024 (Zneg p * 10 ^ e) 0 false
              else SFdiv 53 1024 (S754_finite true p 0) (S754_finite false (Z.to_pos (10 ^ (- e))) 0)
  end.

(** [v, _ := strconv.ParseFloat(s, 64)] on decimal text: digits with at most one
    point, an optional sign and exponent; anything else is a syntax error, whose
    value is 0.  (Hexadecimal floats, [inf] and [nan] do not occur in [/proc].) *)
Fixpoint mantissa (s : string) (acc : Z) (frac : option Z) (any : bool) : option (Z * Z * string) :=
  match s with
  | EmptyString => if any then Some (acc, default 0 frac, "") else None
  | String c s' =>
      if Strconv.is_digit c
      then mantissa s' (acc * 10 + (Z.of_N (Ascii.N_of_ascii c) - 48)) ((λ k, k + 1) <$> frac) true
      else if Ascii.eqb c (Ascii.ascii_of_N 46) && bool_decide (frac = None)
      then mantissa s' acc (Some 0) any
      else if any then Some (acc, default 0 frac, s) else None
  end.

Definition exponent (s : string) : option Z :=
  match s with
  | EmptyString => Some 0
  | String c s' =>
      if Ascii.eqb c (Ascii.ascii_of_N 101) || Ascii.eqb c (Ascii.ascii_of_N 69)
      then Strconv.Atoi s' else None
  end.

Definition parse_unsigned_float (neg : bool) (s : string) : float64 :=
  match mantissa s 0 None false with
  | None => fzero
  | Some (m, k, rest) =>
      match exponent rest with
      | None => fzero
      | Some e => match m with
                  | Z0 => S754_zero neg
                  | _ => decimal (if neg then - m else m) (e - k)
                  end
      end
  end.

Definition parse_float (s : string) : float64 :=
  match s with
  | String c s' =>
      if Ascii.eqb c (Ascii.ascii_of_N 45) then parse_unsigned_float true s'
      else if Ascii.eqb c (Ascii.ascii_of_N 43) then parse_unsigned_float false s'
      else parse_unsigned_float false s
  | EmptyString => fzero
  end.

(** * Data *)
Record MemoryInfo := mkMemoryInfo {
  mi_TotalMB : Z; mi_UsedMB : Z; mi_FreeMB : Z; mi_AvailableMB : Z;
  mi_UsagePercent : float64; mi_SwapTotalMB : Z; mi_SwapUsedMB : Z;
}.
Record DiskInfo := mkDiskInfo {
  di_TotalGB : Z; di_UsedGB : Z; di_FreeGB : Z; di_UsagePercent : float64;
}.
Record DiskIOInfo := mkDiskIO { io_ReadBytes : Z; io_WriteBytes : Z; io_ReadIOPS : Z; io_WriteIOPS : Z }.
Record NetInterface := mkNetInterface {
  if_Name : string; if_RxBytes : Z; if_TxBytes : Z; if_RxPackets : Z; if_TxPackets : Z;
  if_RxErrors : Z; if_TxErrors : Z;
}.

Definition nl : Ascii.ascii := Ascii.ascii_of_N 10.
Definition split_lines (s : string) : list string := Strings.SplitByte s nl.

(** [l[i]], [strconv.ParseInt(fields[i], 10, 64)] and [l[i:]]. *)
Definition index {A} (l : list A) (i : nat) : outcome A :=
  match l !! i with Some x => Ret x | None => Panic end.
Definition int_at (fields : list string) (i : nat) : outcome Z := f ← index fields i; Ret (parse f).
Definition slice_from {A} (l : list A) (i : nat) : outcome (list A) :=
  if bool_decide (length l < i)%nat then Panic else Ret (drop i l).

(** A loop whose body may panic. *)
Fixpoint foldO {A B} (f : B → A → outcome B) (b : B) (l : list A) : outcome B :=
  match l with
  | [] => Ret b
  | x :: l' => b' ← f b x; foldO f b' l'
  end.

(** [os.ReadFile(path)], with its error. *)
Definition proc_file (path : string) : M HW string :=
  r ← read_file path;
  match r with inl s => mret s | inr e => fail (error_text path e) end.

(** * Processors *)
Definition count_cores (data : string) : Z :=
  foldl (λ n line, if Strings.HasPrefix line "processor" then int32 (n + 1) else n) 0 (split_lines data).

Definition ReadCPUCores : M HW Z := data ← proc_file "/proc/cpuinfo"; mret (count_cores data).

(** The first line that starts with "cpu ": its counters, or nothing when it has
    fewer than four. *)
Definition cpu_line (data : string) : option (list string) :=
  Strings.Fields <$> head (filter (λ l, Strings.HasPrefix l "cpu " = true) (split_lines data)).

Definition cpu_stat (data : string) : outcome (Z * Z) :=
  match cpu_line data with
  | Some fields =>
      if bool_decide (length fields < 5)%nat then Ret (0, 0)
      else
        rest ← slice_from fields 1;
        let vs := parse <$> rest in
        Ret (nth 3 vs 0, foldl add64 0 vs)
  | None => Ret (0, 0)
  end.

Definition ReadCPUStat : M HW (Z * Z) := data ← proc_file "/proc/stat"; lift_outcome (cpu_stat data).

(** [ReadUsedCPUs] skips short lines where [ReadCPUStat] stops at one. *)
Definition used_line (data : string) : option (list string) :=
  head (filter (λ fs, bool_decide (length fs < 5)%nat = false)
    (Strings.Fields <$> filter (λ l, Strings.HasPrefix l "cpu " = true) (split_lines data))).

(** The four counters. *)
Definition used_counters (fields : list string) : outcome (Z * Z * Z * Z) :=
  user ← int_at fields 1; nice ← int_at fields 2; system ← int_at fields 3; idle ← int_at fields 4;
  Ret (user, nice, system, idle).

Definition ReadUsedCPUs : M HW Z :=
  data ← proc_file "/proc/stat";
  match used_line data with
  | None => mret 0
  | Some fields =>
      '(user, nice, system, idle) ← lift_outcome (used_counters fields);
      let total := add64 (add64 (add64 user nice) system) idle in
      let used := add64 (add64 user nice) system in
      if total =? 0 then mret 0
      else
        totalCPUs ← or_zero 0 ReadCPUCores;
        let usage := fmul (fdiv (of_int used) (of_int total)) (of_int totalCPUs) in
        mret (to_int 32 (fadd usage (decimal 5 (-1))))
  end.

Definition ReadCPUUsage : M HW float64 :=
  '(idle, total) ← ReadCPUStat;
  mret (if total =? 0 then fzero
        else fdiv (fmul (of_int 100) (of_int (sub64 total idle))) (of_int total)).

(** * Memory: the value after each key, the last one when a key repeats *)
Definition meminfo (data : string) (key : string) : outcome Z :=
  foldO (λ v line, let fields := Strings.Fields line in
           if bool_decide (length fields < 2)%nat then Ret v
           else val ← int_at fields 1; name ← index fields 0; Ret (if String.eqb name key then val else v))
    0 (split_lines data).

Definition memory_used (data : string) : outcome (Z * Z) :=
  totalKB ← meminfo data "MemTotal:";
  availableKB ← meminfo data "MemAvailable:";
  Ret (Z.quot totalKB 1024, Z.quot (sub64 totalKB availableKB) 1024).

Definition ReadMemory : M HW (Z * Z) := data ← proc_file "/proc/meminfo"; lift_outcome (memory_used data).

Definition memory_info (data : string) : outcome MemoryInfo :=
  total ← meminfo data "MemTotal:";
  free ← meminfo data "MemFree:";
  available ← meminfo data "MemAvailable:";
  buffers ← meminfo data "Buffers:";
  cached ← meminfo data "Cached:";
  swapTotal ← meminfo data "SwapTotal:";
  swapFree ← meminfo data "SwapFree:";
  let used := sub64 (sub64 (sub64 total free) buffers) cached in
  let used := if used <? 0 then sub64 total available else used in
  Ret (mkMemoryInfo (Z.quot total 1024) (Z.quot used 1024) (Z.quot free 1024) (Z.quot available 1024)
    (if 0 <? total then fmul (fdiv (of_int used) (of_int total)) (of_int 100) else fzero)
    (Z.quot swapTotal 1024) (Z.quot (sub64 swapTotal swapFree) 1024)).

Definition ReadMemoryInfo : M HW MemoryInfo :=
  data ← proc_file "/proc/meminfo"; lift_outcome (memory_info data).

(** * Disks: what [statfs] answers is an argument (blocks, free, block size) *)
Definition disk_info (blocks bfree bsize : Z) : DiskInfo :=
  let gb := 1024 * 1024 * 1024 in
  let total := mul64 (int64 blocks) bsize in
  let free := mul64 (int64 bfree) bsize in
  let used := sub64 total free in
  mkDiskInfo (Z.quot total gb) (Z.quot used gb) (Z.quot free gb)
    (if 0 <? total then fmul (fdiv (of_int used) (of_int total)) (of_int 100) else fzero).

Definition counted_device (dev : string) : bool :=
  negb (Strings.HasPrefix dev "loop" || Strings.HasPrefix dev "ram")
  && (Strings.HasPrefix dev "sd" || Strings.HasPrefix dev "vd" || Strings.HasPrefix dev "nvme"
      || Strings.HasPrefix dev "mmc").

Definition disk_line (out : DiskIOInfo) (line : string) : outcome DiskIOInfo :=
  let fields := Strings.Fields line in
  if bool_decide (length fields < 14)%nat then Ret out
  else
    dev ← index fields 2;
    if negb (counted_device dev) then Ret out
    else
      reads ← int_at fields 3; sectorsRead ← int_at fields 5;
      writes ← int_at fields 7; sectorsWritten ← int_at fields 9;
      Ret (mkDiskIO (add64 (io_ReadBytes out) (mul64 sectorsRead 512))
             (add64 (io_WriteBytes out) (mul64 sectorsWritten 512))
             (add64 (io_ReadIOPS out) reads) (add64 (io_WriteIOPS out) writes)).

Definition disk_stats (data : string) : outcome DiskIOInfo := foldO disk_line (mkDiskIO 0 0 0 0) (split_lines data).

Definition ReadDiskStats : M HW DiskIOInfo := data ← proc_file "/proc/diskstats"; lift_outcome (disk_stats data).

(** * Load and uptime *)
Definition load_avg (data : string) : outcome (list float64) :=
  let fields := Strings.Fields data in
  if bool_decide (length fields < 3)%nat then Err "invalid loadavg"
  else foldO (λ out i, f ← index fields i; Ret (out ++ [parse_float f])) [] (seq 0 3).

Definition ReadLoadAvg : M HW (list float64) := data ← proc_file "/proc/loadavg"; lift_outcome (load_avg data).

(** [strconv.Atoi] where the error is dropped: the value as [ParseInt] gives it. *)
Definition load_procs (data : string) : outcome (Z * Z) :=
  let fields := Strings.Fields data in
  if bool_decide (length fields < 4)%nat then Ret (0, 0)
  else
    f ← index fields 3;
    let parts := Strings.SplitByte f (Ascii.ascii_of_N 47) in
    if negb (bool_decide (length parts = 2%nat)) then Ret (0, 0)
    else running ← int_at parts 0; total ← int_at parts 1; Ret (running, total).

Definition ReadLoadProcs : M HW (Z * Z) := data ← proc_file "/proc/loadavg"; lift_outcome (load_procs data).

Definition uptime_of (data : string) : outcome Z :=
  let fields := Strings.Fields data in
  if bool_decide (length fields < 1)%nat then Err "invalid uptime"
  else f ← index fields 0; Ret (to_int 64 (parse_float f)).

Definition ReadUptime : M HW Z := data ← proc_file "/proc/uptime"; lift_outcome (uptime_of data).

(** * Network *)
Definition colon : Ascii.ascii := Ascii.ascii_of_N 58.

Definition net_line (line : string) : outcome (option NetInterface) :=
  match Strings.CutByte (Strings.TrimSpace line) colon with
  | None => Ret None
  | Some (name, rest) =>
      let iface := Strings.TrimSpace name in
      if String.eqb iface "lo" then Ret None
      else
        let fields := Strings.Fields (Strings.TrimSpace rest) in
        if bool_decide (length fields < 16)%nat then Ret None
        else
          rxBytes ← int_at fields 0; rxPackets ← int_at fields 1; rxErrors ← int_at fields 2;
          txBytes ← int_at fields 8; txPackets ← int_at fields 9; txErrors ← int_at fields 10;
          Ret (Some (mkNetInterface iface rxBytes txBytes rxPackets txPackets rxErrors txErrors))
  end.

Definition net_interfaces (data : string) : outcome (list NetInterface) :=
  foldO (λ out line, i ← net_line line; Ret (out ++ option_list i)) [] (split_lines data).

Definition ReadNetwork : M HW (list NetInterface) :=
  data ← proc_file "/proc/net/dev"; lift_outcome (net_interfaces data).

Definition ReadNetworkTotals : M HW (Z * Z * Z * Z) :=
  ifaces ← ReadNetwork;
  mret (foldl (λ '(rx, tx, rp, tp) i, (add64 rx (if_RxBytes i), add64 tx (if_TxBytes i),
                                       add64 rp (if_RxPackets i), add64 tp (if_TxPackets i)))
          (0, 0, 0, 0) ifaces).

(** * No reader panics *)

(** [ranged o]: the computation does not panic. *)
Definition ranged {A} (o : outcome A) : Prop := o ≠ Panic.

Lemma ranged_ret {A} (a : A) : ranged (Ret a).
Proof. done. Qed.
Lemma ranged_err {A} e : ranged (Err e : outcome A).
Proof. done. Qed.
Lemma ranged_bind {A B} (o : outcome A) (k : A → outcome B) : ranged o → (∀ a, o = Ret a → ranged (k a)) → ranged (o ≫= k).
Proof. intros Ho Hk. destruct o as [a|e|]; [by apply Hk|done|done]. Qed.
Lemma ranged_index {A} (l : list A) i : (i < length l)%nat → ranged (index l i).
Proof. intros Hi. unfold index. by destruct (lookup_lt_is_Some_2 l i Hi) as [x ->]. Qed.
Lemma ranged_int_at fields i : (i < length fields)%nat → ranged (int_at fields i).
Proof. intros Hi. apply ranged_bind; [by apply ranged_index|done]. Qed.
Lemma ranged_slice {A} (l : list A) i : (i ≤ length l)%nat → ranged (slice_from l i).
Proof. intros Hi. unfold slice_from. by rewrite bool_decide_false by lia. Qed.
Lemma ranged_fold {A B} (f : B → A → outcome B) l : (∀ b x, x ∈ l → ranged (f b x)) → ∀ b, ranged (foldO f b l).
Proof.
  induction l as [|x l IH]; intros Hf b; simpl; [done|].
  apply ranged_bind; [apply Hf; constructor|]. intros b' _. apply IH. intros ???. apply Hf. by constructor.
Qed.

Create HintDb ranged.
#[export] Hint Resolve ranged_ret ranged_err : ranged.

(** Follow the tests and the accesses; a test of the length bounds them. *)
Ltac ranged_step :=
  first
  [ solve [auto with ranged nocore]
  | lazymatch goal with
    | |- ranged (index _ _) => apply ranged_index; lia
    | |- ranged (int_at _ _) => apply ranged_int_at; lia
    | |- ranged (slice_from _ _) => apply ranged_slice; lia
    | |- ranged (if bool_decide _ then _ else _) => case_bool_decide
    | |- ranged (if negb (bool_decide _) then _ else _) => case_bool_decide; cbn [negb]
    | |- ranged (if ?b then _ else _) => destruct b
    | |- ranged (match ?x with _ => _ end) => destruct x
    | |- ranged (foldO _ _ _) => apply ranged_fold; intros ? ? ?
    | |- ranged (_ ≫= _) => apply ranged_bind; [|intros ? _]
    end ].
Ltac ranged := cbv zeta; repeat ranged_step.

Lemma cpu_stat_ranged data : ranged (cpu_stat data).
Proof. unfold cpu_stat. ranged. Qed.
Lemma used_counters_ranged data fields : used_line data = Some fields → ranged (used_counters fields).
Proof.
  intros Hl. assert (5 ≤ length fields)%nat; [|unfold used_counters; ranged].
  unfold used_line in Hl. apply head_Some in Hl as [l Hl].
  assert (Hin : fields ∈ fields :: l) by constructor. rewrite <-Hl in Hin.
  apply list_elem_of_filter in Hin as [Hb _]. apply bool_decide_eq_false_1 in Hb. lia.
Qed.
Lemma meminfo_ranged data key : ranged (meminfo data key).
Proof. unfold meminfo. ranged. Qed.
#[export] Hint Resolve meminfo_ranged cpu_stat_ranged : ranged.
Lemma memory_used_ranged data : ranged (memory_used data).
Proof. unfold memory_used. ranged. Qed.
Lemma memory_info_ranged data : ranged (memory_info data).
Proof. unfold memory_info. ranged. Qed.
Lemma disk_stats_ranged data : ranged (disk_stats data).
Proof. unfold disk_stats, disk_line. ranged. Qed.
(** The loop over three indices. *)
Lemma load_avg_ranged data : ranged (load_avg data).
Proof.
  unfold load_avg. ranged. apply ranged_index.
  match goal with Hi : _ ∈ seq _ _ |- _ => apply elem_of_seq in Hi; lia end.
Qed.
(** It gives three numbers, which [CollectSystem] takes by their index. *)
Lemma load_avg_three data l : load_avg data = Ret l → length l = 3%nat.
Proof.
  unfold load_avg. case_bool_decide; [done|]. simpl. unfold index.
  destruct (Strings.Fields data !! 0%nat), (Strings.Fields data !! 1%nat), (Strings.Fields data !! 2%nat); simpl; try done.
  by intros [= <-].
Qed.
Lemma load_procs_ranged data : ranged (load_procs data).
Proof. unfold load_procs. ranged. Qed.
Lemma uptime_ranged data : ranged (uptime_of data).
Proof. unfold uptime_of. ranged. Qed.
Lemma net_interfaces_ranged data : ranged (net_interfaces data).
Proof. unfold net_interfaces, net_line. ranged. Qed.
#[export] Hint Resolve memory_used_ranged memory_info_ranged disk_stats_ranged load_avg_ranged load_procs_ranged
  uptime_ranged net_interfaces_ranged : ranged.
