(* ===== verification/Agent.v ===== *)
(** [services/nodeagent/agent.go]: the agent of a node.  It takes commands from
    the stream, prepares the disk, the network interfaces and the cloud-init
    image of a machine, has the manager ([Qemu]) start it, keeps the
    configuration in [vm.json] so that machines can be recovered after a
    restart, and reports heartbeats.

    The configuration is decoded from JSON and its interfaces are completed in
    place: [nics] in the code is the slice of the configuration itself, so that
    [vm.json] holds the completed interfaces. *)
From stdpp Require Import base gmap strings list numbers pretty.
From S2P Require Import Prelude.
From S2P Require Import GoStd.
From S2P Require Import GoNet.
From S2P Require Import GoJson.
From S2P Require Import Ipam.
From S2P Require Import Domain.
From S2P Require Import Qcow2.
From S2P Require Import Host.
From S2P Require Import CloudInit.
From S2P Require Import Qemu.
From S2P Require Import HostInfo.
From stdpp Require Import options.

(** * Data *)
Record NICConfig := mkNICConfig {
  nc_NetworkID : string;
  nc_MACAddress : string;
  nc_IPAddress : string;
  nc_Gateway : string;
  nc_Bridge : string;
  nc_Name : string;
}.
Definition nic_zero : NICConfig := mkNICConfig "" "" "" "" "" "".

Record VMStartConfig := mkStartConfig {
  sc_Name : string;
  sc_VCPUs : Z;
  sc_MemoryMB : Z;
  sc_DiskPath : string;
  sc_MACAddress : string;
  sc_SSHKey : string;
  sc_ImageURL : string;
  sc_ImageID : string;
  sc_ImagePath : string;
  sc_SizeBytes : Z;
  sc_MachineType : string;
  sc_NetworkInterfaces : list NICConfig;
}.
Definition start_zero : VMStartConfig := mkStartConfig "" 0 0 "" "" "" "" "" "" 0 "" [].

Definition set_nics (nics : list NICConfig) (c : VMStartConfig) : VMStartConfig :=
  mkStartConfig (sc_Name c) (sc_VCPUs c) (sc_MemoryMB c) (sc_DiskPath c) (sc_MACAddress c)
    (sc_SSHKey c) (sc_ImageURL c) (sc_ImageID c) (sc_ImagePath c) (sc_SizeBytes c)
    (sc_MachineType c) nics.
Definition set_disk (disk : string) (c : VMStartConfig) : VMStartConfig :=
  mkStartConfig (sc_Name c) (sc_VCPUs c) (sc_MemoryMB c) disk (sc_MACAddress c)
    (sc_SSHKey c) (sc_ImageURL c) (sc_ImageID c) (sc_ImagePath c) (sc_SizeBytes c)
    (sc_MachineType c) (sc_NetworkInterfaces c).
Definition set_mac (mac : string) (c : VMStartConfig) : VMStartConfig :=
  mkStartConfig (sc_Name c) (sc_VCPUs c) (sc_MemoryMB c) (sc_DiskPath c) mac
    (sc_SSHKey c) (sc_ImageURL c) (sc_ImageID c) (sc_ImagePath c) (sc_SizeBytes c)
    (sc_MachineType c) (sc_NetworkInterfaces c).

Record VMCommand := mkCommand {
  cmd_Action : string;
  cmd_VMID : string;
  cmd_Config : option VMStartConfig;
  cmd_Force : bool;
}.

Record VMInfo := mkVMInfo { vi_ID : string; vi_Status : string; vi_CPUs : Z; vi_Memory : Z }.

Record AgentHeartbeat := mkHeartbeat {
  hb_NodeID : string;
  hb_Timestamp : Z;
  hb_TotalCPUs : Z;
  hb_UsedCPUs : Z;
  hb_TotalMemoryMB : Z;
  hb_UsedMemoryMB : Z;
  hb_VMs : option (list VMInfo);
}.

(** * JSON *)
Definition NICConfig_fields : fields NICConfig := [
  ("network_id", field nc_NetworkID (λ x n, mkNICConfig x (nc_MACAddress n) (nc_IPAddress n)
     (nc_Gateway n) (nc_Bridge n) (nc_Name n)) into_string);
  ("mac_address", field nc_MACAddress (λ x n, mkNICConfig (nc_NetworkID n) x (nc_IPAddress n)
     (nc_Gateway n) (nc_Bridge n) (nc_Name n)) into_string);
  ("ip_address", field nc_IPAddress (λ x n, mkNICConfig (nc_NetworkID n) (nc_MACAddress n) x
     (nc_Gateway n) (nc_Bridge n) (nc_Name n)) into_string);
  ("gateway", field nc_Gateway (λ x n, mkNICConfig (nc_NetworkID n) (nc_MACAddress n)
     (nc_IPAddress n) x (nc_Bridge n) (nc_Name n)) into_string);
  ("bridge", field nc_Bridge (λ x n, mkNICConfig (nc_NetworkID n) (nc_MACAddress n)
     (nc_IPAddress n) (nc_Gateway n) x (nc_Name n)) into_string);
  ("name", field nc_Name (λ x n, mkNICConfig (nc_NetworkID n) (nc_MACAddress n)
     (nc_IPAddress n) (nc_Gateway n) (nc_Bridge n) x) into_string)
].

Definition into_nics : decoder (list NICConfig) := into_slice (into_struct NICConfig_fields) nic_zero.

(** All fields but the two that the persisted wrapper shadows. *)
Definition plain_fields : fields VMStartConfig := [
  ("name", field sc_Name (λ x c, mkStartConfig x (sc_VCPUs c) (sc_MemoryMB c) (sc_DiskPath c)
     (sc_MACAddress c) (sc_SSHKey c) (sc_ImageURL c) (sc_ImageID c) (sc_ImagePath c) (sc_SizeBytes c)
     (sc_MachineType c) (sc_NetworkInterfaces c)) into_string);
  ("vcpus", field sc_VCPUs (λ x c, mkStartConfig (sc_Name c) x (sc_MemoryMB c) (sc_DiskPath c)
     (sc_MACAddress c) (sc_SSHKey c) (sc_ImageURL c) (sc_ImageID c) (sc_ImagePath c) (sc_SizeBytes c)
     (sc_MachineType c) (sc_NetworkInterfaces c)) into_int32);
  ("memory_mb", field sc_MemoryMB (λ x c, mkStartConfig (sc_Name c) (sc_VCPUs c) x (sc_DiskPath c)
     (sc_MACAddress c) (sc_SSHKey c) (sc_ImageURL c) (sc_ImageID c) (sc_ImagePath c) (sc_SizeBytes c)
     (sc_MachineType c) (sc_NetworkInterfaces c)) into_int64);
  ("ssh_key", field sc_SSHKey (λ x c, mkStartConfig (sc_Name c) (sc_VCPUs c) (sc_MemoryMB c)
     (sc_DiskPath c) (sc_MACAddress c) x (sc_ImageURL c) (sc_ImageID c) (sc_ImagePath c)
     (sc_SizeBytes c) (sc_MachineType c) (sc_NetworkInterfaces c)) into_string);
  ("image_url", field sc_ImageURL (λ x c, mkStartConfig (sc_Name c) (sc_VCPUs c) (sc_MemoryMB c)
     (sc_DiskPath c) (sc_MACAddress c) (sc_SSHKey c) x (sc_ImageID c) (sc_ImagePath c)
     (sc_SizeBytes c) (sc_MachineType c) (sc_NetworkInterfaces c)) into_string);
  ("image_id", field sc_ImageID (λ x c, mkStartConfig (sc_Name c) (sc_VCPUs c) (sc_MemoryMB c)
     (sc_DiskPath c) (sc_MACAddress c) (sc_SSHKey c) (sc_ImageURL c) x (sc_ImagePath c)
     (sc_SizeBytes c) (sc_MachineType c) (sc_NetworkInterfaces c)) into_string);
  ("image_path", field sc_ImagePath (λ x c, mkStartConfig (sc_Name c) (sc_VCPUs c) (sc_MemoryMB c)
     (sc_DiskPath c) (sc_MACAddress c) (sc_SSHKey c) (sc_ImageURL c) (sc_ImageID c) x
     (sc_SizeBytes c) (sc_MachineType c) (sc_NetworkInterfaces c)) into_string);
  ("size_bytes", field sc_SizeBytes (λ x c, mkStartConfig (sc_Name c) (sc_VCPUs c) (sc_MemoryMB c)
     (sc_DiskPath c) (sc_MACAddress c) (sc_SSHKey c) (sc_ImageURL c) (sc_ImageID c) (sc_ImagePath c)
     x (sc_MachineType c) (sc_NetworkInterfaces c)) into_int64);
  ("machine_type", field sc_MachineType (λ x c, mkStartConfig (sc_Name c) (sc_VCPUs c)
     (sc_MemoryMB c) (sc_DiskPath c) (sc_MACAddress c) (sc_SSHKey c) (sc_ImageURL c) (sc_ImageID c)
     (sc_ImagePath c) (sc_SizeBytes c) x (sc_NetworkInterfaces c)) into_string);
  ("network_interfaces", field sc_NetworkInterfaces set_nics into_nics)
].

Definition VMStartConfig_fields : fields VMStartConfig :=
  plain_fields ++ [("disk_path", field sc_DiskPath set_disk into_string);
                   ("mac_address", field sc_MACAddress set_mac into_string)].

Definition VMCommand_fields : fields VMCommand := [
  ("action", field cmd_Action (λ x c, mkCommand x (cmd_VMID c) (cmd_Config c) (cmd_Force c)) into_string);
  ("vm_id", field cmd_VMID (λ x c, mkCommand (cmd_Action c) x (cmd_Config c) (cmd_Force c)) into_string);
  ("config", field cmd_Config (λ x c, mkCommand (cmd_Action c) (cmd_VMID c) x (cmd_Force c))
     (into_ptr (into_struct VMStartConfig_fields) start_zero));
  ("force", field cmd_Force (λ x c, mkCommand (cmd_Action c) (cmd_VMID c) (cmd_Config c) x) into_bool)
].

Definition decode_command (data : string) : option VMCommand :=
  v ← Unmarshal data; into_struct VMCommand_fields v (mkCommand "" "" None false).

Definition nic_json (n : NICConfig) : json :=
  JObj ([("network_id", JStr (nc_NetworkID n)); ("mac_address", JStr (nc_MACAddress n));
         ("ip_address", JStr (nc_IPAddress n))]
        ++ omit_str "gateway" (nc_Gateway n) ++ omit_str "bridge" (nc_Bridge n)
        ++ omit_str "name" (nc_Name n)).

(** The struct of [persistVMConfig]: the embedded configuration's [disk_path]
    and [mac_address] are shadowed by the outer fields, which come last. *)
Definition persisted_json (c : VMStartConfig) (diskPath mac isoPath : string) : json :=
  JObj ([("name", JStr (sc_Name c)); ("vcpus", JNum (sc_VCPUs c)); ("memory_mb", JNum (sc_MemoryMB c))]
        ++ omit_str "ssh_key" (sc_SSHKey c) ++ omit_str "image_url" (sc_ImageURL c)
        ++ omit_str "image_id" (sc_ImageID c) ++ omit_str "image_path" (sc_ImagePath c)
        ++ omit_num "size_bytes" (sc_SizeBytes c) ++ omit_str "machine_type" (sc_MachineType c)
        ++ omit_arr "network_interfaces" (nic_json <$> sc_NetworkInterfaces c)
        ++ [("disk_path", JStr diskPath); ("mac_address", JStr mac); ("iso_path", JStr isoPath)]).

(** The wrapper of [loadVMConfig]. *)
Record Wrapper := mkWrapper {
  wr_Config : VMStartConfig;
  wr_DiskPath : string;
  wr_MAC : string;
  wr_ISOPath : string;
}.
Definition Wrapper_fields : fields Wrapper :=
  ((λ f : string * (json → VMStartConfig → option VMStartConfig),
     (f.1, λ v w, c ← f.2 v (wr_Config w); Some (mkWrapper c (wr_DiskPath w) (wr_MAC w) (wr_ISOPath w))))
   <$> plain_fields)
  ++ [("disk_path", field wr_DiskPath (λ x w, mkWrapper (wr_Config w) x (wr_MAC w) (wr_ISOPath w)) into_string);
      ("mac_address", field wr_MAC (λ x w, mkWrapper (wr_Config w) (wr_DiskPath w) x (wr_ISOPath w)) into_string);
      ("iso_path", field wr_ISOPath (λ x w, mkWrapper (wr_Config w) (wr_DiskPath w) (wr_MAC w) x) into_string)].

Definition decode_persisted (data : string) : option VMStartConfig :=
  v ← Unmarshal data;
  w ← into_struct Wrapper_fields v (mkWrapper start_zero "" "" "");
  let c := wr_Config w in
  let c := if String.eqb (wr_DiskPath w) "" then c else set_disk (wr_DiskPath w) c in
  Some (if String.eqb (wr_MAC w) "" then c else set_mac (wr_MAC w) c).

Definition result_json (vmID action status error : string) : json :=
  JObj ([("vm_id", JStr vmID); ("action", JStr action); ("status", JStr status)]
        ++ omit_str "error" error).

Definition vm_info_json (v : VMInfo) : json :=
  JObj [("id", JStr (vi_ID v)); ("status", JStr (vi_Status v)); ("cpus", JNum (vi_CPUs v));
        ("memory_mb", JNum (vi_Memory v))].

(** A nil slice ([None]) is written as [null]. *)
Definition heartbeat_json (h : AgentHeartbeat) : json :=
  JObj [("node_id", JStr (hb_NodeID h)); ("timestamp", JNum (hb_Timestamp h));
        ("total_cpus", JNum (hb_TotalCPUs h)); ("used_cpus", JNum (hb_UsedCPUs h));
        ("total_memory_mb", JNum (hb_TotalMemoryMB h)); ("used_memory_mb", JNum (hb_UsedMemoryMB h));
        ("vms", match hb_VMs h with Some l => JArr (vm_info_json <$> l) | None => JNull end)].

(** * Addresses *)
Definition gatewayFromCIDR (cidrOrIP : string) : outcome string :=
  match ParseCIDR cidrOrIP with
  | None =>
      match ParseIP cidrOrIP with
      | Some parsed =>
          match To4 parsed with
          | None => Err "not IPv4"
          | Some v4 => Ret (String_IP (<[3%nat := 1%Z]> v4))
          end
      | None => Err (ParseCIDR_error cidrOrIP)
      end
  | Some (_, ipNet) =>
      match To4 (n_IP ipNet) with
      | Some gw => Ret (String_IP (PutUint32 (uint32 (Uint32 gw + 1))))
      | None => Ret (String_IP (n_IP ipNet))
      end
  end.

(** * Interfaces *)

(** What the loop of [StartVM] fills in: bridge, gateway, name, address. *)
Definition complete_nic (vmID : string) (i : nat) (n : NICConfig) : outcome NICConfig :=
  bridge ← (if String.eqb (nc_Bridge n) "" then
              match BridgeForNetwork (nc_NetworkID n) with
              | Ret br => Ret br
              | Err e => Err ("bridge for network " +:+ nc_NetworkID n +:+ ": " +:+ e)
              | Panic => Panic
              end
            else Ret (nc_Bridge n));
  let gateway :=
    if String.eqb (nc_Gateway n) "" && negb (String.eqb (nc_IPAddress n) "") then
      match gatewayFromCIDR (nc_IPAddress n) with Ret gw => gw | _ => nc_Gateway n end
    else nc_Gateway n in
  let name := if String.eqb (nc_Name n) "" then "ens" +:+ pretty (3 + i)%nat else nc_Name n in
  let mac := if String.eqb (nc_MACAddress n) "" then GenerateNICMAC vmID ("nic-" +:+ pretty i)
             else nc_MACAddress n in
  Ret (mkNICConfig (nc_NetworkID n) mac (nc_IPAddress n) gateway bridge name).

(** The interfaces of the cloud-init network configuration. *)
Definition cloud_ifaces (nics : list NICConfig) : list CloudInit.NetworkInterface :=
  (λ n, mkIface (nc_Name n) (nc_MACAddress n) [nc_IPAddress n] (nc_Gateway n) ["8.8.8.8"; "8.8.4.4"])
  <$> filter (λ n, nc_IPAddress n ≠ "") nics.

Section agent.
Context `{Host HW}.
Context (nodeID baseDir imagesDir : string).

Definition prepare_nic (vmID : string) (i : nat) (n : NICConfig) : M HW NICConfig :=
  n' ← lift_outcome (complete_nic vmID i n);
  _ ← ignore (EnsureBridge (nc_Bridge n') (nc_Gateway n') (nc_IPAddress n'));
  mret n'.

(** * Starting a machine *)

(** The image a new root disk is made from; "" for none. *)
Definition image_source (cfg : VMStartConfig) : M HW string :=
  if negb (String.eqb (sc_ImagePath cfg) "") then mret (sc_ImagePath cfg)
  else if negb (String.eqb (sc_ImageID cfg) "") then
    let candidate := Filepath.Join [imagesDir; sc_ImageID cfg +:+ ".qcow2"] in
    st ← stat_file candidate;
    if is_ok st then mret candidate
    else
      let raw := Filepath.Join [imagesDir; sc_ImageID cfg +:+ ".raw"] in
      st ← stat_file raw;
      mret (if is_ok st then raw else "")
  else mret "".

Definition root_disk (vmID : string) (cfg : VMStartConfig) : M HW string :=
  if negb (String.eqb (sc_DiskPath cfg) "") then mret (sc_DiskPath cfg)
  else
    let diskPath := Filepath.Join [vmDir baseDir vmID; "root.qcow2"] in
    st ← stat_file diskPath;
    if is_not_exist st then
      imagePath ← image_source cfg;
      let sizeBytes := if (sc_SizeBytes cfg =? 0)%Z then (20 * 1024 * 1024 * 1024)%Z else sc_SizeBytes cfg in
      wrap "create root disk"
        (if String.eqb imagePath "" then m_CreateDisk baseDir vmID "root" sizeBytes
         else CreateDiskFromImage baseDir vmID "root" sizeBytes imagePath)
    else mret diskPath.

Definition ssh_key (vmID : string) (cfg : VMStartConfig) : M HW string :=
  if String.eqb (sc_SSHKey cfg) "" then
    r ← read_file (Filepath.Join [vmDir baseDir vmID; "authorized_keys"]);
    mret (match r with inl s => Strings.TrimSpace s | inr _ => "" end)
  else mret (sc_SSHKey cfg).

(** The configuration the manager is given. *)
Definition qemu_config (vmID : string) (cfg : VMStartConfig) (nics : list NICConfig)
    (diskPath isoPath : string) : VMConfig :=
  mkVMConfig vmID (sc_Name cfg) (sc_VCPUs cfg) (sc_MemoryMB cfg) diskPath
    (match nics with n :: _ => nc_MACAddress n | [] => "" end)
    ((λ n, mkQNIC (nc_Bridge n) (nc_MACAddress n)) <$> nics)
    isoPath (qmpSock baseDir vmID) (Filepath.Join [vmDir baseDir vmID; "monitor.sock"])
    (sc_MachineType cfg).

Definition vm_json (vmID : string) : string := Filepath.Join [vmDir baseDir vmID; "vm.json"].

Definition persistVMConfig (vmID : string) (cfg : VMStartConfig) (diskPath mac isoPath : string) : M HW () :=
  write_file (vm_json vmID) (Marshal (persisted_json cfg diskPath mac isoPath)).

Definition StartVM (vmID : string) (cfg : option VMStartConfig) : M HW () :=
  match cfg with
  | None => fail "vm config is required"
  | Some cfg =>
      _ ← wrap "create vm dir" (MkdirAll (vmDir baseDir vmID));
      diskPath ← root_disk vmID cfg;
      sshKey ← ssh_key vmID cfg;
      nics ← (match sc_NetworkInterfaces cfg with
              | [] => fail "no network interfaces provided"
              | l => imapM (prepare_nic vmID) 0 l
              end);
      match cloud_ifaces nics with
      | [] => fail "no network interfaces with IP addresses"
      | ifaces =>
          isoPath ← wrap "generate cloud-init"
            (GenerateISO (Filepath.Join [vmDir baseDir vmID; "cloud-init"])
               (GenerateMetaData (sc_Name cfg))
               (GenerateUserDataFromString (sc_Name cfg) sshKey "ubuntu" "")
               (GenerateNetworkConfig (mkNetworkConfig ifaces)));
          let qcfg := qemu_config vmID cfg nics diskPath isoPath in
          _ ← wrap "start qemu" (m_StartVM baseDir qcfg);
          ignore (persistVMConfig vmID (set_nics nics cfg) diskPath (vc_MACAddress qcfg) isoPath)
      end
  end.

(** * Recovery *)
Definition loadVMConfig (vmID : string) : M HW VMStartConfig :=
  r ← read_file (vm_json vmID);
  match r with
  | inr e => fail (error_text (vm_json vmID) e)
  | inl data => match decode_persisted data with
                | Some c => mret c
                | None => fail "json: cannot unmarshal"
                end
  end.

Definition recover_entry (entry : string * bool) : M HW () :=
  let '(vmID, isDir) := entry in
  if negb isDir then mret ()
  else
    st ← stat_file (vm_json vmID);
    if is_not_exist st then mret ()
    else
      status ← attempt (m_GetVMStatus baseDir vmID);
      match status with
      | inl "running" => mret ()
      | _ =>
          cfg ← attempt (loadVMConfig vmID);
          match cfg with
          | inr _ => mret ()
          | inl c => ignore (StartVM vmID (Some c))
          end
      end.

Definition RecoverVMs : M HW () :=
  entries ← ReadDir baseDir;
  match entries with
  | inr NotExist => mret ()
  | inr (OtherError e) => fail ("read baseDir for recovery: " +:+ e)
  | inl l => iterM recover_entry l
  end.

(** * Stopping, rebooting, status *)
Definition StopVM (vmID : string) (force : bool) : M HW () :=
  status ← wrap "get vm status" (m_GetVMStatus baseDir vmID);
  if String.eqb status "stopped" then mret ()
  else
    _ ← wrap "stop vm" (m_StopVM baseDir vmID force);
    ignore (remove_file (vm_json vmID)).

Definition RebootVM (vmID : string) (force : bool) : M HW () :=
  status ← wrap "get vm status" (m_GetVMStatus baseDir vmID);
  if String.eqb status "stopped" then fail "cannot reboot stopped vm"
  else wrap "reboot vm" (m_RebootVM baseDir vmID force).

Definition status_of (status : string) : VMStatus :=
  if String.eqb status "running" then VMStatusRunning
  else if String.eqb status "paused" then VMStatusPaused
  else if String.eqb status "shutdown" || String.eqb status "guest-shutdown" then VMStatusStopped
  else if String.eqb status "reboot" then VMStatusRebooting
  else VMStatusStopped.

(** The status and the error that come back together. *)
Definition GetVMStatus (vmID : string) : M HW (VMStatus * option string) :=
  r ← attempt (m_GetVMStatus baseDir vmID);
  mret (match r with
        | inr e => (VMStatusError, Some e)
        | inl status => (status_of status, None)
        end).

(** * Disks *)
Definition CreateDisk (vmID name : string) (sizeBytes : Z) : M HW string :=
  wrap "create disk" (m_CreateDisk baseDir vmID name sizeBytes).
Definition AttachDisk (vmID diskPath : string) (slot : Z) : M HW () :=
  wrap "attach disk" (m_AttachDisk baseDir vmID diskPath slot).
Definition DetachDisk (vmID deviceID : string) : M HW () :=
  wrap "detach disk" (m_DetachDisk baseDir vmID deviceID).

(** * Commands *)
Definition js_Publish (subject data : string) : M HW () := _ ← may_fail; log (Published subject data).

Definition SubscribeCommands : M HW () :=
  _ ← wrap "create consumer" may_fail;
  _ ← wrap "subscribe commands" may_fail;
  log (Subscribed ("node-agent-" +:+ nodeID) (SubjectForNode nodeID ">")).

Definition perform (cmd : VMCommand) : M HW () :=
  if String.eqb (cmd_Action cmd) "start" then StartVM (cmd_VMID cmd) (cmd_Config cmd)
  else if String.eqb (cmd_Action cmd) "stop" then StopVM (cmd_VMID cmd) (cmd_Force cmd)
  else if String.eqb (cmd_Action cmd) "reboot" then RebootVM (cmd_VMID cmd) (cmd_Force cmd)
  else if String.eqb (cmd_Action cmd) "create_disk" then
    match cmd_Config cmd with
    | Some _ => _ ← CreateDisk (cmd_VMID cmd) "disk" (10 * 1024 * 1024 * 1024); mret ()
    | None => mret ()
    end
  else if String.eqb (cmd_Action cmd) "attach_disk" then
    match cmd_Config cmd with
    | Some c => AttachDisk (cmd_VMID cmd) (sc_DiskPath c) 1
    | None => mret ()
    end
  else if String.eqb (cmd_Action cmd) "detach_disk" then DetachDisk (cmd_VMID cmd) (cmd_VMID cmd)
  else fail ("unknown action: " +:+ cmd_Action cmd).

Definition handleCommand (data : string) : M HW () :=
  match decode_command data with
  | None => log Nak
  | Some cmd =>
      r ← attempt (perform cmd);
      let result := match r with
                    | inl _ => result_json (cmd_VMID cmd) (cmd_Action cmd) "success" ""
                    | inr e => result_json (cmd_VMID cmd) (cmd_Action cmd) "error" e
                    end in
      _ ← ignore (js_Publish ("events.vm." +:+ cmd_VMID cmd +:+ "." +:+ cmd_Action cmd) (Marshal result));
      match r with inl _ => log Ack | inr _ => log Nak end
  end.

(** * Heartbeats *)
Definition list_entry (acc : option (list VMInfo)) (entry : string * bool) : M HW (option (list VMInfo)) :=
  let '(vmID, isDir) := entry in
  if negb isDir then mret acc
  else
    status ← attempt (m_GetVMStatus baseDir vmID);
    match status with
    | inr _ => mret acc
    | inl status => mret (Some (default [] acc ++ [mkVMInfo vmID status 1 512]))
    end.

Definition listVMs : M HW (option (list VMInfo)) :=
  entries ← ReadDir baseDir;
  match entries with
  | inr NotExist => mret (Some [])
  | inr (OtherError e) => fail e
  | inl l => foldM list_entry None l
  end.

(** [time.Now().Unix()]; the clock counts milliseconds. *)
Definition now_unix : M HW Z := t ← time_Now; mret (t / 1000)%Z.

Definition collectHeartbeat : M HW AgentHeartbeat :=
  totalCPUs ← wrap "read total cpus" ReadCPUCores;
  usedCPUs ← wrap "read used cpus" ReadUsedCPUs;
  '(totalMem, usedMem) ← wrap "read memory" ReadMemory;
  vms ← or_zero (Some []) listVMs;
  t ← now_unix;
  mret (mkHeartbeat nodeID t totalCPUs usedCPUs totalMem usedMem vms).

Definition SendHeartbeat : M HW () :=
  h ← wrap "collect heartbeat" collectHeartbeat;
  wrap "publish heartbeat" (js_Publish ("heartbeats." +:+ nodeID) (Marshal (heartbeat_json h))).

End agent.

(** The identity of the node: as configured, or the name of the host. *)
Definition node_identity (configured hostname : string) : string :=
  if String.eqb configured "" then (if String.eqb hostname "" then "node-1" else hostname)
  else configured.

(** [NewAgent]: the defaults of the two directories. *)
Definition agent_dirs (baseDir imagesDir : string) : string * string :=
  (if String.eqb baseDir "" then "/var/lib/rymevisor/vms" else baseDir,
   if String.eqb imagesDir "" then "/var/lib/rymevisor/images" else imagesDir).
