(* ===== verification/AgentProofs.v ===== *)
(** Theorems on the QEMU manager and the node agent: the loops that wait end,
    every command is answered exactly once, what a start command runs, what is
    kept for recovery and what recovery does with it, and the replies of QEMU's
    monitor.

    All of them hold for every fate of the calls, every answer of the external
    programs, every script of the monitor and every passage of time, unless
    they say otherwise. *)
From stdpp Require Import base gmap strings list numbers pretty.
From S2P Require Import Prelude.
From S2P Require Import GoStd.
From S2P Require Import GoNet.
From S2P Require Import GoJson.
From S2P Require Import Ipam.
From S2P Require Import Domain.
From S2P Require Import Qcow2.
From S2P Require Import Host.
From S2P Require Import CloudInit.
From S2P Require Import Qemu.
From S2P Require Import HostInfo.
From S2P Require Import Agent.
From stdpp Require Import options.

(** * A calculus of effects

    [does P m]: whatever the world, [m] ends without panic, what it adds to the
    log satisfies [P], and a world without faults stays one. *)
Definition fault_free (w : HW) : Prop := h_fates w = [].
Definition does {A} (P : sys_event → Prop) (m : M HW A) : Prop :=
  ∀ w, wp m (λ o w', o ≠ Panic ∧ (∃ l, h_log w' = h_log w ++ l ∧ Forall P l) ∧
                     (fault_free w → fault_free w')) w.

Section does.
Context (P : sys_event → Prop).

Lemma does_ret {A} (a : A) : does P (mret a).
Proof using Type. intros w. split_and!; [done| |done]. exists []. by rewrite app_nil_r. Qed.
Lemma does_fail {A} e : does P (fail e : M HW A).
Proof using Type. intros w. split_and!; [done| |done]. exists []. by rewrite app_nil_r. Qed.
Lemma does_gets {A} (f : HW → A) : does P (gets f).
Proof using Type. intros w. split_and!; [done| |done]. exists []. by rewrite app_nil_r. Qed.
Lemma does_lift {A} (o : outcome A) : o ≠ Panic → does P (lift_outcome o).
Proof using Type. intros Ho w. split_and!; [done| |done]. exists []. by rewrite app_nil_r. Qed.
Lemma does_bind {A B} (m : M HW A) (k : A → M HW B) :
  does P m → (∀ a, does P (k a)) → does P (m ≫= k).
Proof using Type.
  intros Hm Hk w. apply wp_bind. eapply wp_mono; [apply Hm|]. intros [a|e|] w' (Hp & (l & El & Hl) & Hf); [|by eauto 10|done].
  eapply wp_mono; [apply Hk|]. intros o w'' (Ho & (l' & El' & Hl') & Hf'). split_and!; [done| |auto].
  exists (l ++ l'). rewrite El', El, (assoc_L (++)). split; [done|by apply Forall_app].
Qed.
Lemma does_wrap {A} ctx (m : M HW A) : does P m → does P (wrap ctx m).
Proof using Type.
  intros Hm w. specialize (Hm w). unfold wp, wrap in *. destruct (m w) as [[] w']; simpl in *;
    destruct Hm as [? ?]; by split.
Qed.
Lemma does_attempt {A} (m : M HW A) : does P m → does P (attempt m).
Proof using Type.
  intros Hm w. specialize (Hm w). unfold wp, attempt in *. destruct (m w) as [[] w']; simpl in *;
    destruct Hm as [? ?]; by split.
Qed.
Lemma does_or_zero {A} d (m : M HW A) : does P m → does P (or_zero d m).
Proof using Type.
  intros Hm w. specialize (Hm w). unfold wp, or_zero in *. destruct (m w) as [[] w']; simpl in *;
    destruct Hm as [? ?]; by split.
Qed.
Lemma does_ignore {A} (m : M HW A) : does P m → does P (ignore m).
Proof using Type.
  intros Hm w. specialize (Hm w). unfold wp, ignore in *. destruct (m w) as [[] w']; simpl in *;
    destruct Hm as [? ?]; by split.
Qed.
Lemma does_foldM {A B} (f : B → A → M HW B) l : (∀ b x, does P (f b x)) → ∀ b, does P (foldM f b l).
Proof using Type.
  intros Hf. induction l as [|x l IH]; intros b; simpl; [apply does_ret|]. by apply does_bind.
Qed.
Lemma does_iterM {A} (f : A → M HW ()) l : (∀ x, does P (f x)) → does P (iterM f l).
Proof using Type. intros Hf. by apply does_foldM. Qed.
Lemma does_imapM {A B} (f : nat → A → M HW B) l : (∀ i x, does P (f i x)) → ∀ i, does P (imapM f i l).
Proof using Type.
  intros Hf. induction l as [|x l IH]; intros i; simpl; [apply does_ret|].
  apply does_bind; [done|]. intros y. apply does_bind; [done|]. intros ys. apply does_ret.
Qed.
Lemma does_quiet {A} (m : M HW A) :
  (∀ w, (m w).1 ≠ Panic ∧ h_log (m w).2 = h_log w ∧ (fault_free w → fault_free (m w).2)) → does P m.
Proof using Type.
  intros Hm w. destruct (Hm w) as (? & E & ?). split_and!; [done| |done]. exists []. by rewrite E, app_nil_r.
Qed.
Lemma does_log e : P e → does P (log e).
Proof using Type. intros He w. split_and!; [done| |done]. exists [e]. split; [done|by constructor]. Qed.

Lemma does_fate : does P fate.
Proof using Type. apply does_quiet. intros w. unfold fate, fault_free. destruct (h_fates w) eqn:E; simpl; by rewrite ?E. Qed.
Lemma does_may_fail : does P may_fail.
Proof using Type. apply does_bind; [apply does_fate|]. intros [e|]; [apply does_fail|apply does_ret]. Qed.
Lemma does_time_Now : does P time_Now.
Proof using Type. apply does_quiet. intros w. unfold time_Now. by destruct (h_delays w). Qed.
Lemma does_Sleep ms : does P (Sleep ms).
Proof using Type. by apply does_quiet. Qed.
Lemma does_Dial : does P DialTimeout.
Proof using Type. apply does_quiet. intros w. unfold DialTimeout. by destruct (h_conns w) as [|[] ?]. Qed.
Lemma does_files f : does P (modify (hw_files f)).
Proof using Type. by apply does_quiet. Qed.
Lemma does_dirs f : does P (modify (hw_dirs f)).
Proof using Type. by apply does_quiet. Qed.

End does.

Create HintDb does.
#[export] Hint Resolve does_ret does_fail does_gets does_fate does_may_fail does_time_Now does_Sleep
  does_Dial does_files does_dirs : does.

(** Follow the structure of the program. *)
Ltac does_step :=
  first
  [ solve [auto with does nocore]
  | lazymatch goal with
    | |- does _ (wrap _ _) => apply does_wrap
    | |- does _ (attempt _) => apply does_attempt
    | |- does _ (ignore _) => apply does_ignore
    | |- does _ (or_zero _ _) => apply does_or_zero
    | |- does _ (iterM _ _) => apply does_iterM; intros ?
    | |- does _ (imapM _ _ _) => apply does_imapM; intros ? ?
    | |- does _ (foldM _ _ _) => apply does_foldM; intros ? ?
    | |- does _ (_ ≫= _) => apply does_bind; [|intros ?]
    | |- does _ (if ?b then _ else _) => destruct b
    | |- does _ (match ?x with _ => _ end) => destruct x
    end ].
Ltac does := repeat does_step.

(** * Waiting ends *)

(** Time passes, and nothing is logged. *)
Definition waited (deadline : Z) (w : HW) {A} (o : outcome A) (w' : HW) : Prop :=
  o ≠ Panic ∧ (∀ e, o = Err e → (deadline ≤ h_clock w')%Z) ∧ h_log w' = h_log w ∧
  (fault_free w → fault_free w').

Lemma wp_bind_now {A} (k : Z → M HW A) Q w :
  (∀ t w', (h_clock w ≤ t)%Z → h_clock w' = t → h_log w' = h_log w → (fault_free w → fault_free w') →
     wp (k t) Q w') →
  wp (time_Now ≫= k) Q w.
Proof.
  intros Hk. unfold wp, mbind, M_bind, time_Now. destruct (h_delays w) as [|d ds]; simpl.
  - by apply Hk.
  - apply (Hk (h_clock w + Z.max 0 d)%Z); [lia|done..].
Qed.

(** A computation that leaves the clock and the log alone and returns. *)
Definition still {A} (m : M HW A) : Prop :=
  ∀ w, ∃ a w', m w = (Ret a, w') ∧ h_clock w' = h_clock w ∧ h_log w' = h_log w ∧
               (fault_free w → fault_free w').

Lemma wp_bind_still {A B} (m : M HW A) (k : A → M HW B) Q w : still m →
  (∀ a w', h_clock w' = h_clock w → h_log w' = h_log w → (fault_free w → fault_free w') →
     wp (k a) Q w') → wp (m ≫= k) Q w.
Proof.
  intros Hm Hk. destruct (Hm w) as (a & w' & E & Hc & Hl & Hf). unfold wp, mbind, M_bind. rewrite E. by apply Hk.
Qed.

Lemma still_read path : still (read_file path).
Proof.
  intros w. unfold read_file, fate, mbind, M_bind, fault_free.
  destruct (h_fates w) as [|[e|] fs] eqn:Hf; simpl; do 2 eexists; split_and!; done.
Qed.
Lemma still_proc pid : still (stat_proc pid).
Proof.
  intros w. unfold stat_proc, fate, mbind, M_bind, fault_free.
  destruct (h_fates w) as [|[e|] fs] eqn:Hf; simpl; do 2 eexists; split_and!; done.
Qed.
Lemma still_dial : still (attempt DialTimeout).
Proof.
  intros w. unfold attempt, DialTimeout. destruct (h_conns w) as [|[c|] cs]; simpl;
    do 2 eexists; split_and!; done.
Qed.

Lemma wait_socket_loop path deadline fuel w :
  (deadline - h_clock w ≤ 100 * (Z.of_nat fuel - 1))%Z → (0 < fuel)%nat →
  wp (waitForSocket_loop fuel path deadline) (waited deadline w) w.
Proof.
  revert w. induction fuel as [|fuel IH]; intros w Hf H0; [lia|]. cbn [waitForSocket_loop].
  apply wp_bind_now. intros t w1 Ht Hc1 Hl1 Hf1. destruct (Z.ltb_spec t deadline) as [Hlt|Hge].
  - apply wp_bind_still; [apply still_dial|]. intros r w2 Hc2 Hl2 Hf2.
    destruct r; [apply wp_ret; split_and!; [done|done|congruence|auto]|].
    apply wp_bind, wp_modify. eapply wp_mono; [apply IH; simpl; lia|].
    intros o w3 (Hp & He & Hl & Hf3). simpl in Hl. split_and!; [done|done|congruence|auto].
  - apply wp_fail. split_and!; [done|intros; lia|done|done].
Qed.

Lemma wait_exit_loop path deadline fuel w :
  (deadline - h_clock w ≤ 200 * (Z.of_nat fuel - 1))%Z → (0 < fuel)%nat →
  wp (waitForProcessExit_loop fuel path deadline) (waited deadline w) w.
Proof.
  revert w. induction fuel as [|fuel IH]; intros w Hf H0; [lia|]. cbn [waitForProcessExit_loop].
  apply wp_bind_now. intros t w1 Ht Hc1 Hl1 Hf1. destruct (Z.ltb_spec t deadline) as [Hlt|Hge].
  - apply wp_bind_still; [apply still_read|]. intros r w2 Hc2 Hl2 Hf2.
    assert (Hdone : ∀ w', h_log w' = h_log w2 → (fault_free w2 → fault_free w') →
      waited deadline w (Ret ()) w')
      by (intros w' Hl Hf'; split_and!; [done|done|congruence|auto]).
    destruct r as [s|]; [|by apply wp_ret, Hdone]. destruct (Strconv.Atoi _) as [pid|]; [|by apply wp_ret, Hdone].
    apply wp_bind_still; [apply still_proc|]. intros st w3 Hc3 Hl3 Hf3. destruct (is_not_exist st).
    + unfold wp, ignore, remove_file, may_fail, fate, mbind, M_bind.
      unfold fault_free in *. destruct (h_fates w3) as [|[e|] fs] eqn:Hfs; simpl; apply Hdone; try done;
        intros H2; apply Hf3 in H2; congruence.
    + apply wp_bind, wp_modify. eapply wp_mono; [apply IH; simpl; lia|].
      intros o w4 (Hp & He & Hl & Hf4). simpl in Hl. split_and!; [done|done|congruence|auto].
  - apply wp_fail. split_and!; [done|intros; lia|done|done].
Qed.

Lemma waits_end baseDir vmID path timeout w :
  (0 ≤ timeout)%Z →
  wp (waitForSocket path timeout) (waited (h_clock w + timeout) w) w ∧
  wp (waitForProcessExit baseDir vmID timeout) (waited (h_clock w + timeout) w) w.
Proof.
  intros Ht.
  assert (Hlater : ∀ A t w1 (o : outcome A) w', (h_clock w ≤ t)%Z → h_log w1 = h_log w →
    (fault_free w → fault_free w1) →
    waited (t + timeout) w1 o w' → waited (h_clock w + timeout) w o w').
  { intros A t w1 o w' Ht1 Hl1 Hf1 (Hp & He & Hl & Hf). split_and!; [done| |congruence|auto].
    intros e Ho. specialize (He e Ho). lia. }
  pose proof (Z.div_mod timeout 100 ltac:(lia)). pose proof (Z.mod_pos_bound timeout 100 ltac:(lia)).
  pose proof (Z.div_mod timeout 200 ltac:(lia)). pose proof (Z.mod_pos_bound timeout 200 ltac:(lia)).
  pose proof (Z.div_pos timeout 100 ltac:(lia) ltac:(lia)).
  pose proof (Z.div_pos timeout 200 ltac:(lia) ltac:(lia)).
  split.
  - apply wp_bind_now. intros t w1 Ht1 Hc1 Hl1 Hf1. eapply wp_mono; [apply wait_socket_loop; lia|].
    intros o w'. by apply Hlater.
  - apply wp_bind_now. intros t w1 Ht1 Hc1 Hl1 Hf1. eapply wp_mono; [apply wait_exit_loop; lia|].
    intros o w'. by apply Hlater.
Qed.

(** C35: [waitForSocket] and [waitForProcessExit] end, whatever the dials, the
    files and the processes do and however time passes: the number of rounds
    the definitions are given is never used up.  They report a timeout only when
    the time given has really passed, and have no effect of their own. *)
Theorem waiting_ends baseDir vmID path timeout w :
  (0 ≤ timeout)%Z →
  wp (waitForSocket path timeout) (waited (h_clock w + timeout) w) w ∧
  wp (waitForProcessExit baseDir vmID timeout) (waited (h_clock w + timeout) w) w.
Proof. apply waits_end. Qed.

(** * What the operations do to the outside *)
Lemma decode_next_no_panic r c : decode_next r c ≠ Panic.
Proof. destruct c as [|[v|] c]; simpl; [done| |done]. by destruct (into_struct _ _ _). Qed.

Lemma await_no_panic r c : await_response r c ≠ Panic.
Proof.
  revert r. induction c as [|m c IH]; intros r; [done|]. cbn [await_response].
  pose proof (decode_next_no_panic r [m]) as Hd. destruct (decode_next r [m]) as [[r' ?]| |]; [|done|done].
  by destruct (negb _).
Qed.

Lemma BridgeForNetwork_ret id : BridgeForNetwork id ≠ Panic.
Proof. unfold BridgeForNetwork. by repeat case_match. Qed.

Lemma complete_nic_no_panic vmID i n : complete_nic vmID i n ≠ Panic.
Proof.
  unfold complete_nic. pose proof (BridgeForNetwork_ret (nc_NetworkID n)).
  destruct (String.eqb (nc_Bridge n) ""); [|done]. by destruct (BridgeForNetwork _).
Qed.

#[export] Hint Extern 1 (does _ (lift_outcome _)) =>
  apply does_lift; first [apply decode_next_no_panic | apply await_no_panic | apply complete_nic_no_panic] : does.
#[export] Hint Extern 2 (does _ (lift_outcome ?o)) => apply does_lift; change (ranged o); solve [auto with ranged nocore] : does.

Section effects.
Context (prog : list string → gmap string string → gmap string string).
Context (P : sys_event → Prop).

Local Instance host_programs : Host HW := host_command prog.

Lemma does_run args : P (Exec args) → does P (run_command args).
Proof using Type.
  intros HP w. unfold wp, run_command, host_programs, host_command. simpl.
  destruct (h_results w) as [|r rs]; simpl; (split_and!; [done| |done]; exists [Exec args]; split; [done|by constructor]).
Qed.

Lemma does_MkdirAll path : does P (MkdirAll path).
Proof using Type. unfold MkdirAll. does. Qed.
Lemma does_read path : does P (read_file path).
Proof using Type. unfold read_file. does. Qed.
Lemma does_stat path : does P (stat_file path).
Proof using Type. unfold stat_file. does. Qed.
Lemma does_write path c : does P (write_file path c).
Proof using Type. unfold write_file. does. Qed.
Lemma does_remove path : does P (remove_file path).
Proof using Type. unfold remove_file. does. Qed.
Lemma does_readdir path : does P (ReadDir path).
Proof using Type. unfold ReadDir. does. Qed.
Lemma does_stat_proc pid : does P (stat_proc pid).
Proof using Type. unfold stat_proc. does. Qed.
Hint Resolve does_MkdirAll does_read does_stat does_write does_remove does_readdir does_stat_proc : does.

Lemma does_waited {A} (m : M HW A) : (∀ w, ∃ d, wp m (waited d w) w) → does P m.
Proof using Type.
  intros Hm w. destruct (Hm w) as [d (Hp & _ & Hl & Hf)]. split_and!; [done| |done]. exists []. by rewrite app_nil_r.
Qed.

Lemma does_waitForSocket path t : (0 ≤ t)%Z → does P (waitForSocket path t).
Proof using Type. intros Ht. apply does_waited. intros w. eexists. by apply (waits_end "" "" path t w). Qed.
Lemma does_waitForProcessExit base id t : (0 ≤ t)%Z → does P (waitForProcessExit base id t).
Proof using Type. intros Ht. apply does_waited. intros w. eexists. by apply (waits_end base id "" t w). Qed.
Hint Resolve does_waitForSocket does_waitForProcessExit : does.
Hint Extern 0 (_ ≤ _)%Z => lia : does.

Section monitor.
Context (HQ : ∀ s c, P (Qmp s c)).

Lemma does_send sock cmd : does P (sendQMPCommandWithReturn sock cmd).
Proof using HQ. unfold sendQMPCommandWithReturn. does; by apply does_log. Qed.
Lemma does_sendQMP sock cmd : does P (sendQMPCommand sock cmd).
Proof using HQ. unfold sendQMPCommand. apply does_bind; [apply does_send|intros; apply does_ret]. Qed.
Hint Resolve does_send does_sendQMP : does.

Lemma does_m_GetVMStatus base id : does P (m_GetVMStatus base id).
Proof using HQ. unfold m_GetVMStatus. does. Qed.
Lemma does_m_AttachDisk base id disk slot : does P (m_AttachDisk base id disk slot).
Proof using HQ. unfold m_AttachDisk. does. Qed.
Lemma does_m_DetachDisk base id dev : does P (m_DetachDisk base id dev).
Proof using HQ. unfold m_DetachDisk. does. Qed.
Hint Resolve does_m_GetVMStatus does_m_AttachDisk does_m_DetachDisk : does.

Context (HK : ∀ pid, P (Kill pid)).

Lemma does_kill base id : does P (killProcess base id).
Proof using HK. unfold killProcess. does. by apply does_log. Qed.
Hint Resolve does_kill : does.
Lemma does_m_StopVM base id force : does P (m_StopVM base id force).
Proof using HQ HK. unfold m_StopVM. does. Qed.
Lemma does_m_RebootVM base id force : does P (m_RebootVM base id force).
Proof using HQ HK. unfold m_RebootVM. does. Qed.
Hint Resolve does_m_StopVM does_m_RebootVM : does.

Lemma does_StopVM base id force : does P (StopVM base id force).
Proof using HQ HK. unfold StopVM. does. Qed.
Lemma does_RebootVM base id force : does P (RebootVM base id force).
Proof using HQ HK. unfold RebootVM. does. Qed.
Hint Resolve does_StopVM does_RebootVM : does.

(** The programs that prepare a start, [qemu-img], and QEMU itself. *)
Context (HT : ∀ c args, existsb (String.eqb c) ["ip"; "iptables"; "sysctl"; "genisoimage"] = true →
  P (Exec (c :: args))).
Context (HI : ∀ args, P (Exec ("qemu-img" :: args))).
Context (HS : ∀ args, P (Exec ("qemu-system-x86_64" :: args))).

Lemma does_tool c args : existsb (String.eqb c) ["ip"; "iptables"; "sysctl"; "genisoimage"] = true →
  does P (run_command (c :: args)).
Proof using HT. intros Hc. by apply does_run, HT. Qed.
Lemma does_image args : does P (run_command ("qemu-img" :: args)).
Proof using HI. by apply does_run. Qed.
Lemma does_system args : does P (run_command ("qemu-system-x86_64" :: args)).
Proof using HS. by apply does_run. Qed.
Hint Resolve does_tool does_image does_system : does.
Hint Extern 0 (existsb _ _ = true) => reflexivity : does.

Lemma does_EnsureBridge b g c : does P (EnsureBridge b g c).
Proof using HT. unfold EnsureBridge, run_quietly. does. Qed.
Hint Resolve does_EnsureBridge : does.
Lemma does_GenerateISO d m u n : does P (GenerateISO d m u n).
Proof using HT. unfold GenerateISO. does. Qed.
Hint Resolve does_GenerateISO : does.
Lemma does_prepare_nic id i n : does P (prepare_nic id i n).
Proof using HT. unfold prepare_nic. does. Qed.
Hint Resolve does_prepare_nic : does.
Lemma does_CreateDiskFromImage base id name size img : does P (CreateDiskFromImage base id name size img).
Proof using HI.
  unfold CreateDiskFromImage, qcow2_CreateWithBacking, qcow2_Create, qcow2_Resize, qcow2_Stat, qemu_img. does.
Qed.
Hint Resolve does_CreateDiskFromImage : does.
Lemma does_root_disk base imgs id cfg : does P (root_disk base imgs id cfg).
Proof using HI. unfold root_disk, image_source, m_CreateDisk. does. Qed.
Hint Resolve does_root_disk : does.
Lemma does_ssh_key base id cfg : does P (ssh_key base id cfg).
Proof using Type. unfold ssh_key. does. Qed.
Hint Resolve does_ssh_key : does.
Lemma does_m_StartVM base cfg : does P (m_StartVM base cfg).
Proof using HT HS. unfold m_StartVM, create_file. does. Qed.
Hint Resolve does_m_StartVM : does.
Lemma does_StartVM base imgs id cfg : does P (StartVM base imgs id cfg).
Proof using HT HI HS. unfold StartVM, persistVMConfig. does. Qed.
Hint Resolve does_StartVM : does.
Lemma does_recover base imgs e : does P (recover_entry base imgs e).
Proof using HQ HT HI HS. unfold recover_entry, loadVMConfig. does. Qed.
Hint Resolve does_recover : does.
Lemma does_perform base imgs cmd : does P (perform base imgs cmd).
Proof using HQ HK HT HI HS. unfold perform, CreateDisk, m_CreateDisk, AttachDisk, DetachDisk. does. Qed.

End monitor.
End effects.

(** * Commands *)

(** Effects of carrying out a command, as opposed to answering it. *)
Definition acts (e : sys_event) : Prop :=
  match e with Exec _ | Qmp _ _ | Kill _ => True | _ => False end.

Section commands.
Context (prog : list string → gmap string string → gmap string string).
Context (nodeID baseDir imagesDir : string).
Local Existing Instance host_programs.
Local Abbreviation perform := (@perform (host_programs prog) baseDir imagesDir).
Local Abbreviation handleCommand := (@handleCommand (host_programs prog) baseDir imagesDir).

(** The result that is published for a command. *)
Definition result_of (cmd : VMCommand) (o : outcome ()) : json :=
  match o with
  | Err e => result_json (cmd_VMID cmd) (cmd_Action cmd) "error" e
  | _ => result_json (cmd_VMID cmd) (cmd_Action cmd) "success" ""
  end.

(** The next call fails. *)
Definition fails_next (w : HW) : bool := match h_fates w with Some _ :: _ => true | _ => false end.

Lemma publish_log subj data w :
  ∃ w', ignore (js_Publish subj data) w = (Ret (), w') ∧
        h_log w' = h_log w ++ (if fails_next w then [] else [Published subj data]).
Proof using Type.
  unfold ignore, js_Publish, may_fail, fate, mbind, M_bind, fails_next.
  destruct (h_fates w) as [|[e|] fs]; simpl; eexists; (split; [reflexivity|]); simpl; by rewrite ?app_nil_r.
Qed.

Lemma command_answers data w :
  ∃ w', handleCommand data w = (Ret (), w') ∧
  match decode_command data with
  | None => h_log w' = h_log w ++ [Nak]
  | Some cmd =>
      ∃ did, h_log (perform cmd w).2 = h_log w ++ did ∧ Forall acts did ∧
        h_log w' = h_log w ++ did ++
          (if fails_next (perform cmd w).2 then []
           else [Published ("events.vm." +:+ cmd_VMID cmd +:+ "." +:+ cmd_Action cmd)
                   (Marshal (result_of cmd (perform cmd w).1))]) ++
          [match (perform cmd w).1 with Ret _ => Ack | _ => Nak end]
  end.
Proof using Type.
  unfold handleCommand. destruct (decode_command data) as [cmd|]; [|by eexists].
  destruct (does_perform prog acts ltac:(done) ltac:(done) ltac:(done) ltac:(done) ltac:(done) baseDir imagesDir cmd w)
    as (Hp & (did & Hdid & Hacts) & _).
  unfold mbind, M_bind, attempt. unfold wp in *.
  destruct (perform cmd w) as [o w1]. simpl in *.
  set (subj := "events.vm." +:+ cmd_VMID cmd +:+ "." +:+ cmd_Action cmd).
  destruct o as [[]|e|]; [| |done]; simpl;
    match goal with |- context [ignore (js_Publish ?s ?d)] => destruct (publish_log s d w1) as (w2 & E2 & Hl2) end;
    rewrite E2; simpl; (eexists; split; [reflexivity|]); simpl.
  all: exists did; split_and!; [done|done|]; rewrite Hl2, Hdid, <-!(assoc_L (++)); reflexivity.
Qed.

(** C32: A message on the agent's subject is answered exactly once and never
    makes the agent panic.  What is not a command is rejected without effect.
    A command is carried out first (running programs, talking to QEMU, sending
    signals); then its result is published, once, as "success" or as "error" with
    the text of the error, unless that very call of the publisher fails, whose
    error the code ignores; then the message is acknowledged if the command
    succeeded and given back to the stream if it did not. *)
Theorem command_answered_once data w :
  ∃ w', handleCommand data w = (Ret (), w') ∧
  match decode_command data with
  | None => h_log w' = h_log w ++ [Nak]
  | Some cmd =>
      ∃ did, h_log (perform cmd w).2 = h_log w ++ did ∧ Forall acts did ∧
        h_log w' = h_log w ++ did ++
          (if fails_next (perform cmd w).2 then []
           else [Published ("events.vm." +:+ cmd_VMID cmd +:+ "." +:+ cmd_Action cmd)
                   (Marshal (result_of cmd (perform cmd w).1))]) ++
          [match (perform cmd w).1 with Ret _ => Ack | _ => Nak end]
  end.
Proof using Type. apply command_answers. Qed.

(** Effects other than running a program. *)
Definition no_program (e : sys_event) : Prop := match e with Exec _ => False | _ => True end.

(** What a computation that ends without fault adds to the log. *)
Lemma does_log_grows {A} (m : M HW A) w o w' : does (λ _, True) m → m w = (o, w') →
  ∃ l, h_log w' = h_log w ++ l.
Proof using Type. intros Hm E. destruct (Hm w) as (_ & (l & Hl & _) & _). rewrite E in Hl. eauto. Qed.

Lemma kill_logs vmID w w' : killProcess baseDir vmID w = (Ret (), w') →
  ∃ pid, h_log w' = h_log w ++ [Kill pid].
Proof using Type.
  unfold killProcess. destruct (still_read (pidFile baseDir vmID) w) as (r & w1 & E & _ & Hl & _).
  unfold mbind, M_bind. rewrite E. destruct r as [s|]; [|done].
  destruct (Strconv.Atoi _) as [pid|]; [|done].
  destruct (pid =? -1)%Z; [done|]. destruct (pid =? 0)%Z; [done|].
  unfold may_fail, fate, mbind, M_bind, log, modify. simpl. rewrite <-Hl. intros E2. exists pid.
  destruct (h_fates w1) as [|[e|] fs]; by inversion E2.
Qed.

(** A forced reboot never brings a machine back.  It starts no program at
    all, so no QEMU; and when the command nevertheless succeeds, that is because
    the monitor could not be reached and the process was killed instead. *)
Theorem forced_reboot_never_restarts vmID w :
  wp (RebootVM baseDir vmID true) (λ o w',
    ∃ l, h_log w' = h_log w ++ l ∧ Forall no_program l ∧ o ≠ Panic ∧
         (o = Ret () → ∃ pid, last l = Some (Kill pid))) w.
Proof using Type.
  destruct (does_RebootVM no_program ltac:(done) ltac:(done) baseDir vmID true w) as (Hp & (l & Hl & Hall) & _).
  unfold wp in *. exists l. split_and!; [done..|]. intros Ho.
  unfold RebootVM in *. revert Hl Ho. unfold wrap, mbind, M_bind.
  pose proof (does_log_grows (m_GetVMStatus baseDir vmID) w _ _ (does_m_GetVMStatus _ (λ _ _, I) _ _) (surjective_pairing _)) as [l0 Hl0].
  destruct (m_GetVMStatus baseDir vmID w) as [[status|e|] w1]; simpl in *; try done.
  destruct (String.eqb status "stopped"); [done|]. unfold m_RebootVM, mbind, M_bind, attempt.
  set (send := sendQMPCommand _ _).
  pose proof (does_log_grows send w1 _ _ (does_sendQMP _ (λ _ _, I) _ _) (surjective_pairing _)) as [l1 Hl1].
  destruct (send w1) as [[u|e|] w2]; simpl in *; try done.
  - destruct (waitForProcessExit baseDir vmID 10000 w2) as [[|?|] ?]; simpl; done.
  - destruct (killProcess baseDir vmID w2) as [[[]|?|] w3] eqn:Ek; simpl; try done.
    destruct (kill_logs _ _ _ Ek) as [pid Hk]. intros Hl _. exists pid.
    assert (l = (l0 ++ l1) ++ [Kill pid]) as ->.
    { apply (inj (h_log w ++.)). rewrite <-Hl, Hk, Hl1, Hl0. by rewrite !(assoc_L (++)). }
    by rewrite last_snoc.
Qed.
End commands.

(** * The monitor protocol *)

(** A message that says nothing of an event: no member is called [event]. *)
Definition silent (m : option json) : Prop :=
  match m with
  | Some (JObj kvs) => Forall (λ kv, Strings.ToLower kv.1 ≠ "event") kvs
  | Some _ => True
  | None => True
  end.

(** An event, as QEMU sends it. *)
Definition qmp_event (name : string) (data : list (string * json)) : json :=
  JObj (("event", JStr name) :: data).

(** A message that the code can decode. *)
Definition readable (v : json) : Prop := is_Some (into_struct qmp_fields v qmp_zero).

Lemma field_event k d v r r' : find_field qmp_fields k = Some d → Strings.ToLower k ≠ "event" →
  d v r = Some r' → qr_Event r' = qr_Event r.
Proof.
  unfold find_field, find_exact, find_fold, qmp_fields. intros Hd Hk.
  assert (He : String.eqb "event" k = false).
  { apply String.eqb_neq. by intros <-. }
  assert (Hf : String.eqb "event" (Strings.ToLower k) = false) by by apply String.eqb_neq.
  revert Hd. cbn [find_by]. change (Strings.ToLower "return") with "return".
  change (Strings.ToLower "error") with "error". change (Strings.ToLower "event") with "event".
  rewrite He, Hf. destruct (String.eqb "return" k), (String.eqb "error" k),
    (String.eqb "return" (Strings.ToLower k)), (String.eqb "error" (Strings.ToLower k));
    try done; intros [= <-]; unfold field, into_raw, into_ptr; intros E; clear He Hf Hk;
    destruct v; simpl in E; try (by inversion E);
    destruct (into_members _ _ _); simpl in E; by inversion E.
Qed.

Lemma silent_keeps_event v r r' : silent (Some v) → into_struct qmp_fields v r = Some r' →
  qr_Event r' = qr_Event r.
Proof.
  destruct v as [| | | | | |kvs]; simpl; try (by intros _ [= <-]); try done.
  intros Hk. revert r. induction Hk as [|[k v] kvs Hk _ IH]; intros r; cbn [into_members]; [by intros [= <-]|].
  destruct (find_field qmp_fields k) as [d|] eqn:Ed; [|by apply IH].
  destruct (d v r) as [r1|] eqn:E1; cbn [mbind option_bind]; [|done].
  intros E%IH. rewrite E. by eapply field_event.
Qed.

(** Once the variable holds an event, no silent message makes the loop stop. *)
Lemma await_stuck r c : qr_Event r ≠ "" → Forall silent c → ∃ e, await_response r c = Err e.
Proof.
  intros Hr Hc. revert r Hr. induction Hc as [|m c Hm _ IH]; intros r Hr; [by eexists|].
  cbn [await_response]. destruct m as [v|]; [|by eexists]. cbn [decode_next].
  destruct (into_struct qmp_fields v r) as [r'|] eqn:E; [|by eexists].
  pose proof (silent_keeps_event v r r' Hm E) as He. rewrite He.
  rewrite (proj2 (String.eqb_neq _ _) Hr). simpl. apply IH. by rewrite He.
Qed.

Lemma event_decodes name data r : Forall (λ kv, Strings.ToLower kv.1 ≠ "event") data →
  into_struct qmp_fields (qmp_event name data) qmp_zero = Some r → qr_Event r = name.
Proof.
  intros Hd. unfold qmp_event. cbn [into_struct into_members].
  change (find_field qmp_fields "event") with
    (Some (field qr_Event (λ x r, mkQmp (qr_Return r) (qr_Error r) x) into_string)).
  cbn [field into_string mbind option_bind]. intros E.
  by rewrite (silent_keeps_event (JObj data) _ _ Hd E).
Qed.

Lemma await_event name data c : name ≠ "" → Forall (λ kv, Strings.ToLower kv.1 ≠ "event") data →
  Forall silent c → ∃ e, await_response qmp_zero (Some (qmp_event name data) :: c) = Err e.
Proof.
  intros Hn Hd Hc. cbn [await_response decode_next].
  destruct (into_struct qmp_fields (qmp_event name data) qmp_zero) as [r|] eqn:E; [|by eexists].
  apply event_decodes in E; [|done]. rewrite E, (proj2 (String.eqb_neq _ _) Hn). simpl.
  apply await_stuck; [by rewrite E|done].
Qed.

(** The answer the code gives to a reply. *)
Definition answer_of (r : qmpResponse) : outcome (option json) :=
  match qr_Error r with
  | Some e => Err ("qmp error: " +:+ qe_Class e +:+ ": " +:+ qe_Desc e)
  | None => Ret (qr_Return r)
  end.

(** The connections that are left once one was used. *)
Definition after_exchange (cs : list (option conn_script)) (es : list sys_event) (w : HW) : HW :=
  mkHW (h_files w) (h_dirs w) (h_clock w) (h_log w ++ es) (h_fates w) (h_delays w) cs
    (h_results w) (h_alive w).

Lemma exchange sock cmd g c msgs cs w :
  h_fates w = [] → h_conns w = Some (Some g :: Some c :: msgs) :: cs → readable g → readable c →
  sendQMPCommandWithReturn sock cmd w
  = (r ← await_response qmp_zero msgs; answer_of r,
     after_exchange cs [Qmp sock (execute "qmp_capabilities"); Qmp sock cmd] w).
Proof.
  intros Hf Hc [rg Hg] [rc Hcc]. destruct w as [fs ds ck lg fa de co re al]. simpl in *. subst.
  unfold sendQMPCommandWithReturn, wrap, DialTimeout, may_fail, fate, lift_outcome, log, modify, mbind, M_bind.
  simpl. rewrite Hg. simpl. rewrite Hcc. simpl. unfold after_exchange, hw_log, answer_of. simpl.
  rewrite <-(assoc_L (++)). destruct (await_response qmp_zero msgs) as [r| |]; simpl; [|done..].
  by destruct (qr_Error r).
Qed.

(** One exchange with QEMU's monitor.  When the first message after the
    negotiation is the reply, the command returns what the reply returns, or its
    error.  When an event comes before the reply, the command fails, whatever
    the reply says and however many messages follow: the variable the messages
    are decoded into is not reset, so the name of the event stays in it. *)
Theorem qmp_exchange_result sock cmd g c msgs cs w :
  h_fates w = [] → h_conns w = Some (Some g :: Some c :: msgs) :: cs → readable g → readable c →
  ∃ o, sendQMPCommandWithReturn sock cmd w
       = (o, after_exchange cs [Qmp sock (execute "qmp_capabilities"); Qmp sock cmd] w) ∧
    (∀ v rest r, msgs = Some v :: rest → silent (Some v) → into_struct qmp_fields v qmp_zero = Some r →
       o = answer_of r) ∧
    (∀ name data rest, msgs = Some (qmp_event name data) :: rest → name ≠ "" →
       silent (Some (JObj data)) → Forall silent rest → ∃ e, o = Err e).
Proof.
  intros Hf Hc Hg Hcc. eexists. split; [by eapply exchange|]. split.
  - intros v rest r -> Hs Hr. cbn [await_response decode_next]. rewrite Hr.
    by rewrite (silent_keeps_event v qmp_zero r Hs Hr).
  - intros name data rest -> Hn Hd Hs. destruct (await_event name data rest Hn Hd Hs) as [e ->]. by eexists.
Qed.

(** A graceful shutdown is turned into a kill by an event.  When QEMU sends
    an event before its reply to [system_powerdown] (it announces a shutdown with
    one), the exchange fails and the process is killed at once; the caller is
    told that the machine was stopped. *)
Theorem event_turns_shutdown_into_kill baseDir vmID g c name data rest cs text pid w :
  h_fates w = [] →
  h_conns w = Some (Some g :: Some c :: Some (qmp_event name data) :: rest) :: cs →
  readable g → readable c → name ≠ "" → silent (Some (JObj data)) → Forall silent rest →
  h_files w !! pidFile baseDir vmID = Some text →
  Strconv.Atoi (Strings.TrimSpace text) = Some pid → pid ≠ 0%Z → pid ≠ (-1)%Z →
  m_StopVM baseDir vmID false w
  = (Ret (), after_exchange cs
       [Qmp (qmpSock baseDir vmID) (execute "qmp_capabilities");
        Qmp (qmpSock baseDir vmID) (execute "system_powerdown"); Kill pid] w).
Proof.
  intros Hf Hc Hg Hcc Hn Hd Hs Hp Ha H0 H1. unfold m_StopVM, sendQMPCommand.
  destruct (await_event name data rest Hn Hd Hs) as [e He].
  unfold attempt, mbind, M_bind. rewrite (exchange _ _ _ _ _ _ _ Hf Hc Hg Hcc), He. cbn [mbind outcome_bind].
  unfold killProcess, read_file, fate, mbind, M_bind. cbn [h_fates after_exchange]. rewrite Hf.
  cbn [gets h_files after_exchange]. rewrite Hp. cbn. rewrite Ha.
  rewrite (proj2 (Z.eqb_neq _ _) H1), (proj2 (Z.eqb_neq _ _) H0).
  unfold log, modify, may_fail, fate, mbind, M_bind, after_exchange, hw_log. cbn. rewrite Hf.
  by rewrite <-(assoc_L (++)).
Qed.

(** * What a start runs *)
Lemma run_bind {A B} (m : M HW A) (k : A → M HW B) w b w' : (m ≫= k) w = (Ret b, w') →
  ∃ a w1, m w = (Ret a, w1) ∧ k a w1 = (Ret b, w').
Proof. unfold mbind, M_bind. destruct (m w) as [[a|e|] w1]; [by eauto|done|done]. Qed.

Lemma run_wrap {A} ctx (m : M HW A) w a w' : wrap ctx m w = (Ret a, w') → m w = (Ret a, w').
Proof. unfold wrap. destruct (m w) as [[]]; [done|done|done]. Qed.

Lemma run_ignore {A} (m : M HW A) w u w' : ignore m w = (Ret u, w') → ∃ o, m w = (o, w').
Proof. unfold ignore. destruct (m w) as [[] ?]; intros [= _ <-]; eauto. Qed.

Lemma run_log {A} P (m : M HW A) w o w' : does P m → m w = (o, w') →
  ∃ l, h_log w' = h_log w ++ l ∧ Forall P l.
Proof. intros Hm E. destruct (Hm w) as (_ & (l & Hl & Hall) & _). rewrite E in Hl. eauto. Qed.

Lemma run_free {A} P (m : M HW A) w o w' : does P m → m w = (o, w') → fault_free w → fault_free w'.
Proof. intros Hm E Hw. destruct (Hm w) as (_ & _ & Hf). rewrite E in Hf. by apply Hf. Qed.

(** Programs other than QEMU itself. *)
Definition not_qemu (e : sys_event) : Prop :=
  match e with Exec (c :: _) => c ≠ "qemu-system-x86_64" | _ => True end.

(** The interfaces as [StartVM] completes them. *)
Definition completed (vmID : string) (l nics : list NICConfig) : Prop :=
  length nics = length l ∧
  ∀ i n n', l !! i = Some n → nics !! i = Some n' → complete_nic vmID i n = Ret n'.

Section start.
Context (prog : list string → gmap string string → gmap string string).
Context (baseDir imagesDir : string).
Local Existing Instance host_programs.
Local Abbreviation host := (host_programs prog).

Lemma tools_not_qemu c (args : list string) :
  existsb (String.eqb c) ["ip"; "iptables"; "sysctl"; "genisoimage"] = true → not_qemu (Exec (c :: args)).
Proof using Type. intros Hc. simpl. by intros ->. Qed.

Lemma prepare_all vmID l i w nics w' : imapM (@prepare_nic host vmID) i l w = (Ret nics, w') →
  length nics = length l ∧
  ∀ k n n', l !! k = Some n → nics !! k = Some n' → complete_nic vmID (i + k) n = Ret n'.
Proof using Type.
  revert i w nics. induction l as [|n l IH]; intros i w nics; cbn [imapM].
  - intros [= <- <-]. split; [done|]. intros k ? ?. by rewrite lookup_nil.
  - intros (n' & w1 & E1 & E)%run_bind. apply run_bind in E as (ns & w2 & E2 & E).
    injection E as <- <-. apply IH in E2 as [Hlen Hall]. split; [simpl; congruence|].
    unfold prepare_nic in E1. apply run_bind in E1 as (m & w3 & E3 & E1).
    apply run_bind in E1 as (u & w4 & _ & E1). injection E1 as <- <-. injection E3 as E3 <-.
    intros [|k] a b; simpl.
    + intros [= <-] [= <-]. by rewrite Nat.add_0_r.
    + rewrite <-plus_n_Sm. apply (Hall k).
Qed.

Lemma root_disk_path vmID cfg w path w' : @root_disk host baseDir imagesDir vmID cfg w = (Ret path, w') →
  path = if String.eqb (sc_DiskPath cfg) "" then Filepath.Join [vmDir baseDir vmID; "root.qcow2"]
         else sc_DiskPath cfg.
Proof using Type.
  assert (Hdisk : ∀ size img w p w1,
    @CreateDiskFromImage host baseDir vmID "root" size img w = (Ret p, w1) →
    p = Filepath.Join [vmDir baseDir vmID; "root.qcow2"]).
  { intros size img w0 p w1. unfold CreateDiskFromImage. intros (? & ? & _ & E)%run_bind.
    apply run_bind in E as ([] & ? & _ & E); apply run_bind in E as (? & ? & _ & [= <- _]); done. }
  unfold root_disk. destruct (String.eqb (sc_DiskPath cfg) ""); simpl; [|by intros [= <- _]].
  intros (st & w1 & _ & E)%run_bind. destruct (is_not_exist st); [|by injection E as <- _].
  apply run_bind in E as (img & w2 & _ & E). apply run_wrap in E.
  destruct (String.eqb img ""); by apply Hdisk in E.
Qed.

(** The last thing a successful start of the manager does is to run QEMU. *)
Lemma m_start_runs cfg w w' : @m_StartVM host baseDir cfg w = (Ret (), w') →
  ∃ kvm before, h_log w' = h_log w ++ before ++ [Exec ("qemu-system-x86_64" :: qemu_args baseDir cfg kvm)] ∧
    Forall not_qemu before.
Proof using Type.
  unfold m_StartVM. intros (? & w1 & E1 & E)%run_bind.
  destruct (vc_NICs cfg) as [|n0 nics0]; [done|].
  apply run_bind in E as (? & w2 & E2 & E). apply run_bind in E as (kvm & w3 & E3 & E).
  apply run_bind in E as (? & w4 & E4 & E). apply run_bind in E as (? & w5 & E5 & E).
  apply run_bind in E as (r & w6 & E6 & E).
  apply (run_log not_qemu) in E1 as (l1 & Hl1 & H1); [|apply does_wrap, does_MkdirAll].
  apply (run_log not_qemu) in E2 as (l2 & Hl2 & H2);
    [|apply does_iterM; intros; apply does_ignore, does_EnsureBridge, tools_not_qemu].
  apply (run_log not_qemu) in E3 as (l3 & Hl3 & H3); [|apply does_stat].
  apply (run_log not_qemu) in E4 as (l4 & Hl4 & H4); [|apply does_wrap, does_write].
  apply (run_log not_qemu) in E5 as (l5 & Hl5 & H5); [|apply does_wrap, does_write].
  assert (h_log w6 = h_log w5 ++ [Exec ("qemu-system-x86_64" :: qemu_args baseDir cfg (is_ok kvm))]) as Hl6.
  { unfold run_command, host_programs, host_command in E6. destruct (h_results _); by injection E6 as _ <-. }
  assert (h_log w' = h_log w6) as Hl7.
  { destruct (r.2) as [e|]; [done|]. apply run_wrap in E.
    destruct (waits_end "" "" (vc_QMPSocket cfg) 10000 w6 ltac:(lia)) as [(_ & _ & Hw & _) _].
    by rewrite E in Hw. }
  exists (is_ok kvm), (l1 ++ l2 ++ l3 ++ l4 ++ l5). split; [|by rewrite !Forall_app].
  rewrite Hl7, Hl6, Hl5, Hl4, Hl3, Hl2, Hl1. by rewrite <-!(assoc_L (++)).
Qed.

(** What [StartVM] leaves when it succeeds. *)
Lemma start_run vmID cfg w w' : @StartVM host baseDir imagesDir vmID (Some cfg) w = (Ret (), w') →
  ∃ nics kvm before,
    let diskPath := if String.eqb (sc_DiskPath cfg) "" then Filepath.Join [vmDir baseDir vmID; "root.qcow2"]
                    else sc_DiskPath cfg in
    let isoPath := Filepath.Join [Filepath.Join [vmDir baseDir vmID; "cloud-init"]; "cidata.iso"] in
    let qcfg := qemu_config baseDir vmID cfg nics diskPath isoPath in
    nics ≠ [] ∧ completed vmID (sc_NetworkInterfaces cfg) nics ∧ cloud_ifaces nics ≠ [] ∧
    h_log w' = h_log w ++ before ++ [Exec ("qemu-system-x86_64" :: qemu_args baseDir qcfg kvm)] ∧
    Forall not_qemu before ∧
    ∃ w1, (fault_free w → fault_free w1) ∧
          ignore (persistVMConfig baseDir vmID (set_nics nics cfg) diskPath (vc_MACAddress qcfg) isoPath) w1
          = (Ret (), w').
Proof using Type.
  unfold StartVM. intros (? & w1 & E1 & E)%run_bind. apply run_bind in E as (disk & w2 & E2 & E).
  apply run_bind in E as (key & w3 & E3 & E). apply run_bind in E as (nics & w4 & E4 & E).
  destruct (sc_NetworkInterfaces cfg) as [|n0 l0] eqn:Hnics; [done|].
  destruct (cloud_ifaces nics) as [|if0 ifs] eqn:Hifs; [done|].
  apply run_bind in E as (iso & w5 & E5 & E). apply run_bind in E as ([] & w6 & E6 & E).
  pose proof (prepare_all _ _ _ _ _ _ E4) as [Hlen Hall].
  pose proof (root_disk_path _ _ _ _ _ E2) as ->.
  assert (iso = Filepath.Join [Filepath.Join [vmDir baseDir vmID; "cloud-init"]; "cidata.iso"]) as ->.
  { apply run_wrap in E5. unfold GenerateISO in E5. do 5 (apply run_bind in E5 as (? & ? & _ & E5)).
    destruct (_.2); [done|]. by injection E5 as <- _. }
  assert (Hfree : fault_free w → fault_free w6).
  { intros Hw. eapply (run_free acts) in E1; [|apply does_wrap, does_MkdirAll|done].
    eapply (run_free acts) in E2; [|by apply does_root_disk|done].
    eapply (run_free acts) in E3; [|apply does_ssh_key|done].
    eapply (run_free acts) in E4; [|apply does_imapM; intros; by apply does_prepare_nic|done].
    eapply (run_free acts) in E5; [|by apply does_wrap, does_GenerateISO|done].
    eapply (run_free acts) in E6; [done|by apply does_wrap, does_m_StartVM|done]. }
  apply run_wrap in E6. destruct (m_start_runs _ _ _ E6) as (kvm & before & Hl6 & Hb).
  apply (run_log not_qemu) in E1 as (l1 & Hl1 & H1); [|apply does_wrap, does_MkdirAll].
  apply (run_log not_qemu) in E2 as (l2 & Hl2 & H2); [|by apply does_root_disk].
  apply (run_log not_qemu) in E3 as (l3 & Hl3 & H3); [|apply does_ssh_key].
  apply (run_log not_qemu) in E4 as (l4 & Hl4 & H4);
    [|apply does_imapM; intros; apply does_prepare_nic, tools_not_qemu].
  apply (run_log not_qemu) in E5 as (l5 & Hl5 & H5); [|apply does_wrap, does_GenerateISO, tools_not_qemu].
  exists nics, kvm, (l1 ++ l2 ++ l3 ++ l4 ++ l5 ++ before). cbv zeta. split_and!.
  - intros ->. by simpl in Hlen.
  - split; [done|]. intros i n n' Hn Hn'. exact (Hall i n n' Hn Hn').
  - by rewrite Hifs.
  - apply run_ignore in E as [o E]. apply (run_log (λ _, False)) in E as (l7 & Hl7 & H7);
      [|apply does_write]. destruct H7; [|done]. rewrite Hl7, app_nil_r, Hl6, Hl5, Hl4, Hl3, Hl2, Hl1.
    by rewrite <-!(assoc_L (++)).
  - by rewrite !Forall_app.
  - eauto.
Qed.
End start.
