(* ===== verification/AgentCommands.v ===== *)
(** The agent's configuration through JSON: the control plane's start command is
    understood by the agent and runs the machine the control plane describes;
    [vm.json] is read back as it was written; recovery starts the same machine
    again; and what stopping a machine means for recovery. *)
From stdpp Require Import base gmap strings list numbers pretty.
From S2P Require Import Prelude.
From S2P Require Import GoStd.
From S2P Require Import GoNet.
From S2P Require Import GoJson.
From S2P Require Import Ipam.
From S2P Require Import Domain.
From S2P Require Import Interfaces.
From S2P Require Import Puller.
From S2P Require Import ControlPlane.
From S2P Require Import VMService.
From S2P Require Import Qcow2.
From S2P Require Import Host.
From S2P Require Import CloudInit.
From S2P Require Import Qemu.
From S2P Require Import HostInfo.
From S2P Require Import Agent.
From S2P Require Import AgentProofs.
From stdpp Require Import options.

(** * Reading back what was written *)

(** The interface that the JSON of a NIC stands for. *)
Lemma nic_json_read n : into_struct NICConfig_fields (nic_json n) nic_zero = Some n.
Proof.
  destruct n as [net mac ip gw br name]. unfold nic_json.
  cbn [into_struct app nc_NetworkID nc_MACAddress nc_IPAddress nc_Gateway nc_Bridge nc_Name].
  rewrite <-(app_nil_r (omit_str "name" name)). do 3 member. do 3 omitted. done.
Qed.

Lemma nics_read l : into_nics (JArr (nic_json <$> l)) [] = Some l.
Proof.
  unfold into_nics, into_slice. rewrite (into_slice_map _ _ _ (λ n, n)) by (intros; apply nic_json_read).
  by rewrite list_fmap_id.
Qed.

(** Sizes that fit their Go types. *)
Definition sized (c : VMStartConfig) : Prop :=
  in_int32 (sc_VCPUs c) ∧ in_int64 (sc_MemoryMB c) ∧ in_int64 (sc_SizeBytes c).

Definition wr_set (c : VMStartConfig) (w : Wrapper) : Wrapper :=
  mkWrapper c (wr_DiskPath w) (wr_MAC w) (wr_ISOPath w).

Lemma persisted_read c disk mac iso : sized c →
  into_struct Wrapper_fields (persisted_json c disk mac iso) (mkWrapper start_zero "" "" "")
  = Some (mkWrapper (set_disk "" (set_mac "" c)) disk mac iso).
Proof.
  destruct c as [name vcpus mem dp ma ssh url img ipath size mt nics]. intros (Hv & Hm & Hs). simpl in Hv, Hm, Hs.
  unfold persisted_json. cbn [into_struct app sc_Name sc_VCPUs sc_MemoryMB sc_SSHKey sc_ImageURL sc_ImageID
    sc_ImagePath sc_SizeBytes sc_MachineType sc_NetworkInterfaces].
  unfold start_zero. member.
  erewrite read_member; [|reflexivity|in_range].
  erewrite read_member; [|reflexivity|in_range].
  cbn. do 4 omitted.
  erewrite read_omit_num; [|reflexivity|in_range|by intros ->].
  omitted.
  erewrite read_omit_arr; [|reflexivity|cbn -[into_nics]; unfold field; rewrite nics_read; reflexivity|].
  2:{ intros Hl. destruct nics; [done|]. by simpl in Hl. }
  do 3 member. done.
Qed.

(** [vm.json] is an object of strings, numbers and interfaces. *)
Lemma nic_json_nested n : nested 1 (nic_json n).
Proof. unfold nic_json. cbn [nested]. members_nested. Qed.

Lemma nics_nested (l : list NICConfig) : nested 2 (JArr (nic_json <$> l)).
Proof. cbn [nested]. apply Forall_fmap, Forall_forall. intros n _. apply nic_json_nested. Qed.

Lemma persisted_nested c disk mac iso : nested 3 (persisted_json c disk mac iso).
Proof.
  unfold persisted_json. cbn [nested]. members_nested.
  apply Forall_omit_arr. intros _. apply nics_nested.
Qed.

(** What is loaded after a configuration was persisted. *)
Definition reloaded (c : VMStartConfig) (disk mac : string) : VMStartConfig := set_disk disk (set_mac mac c).

Lemma persisted_decodes c disk mac iso : sized c →
  decode_persisted (Marshal (persisted_json c disk mac iso)) = Some (reloaded c disk mac).
Proof.
  intros Hc. unfold decode_persisted. rewrite Unmarshal_Marshal
    by (eapply deep_enough; [apply persisted_nested|lia]).
  cbn [mbind option_bind]. rewrite persisted_read by done. cbn [mbind option_bind wr_Config wr_DiskPath wr_MAC].
  unfold reloaded. destruct c. f_equal.
  destruct (String.eqb_spec disk "") as [->|], (String.eqb_spec mac "") as [->|]; done.
Qed.

(** [loadVMConfig] reads back what [persistVMConfig] wrote, through the text
    of [vm.json]: the configuration as it was, with the disk and the address the
    machine was started with.  (Sizes that fit their Go types always do.) *)
Theorem persisted_config_roundtrip baseDir vmID c disk mac iso w w1 :
  sized c → h_fates w = [] →
  persistVMConfig baseDir vmID c disk mac iso w = (Ret (), w1) →
  (loadVMConfig baseDir vmID w1).1 = Ret (reloaded c disk mac).
Proof.
  intros Hc Hf. unfold persistVMConfig, write_file, may_fail, fate, mbind, M_bind. rewrite Hf.
  unfold modify. intros [= <-]. unfold loadVMConfig, read_file, fate, mbind, M_bind.
  cbn [hw_files h_fates]. rewrite Hf. cbn [gets h_files hw_files]. rewrite lookup_insert_eq.
  cbn -[decode_persisted Marshal persisted_json]. by rewrite persisted_decodes.
Qed.

(** * Completing interfaces once more changes nothing *)
Lemma bridge_not_empty id br : BridgeForNetwork id = Ret br → br ≠ "".
Proof. unfold BridgeForNetwork. repeat case_match; try done; by intros [= <-]. Qed.

Lemma complete_nic_inv vmID i n n' : complete_nic vmID i n = Ret n' →
  nc_NetworkID n' = nc_NetworkID n ∧ nc_IPAddress n' = nc_IPAddress n ∧
  nc_Bridge n' ≠ "" ∧ nc_Name n' ≠ "" ∧ nc_MACAddress n' ≠ "" ∧
  (nc_Bridge n = "" → BridgeForNetwork (nc_NetworkID n) = Ret (nc_Bridge n')) ∧
  (nc_Bridge n ≠ "" → nc_Bridge n' = nc_Bridge n) ∧
  (nc_MACAddress n ≠ "" → nc_MACAddress n' = nc_MACAddress n) ∧
  (nc_Gateway n' = "" → nc_Gateway n = "" ∧
     (nc_IPAddress n ≠ "" → ∀ g, gatewayFromCIDR (nc_IPAddress n) = Ret g → g = "")).
Proof.
  destruct n as [net mac ip gw br name]. unfold complete_nic. simpl.
  set (b := if String.eqb br "" then _ else _). intros Hn.
  assert (∃ b', b = Ret b' ∧ b' ≠ "" ∧ (br = "" → BridgeForNetwork net = Ret b') ∧ (br ≠ "" → b' = br))
    as (b' & Eb & Hb & Hb1 & Hb2).
  { unfold b in *. destruct (String.eqb_spec br "") as [->|]; [|by exists br].
    pose proof (bridge_not_empty net) as Hne.
    destruct (BridgeForNetwork net) as [b'| |]; [|done..].
    exists b'. split_and!; [done|by apply Hne|done|done]. }
  rewrite Eb in Hn. simpl in Hn. injection Hn as <-. simpl.
  split_and!; try done.
  - by destruct (String.eqb_spec name "").
  - by destruct (String.eqb_spec mac "").
  - intros Hm. by rewrite (proj2 (String.eqb_neq _ _) Hm).
  - destruct (String.eqb_spec gw "") as [->|]; simpl; [|done].
    destruct (String.eqb_spec ip "") as [->|]; simpl; [done|].
    destruct (gatewayFromCIDR ip) as [g| |] eqn:Eg; intros Hg; (split; [done|]); intros _ g'; [|done..].
    intros [= <-]. done.
Qed.

Lemma complete_nic_idem vmID i n n' : complete_nic vmID i n = Ret n' → complete_nic vmID i n' = Ret n'.
Proof.
  intros H%complete_nic_inv. destruct n' as [net mac ip gw br name]. simpl in H.
  destruct H as (Hnet & Hip & Hb & Hn & Hm & _ & _ & _ & Hg). subst. unfold complete_nic. simpl.
  rewrite (proj2 (String.eqb_neq _ _) Hb), (proj2 (String.eqb_neq _ _) Hn), (proj2 (String.eqb_neq _ _) Hm).
  simpl. destruct (String.eqb_spec gw "") as [->|]; [|done]. simpl.
  destruct (String.eqb_spec (nc_IPAddress n) "") as [E|E]; [by rewrite E|]. simpl.
  destruct (Hg eq_refl) as [_ Hg']. specialize (Hg' E).
  destruct (gatewayFromCIDR (nc_IPAddress n)) as [g| |]; [|done..]. by rewrite (Hg' g).
Qed.

Lemma completed_unique vmID l nics nics' : completed vmID l nics → completed vmID nics nics' → nics' = nics.
Proof.
  intros [Hl Hn] [Hl' Hn']. apply list_eq_same_length with (length nics); [done..|].
  intros i x y Hi Hx Hy. specialize (Hn' i y x Hy Hx).
  destruct (lookup_lt_is_Some_2 l i ltac:(lia)) as [n0 E0]. specialize (Hn i n0 y E0 Hy).
  apply complete_nic_idem in Hn. congruence.
Qed.

(** * Recovery *)
Section recovery.
Context (prog : list string → gmap string string → gmap string string).
Context (baseDir imagesDir : string).
Local Existing Instance host_programs.
Local Abbreviation host := (host_programs prog).

(** Where a machine's disk and cloud-init image are. *)
Definition disk_of (vmID : string) (cfg : VMStartConfig) : string :=
  if String.eqb (sc_DiskPath cfg) "" then Filepath.Join [vmDir baseDir vmID; "root.qcow2"] else sc_DiskPath cfg.
Definition iso_of (vmID : string) : string :=
  Filepath.Join [Filepath.Join [vmDir baseDir vmID; "cloud-init"]; "cidata.iso"].

(** QEMU was run, last of all, with the configuration [q]. *)
Definition ran_qemu (q : VMConfig) (w w' : HW) : Prop :=
  ∃ kvm before, h_log w' = h_log w ++ before ++ [Exec ("qemu-system-x86_64" :: qemu_args baseDir q kvm)] ∧
    Forall not_qemu before.

(** What a start that succeeds leaves in [vm.json]. *)
Lemma start_persists vmID cfg w w' :
  @StartVM host baseDir imagesDir vmID (Some cfg) w = (Ret (), w') → fault_free w →
  ∃ nics, completed vmID (sc_NetworkInterfaces cfg) nics ∧
    ran_qemu (qemu_config baseDir vmID cfg nics (disk_of vmID cfg) (iso_of vmID)) w w' ∧
    h_files w' !! vm_json baseDir vmID
    = Some (Marshal (persisted_json (set_nics nics cfg) (disk_of vmID cfg)
              (match nics with n :: _ => nc_MACAddress n | [] => "" end) (iso_of vmID))).
Proof using Type.
  intros E Hw. destruct (start_run _ _ _ _ _ _ _ E) as (nics & kvm & before & Hn & Hc & _ & Hl & Hb & w1 & Hf & Ep).
  exists nics. split_and!; [done|by exists kvm, before|]. specialize (Hf Hw).
  unfold ignore, persistVMConfig, write_file, may_fail, fate, mbind, M_bind in Ep. rewrite Hf in Ep.
  unfold modify in Ep. injection Ep as <-. cbn [h_files hw_files]. by rewrite lookup_insert_eq.
Qed.

Lemma join_not_empty a b : Filepath.Join [a; b] = "" → a = "" ∧ b = "".
Proof using Type.
  unfold Filepath.Join. intros H.
  assert (Hc : ∀ p, Filepath.Clean p ≠ "").
  { intros p. unfold Filepath.Clean. generalize (Strings.SplitByte p Filepath.sep). intros parts.
    generalize (match p with String c _ => Ascii.eqb c Filepath.sep | EmptyString => false end). intros [].
    - done.
    - destruct (String.eqb_spec (Strings.Join (rev (foldl (Filepath.clean_step false) [] parts)) "/") ""); done. }
  destruct (String.eqb_spec a "") as [->|Ha], (String.eqb_spec b "") as [->|Hb]; [done|..]; exfalso.
  all: rewrite !filter_cons in H; repeat case_decide; try done; by eapply Hc.
Qed.

Lemma disk_of_not_empty vmID cfg : disk_of vmID cfg ≠ "".
Proof using Type.
  unfold disk_of. destruct (String.eqb_spec (sc_DiskPath cfg) ""); [|done].
  by intros [_ ?]%join_not_empty.
Qed.

(** C33: After a crash, recovery starts the machine it had: when a start without
    faults succeeded, then whenever its [vm.json] is loaded again and started
    (the loaded configuration is all that recovery has), a start that succeeds
    runs QEMU with the same configuration: name, processors, memory, disk,
    interfaces with their addresses and bridges, machine type, sockets. *)
Theorem recovery_starts_same_machine vmID cfg w w1 w2 c w3 w4 :
  sized cfg → fault_free w →
  @StartVM host baseDir imagesDir vmID (Some cfg) w = (Ret (), w1) →
  h_files w2 !! vm_json baseDir vmID = h_files w1 !! vm_json baseDir vmID →
  loadVMConfig baseDir vmID w2 = (Ret c, w3) →
  @StartVM host baseDir imagesDir vmID (Some c) w3 = (Ret (), w4) →
  ∃ q, ran_qemu q w w1 ∧ ran_qemu q w3 w4.
Proof using Type.
  intros Hs Hw E1 Hfile Eload E2.
  destruct (start_persists _ _ _ _ E1 Hw) as (nics & Hc & Hran & Hjson).
  rewrite Hjson in Hfile. unfold loadVMConfig, read_file, fate, mbind, M_bind in Eload.
  assert (c = reloaded (set_nics nics cfg) (disk_of vmID cfg) (match nics with n :: _ => nc_MACAddress n | [] => "" end)) as ->.
  { destruct (h_fates w2) as [|[e|] fs]; cbn -[decode_persisted Marshal persisted_json] in Eload; try done;
      rewrite Hfile in Eload; cbn -[decode_persisted Marshal persisted_json] in Eload;
      rewrite persisted_decodes in Eload by done; by injection Eload. }
  exists (qemu_config baseDir vmID cfg nics (disk_of vmID cfg) (iso_of vmID)). split; [done|].
  destruct (start_run _ _ _ _ _ _ _ E2) as (nics' & kvm & before & Hn' & Hc' & _ & Hl & Hb & _).
  pose proof (completed_unique _ _ _ _ Hc Hc') as ->.
  pose proof (disk_of_not_empty vmID cfg) as Hd.
  exists kvm, before. split; [|done]. rewrite Hl. do 3 f_equal. unfold qemu_config, reloaded. simpl.
  by rewrite (proj2 (String.eqb_neq _ _) Hd).
Qed.

Lemma stat_absent path w : fault_free w → h_files w !! path = None → path ∉ h_dirs w →
  stat_file path w = (Ret (inr NotExist), w).
Proof using Type.
  intros Hw Hf Hd. unfold stat_file, fate, mbind, M_bind. rewrite Hw. simpl.
  rewrite Hf, !bool_decide_eq_false_2 by (done || by intros [? ?]). done.
Qed.

Lemma stat_present path w s : fault_free w → h_files w !! path = Some s →
  stat_file path w = (Ret (inl ()), w).
Proof using Type.
  intros Hw Hf. unfold stat_file, fate, mbind, M_bind. rewrite Hw. simpl.
  by rewrite Hf, bool_decide_eq_true_2 by done.
Qed.

Lemma status_no_pid vmID w : fault_free w → h_files w !! pidFile baseDir vmID = None →
  m_GetVMStatus baseDir vmID w = (Ret "stopped", w).
Proof using Type.
  intros Hw Hp. unfold m_GetVMStatus, read_file, fate, mbind, M_bind. rewrite Hw. simpl. by rewrite Hp.
Qed.

(** A machine that the agent stopped stays stopped: after a stop that
    succeeded (without faults, of a machine that was not already down) its
    [vm.json] is gone, and recovery passes over a machine without one. *)
Theorem stopped_machine_not_recovered vmID force w w1 :
  fault_free w → StopVM baseDir vmID force w = (Ret (), w1) →
  (m_GetVMStatus baseDir vmID w).1 ≠ Ret "stopped" →
  h_files w1 !! vm_json baseDir vmID = None ∧
  ∀ w2, fault_free w2 → h_files w2 !! vm_json baseDir vmID = None → vm_json baseDir vmID ∉ h_dirs w2 →
    @recover_entry host baseDir imagesDir (vmID, true) w2 = (Ret (), w2).
Proof using Type.
  intros Hw E Hst. split.
  - unfold StopVM in E. apply run_bind in E as (st & w2 & E2 & E). pose proof E2 as E2'.
    apply run_wrap in E2. rewrite E2 in Hst. simpl in Hst.
    destruct (String.eqb_spec st "stopped") as [->|]; [done|].
    apply run_bind in E as (u & w3 & E3 & E).
    eapply (run_free acts) in E2'; [|by apply does_wrap, does_m_GetVMStatus|done].
    eapply (run_free acts) in E3; [|by apply does_wrap, does_m_StopVM|done].
    unfold ignore, remove_file, may_fail, fate, mbind, M_bind in E. rewrite E3 in E.
    unfold modify in E. injection E as <-. apply lookup_delete_eq.
  - intros w2 Hw2 Hf Hd. unfold recover_entry. cbn [negb]. unfold mbind, M_bind.
    by rewrite stat_absent.
Qed.

(** C34: A machine that went down by itself is started again, even after the
    user stopped it.  Its process is gone, so the stop succeeds at once and
    leaves [vm.json] in place; the next recovery starts the machine. *)
Theorem machine_down_by_itself_comes_back vmID force text c w :
  fault_free w → h_files w !! pidFile baseDir vmID = None →
  h_files w !! vm_json baseDir vmID = Some text → decode_persisted text = Some c →
  StopVM baseDir vmID force w = (Ret (), w) ∧
  @recover_entry host baseDir imagesDir (vmID, true) w
  = ignore (@StartVM host baseDir imagesDir vmID (Some c)) w.
Proof using Type.
  intros Hw Hp Hf Hc. split.
  - unfold StopVM, wrap, mbind, M_bind. by rewrite status_no_pid.
  - unfold recover_entry. cbn [negb]. unfold mbind, M_bind. rewrite (stat_present _ _ text) by done.
    cbn [is_not_exist]. unfold attempt. rewrite status_no_pid by done.
    unfold loadVMConfig, read_file, fate, mbind, M_bind. rewrite Hw. simpl. rewrite Hf. simpl. by rewrite Hc.
Qed.

End recovery.

(** * The start command of the control plane *)
(** The address an interface is configured with. *)
Definition first_address (nic : Domain.NetworkInterface) : string :=
  match nic_IPv4Addresses nic with ip :: _ => ip | [] => "" end.

Lemma nic_config_read vmID nic mac j : nic_config vmID nic = Ret (mac, j) →
  ∃ n, j = nic_json n ∧ nc_MACAddress n = mac ∧ mac ≠ "" ∧
       nc_NetworkID n = nic_NetworkID nic ∧ BridgeForNetwork (nic_NetworkID nic) = Ret (nc_Bridge n) ∧
       nc_IPAddress n = first_address nic.
Proof.
  unfold nic_config. set (m := if String.eqb (nic_MACAddress nic) "" then _ else _).
  assert (Hm : m ≠ "") by (unfold m; by destruct (String.eqb_spec (nic_MACAddress nic) "")).
  set (ip := match nic_IPv4Addresses nic with ip :: _ => ip | [] => "" end).
  set (gw := if String.eqb ip "" then _ else _).
  destruct gw as [g| |]; destruct (BridgeForNetwork (nic_NetworkID nic)) as [br| |] eqn:Eb; try done.
  intros [= <- <-]. by exists (mkNICConfig (nic_NetworkID nic) m ip g br (nic_Name nic)).
Qed.

(** The interfaces of a command, as the agent reads them. *)
Definition reads_as (nics : list Domain.NetworkInterface) (cs : list (string * json)) (ns : list NICConfig) : Prop :=
  snd <$> cs = nic_json <$> ns ∧ fst <$> cs = nc_MACAddress <$> ns ∧
  Forall2 (λ nic n, nc_MACAddress n ≠ "" ∧ BridgeForNetwork (nic_NetworkID nic) = Ret (nc_Bridge n) ∧
                    nc_IPAddress n = first_address nic) nics ns.

Lemma nic_configs_read vmID nics cs : nic_configs vmID nics = Ret cs → ∃ ns, reads_as nics cs ns.
Proof.
  revert cs. induction nics as [|nic nics IH]; intros cs; cbn [nic_configs].
  - intros [= <-]. exists []. by repeat constructor.
  - destruct (nic_config vmID nic) as [[mac j]| |] eqn:E1; [|done..].
    destruct (nic_configs vmID nics) as [cs'| |]; [|done..]. intros [= <-].
    destruct (IH cs' eq_refl) as (ns & Hj & Hmac & Hns).
    destruct (nic_config_read _ _ _ _ E1) as (n & -> & <- & Hm & _ & Hb & Hip).
    exists (n :: ns). split_and!; csimpl; [by rewrite Hj|by rewrite Hmac|by constructor].
Qed.

(** The configuration the agent decodes from a start command. *)
Definition decoded_cfg (vm : VirtualMachine) (sshKey : string) (ns : list NICConfig) : VMStartConfig :=
  mkStartConfig (vm_Name vm) (vm_VCpus vm) (vm_MemoryMB vm) ""
    (match ns with n :: _ => nc_MACAddress n | [] => "" end) sshKey "" (boot_source (vm_Disks vm)).1 ""
    (boot_source (vm_Disks vm)).2 (vm_MachineType vm) ns.

Definition fits_types (vm : VirtualMachine) : Prop :=
  in_int32 (vm_VCpus vm) ∧ in_int64 (vm_MemoryMB vm) ∧ in_int64 (boot_source (vm_Disks vm)).2.

Lemma start_cfg_read vm sshKey cs ns : fits_types vm → reads_as (vm_NetworkInterfaces vm) cs ns →
  into_struct VMStartConfig_fields (start_cfg vm sshKey cs) start_zero = Some (decoded_cfg vm sshKey ns).
Proof.
  intros (Hv & Hm & Hs) (Hj & Hmac & _).
  assert (Hl : (match cs with (mac, _) :: _ => mac | [] => "" end)
    = (match ns with n :: _ => nc_MACAddress n | [] => "" end)).
  { destruct cs as [|[mac j] cs], ns as [|n ns]; try done. by injection Hmac. }
  unfold start_cfg, decoded_cfg. rewrite Hl, Hj. clear Hl Hj Hmac.
  generalize (match ns with n :: _ => nc_MACAddress n | [] => "" end). intros mac.
  destruct (boot_source (vm_Disks vm)) as [img size]. simpl in Hs. cbn [fst snd].
  generalize dependent (vm_VCpus vm). generalize dependent (vm_MemoryMB vm).
  generalize (vm_Name vm) (vm_MachineType vm). intros name mt mem Hm vcpus Hv.
  unfold start_zero. cbn [into_struct app].
  rewrite <-(app_nil_r (omit_arr "network_interfaces" _)).
  member. erewrite read_member; [|reflexivity|in_range]. erewrite read_member; [|reflexivity|in_range].
  cbn. do 3 omitted.
  erewrite read_omit_num; [|reflexivity|in_range|by intros ->]. omitted.
  erewrite read_omit_arr; [|reflexivity|cbn -[into_nics]; unfold field; rewrite nics_read; reflexivity|].
  2:{ intros Hl. destruct ns; [done|]. by simpl in Hl. }
  done.
Qed.

Lemma start_command_decodes vm sshKey cs ns :
  fits_types vm → reads_as (vm_NetworkInterfaces vm) cs ns →
  decode_command (Marshal (start_command vm sshKey cs))
  = Some (mkCommand "start" (vm_ID vm) (Some (decoded_cfg vm sshKey ns)) false).
Proof.
  intros Hv Hr. unfold decode_command.
  assert (Hn : nested 4 (start_command vm sshKey cs)).
  { unfold start_command, start_cfg. destruct Hr as (Hj & _ & _). rewrite Hj.
    destruct (boot_source (vm_Disks vm)) as [img size]. cbn [nested].
    do 2 (apply Forall_cons; split; [exact I|]). apply Forall_cons; split; [|constructor].
    cbn [nested snd]. members_nested. apply Forall_omit_arr. intros _. apply nics_nested. }
  rewrite Unmarshal_Marshal by (eapply deep_enough; [exact Hn|lia]).
  cbn [mbind option_bind]. pose proof (start_cfg_read vm sshKey cs ns Hv Hr) as Hc.
  unfold start_command, start_cfg in *. destruct (boot_source (vm_Disks vm)) as [img size].
  cbn [into_struct]. do 2 member.
  erewrite read_member; [|reflexivity|].
  2:{ unfold field, into_ptr. cbn [cmd_Config default]. rewrite Hc. reflexivity. }
  done.
Qed.

(** A QEMU configuration that is the machine the control plane describes: one
    network card per interface, in order, with the address of the command and
    on the bridge of the interface's network. *)
Definition describes (vm : VirtualMachine) (cs : list (string * json)) (q : VMConfig) : Prop :=
  vc_ID q = vm_ID vm ∧ vc_Name q = vm_Name vm ∧ vc_VCPUs q = vm_VCpus vm ∧
  vc_MemoryMB q = vm_MemoryMB vm ∧ vc_MachineType q = vm_MachineType vm ∧
  q_MACAddress <$> vc_NICs q = fst <$> cs ∧
  Forall2 (λ nic n, BridgeForNetwork (nic_NetworkID nic) = Ret (q_Bridge n)) (vm_NetworkInterfaces vm) (vc_NICs q).

Lemma completed_reads vmID nics cs ns ns' : reads_as nics cs ns → completed vmID ns ns' →
  nc_MACAddress <$> ns' = fst <$> cs ∧
  Forall2 (λ nic n, BridgeForNetwork (nic_NetworkID nic) = Ret (nc_Bridge n)) nics ns'.
Proof.
  intros (_ & Hmac & Hall) [Hlen Hn].
  assert (Hk : ∀ i n n', ns !! i = Some n → ns' !! i = Some n' → nc_MACAddress n ≠ "" → nc_Bridge n ≠ "" →
    nc_MACAddress n' = nc_MACAddress n ∧ nc_Bridge n' = nc_Bridge n).
  { intros i n n' Ei Ei' Hm Hb. specialize (Hn i n n' Ei Ei').
    apply complete_nic_inv in Hn as (_ & _ & _ & _ & _ & _ & Hbr & Hma & _). auto. }
  split.
  - rewrite Hmac. apply list_eq_same_length with (length ns); [by rewrite length_fmap|by rewrite length_fmap|].
    intros i x y _. rewrite !list_lookup_fmap.
    destruct (ns' !! i) as [n'|] eqn:E'; [|done]. destruct (ns !! i) as [n|] eqn:E; [|done].
    intros [= <-] [= <-]. destruct (Forall2_lookup_r _ _ _ _ _ Hall E) as (nic & _ & Hm & Hb & _).
    eapply Hk; [done..|]. by eapply bridge_not_empty.
  - apply Forall2_same_length_lookup_2; [by rewrite Hlen, (Forall2_length _ _ _ Hall)|].
    intros i nic n' Enic E'. destruct (Forall2_lookup_l _ _ _ _ _ Hall Enic) as (n & E & Hm & Hb & _).
    destruct (Hk i n n' E E' Hm) as [_ ->]; [by eapply bridge_not_empty|done].
Qed.

Lemma decoded_describes vm sshKey cs ns ns' base disk iso :
  reads_as (vm_NetworkInterfaces vm) cs ns →
  completed (vm_ID vm) (sc_NetworkInterfaces (decoded_cfg vm sshKey ns)) ns' →
  describes vm cs (qemu_config base (vm_ID vm) (decoded_cfg vm sshKey ns) ns' disk iso).
Proof.
  intros Hr Hc. destruct (completed_reads _ _ _ _ _ Hr Hc) as [Hmac Hbr]. split_and!; try done.
  - rewrite <-Hmac. simpl. rewrite <-list_fmap_compose. done.
  - simpl. apply Forall2_fmap_r. eapply Forall2_impl; [exact Hbr|]. done.
Qed.

(** C31: From the control plane to QEMU.  The start command that the control
    plane publishes for a machine is understood by the agent, as a start of that
    machine; and when the agent carries it out with success, the last thing it
    ran is QEMU with the machine's name, processors, memory and machine type and
    with one network card per interface, carrying the address of the command, on
    the bridge of the interface's network. *)
Theorem start_command_runs_machine vm sshKey cs :
  nic_configs (vm_ID vm) (vm_NetworkInterfaces vm) = Ret cs → fits_types vm →
  ∃ cmd, decode_command (Marshal (start_command vm sshKey cs)) = Some cmd ∧
    cmd_Action cmd = "start" ∧ cmd_VMID cmd = vm_ID vm ∧
    ∀ prog baseDir imagesDir w w',
      @perform (host_programs prog) baseDir imagesDir cmd w = (Ret (), w') →
      ∃ q, describes vm cs q ∧ ran_qemu baseDir q w w'.
Proof.
  intros Hcs Hv. destruct (nic_configs_read _ _ _ Hcs) as [ns Hr].
  eexists. split_and!; [by apply start_command_decodes|done|done|].
  intros prog baseDir imagesDir w w' E.
  change (perform _ _ _ w) with
    (@StartVM (host_programs prog) baseDir imagesDir (vm_ID vm) (Some (decoded_cfg vm sshKey ns)) w) in E.
  destruct (start_run _ _ _ _ _ _ _ E) as (ns' & kvm & before & _ & Hc & _ & Hl & Hb & _).
  eexists. split; [|by exists kvm, before]. by eapply decoded_describes.
Qed.

(** * Gateways *)
Lemma CutByte_none s sep : Forall (λ c, c ≠ sep) (String.list_ascii_of_string s) →
  Strings.CutByte s sep = None.
Proof.
  induction s as [|c s IH]; simpl; [done|]. intros [Hc Hs]%Forall_cons.
  destruct (Ascii.eqb_spec c sep); [done|]. by rewrite IH.
Qed.

Lemma ParseCIDR_string4 bs : octets4 bs → ParseCIDR (string4 bs) = None.
Proof. intros Hbs. unfold ParseCIDR. by rewrite CutByte_none by by apply string4_no_slash. Qed.

Lemma masked_octets bs p : octets4 bs → octets4 (zip_with Z.land bs (CIDRMask p 4)).
Proof. intros Hbs. by apply zip_land_octets. Qed.

(** In a block of 256 addresses the first host ends in 1. *)
Lemma first_host_24 bs : octets4 bs →
  PutUint32 (uint32 (Uint32 bs - Uint32 bs `mod` block_size 24 + 1)) = <[3%nat := 1%Z]> bs.
Proof.
  intros Hbs. pose proof Hbs as (a & b & c & d & -> & Ha & Hb & Hc & Hd)%octets4_inv. unfold octet in *.
  assert (Hu : ∀ x, octet x → Uint32 [a; b; c; x] = (Uint32 [a; b; c; 0%Z] + x)%Z).
  { intros x Hx. unfold Uint32, octet in *. lia. }
  assert (Hm : (Uint32 [a; b; c; 0%Z] `mod` 256 = 0)%Z).
  { unfold Uint32. apply Z.mod_divide; [lia|]. exists (a * 65536 + b * 256 + c)%Z. lia. }
  rewrite (Hu d) by done. change (block_size 24) with 256%Z.
  rewrite Z.add_mod, Hm, Z.add_0_l, Z.mod_mod, (Z.mod_small d 256) by lia.
  replace (Uint32 [a; b; c; 0%Z] + d - d + 1)%Z with (Uint32 [a; b; c; 1%Z]) by (rewrite (Hu 1%Z) by (unfold octet; lia); lia).
  rewrite uint32_id by (unfold in_uint32, Uint32; lia).
  change (<[3%nat := 1%Z]> [a; b; c; d]) with [a; b; c; 1%Z].
  apply PutUint32_Uint32. split; [done|]. do 4 (apply Forall_cons; split; [unfold octet; lia|]). constructor.
Qed.

(** The agent and the control plane compute the same gateway.  For an IPv4
    address with a prefix both give the first host of its block, which is also
    the gateway of the network's CIDR; for an address without a prefix both take
    a block of 256 addresses. *)
Theorem gateways_agree bs p :
  octets4 bs → (0 ≤ p ≤ 32)%Z →
  gatewayFromCIDR (cidr_text bs p) = gatewayFromIP (cidr_text bs p) ∧
  gatewayFromCIDR (cidr_text bs p) = GatewayIP (cidr_text bs p) ∧
  gatewayFromCIDR (string4 bs) = gatewayFromIP (string4 bs).
Proof.
  intros Hbs Hp. pose proof (masked_octets bs p Hbs) as Hm.
  assert (Hcidr : gatewayFromCIDR (cidr_text bs p)
    = Ret (string4 (PutUint32 (uint32 (Uint32 bs - Uint32 bs `mod` block_size p + 1))))).
  { unfold gatewayFromCIDR. rewrite ParseCIDR_cidr_text by done. cbn [n_IP].
    pose proof (v4_block_eq bs p Hbs Hp) as Hb. unfold block in Hb. injection Hb as Hb _. cbn [n_IP] in Hb.
    destruct Hm as [Hl Ho]. unfold To4. rewrite bool_decide_true by done.
    rewrite Hb. by rewrite String_IP_4 by apply PutUint32_octets. }
  split_and!.
  - by rewrite Hcidr, gatewayFromIP_cidr_text.
  - unfold gatewayFromCIDR, GatewayIP. rewrite ParseCIDR_cidr_text by done. cbn [n_IP].
    destruct Hm as [Hl _]. unfold To4. by rewrite bool_decide_true by done.
  - unfold gatewayFromCIDR. rewrite ParseCIDR_string4, ParseIP_string4, To4_v4 by done.
    unfold gatewayFromIP, parseCIDR. rewrite ParseCIDR_string4, ParseIP_string4, String_IP_v4 by done.
    pose proof (gatewayFromIP_cidr_text bs 24 Hbs ltac:(lia)) as Hg.
    unfold gatewayFromIP, parseCIDR in Hg. unfold cidr_text in Hg. change ("/" +:+ pretty 24%Z) with "/24" in Hg.
    pose proof (ParseCIDR_cidr_text bs 24 Hbs ltac:(lia)) as Hp24. unfold cidr_text in Hp24.
    change ("/" +:+ pretty 24%Z) with "/24" in Hp24. rewrite Hp24 in *.
    rewrite Hg, first_host_24 by done. rewrite String_IP_4; [done|].
    destruct Hbs as [Hl Ho]. split; [by rewrite length_insert|]. apply Forall_insert; [done|unfold octet; lia].
Qed.
