(* ===== verification/AgentLive.v ===== *)
(** A start command does start its machine: when no call and no program fails and
    QEMU's monitor answers, the command the control plane publishes is carried
    out, reported and acknowledged.  ([AgentCommands] says what a start that
    succeeds has run; here it is shown to succeed.) *)
From stdpp Require Import base gmap strings list numbers pretty.
From S2P Require Import Prelude.
From S2P Require Import GoStd.
From S2P Require Import GoNet.
From S2P Require Import GoJson.
From S2P Require Import Ipam.
From S2P Require Import Domain.
From S2P Require Import ControlPlane.
From S2P Require Import Qcow2.
From S2P Require Import Host.
From S2P Require Import CloudInit.
From S2P Require Import Qemu.
From S2P Require Import Agent.
From S2P Require Import AgentProofs.
From S2P Require Import AgentCommands.
From stdpp Require Import options.

(** * Worlds in which nothing fails

    No call fails, no program fails, no time passes by itself, and QEMU's monitor
    accepts a connection. *)
Definition untroubled (w : HW) : Prop :=
  h_fates w = [] ∧ h_results w = [] ∧ h_delays w = [] ∧ ∃ s cs, h_conns w = Some s :: cs.

Definition succeeds {A} (P : A → Prop) (m : M HW A) : Prop :=
  ∀ w, untroubled w → ∃ a w', m w = (Ret a, w') ∧ P a ∧ untroubled w'.

Lemma live_ret {A} (P : A → Prop) a : P a → succeeds P (mret a).
Proof. intros Ha w Hw. by exists a, w. Qed.

Lemma live_any {A} P (m : M HW A) : succeeds P m → succeeds (λ _, True) m.
Proof. intros Hm w Hw. destruct (Hm w Hw) as (a & w1 & E & _ & H). eauto. Qed.

Lemma live_bind {A B} P (Q : B → Prop) (m : M HW A) (k : A → M HW B) :
  succeeds P m → (∀ a, P a → succeeds Q (k a)) → succeeds Q (m ≫= k).
Proof.
  intros Hm Hk w Hw. destruct (Hm w Hw) as (a & w1 & E & Ha & Hw1). unfold mbind, M_bind. rewrite E.
  by apply Hk.
Qed.

Lemma live_then {A B} (Q : B → Prop) (m : M HW A) (k : A → M HW B) :
  succeeds (λ _, True) m → (∀ a, succeeds Q (k a)) → succeeds Q (m ≫= k).
Proof. intros Hm Hk. by eapply live_bind. Qed.

Lemma run_then {A B} P (m : M HW A) (k : A → M HW B) w : succeeds P m → untroubled w →
  (∀ a w', P a → untroubled w' → ∃ b w'', k a w' = (Ret b, w'')) → ∃ b w'', (m ≫= k) w = (Ret b, w'').
Proof.
  intros Hm Hw Hk. destruct (Hm w Hw) as (a & w1 & E & Ha & Hw1). unfold mbind, M_bind. rewrite E. by apply Hk.
Qed.

Lemma live_wrap {A} (P : A → Prop) ctx m : succeeds P m → succeeds P (wrap ctx m).
Proof. intros Hm w Hw. destruct (Hm w Hw) as (a & w1 & E & H). exists a, w1. unfold wrap. by rewrite E. Qed.

Lemma live_ignore {A} (m : M HW A) : succeeds (λ _, True) m → succeeds (λ _, True) (ignore m).
Proof. intros Hm w Hw. destruct (Hm w Hw) as (a & w1 & E & _ & H). exists (), w1. unfold ignore. by rewrite E. Qed.

Lemma live_iterM {A} (f : A → M HW ()) l :
  (∀ x, succeeds (λ _, True) (f x)) → succeeds (λ _, True) (iterM f l).
Proof.
  intros Hf. unfold iterM. generalize tt. induction l as [|x l IH]; intros u; simpl; [by apply live_ret|].
  apply live_then; [apply Hf|]. intros v. apply IH.
Qed.

Lemma live_gets {A} (f : HW → A) : succeeds (λ _, True) (gets f).
Proof. intros w Hw. by exists (f w), w. Qed.
Lemma live_files f : succeeds (λ _, True) (modify (hw_files f)).
Proof. intros w Hw. by exists (), (hw_files f w). Qed.
Lemma live_dirs f : succeeds (λ _, True) (modify (hw_dirs f)).
Proof. intros w Hw. by exists (), (hw_dirs f w). Qed.
Lemma live_fate : succeeds (λ f, f = None) fate.
Proof. intros w Hw. exists None, w. unfold fate. destruct Hw as [E ?]. by rewrite E. Qed.
Lemma live_may_fail : succeeds (λ _, True) may_fail.
Proof. eapply live_bind; [apply live_fate|]. intros f ->. by apply live_ret. Qed.

Create HintDb succeeds.
#[export] Hint Resolve live_gets live_files live_dirs live_may_fail : succeeds.

(** Follow the structure of the program, as [does] does. *)
Ltac succeeds_step :=
  first
  [ solve [auto with succeeds nocore]
  | lazymatch goal with
    | |- succeeds _ (mret _) => by apply live_ret
    | |- succeeds _ (wrap _ _) => apply live_wrap
    | |- succeeds _ (ignore _) => apply live_ignore
    | |- succeeds _ (iterM _ _) => apply live_iterM; intros ?
    | |- succeeds _ (fate ≫= _) => eapply live_bind; [apply live_fate|intros ? ->]
    | |- succeeds _ (_ ≫= _) => apply live_then; [|intros ?]
    | |- succeeds _ (if ?b then _ else _) => destruct b
    | |- succeeds _ (match ?x with _ => _ end) => destruct x
    end ].
Ltac succeeds := repeat succeeds_step.

Section start.
Context (prog : list string → gmap string string → gmap string string).
Context (baseDir imagesDir : string).
Local Existing Instance host_programs.
Local Abbreviation host := (host_programs prog).

Lemma live_run args : succeeds (λ r, r = ("", None)) (@run_command HW host args).
Proof using Type.
  intros w (H1 & H2 & H3 & H4). unfold run_command, host_programs, host_command. cbn. rewrite H2.
  eexists _, _. split_and!; [reflexivity|done..].
Qed.

Lemma live_image ctx args : succeeds (λ _, True) (@qemu_img HW host ctx args).
Proof using Type.
  eapply live_bind; [apply live_run|]. intros r ->. by apply live_ret.
Qed.

Lemma live_bridge br gw cidr : succeeds (λ _, True) (@EnsureBridge host br gw cidr).
Proof using Type.
  unfold EnsureBridge, run_quietly. eapply live_bind; [apply live_run|]. intros r ->.
  eapply live_bind; [apply live_run|]. intros r ->. by apply live_ret.
Qed.

Lemma live_read path : succeeds (λ _, True) (read_file path).
Proof using Type. unfold read_file. succeeds. Qed.
Lemma live_stat path : succeeds (λ _, True) (stat_file path).
Proof using Type. unfold stat_file. succeeds. Qed.
Lemma live_write path text : succeeds (λ _, True) (write_file path text).
Proof using Type. unfold write_file. succeeds. Qed.
Lemma live_mkdir path : succeeds (λ _, True) (MkdirAll path).
Proof using Type. unfold MkdirAll. succeeds. Qed.
Local Hint Resolve live_image live_bridge live_read live_stat live_write
  live_mkdir : succeeds.

Lemma live_backing path img size : succeeds (λ _, True) (@qcow2_CreateWithBacking HW host info_json path img size).
Proof using Type.
  unfold qcow2_CreateWithBacking. apply live_then; [|intros fmt; unfold qcow2_Resize; succeeds].
  intros w Hw. destruct (live_run ["qemu-img"; "info"; "--output=json"; img] w Hw) as (r & w1 & E & -> & Hw1).
  unfold attempt, qcow2_Stat, mbind, M_bind. rewrite E. cbn -[info_format].
  destruct (info_format ""); eauto.
Qed.

Lemma live_create_disk vmID size img : succeeds (λ _, True) (@CreateDiskFromImage host baseDir vmID "root" size img).
Proof using Type.
  unfold CreateDiskFromImage, qcow2_Create. pose proof live_backing. succeeds; eauto.
Qed.
Local Hint Resolve live_create_disk : succeeds.

Lemma live_root_disk vmID cfg : succeeds (λ _, True) (@root_disk host baseDir imagesDir vmID cfg).
Proof using Type. unfold root_disk, image_source, m_CreateDisk. succeeds. Qed.

Lemma live_ssh_key vmID cfg : succeeds (λ _, True) (ssh_key baseDir vmID cfg).
Proof using Type. unfold ssh_key. succeeds. Qed.

Lemma live_iso dir meta user net : succeeds (λ _, True) (@GenerateISO host dir meta user net).
Proof using Type.
  unfold GenerateISO. do 4 (apply live_then; [succeeds|intros _]).
  eapply live_bind; [apply live_run|]. intros r ->. by apply live_ret.
Qed.

(** Interfaces that name their bridge, or a network to derive it from. *)
Lemma live_prepare vmID l : Forall (λ n, nc_Bridge n ≠ "") l → ∀ i,
  succeeds (λ nics, nc_IPAddress <$> nics = nc_IPAddress <$> l) (imapM (@prepare_nic host vmID) i l).
Proof using Type.
  induction 1 as [|n l Hn _ IH]; intros i; cbn [imapM]; [by apply live_ret|].
  eapply (live_bind (λ n', nc_IPAddress n' = nc_IPAddress n)).
  - unfold prepare_nic. eapply (live_bind (λ n', nc_IPAddress n' = nc_IPAddress n)).
    + intros w Hw. unfold lift_outcome, complete_nic. rewrite (proj2 (String.eqb_neq _ _) Hn).
      eexists _, w. split; [reflexivity|]. done.
    + intros n' Hn'. apply live_then; [succeeds|]. intros _. by apply live_ret.
  - intros n' Hn'. eapply live_bind; [apply IH|]. intros ns Hns. apply live_ret. csimpl. congruence.
Qed.

(** The wait for the monitor takes the connection; so this is the last step. *)
Lemma m_start_succeeds cfg w : vc_NICs cfg ≠ [] → untroubled w →
  ∃ w', @m_StartVM host baseDir cfg w = (Ret (), w').
Proof using Type.
  intros Hn Hw.
  cut (∃ u w', @m_StartVM host baseDir cfg w = (Ret u, w')); [intros ([] & w' & E); eauto|].
  unfold m_StartVM, create_file. apply (run_then (λ _, True)); [by succeeds|done|]. intros _ w1 _ Hw1.
  destruct (vc_NICs cfg) as [|n nics]; [done|].
  apply (run_then (λ _, True)); [by succeeds|done|]. intros _ w2 _ Hw2. apply (run_then (λ _, True)); [by succeeds|done|]. intros kvm w3 _ Hw3.
  apply (run_then (λ _, True)); [by succeeds|done|]. intros _ w4 _ Hw4. apply (run_then (λ _, True)); [by succeeds|done|]. intros _ w5 _ Hw5.
  eapply run_then; [apply live_run|done|]. intros r w6 -> (_ & _ & Hd & s & cs & Hc). cbn [snd].
  unfold wrap, waitForSocket, mbind, M_bind, time_Now. rewrite Hd.
  change (Z.to_nat (10000 / 100 + 2)) with 102%nat. cbn [waitForSocket_loop].
  unfold mbind, M_bind, time_Now, attempt, DialTimeout. rewrite Hd.
  rewrite (proj2 (Z.ltb_lt _ _)) by lia. rewrite Hc. eauto.
Qed.

Lemma ignore_ret {A} (m : M HW A) w : (m w).1 ≠ Panic → ∃ w', ignore m w = (Ret (), w').
Proof using Type. unfold ignore. destruct (m w) as [[] w']; simpl; eauto; done. Qed.

(** Some interface has an address. *)
Lemma cloud_ifaces_some nics l : nc_IPAddress <$> nics = nc_IPAddress <$> l →
  (∃ n, n ∈ l ∧ nc_IPAddress n ≠ "") → cloud_ifaces nics ≠ [].
Proof using Type.
  intros Heq (n & Hn & Hip) He. apply fmap_nil_inv in He.
  assert (nc_IPAddress n ∈ nc_IPAddress <$> nics) as Hin by (rewrite Heq; by apply list_elem_of_fmap_2).
  apply list_elem_of_fmap in Hin as (n' & En & Hn').
  apply (not_elem_of_nil n'). rewrite <-He. apply list_elem_of_filter. by rewrite <-En.
Qed.

Lemma start_succeeds vmID cfg w : Forall (λ n, nc_Bridge n ≠ "") (sc_NetworkInterfaces cfg) →
  (∃ n, n ∈ sc_NetworkInterfaces cfg ∧ nc_IPAddress n ≠ "") → untroubled w →
  ∃ w', @StartVM host baseDir imagesDir vmID (Some cfg) w = (Ret (), w').
Proof using Type.
  intros Hbr Hip Hw. cut (∃ u w', @StartVM host baseDir imagesDir vmID (Some cfg) w = (Ret u, w')).
  { intros ([] & w' & E). eauto. }
  unfold StartVM. apply (run_then (λ _, True)); [by succeeds|done|]. intros _ w1 _ Hw1.
  apply (run_then (λ _, True)); [apply live_root_disk|done|]. intros disk w2 _ Hw2.
  apply (run_then (λ _, True)); [apply live_ssh_key|done|]. intros key w3 _ Hw3.
  eapply (run_then (λ nics, nc_IPAddress <$> nics = nc_IPAddress <$> sc_NetworkInterfaces cfg)); [|done|].
  { pose proof (live_prepare vmID _ Hbr 0) as Hp. destruct Hip as (n & Hn & _).
    destruct (sc_NetworkInterfaces cfg); [by apply not_elem_of_nil in Hn|exact Hp]. }
  intros nics w4 Hnics Hw4. pose proof (cloud_ifaces_some nics _ Hnics Hip) as Hc.
  destruct (cloud_ifaces nics) as [|if0 ifs] eqn:Hifs; [done|].
  apply (run_then (λ _, True)); [apply live_wrap, live_iso|done|]. intros iso w5 _ Hw5.
  assert (nics ≠ []) as Hne by (by intros ->).
  destruct (m_start_succeeds (qemu_config baseDir vmID cfg nics disk iso) w5) as [w6 E6]; [by destruct nics|done|].
  unfold mbind, M_bind, wrap. rewrite E6. exists (). apply ignore_ret.
  by apply (does_write (λ _, True)).
Qed.
End start.

Lemma start_command_live prog nodeBase images vm sshKey cs w :
  nic_configs (vm_ID vm) (vm_NetworkInterfaces vm) = Ret cs → fits_types vm →
  (∃ nic, nic ∈ vm_NetworkInterfaces vm ∧ first_address nic ≠ "") → untroubled w →
  ∃ w' q kvm before,
    @handleCommand (host_programs prog) nodeBase images (Marshal (start_command vm sshKey cs)) w = (Ret (), w') ∧
    describes vm cs q ∧
    h_log w' = h_log w ++ before ++
      [Exec ("qemu-system-x86_64" :: qemu_args nodeBase q kvm);
       Published ("events.vm." +:+ vm_ID vm +:+ ".start") (Marshal (result_json (vm_ID vm) "start" "success" ""));
       Ack].
Proof.
  intros Hcs Hv Hip Hw. destruct (nic_configs_read _ _ _ Hcs) as [ns Hr]. pose proof Hr as (_ & _ & Hall).
  destruct (start_succeeds prog nodeBase images (vm_ID vm) (decoded_cfg vm sshKey ns) w) as [w1 E]; [| |done|].
  { apply Forall_lookup. intros i n Hn. destruct (Forall2_lookup_r _ _ _ _ _ Hall Hn) as (nic & _ & _ & Hb & _).
    by eapply bridge_not_empty. }
  { destruct Hip as (nic & [i Hi]%list_elem_of_lookup & Ha).
    destruct (Forall2_lookup_l _ _ _ _ _ Hall Hi) as (n & Hn & _ & _ & Hn').
    exists n. split; [by eapply list_elem_of_lookup_2|congruence]. }
  destruct (start_run _ _ _ _ _ _ _ E) as (ns' & kvm & before & _ & Hc & _ & Hl & _ & w2 & Hf & _).
  assert (Hw1 : h_fates w1 = []).
  { eapply (run_free acts); [by apply does_StartVM|exact E|by destruct Hw]. }
  unfold handleCommand. rewrite (start_command_decodes vm sshKey cs ns Hv Hr).
  unfold mbind, M_bind, attempt.
  change (perform _ _ _ w) with
    (@StartVM (host_programs prog) nodeBase images (vm_ID vm) (Some (decoded_cfg vm sshKey ns)) w).
  rewrite E. unfold ignore, js_Publish, may_fail, fate, mbind, M_bind. rewrite Hw1.
  eexists _, _, kvm, before. split_and!; [reflexivity| |].
  - by eapply decoded_describes.
  - cbn [log modify hw_log h_log]. rewrite Hl. by rewrite <-!(assoc_L (++)).
Qed.

(** A start command of the control plane is carried out.  When a machine has
    an interface with an address, every interface's network has a bridge, and
    nothing fails on the node, the agent starts QEMU with the machine the
    control plane describes, then reports success, then acknowledges the
    message; these are the last three things it does. *)
Theorem start_command_succeeds prog nodeBase images vm sshKey cs w :
  nic_configs (vm_ID vm) (vm_NetworkInterfaces vm) = Ret cs → fits_types vm →
  (∃ nic, nic ∈ vm_NetworkInterfaces vm ∧ first_address nic ≠ "") → untroubled w →
  ∃ w' q kvm before,
    @handleCommand (host_programs prog) nodeBase images (Marshal (start_command vm sshKey cs)) w = (Ret (), w') ∧
    describes vm cs q ∧
    h_log w' = h_log w ++ before ++
      [Exec ("qemu-system-x86_64" :: qemu_args nodeBase q kvm);
       Published ("events.vm." +:+ vm_ID vm +:+ ".start") (Marshal (result_json (vm_ID vm) "start" "success" ""));
       Ack].
Proof. apply start_command_live. Qed.
