(* ===== verification/AgentWitnesses.v ===== *)
(** A concrete node on which the hypotheses of the theorems of [AgentProofs] and
    [AgentCommands] hold: one machine with one interface, a monitor that
    answers, external programs that succeed and change no file. *)
From stdpp Require Import base gmap strings list numbers pretty.
From S2P Require Import Prelude.
From S2P Require Import GoStd.
From S2P Require Import GoNet.
From S2P Require Import GoJson.
From S2P Require Import Ipam.
From S2P Require Import Domain.
From S2P Require Import ControlPlane.
From S2P Require Import Qcow2.
From S2P Require Import Host.
From S2P Require Import CloudInit.
From S2P Require Import Qemu.
From S2P Require Import HostInfo.
From S2P Require Import Agent.
From S2P Require Import AgentProofs.
From S2P Require Import AgentCommands.
From S2P Require Import AgentLive.
From stdpp Require Import options.

Definition prog0 (args : list string) (files : gmap string string) : gmap string string := files.
Definition base0 : string := "/vms".
Definition images0 : string := "/images".

Definition node0 (files : gmap string string) (conns : list (option conn_script)) : HW :=
  mkHW files ∅ 0 [] [] [] conns [] (λ _ _, true).

Definition nic0 : NICConfig := mkNICConfig "c0ffee00-0000-4000-8000-000000000001" "" "10.0.0.5/24" "" "" "".
Definition cfg0 : VMStartConfig :=
  mkStartConfig "web" 2 2048 "" "" "ssh-ed25519 AAAA" "" "" "" 0 "" [nic0].

(** A node on which a dial of the monitor succeeds once. *)
Definition w_start : HW := node0 ∅ [Some []].

Lemma split_run {A} (m : M HW A) w a : (m w).1 = Ret a → m w = (Ret a, (m w).2).
Proof. destruct (m w). simpl. by intros ->. Qed.

Definition w_started : HW := (@StartVM (host_programs prog0) base0 images0 "vm1" (Some cfg0) w_start).2.

Lemma started : @StartVM (host_programs prog0) base0 images0 "vm1" (Some cfg0) w_start = (Ret (), w_started).
Proof. unfold w_started. apply split_run. vm_compute. reflexivity. Qed.

Lemma waiting_ends_witness :
  wp (waitForSocket "/vms/vm1/qmp.sock" 10000) (waited 10000 w_start) w_start ∧
  wp (waitForProcessExit base0 "vm1" 10000) (waited 10000 w_start) w_start.
Proof. apply (waiting_ends base0 "vm1" "/vms/vm1/qmp.sock" 10000 w_start). lia. Defined.

(** * The monitor *)
Definition greeting0 : json := JObj [("QMP", JObj [("version", JObj []); ("capabilities", JArr [])])].
Definition empty_return : json := JObj [("return", JObj [])].
Definition status_return : json :=
  JObj [("return", JObj [("status", JStr "running"); ("running", JBool true)])].
Definition powerdown_event : json :=
  qmp_event "POWERDOWN" [("timestamp", JObj [("seconds", JNum 1); ("microseconds", JNum 2)])].

Definition w_reply : HW := node0 ∅ [Some [Some greeting0; Some empty_return; Some status_return]].

Lemma qmp_exchange_witness :
  (sendQMPCommandWithReturn "/vms/vm1/qmp.sock" (execute "query-status") w_reply).1
  = Ret (Some (JObj [("status", JStr "running"); ("running", JBool true)])).
Proof.
  destruct (qmp_exchange_result "/vms/vm1/qmp.sock" (execute "query-status") greeting0 empty_return
    [Some status_return] [] w_reply eq_refl eq_refl ltac:(by eexists) ltac:(by eexists))
    as (o & E & Hreply & _).
  rewrite E. apply (Hreply status_return [] (mkQmp (Some (JObj [("status", JStr "running"); ("running", JBool true)])) None "") eq_refl).
  - by repeat constructor.
  - reflexivity.
Defined.

Definition w_powerdown : HW :=
  node0 {[ "/vms/vm1/qemu.pid" := "4711" ]}
    [Some [Some greeting0; Some empty_return; Some powerdown_event; Some empty_return]].

Lemma event_kill_witness :
  last (h_log (m_StopVM base0 "vm1" false w_powerdown).2) = Some (Kill 4711).
Proof.
  rewrite (event_turns_shutdown_into_kill base0 "vm1" greeting0 empty_return "POWERDOWN"
    [("timestamp", JObj [("seconds", JNum 1); ("microseconds", JNum 2)])] [Some empty_return] []
    "4711" 4711 w_powerdown); try done; try (by eexists); by repeat constructor.
Defined.

(** * Starting, persisting and recovering *)
Lemma persisted_witness :
  (loadVMConfig base0 "vm1" (persistVMConfig base0 "vm1" cfg0 "/vms/vm1/root.qcow2" "52:54:00:00:00:01" "/iso" w_start).2).1
  = Ret (reloaded cfg0 "/vms/vm1/root.qcow2" "52:54:00:00:00:01").
Proof.
  apply (persisted_config_roundtrip base0 "vm1" cfg0 "/vms/vm1/root.qcow2" "52:54:00:00:00:01" "/iso" w_start).
  - unfold sized, in_int32, in_int64, cfg0. simpl. lia.
  - reflexivity.
  - apply split_run. reflexivity.
Defined.

(** The node after a restart of the agent: its files, and a fresh monitor. *)
Definition w_restarted : HW := node0 (h_files w_started) [Some []].
Definition cfg_loaded : VMStartConfig :=
  match (loadVMConfig base0 "vm1" w_restarted).1 with Ret c => c | _ => start_zero end.
Definition w_recovered : HW :=
  (@StartVM (host_programs prog0) base0 images0 "vm1" (Some cfg_loaded) (loadVMConfig base0 "vm1" w_restarted).2).2.

Lemma recovery_witness :
  ∃ q, ran_qemu base0 q w_start w_started ∧
       ran_qemu base0 q (loadVMConfig base0 "vm1" w_restarted).2 w_recovered.
Proof.
  apply (recovery_starts_same_machine prog0 base0 images0 "vm1" cfg0 w_start w_started w_restarted cfg_loaded
           (loadVMConfig base0 "vm1" w_restarted).2 w_recovered).
  - unfold sized, in_int32, in_int64, cfg0. simpl. lia.
  - reflexivity.
  - exact started.
  - reflexivity.
  - unfold cfg_loaded. apply split_run. vm_compute. reflexivity.
  - unfold w_recovered. apply split_run. vm_compute. reflexivity.
Defined.

(** A running machine whose process ends when it is told to quit. *)
Definition w_running : HW :=
  mkHW {[ "/vms/vm1/qemu.pid" := "4711"; "/vms/vm1/vm.json" := "{}" ]} ∅ 0 [] [] [0%Z; 50%Z; 50%Z]
    [Some [Some greeting0; Some empty_return; Some status_return];
     Some [Some greeting0; Some empty_return; Some empty_return]] [] (λ _ t, (t <? 60)%Z).

Lemma stopped_witness :
  h_files (StopVM base0 "vm1" true w_running).2 !! "/vms/vm1/vm.json" = None.
Proof.
  refine (proj1 (stopped_machine_not_recovered prog0 base0 images0 "vm1" true w_running
    (StopVM base0 "vm1" true w_running).2 _ _ _)).
  - reflexivity.
  - apply split_run. vm_compute. reflexivity.
  - vm_compute. discriminate.
Defined.

(** A machine whose guest shut it down: no process, but [vm.json]. *)
Definition w_guest_down : HW :=
  node0 {[ "/vms/vm1/vm.json" := Marshal (persisted_json cfg0 "/vms/vm1/root.qcow2" "52:54:00:00:00:01" "/iso") ]} [Some []].

Lemma comes_back_witness :
  StopVM base0 "vm1" false w_guest_down = (Ret (), w_guest_down) ∧
  @recover_entry (host_programs prog0) base0 images0 ("vm1", true) w_guest_down
  = ignore (@StartVM (host_programs prog0) base0 images0 "vm1"
              (Some (reloaded cfg0 "/vms/vm1/root.qcow2" "52:54:00:00:00:01"))) w_guest_down.
Proof.
  apply (machine_down_by_itself_comes_back prog0 base0 images0 "vm1" false
    (Marshal (persisted_json cfg0 "/vms/vm1/root.qcow2" "52:54:00:00:00:01" "/iso"))).
  - reflexivity.
  - reflexivity.
  - reflexivity.
  - apply persisted_decodes. unfold sized, in_int32, in_int64, cfg0. simpl. lia.
Defined.

(** * From the control plane *)
Definition vm_web : VirtualMachine :=
  mkVM "vm1" "web" (Some "node-1") "org" None VMStatusRunning 2 2048 "host" "q35" false false false "" None
    None None None
    [mkDisk "d1" "root" (20 * 1024 * 1024 * 1024) "qcow2" "default" "img1" true 0]
    [mkNIC "n1" "eth0" "c0ffee00-0000-4000-8000-000000000001" "52:54:00:12:34:56" ["10.0.0.5/24"] [] true] 0 0.

Definition cs_web : list (string * json) :=
  match nic_configs "vm1" (vm_NetworkInterfaces vm_web) with Ret cs => cs | _ => [] end.

Lemma start_command_witness :
  ∃ cmd, decode_command (Marshal (start_command vm_web "ssh-ed25519 AAAA" cs_web)) = Some cmd ∧
    cmd_Action cmd = "start" ∧ cmd_VMID cmd = "vm1" ∧
    ∃ q, describes vm_web cs_web q ∧
      ran_qemu base0 q w_start (@perform (host_programs prog0) base0 images0 cmd w_start).2.
Proof.
  destruct (start_command_runs_machine vm_web "ssh-ed25519 AAAA" cs_web) as (cmd & Ec & Ha & Hi & Hrun).
  - vm_compute. reflexivity.
  - unfold fits_types, in_int32, in_int64. simpl. lia.
  - exists cmd. split_and!; [done..|]. apply (Hrun prog0 base0 images0). apply split_run.
    vm_compute in Ec. injection Ec as <-. vm_compute. reflexivity.
Defined.

Lemma start_succeeds_witness :
  ∃ w' q kvm before,
    @handleCommand (host_programs prog0) base0 images0 (Marshal (start_command vm_web "ssh-ed25519 AAAA" cs_web))
      w_start = (Ret (), w') ∧
    describes vm_web cs_web q ∧
    h_log w' = h_log w_start ++ before ++
      [Exec ("qemu-system-x86_64" :: qemu_args base0 q kvm);
       Published ("events.vm." +:+ "vm1" +:+ ".start") (Marshal (result_json "vm1" "start" "success" ""));
       Ack].
Proof.
  apply (start_command_succeeds prog0 base0 images0 vm_web "ssh-ed25519 AAAA" cs_web w_start).
  - vm_compute. reflexivity.
  - unfold fits_types, in_int32, in_int64. simpl. lia.
  - exists (mkNIC "n1" "eth0" "c0ffee00-0000-4000-8000-000000000001" "52:54:00:12:34:56" ["10.0.0.5/24"] [] true).
    split; [by left|done].
  - split_and!; [done..|]. by eexists _, _.
Defined.

Lemma gateways_agree_witness :
  gatewayFromCIDR (cidr_text [10; 0; 0; 5]%Z 24) = gatewayFromIP (cidr_text [10; 0; 0; 5]%Z 24) ∧
  gatewayFromCIDR (cidr_text [10; 0; 0; 5]%Z 24) = GatewayIP (cidr_text [10; 0; 0; 5]%Z 24) ∧
  gatewayFromCIDR (string4 [10; 0; 0; 5]%Z) = gatewayFromIP (string4 [10; 0; 0; 5]%Z).
Proof.
  apply (gateways_agree [10; 0; 0; 5]%Z 24); [|lia].
  split; [done|]. do 4 (apply Forall_cons; split; [unfold octet; lia|]). constructor.
Defined.
