(* ===== verification/Metrics.v ===== *)
(** [internal/metrics/collector.go]: the collector of system and machine
    metrics.  It keeps the previous samples (processor, network, disk) and
    computes rates from the difference; its state is passed along.  The clock
    counts milliseconds.  What [statfs] answers is an argument.

    Theorem: a round always gives a result, no access by index being out of range
    whatever [/proc] holds, and processor usage is a number between 0 and 100,
    whatever the counters do. *)
From Stdlib Require Import SpecFloat.
From stdpp Require Import base gmap strings list numbers pretty.
From S2P Require Import Prelude.
From S2P Require Import GoStd.
From S2P Require Import Host.
From S2P Require Import Float64.
From S2P Require Import HostInfo.
From S2P Require Import AgentProofs.
From stdpp Require Import options.
Local Open Scope Z_scope.

(** * Data *)
Record CPUMetrics := mkCPU { cpu_UsagePercent : float64; cpu_Cores : Z; cpu_LoadAvg : list float64 }.
Record DiskMetrics := mkDiskMetrics {
  dm_Info : DiskInfo; dm_ReadBytes : Z; dm_WriteBytes : Z; dm_ReadIOPS : Z; dm_WriteIOPS : Z;
}.
Record NetRate := mkNetRate { nr_Interface : NetInterface; nr_RxMbps : float64; nr_TxMbps : float64 }.
Record NetworkMetrics := mkNetworkMetrics {
  nm_Interfaces : list NetRate;
  nm_TotalRxBytes : Z; nm_TotalTxBytes : Z; nm_TotalRxPackets : Z; nm_TotalTxPackets : Z;
  nm_TotalRxMbps : float64; nm_TotalTxMbps : float64;
}.
Record LoadMetrics := mkLoad {
  ld_Avg1 : float64; ld_Avg5 : float64; ld_Avg15 : float64; ld_Running : Z; ld_Total : Z;
}.
(** A part that could not be read keeps its zero value ([None]). *)
Record SystemMetrics := mkSystem {
  sm_Timestamp : Z;
  sm_CPU : CPUMetrics;
  sm_Memory : option MemoryInfo;
  sm_Disk : option DiskMetrics;
  sm_Network : option NetworkMetrics;
  sm_Load : LoadMetrics;
  sm_Uptime : Z;
}.

Record NetSample := mkSample { ns_Rx : Z; ns_Tx : Z; ns_RxP : Z; ns_TxP : Z; ns_Time : Z }.

(** [prevCPU] and [prevDisk] are [None] while their time is zero. *)
Record Collector := mkCollector {
  c_prevCPU : option (Z * Z * Z);
  c_prevNet : gmap string NetSample;
  c_prevDisk : option (DiskIOInfo * Z);
}.
Definition NewCollector : Collector := mkCollector None ∅ None.

(** [d.Seconds()] of a duration in milliseconds. *)
Definition seconds (ms : Z) : float64 :=
  fadd (of_int (Z.quot ms 1000)) (fdiv (of_int (Z.rem ms 1000 * 1000000)) (of_int 1000000000)).

(** * Processor *)
Definition clamp (usage : float64) : float64 :=
  let usage := if flt usage fzero then fzero else usage in
  if flt (of_int 100) usage then of_int 100 else usage.

Definition usage_between (idleDiff totalDiff : Z) : float64 :=
  clamp (fmul (of_int 100) (fsub (of_int 1) (fdiv (of_int idleDiff) (of_int totalDiff)))).

Definition readCPUUsage (c : Collector) : M HW (float64 * Collector) :=
  '(idle, total) ← ReadCPUStat;
  now ← time_Now;
  match c_prevCPU c with
  | None => mret (fzero, mkCollector (Some (idle, total, now)) (c_prevNet c) (c_prevDisk c))
  | Some (pidle, ptotal, ptime) =>
      if flt (seconds (now - ptime)) (decimal 1 (-1)) then mret (fzero, c)
      else
        let idleDiff := sub64 idle pidle in
        let totalDiff := sub64 total ptotal in
        let c' := mkCollector (Some (idle, total, now)) (c_prevNet c) (c_prevDisk c) in
        mret (if totalDiff =? 0 then fzero else usage_between idleDiff totalDiff, c')
  end.

(** * Network *)
Definition mbps (bytes : Z) (elapsed : float64) : float64 :=
  fdiv (fdiv (fmul (of_int bytes) (of_int 8)) elapsed) (of_int 1000000).

(** Rates against the previous sample of a name, if there is one and time has
    passed. *)
Definition rates (prev : option NetSample) (rx tx now : Z) : float64 * float64 :=
  match prev with
  | Some p =>
      let elapsed := seconds (now - ns_Time p) in
      if flt fzero elapsed
      then (mbps (sub64 rx (ns_Rx p)) elapsed, mbps (sub64 tx (ns_Tx p)) elapsed)
      else (fzero, fzero)
  | None => (fzero, fzero)
  end.

Definition net_step (now : Z) (acc : gmap string NetSample * list NetRate) (i : NetInterface) :
    gmap string NetSample * list NetRate :=
  let '(rx, tx) := rates (acc.1 !! if_Name i) (if_RxBytes i) (if_TxBytes i) now in
  (<[if_Name i := mkSample (if_RxBytes i) (if_TxBytes i) (if_RxPackets i) (if_TxPackets i) now]> acc.1,
   acc.2 ++ [mkNetRate i rx tx]).

Definition readNetwork (c : Collector) : M HW (NetworkMetrics * Collector) :=
  ifaces ← ReadNetwork;
  now ← time_Now;
  let '(prev, rs) := foldl (net_step now) (c_prevNet c, []) ifaces in
  let '(rx, tx, rp, tp) :=
    foldl (λ '(rx, tx, rp, tp) i, (add64 rx (if_RxBytes i), add64 tx (if_TxBytes i),
                                   add64 rp (if_RxPackets i), add64 tp (if_TxPackets i)))
      (0, 0, 0, 0) ifaces in
  let '(trx, ttx) := rates (prev !! "__total__") rx tx now in
  mret (mkNetworkMetrics rs rx tx rp tp trx ttx,
        mkCollector (c_prevCPU c) (<["__total__" := mkSample rx tx 0 0 now]> prev) (c_prevDisk c)).

(** [if v, err := m; err == nil]: the value, if there is one. *)
Definition try {A} (m : M HW A) : M HW (option A) :=
  r ← attempt m; mret (match r with inl a => Some a | inr _ => None end).

Section collector.
(** [syscall.Statfs("/")]: blocks, free blocks, block size. *)
Context (statfs : M HW (Z * Z * Z)).

Definition readDisk : M HW DiskInfo := '(blocks, bfree, bsize) ← statfs; mret (disk_info blocks bfree bsize).

(** [m.Load.Avg1, m.Load.Avg5, m.Load.Avg15 = load[0], load[1], load[2]], when
    there is a load. *)
Definition load_three (load : option (list float64)) : outcome (float64 * float64 * float64) :=
  match load with
  | None => Ret (fzero, fzero, fzero)
  | Some load => a ← index load 0; b ← index load 1; c ← index load 2; Ret (a, b, c)
  end.

(** * One round *)
Definition CollectSystem (c : Collector) : M HW (SystemMetrics * Collector) :=
  now ← time_Now;
  cores ← or_zero 0 ReadCPUCores;
  usage ← try (readCPUUsage c);
  let c := match usage with Some (_, c') => c' | None => c end in
  load ← try ReadLoadAvg;
  '(avg1, avg5, avg15) ← lift_outcome (load_three load);
  procs ← try ReadLoadProcs;
  mem ← try ReadMemoryInfo;
  disk ← try readDisk;
  '(disk, c) ← (match disk with
                | None => mret (None, c)
                | Some d =>
                    io ← try ReadDiskStats;
                    mret (match io with
                          | Some io => (Some (mkDiskMetrics d (io_ReadBytes io) (io_WriteBytes io)
                                                (io_ReadIOPS io) (io_WriteIOPS io)),
                                        mkCollector (c_prevCPU c) (c_prevNet c) (Some (io, now)))
                          | None => (Some (mkDiskMetrics d 0 0 0 0), c)
                          end)
                end);
  net ← try (readNetwork c);
  let c := match net with Some (_, c') => c' | None => c end in
  uptime ← or_zero 0 ReadUptime;
  mret (mkSystem (now / 1000)
          (mkCPU (match usage with Some (u, _) => u | None => fzero end) cores (default [] load))
          mem disk (fst <$> net)
          (mkLoad avg1 avg5 avg15
             (match procs with Some (r, _) => r | None => 0 end)
             (match procs with Some (_, t) => t | None => 0 end))
          uptime, c).

(** * A machine's process *)
Definition readVMPid (vmID : string) : M HW Z :=
  r ← read_file ("/var/lib/rymevisor/vms/" +:+ vmID +:+ "/qemu.pid");
  match r with
  | inl s => mret (parse (Strings.TrimSpace s))
  | inr _ => s ← proc_file (".dev-logs/" +:+ vmID +:+ ".pid"); mret (parse (Strings.TrimSpace s))
  end.

(** [uptimeFields[0]] of a text that could not be read is out of range. *)
Definition uptime_seconds : M HW float64 :=
  r ← read_file "/proc/uptime";
  f ← lift_outcome (index (Strings.Fields (match r with inl s => s | inr _ => "" end)) 0);
  mret (parse_float f).

Definition clkTck : float64 := of_int 100.

Definition proc_stat (pid : Z) : M HW (list string) :=
  data ← proc_file ("/proc/" +:+ pretty pid +:+ "/stat");
  let fields := Strings.Fields data in
  if bool_decide (length fields < 22)%nat then fail "invalid stat" else mret fields.

Definition readProcessCPU (pid : Z) : M HW float64 :=
  fields ← proc_stat pid;
  utime ← lift_outcome (int_at fields 13);
  stime ← lift_outcome (int_at fields 14);
  starttime ← lift_outcome (int_at fields 21);
  uptime ← uptime_seconds;
  let cpuTime := fdiv (of_int (add64 utime stime)) clkTck in
  let elapsed := fsub uptime (fdiv (of_int starttime) clkTck) in
  mret (if fle elapsed fzero then fzero
        else
          let usage := fdiv (fmul (of_int 100) cpuTime) elapsed in
          if flt (of_int 100) usage then of_int 100 else usage).

Definition readProcessUptime (pid : Z) : M HW Z :=
  fields ← proc_stat pid;
  starttime ← lift_outcome (int_at fields 21);
  uptime ← uptime_seconds;
  mret (to_int 64 (fsub uptime (fdiv (of_int starttime) clkTck))).

(** The first line that starts with [VmRSS:] and has a value. *)
Definition vm_rss (data : string) : outcome Z :=
  match head (filter (λ fs : list string, bool_decide (2 ≤ length fs)%nat = true)
    (Strings.Fields <$> filter (λ l, Strings.HasPrefix l "VmRSS:" = true) (split_lines data))) with
  | Some fields => kb ← int_at fields 1; Ret (Z.quot kb 1024)
  | None => Err "VmRSS not found"
  end.

Definition readProcessMemory (pid : Z) : M HW Z :=
  data ← proc_file ("/proc/" +:+ pretty pid +:+ "/status"); lift_outcome (vm_rss data).

Definition vmDiskPath (vmID : string) : M HW (option string) :=
  let a := "/var/lib/rymevisor/vms/" +:+ vmID +:+ "/root.qcow2" in
  let b := ".dev-logs/" +:+ vmID +:+ ".qcow2" in
  st ← stat_file a;
  if is_ok st then mret (Some a)
  else st ← stat_file b; mret (if is_ok st then Some b else None).

(** [fi.Size()], for both the size and what is used of it. *)
Definition readVMDiskUsage (path : string) : M HW (Z * Z) :=
  st ← stat_file path;
  match st with
  | inr e => fail (error_text path e)
  | inl _ => s ← gets (λ w, h_files w !! path);
             let n := Z.of_nat (String.length (default "" s)) in mret (n, n)
  end.

Definition guest_line (line : string) : outcome (Z * Z) :=
  let line := Strings.TrimSpace line in
  if Strings.HasPrefix line "tap" || Strings.HasPrefix line "vnet" || Strings.HasPrefix line "br-" then
    match Strings.CutByte line colon with
    | None => Ret (0, 0)
    | Some (_, rest) =>
        let fields := Strings.Fields (Strings.TrimSpace rest) in
        if bool_decide (length fields < 10)%nat then Ret (0, 0)
        else rxB ← int_at fields 0; txB ← int_at fields 8; Ret (rxB, txB)
    end
  else Ret (0, 0).

(** All the guests' interfaces of the node, whichever machine they are of. *)
Definition guest_bytes (data : string) : outcome (Z * Z) :=
  foldO (λ '(rx, tx) line, '(r, t) ← guest_line line; Ret (add64 rx r, add64 tx t)) (0, 0) (split_lines data).
Definition readVMNetwork (vmID : string) : M HW (Z * Z) :=
  data ← proc_file "/proc/net/dev"; lift_outcome (guest_bytes data).

Record VMMetrics := mkVMMetrics {
  vmm_VMID : string; vmm_Name : string; vmm_Status : string; vmm_VCpus : Z; vmm_MemoryMB : Z;
  vmm_CPU : float64; vmm_MemoryUsageMB : Z; vmm_MemoryPercent : float64;
  vmm_SizeGB : Z; vmm_UsedGB : Z; vmm_Rx : Z; vmm_Tx : Z; vmm_Uptime : Z; vmm_Timestamp : Z; vmm_PID : Z;
}.

Definition CollectVM (vmID name status : string) (vcpus memoryMB : Z) : M HW VMMetrics :=
  now ← time_Now;
  pid ← try (readVMPid vmID);
  '(pid, cpu, mem, percent, uptime) ←
    (match pid with
     | Some pid =>
         if 0 <? pid then
           cpu ← try (readProcessCPU pid);
           mem ← try (readProcessMemory pid);
           up ← try (readProcessUptime pid);
           mret (pid, default fzero cpu, default 0 mem,
                 match mem with
                 | Some m => if 0 <? memoryMB then fmul (fdiv (of_int m) (of_int memoryMB)) (of_int 100) else fzero
                 | None => fzero
                 end, default 0 up)
         else mret (0, fzero, 0, fzero, 0)
     | None => mret (0, fzero, 0, fzero, 0)
     end);
  path ← vmDiskPath vmID;
  '(size, used) ← (match path with
                   | Some p => r ← try (readVMDiskUsage p); mret (default (0, 0) r)
                   | None => mret (0, 0)
                   end);
  net ← try (readVMNetwork vmID);
  let gb := 1024 * 1024 * 1024 in
  let '(rx, tx) := default (0, 0) net in
  mret (mkVMMetrics vmID name status vcpus memoryMB cpu mem percent (Z.quot size gb) (Z.quot used gb)
          rx tx uptime (now / 1000) pid).

End collector.

(** * Processor usage is a percentage *)

Definition percent (u : float64) : Prop := fle fzero u = true ∧ fle u (of_int 100) = true.

Lemma percent_zero : percent fzero.
Proof. done. Qed.

(** The order of numbers is total: what is not below is at least. *)
Lemma flt_fle x y : is_num x = true → is_num y = true → flt x y = false → fle y x = true.
Proof.
  unfold flt, fle, SFltb, SFleb. intros Hx Hy.
  destruct x as [[]|[]| |[] m1 e1], y as [[]|[]| |[] m2 e2]; try done; simpl;
    rewrite (Z.compare_antisym e1 e2); destruct (e1 ?= e2); try done; simpl;
    change (Pos.compare_cont Eq ?a ?b) with (Pos.compare a b);
    rewrite (Pos.compare_antisym m1 m2); by destruct (m1 ?= m2)%positive.
Qed.

Lemma clamp_percent u : is_num u = true → percent (clamp u).
Proof.
  intros Hu. unfold clamp. set (v := if flt u fzero then fzero else u).
  assert (Hv : is_num v = true ∧ fle fzero v = true).
  { unfold v. destruct (flt u fzero) eqn:E; [done|]. split; [done|]. by apply flt_fle. }
  destruct Hv as [Hn Hz]. destruct (flt (of_int 100) v) eqn:E; [done|].
  split; [done|]. by apply flt_fle.
Qed.

Lemma usage_percent idleDiff totalDiff : totalDiff ≠ 0 → in_int64 totalDiff →
  percent (usage_between idleDiff totalDiff).
Proof.
  intros Hz Hr. apply clamp_percent. destruct (of_int_finite totalDiff Hz Hr) as (s & m & e & ->).
  change (of_int 100) with (S754_finite false 7036874417766400 (-46)).
  change (of_int 1) with (S754_finite false 4503599627370496 (-52)).
  apply fmul_num, fsub_num, fdiv_num, normalize_num.
Qed.

(** Nothing that the collector calls panics; its result satisfies [P]. *)
Definition yields {A} (P : A → Prop) (m : M HW A) : Prop :=
  ∀ w, wp m (λ o _, match o with Ret a => P a | Err _ => True | Panic => False end) w.

Lemma does_yields {A} (m : M HW A) : does (λ _, True) m → yields (λ _, True) m.
Proof. intros Hm w. eapply wp_mono; [apply Hm|]. intros [] ? (? & _); by auto. Qed.

Lemma bind_try {A B} (P : A → Prop) (m : M HW A) (k : option A → M HW B) Q w : yields P m →
  (∀ o w', (∀ a, o = Some a → P a) → wp (k o) Q w') → wp (try m ≫= k) Q w.
Proof.
  intros Hm Hk. unfold try. apply wp_bind, wp_bind. specialize (Hm w). unfold wp, attempt in *.
  destruct (m w) as [[a|e|] w']; [| |done]; apply Hk; naive_solver.
Qed.

Lemma bind_or_zero {B} (m : M HW Z) d (k : Z → M HW B) Q w : yields (λ _, True) m →
  (∀ z w', wp (k z) Q w') → wp (or_zero d m ≫= k) Q w.
Proof.
  intros Hm Hk. apply wp_bind. specialize (Hm w). unfold wp, or_zero in *.
  destruct (m w) as [[a|e|] w']; [| |done]; apply Hk.
Qed.

Lemma bind_now {B} (k : Z → M HW B) Q w : (∀ z w', wp (k z) Q w') → wp (time_Now ≫= k) Q w.
Proof. intros Hk. apply wp_bind_now. eauto. Qed.

Lemma yields_usage c : yields (λ '(u, _), percent u) (readCPUUsage c).
Proof.
  intros w. unfold readCPUUsage. apply wp_bind. eapply wp_mono; [apply does_yields|].
  { unfold ReadCPUStat, proc_file, read_file. does. }
  intros [[idle total]|e|] w' H; [|done|done]. apply bind_now. intros now w''.
  destruct (c_prevCPU c) as [[[pidle ptotal] ptime]|]; [|by apply wp_ret].
  destruct (flt _ _); [by apply wp_ret|]. apply wp_ret.
  destruct (Z.eqb_spec (sub64 total ptotal) 0); [done|]. apply usage_percent; [done|apply int64_range].
Qed.

(** The next reader of a round: one that is known not to panic. *)
Ltac reader := first
  [ apply bind_now
  | apply bind_or_zero; [apply does_yields; unfold ReadCPUCores, ReadUptime, proc_file, read_file; by does|]
  | apply (bind_try (λ _, True));
    [apply does_yields; unfold ReadLoadProcs, ReadMemoryInfo, ReadDiskStats, readDisk,
                               readNetwork, ReadNetwork, proc_file, read_file; by does|] ].

Lemma collect_disk {B} (d : option DiskInfo) now c
    (k : option DiskMetrics * Collector → M HW B) Q w :
  (∀ x w', wp (k x) Q w') →
  wp ((match d with
       | None => mret (None, c)
       | Some d =>
           io ← try ReadDiskStats;
           mret (match io with
                 | Some io => (Some (mkDiskMetrics d (io_ReadBytes io) (io_WriteBytes io)
                                       (io_ReadIOPS io) (io_WriteIOPS io)),
                               mkCollector (c_prevCPU c) (c_prevNet c) (Some (io, now)))
                 | None => (Some (mkDiskMetrics d 0 0 0 0), c)
                 end)
       end) ≫= k) Q w.
Proof.
  intros Hk. apply wp_bind. destruct d as [d|]; [|apply wp_ret, Hk].
  reader. intros io w' _. apply wp_ret, Hk.
Qed.

(** The load that was read has three numbers. *)
Lemma yields_load : yields (λ l, length l = 3%nat) ReadLoadAvg.
Proof.
  intros w. unfold ReadLoadAvg. apply wp_bind. eapply wp_mono; [apply does_yields; unfold proc_file, read_file; by does|].
  intros [data|e|] w' H; [|done|done]. unfold wp, lift_outcome. simpl. pose proof (load_avg_ranged data) as Hs.
  destruct (load_avg data) eqn:E; [by eapply load_avg_three|done|done].
Qed.
Lemma load_three_ret load : (∀ l, load = Some l → length l = 3%nat) → ∃ x, load_three load = Ret x.
Proof.
  intros Hl. destruct load as [l|]; [|by eexists]. specialize (Hl l eq_refl).
  destruct l as [|a [|b [|c []]]]; try done. by exists (a, b, c).
Qed.

Lemma collect_system_ok (statfs : M HW (Z * Z * Z)) (c : Collector) (w : HW) :
  does (λ _, True) statfs →
  ∃ sm c' w', CollectSystem statfs c w = (Ret (sm, c'), w') ∧ percent (cpu_UsagePercent (sm_CPU sm)).
Proof.
  intros Hs.
  assert (wp (CollectSystem statfs c) (λ o _, ∃ sm c', o = Ret (sm, c') ∧ percent (cpu_UsagePercent (sm_CPU sm))) w)
    as (sm & c' & E & Hp).
  2:{ exists sm, c', (CollectSystem statfs c w).2. split; [|done]. rewrite <-E. by destruct (CollectSystem _ _ _). }
  unfold CollectSystem. reader. intros now w1. reader. intros cores w2.
  apply (bind_try _ _ _ _ _ (yields_usage c)). intros usage w3 Husage.
  apply (bind_try _ _ _ _ _ yields_load). intros load w4 Hload. destruct (load_three_ret load Hload) as [[[avg1 avg5] avg15] E3].
  apply wp_bind. rewrite E3. apply (wp_ret (avg1, avg5, avg15)).
  do 3 (reader; intros ? ? _). apply collect_disk. intros [disk c1] w8.
  reader. intros net w9 _. reader. intros uptime w10. apply wp_ret. eexists _, _. split; [done|].
  destruct usage as [[u c2]|]; [|done]. by apply (Husage _ eq_refl).
Qed.

(** C36: Collecting the metrics of a node always gives them, whatever can or
    cannot be read from [/proc], whatever its texts hold (lines with too few
    fields included: no access by index is out of range) and however the counters
    of a previous round compare, wrapped around or not; and the processor usage it
    reports is a number between 0 and 100, never NaN (which [encoding/json] refuses
    to marshal).  [statfs] may fail but does not panic. *)
Theorem metrics_always_collected (statfs : M HW (Z * Z * Z)) (c : Collector) (w : HW) :
  does (λ _, True) statfs →
  ∃ sm c' w', CollectSystem statfs c w = (Ret (sm, c'), w') ∧ percent (cpu_UsagePercent (sm_CPU sm)).
Proof. apply collect_system_ok. Qed.

(** A round after one in which the idle counter went backwards. *)
Definition stat_world (t : Z) (stat : string) : HW :=
  mkHW {["/proc/stat" := stat]} ∅ t [] [] [] [] [] (λ _ _, true).

Lemma metrics_witness : ∃ sm c' w',
  CollectSystem (mret (1000, 500, 4096)) (mkCollector (Some (900, 1000, 0)) ∅ None)
    (stat_world 5000 "cpu  100 0 100 300 0") = (Ret (sm, c'), w') ∧ percent (cpu_UsagePercent (sm_CPU sm)).
Proof. apply metrics_always_collected, does_ret. Defined.
