(* ===== verification/Http.v ===== *)
(** HTTP as the programs use it: requests, responses, [internal/jsonutil],
    [internal/middleware], [internal/health], and the key check of the WebSocket
    streams ([internal/ws]).

    A handler is a computation that ends in a response; what a handler passes to
    [WriteJSON] is kept as a value.  Matching a path against the patterns of a
    route table is done by the router (chi), which is a parameter.

    Theorems: a request without a valid key has no effect and is refused; the two
    key checks agree but for one way of presenting the key; preflight requests
    are refused where the key check comes before CORS. *)
From stdpp Require Import base gmap strings list numbers.
From S2P Require Import Prelude.
From S2P Require Import GoStd.
From S2P Require Import GoJson.
From stdpp Require Import options.

(** * Messages *)
Record Request := mkRequest {
  rq_Method : string;
  rq_Path : string;
  rq_Header : list (string * string);
  rq_Query : list (string * string);
  rq_Body : string;
}.

(** [Header.Get] and [Query().Get]: the first value of a name, or "". *)
Fixpoint first_value (l : list (string * string)) (k : string) : string :=
  match l with
  | [] => ""
  | (k', v) :: l' => if String.eqb k' k then v else first_value l' k
  end.
Definition header (r : Request) (k : string) : string := first_value (rq_Header r) k.
Definition query (r : Request) (k : string) : string := first_value (rq_Query r) k.

(** [Header.Set] replaces the values of a name. *)
Definition set_header (k v : string) (h : list (string * string)) : list (string * string) :=
  filter (λ kv, kv.1 ≠ k) h ++ [(k, v)].

(** What is written: a value passed to the JSON encoder, an error message (as
    [{"error": msg}] or as plain text), a fixed text, or nothing. *)
Inductive Body (V : Type) :=
| BJson (v : V)
| BError (msg : string)
| BText (s : string)
| BEmpty.
Arguments BJson {V} v.
Arguments BError {V} msg.
Arguments BText {V} s.
Arguments BEmpty {V}.

Record Response (V : Type) := mkResponse {
  rs_Status : Z;
  rs_Header : list (string * string);
  rs_Body : Body V;
}.
Arguments mkResponse {V} rs_Status rs_Header rs_Body.
Arguments rs_Status {V} r.
Arguments rs_Header {V} r.
Arguments rs_Body {V} r.

Definition StatusOK : Z := 200.
Definition StatusCreated : Z := 201.
Definition StatusAccepted : Z := 202.
Definition StatusNoContent : Z := 204.
Definition StatusBadRequest : Z := 400.
Definition StatusUnauthorized : Z := 401.
Definition StatusNotFound : Z := 404.
Definition StatusTooManyRequests : Z := 429.
Definition StatusInternalServerError : Z := 500.
Definition StatusServiceUnavailable : Z := 503.

Definition json_header : list (string * string) := [("Content-Type", "application/json")].

Definition WriteJSON {V} (status : Z) (v : V) : Response V := mkResponse status json_header (BJson v).
Definition WriteError {V} (status : Z) (msg : string) : Response V := mkResponse status json_header (BError msg).
(** [w.WriteHeader(status)] alone. *)
Definition WriteHeader {V} (status : Z) : Response V := mkResponse status [] BEmpty.
(** [http.Error] *)
Definition http_Error {V} (msg : string) (status : Z) : Response V :=
  mkResponse status [("Content-Type", "text/plain; charset=utf-8")] (BText msg).

Definition Handler (W V : Type) : Type := Request → M W (Response V).

(** * The router

    A table of methods, patterns and endpoints.  A pattern matches a path
    segment by segment, where [{id}] stands for any segment. *)
Definition table (E : Type) : Type := list (string * string * E).

Definition slash : Ascii.ascii := Ascii.ascii_of_N 47.
Definition segments (p : string) : list string := Strings.SplitByte p slash.

(** The segments that [{id}] stands for, when the pattern matches. *)
Fixpoint match_segments (pattern path : list string) : option (list string) :=
  match pattern, path with
  | [], [] => Some []
  | p :: ps, x :: xs =>
      if String.eqb p "{id}" then cons x <$> match_segments ps xs
      else if String.eqb p x then match_segments ps xs else None
  | _, _ => None
  end.
Definition matches (pattern path : string) : option (list string) :=
  match_segments (segments pattern) (segments path).
(** [chi.URLParam(r, "id")] *)
Definition names (pattern path id : string) : Prop :=
  ∃ params, matches pattern path = Some params ∧ id = hd "" params.

(** The router finds the endpoint of a request and the value of [{id}], or
    answers by itself (404 or 405).  What it finds is in the table, under the
    method of the request and with a pattern that matches its path; it answers by
    itself only when no pattern under the method matches (with a segment that is
    not empty for [{id}]). *)
Class Router := route : ∀ {E : Type}, table E → string → string → (E * string) + Z.
Class RouterLaws `{Router} := {
  route_in : ∀ {E} (t : table E) method path e id,
    route t method path = inl (e, id) → ∃ pattern, (method, pattern, e) ∈ t ∧ names pattern path id;
  route_none : ∀ {E} (t : table E) method path st,
    route t method path = inr st → (st = 404%Z ∨ st = 405%Z) ∧
    ∀ pattern e params, (method, pattern, e) ∈ t → matches pattern path = Some params → "" ∈ params;
}.

(** Two patterns that no path with a segment for [{id}] matches: they differ in
    length, or somewhere in text. *)
Definition clash (p q : string) : bool :=
  negb (String.eqb p "{id}") && (if String.eqb q "{id}" then String.eqb p "" else negb (String.eqb p q)).
Fixpoint apart (ps qs : list string) : bool :=
  match ps, qs with
  | [], [] => false
  | p :: ps', q :: qs' => clash p q || apart ps' qs'
  | _, _ => true
  end.

Lemma apart_no_match ps qs path params : apart ps qs = true → match_segments qs path = Some params → "" ∉ params →
  match_segments ps path = None.
Proof.
  revert qs path params. induction ps as [|p ps IH]; intros [|q qs] [|x path] params; simpl; try done.
  unfold clash. destruct (String.eqb_spec q "{id}") as [->|Hq].
  - destruct (match_segments qs path) as [params'|] eqn:E; [|done]. intros Ha [= <-] [Hx Hn]%not_elem_of_cons.
    destruct (String.eqb_spec p "{id}"), (String.eqb_spec p ""), (String.eqb_spec p x); simpl in Ha; try congruence;
      by rewrite (IH _ _ _ Ha E Hn).
  - destruct (String.eqb_spec q x) as [->|]; [|done]. intros Ha E Hn.
    destruct (String.eqb_spec p "{id}"), (String.eqb_spec p x); simpl in Ha; try done;
      by rewrite (IH _ _ _ Ha E Hn).
Qed.

(** The patterns of the method are apart from this one. *)
Definition alone {E} `{EqDecision E} (t : table E) (method pattern : string) (e : E) : bool :=
  forallb (λ '(m, p, e'), negb (String.eqb m method) || (String.eqb p pattern && bool_decide (e' = e))
                          || apart (segments p) (segments pattern)) t.

Lemma route_to `{RouterLaws} {E} `{EqDecision E} (t : table E) method pattern e path params :
  alone t method pattern e = true → (method, pattern, e) ∈ t → matches pattern path = Some params → "" ∉ params →
  route t method path = inl (e, hd "" params).
Proof.
  intros Ha Hin Hm Hne. destruct (route t method path) as [[e' i]|st] eqn:Er.
  - apply route_in in Er as (p & Hp & params' & Hm' & ->). unfold alone in Ha. rewrite forallb_forall in Ha.
    specialize (Ha _ (proj1 (list_elem_of_In _ _) Hp)). simpl in Ha. rewrite String.eqb_refl in Ha. simpl in Ha.
    apply orb_prop in Ha as [[->%String.eqb_eq ->%bool_decide_eq_true]%andb_prop|Ha].
    + rewrite Hm in Hm'. by injection Hm' as <-.
    + unfold matches in *. by rewrite (apart_no_match _ _ _ _ Ha Hm Hne) in Hm'.
  - apply route_none in Er as [_ Hnone]. by destruct (Hne (Hnone _ _ _ Hin Hm)).
Qed.

(** [r.Route(prefix, ...)]: the paths under [prefix]; a sub-router's "/" is both
    the prefix and the prefix with a slash. *)
Definition Route {E} (prefix : string) (t : table E) : table E :=
  t ≫= λ '(m, p, e), if String.eqb p "/" then [(m, prefix, e); (m, prefix +:+ "/", e)] else [(m, prefix +:+ p, e)].

(** [r.Handle]: a path under every method. *)
Definition all_methods : list string :=
  ["GET"; "HEAD"; "POST"; "PUT"; "PATCH"; "DELETE"; "OPTIONS"; "CONNECT"; "TRACE"].
Definition Handle {E} (pattern : string) (e : E) : table E := (λ m, (m, pattern, e)) <$> all_methods.

Definition serve_table `{Router} {W V E} (t : table E) (run : E → string → Handler W V) : Handler W V := λ r,
  match route t (rq_Method r) (rq_Path r) with
  | inl (e, id) => run e id r
  | inr st => mret (http_Error "" st)
  end.

(** * Decoding a body: [json.NewDecoder(r.Body).Decode(&req)] *)
Definition decode_body {A} (fs : fields A) (zero : A) (r : Request) : option A :=
  v ← Decode (rq_Body r); into_struct fs v zero.

(** The body or an answer of 400. *)
Definition with_body {W V A} (fs : fields A) (zero : A) (r : Request) (k : A → M W (Response V)) : M W (Response V) :=
  match decode_body fs zero r with
  | None => mret (WriteError StatusBadRequest "invalid request body")
  | Some req => k req
  end.

(** [x, err := m; if err != nil { WriteError(status, err.Error()); return }] *)
Definition answer {W V A} (m : M W A) (status : Z) (k : A → Response V) : M W (Response V) :=
  r ← attempt m;
  mret (match r with inl a => k a | inr e => WriteError status e end).

(** * Middleware *)
Definition MethodOptions : string := "OPTIONS".

Definition cors_headers : list (string * string) := [
  ("Access-Control-Allow-Origin", "*");
  ("Access-Control-Allow-Methods", "GET, POST, PUT, PATCH, DELETE, OPTIONS");
  ("Access-Control-Allow-Headers", "Accept, Content-Type, X-API-Key, X-Request-ID, Upgrade, Connection, Sec-WebSocket-Key, Sec-WebSocket-Version, Sec-WebSocket-Protocol");
  ("Access-Control-Allow-Credentials", "true");
  ("Access-Control-Max-Age", "86400")
].
Definition add_headers {V} (h : list (string * string)) (r : Response V) : Response V :=
  mkResponse (rs_Status r) (h ++ rs_Header r) (rs_Body r).

Definition CORS {W V} (next : Handler W V) : Handler W V := λ r,
  if String.eqb (rq_Method r) MethodOptions then mret (mkResponse StatusNoContent cors_headers BEmpty)
  else resp ← next r; mret (add_headers cors_headers resp).

(** The limiter ([golang.org/x/time/rate]) is a parameter. *)
Definition RateLimit {W V} (Allow : M W bool) (next : Handler W V) : Handler W V := λ r,
  ok ← Allow;
  if (ok : bool) then next r else mret (http_Error "rate limit exceeded" StatusTooManyRequests).

Definition set_content_type (r : Request) : Request :=
  mkRequest (rq_Method r) (rq_Path r) (set_header "Content-Type" "application/json" (rq_Header r))
    (rq_Query r) (rq_Body r).
Definition ContentType {W V} (next : Handler W V) : Handler W V := λ r,
  let writes := String.eqb (rq_Method r) "POST" || String.eqb (rq_Method r) "PUT"
                || String.eqb (rq_Method r) "PATCH" in
  next (if writes && String.eqb (header r "Content-Type") "" then set_content_type r else r).

Definition comma : Ascii.ascii := Ascii.ascii_of_N 44.
Definition splitAndTrim (s : string) : list string :=
  filter (λ t, t ≠ "") (Strings.TrimSpace <$> Strings.SplitByte s comma).

Definition ExtractAPIKey (r : Request) : string :=
  if negb (String.eqb (header r "X-API-Key") "") then header r "X-API-Key"
  else if negb (String.eqb (query r "api_key") "") then query r "api_key"
  else if negb (String.eqb (query r "token") "") then query r "token"
  else if negb (String.eqb (query r "key") "") then query r "key"
  else "".

(** [len(p) > 7 && p[:7] == "Bearer " && p[7:] == validKey] *)
Definition bearer (p validKey : string) : bool :=
  bool_decide (7 < String.length p)%nat && Strings.HasPrefix p "Bearer "
  && String.eqb (Strings.TrimPrefix p "Bearer ") validKey.

(** The loop over the offered subprotocols. *)
Fixpoint protocol_key (ps : list string) (validKey : string) : string :=
  match ps with
  | [] => ""
  | p :: ps' =>
      if String.eqb p validKey then p
      else if bearer p validKey then validKey
      else protocol_key ps' validKey
  end.

Definition provided_key (r : Request) (validKey : string) : string :=
  let provided := ExtractAPIKey r in
  if negb (String.eqb provided "") then provided
  else
    let proto := header r "Sec-WebSocket-Protocol" in
    if negb (String.eqb proto "") then protocol_key (splitAndTrim proto) validKey else "".

Definition health_path (path : string) : bool :=
  String.eqb path "/health" || String.eqb path "/health/live" || String.eqb path "/health/ready".

Definition json_error {V} (status : Z) (msg : string) : Response V := WriteError status msg.

(** [validKey] is what [RYMEVISOR_API_KEY] holds. *)
Definition RequireAPIKey {W V} (validKey : string) (next : Handler W V) : Handler W V := λ r,
  if health_path (rq_Path r) then next r
  else if String.eqb validKey "" then
    mret (json_error StatusInternalServerError "API key not configured on server")
  else if negb (String.eqb (provided_key r validKey) validKey) then
    mret (json_error StatusUnauthorized "invalid or missing API key")
  else next r.

(** ** The streams' own check ([internal/ws/ws.go]) *)
Fixpoint offers (ps : list string) (validKey : string) : string :=
  match ps with
  | [] => ""
  | p :: ps' => if String.eqb (Strings.TrimSpace p) validKey then Strings.TrimSpace p else offers ps' validKey
  end.

Definition Auth (validKey : string) (r : Request) : bool :=
  if String.eqb validKey "" then false
  else
    let provided := ExtractAPIKey r in
    let provided :=
      if negb (String.eqb provided "") then provided
      else
        let proto := header r "Sec-WebSocket-Protocol" in
        if negb (String.eqb proto "") then offers (Strings.SplitByte proto comma) validKey else "" in
    if String.eqb provided "" then false else String.eqb provided validKey.

Definition authResponseHeader (validKey : string) (r : Request) : list (string * string) :=
  let protocol := header r "Sec-WebSocket-Protocol" in
  if negb (String.eqb protocol "") && negb (String.eqb validKey "") && Strings.Contains protocol validKey
  then [("Sec-WebSocket-Protocol", validKey)] else [].

(** * Health *)
Inductive Status := StatusUp | StatusDown.
#[global] Instance Status_eq_dec : EqDecision Status.
Proof. solve_decision. Defined.
Record Check := mkCheck { ck_Status : Status; ck_Checks : option (gmap string Status) }.

Definition Liveness {W} : Handler W Check := λ _, mret (WriteJSON StatusOK (mkCheck StatusUp None)).

(** The checks in the order a range over the map visits them. *)
Definition readiness_step {W} (acc : gmap string Status * Status) (c : string * M W ()) : M W (gmap string Status * Status) :=
  err ← attempt c.2;
  mret (match err with
        | inr _ => (<[c.1 := StatusDown]> acc.1, StatusDown)
        | inl _ => (<[c.1 := StatusUp]> acc.1, acc.2)
        end).
Definition Readiness {W} (checks : list (string * M W ())) : Handler W Check := λ _,
  '(m, overall) ← foldM readiness_step (∅, StatusUp) checks;
  mret (WriteJSON (match overall with StatusDown => StatusServiceUnavailable | StatusUp => StatusOK end)
          (mkCheck overall (Some m))).

Definition check_value {W V} (f : Check → V) (m : M W (Response Check)) : M W (Response V) :=
  resp ← m;
  mret (mkResponse (rs_Status resp) (rs_Header resp)
          (match rs_Body resp with
           | BJson c => BJson (f c) | BError e => BError e | BText t => BText t | BEmpty => BEmpty
           end)).

(** * Parts of handlers *)

(** [n, _ := strconv.Atoi(q.Get(k))] *)
Definition query_int (r : Request) (k : string) : Z := (Strconv.ParseInt (query r k)).1.
Definition query_true (r : Request) (k : string) : bool := String.eqb (query r k) "true".

(** A value that may be nil: 404 if it is. *)
Definition found {V A} (missing : string) (f : A → V) (o : option A) : Response V :=
  match o with
  | None => WriteError StatusNotFound missing
  | Some a => WriteJSON StatusOK (f a)
  end.

Definition page {V A} (f : list A → Z → V) (lt : list A * Z) : Response V := WriteJSON StatusOK (f lt.1 lt.2).
Definition whole {V A} (f : list A → Z → V) (l : list A) : Response V :=
  WriteJSON StatusOK (f l (Z.of_nat (length l))).
Definition created {V A} (f : A → V) (a : A) : Response V := WriteJSON StatusCreated (f a).
Definition ok {V A} (f : A → V) (a : A) : Response V := WriteJSON StatusOK (f a).
Definition done {V} (status : Z) (_ : ()) : Response V := WriteHeader status.

(** [strconv.ParseBool], as [force, _ := ...] uses it. *)
Definition ParseBool (s : string) : bool := bool_decide (s ∈ ["1"; "t"; "T"; "TRUE"; "true"; "True"]).

(** * The key check *)

(** The ways of presenting a key: a header, one of three query parameters, or a
    WebSocket subprotocol, as it is or after "Bearer ".  A later way counts only
    when the earlier ones are absent. *)
Inductive presents (r : Request) (k : string) : Prop :=
| by_field : ExtractAPIKey r = k → presents r k
| by_protocol : ExtractAPIKey r = "" → k ∈ splitAndTrim (header r "Sec-WebSocket-Protocol") → presents r k
| by_bearer : ExtractAPIKey r = "" →
    (∃ p, p ∈ splitAndTrim (header r "Sec-WebSocket-Protocol") ∧ bearer p k = true) → presents r k.

Lemma protocol_key_spec ps k : k ≠ "" →
  protocol_key ps k = k ↔ k ∈ ps ∨ ∃ p, p ∈ ps ∧ bearer p k = true.
Proof.
  intros Hk. induction ps as [|p ps IH]; simpl.
  - split; [congruence|]. intros [[]%not_elem_of_nil|(p & []%not_elem_of_nil & _)].
  - destruct (String.eqb_spec p k) as [->|Hp]; [split; [by left; left|done]|].
    destruct (bearer p k) eqn:Eb.
    { split; [|done]. intros _. right. exists p. by split; [left|]. }
    rewrite IH. split.
    + intros [H|(p' & Hp' & Hb)]; [left; by right|right; exists p'; by split; [right|]].
    + intros [H|(p' & Hp' & Hb)].
      * apply elem_of_cons in H as [->|H]; [done|by left].
      * apply elem_of_cons in Hp' as [->|Hp']; [congruence|right; eauto].
Qed.

Lemma provided_key_spec r k : k ≠ "" → provided_key r k = k ↔ presents r k.
Proof.
  intros Hk. unfold provided_key. destruct (String.eqb_spec (ExtractAPIKey r) "") as [E|E]; simpl.
  - destruct (String.eqb_spec (header r "Sec-WebSocket-Protocol") "") as [Ep|Ep]; simpl.
    + split; [congruence|]. destruct 1 as [H|_ H|_ (p & H & _)]; [congruence|..]; rewrite Ep in H;
        apply not_elem_of_nil in H; done.
    + rewrite protocol_key_spec by done. split.
      * intros [H|H]; [by apply by_protocol|by apply by_bearer].
      * destruct 1 as [H|_ H|_ H]; [congruence|by left|by right].
  - split; [by apply by_field|]. destruct 1; congruence.
Qed.

(** What the check does with a request, in terms of [presents]. *)
Lemma require_key_spec {W V} (k : string) (next : Handler W V) r w :
  health_path (rq_Path r) = false →
  (k ≠ "" ∧ presents r k ∧ RequireAPIKey k next r w = next r w) ∨
  (k ≠ "" ∧ ¬ presents r k ∧ RequireAPIKey k next r w = (Ret (json_error 401 "invalid or missing API key"), w)) ∨
  (k = "" ∧ RequireAPIKey k next r w = (Ret (json_error 500 "API key not configured on server"), w)).
Proof.
  intros Hp. unfold RequireAPIKey. rewrite Hp. destruct (String.eqb_spec k "") as [->|Hk]; [by right; right|].
  pose proof (provided_key_spec r k Hk) as Hs.
  destruct (String.eqb_spec (provided_key r k) k) as [E|E]; simpl.
  - left. split_and!; [done|by apply Hs|done].
  - right; left. split_and!; [done| |done]. intros H. by apply E, Hs.
Qed.

Lemma offers_spec ps k : k ≠ "" → offers ps k = k ↔ k ∈ Strings.TrimSpace <$> ps.
Proof.
  intros Hk. induction ps as [|p ps IH]; csimpl.
  - split; [congruence|]. intros []%not_elem_of_nil.
  - destruct (String.eqb_spec (Strings.TrimSpace p) k) as [->|Hp]; [split; [by left|done]|].
    rewrite IH, elem_of_cons. split; [by right|intros [->|?]; done].
Qed.

Lemma offers_or ps k : offers ps k = k ∨ offers ps k = "".
Proof.
  induction ps as [|p ps IH]; simpl; [by right|]. destruct (String.eqb_spec (Strings.TrimSpace p) k); [by left|done].
Qed.

Lemma elem_of_splitAndTrim k s : k ≠ "" →
  k ∈ splitAndTrim s ↔ k ∈ Strings.TrimSpace <$> Strings.SplitByte s comma.
Proof. intros Hk. unfold splitAndTrim. rewrite list_elem_of_filter. naive_solver. Qed.

(** The two key checks agree.  The check of the WebSocket streams accepts a
    request exactly when a key is configured and the request presents it, in any
    of the ways the middleware accepts, except as "Bearer <key>" in a
    subprotocol: such a request passes the middleware and is then refused by the
    stream. *)
Theorem stream_auth_agrees (k : string) (r : Request) :
  (Auth k r = true ↔
     k ≠ "" ∧ (ExtractAPIKey r = k ∨
               (ExtractAPIKey r = "" ∧ k ∈ splitAndTrim (header r "Sec-WebSocket-Protocol")))) ∧
  (Auth k r = true → ∀ (W V : Type) (next : Handler W V) w, RequireAPIKey k next r w = next r w) ∧
  (k ≠ "" → presents r k → Auth k r = false →
     ExtractAPIKey r = "" ∧ ∃ p, p ∈ splitAndTrim (header r "Sec-WebSocket-Protocol") ∧ bearer p k = true).
Proof.
  assert (H1 : Auth k r = true ↔
     k ≠ "" ∧ (ExtractAPIKey r = k ∨
               (ExtractAPIKey r = "" ∧ k ∈ splitAndTrim (header r "Sec-WebSocket-Protocol")))).
  { unfold Auth. destruct (String.eqb_spec k "") as [->|Hk]; [naive_solver|].
    rewrite elem_of_splitAndTrim, <-offers_spec by done.
    destruct (String.eqb_spec (ExtractAPIKey r) "") as [E|E]; simpl.
    - destruct (String.eqb_spec (header r "Sec-WebSocket-Protocol") "") as [Ep|Ep]; simpl.
      + rewrite Ep. split; [done|]. intros [_ [H|[_ H]]]; [congruence|].
        cbn [Strings.SplitByte offers] in H. change (Strings.TrimSpace "") with "" in H.
        destruct (String.eqb_spec "" k); congruence.
      + destruct (offers_or (Strings.SplitByte (header r "Sec-WebSocket-Protocol") comma) k) as [Eo|Eo]; rewrite Eo.
        * rewrite (proj2 (String.eqb_neq k "")), String.eqb_refl by done. naive_solver.
        * split; [done|]. intros [_ [H|[_ H]]]; congruence.
    - rewrite (proj2 (String.eqb_neq (ExtractAPIKey r) "") E).
      destruct (String.eqb_spec (ExtractAPIKey r) k) as [E'|E'];
        (split; [try done; by auto|intros [_ [H|[H _]]]; congruence]). }
  split_and!; [done| |].
  - intros (Hk & Hp)%H1 W V next w. assert (presents r k) as Hpr.
    { destruct Hp as [?|[? ?]]; [by apply by_field|by apply by_protocol]. }
    apply provided_key_spec in Hpr; [|done]. unfold RequireAPIKey.
    destruct (health_path _); [done|]. rewrite (proj2 (String.eqb_neq k "")) by done. by rewrite Hpr, String.eqb_refl.
  - intros Hk Hp Ha. assert (¬ Auth k r = true) as Hn by congruence. rewrite H1 in Hn.
    destruct Hp as [?|? ?|? ?]; [|..]; naive_solver.
Qed.

(** A key offered as a bearer token. *)
Definition bearer_request : Request :=
  mkRequest "GET" "/api/v1/ws/logs" [("Sec-WebSocket-Protocol", "chat, Bearer secret")] [] "".

Lemma stream_auth_witness :
  presents bearer_request "secret" ∧ Auth "secret" bearer_request = false ∧
  ExtractAPIKey bearer_request = "" ∧
  ∃ p, p ∈ splitAndTrim (header bearer_request "Sec-WebSocket-Protocol") ∧ bearer p "secret" = true.
Proof.
  assert (Hp : presents bearer_request "secret") by (apply (provided_key_spec _ "secret"); [done|vm_compute; reflexivity]).
  split; [exact Hp|]. split; [vm_compute; reflexivity|].
  apply (proj2 (proj2 (stream_auth_agrees "secret" bearer_request))); [done|exact Hp|vm_compute; reflexivity].
Defined.

(** * Preflight requests *)

(** With CORS outside of the key check a preflight request is answered; the other
    way round it is refused, since browsers send no key with it. *)
Lemma preflight_cors_outside {W V} k (next : Handler W V) r w : rq_Method r = MethodOptions →
  CORS (RequireAPIKey k next) r w = (Ret (mkResponse StatusNoContent cors_headers BEmpty), w).
Proof. intros E. unfold CORS. by rewrite E. Qed.

(** The servers of the network and of the storage service: the key check comes
    first. *)
Definition key_first `{Router} {W V E} (validKey : string) (t : table E) (run : E → string → Handler W V) : Handler W V :=
  RequireAPIKey validKey (CORS (serve_table t run)).

Lemma preflight_key_first `{Router} {W V E} k (t : table E) (run : E → string → Handler W V) r w :
  rq_Method r = MethodOptions → health_path (rq_Path r) = false → k ≠ "" → ¬ presents r k →
  key_first k t run r w = (Ret (json_error 401 "invalid or missing API key"), w).
Proof.
  intros _ Hh Hk Hp. unfold key_first.
  destruct (require_key_spec k (CORS (serve_table t run)) r w Hh) as [(? & ? & _)|[(_ & _ & E')|(? & _)]]; done.
Qed.

(** * Invariants

    [keeps_inv I h]: from a world with [I] the handler answers, and leaves a
    world with [I]. *)
Section invariants.
Context {W : Type} (I : W → Prop).

Definition keeps_op {A} (m : M W A) : Prop := ∀ w, I w → wp m (λ o w', o ≠ Panic ∧ I w') w.
Definition keeps_inv {V} (h : Handler W V) : Prop :=
  ∀ r w, I w → ∃ resp, (h r w).1 = Ret resp ∧ I (h r w).2.

Lemma check_world {V} (f : Check → V) (m : M W (Response Check)) w : (check_value f m w).2 = (m w).2.
Proof using Type. unfold check_value, mbind, M_bind. by destruct (m w) as [[] ?]. Qed.

Lemma answers_op {V A} (m : M W A) st (k : A → Response V) w : keeps_op m → I w →
  ∃ resp, (answer m st k w).1 = Ret resp ∧ I (answer m st k w).2.
Proof using Type.
  intros Hm Hw. destruct (Hm w Hw) as [Hp Hi]. unfold answer, attempt, mbind, M_bind.
  destruct (m w) as [[a|e|] w']; simpl in *; eauto; done.
Qed.

Lemma answers_body {V A} (fs : fields A) zero r (k : A → M W (Response V)) w : I w →
  (∀ a, ∃ resp, (k a w).1 = Ret resp ∧ I (k a w).2) →
  ∃ resp, (with_body fs zero r k w).1 = Ret resp ∧ I (with_body fs zero r k w).2.
Proof using Type. intros Hw Hk. unfold with_body. destruct (decode_body fs zero r); [apply Hk|]. simpl. eauto. Qed.

Lemma step_ok acc (c : string * M W ()) w : keeps_op c.2 → I w →
  ∃ acc' w', readiness_step acc c w = (Ret acc', w') ∧ I w'.
Proof using Type.
  intros Hc Hw. destruct (Hc w Hw) as [Hp Hi]. unfold readiness_step, attempt, mbind, M_bind.
  destruct (c.2 w) as [[a|e|] w']; simpl in *; eauto; done.
Qed.

Lemma answers_check {V} (f : Check → V) (checks : list (string * M W ())) r w :
  (∀ c, c ∈ checks → keeps_op c.2) → I w →
  ∃ resp, (check_value f (Readiness checks r) w).1 = Ret resp ∧ I (check_value f (Readiness checks r) w).2.
Proof using Type.
  intros Hc Hw.
  assert (Hf : ∀ acc w, I w → ∃ a, (foldM readiness_step acc checks w).1 = Ret a ∧ I (foldM readiness_step acc checks w).2).
  { clear w Hw. induction checks as [|c cs IH]; intros acc w Hw; [by exists acc|].
    destruct (step_ok acc c w (Hc c ltac:(by left)) Hw) as (acc' & w' & E & Hi). cbn [foldM].
    unfold mbind, M_bind. rewrite E. apply IH; [|done]. intros c' Hc'. apply Hc. by right. }
  destruct (Hf (∅, StatusUp) w Hw) as ([m overall] & E & Hi). unfold check_value, Readiness, mbind, M_bind in *.
  destruct (foldM readiness_step _ _ w) as [[a|e|] w']; simpl in *; [|done|done]. injection E as ->. simpl. eauto.
Qed.

Lemma serve_table_inv `{Router} {V E} (t : table E) (run : E → string → Handler W V) :
  (∀ e id, keeps_inv (run e id)) → keeps_inv (serve_table t run).
Proof using Type.
  intros Hr r w Hw. unfold serve_table. destruct (route t _ _) as [[e id]|st]; [by apply Hr|]. simpl. eauto.
Qed.
Lemma CORS_inv {V} (h : Handler W V) : keeps_inv h → keeps_inv (CORS h).
Proof using Type.
  intros Hh r w Hw. unfold CORS. destruct (String.eqb _ _); [simpl; eauto|].
  destruct (Hh r w Hw) as (resp & E & Hi). unfold mbind, M_bind. destruct (h r w) as [[]]; simpl in *; [eauto|done|done].
Qed.
Lemma RequireAPIKey_inv {V} k (h : Handler W V) : keeps_inv h → keeps_inv (RequireAPIKey k h).
Proof using Type.
  intros Hh r w Hw. unfold RequireAPIKey. destruct (health_path _); [by apply Hh|].
  destruct (String.eqb k ""); [simpl; eauto|]. destruct (negb _); [simpl; eauto|by apply Hh].
Qed.

(** Requests one after the other, with their answers. *)
Fixpoint serve_all {V} (h : Handler W V) (rs : list Request) (w : W) : list (outcome (Response V)) * W :=
  match rs with
  | [] => ([], w)
  | r :: rs' => let '(o, w1) := h r w in let '(os, w2) := serve_all h rs' w1 in (o :: os, w2)
  end.
Lemma serve_all_inv {V} (h : Handler W V) rs w : keeps_inv h → I w →
  I (serve_all h rs w).2 ∧ Forall (λ o, ∃ resp, o = Ret resp) (serve_all h rs w).1.
Proof using Type.
  intros Hh. revert w. induction rs as [|r rs IH]; intros w Hw; simpl; [done|].
  destruct (Hh r w Hw) as (resp & E & Hi). destruct (h r w) as [o w1]. simpl in *.
  destruct (IH w1 Hi) as [? ?]. destruct (serve_all h rs w1). simpl in *. split; [done|]. constructor; eauto.
Qed.
End invariants.
