(* ===== verification/Requests.v ===== *)
(** The bodies of the control plane's requests: the JSON names of the fields of
    the request structs ([services/controlplane/domain], and the anonymous
    structs of [handler.go]). *)
From stdpp Require Import base gmap strings list numbers.
From S2P Require Import Prelude.
From S2P Require Import GoStd.
From S2P Require Import GoJson.
From S2P Require Import Domain.
From stdpp Require Import options.

(** A slice and a map whose nil-ness matters. *)
Definition into_tags : decoder (option (list string)) := λ v old,
  match v with
  | JNull => Some None
  | _ => l ← into_slice into_string "" v (default [] old); Some (Some l)
  end.
Definition into_labels : decoder (option (gmap string string)) := λ v old,
  match v with
  | JNull => Some None
  | _ => m ← into_map v (default ∅ old); Some (Some m)
  end.

Definition disk_req_zero : CreateDiskRequest := mkDiskReq "" 0 "" "" "" "".
Definition nic_req_zero : CreateNetworkInterfaceRequest := mkNICReq "" false.
Definition create_vm_zero : CreateVMRequest :=
  mkCreateVM "" "" "" "" 0 0 "" "" false false false "" "" "" [] [] None None None.
Definition update_vm_zero : UpdateVMRequest := mkUpdateVM "" None None None.
Definition resources_zero : NodeResources := mkResources 0 0 0 0 0 0 0 0.
Definition register_zero : RegisterNodeRequest := mkRegister "" "" 0 None resources_zero.

(** * The structs of the domain *)
Definition CreateDiskRequest_fields : fields CreateDiskRequest := [
  ("name", field dr_Name (λ x d, mkDiskReq x (dr_SizeBytes d) (dr_Type d) (dr_StoragePool d) (dr_ImageID d)
     (dr_Image d)) into_string);
  ("size_bytes", field dr_SizeBytes (λ x d, mkDiskReq (dr_Name d) x (dr_Type d) (dr_StoragePool d)
     (dr_ImageID d) (dr_Image d)) into_int64);
  ("type", field dr_Type (λ x d, mkDiskReq (dr_Name d) (dr_SizeBytes d) x (dr_StoragePool d) (dr_ImageID d)
     (dr_Image d)) into_string);
  ("storage_pool", field dr_StoragePool (λ x d, mkDiskReq (dr_Name d) (dr_SizeBytes d) (dr_Type d) x
     (dr_ImageID d) (dr_Image d)) into_string);
  ("image_id", field dr_ImageID (λ x d, mkDiskReq (dr_Name d) (dr_SizeBytes d) (dr_Type d) (dr_StoragePool d)
     x (dr_Image d)) into_string);
  ("image", field dr_Image (λ x d, mkDiskReq (dr_Name d) (dr_SizeBytes d) (dr_Type d) (dr_StoragePool d)
     (dr_ImageID d) x) into_string)
].

Definition CreateNetworkInterfaceRequest_fields : fields CreateNetworkInterfaceRequest := [
  ("network_id", field nr_NetworkID (λ x n, mkNICReq x (nr_IsPrimary n)) into_string);
  ("is_primary", field nr_IsPrimary (λ x n, mkNICReq (nr_NetworkID n) x) into_bool)
].

Definition CreateVMRequest_fields : fields CreateVMRequest := [
  ("name", field cr_Name (λ x r, mkCreateVM x (cr_NodeID r) (cr_FlavorID r) (cr_Flavor r) (cr_VCpus r)
     (cr_MemoryMB r) (cr_CPUModel r) (cr_MachineType r) (cr_EnableSecureBoot r) (cr_EnableTPM r)
     (cr_Hugepages r) (cr_CloudInit r) (cr_KeypairID r) (cr_Keypair r) (cr_Disks r) (cr_NetworkInterfaces r)
     (cr_Tags r) (cr_Metadata r) (cr_Labels r)) into_string);
  ("node_id", field cr_NodeID (λ x r, mkCreateVM (cr_Name r) x (cr_FlavorID r) (cr_Flavor r) (cr_VCpus r)
     (cr_MemoryMB r) (cr_CPUModel r) (cr_MachineType r) (cr_EnableSecureBoot r) (cr_EnableTPM r)
     (cr_Hugepages r) (cr_CloudInit r) (cr_KeypairID r) (cr_Keypair r) (cr_Disks r) (cr_NetworkInterfaces r)
     (cr_Tags r) (cr_Metadata r) (cr_Labels r)) into_string);
  ("flavor_id", field cr_FlavorID (λ x r, mkCreateVM (cr_Name r) (cr_NodeID r) x (cr_Flavor r) (cr_VCpus r)
     (cr_MemoryMB r) (cr_CPUModel r) (cr_MachineType r) (cr_EnableSecureBoot r) (cr_EnableTPM r)
     (cr_Hugepages r) (cr_CloudInit r) (cr_KeypairID r) (cr_Keypair r) (cr_Disks r) (cr_NetworkInterfaces r)
     (cr_Tags r) (cr_Metadata r) (cr_Labels r)) into_string);
  ("flavor", field cr_Flavor (λ x r, mkCreateVM (cr_Name r) (cr_NodeID r) (cr_FlavorID r) x (cr_VCpus r)
     (cr_MemoryMB r) (cr_CPUModel r) (cr_MachineType r) (cr_EnableSecureBoot r) (cr_EnableTPM r)
     (cr_Hugepages r) (cr_CloudInit r) (cr_KeypairID r) (cr_Keypair r) (cr_Disks r) (cr_NetworkInterfaces r)
     (cr_Tags r) (cr_Metadata r) (cr_Labels r)) into_string);
  ("vcpus", field cr_VCpus (λ x r, mkCreateVM (cr_Name r) (cr_NodeID r) (cr_FlavorID r) (cr_Flavor r) x
     (cr_MemoryMB r) (cr_CPUModel r) (cr_MachineType r) (cr_EnableSecureBoot r) (cr_EnableTPM r)
     (cr_Hugepages r) (cr_CloudInit r) (cr_KeypairID r) (cr_Keypair r) (cr_Disks r) (cr_NetworkInterfaces r)
     (cr_Tags r) (cr_Metadata r) (cr_Labels r)) into_int32);
  ("memory_mb", field cr_MemoryMB (λ x r, mkCreateVM (cr_Name r) (cr_NodeID r) (cr_FlavorID r) (cr_Flavor r)
     (cr_VCpus r) x (cr_CPUModel r) (cr_MachineType r) (cr_EnableSecureBoot r) (cr_EnableTPM r) (cr_Hugepages
     r) (cr_CloudInit r) (cr_KeypairID r) (cr_Keypair r) (cr_Disks r) (cr_NetworkInterfaces r) (cr_Tags r)
     (cr_Metadata r) (cr_Labels r)) into_int64);
  ("cpu_model", field cr_CPUModel (λ x r, mkCreateVM (cr_Name r) (cr_NodeID r) (cr_FlavorID r) (cr_Flavor r)
     (cr_VCpus r) (cr_MemoryMB r) x (cr_MachineType r) (cr_EnableSecureBoot r) (cr_EnableTPM r) (cr_Hugepages
     r) (cr_CloudInit r) (cr_KeypairID r) (cr_Keypair r) (cr_Disks r) (cr_NetworkInterfaces r) (cr_Tags r)
     (cr_Metadata r) (cr_Labels r)) into_string);
  ("machine_type", field cr_MachineType (λ x r, mkCreateVM (cr_Name r) (cr_NodeID r) (cr_FlavorID r)
     (cr_Flavor r) (cr_VCpus r) (cr_MemoryMB r) (cr_CPUModel r) x (cr_EnableSecureBoot r) (cr_EnableTPM r)
     (cr_Hugepages r) (cr_CloudInit r) (cr_KeypairID r) (cr_Keypair r) (cr_Disks r) (cr_NetworkInterfaces r)
     (cr_Tags r) (cr_Metadata r) (cr_Labels r)) into_string);
  ("enable_secure_boot", field cr_EnableSecureBoot (λ x r, mkCreateVM (cr_Name r) (cr_NodeID r) (cr_FlavorID
     r) (cr_Flavor r) (cr_VCpus r) (cr_MemoryMB r) (cr_CPUModel r) (cr_MachineType r) x (cr_EnableTPM r)
     (cr_Hugepages r) (cr_CloudInit r) (cr_KeypairID r) (cr_Keypair r) (cr_Disks r) (cr_NetworkInterfaces r)
     (cr_Tags r) (cr_Metadata r) (cr_Labels r)) into_bool);
  ("enable_tpm", field cr_EnableTPM (λ x r, mkCreateVM (cr_Name r) (cr_NodeID r) (cr_FlavorID r) (cr_Flavor
     r) (cr_VCpus r) (cr_MemoryMB r) (cr_CPUModel r) (cr_MachineType r) (cr_EnableSecureBoot r) x
     (cr_Hugepages r) (cr_CloudInit r) (cr_KeypairID r) (cr_Keypair r) (cr_Disks r) (cr_NetworkInterfaces r)
     (cr_Tags r) (cr_Metadata r) (cr_Labels r)) into_bool);
  ("hugepages", field cr_Hugepages (λ x r, mkCreateVM (cr_Name r) (cr_NodeID r) (cr_FlavorID r) (cr_Flavor r)
     (cr_VCpus r) (cr_MemoryMB r) (cr_CPUModel r) (cr_MachineType r) (cr_EnableSecureBoot r) (cr_EnableTPM r)
     x (cr_CloudInit r) (cr_KeypairID r) (cr_Keypair r) (cr_Disks r) (cr_NetworkInterfaces r) (cr_Tags r)
     (cr_Metadata r) (cr_Labels r)) into_bool);
  ("cloud_init", field cr_CloudInit (λ x r, mkCreateVM (cr_Name r) (cr_NodeID r) (cr_FlavorID r) (cr_Flavor
     r) (cr_VCpus r) (cr_MemoryMB r) (cr_CPUModel r) (cr_MachineType r) (cr_EnableSecureBoot r) (cr_EnableTPM
     r) (cr_Hugepages r) x (cr_KeypairID r) (cr_Keypair r) (cr_Disks r) (cr_NetworkInterfaces r) (cr_Tags r)
     (cr_Metadata r) (cr_Labels r)) into_string);
  ("keypair_id", field cr_KeypairID (λ x r, mkCreateVM (cr_Name r) (cr_NodeID r) (cr_FlavorID r) (cr_Flavor
     r) (cr_VCpus r) (cr_MemoryMB r) (cr_CPUModel r) (cr_MachineType r) (cr_EnableSecureBoot r) (cr_EnableTPM
     r) (cr_Hugepages r) (cr_CloudInit r) x (cr_Keypair r) (cr_Disks r) (cr_NetworkInterfaces r) (cr_Tags r)
     (cr_Metadata r) (cr_Labels r)) into_string);
  ("keypair", field cr_Keypair (λ x r, mkCreateVM (cr_Name r) (cr_NodeID r) (cr_FlavorID r) (cr_Flavor r)
     (cr_VCpus r) (cr_MemoryMB r) (cr_CPUModel r) (cr_MachineType r) (cr_EnableSecureBoot r) (cr_EnableTPM r)
     (cr_Hugepages r) (cr_CloudInit r) (cr_KeypairID r) x (cr_Disks r) (cr_NetworkInterfaces r) (cr_Tags r)
     (cr_Metadata r) (cr_Labels r)) into_string);
  ("disks", field cr_Disks (λ x r, mkCreateVM (cr_Name r) (cr_NodeID r) (cr_FlavorID r) (cr_Flavor r)
     (cr_VCpus r) (cr_MemoryMB r) (cr_CPUModel r) (cr_MachineType r) (cr_EnableSecureBoot r) (cr_EnableTPM r)
     (cr_Hugepages r) (cr_CloudInit r) (cr_KeypairID r) (cr_Keypair r) x (cr_NetworkInterfaces r) (cr_Tags r)
     (cr_Metadata r) (cr_Labels r)) (into_slice (into_struct CreateDiskRequest_fields) disk_req_zero));
  ("network_interfaces", field cr_NetworkInterfaces (λ x r, mkCreateVM (cr_Name r) (cr_NodeID r) (cr_FlavorID
     r) (cr_Flavor r) (cr_VCpus r) (cr_MemoryMB r) (cr_CPUModel r) (cr_MachineType r) (cr_EnableSecureBoot r)
     (cr_EnableTPM r) (cr_Hugepages r) (cr_CloudInit r) (cr_KeypairID r) (cr_Keypair r) (cr_Disks r) x
     (cr_Tags r) (cr_Metadata r) (cr_Labels r)) (into_slice (into_struct
     CreateNetworkInterfaceRequest_fields) nic_req_zero));
  ("tags", field cr_Tags (λ x r, mkCreateVM (cr_Name r) (cr_NodeID r) (cr_FlavorID r) (cr_Flavor r) (cr_VCpus
     r) (cr_MemoryMB r) (cr_CPUModel r) (cr_MachineType r) (cr_EnableSecureBoot r) (cr_EnableTPM r)
     (cr_Hugepages r) (cr_CloudInit r) (cr_KeypairID r) (cr_Keypair r) (cr_Disks r) (cr_NetworkInterfaces r)
     x (cr_Metadata r) (cr_Labels r)) into_tags);
  ("metadata", field cr_Metadata (λ x r, mkCreateVM (cr_Name r) (cr_NodeID r) (cr_FlavorID r) (cr_Flavor r)
     (cr_VCpus r) (cr_MemoryMB r) (cr_CPUModel r) (cr_MachineType r) (cr_EnableSecureBoot r) (cr_EnableTPM r)
     (cr_Hugepages r) (cr_CloudInit r) (cr_KeypairID r) (cr_Keypair r) (cr_Disks r) (cr_NetworkInterfaces r)
     (cr_Tags r) x (cr_Labels r)) into_labels);
  ("labels", field cr_Labels (λ x r, mkCreateVM (cr_Name r) (cr_NodeID r) (cr_FlavorID r) (cr_Flavor r)
     (cr_VCpus r) (cr_MemoryMB r) (cr_CPUModel r) (cr_MachineType r) (cr_EnableSecureBoot r) (cr_EnableTPM r)
     (cr_Hugepages r) (cr_CloudInit r) (cr_KeypairID r) (cr_Keypair r) (cr_Disks r) (cr_NetworkInterfaces r)
     (cr_Tags r) (cr_Metadata r) x) into_labels)
].

Definition UpdateVMRequest_fields : fields UpdateVMRequest := [
  ("name", field ur_Name (λ x r, mkUpdateVM x (ur_Metadata r) (ur_Labels r) (ur_Tags r)) into_string);
  ("metadata", field ur_Metadata (λ x r, mkUpdateVM (ur_Name r) x (ur_Labels r) (ur_Tags r)) into_labels);
  ("labels", field ur_Labels (λ x r, mkUpdateVM (ur_Name r) (ur_Metadata r) x (ur_Tags r)) into_labels);
  ("tags", field ur_Tags (λ x r, mkUpdateVM (ur_Name r) (ur_Metadata r) (ur_Labels r) x) into_tags)
].

Definition NodeResources_fields : fields NodeResources := [
  ("total_cpus", field res_TotalCPUs (λ x r, mkResources x (res_UsedCPUs r) (res_TotalMemoryMB r)
     (res_UsedMemoryMB r) (res_TotalStorageBytes r) (res_UsedStorageBytes r) (res_TotalGPUs r) (res_UsedGPUs
     r)) into_int32);
  ("used_cpus", field res_UsedCPUs (λ x r, mkResources (res_TotalCPUs r) x (res_TotalMemoryMB r)
     (res_UsedMemoryMB r) (res_TotalStorageBytes r) (res_UsedStorageBytes r) (res_TotalGPUs r) (res_UsedGPUs
     r)) into_int32);
  ("total_memory_mb", field res_TotalMemoryMB (λ x r, mkResources (res_TotalCPUs r) (res_UsedCPUs r) x
     (res_UsedMemoryMB r) (res_TotalStorageBytes r) (res_UsedStorageBytes r) (res_TotalGPUs r) (res_UsedGPUs
     r)) into_int64);
  ("used_memory_mb", field res_UsedMemoryMB (λ x r, mkResources (res_TotalCPUs r) (res_UsedCPUs r)
     (res_TotalMemoryMB r) x (res_TotalStorageBytes r) (res_UsedStorageBytes r) (res_TotalGPUs r)
     (res_UsedGPUs r)) into_int64);
  ("total_storage_bytes", field res_TotalStorageBytes (λ x r, mkResources (res_TotalCPUs r) (res_UsedCPUs r)
     (res_TotalMemoryMB r) (res_UsedMemoryMB r) x (res_UsedStorageBytes r) (res_TotalGPUs r) (res_UsedGPUs
     r)) into_int64);
  ("used_storage_bytes", field res_UsedStorageBytes (λ x r, mkResources (res_TotalCPUs r) (res_UsedCPUs r)
     (res_TotalMemoryMB r) (res_UsedMemoryMB r) (res_TotalStorageBytes r) x (res_TotalGPUs r) (res_UsedGPUs
     r)) into_int64);
  ("total_gpus", field res_TotalGPUs (λ x r, mkResources (res_TotalCPUs r) (res_UsedCPUs r)
     (res_TotalMemoryMB r) (res_UsedMemoryMB r) (res_TotalStorageBytes r) (res_UsedStorageBytes r) x
     (res_UsedGPUs r)) into_int32);
  ("used_gpus", field res_UsedGPUs (λ x r, mkResources (res_TotalCPUs r) (res_UsedCPUs r) (res_TotalMemoryMB
     r) (res_UsedMemoryMB r) (res_TotalStorageBytes r) (res_UsedStorageBytes r) (res_TotalGPUs r) x)
     into_int32)
].

Definition RegisterNodeRequest_fields : fields RegisterNodeRequest := [
  ("name", field rr_Name (λ x r, mkRegister x (rr_Address r) (rr_Port r) (rr_Labels r) (rr_Resources r))
     into_string);
  ("address", field rr_Address (λ x r, mkRegister (rr_Name r) x (rr_Port r) (rr_Labels r) (rr_Resources r))
     into_string);
  ("port", field rr_Port (λ x r, mkRegister (rr_Name r) (rr_Address r) x (rr_Labels r) (rr_Resources r))
     into_int32);
  ("labels", field rr_Labels (λ x r, mkRegister (rr_Name r) (rr_Address r) (rr_Port r) x (rr_Resources r))
     into_labels);
  ("resources", field rr_Resources (λ x r, mkRegister (rr_Name r) (rr_Address r) (rr_Port r) (rr_Labels r) x)
     (into_struct NodeResources_fields))
].

Definition ImportImageRequest_fields : fields ImportImageRequest := [
  ("url", field ir_URL (λ x r, mkImport x (ir_Name r) (ir_OS r) (ir_OSVersion r) (ir_Architecture r))
     into_string);
  ("name", field ir_Name (λ x r, mkImport (ir_URL r) x (ir_OS r) (ir_OSVersion r) (ir_Architecture r))
     into_string);
  ("os", field ir_OS (λ x r, mkImport (ir_URL r) (ir_Name r) x (ir_OSVersion r) (ir_Architecture r))
     into_string);
  ("os_version", field ir_OSVersion (λ x r, mkImport (ir_URL r) (ir_Name r) (ir_OS r) x (ir_Architecture r))
     into_string);
  ("architecture", field ir_Architecture (λ x r, mkImport (ir_URL r) (ir_Name r) (ir_OS r) (ir_OSVersion r)
     x) into_string)
].

Definition CreateFlavorRequest_fields : fields CreateFlavorRequest := [
  ("name", field fr_Name (λ x r, mkCreateFlavor x (fr_Description r) (fr_VCpus r) (fr_MemoryMB r) (fr_DiskGB
     r)) into_string);
  ("description", field fr_Description (λ x r, mkCreateFlavor (fr_Name r) x (fr_VCpus r) (fr_MemoryMB r)
     (fr_DiskGB r)) into_string);
  ("vcpus", field fr_VCpus (λ x r, mkCreateFlavor (fr_Name r) (fr_Description r) x (fr_MemoryMB r) (fr_DiskGB
     r)) into_int32);
  ("memory_mb", field fr_MemoryMB (λ x r, mkCreateFlavor (fr_Name r) (fr_Description r) (fr_VCpus r) x
     (fr_DiskGB r)) into_int64);
  ("disk_gb", field fr_DiskGB (λ x r, mkCreateFlavor (fr_Name r) (fr_Description r) (fr_VCpus r) (fr_MemoryMB
     r) x) into_int64)
].

Definition CreateKeypairRequest_fields : fields CreateKeypairRequest := [
  ("name", field kr_Name (λ x r, mkCreateKeypair x (kr_PublicKey r) (kr_OrganizationID r)) into_string);
  ("public_key", field kr_PublicKey (λ x r, mkCreateKeypair (kr_Name r) x (kr_OrganizationID r)) into_string);
  ("organization_id", field kr_OrganizationID (λ x r, mkCreateKeypair (kr_Name r) (kr_PublicKey r) x)
     into_string)
].

Record PullImageRequest := mkPull { pr_OS : string; pr_OSVersion : string; pr_Architecture : string; pr_Name : string }.
Definition PullImageRequest_fields : fields PullImageRequest := [
  ("os", field pr_OS (λ x r, mkPull x (pr_OSVersion r) (pr_Architecture r) (pr_Name r)) into_string);
  ("os_version", field pr_OSVersion (λ x r, mkPull (pr_OS r) x (pr_Architecture r) (pr_Name r)) into_string);
  ("architecture", field pr_Architecture (λ x r, mkPull (pr_OS r) (pr_OSVersion r) x (pr_Name r)) into_string);
  ("name", field pr_Name (λ x r, mkPull (pr_OS r) (pr_OSVersion r) (pr_Architecture r) x) into_string)
].

(** * The structs of the handlers: pairs and triples of their fields *)
Definition resize_fields : fields (Z * Z) := [
  ("vcpus", field fst (λ x r, (x, r.2)) into_int32);
  ("memory_mb", field snd (λ x r, (r.1, x)) into_int64)
].
Definition snapshot_fields : fields (string * string) := [
  ("name", field fst (λ x r, (x, r.2)) into_string);
  ("description", field snd (λ x r, (r.1, x)) into_string)
].
Definition clone_fields : fields (string * string * bool) := [
  ("name", field (λ r, r.1.1) (λ x r, (x, r.1.2, r.2)) into_string);
  ("node_id", field (λ r, r.1.2) (λ x r, (r.1.1, x, r.2)) into_string);
  ("linked", field snd (λ x r, (r.1, x)) into_bool)
].
Definition restore_fields : fields string := [("snapshot_id", field (λ r, r) (λ x _, x) into_string)].
Definition labels_fields : fields (option (gmap string string)) := [("labels", field (λ r, r) (λ x _, x) into_labels)].
Definition drain_fields : fields Z := [("timeout", field (λ r, r) (λ x _, x) into_int32)].
Definition vm_id_fields : fields string := [("vm_id", field (λ r, r) (λ x _, x) into_string)].

(** [CreateImage] and [CreateBackup] copy their fields into a zero value, whose
    status the service sets; so the request is decoded into that value. *)
Definition image_zero : Image := mkImage "" "" "" "" "" "" "" 0 ImageStatusDownloading "" "" None 0 0.
Definition backup_zero : Backup := mkBackup "" "" "" "" BackupStatusCreating 0 "" "" 0 None.
Definition CreateImage_fields : fields Image := [
  ("name", field img_Name (λ x i, mkImage (img_ID i) x (img_Description i) (img_OS i) (img_OSVersion i)
     (img_Architecture i) (img_Type i) (img_SizeBytes i) (img_Status i) (img_Checksum i) (img_SourceURL i)
     (img_Tags i) (img_CreatedAt i) (img_UpdatedAt i)) into_string);
  ("description", field img_Description (λ x i, mkImage (img_ID i) (img_Name i) x (img_OS i) (img_OSVersion
     i) (img_Architecture i) (img_Type i) (img_SizeBytes i) (img_Status i) (img_Checksum i) (img_SourceURL i)
     (img_Tags i) (img_CreatedAt i) (img_UpdatedAt i)) into_string);
  ("os", field img_OS (λ x i, mkImage (img_ID i) (img_Name i) (img_Description i) x (img_OSVersion i)
     (img_Architecture i) (img_Type i) (img_SizeBytes i) (img_Status i) (img_Checksum i) (img_SourceURL i)
     (img_Tags i) (img_CreatedAt i) (img_UpdatedAt i)) into_string);
  ("os_version", field img_OSVersion (λ x i, mkImage (img_ID i) (img_Name i) (img_Description i) (img_OS i) x
     (img_Architecture i) (img_Type i) (img_SizeBytes i) (img_Status i) (img_Checksum i) (img_SourceURL i)
     (img_Tags i) (img_CreatedAt i) (img_UpdatedAt i)) into_string);
  ("architecture", field img_Architecture (λ x i, mkImage (img_ID i) (img_Name i) (img_Description i) (img_OS
     i) (img_OSVersion i) x (img_Type i) (img_SizeBytes i) (img_Status i) (img_Checksum i) (img_SourceURL i)
     (img_Tags i) (img_CreatedAt i) (img_UpdatedAt i)) into_string);
  ("type", field img_Type (λ x i, mkImage (img_ID i) (img_Name i) (img_Description i) (img_OS i)
     (img_OSVersion i) (img_Architecture i) x (img_SizeBytes i) (img_Status i) (img_Checksum i)
     (img_SourceURL i) (img_Tags i) (img_CreatedAt i) (img_UpdatedAt i)) into_string);
  ("size_bytes", field img_SizeBytes (λ x i, mkImage (img_ID i) (img_Name i) (img_Description i) (img_OS i)
     (img_OSVersion i) (img_Architecture i) (img_Type i) x (img_Status i) (img_Checksum i) (img_SourceURL i)
     (img_Tags i) (img_CreatedAt i) (img_UpdatedAt i)) into_int64);
  ("checksum", field img_Checksum (λ x i, mkImage (img_ID i) (img_Name i) (img_Description i) (img_OS i)
     (img_OSVersion i) (img_Architecture i) (img_Type i) (img_SizeBytes i) (img_Status i) x (img_SourceURL i)
     (img_Tags i) (img_CreatedAt i) (img_UpdatedAt i)) into_string);
  ("tags", field img_Tags (λ x i, mkImage (img_ID i) (img_Name i) (img_Description i) (img_OS i)
     (img_OSVersion i) (img_Architecture i) (img_Type i) (img_SizeBytes i) (img_Status i) (img_Checksum i)
     (img_SourceURL i) x (img_CreatedAt i) (img_UpdatedAt i)) into_tags)
].

Definition CreateBackup_fields : fields Backup := [
  ("name", field bk_Name (λ x b, mkBackup (bk_ID b) x (bk_VMID b) (bk_OrganizationID b) (bk_Status b)
     (bk_SizeBytes b) (bk_Type b) (bk_StoragePool b) (bk_CreatedAt b) (bk_CompletedAt b)) into_string);
  ("vm_id", field bk_VMID (λ x b, mkBackup (bk_ID b) (bk_Name b) x (bk_OrganizationID b) (bk_Status b)
     (bk_SizeBytes b) (bk_Type b) (bk_StoragePool b) (bk_CreatedAt b) (bk_CompletedAt b)) into_string);
  ("type", field bk_Type (λ x b, mkBackup (bk_ID b) (bk_Name b) (bk_VMID b) (bk_OrganizationID b) (bk_Status
     b) (bk_SizeBytes b) x (bk_StoragePool b) (bk_CreatedAt b) (bk_CompletedAt b)) into_string);
  ("storage_pool", field bk_StoragePool (λ x b, mkBackup (bk_ID b) (bk_Name b) (bk_VMID b) (bk_OrganizationID
     b) (bk_Status b) (bk_SizeBytes b) (bk_Type b) x (bk_CreatedAt b) (bk_CompletedAt b)) into_string)
].
