(* ===== verification/Streams.v ===== *)
(** The WebSocket streams: [internal/ws/ws.go], [internal/ws/metrics.go] and
    [services/controlplane/handler/{ws,metrics_ws}.go].

    A stream runs over a connection that records what was written to it and may
    break after any number of writes, and over the files of the host.  Following
    a file is modelled over the results of the successive reads.

    Theorems: what a log stream sends of a file; which lines a client that
    follows a file gets; where the files that a stream may read are. *)
From stdpp Require Import base gmap strings list numbers.
From S2P Require Import Prelude.
From S2P Require Import GoStd.
From S2P Require Import GoJson.
From S2P Require Import Http.
From stdpp Require Import options.

(** * Files and the connection *)
Record Conn := mkConn {
  cn_files : gmap string string;
  cn_sent : list json;
  cn_budget : option nat;      (* the writes left before the connection breaks *)
}.

Definition conn_WriteJSON (v : json) : M Conn () := λ c,
  match cn_budget c with
  | Some O => (Err "websocket: close sent", c)
  | b => (Ret (), mkConn (cn_files c) (cn_sent c ++ [v]) (pred <$> b))
  end.

Definition msg (kvs : list (string * string)) : json := JObj ((λ '(k, v), (k, JStr v)) <$> kvs).

(** [filepath.Base] *)
Definition Base (p : string) : string :=
  match filter (λ e, e ≠ "") (Strings.SplitByte p slash) with
  | [] => if String.eqb p "" then "." else "/"
  | l => List.last l ""
  end.

(** * [bufio.Scanner] over lines, with a buffer of 1 MiB *)
Definition nl : Ascii.ascii := Ascii.ascii_of_N 10.
Definition cr : Ascii.ascii := Ascii.ascii_of_N 13.
Definition dropCR (s : string) : string :=
  match String.length s with
  | O => s
  | S n => if bool_decide (String.get n s = Some cr) then Strings.Take n s else s
  end.
Definition maxTokenSize : nat := Z.to_nat (1024 * 1024).

(** A line that does not fit ends the scan. *)
Fixpoint scan (raw : list string) : list string :=
  match raw with
  | [] => []
  | l :: raw' => if (Z.of_nat (String.length l) <? 1024 * 1024)%Z then dropCR l :: scan raw' else []
  end.
(** What follows the last newline is a line unless it is empty. *)
Definition raw_lines (data : string) : list string :=
  let l := Strings.SplitByte data nl in
  if String.eqb (List.last l "") "" then removelast l else l.
Definition scan_lines (data : string) : list string := scan (raw_lines data).

(** [fmt.Sscanf(s, "%d", &n)]: the number, if one was stored. *)
Definition Sscan_d (s : string) : option Z :=
  let s1 := Strings.trim_left (λ c, Strings.is_space c && negb (Ascii.eqb c nl)) s in
  let '(sign, body) :=
    match s1 with
    | String c s' => if Ascii.eqb c (Ascii.ascii_of_N 45) then ("-", s')
                     else if Ascii.eqb c (Ascii.ascii_of_N 43) then ("+", s') else ("", s1)
    | EmptyString => ("", "")
    end in
  let fix digits (t : string) : string :=
    match t with
    | String c t' => if Strconv.is_digit c then String c (digits t') else ""
    | EmptyString => ""
    end in
  Strconv.Atoi (sign +:+ digits body).

(** * Streaming a file *)
Definition lines_wanted (linesParam : string) : Z :=
  if String.eqb linesParam "" then 100%Z
  else
    let lines := default 100%Z (Sscan_d linesParam) in
    let lines := if (lines <? 0)%Z then 0%Z else lines in
    if (1000 <? lines)%Z then 1000%Z else lines.

Definition log_msg (path line : string) : json := msg [("type", "log"); ("service", Base path); ("line", line)].

Definition missing_msg (path : string) : json :=
  msg [("type", "info"); ("message", "log file not found: " +:+ path +:+ " (service may not have started yet)")].

(** [allLines[start:]] *)
Definition last_lines (lines : Z) (l : list string) : list string :=
  let start := if (lines <? Z.of_nat (length l))%Z then (Z.of_nat (length l) - lines)%Z else 0%Z in
  drop (Z.to_nat start) l.

Definition StreamFile (path linesParam : string) : M Conn () := λ c,
  match cn_files c !! path with
  | None => ignore (conn_WriteJSON (missing_msg path)) c
  | Some data => iterM (λ line, conn_WriteJSON (log_msg path line)) (last_lines (lines_wanted linesParam) (scan_lines data)) c
  end.

(** * Following a file

    A read of [reader.ReadString('\n')] gives a whole line, or what there is of
    one with an error (end of file); the request may be cancelled before it. *)
Inductive read_event := ReadLine (line : string) | ReadCut (part : string) | Cancelled.

Definition is_eol (c : Ascii.ascii) : bool := Ascii.eqb c nl || Ascii.eqb c cr.

Fixpoint TailFollow (path : string) (evs : list read_event) : M Conn () :=
  match evs with
  | [] | Cancelled :: _ => mret ()
  | ReadCut _ :: evs' => TailFollow path evs'
  | ReadLine line :: evs' =>
      r ← attempt (conn_WriteJSON (log_msg path (Strings.trim_right is_eol line)));
      match r with
      | inr _ => mret ()
      | inl _ => TailFollow path evs'
      end
  end.

(** * The files of a service *)
Definition baseCandidates : list string := ["/var/log/rymevisor"; "./.dev-logs"; "/tmp"; "./"].

Definition all_services : list string :=
  ["control-plane.log"; "api-gateway.log"; "scheduler.log"; "networking-engine.log"; "storage-manager.log"; "node-agent.log"].
Definition serviceMap : list (string * list string) := [
  ("control-plane", ["control-plane.log"]);
  ("api-gateway", ["api-gateway.log"]);
  ("scheduler", ["scheduler.log"]);
  ("networking-engine", ["networking-engine.log"; "networking.log"]);
  ("networking", ["networking-engine.log"]);
  ("storage-manager", ["storage-manager.log"; "storage.log"]);
  ("storage", ["storage-manager.log"]);
  ("node-agent", ["node-agent.log"]);
  ("all", all_services)
].
Definition service_files (service : string) : option (list string) :=
  snd <$> list_find (λ kv, kv.1 = service) serviceMap ≫= λ '(_, kv), Some kv.

Section files.
(** [os.Stat] succeeds. *)
Context (exists_ : string → bool).

Definition first_existing (paths : list string) : option string := List.find exists_ paths.
Definition candidates (name : string) : list string := (λ base, Filepath.Join [base; name]) <$> baseCandidates.

Definition vmPaths (vmID : string) : list string :=
  [Filepath.Join ["/var/lib/rymevisor/vms"; vmID; "qemu.log"];
   Filepath.Join ["/var/lib/rymevisor/vms"; vmID; "console.log"];
   Filepath.Join ["./.dev-logs"; vmID +:+ ".log"]].

(** The loop over the names: the first file that exists, or the default places. *)
Fixpoint named_paths (names : list string) (files : list string) : list string :=
  match names with
  | [] => take 1 files
  | n :: names' =>
      match first_existing (candidates n) with
      | Some p => [p]
      | None => named_paths names' (files ++ [Filepath.Join ["/var/log/rymevisor"; n]])
      end
  end.

Definition LogPathsForService (service : string) : list string :=
  if String.eqb service "all" then omap (λ f, first_existing (candidates f)) all_services
  else if Strings.HasPrefix service "vm-" then
    let paths := vmPaths (Strings.TrimPrefix service "vm-") in
    match first_existing paths with
    | Some p => [p]
    | None => take 1 paths
    end
  else named_paths (default [service +:+ ".log"] (service_files service)) [].
End files.

(** * The handlers *)

(** What is answered before the connection is upgraded, or the header of the
    upgrade. *)
Definition refuse (msg : string) (status : Z) : Response json := http_Error msg status.
Definition unauthorized : Response json :=
  refuse ("{" +:+ GoStd.Quote "error" +:+ ":" +:+ GoStd.Quote "invalid or missing API key" +:+ "}") StatusUnauthorized.
Definition vm_id_required : Response json :=
  refuse ("{" +:+ GoStd.Quote "error" +:+ ":" +:+ GoStd.Quote "vm_id required" +:+ "}") StatusBadRequest.

Definition open_stream (validKey : string) (r : Request) : Response json + list (string * string) :=
  if negb (Auth validKey r) then inl unauthorized else inr (authResponseHeader validKey r).

Definition logs_service (r : Request) (defaultService : string) : string :=
  let service := query r "service" in
  let service :=
    if String.eqb service "" then
      let vm := query r "vm_id" in if String.eqb vm "" then "" else "vm-" +:+ vm
    else service in
  if String.eqb service "" then (if String.eqb defaultService "" then "all" else defaultService) else service.

(** The loop over the files: the first one only, but for "all". *)
Fixpoint stream_paths (all : bool) (linesParam : string) (paths : list string) : M Conn () :=
  match paths with
  | [] => mret ()
  | p :: paths' =>
      r ← attempt (StreamFile p linesParam);
      _ ← match r with
          | inl _ => mret ()
          | inr e => ignore (conn_WriteJSON (msg [("type", "error"); ("message", e)]))
          end;
      if (all : bool) then stream_paths all linesParam paths' else mret ()
  end.

Definition conn_file_exists (c : Conn) (p : string) : bool := bool_decide (is_Some (cn_files c !! p)).

(** The stream of [HandleLogs] once the connection is upgraded; [evs] are the
    reads of the file that is followed. *)
Definition logs_stream (r : Request) (defaultService : string) (evs : list read_event) : M Conn () := λ c,
  let service := logs_service r defaultService in
  let paths := LogPathsForService (conn_file_exists c) service in
  (_ ← ignore (conn_WriteJSON (msg [("type", "connected"); ("service", service); ("message", "streaming logs for " +:+ service)]));
   _ ← stream_paths (String.eqb service "all") (query r "lines") paths;
   if String.eqb (query r "follow") "false" then mret ()
   else match paths with [] => mret () | p :: _ => TailFollow p evs end) c.

Definition HandleLogs (validKey : string) (r : Request) (defaultService : string) (evs : list read_event) :
  Response json + (list (string * string) * M Conn ()) :=
  match open_stream validKey r with
  | inl resp => inl resp
  | inr h => inr (h, logs_stream r defaultService evs)
  end.

(** [r.PathValue("id")] is the router's [{id}]. *)
Definition extractVMID (r : Request) (id : string) : string :=
  let vmID := query r "vm_id" in
  let vmID := if String.eqb vmID "" then query r "id" else vmID in
  if String.eqb vmID "" then id else vmID.

(** The messages of the client are echoed. *)
Fixpoint echo (msgs : list string) : M Conn () :=
  match msgs with
  | [] => mret ()
  | m :: msgs' => _ ← ignore (conn_WriteJSON (msg [("type", "echo"); ("line", m)])); echo msgs'
  end.

(** The goroutine that follows the first file meanwhile is [TailFollow]; its
    messages come in between the echoes. *)
Definition console_stream (vmID : string) (msgs : list string) : M Conn () := λ c,
  let paths := LogPathsForService (conn_file_exists c) ("vm-" +:+ vmID) in
  (_ ← ignore (conn_WriteJSON (msg [("type", "connected"); ("vm_id", vmID); ("message", "console connected (log streaming)")]));
   _ ← iterM (λ p, ignore (StreamFile p "50")) paths;
   echo msgs) c.

Definition HandleConsole (validKey : string) (r : Request) (id : string) (msgs : list string) :
  Response json + (list (string * string) * M Conn ()) :=
  if negb (Auth validKey r) then inl unauthorized
  else
    let vmID := extractVMID r id in
    if String.eqb vmID "" then inl vm_id_required
    else inr (authResponseHeader validKey r, console_stream vmID msgs).

(** * Opening a stream

    [Upgrader.Upgrade] of gorilla/websocket is a parameter: it takes the
    connection over, or replies to the client with an HTTP error.  How many ticks
    a stream lasts is up to its client. *)
Class Upgrader := {
  upgrade : Request → option Z;        (* the status of the error *)
  stream_length : Request → nat;
}.
Class UpgraderLaws `{Upgrader} := upgrade_status : ∀ r st, upgrade r = Some st → (400 ≤ st < 600)%Z.

Definition StatusSwitchingProtocols : Z := 101.

Fixpoint repeatM {W} (n : nat) (m : M W ()) : M W () :=
  match n with O => mret () | S n' => _ ← m; repeatM n' m end.

(** The answer to a request for a stream, which is over when its handler returns. *)
Definition stream_reply `{Upgrader} {W V A} (h : Response json + (list (string * string) * A)) (r : Request)
    (stream : A → M W ()) : M W (Response V) :=
  match h with
  | inl resp => mret (mkResponse (rs_Status resp) (rs_Header resp) (match rs_Body resp with BText t => BText t | _ => BEmpty end))
  | inr (header, a) =>
      match upgrade r with
      | Some st => mret (http_Error "" st)
      | None => _ ← stream a; mret (mkResponse StatusSwitchingProtocols header BEmpty)
      end
  end.

(** * What is sent *)

(** Writing messages one by one: those that fit before the connection breaks. *)
Definition budgeted (c : Conn) (n : nat) : nat := match cn_budget c with None => n | Some b => Nat.min b n end.
Definition sent_more (c : Conn) (l : list json) : Conn :=
  mkConn (cn_files c) (cn_sent c ++ l) ((λ b, b - length l) <$> cn_budget c).

Lemma write_ok c v : budgeted c 1 = 1 → conn_WriteJSON v c = (Ret (), sent_more c [v]).
Proof.
  destruct c as [fs sent [[|b]|]]; unfold budgeted, conn_WriteJSON, sent_more; simpl; [done| |done].
  intros _. by rewrite Nat.sub_0_r.
Qed.
Lemma write_broken c v : budgeted c 1 = 0 → ∃ e, conn_WriteJSON v c = (Err e, c).
Proof. destruct c as [fs sent [[|b]|]]; unfold budgeted; simpl; [eauto|done|done]. Qed.
Lemma budgeted_one c : budgeted c 1 = 1 ∨ budgeted c 1 = 0.
Proof. destruct c as [fs sent [[|b]|]]; unfold budgeted; simpl; lia. Qed.
Lemma sent_more_nil c : sent_more c [] = c.
Proof.
  destruct c as [fs sent [b|]]; unfold sent_more; simpl; rewrite app_nil_r; [by rewrite Nat.sub_0_r|done].
Qed.
Lemma sent_more_app c l l' : sent_more (sent_more c l) l' = sent_more c (l ++ l').
Proof.
  destruct c as [fs sent [b|]]; unfold sent_more; simpl; rewrite <-app_assoc, ?length_app; [|done].
  do 2 f_equal. lia.
Qed.

Lemma budgeted_ok c v n : budgeted c 1 = 1 → budgeted c (S n) = S (budgeted (sent_more c [v]) n).
Proof. destruct c as [fs sent [[|b]|]]; unfold budgeted, sent_more; simpl; [done|lia|done]. Qed.
Lemma budgeted_broken c n : budgeted c 1 = 0 → budgeted c n = 0.
Proof. destruct c as [fs sent [[|b]|]]; unfold budgeted; simpl; lia. Qed.

Lemma iterM_step {A} (f : A → M Conn ()) a l c :
  iterM f (a :: l) c = (_ ← f a; iterM f l) c.
Proof. unfold iterM. cbn [foldM]. unfold mbind, M_bind. by destruct (f a c) as [[[]| |] ?]. Qed.

Lemma iter_writes {A} (f : A → json) l c :
  (iterM (λ a, conn_WriteJSON (f a)) l c).2 = sent_more c (take (budgeted c (length l)) (f <$> l)) ∧
  ((iterM (λ a, conn_WriteJSON (f a)) l c).1 = Ret () ↔ budgeted c (length l) = length l).
Proof.
  revert c. induction l as [|a l IH]; intros c.
  { simpl. rewrite take_nil, sent_more_nil. split; [done|]. split; [|done]. intros _. by destruct c as [? ? [[]|]]. }
  rewrite iterM_step. cbn [length]. unfold mbind, M_bind. destruct (budgeted_one c) as [E|E].
  - rewrite write_ok by done. destruct (IH (sent_more c [f a])) as [H1 H2].
    rewrite H1, H2, (budgeted_ok c (f a)), sent_more_app by done. simpl. split; [done|lia].
  - destruct (write_broken c (f a) E) as [e ->]. simpl.
    rewrite (budgeted_broken c) by done. simpl. rewrite sent_more_nil. split; [done|]. split; [done|lia].
Qed.

Lemma lines_wanted_range p : (0 ≤ lines_wanted p ≤ 1000)%Z.
Proof.
  unfold lines_wanted. destruct (String.eqb p ""); [lia|]. cbv zeta. generalize (default 100%Z (Sscan_d p)). intros n.
  destruct (Z.ltb_spec n 0); simpl; [|destruct (Z.ltb_spec 1000 n)]; lia.
Qed.

Lemma last_lines_spec n l : (0 ≤ n)%Z →
  ∃ before, l = before ++ last_lines n l ∧ Z.of_nat (length (last_lines n l)) = Z.min n (Z.of_nat (length l)).
Proof.
  intros Hn. unfold last_lines. cbv zeta. match goal with |- context [Z.to_nat ?x] => set (start := x) end. exists (take (Z.to_nat start) l).
  split; [by rewrite take_drop|]. rewrite length_drop. unfold start.
  destruct (Z.ltb_spec n (Z.of_nat (length l))); lia.
Qed.

(** A log stream sends the end of a file: the last lines of it in order, as
    many as the request asks for (100 when it asks for none), never more than
    1000, and all of them when the file has fewer; a connection that breaks after
    [b] writes has got the first [b] of them, and the function reports it. *)
Theorem stream_file_sends_tail path p data c :
  cn_files c !! path = Some data →
  ∃ before kept, scan_lines data = before ++ kept ∧
    Z.of_nat (length kept) = Z.min (lines_wanted p) (Z.of_nat (length (scan_lines data))) ∧
    (length kept ≤ 1000)%nat ∧
    (StreamFile path p c).2 = sent_more c (take (budgeted c (length kept)) (log_msg path <$> kept)) ∧
    ((StreamFile path p c).1 = Ret () ↔ budgeted c (length kept) = length kept).
Proof.
  intros Hf. pose proof (lines_wanted_range p) as Hr.
  destruct (last_lines_spec (lines_wanted p) (scan_lines data)) as (before & Hl & Hn); [lia|].
  exists before, (last_lines (lines_wanted p) (scan_lines data)). split_and!; [done|done|lia|..];
    unfold StreamFile; rewrite Hf; apply iter_writes.
Qed.

(** The lines that were read in one piece, up to a cancellation. *)
Fixpoint whole_lines (evs : list read_event) : list string :=
  match evs with
  | [] | Cancelled :: _ => []
  | ReadCut _ :: evs' => whole_lines evs'
  | ReadLine l :: evs' => Strings.trim_right is_eol l :: whole_lines evs'
  end.

(** A client that follows a file gets exactly the lines the server read in
    one piece, in order, until the request is cancelled or the connection breaks.
    Of a line that was read in two pieces, because the end of the file was in the
    middle of it, the first piece is dropped: the client gets the rest of the
    line as if it were a line. *)
Theorem follow_sends_whole_reads path evs c :
  (TailFollow path evs c).1 = Ret () ∧
  (TailFollow path evs c).2 =
    sent_more c (take (budgeted c (length (whole_lines evs))) (log_msg path <$> whole_lines evs)).
Proof.
  revert c. induction evs as [|[l|p|] evs IH]; intros c; cbn [TailFollow whole_lines];
    try (simpl; rewrite take_nil, sent_more_nil; done); [|apply IH].
  cbn [length]. unfold mbind, M_bind, attempt. destruct (budgeted_one c) as [E|E].
  - rewrite write_ok by done. cbv zeta. destruct (IH (sent_more c [log_msg path (Strings.trim_right is_eol l)])) as [H1 H2].
    rewrite H1, H2, sent_more_app. split; [done|].
    by rewrite (budgeted_ok c (log_msg path (Strings.trim_right is_eol l))).
  - destruct (write_broken c (log_msg path (Strings.trim_right is_eol l)) E) as [e ->]. split; [done|].
    rewrite (budgeted_broken c) by done. simpl. by rewrite sent_more_nil.
Qed.

(** * Concrete streams *)
Definition three_lines : string := "one" +:+ String nl ("two" +:+ String cr (String nl "three")).
Definition conn2 : Conn := mkConn {[ "/tmp/x.log" := three_lines ]} [] (Some 1).

Lemma stream_file_witness :
  scan_lines three_lines = ["one"; "two"; "three"] ∧
  (StreamFile "/tmp/x.log" "2" conn2).2 = mkConn (cn_files conn2) [log_msg "/tmp/x.log" "two"] (Some 0) ∧
  ∃ before kept, scan_lines three_lines = before ++ kept ∧
    Z.of_nat (length kept) = Z.min (lines_wanted "2") (Z.of_nat (length (scan_lines three_lines))) ∧
    (length kept ≤ 1000)%nat ∧
    (StreamFile "/tmp/x.log" "2" conn2).2 =
      sent_more conn2 (take (budgeted conn2 (length kept)) (log_msg "/tmp/x.log" <$> kept)) ∧
    ((StreamFile "/tmp/x.log" "2" conn2).1 = Ret () ↔ budgeted conn2 (length kept) = length kept).
Proof.
  split; [vm_compute; reflexivity|]. split; [vm_compute; reflexivity|].
  apply (stream_file_sends_tail "/tmp/x.log" "2" three_lines conn2). reflexivity.
Defined.

(** A line written in two steps arrives without its first part. *)
Example line_in_two_reads :
  whole_lines [ReadLine ("ready" +:+ String nl ""); ReadCut "error: disk "; ReadCut ""; ReadLine ("full" +:+ String nl "")]
  = ["ready"; "full"].
Proof. reflexivity. Qed.

(** The name of a service in the request is part of the path: with enough ".."
    any file whose name ends in [.log] is streamed. *)
Example log_path_escapes :
  LogPathsForService (λ _, false) "../../../etc/secret" = ["/etc/secret.log"] ∧
  LogPathsForService (λ p, String.eqb p "/root/qemu.log") "vm-../../../../root" = ["/root/qemu.log"].
Proof. split; vm_compute; reflexivity. Qed.

(** The services of the program have their files in the four directories. *)
Example known_paths :
  LogPathsForService (λ _, false) "networking-engine" = ["/var/log/rymevisor/networking-engine.log"] ∧
  LogPathsForService (λ p, String.eqb p "/tmp/networking.log") "networking-engine" = ["/tmp/networking.log"] ∧
  LogPathsForService (λ p, String.eqb p ".dev-logs/scheduler.log") "all" = [".dev-logs/scheduler.log"] ∧
  LogPathsForService (λ _, false) "vm-7" = ["/var/lib/rymevisor/vms/7/qemu.log"].
Proof. split_and!; vm_compute; reflexivity. Qed.
