(* ===== verification/VMState.v ===== *)
(** The streams of a machine's state: [HandleVMStateWs] of the control plane
    ([services/controlplane/handler/vm_state_ws.go]) and [HandleVMState] of the
    gateway ([services/gateway/handler/vm_state_ws.go]).

    A stream makes one tick a second.  A tick is a function from what the server
    sees (the machine, its image, the files, or the control plane's answers) and
    the state of the stream to the messages sent and the next state.  The
    messages' timestamps are left out; errors of writes are ignored by the code.

    Theorems: the changes a stream reports form a chain that ends in the status
    last seen; the log of the machine is read without gaps or repetitions; the
    two streams show the same of the machine's status. *)
From stdpp Require Import base gmap strings list numbers pretty.
From S2P Require Import Prelude.
From S2P Require Import GoStd.
From S2P Require Import GoJson.
From S2P Require Import Domain.
From S2P Require Import Http.
From S2P Require Import Streams.
From stdpp Require Import options.

(** * Messages

    [change]: what a message of a new status has more than others (the previous
    status, the processors and the memory). *)
Inductive state_msg :=
| MConnected
| MError (text : string)
| MMissing
| MState (status : string) (change : option (string * json * json))
| MImage (imageID : string) (name status : json) (source : option (string * Z))
| MProgress (imageID : string) (bytes : Z) (complete : bool)
| MLog (source line : string)
| MHeartbeat (status : string).

(** * The control plane *)

(** [os.Stat] gives a size; opening and reading the file may fail all the same. *)
Record Seen := mkSeen {
  seen_vm : option VirtualMachine + string;       (* [h.svc.GetVM] *)
  seen_image : string → option Image;             (* [h.svc.GetImage], without error and not nil *)
  seen_stat : string → option Z;
  seen_open : string → option string;
}.
Record StreamState := mkStreamState { lastStatus : string; lastImageStatus : string; lastLogOffset : Z }.

Definition stream_start : StreamState := mkStreamState "" "" 0.

(** The message about the status. *)
Definition report (last status : string) (vcpus mem : json) : state_msg :=
  if String.eqb status last then MState status None else MState status (Some (last, vcpus, mem)).

Definition boot_image (disks : list Disk) : option string :=
  disk_ImageID <$> List.find (λ d, negb (String.eqb (disk_ImageID d) "")) disks.

Definition img_in_progress (st : ImageStatus) : bool :=
  match st with ImageStatusDownloading | ImageStatusProcessing => true | _ => false end.

Definition progress (stat : string → option Z) (imageID : string) : list state_msg :=
  let imagePath := Filepath.Join ["/var/lib/rymevisor/images"; imageID +:+ ".qcow2"] in
  match stat (imagePath +:+ ".tmp") with
  | Some n => [MProgress imageID n false]
  | None => match stat imagePath with Some n => [MProgress imageID n true] | None => [] end
  end.

Definition image_part (seen : Seen) (vm : VirtualMachine) (last : string) : list state_msg * string :=
  match boot_image (vm_Disks vm) with
  | None => ([], last)
  | Some imageID =>
      match seen_image seen imageID with
      | None => ([], last)
      | Some img =>
          let imgStatus := string_of_ImageStatus (img_Status img) in
          ((if String.eqb imgStatus last then []
            else [MImage imageID (JStr (img_Name img)) (JStr imgStatus) (Some (img_SourceURL img, img_SizeBytes img))])
           ++ (if img_in_progress (img_Status img) then progress (seen_stat seen) imageID else []),
           imgStatus)
      end
  end.

Definition logPaths (vmID : string) : list string :=
  [Filepath.Join ["/var/lib/rymevisor/vms"; vmID; "qemu.log"];
   Filepath.Join ["/var/lib/rymevisor/vms"; vmID; "console.log"];
   Filepath.Join ["./.dev-logs"; vmID +:+ ".log"];
   Filepath.Join ["/var/log/rymevisor"; vmID +:+ ".log"]].

(** [s[n:]] *)
Fixpoint Drop (n : nat) (s : string) : string :=
  match n, s with
  | O, _ => s
  | S n', String _ s' => Drop n' s'
  | S _, EmptyString => EmptyString
  end.

(** The first file that exists; what is read of it from the offset on, and the
    next offset. *)
Definition log_read (stat : string → option Z) (open : string → option string) (paths : list string) (offset : Z) :
  option (string * string) * Z :=
  match List.find (λ p, bool_decide (is_Some (stat p))) paths with
  | None => (None, offset)
  | Some lp =>
      match stat lp, open lp with
      | Some size, Some data =>
          if (offset <? size)%Z then
            (Some (lp, Strings.Take (Z.to_nat (size - offset)) (Drop (Z.to_nat offset) data)), size)
          else (None, offset)
      | _, _ => (None, offset)
      end
  end.

Definition log_lines (chunk : string) : list string :=
  if String.eqb chunk "" then []
  else filter (λ l, l ≠ "") (Strings.SplitByte (Strings.TrimSpace chunk) nl).

Definition log_part (seen : Seen) (vmID : string) (offset : Z) : list state_msg * Z :=
  let '(r, offset') := log_read (seen_stat seen) (seen_open seen) (logPaths vmID) offset in
  (match r with
   | None => []
   | Some (lp, chunk) => MLog (Base lp) <$> log_lines chunk
   end, offset').

Definition state_tick (vmID : string) (seen : Seen) (st : StreamState) : list state_msg * StreamState :=
  match seen_vm seen with
  | inr err => ([MError ("get vm failed: " +:+ err)], st)
  | inl None => ([MMissing], st)
  | inl (Some vm) =>
      let status := string_of_VMStatus (vm_Status vm) in
      let '(images, img') := image_part seen vm (lastImageStatus st) in
      let '(logs, offset') := log_part seen vmID (lastLogOffset st) in
      (report (lastStatus st) status (JNum (vm_VCpus vm)) (JNum (vm_MemoryMB vm)) ::
         images ++ logs ++ [MHeartbeat status],
       mkStreamState status img' offset')
  end.

(** The id of [HandleVMStateWs], and the stream up to the first tick. *)
Definition state_vm_id (r : Request) (id : string) : string :=
  let vmID := id in
  let vmID := if String.eqb vmID "" then query r "vm_id" else vmID in
  if String.eqb vmID "" then query r "id" else vmID.

Definition HandleVMStateWs (validKey : string) (r : Request) (id : string) :
  Response json + (list (string * string) * list state_msg * string) :=
  if negb (Auth validKey r) then inl unauthorized
  else
    let vmID := state_vm_id r id in
    if String.eqb vmID "" then inl vm_id_required
    else inr (authResponseHeader validKey r, [MConnected], vmID).

(** * The gateway *)

(** A member of an object, and a member that is a string. *)
Definition member (k : string) (kvs : list (string * json)) : json :=
  match List.find (λ kv, String.eqb kv.1 k) (rev kvs) with Some (_, v) => v | None => JNull end.
Definition as_string (v : json) : string := match v with JStr s => s | _ => "" end.

(** [json.Unmarshal] into a [map[string]interface{}]. *)
Definition into_object (body : string) : option (list (string * json)) :=
  match Unmarshal body with
  | Some (JObj kvs) => Some kvs
  | Some JNull => Some []
  | _ => None
  end.

(** A number becomes a [float64]: one of at most 53 bits is exact, another is
    written as [strconv] writes the nearest one, which is a parameter. *)
Class FloatText := float_text : Z → string.
Definition exact (n : Z) : bool := (Z.abs n <=? 2 ^ 53)%Z.
Definition any_number `{FloatText} (v : json) : json :=
  match v with JNum n => if exact n then v else JLit (float_text n) | _ => v end.

(** The answers of the control plane: of the machine (a status and a body, or an
    error), and of an image (a body, if there was no error). *)
Record Fetched := mkFetched {
  fe_vm : (Z * string) + string;
  fe_image : string → option string;
}.

Definition json_disk_image (d : json) : option string :=
  match d with
  | JObj kvs => match member "image_id" kvs with
                | JStr s => if String.eqb s "" then None else Some s
                | _ => None
                end
  | _ => None
  end.

Definition gw_image_part (f : Fetched) (vm : list (string * json)) : list state_msg :=
  match member "disks" vm with
  | JArr disks =>
      match omap json_disk_image disks with
      | [] => []
      | imageID :: _ =>
          match fe_image f imageID ≫= into_object with
          | None => []
          | Some img => [MImage imageID (member "name" img) (JStr (as_string (member "status" img))) None]
          end
      end
  | _ => []
  end.

Definition itoa (n : Z) : string := pretty n.

Definition gateway_tick `{FloatText} (f : Fetched) (last : string) : list state_msg * string :=
  match fe_vm f with
  | inr err => ([MError ("fetch vm failed: " +:+ err)], last)
  | inl (code, body) =>
      if (code =? 404)%Z then ([MMissing], last)
      else if negb (code =? 200)%Z then ([MError ("vm fetch status " +:+ itoa code)], last)
      else match into_object body with
           | None => ([], last)
           | Some vm =>
               let status := as_string (member "status" vm) in
               (report last status (any_number (member "vcpus" vm)) (any_number (member "memory_mb" vm)) ::
                  gw_image_part f vm ++ [MHeartbeat status], status)
           end
  end.

(** The id in the query, or after an element "vm" of the path. *)
Fixpoint after_vm (parts : list string) : string :=
  match parts with
  | p :: ((q :: _) as rest) => if String.eqb p "vm" then q else after_vm rest
  | _ => ""
  end.
Definition is_slash (c : Ascii.ascii) : bool := Ascii.eqb c slash.
Definition gateway_vm_id (r : Request) : string :=
  let vmID := query r "vm_id" in
  let vmID := if String.eqb vmID "" then query r "id" else vmID in
  if String.eqb vmID "" then
    after_vm (Strings.SplitByte (Strings.trim_right is_slash (Strings.trim_left is_slash (rq_Path r))) slash)
  else vmID.

Definition HandleVMState (validKey : string) (r : Request) :
  Response json + (list (string * string) * list state_msg * string) :=
  if negb (Auth validKey r) then inl unauthorized
  else
    let vmID := gateway_vm_id r in
    if String.eqb vmID "" then inl vm_id_required
    else inr (authResponseHeader validKey r, [MConnected], vmID).

(** * Changes of the status *)
Fixpoint ticks {I S} (tick : I → S → list state_msg * S) (ins : list I) (st : S) : list state_msg * S :=
  match ins with
  | [] => ([], st)
  | i :: ins' => let '(ms, st1) := tick i st in let '(ms', st2) := ticks tick ins' st1 in (ms ++ ms', st2)
  end.

(** A reported change: from a status, to a status, with the processors and the
    memory of the machine. *)
Definition change_of (m : state_msg) : option (string * string * json * json) :=
  match m with MState s (Some (p, c, k)) => Some (p, s, c, k) | _ => None end.
Definition changes : list state_msg → list (string * string * json * json) := omap change_of.

(** The transitions in a sequence of observations. *)
Fixpoint transitions (last : string) (obs : list (string * json * json)) : list (string * string * json * json) :=
  match obs with
  | [] => []
  | (s, c, k) :: obs' => if String.eqb s last then transitions last obs' else (last, s, c, k) :: transitions s obs'
  end.
Definition last_status (last : string) (obs : list (string * json * json)) : string :=
  List.last (last :: ((λ o, o.1.1) <$> obs)) "".

Lemma last_status_cons last o obs : last_status last (o :: obs) = last_status o.1.1 obs.
Proof. done. Qed.

(** What a tick observes. *)
Definition obs_vm (vm : VirtualMachine) : string * json * json :=
  (string_of_VMStatus (vm_Status vm), JNum (vm_VCpus vm), JNum (vm_MemoryMB vm)).
Definition observed (seen : Seen) : option (string * json * json) :=
  match seen_vm seen with inl (Some vm) => Some (obs_vm vm) | _ => None end.
Definition gw_observed `{FloatText} (f : Fetched) : option (string * json * json) :=
  match fe_vm f with
  | inl (code, body) =>
      if (code =? 200)%Z
      then (λ vm, (as_string (member "status" vm), any_number (member "vcpus" vm), any_number (member "memory_mb" vm)))
             <$> into_object body
      else None
  | inr _ => None
  end.

(** Any tick that reports what it observes. *)
Definition reports {I S} (tick : I → S → list state_msg * S) (obs : I → option (string * json * json))
  (last : S → string) : Prop :=
  ∀ i st, match obs i with
          | None => changes (tick i st).1 = [] ∧ last (tick i st).2 = last st
          | Some o => changes (tick i st).1 = transitions (last st) [o] ∧ last (tick i st).2 = o.1.1
          end.

Lemma transitions_cons last o obs : transitions last (o :: obs) = transitions last [o] ++ transitions o.1.1 obs.
Proof.
  destruct o as [[s c] k]. simpl. destruct (String.eqb_spec s last) as [->|]; done.
Qed.

Lemma ticks_report {I S} (tick : I → S → list state_msg * S) obs last : reports tick obs last →
  ∀ ins st, changes (ticks tick ins st).1 = transitions (last st) (omap obs ins) ∧
            last (ticks tick ins st).2 = last_status (last st) (omap obs ins).
Proof.
  intros Ht ins. induction ins as [|i ins IH]; intros st; [done|].
  simpl. specialize (Ht i st). destruct (tick i st) as [ms st1]. destruct (IH st1) as [H1 H2].
  destruct (ticks tick ins st1) as [ms' st2]. simpl in *. unfold changes in *. rewrite omap_app.
  destruct (obs i) as [o|]; destruct Ht as [Hc Hl]; rewrite Hc, H1, H2, Hl; [|done].
  split; [|done]. symmetry. apply transitions_cons.
Qed.

Lemma changes_report last s c k ms : changes ms = [] → changes (report last s c k :: ms) = transitions last [(s, c, k)].
Proof. intros H. unfold report. simpl. by destruct (String.eqb s last); cbn; rewrite ?H; simpl; try rewrite H. Qed.

Lemma changes_nil_app a b : changes a = [] → changes b = [] → changes (a ++ b) = [].
Proof. intros Ha Hb. unfold changes in *. by rewrite omap_app, Ha, Hb. Qed.
Lemma changes_logs src l : changes (MLog src <$> l) = [].
Proof. by induction l. Qed.

Lemma image_part_silent seen vm last : changes (image_part seen vm last).1 = [].
Proof.
  unfold image_part. destruct (boot_image _) as [i|]; [|done]. destruct (seen_image seen i) as [img|]; [|done].
  simpl. apply changes_nil_app; [by destruct (String.eqb _ _)|]. destruct (img_in_progress _); [|done].
  unfold progress. cbv zeta. by destruct (seen_stat seen _); [|destruct (seen_stat seen _)].
Qed.
Lemma log_part_silent seen vmID o : changes (log_part seen vmID o).1 = [].
Proof.
  unfold log_part. destruct (log_read _ _ _ _) as [[[lp chunk]|] o']; [apply changes_logs|done].
Qed.
Lemma gw_image_silent f vm : changes (gw_image_part f vm) = [].
Proof.
  unfold gw_image_part. destruct (member "disks" vm); try done. destruct (omap _ _); [done|].
  by destruct (_ ≫= _).
Qed.

Lemma state_reports vmID : reports (state_tick vmID) observed lastStatus.
Proof.
  intros seen st. unfold observed, state_tick. destruct (seen_vm seen) as [[vm|]|err]; [|done|done].
  pose proof (image_part_silent seen vm (lastImageStatus st)) as Hi.
  pose proof (log_part_silent seen vmID (lastLogOffset st)) as Hl.
  destruct (image_part _ _ _) as [images img']. destruct (log_part _ _ _) as [logs o']. simpl in *.
  split; [|done]. by apply changes_report, changes_nil_app, changes_nil_app.
Qed.
Lemma gateway_reports `{FloatText} : reports gateway_tick gw_observed id.
Proof.
  intros f last. unfold gw_observed, gateway_tick. destruct (fe_vm f) as [[code body]|err]; [|done].
  destruct (Z.eqb_spec code 404) as [->|]; [done|]. destruct (code =? 200)%Z; simpl; [|done].
  destruct (into_object body) as [vm|]; simpl; [|done]. split; [|done].
  apply changes_report, changes_nil_app; [apply gw_image_silent|done].
Qed.

(** A stream reports every change of the machine's status once and in order:
    the changes it sends are exactly the transitions in the sequence of statuses
    it saw (each with the status before, starting from none), over any number of
    ticks, failed ones included, and it remembers the status last seen.  The
    same holds of the gateway's stream, for what the control plane answers it. *)
Theorem state_changes_reported `{FloatText} vmID seens fetched :
  (changes (ticks (state_tick vmID) seens stream_start).1 = transitions "" (omap observed seens) ∧
   lastStatus (ticks (state_tick vmID) seens stream_start).2 = last_status "" (omap observed seens)) ∧
  (changes (ticks gateway_tick fetched "").1 = transitions "" (omap gw_observed fetched) ∧
   (ticks gateway_tick fetched "").2 = last_status "" (omap gw_observed fetched)).
Proof.
  split.
  - apply (ticks_report (state_tick vmID) observed lastStatus), state_reports.
  - apply (ticks_report gateway_tick gw_observed id), gateway_reports.
Qed.

(** * The two streams show the same

    What the control plane answers to [GET /vms/{id}] when it sees a machine:
    its fields (with sizes of at most 53 bits), 404 when there is none, and 500
    when it could not look. *)
Definition shows (seen : Seen) (f : Fetched) : Prop :=
  match seen_vm seen with
  | inl (Some vm) => ∃ body kvs, fe_vm f = inl (200%Z, body) ∧ into_object body = Some kvs ∧
      member "status" kvs = JStr (string_of_VMStatus (vm_Status vm)) ∧
      member "vcpus" kvs = JNum (vm_VCpus vm) ∧ member "memory_mb" kvs = JNum (vm_MemoryMB vm) ∧
      exact (vm_VCpus vm) = true ∧ exact (vm_MemoryMB vm) = true
  | inl None => ∃ body, fe_vm f = inl (404%Z, body)
  | inr _ => ∃ body, fe_vm f = inl (500%Z, body)
  end.

(** The messages both streams have, but for the wording of errors. *)
Definition view (m : state_msg) : option state_msg :=
  match m with
  | MError _ => Some (MError "")
  | MMissing | MState _ _ | MHeartbeat _ => Some m
  | _ => None
  end.
Definition views : list state_msg → list state_msg := omap view.

Lemma views_app a b : views (a ++ b) = views a ++ views b.
Proof. apply omap_app. Qed.

Lemma view_images seen vm last : views (image_part seen vm last).1 = [].
Proof.
  unfold image_part. destruct (boot_image _) as [i|]; [|done]. destruct (seen_image seen i) as [img|]; [|done].
  simpl. rewrite views_app. destruct (String.eqb _ _), (img_in_progress _); try done; unfold progress; cbv zeta;
    by destruct (seen_stat seen _); [|destruct (seen_stat seen _)].
Qed.
Lemma view_logs seen vmID o : views (log_part seen vmID o).1 = [].
Proof.
  unfold log_part. destruct (log_read _ _ _ _) as [[[lp chunk]|] o']; [|done]. simpl. by induction (log_lines chunk).
Qed.
Lemma view_gw_images f vm : views (gw_image_part f vm) = [].
Proof.
  unfold gw_image_part. destruct (member "disks" vm); try done. destruct (omap _ _); [done|].
  by destruct (_ ≫= _).
Qed.

Lemma view_report last s c k ms : views (report last s c k :: ms) = report last s c k :: views ms.
Proof. unfold report. by destruct (String.eqb s last). Qed.

Lemma tick_views `{FloatText} vmID seen f st : shows seen f →
  views (state_tick vmID seen st).1 = views (gateway_tick f (lastStatus st)).1 ∧
  lastStatus (state_tick vmID seen st).2 = (gateway_tick f (lastStatus st)).2.
Proof.
  unfold shows, state_tick, gateway_tick. destruct (seen_vm seen) as [[vm|]|err].
  - intros (body & kvs & -> & Hb & Hs & Hc & Hm & Ec & Em). cbn -[into_object report any_number].
    rewrite Hb, Hs, Hc, Hm. unfold any_number. rewrite Ec, Em. cbn [as_string].
    pose proof (view_images seen vm (lastImageStatus st)) as Hi. pose proof (view_logs seen vmID (lastLogOffset st)) as Hl.
    destruct (image_part _ _ _) as [images img']. destruct (log_part _ _ _) as [logs o']. cbn [fst snd lastStatus] in *.
    split; [|done]. rewrite !view_report, !views_app, Hi, Hl, view_gw_images. done.
  - by intros [body ->].
  - by intros [body ->].
Qed.

(** The gateway's stream of a machine's state shows what the control plane's
    own stream shows: as long as the gateway gets the control plane's answers,
    the messages about the status, its changes, missing machines, failures and
    the heartbeats are the same, tick by tick, from the same starting point. *)
Lemma stream_agrees `{FloatText} vmID seens fetched st :
  Forall2 shows seens fetched →
  views (ticks (state_tick vmID) seens st).1 = views (ticks gateway_tick fetched (lastStatus st)).1 ∧
  lastStatus (ticks (state_tick vmID) seens st).2 = (ticks gateway_tick fetched (lastStatus st)).2.
Proof.
  intros Hall. revert st. induction Hall as [|seen f seens fetched Hs Hall IH]; intros st; [done|].
  cbn [ticks]. destruct (tick_views vmID seen f st Hs) as [H1 H2].
  destruct (state_tick vmID seen st) as [ms st1]. destruct (gateway_tick f (lastStatus st)) as [ms' last'].
  cbn [fst snd] in *. subst last'. destruct (IH st1) as [H3 H4].
  destruct (ticks (state_tick vmID) seens st1) as [ns st2]. destruct (ticks gateway_tick fetched (lastStatus st1)) as [ns' last2].
  cbn [fst snd] in *. by rewrite !views_app, H1, H3.
Qed.

(** * The log of the machine *)
Lemma drop_app (a b : string) : Drop (String.length a) (a +:+ b) = b.
Proof. induction a as [|c a IH]; [done|]. exact IH. Qed.
Lemma take_all (a : string) : Strings.Take (String.length a) a = a.
Proof. induction a as [|c a IH]; [done|]. cbn. by rewrite IH. Qed.
Lemma length_append (a b : string) : String.length (a +:+ b) = String.length a + String.length b.
Proof. induction a as [|c a IH]; [done|]. change (S (String.length (a +:+ b)) = S (String.length a) + String.length b). lia. Qed.
Lemma append_assoc (a b c : string) : (a +:+ b) +:+ c = a +:+ (b +:+ c).
Proof. induction a as [|x a IH]; [done|]. change (String x ((a +:+ b) +:+ c) = String x (a +:+ (b +:+ c))). by rewrite IH. Qed.

(** Reads of a file, tick by tick: the pieces, and the offset at the end. *)
Definition only (lp : string) (data : string) (p : string) : option string := if String.eqb p lp then Some data else None.
Definition size_of (s : string) : Z := Z.of_nat (String.length s).
Fixpoint log_reads (paths : list string) (lp : string) (contents : list string) (offset : Z) : string * Z :=
  match contents with
  | [] => ("", offset)
  | data :: contents' =>
      let '(r, o1) := log_read (λ p, size_of <$> only lp data p) (only lp data) paths offset in
      let '(rest, o2) := log_reads paths lp contents' o1 in
      (match r with Some (_, chunk) => chunk +:+ rest | None => rest end, o2)
  end.

(** A file that only grows. *)
Inductive grows : string → list string → string → Prop :=
| grows_nil d : grows d [] d
| grows_cons d more ds final : grows (d +:+ more) ds final → grows d ((d +:+ more) :: ds) final.

Lemma find_only (paths : list string) lp (f : string → option Z) : lp ∈ paths → (∀ p, is_Some (f p) ↔ p = lp) →
  List.find (λ p, bool_decide (is_Some (f p))) paths = Some lp.
Proof.
  intros Hin Hf. induction paths as [|p paths IH]; [by apply not_elem_of_nil in Hin|]. simpl.
  case_bool_decide as Hp; [by apply Hf in Hp as ->|]. apply IH.
  apply elem_of_cons in Hin as [->|]; [|done]. by destruct Hp; apply Hf.
Qed.

Lemma log_read_grown paths lp d more : lp ∈ paths →
  let data := d +:+ more in
  log_read (λ p, size_of <$> only lp data p) (only lp data) paths (size_of d) =
  (if String.eqb more "" then None else Some (lp, more), size_of data).
Proof.
  intros Hin data. unfold log_read.
  rewrite (find_only paths lp) by (done || (intros p; unfold only; destruct (String.eqb_spec p lp) as [->|]; simpl; split; [done|eauto|by intros []|done])).
  unfold only. rewrite String.eqb_refl. cbn [fmap option_fmap option_map]. unfold data, size_of. rewrite length_append.
  destruct (String.eqb_spec more "") as [->|Hne].
  - simpl. rewrite Nat.add_0_r, Z.ltb_irrefl. done.
  - assert (0 < String.length more) by (destruct more; [done|simpl; lia]).
    destruct (Z.ltb_spec (Z.of_nat (String.length d)) (Z.of_nat (String.length d + String.length more))); [|lia].
    do 2 f_equal. f_equal. rewrite Nat2Z.id, drop_app. replace (Z.to_nat _) with (String.length more) by lia. apply take_all.
Qed.

Lemma log_reads_grown paths lp d ds final : lp ∈ paths → grows d ds final →
  ∃ tail, final = d +:+ tail ∧ log_reads paths lp ds (size_of d) = (tail, size_of final).
Proof.
  intros Hin Hg. induction Hg as [d|d more ds final Hg (tail & -> & IH)].
  - exists "". split; [|done]. by induction d as [|c d IHd]; [|change (String c d = String c (d +:+ "")); rewrite <-IHd].
  - exists (more +:+ tail). rewrite append_assoc. split; [done|]. cbn [log_reads].
    rewrite log_read_grown by done. cbv zeta. rewrite append_assoc in IH. rewrite IH.
    destruct (String.eqb_spec more "") as [->|]; done.
Qed.

(** The stream reads the log of a machine without gaps and without reading
    anything twice: while one of the four log files exists and only grows, by any
    amounts between the ticks, the pieces read at the ticks put one after the
    other are the file. *)
Theorem state_log_complete vmID lp contents final :
  lp ∈ logPaths vmID → grows "" contents final →
  log_reads (logPaths vmID) lp contents (lastLogOffset stream_start) = (final, size_of final).
Proof.
  intros Hin Hg. destruct (log_reads_grown _ lp "" contents final Hin Hg) as (tail & -> & E). exact E.
Qed.

(** * Concrete streams *)
Definition seen_as (st : VMStatus) : Seen :=
  mkSeen (inl (Some (mkVM "v" "web" None "" None st 2 2048 "" "" false false false "" None None None None [] [] 0 0)))
    (λ _, None) (λ _, None) (λ _, None).
Definition down : Seen := mkSeen (inr "timeout") (λ _, None) (λ _, None) (λ _, None).


Example changes_seen :
  changes (ticks (state_tick "v") [seen_as VMStatusStopped; down; seen_as VMStatusStopped; seen_as VMStatusRunning] stream_start).1
  = [("", "stopped", JNum 2, JNum 2048); ("stopped", "running", JNum 2, JNum 2048)].
Proof. reflexivity. Qed.

Lemma state_log_witness :
  log_reads (logPaths "v") "/var/lib/rymevisor/vms/v/qemu.log" ["ab"; "ab"; "abcde"] 0 = ("abcde", 5%Z).
Proof.
  apply (state_log_complete "v" "/var/lib/rymevisor/vms/v/qemu.log" ["ab"; "ab"; "abcde"] "abcde").
  - vm_compute. left.
  - apply (grows_cons "" "ab"), (grows_cons "ab" ""), (grows_cons "ab" "cde"), grows_nil.
Defined.

(** The offset is kept when another file takes the place of the one read so far:
    what that file holds up to the old offset is never sent. *)
Example log_of_new_file_skipped :
  let console := "/var/lib/rymevisor/vms/v/console.log" in
  let qemu := "/var/lib/rymevisor/vms/v/qemu.log" in
  let o1 := (log_read (λ p, size_of <$> only console "0123456789" p) (only console "0123456789") (logPaths "v") 0).2 in
  log_read (λ p, size_of <$> only qemu "error" p) (only qemu "error") (logPaths "v") o1 = (None, 10%Z).
Proof. vm_compute. reflexivity. Qed.
