(* ===== verification/Handlers.v ===== *)
(** [services/controlplane/handler/handler.go]: the HTTP interface of the control
    plane, handler by handler, its route table, and the chain of handlers that
    [cmd/control-plane/main.go] puts in front of it.

    A WebSocket stream under [/ws] is the refusal of its handler or of the
    upgrade, or a change of protocol followed by what its ticks read of the
    service; what it sends is in [Streams], [VMState] and [MetricsStream]. *)
From stdpp Require Import base gmap strings list numbers.
From S2P Require Import Prelude.
From S2P Require Import GoStd.
From S2P Require Import GoJson.
From S2P Require Import Domain.
From S2P Require Import Interfaces.
From S2P Require Import Puller.
From S2P Require Import ControlPlane.
From S2P Require Import Resources.
From S2P Require Import Http.
From S2P Require Import Requests.
From S2P Require Import Streams.
From S2P Require Import VMState.
From stdpp Require Import options.

(** * What is written

    [{"items": l, "total": n}] is a list with its total. *)
Inductive Value :=
| VVM (vm : VirtualMachine)
| VVMs (items : list VirtualMachine) (total : Z)
| VSnapshot (s : Snapshot)
| VNode (n : Node)
| VNodes (items : list Node) (total : Z)
| VImage (i : Image)
| VImages (items : list Image) (total : Z)
| VOfficial (items : list OfficialImage) (total : Z)
| VFlavor (f : Flavor)
| VFlavors (items : list Flavor) (total : Z)
| VKeypair (k : Keypair)
| VKeypairs (items : list Keypair) (total : Z)
| VBackup (b : Backup)
| VBackups (items : list Backup) (total : Z)
| VCheck (c : Check).

(** * Endpoints *)
Inductive endpoint :=
| EpCreateVM | EpListVMs | EpGetVM | EpUpdateVM | EpDeleteVM | EpPowerOnVM | EpPowerOffVM | EpRebootVM
| EpResizeVM | EpSnapshotVM | EpCloneVM | EpRestoreSnapshot
| EpRegisterNode | EpListNodes | EpGetNode | EpUpdateNode | EpDrainNode | EpHeartbeat
| EpListOfficialImages | EpPullOfficialImage | EpImportImage | EpCreateImage | EpListImages | EpGetImage
| EpDeleteImage
| EpCreateFlavor | EpListFlavors | EpGetFlavor | EpDeleteFlavor
| EpCreateKeypair | EpListKeypairs | EpGetKeypair | EpDeleteKeypair
| EpCreateBackup | EpListBackups | EpGetBackup | EpDeleteBackup | EpRestoreBackup
| EpWsLogs | EpWsConsole | EpWsMetrics | EpWsVMState
| EpLiveness | EpReadiness.

Definition Routes : table endpoint :=
  Route "/vms" [
    ("POST", "/", EpCreateVM); ("GET", "/", EpListVMs); ("GET", "/{id}", EpGetVM); ("PUT", "/{id}", EpUpdateVM);
    ("DELETE", "/{id}", EpDeleteVM); ("POST", "/{id}/power-on", EpPowerOnVM);
    ("POST", "/{id}/power-off", EpPowerOffVM); ("POST", "/{id}/reboot", EpRebootVM);
    ("POST", "/{id}/resize", EpResizeVM); ("POST", "/{id}/snapshot", EpSnapshotVM);
    ("POST", "/{id}/clone", EpCloneVM); ("POST", "/{id}/restore-snapshot", EpRestoreSnapshot)]
  ++ Route "/nodes" [
    ("POST", "/", EpRegisterNode); ("GET", "/", EpListNodes); ("GET", "/{id}", EpGetNode);
    ("PUT", "/{id}", EpUpdateNode); ("POST", "/{id}/drain", EpDrainNode); ("POST", "/{id}/heartbeat", EpHeartbeat)]
  ++ Route "/images" [
    ("GET", "/official", EpListOfficialImages); ("POST", "/pull", EpPullOfficialImage);
    ("POST", "/import", EpImportImage); ("POST", "/", EpCreateImage); ("GET", "/", EpListImages);
    ("GET", "/{id}", EpGetImage); ("DELETE", "/{id}", EpDeleteImage)]
  ++ Route "/flavors" [
    ("POST", "/", EpCreateFlavor); ("GET", "/", EpListFlavors); ("GET", "/{id}", EpGetFlavor);
    ("DELETE", "/{id}", EpDeleteFlavor)]
  ++ Route "/keypairs" [
    ("POST", "/", EpCreateKeypair); ("GET", "/", EpListKeypairs); ("GET", "/{id}", EpGetKeypair);
    ("DELETE", "/{id}", EpDeleteKeypair)]
  ++ Route "/backups" [
    ("POST", "/", EpCreateBackup); ("GET", "/", EpListBackups); ("GET", "/{id}", EpGetBackup);
    ("DELETE", "/{id}", EpDeleteBackup); ("POST", "/{id}/restore", EpRestoreBackup)]
  ++ Route "/ws" [
    ("GET", "/logs", EpWsLogs); ("GET", "/console", EpWsConsole); ("GET", "/console/{id}", EpWsConsole);
    ("GET", "/metrics", EpWsMetrics); ("GET", "/metrics/{id}", EpWsMetrics); ("GET", "/metrics/vm/{id}", EpWsMetrics);
    ("GET", "/vm/{id}/state", EpWsVMState); ("GET", "/vm/{id}/logs", EpWsLogs)].

(** [main]: the table mounted under [/api/v1], and the health paths. *)
Definition server_routes : table endpoint :=
  Route "/api/v1" Routes ++
  Handle "/health/live" EpLiveness ++ Handle "/health/ready" EpReadiness.

(** * Handlers *)

Section handlers.
Context {W : Type} (s : Service W).
Implicit Types (r : Request) (id : string).
Local Abbreviation bad := StatusBadRequest.
Local Abbreviation ise := StatusInternalServerError.
Local Abbreviation ns := (NodeService s).

(** ** Machines *)
Definition h_CreateVM r : M W (Response Value) :=
  with_body CreateVMRequest_fields create_vm_zero r (λ req,
  answer (CreateVM s req) bad (created VVM)).

Definition h_GetVM id : M W (Response Value) := answer (GetVM s id) ise (found "vm not found" VVM).

Definition vm_filter r : VMFilter :=
  mkVMFilter (query r "organization_id") (query r "project_id") (query r "node_id") (query r "status")
    (query r "search") (query_int r "page") (query_int r "per_page").
Definition h_ListVMs r : M W (Response Value) := answer (ListVMs s (vm_filter r)) ise (page VVMs).

Definition h_UpdateVM id r : M W (Response Value) :=
  with_body UpdateVMRequest_fields update_vm_zero r (λ req,
  answer (UpdateVM s id req) bad (ok VVM)).

Definition h_DeleteVM id r : M W (Response Value) :=
  answer (DeleteVM s id (query_true r "force")) bad (done StatusNoContent).

Definition h_PowerOnVM id : M W (Response Value) := answer (PowerOn s id) bad (ok VVM).
Definition h_PowerOffVM id r : M W (Response Value) :=
  answer (PowerOff s id (query_true r "force")) bad (ok VVM).
Definition h_RebootVM id r : M W (Response Value) :=
  answer (Reboot s id (query_true r "force")) bad (ok VVM).

Definition h_ResizeVM id r : M W (Response Value) :=
  with_body resize_fields (0, 0)%Z r (λ req, answer (Resize s id req.1 req.2) bad (ok VVM)).

Definition h_SnapshotVM id r : M W (Response Value) :=
  with_body snapshot_fields ("", "") r (λ req,
  answer (Snapshot_VM s id req.1 req.2) bad (created VSnapshot)).

Definition h_CloneVM id r : M W (Response Value) :=
  with_body clone_fields ("", "", false) r (λ '(name, nodeID, linked),
  answer (Clone s id name nodeID linked) bad (created VVM)).

Definition h_RestoreSnapshot r : M W (Response Value) :=
  with_body restore_fields "" r (λ snapshotID, answer (RestoreSnapshot s snapshotID) bad (ok VVM)).

(** ** Nodes *)
Definition h_RegisterNode r : M W (Response Value) :=
  with_body RegisterNodeRequest_fields register_zero r (λ req,
  answer (Register ns req) bad (created VNode)).

Definition h_GetNode id : M W (Response Value) := answer (GetNode ns id) ise (found "node not found" VNode).

Definition node_filter r : NodeFilter :=
  mkNodeFilter (query r "status") (query r "search") (query_int r "page") (query_int r "per_page").
Definition h_ListNodes r : M W (Response Value) := answer (ListNodes ns (node_filter r)) ise (page VNodes).

Definition h_UpdateNode id r : M W (Response Value) :=
  with_body labels_fields None r (λ labels, answer (UpdateNode ns id labels) bad (ok VNode)).

(** A body that does not decode means 60 seconds. *)
Definition h_DrainNode id r : M W (Response Value) :=
  let timeout := match decode_body drain_fields 0%Z r with None => 60%Z | Some t => t end in
  answer (Drain ns id timeout) bad (done StatusAccepted).

Definition h_Heartbeat id r : M W (Response Value) :=
  with_body NodeResources_fields resources_zero r (λ req,
  answer (Heartbeat ns id req) bad (done StatusNoContent)).

(** ** Images *)
Definition h_CreateImage r : M W (Response Value) :=
  with_body CreateImage_fields image_zero r (λ img, answer (CreateImage s img) bad (created VImage)).

Definition h_GetImage id : M W (Response Value) := answer (GetImage s id) ise (found "image not found" VImage).

Definition image_filter r : ImageFilter :=
  mkImageFilter (query r "os") (query r "architecture") (query r "type") (query r "search")
    (query_int r "page") (query_int r "per_page").
Definition h_ListImages r : M W (Response Value) := answer (ListImages s (image_filter r)) ise (page VImages).

Definition h_DeleteImage id : M W (Response Value) := answer (DeleteImage s id) bad (done StatusNoContent).

Definition h_ListOfficialImages : M W (Response Value) := answer ListOfficialImages ise (whole VOfficial).

Definition h_PullOfficialImage r : M W (Response Value) :=
  with_body PullImageRequest_fields (mkPull "" "" "" "") r (λ req,
  answer (svc_PullOfficialImage s (pr_OS req) (pr_OSVersion req) (pr_Architecture req)) bad (created VImage)).

Definition h_ImportImage r : M W (Response Value) :=
  with_body ImportImageRequest_fields (mkImport "" "" "" "" "") r (λ req,
  answer (svc_ImportFromURL s req) bad (created VImage)).

(** ** Flavors and keys *)
Definition h_CreateFlavor r : M W (Response Value) :=
  with_body CreateFlavorRequest_fields (mkCreateFlavor "" "" 0 0 0) r (λ req,
  answer (CreateFlavor s req) bad (created VFlavor)).
Definition h_ListFlavors : M W (Response Value) := answer (ListFlavors s) ise (whole VFlavors).
Definition h_GetFlavor id : M W (Response Value) := answer (GetFlavor s id) ise (found "flavor not found" VFlavor).
Definition h_DeleteFlavor id : M W (Response Value) := answer (DeleteFlavor s id) bad (done StatusNoContent).

Definition h_CreateKeypair r : M W (Response Value) :=
  with_body CreateKeypairRequest_fields (mkCreateKeypair "" "" "") r (λ req,
  answer (CreateKeypair s req) bad (created VKeypair)).
Definition h_ListKeypairs r : M W (Response Value) :=
  answer (ListKeypairs s (query r "organization_id")) ise (whole VKeypairs).
Definition h_GetKeypair id : M W (Response Value) := answer (GetKeypair s id) ise (found "keypair not found" VKeypair).
Definition h_DeleteKeypair id : M W (Response Value) := answer (DeleteKeypair s id) bad (done StatusNoContent).

(** ** Backups *)
Definition h_CreateBackup r : M W (Response Value) :=
  with_body CreateBackup_fields backup_zero r (λ b, answer (CreateBackup s b) bad (created VBackup)).
Definition h_GetBackup id : M W (Response Value) := answer (GetBackup s id) ise (found "backup not found" VBackup).
Definition backup_filter r : BackupFilter :=
  mkBackupFilter (query r "vm_id") (query r "organization_id") (query_int r "page") (query_int r "per_page").
Definition h_ListBackups r : M W (Response Value) := answer (ListBackups s (backup_filter r)) ise (page VBackups).
Definition h_DeleteBackup id : M W (Response Value) := answer (DeleteBackup s id) bad (done StatusNoContent).
Definition h_RestoreBackup id r : M W (Response Value) :=
  with_body vm_id_fields "" r (λ vmID, answer (RestoreBackup s id vmID) bad (done StatusAccepted)).

(** ** Streams *)
Section streams.
Context `{Upgrader} (validKey : string).

Definition h_WsLogs r : M W (Response Value) :=
  stream_reply (HandleLogs validKey r "control-plane" []) r (λ _, mret ()).
Definition h_WsConsole id r : M W (Response Value) :=
  stream_reply (HandleConsole validKey r id []) r (λ _, mret ()).

(** The resolver looks the machine up at each tick. *)
Definition h_WsMetrics id r : M W (Response Value) :=
  stream_reply (sum_map (λ resp, resp) (λ h, (h, extractVMID r id)) (open_stream validKey r)) r (λ vmID,
  if String.eqb vmID "" then mret () else repeatM (stream_length r) (ignore (GetVM s vmID))).

(** A tick reads the machine, and the image of the first disk that has one. *)
Definition state_reads (vmID : string) : M W () :=
  vm ← attempt (GetVM s vmID);
  match vm with
  | inl (Some vm) =>
      match boot_image (vm_Disks vm) with
      | Some imageID => ignore (GetImage s imageID)
      | None => mret ()
      end
  | _ => mret ()
  end.
Definition h_WsVMState id r : M W (Response Value) :=
  stream_reply (sum_map (λ resp, resp) (λ '(h, _, vmID), (h, vmID)) (HandleVMStateWs validKey r id)) r (λ vmID,
  repeatM (stream_length r) (state_reads vmID)).
End streams.

(** * The server *)

(** [pool.Ping], and what [RYMEVISOR_API_KEY] holds *)
Context `{Upgrader} (Ping : M W ()) (validKey : string).

Definition run (e : endpoint) (id : string) : Handler W Value := λ r,
  match e with
  | EpCreateVM => h_CreateVM r
  | EpListVMs => h_ListVMs r
  | EpGetVM => h_GetVM id
  | EpUpdateVM => h_UpdateVM id r
  | EpDeleteVM => h_DeleteVM id r
  | EpPowerOnVM => h_PowerOnVM id
  | EpPowerOffVM => h_PowerOffVM id r
  | EpRebootVM => h_RebootVM id r
  | EpResizeVM => h_ResizeVM id r
  | EpSnapshotVM => h_SnapshotVM id r
  | EpCloneVM => h_CloneVM id r
  | EpRestoreSnapshot => h_RestoreSnapshot r
  | EpRegisterNode => h_RegisterNode r
  | EpListNodes => h_ListNodes r
  | EpGetNode => h_GetNode id
  | EpUpdateNode => h_UpdateNode id r
  | EpDrainNode => h_DrainNode id r
  | EpHeartbeat => h_Heartbeat id r
  | EpListOfficialImages => h_ListOfficialImages
  | EpPullOfficialImage => h_PullOfficialImage r
  | EpImportImage => h_ImportImage r
  | EpCreateImage => h_CreateImage r
  | EpListImages => h_ListImages r
  | EpGetImage => h_GetImage id
  | EpDeleteImage => h_DeleteImage id
  | EpCreateFlavor => h_CreateFlavor r
  | EpListFlavors => h_ListFlavors
  | EpGetFlavor => h_GetFlavor id
  | EpDeleteFlavor => h_DeleteFlavor id
  | EpCreateKeypair => h_CreateKeypair r
  | EpListKeypairs => h_ListKeypairs r
  | EpGetKeypair => h_GetKeypair id
  | EpDeleteKeypair => h_DeleteKeypair id
  | EpCreateBackup => h_CreateBackup r
  | EpListBackups => h_ListBackups r
  | EpGetBackup => h_GetBackup id
  | EpDeleteBackup => h_DeleteBackup id
  | EpRestoreBackup => h_RestoreBackup id r
  | EpWsLogs => h_WsLogs validKey r
  | EpWsConsole => h_WsConsole validKey id r
  | EpWsMetrics => h_WsMetrics validKey id r
  | EpWsVMState => h_WsVMState validKey id r
  | EpLiveness => check_value VCheck (Liveness r)
  | EpReadiness => check_value VCheck (Readiness [("database", Ping)] r)
  end.

(** [main]: the router behind the key check, behind CORS. *)
Definition http_server `{Router} : Handler W Value :=
  CORS (RequireAPIKey validKey (serve_table server_routes run)).

End handlers.
