(* ===== verification/HandlerProofs.v ===== *)
(** Theorems on the HTTP interface of the control plane, for every router and
    every environment that keeps its promises: a request makes at most the step
    of the machines' life cycle that belongs to its endpoint; a GET changes
    nothing; a request without the key changes nothing; every answer has the
    shape its endpoint promises. *)
From stdpp Require Import base gmap strings list numbers.
From S2P Require Import Prelude.
From S2P Require Import GoStd.
From S2P Require Import GoJson.
From S2P Require Import Domain.
From S2P Require Import Interfaces.
From S2P Require Import Puller.
From S2P Require Import ControlPlane.
From S2P Require Import VMService.
From S2P Require Import CreateVM.
From S2P Require Import Resources.
From S2P Require Import Lifecycle.
From S2P Require Import Http.
From S2P Require Import Requests.
From S2P Require Import Streams.
From S2P Require Import VMState.
From S2P Require Import Handlers.
From stdpp Require Import options.

Section proofs.
Context {W : Type} (abs : W → Abs) (key : string → string) (s : Service W).
Context `{!ServiceLaws abs key s}.

(** * Computations that change little

    [steady m]: [m] ends without panic and no machine's status changes;
    [idle m]: nothing stored changes at all. *)
Definition steady {A} (m : M W A) : Prop :=
  ∀ w, wp m (λ o w', o ≠ Panic ∧ statuses (abs w') = statuses (abs w)) w.
Definition idle {A} (m : M W A) : Prop :=
  ∀ w, wp m (λ o w', o ≠ Panic ∧ abs w' = abs w) w.

Lemma idle_steady {A} (m : M W A) : idle m → steady m.
Proof using Type. intros Hm w. eapply wp_mono; [apply Hm|]. intros o w' [? ->]. done. Qed.

Lemma steady_ret {A} (a : A) : steady (mret a).
Proof using Type. intros w. by apply wp_ret. Qed.
Lemma steady_fail {A} e : steady (fail e : M W A).
Proof using Type. intros w. by apply wp_fail. Qed.
Lemma steady_bind {A B} (m : M W A) (k : A → M W B) : steady m → (∀ a, steady (k a)) → steady (m ≫= k).
Proof using Type.
  intros Hm Hk w. apply wp_bind. eapply wp_mono; [apply Hm|]. intros [a|e|] w' [? E]; [|done|done].
  eapply wp_mono; [apply Hk|]. intros o w'' [? ->]. done.
Qed.
Lemma steady_wrap {A} c (m : M W A) : steady m → steady (wrap c m).
Proof using Type.
  intros Hm w. specialize (Hm w). unfold wp, wrap in *. destruct (m w) as [[] w']; simpl in *; naive_solver.
Qed.
Lemma steady_or_zero {A} d (m : M W A) : steady m → steady (or_zero d m).
Proof using Type.
  intros Hm w. specialize (Hm w). unfold wp, or_zero in *. destruct (m w) as [[] w']; simpl in *; naive_solver.
Qed.
Lemma steady_ignore {A} (m : M W A) : steady m → steady (ignore m).
Proof using Type.
  intros Hm w. specialize (Hm w). unfold wp, ignore in *. destruct (m w) as [[] w']; simpl in *; naive_solver.
Qed.

Lemma idle_reads {A} (m : M W A) Q : (∀ w, reads abs m w (Q w)) → idle m.
Proof using Type.
  intros Hm w. eapply wp_mono; [apply Hm|]. intros [a|e|] w'; simpl; [|done|done]. by intros [_ ?].
Qed.
Lemma steady_reads {A} (m : M W A) Q : (∀ w, reads abs m w (Q w)) → steady m.
Proof using Type. intros Hm. by eapply idle_steady, idle_reads. Qed.
Lemma steady_writes {A} (m : M W A) f : (∀ a, statuses (f a) = statuses a) →
  (∀ w, writes abs m w f) → steady m.
Proof using Type.
  intros Hf Hm w. eapply wp_mono; [apply Hm|]. intros [a|e|] w'; simpl; [| |done]; by intros ->.
Qed.
Lemma steady_post {A} (m : M W A) (QR : W → A → W → Prop) (QE : W → string → W → Prop) :
  (∀ w, wp m (post (QR w) (QE w)) w) →
  (∀ w a w', QR w a w' → statuses (abs w') = statuses (abs w)) →
  (∀ w e w', QE w e w' → statuses (abs w') = statuses (abs w)) → steady m.
Proof using Type.
  intros Hm HR HE w. eapply wp_mono; [apply Hm|]. intros [a|e|] w'; simpl; eauto; done.
Qed.

(** Storing something else than a machine, under a new id. *)
Lemma steady_new {A} (E : Env W) `{!EnvLaws abs key E} (k : string → M W A) :
  (∀ id, key id = id → steady (k id)) → steady (new_uuid E ≫= k).
Proof using Type.
  intros Hk w. eapply wp_bind_post; [apply (law_uuid abs key)| |done].
  intros id w1 (_ & Hid & _ & E1). eapply wp_mono; [by apply Hk|].
  intros o w2 [? ->]. by rewrite E1.
Qed.

Lemma steady_publish_node (P : EventPublisher W) `{!PublisherLaws abs P} ev id d :
  steady (PublishNodeEvent P ev id d).
Proof using Type.
  eapply steady_post; [intros w; apply (law_publish_node abs)|..].
  - intros w [] w' ->. done.
  - intros w e w' [->| ->]; done.
Qed.

Lemma statuses_fmap (f : VirtualMachine → VirtualMachine) a :
  (∀ v, vm_Status (f v) = vm_Status v) → statuses (on_vms (fmap f) a) = statuses a.
Proof using Type.
  intros Hf. unfold statuses. simpl. rewrite <-map_fmap_compose. apply map_fmap_ext. intros k v _. apply Hf.
Qed.

(** ** The operations that are not about machines *)
Lemma steady_get_node id : steady (get_node (NodeService s) id).
Proof using Type*.
  unfold get_node. apply steady_bind; [|intros []; [apply steady_ret|apply steady_fail]].
  apply steady_wrap. eapply steady_reads. intros w. apply (law_node_get abs key).
Qed.

Lemma steady_Register req : steady (Register (NodeService s) req).
Proof using Type*.
  unfold Register. destruct (String.eqb _ ""); [apply steady_fail|]. destruct (String.eqb _ ""); [apply steady_fail|].
  apply steady_bind.
  { apply steady_or_zero. eapply steady_reads. intros w. apply (law_node_name abs key). }
  intros [n|]; [apply steady_fail|]. apply steady_new; [apply _|]. intros id Hid.
  apply steady_bind.
  { apply steady_wrap. eapply steady_post; [intros w; by apply (law_node_create abs key)|..].
    - intros w [] w' (-> & _). done.
    - by intros w e w' ->. }
  intros _. apply steady_bind; [|intros; apply steady_ret].
  destruct (ns_publisher (NodeService s)) as [pub|] eqn:Hp; [|apply steady_ret].
  pose proof (sl_publisher pub Hp). apply steady_ignore. by apply steady_publish_node.
Qed.

Lemma steady_UpdateNode id labels : steady (UpdateNode (NodeService s) id labels).
Proof using Type*.
  intros w. unfold UpdateNode, get_node, mbind. apply wp_bind.
  eapply wp_bind_reads; [apply reads_wrap, (law_node_get abs key)| |by intros e w' ->].
  intros [n|] w1 [_ Hn] E1; [|by apply wp_fail; rewrite E1]. apply wp_ret. destruct (Hn n eq_refl) as [_ Hk].
  eapply wp_mono; [apply steady_bind with (m := wrap "update node" (Node_Update (nodeRepo s) (node_set_labels labels n)))|].
  - apply steady_wrap. eapply (steady_writes _ (on_nodes (alter (node_set_maps (node_set_labels labels n)) (node_ID n)))); [done|].
    intros w'. exact (law_node_update abs key (node_set_labels labels n) w' Hk).
  - intros _. apply steady_ret.
  - intros o w' [? ->]. by rewrite E1.
Qed.

Lemma steady_Drain id t : steady (Drain (NodeService s) id t).
Proof using Type*.
  unfold Drain. apply steady_bind; [apply steady_get_node|]. intros n. apply steady_wrap.
  eapply (steady_writes _ (on_nodes _)); [done|]. intros w. apply (law_node_status abs key).
Qed.
Lemma steady_Heartbeat id res : steady (Heartbeat (NodeService s) id res).
Proof using Type*. eapply (steady_writes _ (on_nodes _)); [done|]. intros w. apply (law_node_heartbeat abs key). Qed.

Lemma steady_create_image (R : ImageRepository W) `{!ImageRepoLaws abs key R} img :
  key (img_ID img) = img_ID img → steady (wrap "create image" (Image_Create R img)).
Proof using Type.
  intros Hk. apply steady_wrap. eapply steady_post; [intros w; by apply (law_image_create abs key)|..].
  - intros w [] w' (-> & _). done.
  - by intros w e w' ->.
Qed.

Lemma steady_CreateImage img : steady (CreateImage s img).
Proof using Type*.
  unfold CreateImage. do 3 (destruct (String.eqb _ ""); [apply steady_fail|]).
  apply steady_new; [apply _|]. intros id Hid. apply steady_bind; [|intros; apply steady_ret].
  apply steady_create_image; [apply _|done].
Qed.

Lemma steady_DeleteImage id : steady (DeleteImage s id).
Proof using Type*.
  unfold DeleteImage. apply steady_bind.
  { apply steady_wrap. eapply steady_reads. intros w. apply (law_image_get abs key). }
  intros [i|]; [|apply steady_fail]. apply steady_wrap.
  eapply steady_writes; [|intros w; apply (law_image_delete abs key)].
  intros a. simpl. rewrite statuses_fmap; [done|]. intros v. done.
Qed.

Lemma steady_pull os v arch : steady (svc_PullOfficialImage s os v arch).
Proof using Type*.
  unfold svc_PullOfficialImage. destruct (puller s) as [p|] eqn:Hp; [|apply steady_fail].
  destruct (sl_puller p Hp) as [Hi He].
  eapply steady_post; [intros w; apply (PullOfficialImage_spec abs key p)|..].
  - intros w img w' ((Hf & _) & _). apply statuses_vms. by destruct Hf.
  - intros w e w' ((Hf & _) & _). apply statuses_vms. by destruct Hf.
Qed.

Lemma steady_import req : steady (svc_ImportFromURL s req).
Proof using Type*.
  unfold svc_ImportFromURL. destruct (puller s) as [p|] eqn:Hp; [|apply steady_fail].
  destruct (sl_puller p Hp) as [Hi He]. unfold Puller.ImportFromURL.
  do 2 (destruct (String.eqb _ ""); [apply steady_fail|]). apply steady_bind.
  { apply steady_wrap. eapply steady_reads. intros w. apply (law_image_name abs key). }
  intros [i|]; [apply steady_fail|]. apply steady_new; [apply _|]. intros id Hid. apply steady_bind.
  { by apply steady_create_image. }
  intros _. apply steady_bind; [|intros; apply steady_ret].
  eapply steady_post; [intros w; apply (law_go abs key)|..]; [|done]. by intros w [] w' ->.
Qed.

Lemma steady_CreateFlavor req : steady (CreateFlavor s req).
Proof using Type*.
  unfold CreateFlavor. destruct (flavorRepo s) as [R|] eqn:HR; [|apply steady_fail]. pose proof (sl_flavor R HR).
  destruct (String.eqb _ ""); [apply steady_fail|]. do 3 (destruct (_ <? _)%Z; [apply steady_fail|]).
  apply steady_bind.
  { apply steady_or_zero. eapply steady_reads. intros w. apply (law_flavor_name abs key). }
  intros [f|]; [apply steady_fail|]. apply steady_new; [apply _|]. intros id Hid.
  apply steady_bind; [|intros; apply steady_ret]. apply steady_wrap.
  eapply steady_post; [intros w; by apply (law_flavor_create abs key)|..].
  - intros w [] w' (-> & _). done.
  - by intros w e w' ->.
Qed.
Lemma steady_DeleteFlavor id : steady (DeleteFlavor s id).
Proof using Type*.
  unfold DeleteFlavor. destruct (flavorRepo s) as [R|] eqn:HR; [|apply steady_fail]. pose proof (sl_flavor R HR).
  apply steady_bind; [eapply steady_reads; intros w; apply (law_flavor_get abs key)|].
  intros [f|]; [|apply steady_fail].
  eapply (steady_writes _ (on_flavors _)); [done|]. intros w. apply (law_flavor_delete abs key).
Qed.

Lemma steady_CreateKeypair req : steady (CreateKeypair s req).
Proof using Type*.
  unfold CreateKeypair. destruct (keypairRepo s) as [R|] eqn:HR; [|apply steady_fail]. pose proof (sl_keypair R HR).
  do 2 (destruct (String.eqb _ ""); [apply steady_fail|]). destruct (negb _); [apply steady_fail|].
  apply steady_bind.
  { apply steady_or_zero. eapply steady_reads. intros w. apply (law_keypair_name abs key). }
  intros [k|]; [apply steady_fail|]. apply steady_new; [apply _|]. intros id Hid.
  apply steady_bind; [|intros; apply steady_ret]. apply steady_wrap.
  eapply steady_post; [intros w; by apply (law_keypair_create abs key)|..].
  - intros w [] w' (-> & _). done.
  - by intros w e w' ->.
Qed.
Lemma steady_DeleteKeypair id : steady (DeleteKeypair s id).
Proof using Type*.
  unfold DeleteKeypair. destruct (keypairRepo s) as [R|] eqn:HR; [|apply steady_fail]. pose proof (sl_keypair R HR).
  apply steady_bind; [eapply steady_reads; intros w; apply (law_keypair_get abs key)|].
  intros [k|]; [|apply steady_fail].
  eapply (steady_writes _ (on_keypairs _)); [done|]. intros w. apply (law_keypair_delete abs key).
Qed.

Lemma steady_CreateBackup b : steady (CreateBackup s b).
Proof using Type*.
  unfold CreateBackup. do 2 (destruct (String.eqb _ ""); [apply steady_fail|]). apply steady_bind.
  { eapply steady_reads. intros w. apply (get_vm_reads abs key s). }
  intros vm. apply steady_new; [apply _|]. intros id Hid. apply steady_bind; [|intros; apply steady_ret].
  apply steady_wrap. eapply steady_post; [intros w; by apply (law_backup_create abs key)|..].
  - intros w [] w' (-> & _). done.
  - by intros w e w' ->.
Qed.
Lemma steady_DeleteBackup id : steady (DeleteBackup s id).
Proof using Type*.
  unfold DeleteBackup, get_backup. apply steady_bind.
  { apply steady_bind; [|intros []; [apply steady_ret|apply steady_fail]].
    apply steady_wrap. eapply steady_reads. intros w. apply (law_backup_get abs key). }
  intros b. apply steady_wrap. eapply (steady_writes _ (on_backups _)); [done|].
  intros w. apply (law_backup_delete abs key).
Qed.

(** ** The reads *)
Lemma idle_repo {A R} (o : option R) e (f : R → M W A) :
  (∀ x, o = Some x → idle (f x)) → idle (match o with None => fail e | Some x => f x end).
Proof using Type. intros Hf. destruct o; [by apply Hf|]. intros w. by apply wp_fail. Qed.

Lemma idle_gets id f nf imf org bf :
  idle (GetVM s id) ∧ idle (ListVMs s f) ∧ idle (GetNode (NodeService s) id) ∧ idle (ListNodes (NodeService s) nf) ∧
  idle (GetImage s id) ∧ idle (ListImages s imf) ∧ idle (GetFlavor s id) ∧ idle (ListFlavors s) ∧
  idle (GetKeypair s id) ∧ idle (ListKeypairs s org) ∧ idle (GetBackup s id) ∧ idle (ListBackups s bf).
Proof using Type*.
  split_and!.
  - eapply idle_reads. intros w. apply (law_vm_get abs key).
  - eapply idle_reads. intros w. apply (law_vm_list abs key).
  - eapply idle_reads. intros w. apply (law_node_get abs key).
  - eapply idle_reads. intros w. apply (law_node_list abs key).
  - eapply idle_reads. intros w. apply (law_image_get abs key).
  - eapply idle_reads. intros w. apply (law_image_list abs key).
  - apply idle_repo. intros R HR. pose proof (sl_flavor R HR). eapply idle_reads. intros w. apply (law_flavor_get abs key).
  - apply idle_repo. intros R HR. pose proof (sl_flavor R HR). eapply idle_reads. intros w. apply (law_flavor_list abs key).
  - apply idle_repo. intros R HR. pose proof (sl_keypair R HR). eapply idle_reads. intros w. apply (law_keypair_get abs key).
  - apply idle_repo. intros R HR. pose proof (sl_keypair R HR). eapply idle_reads. intros w. apply (law_keypair_list abs key).
  - eapply idle_reads. intros w. apply (law_backup_get abs key).
  - eapply idle_reads. intros w. apply (law_backup_list abs key).
Qed.

(** * Handlers *)

(** An answer leaves the world as the operation did. *)
Lemma answer_world {V A} (m : M W A) st (k : A → Response V) w : (answer m st k w).2 = (m w).2.
Proof using Type. unfold answer, attempt, mbind, M_bind. by destruct (m w) as [[] ?]. Qed.
Lemma forget_world {A} (m : M W A) w : (forget m w).2 = (m w).2.
Proof using Type. unfold forget, mbind, M_bind. by destruct (m w) as [[] ?]. Qed.

(** What a handler answers: its operation's error, or its value. *)
Lemma answer_ret {V A} (m : M W A) st (k : A → Response V) w resp : (answer m st k w).1 = Ret resp →
  (∃ e, resp = WriteError st e) ∨ ∃ a, resp = k a.
Proof using Type.
  unfold answer, attempt, mbind, M_bind. destruct (m w) as [[a|e|] w']; simpl; intros [= <-]; eauto.
Qed.

Lemma answer_idle {V A} (m : M W A) st (k : A → Response V) w : idle m → abs (answer m st k w).2 = abs w.
Proof using Type. intros Hm. rewrite answer_world. apply (Hm w). Qed.
Lemma answer_steady {V A} (m : M W A) st (k : A → Response V) op w : steady m →
  lc_step op (statuses (abs w)) (statuses (abs (answer m st k w).2)).
Proof using Type. intros Hm. rewrite answer_world. destruct (Hm w) as [_ E]. rewrite E. apply lc_stay. Qed.

(** A machine's operation makes the step of its request. *)
Lemma answer_serve {V A} (rq : request) (m : M W A) st (k : A → Response V) w : (m w).2 = (serve s rq w).2 →
  lc_step (op_of key rq) (statuses (abs w)) (statuses (abs (answer m st k w).2)).
Proof using Type*.
  intros E. rewrite answer_world, E. apply (serve_simulates abs key s rq w).
Qed.

Lemma body_step {V A} (fs : fields A) zero r (k : A → M W (Response V)) op w :
  (∀ a, lc_step op (statuses (abs w)) (statuses (abs (k a w).2))) →
  lc_step op (statuses (abs w)) (statuses (abs (with_body fs zero r k w).2)).
Proof using Type. intros Hk. unfold with_body. destruct (decode_body fs zero r); [apply Hk|apply lc_stay]. Qed.

(** The step of the life cycle that belongs to an endpoint. *)
Definition op_at (e : endpoint) (id : string) (r : Request) : vm_op :=
  match e with
  | EpCreateVM | EpCloneVM => OpCreate
  | EpDeleteVM => OpDelete (key id) (query_true r "force")
  | EpPowerOnVM => OpPowerOn (key id)
  | EpPowerOffVM => OpPowerOff (key id) (query_true r "force")
  | EpRebootVM => OpReboot (key id) (query_true r "force")
  | EpRestoreSnapshot | EpRestoreBackup => OpRestore
  | _ => OpEdit
  end.

(** ** Streams *)
Lemma idle_ret {A} (a : A) : idle (mret a).
Proof using Type. intros w. by apply wp_ret. Qed.
Lemma idle_bind {A B} (m : M W A) (f : A → M W B) : idle m → (∀ a, idle (f a)) → idle (m ≫= f).
Proof using Type.
  intros Hm Hf w. apply wp_bind. eapply wp_mono; [apply Hm|]. intros [a|e|] w' [? E]; [|done|done].
  eapply wp_mono; [apply Hf|]. intros o w'' [? ->]. done.
Qed.
Lemma idle_ignore {A} (m : M W A) : idle m → idle (ignore m).
Proof using Type.
  intros Hm w. specialize (Hm w). unfold wp, ignore in *. destruct (m w) as [[] w']; simpl in *; naive_solver.
Qed.
Lemma idle_attempt {A} (m : M W A) : idle m → idle (attempt m).
Proof using Type.
  intros Hm w. specialize (Hm w). unfold wp, attempt in *. destruct (m w) as [[] w']; simpl in *; naive_solver.
Qed.
Lemma idle_repeat n (m : M W ()) : idle m → idle (repeatM n m).
Proof using Type. intros Hm. induction n as [|n IH]; [apply idle_ret|]. by apply idle_bind. Qed.

Lemma idle_get_vm id : idle (GetVM s id).
Proof using Type*. eapply idle_reads. intros w. apply (law_vm_get abs key). Qed.
Lemma idle_get_image id : idle (GetImage s id).
Proof using Type*. eapply idle_reads. intros w. apply (law_image_get abs key). Qed.

Lemma idle_state_reads vmID : idle (state_reads s vmID).
Proof using Type*.
  unfold state_reads. apply idle_bind; [apply idle_attempt, idle_get_vm|]. intros [[vm|]|e]; [|apply idle_ret..].
  destruct (boot_image _); [apply idle_ignore, idle_get_image|apply idle_ret].
Qed.

Context `{!Upgrader}.
Lemma idle_stream {V A} h r (body : A → M W ()) : (∀ a, idle (body a)) → idle (stream_reply (V:=V) h r body).
Proof using Type.
  intros Hb. unfold stream_reply. destruct h as [resp|[hd a]]; [apply idle_ret|].
  destruct (upgrade r); [apply idle_ret|]. apply idle_bind; [apply Hb|]. intros. apply idle_ret.
Qed.

Lemma idle_streams k id r :
  idle (h_WsLogs k r) ∧ idle (h_WsConsole k id r) ∧ idle (h_WsMetrics s k id r) ∧ idle (h_WsVMState s k id r).
Proof using Type*.
  split_and!; apply idle_stream; intros a; try apply idle_ret.
  - destruct (String.eqb a ""); [apply idle_ret|]. apply idle_repeat, idle_ignore, idle_get_vm.
  - apply idle_repeat, idle_state_reads.
Qed.

Context (Ping : M W ()) (HPing : idle Ping).

Lemma readiness_idle r : idle (Readiness [("database", Ping)] r).
Proof using HPing.
  intros w. unfold Readiness, readiness_step. cbn [foldM fst snd]. unfold wp, mbind, M_bind, attempt.
  destruct (HPing w) as [Hp HE]. unfold wp in *. by destruct (Ping w) as [[] w'].
Qed.

Lemma run_step k e id r w :
  lc_step (op_at e id r) (statuses (abs w)) (statuses (abs (run s Ping k e id r w).2)).
Proof using Type*.
  pose proof (idle_gets id (vm_filter r) (node_filter r) (image_filter r) (query r "organization_id") (backup_filter r))
    as (? & ? & ? & ? & ? & ? & ? & ? & ? & ? & ? & ?).
  destruct e; cbn [run op_at]; try (apply body_step; intros a);
    try (by apply answer_steady, idle_steady);
    try (apply answer_steady; by auto using steady_Register, steady_UpdateNode, steady_Drain, steady_Heartbeat,
      steady_CreateImage, steady_DeleteImage, steady_pull, steady_import, steady_CreateFlavor, steady_DeleteFlavor,
      steady_CreateKeypair, steady_DeleteKeypair, steady_CreateBackup, steady_DeleteBackup).
  - apply (answer_serve (RCreate a)). by rewrite <-forget_world.
  - apply (answer_serve (RUpdate id a)). by rewrite <-forget_world.
  - by apply (answer_serve (RDelete id _)).
  - apply (answer_serve (RPowerOn id)). by rewrite <-forget_world.
  - apply (answer_serve (RPowerOff id _)). by rewrite <-forget_world.
  - apply (answer_serve (RReboot id _)). by rewrite <-forget_world.
  - apply (answer_serve (RResize id a.1 a.2)). by rewrite <-forget_world.
  - apply (answer_serve (RSnapshot id a.1 a.2)). by rewrite <-forget_world.
  - destruct a as [[name node] linked]. apply (answer_serve (RClone id name node linked)). by rewrite <-forget_world.
  - apply (answer_serve (RRestoreSnapshot a)). by rewrite <-forget_world.
  - by apply (answer_serve (RRestoreBackup id a)).
  - destruct (idle_streams k id r) as (Hs & _). destruct (Hs w) as [_ E]. rewrite E. apply lc_stay.
  - destruct (idle_streams k id r) as (_ & Hs & _). destruct (Hs w) as [_ E]. rewrite E. apply lc_stay.
  - destruct (idle_streams k id r) as (_ & _ & Hs & _). destruct (Hs w) as [_ E]. rewrite E. apply lc_stay.
  - destruct (idle_streams k id r) as (_ & _ & _ & Hs). destruct (Hs w) as [_ E]. rewrite E. apply lc_stay.
  - rewrite check_world. apply lc_stay.
  - rewrite check_world. destruct (readiness_idle r w) as [_ E]. rewrite E. apply lc_stay.
Qed.

(** ** Every request is answered *)

(** The addresses the control plane stores are blocks of IPv4 addresses. *)
Definition addresses_ok (a : Abs) : Prop := map_Forall (λ _, vm_addresses_v4) (a_vms a).

Definition ends {A} (m : M W A) (w : W) : Prop := (m w).1 ≠ Panic.
Lemma ends_post {A} (m : M W A) QR QE w : wp m (post QR QE) w → ends m w.
Proof using Type. unfold wp, ends. by destruct (m w) as [[] ?]. Qed.
Lemma ends_steady {A} (m : M W A) w : steady m → ends m w.
Proof using Type. intros Hm. apply (Hm w). Qed.
Lemma ends_idle {A} (m : M W A) w : idle m → ends m w.
Proof using Type. intros Hm. apply (Hm w). Qed.
Lemma answer_ends {V A} (m : M W A) st (k : A → Response V) w : ends m w → ∃ resp, (answer m st k w).1 = Ret resp.
Proof using Type. unfold ends, answer, attempt, mbind, M_bind. destruct (m w) as [[] ?]; simpl; [eauto..|done]. Qed.
Lemma body_ends {V A} (fs : fields A) zero r (k : A → M W (Response V)) w :
  (∀ a, ∃ resp, (k a w).1 = Ret resp) → ∃ resp, (with_body fs zero r k w).1 = Ret resp.
Proof using Type. intros Hk. unfold with_body. destruct (decode_body fs zero r); [apply Hk|]. simpl. eauto. Qed.
(** A stream's reads do not fail, so its handler answers. *)
Lemma stream_ends {V A} h r (body : A → M W ()) w : (∀ a, ∃ w', body a w = (Ret (), w')) →
  ∃ resp, (stream_reply (V:=V) h r body w).1 = Ret resp.
Proof using Type.
  intros Hb. unfold stream_reply. destruct h as [resp|[hd a]]; [simpl; eauto|]. destruct (upgrade r); [simpl; eauto|].
  unfold mbind, M_bind. destruct (Hb a) as [w' ->]. simpl. eauto.
Qed.
Lemma repeat_ends n (m : M W ()) w : (∀ w, ∃ w', m w = (Ret (), w')) → ∃ w', repeatM n m w = (Ret (), w').
Proof using Type.
  intros Hm. revert w. induction n as [|n IH]; intros w; [by exists w|]. cbn [repeatM]. unfold mbind, M_bind.
  destruct (Hm w) as [w' ->]. apply IH.
Qed.
Lemma ignore_ends {A} (m : M W A) w : ends m w → ∃ w', ignore m w = (Ret (), w').
Proof using Type. unfold ends, ignore. destruct (m w) as [[] w']; simpl; [eauto..|done]. Qed.
Lemma state_reads_end vmID w : ∃ w', state_reads s vmID w = (Ret (), w').
Proof using Type*.
  unfold state_reads, mbind, M_bind, attempt. pose proof (ends_idle _ w (idle_get_vm vmID)) as He. unfold ends in He.
  destruct (GetVM s vmID w) as [[[vm|]|e|] w1]; [|by eexists..|done]. destruct (boot_image _); [|by eexists].
  apply ignore_ends, ends_idle, idle_get_image.
Qed.

Lemma run_answers k e id r w : addresses_ok (abs w) → ∃ resp, (run s Ping k e id r w).1 = Ret resp.
Proof using Type*.
  intros Ha.
  pose proof (idle_gets id (vm_filter r) (node_filter r) (image_filter r) (query r "organization_id") (backup_filter r))
    as (? & ? & ? & ? & ? & ? & ? & ? & ? & ? & ? & ?).
  destruct e; cbn [run]; try (apply body_ends; intros a; try destruct a as [[? ?] ?]); try (apply answer_ends);
    try (by apply ends_idle);
    try (apply ends_steady; by auto using steady_Register, steady_UpdateNode, steady_Drain, steady_Heartbeat,
      steady_CreateImage, steady_DeleteImage, steady_pull, steady_import, steady_CreateFlavor, steady_DeleteFlavor,
      steady_CreateKeypair, steady_DeleteKeypair, steady_CreateBackup, steady_DeleteBackup).
  - eapply ends_post, (CreateVM_spec abs key s).
  - eapply ends_post, (UpdateVM_spec abs key s).
  - eapply ends_post, (DeleteVM_spec abs key s).
  - eapply ends_post, (PowerOn_spec abs key s). intros old Hold. by eapply Ha.
  - eapply ends_post, (PowerOff_spec abs key s).
  - eapply ends_post, (Reboot_spec abs key s).
  - eapply ends_post, (Resize_spec abs key s).
  - eapply ends_post, (Snapshot_VM_spec abs key s).
  - eapply ends_post, (Clone_spec abs key s).
  - eapply ends_post, (RestoreSnapshot_spec abs key s).
  - eapply ends_post, (RestoreBackup_spec abs key s).
  - apply stream_ends. intros a. by exists w.
  - apply stream_ends. intros a. by exists w.
  - apply stream_ends. intros a. destruct (String.eqb a ""); [by exists w|]. apply repeat_ends. intros w0.
    apply ignore_ends, ends_idle, idle_get_vm.
  - apply stream_ends. intros a. apply repeat_ends. intros w0. apply state_reads_end.
  - simpl. eauto.
  - destruct (answers_check (λ _, True) VCheck [("database", Ping)] r w) as (resp & E & _); [|done|by exists resp].
    intros c ->%list_elem_of_singleton w0 _. split; [|done]. apply (HPing w0).
Qed.

(** ** The machine a request is about *)

(** The machine in the path; for a restore the machine of the snapshot in the
    body, or the machine in the body, whatever the path says. *)
Definition named_machine (e : endpoint) (id : string) (r : Request) (a : Abs) (j : string) : Prop :=
  match e with
  | EpCreateVM | EpCloneVM => a_vms a !! j = None
  | EpDeleteVM | EpPowerOnVM | EpPowerOffVM | EpRebootVM => j = key id
  | EpRestoreSnapshot => ∃ sid snap,
      decode_body restore_fields "" r = Some sid ∧ a_snaps a !! key sid = Some snap ∧ j = snap_VMID snap
  | EpRestoreBackup => ∃ vmID, decode_body vm_id_fields "" r = Some vmID ∧ j = key vmID
  | _ => False
  end.

Lemma lc_touches op m m' j : lc_step op m m' → m' !! j ≠ m !! j →
  match op with
  | OpCreate => m !! j = None
  | OpEdit => False
  | OpDelete k _ | OpPowerOn k | OpPowerOff k _ | OpReboot k _ => j = k
  | _ => True
  end.
Proof using Type.
  destruct 1 as [op m|k m Hk|k st f m|k st m|k st f st' m|k st f st' m|k st st' m|m m' Hr]; intros Hj; try done;
    destruct (decide (j = k)) as [->|Hne]; try done; destruct Hj;
    first [by rewrite lookup_insert_ne|by rewrite lookup_delete_ne].
Qed.

Lemma restored_elsewhere j k m a a' : j ≠ k → restored k m a a' ∨ restore_failed k m a a' →
  statuses a' !! j = statuses a !! j.
Proof using Type.
  intros Hj [[_ Hc]|[->|[_ Hc]]]; [|done|]; apply vm_change_vms in Hc; unfold statuses, set_status_at in *;
    by rewrite Hc, !lookup_fmap, lookup_alter_ne.
Qed.

Definition touched (m : M W (Response Value)) (w : W) (j : string) : Prop :=
  statuses (abs (m w).2) !! j ≠ statuses (abs w) !! j.

Lemma restore_snapshot_touches id r w j : touched (h_RestoreSnapshot s r) w j → named_machine EpRestoreSnapshot id r (abs w) j.
Proof using Type*.
  unfold touched, h_RestoreSnapshot, with_body, named_machine. destruct (decode_body restore_fields "" r) as [sid|]; [|done].
  rewrite answer_world. pose proof (RestoreSnapshot_spec abs key s sid w) as Hp. unfold wp in Hp.
  destruct (RestoreSnapshot s sid w) as [o w']. cbn [fst snd] in *. intros Hj.
  assert (abs w' = abs w ∨ ∃ snap, a_snaps (abs w) !! key sid = Some snap ∧
    (restored (snap_VMID snap) (restore_event sid (snap_VMID snap)) (abs w) (abs w') ∨
     restore_failed (snap_VMID snap) (restore_event sid (snap_VMID snap)) (abs w) (abs w'))) as [E|(snap & Hsn & Hr)].
  { destruct o as [vm|err|]; [destruct Hp as (snap & ? & ? & _); eauto|destruct Hp as [?|(snap & ? & ?)]; eauto|done]. }
  - by rewrite E in Hj.
  - exists sid, snap. split_and!; [done..|]. apply dec_stable. intros Hn. apply Hj. by eapply restored_elsewhere.
Qed.

Lemma restore_backup_touches id r w j : touched (h_RestoreBackup s id r) w j → named_machine EpRestoreBackup id r (abs w) j.
Proof using Type*.
  unfold touched, h_RestoreBackup, with_body, named_machine. destruct (decode_body vm_id_fields "" r) as [vmID|]; [|done].
  rewrite answer_world. pose proof (RestoreBackup_spec abs key s id vmID w) as Hp. unfold wp in Hp.
  destruct (RestoreBackup s id vmID w) as [o w']. cbn [fst snd] in *. intros Hj.
  exists vmID. split; [done|]. apply dec_stable. intros Hn. apply Hj. eapply restored_elsewhere; [exact Hn|].
  destruct o as [[]|err|]; [left; apply Hp|right; apply Hp|done].
Qed.

(** What [lc_touches] says of the operation of an endpoint. *)
Lemma op_touches e id r w j :
  match op_at e id r with
  | OpCreate => statuses (abs w) !! j = None
  | OpEdit => False
  | OpDelete k _ | OpPowerOn k | OpPowerOff k _ | OpReboot k _ => j = k
  | _ => True
  end → op_at e id r ≠ OpRestore → named_machine e id r (abs w) j.
Proof using Type.
  unfold statuses. rewrite lookup_fmap. destruct e; simpl; try done; intros Hj _; by destruct (a_vms (abs w) !! j).
Qed.

Lemma run_touches k e id r w j : touched (run s Ping k e id r) w j → named_machine e id r (abs w) j.
Proof using Type*.
  intros Hj. destruct (match e with EpRestoreSnapshot | EpRestoreBackup => true | _ => false end) eqn:Ee.
  - destruct e; try discriminate Ee.
    + apply restore_snapshot_touches. assert (E : run s Ping k EpRestoreSnapshot id r = h_RestoreSnapshot s r) by reflexivity.
      rewrite E in Hj. exact Hj.
    + apply restore_backup_touches. assert (E : run s Ping k EpRestoreBackup id r = h_RestoreBackup s id r) by reflexivity.
      rewrite E in Hj. exact Hj.
  - apply op_touches; [exact (lc_touches _ _ _ _ (run_step k e id r w) Hj)|]. by destruct e.
Qed.

(** Endpoints that only read. *)
Definition reading (e : endpoint) : bool :=
  match e with
  | EpListVMs | EpGetVM | EpListNodes | EpGetNode | EpListOfficialImages | EpListImages | EpGetImage
  | EpListFlavors | EpGetFlavor | EpListKeypairs | EpGetKeypair | EpListBackups | EpGetBackup
  | EpWsLogs | EpWsConsole | EpWsMetrics | EpWsVMState | EpLiveness | EpReadiness => true
  | _ => false
  end.

Lemma run_reading k e id r w : reading e = true → abs (run s Ping k e id r w).2 = abs w.
Proof using Type*.
  pose proof (idle_gets id (vm_filter r) (node_filter r) (image_filter r) (query r "organization_id") (backup_filter r))
    as (? & ? & ? & ? & ? & ? & ? & ? & ? & ? & ? & ?).
  destruct (idle_streams k id r) as (Hl & Hc & Hm & Hv).
  destruct e; intros [=]; cbn [run]; try (by apply answer_idle);
    [exact (proj2 (Hl w))|exact (proj2 (Hc w))|exact (proj2 (Hm w))|exact (proj2 (Hv w))|..]; rewrite check_world.
  - done.
  - apply (readiness_idle r w).
Qed.

(** A GET of the table is to such an endpoint. *)
Lemma get_reading pattern e : ("GET", pattern, e) ∈ server_routes → reading e = true.
Proof using Type.
  intros Hin.
  assert (Hall : Forall (λ t : string * string * endpoint, t.1.1 = "GET" → reading t.2 = true) server_routes).
  { eapply bool_decide_unpack. vm_compute. exact I. }
  rewrite Forall_forall in Hall. by apply (Hall _ (proj1 (list_elem_of_In _ _) Hin)).
Qed.

(** What the server does with a request: a preflight request is answered, a
    request that may not pass is refused, one the router does not know is
    answered by the router, all without effect; any other runs its endpoint. *)
Lemma server_cases `{RouterLaws} k r w :
  (∃ st h b, http_server s Ping k r w = (Ret (mkResponse st h b), w) ∧
     (st = 204 ∧ rq_Method r = MethodOptions ∧ b = BEmpty ∨
      (st = 401 ∨ st = 500) ∧ health_path (rq_Path r) = false ∧ ¬ (k ≠ "" ∧ presents r k) ∧ (∃ msg, b = BError msg) ∨
      (st = 404 ∨ st = 405) ∧ b = BText "")%Z) ∨
  (∃ pattern e id, (rq_Method r, pattern, e) ∈ server_routes ∧ names pattern (rq_Path r) id ∧
     rq_Method r ≠ MethodOptions ∧ (health_path (rq_Path r) = true ∨ (k ≠ "" ∧ presents r k)) ∧
     http_server s Ping k r w = (resp ← run s Ping k e id r; mret (add_headers cors_headers resp)) w).
Proof using Type.
  unfold http_server, CORS. destruct (String.eqb_spec (rq_Method r) MethodOptions) as [Em|Em].
  { left. eexists _, _, _. split; [done|]. by left. }
  assert (Hroute : (∃ st h b, (resp ← serve_table server_routes (run s Ping k) r; mret (add_headers cors_headers resp)) w
                     = (Ret (mkResponse st h b), w) ∧ (st = 404 ∨ st = 405)%Z ∧ b = BText "") ∨
    (∃ pattern e id, (rq_Method r, pattern, e) ∈ server_routes ∧ names pattern (rq_Path r) id ∧
      (resp ← serve_table server_routes (run s Ping k) r; mret (add_headers cors_headers resp)) w
      = (resp ← run s Ping k e id r; mret (add_headers cors_headers resp)) w)).
  { unfold serve_table. destruct (route _ _ _) as [[e id]|st] eqn:Er.
    - right. destruct (route_in _ _ _ _ _ Er) as (p & Hp & Hid). by exists p, e, id.
    - left. apply route_none in Er as [Hst _]. eexists _, _, _. split; [done|]. by split. }
  destruct (health_path (rq_Path r)) eqn:Hh.
  { unfold RequireAPIKey. rewrite Hh. destruct Hroute as [(st & h & b & E & Hst & Hb)|(p & e & id & Hp & Hid & E)].
    - left. exists st, h, b. split; [exact E|]. by right; right.
    - right. exists p, e, id. split_and!; [done|done|done|by left|exact E]. }
  destruct (require_key_spec k (serve_table server_routes (run s Ping k)) r w Hh) as [(Hk & Hp & E)|[(Hk & Hp & E)|(Hk & E)]].
  - assert (Ec : ∀ c : Response Value → Response Value,
      (resp ← RequireAPIKey k (serve_table server_routes (run s Ping k)) r; mret (c resp)) w
      = (resp ← serve_table server_routes (run s Ping k) r; mret (c resp)) w).
    { intros c. unfold mbind, M_bind. by rewrite E. }
    rewrite Ec. destruct Hroute as [(st & h & b & E' & Hst & Hb)|(p & e & id & Hin & Hid & E')].
    + left. exists st, h, b. split; [exact E'|]. by right; right.
    + right. exists p, e, id. split_and!; [done|done|done|by right|exact E'].
  - left. unfold mbind, M_bind. rewrite E. eexists _, _, _. split; [done|]. right; left.
    split_and!; [by left|done|naive_solver|by eexists].
  - left. unfold mbind, M_bind. rewrite E. eexists _, _, _. split; [done|]. right; left.
    split_and!; [by right|done|naive_solver|by eexists].
Qed.
End proofs.

(** * The contract of the interface *)
Inductive shape :=
| ShVM | ShVMs | ShSnapshot | ShNode | ShNodes | ShImage | ShImages | ShOfficial | ShFlavor | ShFlavors
| ShKeypair | ShKeypairs | ShBackup | ShBackups | ShCheck.

(** The shape of a value.  A list that is not a page comes with its length. *)
Inductive has_shape : Value → shape → Prop :=
| sh_vm v : has_shape (VVM v) ShVM
| sh_vms l n : has_shape (VVMs l n) ShVMs
| sh_snapshot v : has_shape (VSnapshot v) ShSnapshot
| sh_node v : has_shape (VNode v) ShNode
| sh_nodes l n : has_shape (VNodes l n) ShNodes
| sh_image v : has_shape (VImage v) ShImage
| sh_images l n : has_shape (VImages l n) ShImages
| sh_official l : has_shape (VOfficial l (Z.of_nat (length l))) ShOfficial
| sh_flavor v : has_shape (VFlavor v) ShFlavor
| sh_flavors l : has_shape (VFlavors l (Z.of_nat (length l))) ShFlavors
| sh_keypair v : has_shape (VKeypair v) ShKeypair
| sh_keypairs l : has_shape (VKeypairs l (Z.of_nat (length l))) ShKeypairs
| sh_backup v : has_shape (VBackup v) ShBackup
| sh_backups l n : has_shape (VBackups l n) ShBackups
| sh_check v : has_shape (VCheck v) ShCheck.
Create HintDb shapes.
#[export] Hint Constructors has_shape : shapes.

(** What an endpoint answers: on success a status, with a value of a shape or
    without a body; otherwise a message with one of the given statuses.  A stream
    changes the protocol, or is refused with a plain text: by its handler with one
    of the given statuses and texts, or by the upgrade, with a text of its own
    (here empty). *)
Inductive contract :=
| Gives (status : Z) (sh : shape) (errors : list Z)
| Empties (status : Z) (errors : list Z)
| Opens (refusals : list (Z * string))
| Reports.

Definition quoted_error (msg : string) : string := "{" +:+ Quote "error" +:+ ":" +:+ Quote msg +:+ "}".
Definition no_key_text : Z * string := (401%Z, quoted_error "invalid or missing API key").
Definition no_id_text : Z * string := (400%Z, quoted_error "vm_id required").

Definition contract_of (e : endpoint) : contract :=
  match e with
  | EpCreateVM | EpCloneVM => Gives 201 ShVM [400]%Z
  | EpUpdateVM | EpPowerOnVM | EpPowerOffVM | EpRebootVM | EpResizeVM | EpRestoreSnapshot => Gives 200 ShVM [400]%Z
  | EpGetVM => Gives 200 ShVM [404; 500]%Z
  | EpListVMs => Gives 200 ShVMs [500]%Z
  | EpSnapshotVM => Gives 201 ShSnapshot [400]%Z
  | EpRegisterNode => Gives 201 ShNode [400]%Z
  | EpUpdateNode => Gives 200 ShNode [400]%Z
  | EpGetNode => Gives 200 ShNode [404; 500]%Z
  | EpListNodes => Gives 200 ShNodes [500]%Z
  | EpPullOfficialImage | EpImportImage | EpCreateImage => Gives 201 ShImage [400]%Z
  | EpGetImage => Gives 200 ShImage [404; 500]%Z
  | EpListImages => Gives 200 ShImages [500]%Z
  | EpListOfficialImages => Gives 200 ShOfficial []
  | EpCreateFlavor => Gives 201 ShFlavor [400]%Z
  | EpGetFlavor => Gives 200 ShFlavor [404; 500]%Z
  | EpListFlavors => Gives 200 ShFlavors [500]%Z
  | EpCreateKeypair => Gives 201 ShKeypair [400]%Z
  | EpGetKeypair => Gives 200 ShKeypair [404; 500]%Z
  | EpListKeypairs => Gives 200 ShKeypairs [500]%Z
  | EpCreateBackup => Gives 201 ShBackup [400]%Z
  | EpGetBackup => Gives 200 ShBackup [404; 500]%Z
  | EpListBackups => Gives 200 ShBackups [500]%Z
  | EpDeleteVM | EpHeartbeat | EpDeleteImage | EpDeleteFlavor | EpDeleteKeypair | EpDeleteBackup =>
      Empties 204 [400]%Z
  | EpDrainNode | EpRestoreBackup => Empties 202 [400]%Z
  | EpWsLogs | EpWsMetrics => Opens [no_key_text]
  | EpWsConsole | EpWsVMState => Opens [no_key_text; no_id_text]
  | EpLiveness | EpReadiness => Reports
  end.

Definition conforms (c : contract) (resp : Response Value) : Prop :=
  match c, rs_Body resp with
  | Gives st sh _, BJson v => rs_Status resp = st ∧ has_shape v sh
  | Gives _ _ errs, BError _ => rs_Status resp ∈ errs
  | Empties st _, BEmpty => rs_Status resp = st
  | Empties _ errs, BError _ => rs_Status resp ∈ errs
  | Opens _, BEmpty => rs_Status resp = 101%Z
  | Opens refusals, BText t => (rs_Status resp, t) ∈ refusals ∨ (t = "" ∧ 400 ≤ rs_Status resp < 600)%Z
  | Reports, BJson (VCheck ck) =>
      rs_Status resp = (match ck_Status ck with StatusUp => 200 | StatusDown => 503 end)%Z ∧
      (ck_Status ck = StatusUp ↔ ∀ m, ck_Checks ck = Some m → map_Forall (λ _ st, st = StatusUp) m)
  | _, _ => False
  end.

Section contracts.
Context {W : Type} (s : Service W) `{!Upgrader, !UpgraderLaws} (Ping : M W ()) (vk : string).

Lemma answer_conforms {A} c (m : M W A) st (k : A → Response Value) w resp :
  (∀ e, conforms c (WriteError st e)) → (∀ a, conforms c (k a)) →
  (answer m st k w).1 = Ret resp → conforms c resp.
Proof using Type. intros He Hk [[e ->]|[a ->]]%answer_ret; done. Qed.

Lemma body_conforms {A} c (fs : fields A) zero r (k : A → M W (Response Value)) w resp :
  (∀ e, conforms c (WriteError 400 e)) →
  (∀ a, (k a w).1 = Ret resp → conforms c resp) →
  (with_body fs zero r k w).1 = Ret resp → conforms c resp.
Proof using Type. intros He Hk. unfold with_body. destruct (decode_body fs zero r); [apply Hk|intros [= <-]; apply He]. Qed.

Lemma readiness_conforms r w resp :
  (check_value VCheck (Readiness [("database", Ping)] r) w).1 = Ret resp → conforms Reports resp.
Proof using Type.
  unfold check_value, Readiness, readiness_step, mbind, M_bind, attempt. cbn [foldM fst snd].
  unfold mbind, M_bind, attempt. destruct (Ping w) as [[[]|e|] w1]; simpl; intros [= <-]; simpl.
  - split; [done|]. split; [|done]. intros _ m [= <-]. by apply map_Forall_insert_2; [|apply map_Forall_empty].
  - split; [done|]. split; [done|]. intros Hm. specialize (Hm _ eq_refl "database" StatusDown).
    by apply Hm, lookup_insert_eq.
Qed.

Lemma stream_conforms {A} refusals h r (body : A → M W ()) w resp :
  match h with inl x => ∃ st hd t, x = mkResponse st hd (BText t) ∧ (st, t) ∈ refusals | inr _ => True end →
  (stream_reply (V:=Value) h r body w).1 = Ret resp → conforms (Opens refusals) resp.
Proof using All.
  unfold stream_reply. destruct h as [x|[hd a]].
  - intros (st & hd & t & -> & Hin) [= <-]. by left.
  - intros _. destruct (upgrade r) as [st|] eqn:Eu.
    + intros [= <-]. right. split; [done|]. by apply (upgrade_status r).
    + unfold mbind, M_bind. destruct (body a w) as [[]?]; intros [= <-]. done.
Qed.
Lemma logs_refusal r d evs :
  match HandleLogs vk r d evs with inl x => ∃ st hd t, x = mkResponse st hd (BText t) ∧ (st, t) ∈ [no_key_text] | inr _ => True end.
Proof using Type. unfold HandleLogs, open_stream. destruct (negb _); [|done]. eexists _, _, _. split; [reflexivity|]. left. Qed.

Lemma run_conforms e id r w resp :
  (run s Ping vk e id r w).1 = Ret resp → conforms (contract_of e) resp.
Proof using Type*.
  destruct e; cbn [run contract_of]; try (apply readiness_conforms);
    try (apply body_conforms; [intros m; by repeat constructor|intros a]); try destruct a as [[? ?] ?];
    try (apply answer_conforms; [intros m; simpl; set_solver|]).
  all: try (intros ?; simpl; split; [done|solve [auto with shapes]]).
  all: try (intros [?|]; simpl; [split; [done|by auto with shapes]|set_solver]).
  all: try (by intros []).
  - intros [= <-]. simpl. split; [done|auto with shapes].
  - apply stream_conforms. apply logs_refusal.
  - apply stream_conforms. unfold HandleConsole. destruct (negb _); [eexists _, _, _; split; [reflexivity|left]|].
    destruct (String.eqb _ _); [|done]. eexists _, _, _. split; [reflexivity|]. right. left.
  - apply stream_conforms. unfold open_stream. destruct (negb _); [|done]. eexists _, _, _. split; [reflexivity|left].
  - apply stream_conforms. unfold HandleVMStateWs. destruct (negb _); [eexists _, _, _; split; [reflexivity|left]|].
    destruct (String.eqb _ _); [|done]. eexists _, _, _. split; [reflexivity|]. right. left.
  - intros [= <-]. simpl. split; [done|]. split; [|done]. by intros _ m [=].
Qed.
End contracts.

(** The paths of the health lead to the health. *)
Lemma health_route method pattern e path id : (method, pattern, e) ∈ server_routes → names pattern path id →
  health_path path = true → e = EpLiveness ∨ e = EpReadiness.
Proof.
  intros Hin (params & Hm & _) Hh.
  assert (Hall : forallb (λ t : string * string * endpoint,
    match t.2 with EpLiveness | EpReadiness => true | _ =>
      forallb (λ path, match matches t.1.2 path with None => true | Some _ => false end) ["/health"; "/health/live"; "/health/ready"]
    end) server_routes = true) by (vm_compute; reflexivity).
  rewrite forallb_forall in Hall. specialize (Hall _ (proj1 (list_elem_of_In _ _) Hin)). cbn [fst snd] in Hall.
  assert (Hp : path ∈ ["/health"; "/health/live"; "/health/ready"]).
  { clear -Hh. unfold health_path in Hh. apply orb_prop in Hh as [[->%String.eqb_eq| ->%String.eqb_eq]%orb_prop| ->%String.eqb_eq].
    - left.
    - right; left.
    - right; right; left. }
  destruct e; (try by left); (try by right); exfalso; rewrite forallb_forall in Hall;
    specialize (Hall _ (proj1 (list_elem_of_In _ _) Hp)); by rewrite Hm in Hall.
Qed.

(** * The properties *)
Section properties.
Context {W : Type} (abs : W → Abs) (key : string → string) (s : Service W).
Context `{!ServiceLaws abs key s} {router : Router} {HR : RouterLaws} {upgrader : Upgrader} {HU : UpgraderLaws}.
Context (Ping : M W ()) (HPing : idle abs Ping).

(** What the chain in front of the endpoints does to the world of one. *)
Lemma behind_cors (h : M W (Response Value)) w :
  ((resp ← h; mret (add_headers cors_headers resp)) w).2 = (h w).2.
Proof using Type. unfold mbind, M_bind. by destruct (h w) as [[] ?]. Qed.

Lemma http_lifecycle k r w :
  let w' := (http_server s Ping k r w).2 in
  w' = w ∨ ∃ pattern e id,
    (rq_Method r, pattern, e) ∈ server_routes ∧ names pattern (rq_Path r) id ∧ rq_Method r ≠ MethodOptions ∧
    (health_path (rq_Path r) = true ∨ (k ≠ "" ∧ presents r k)) ∧
    lc_step (op_at key e id r) (statuses (abs w)) (statuses (abs w')) ∧
    ∀ j, statuses (abs w') !! j ≠ statuses (abs w) !! j → named_machine key e id r (abs w) j.
Proof using ServiceLaws0 HR HPing.
  intros w'. destruct (server_cases s Ping k r w) as [(st & h & b & E & _)|(p & e & id & Hin & Hid & Hm & Hk & E)].
  - left. unfold w'. by rewrite E.
  - right. exists p, e, id. split_and!; [done|done|done|done|..]; unfold w'; rewrite E, behind_cors.
    + apply (run_step abs key s Ping HPing).
    + intros j Hj. by apply (run_touches abs key s Ping HPing k).
Qed.

(** C2: The HTTP interface refines the life cycle of machines: whatever a client
    sends and whatever fails on the way, either nothing happens, or the request
    is a non-preflight request that may pass the key check (or asks for the
    health), the router found its endpoint in the table under the method of the
    request and with a pattern that matches its path, and the stored statuses make
    one step of the life cycle that belongs to this endpoint, with the force flag
    of the query.  The only machine whose status may change is the one in the
    path; for a creation or a clone a new one; for a restore of a snapshot the
    machine of the snapshot in the body, and for a restore of a backup the machine
    in the body, whatever the path says. *)
Theorem http_refines_lifecycle k r w :
  let w' := (http_server s Ping k r w).2 in
  w' = w ∨ ∃ pattern e id,
    (rq_Method r, pattern, e) ∈ server_routes ∧ names pattern (rq_Path r) id ∧ rq_Method r ≠ MethodOptions ∧
    (health_path (rq_Path r) = true ∨ (k ≠ "" ∧ presents r k)) ∧
    lc_step (op_at key e id r) (statuses (abs w)) (statuses (abs w')) ∧
    ∀ j, statuses (abs w') !! j ≠ statuses (abs w) !! j → named_machine key e id r (abs w) j.
Proof using ServiceLaws0 HR HPing. apply http_lifecycle. Qed.

(** C7: GET requests are safe: whatever a client asks for, streams included, and
    whatever fails on the way, a GET changes nothing the control plane stores: no
    machine, node, image, flavor, key, snapshot, backup or address. *)
Theorem get_requests_are_safe k r w :
  rq_Method r = "GET" → abs (http_server s Ping k r w).2 = abs w.
Proof using ServiceLaws0 HR HPing.
  intros Em. destruct (server_cases s Ping k r w) as [(st & h & b & E & _)|(p & e & id & Hin & _ & _ & _ & E)]; rewrite E; [done|].
  rewrite Em in Hin. rewrite behind_cors. by apply (run_reading abs key s Ping HPing k e id r w), (get_reading p).
Qed.

Lemma health_answers k e id r w : e = EpLiveness ∨ e = EpReadiness →
  ∃ resp, (run s Ping k e id r w).1 = Ret resp ∧ conforms Reports resp.
Proof using HPing HU.
  intros He. assert (∃ resp, (run s Ping k e id r w).1 = Ret resp) as [resp E].
  { destruct He as [-> | ->]; cbn [run]; [simpl; eauto|].
    destruct (answers_check (λ _, True) VCheck [("database", Ping)] r w) as (resp & E & _); [|done|by exists resp].
    intros c ->%list_elem_of_singleton w0 _. split; [|done]. apply (HPing w0). }
  exists resp. split; [done|]. pose proof (run_conforms s Ping k e id r w resp E) as Hc. by destruct He as [-> | ->].
Qed.

Lemma refused_without_key k r : health_path (rq_Path r) = false → ¬ (k ≠ "" ∧ presents r k) →
  ∃ resp, (∀ w, http_server s Ping k r w = (Ret resp, w)) ∧
    (rs_Status resp = 204 ∨ rs_Status resp = 401 ∨ rs_Status resp = 500)%Z ∧
    ∀ v, rs_Body resp ≠ BJson v.
Proof using Type.
  intros Hh Hk. unfold http_server, CORS. destruct (String.eqb _ _).
  { eexists. split; [done|]. by split; [left|]. }
  destruct (String.eqb_spec k "") as [->|Hne].
  - eexists (add_headers cors_headers (json_error 500 "API key not configured on server")).
    split; [|by split; [right; right|]]. intros w. unfold mbind, M_bind.
    destruct (require_key_spec "" (serve_table server_routes (run s Ping "")) r w Hh) as [(? & _)|[(? & _)|(_ & E)]]; [done..|].
    by rewrite E.
  - eexists (add_headers cors_headers (json_error 401 "invalid or missing API key")).
    split; [|by split; [right; left|]]. intros w. unfold mbind, M_bind.
    destruct (require_key_spec k (serve_table server_routes (run s Ping k)) r w Hh) as [(? & ? & _)|[(_ & _ & E)|(? & _)]]; [naive_solver| |done].
    by rewrite E.
Qed.

(** C5: A request that does not present the configured key, in any of the ways
    the middleware knows, changes nothing that is stored.  Unless it asks for the
    health it is answered with a fixed status (401, or 500 when no key is
    configured, or 204 for a preflight request) and a fixed message, whatever is
    stored; the paths of the health are open to all and answer with a report, or
    as a preflight or by the router. *)
Theorem no_key_no_effect k r :
  ¬ (k ≠ "" ∧ presents r k) →
  (∀ w, abs (http_server s Ping k r w).2 = abs w) ∧
  (health_path (rq_Path r) = false →
   ∃ resp, (∀ w, http_server s Ping k r w = (Ret resp, w)) ∧
     (rs_Status resp = 204 ∨ rs_Status resp = 401 ∨ rs_Status resp = 500)%Z ∧
     ∀ v, rs_Body resp ≠ BJson v) ∧
  (health_path (rq_Path r) = true → ∀ w, ∃ resp, (http_server s Ping k r w).1 = Ret resp ∧
     (conforms Reports resp ∨ rs_Body resp = BEmpty ∨ rs_Body resp = BText "")).
Proof using Type*.
  intros Hk. split_and!.
  - intros w. destruct (server_cases s Ping k r w) as [(st & h & b & E & _)|(p & e & id & Hin & Hid & _ & [Hh|?] & E)]; rewrite E; [done| |done].
    rewrite behind_cors. apply (run_reading abs key s Ping HPing k e id r w).
    by destruct (health_route _ _ _ _ _ Hin Hid Hh) as [-> | ->].
  - intros Hh. by apply refused_without_key.
  - intros Hh w. destruct (server_cases s Ping k r w) as [(st & h & b & E & Hor)|(p & e & id & Hin & Hid & _ & _ & E)]; rewrite E.
    + eexists. split; [reflexivity|]. right. simpl. destruct Hor as [(_ & _ & ->)|[(_ & Hf & _)|(_ & ->)]]; [by left|congruence|by right].
    + destruct (health_answers k e id r w (health_route _ _ _ _ _ Hin Hid Hh)) as (resp & Er & Hc).
      exists (add_headers cors_headers resp). unfold mbind, M_bind. destruct (run s Ping k e id r w) as [o w1]. simpl in Er. subst o.
      split; [done|]. by left.
Qed.

(** C6: Every request is answered, and every answer is well typed.  When the
    addresses stored are blocks of IPv4 addresses (as the allocator writes them)
    no request panics before its answer (that of a stream is the upgrade, and what
    the control plane reads for it afterwards does not panic either).  An answer of the server is the one to a preflight request
    (204), the key check's (401, or 500), the router's own (404 or 405), or keeps
    the contract of an endpoint of the table under the method of the request: a
    success carries the promised status and a value of the promised shape (or no
    body), a failure a message with one of the statuses the endpoint may fail
    with, and a stream changes the protocol or is refused with a text. *)
Theorem answers_typed k r w :
  (addresses_ok (abs w) → ∃ resp, (http_server s Ping k r w).1 = Ret resp) ∧
  ∀ resp, (http_server s Ping k r w).1 = Ret resp →
    (rs_Status resp = 204 ∧ rq_Method r = MethodOptions ∧ rs_Body resp = BEmpty)%Z ∨
    ((rs_Status resp = 401 ∨ rs_Status resp = 500)%Z ∧ ∃ msg, rs_Body resp = BError msg) ∨
    ((rs_Status resp = 404 ∨ rs_Status resp = 405)%Z ∧ rs_Body resp = BText "") ∨
    ∃ pattern e, (rq_Method r, pattern, e) ∈ server_routes ∧ conforms (contract_of e) resp.
Proof using Type*.
  destruct (server_cases s Ping k r w) as [(st & h & b & E & Hor)|(p & e & id & Hin & _ & _ & _ & E)]; rewrite E; clear E.
  - split; [by eauto|]. intros resp [= <-]. simpl. destruct Hor as [(? & ? & ?)|[(? & _ & _ & ?)|(? & ?)]].
    + by left.
    + by right; left.
    + by right; right; left.
  - unfold mbind, M_bind. split.
    + intros Ha. destruct (run_answers abs key s Ping HPing k e id r w Ha) as [resp Er].
      destruct (run s Ping k e id r w) as [o w1]. simpl in Er. subst o. simpl. eauto.
    + intros resp Hr. do 3 right. exists p, e. split; [done|].
      pose proof (run_conforms s Ping k e id r w) as Hc. destruct (run s Ping k e id r w) as [[rs| |] w1]; [|done|done].
      injection Hr as <-. exact (Hc rs eq_refl).
Qed.
End properties.
