(* ===== verification/StorageHandlers.v ===== *)
(** [services/storage/handler/handler.go]: the HTTP interface of the storage
    service and the chain of [cmd/storage-manager/main.go].

    Theorem: whatever requests arrive over HTTP and whatever fails, each is
    answered and the tables keep their constraints. *)
From stdpp Require Import base gmap strings list numbers.
From S2P Require Import Prelude.
From S2P Require Import GoStd.
From S2P Require Import GoJson.
From S2P Require Import PgControl.
From S2P Require Import Requests.
From S2P Require Import Http.
From S2P Require Import Qcow2.
From S2P Require Import Storage.
From S2P Require Import StorageProofs.
From stdpp Require Import options.

Definition CreatePoolRequest_fields : fields CreatePoolRequest := [
  ("name", field cp_Name (λ x r, mkCreatePool x (cp_Driver r) (cp_Path r) (cp_Encrypted r) (cp_Config r))
     into_string);
  ("driver", field cp_Driver (λ x r, mkCreatePool (cp_Name r) x (cp_Path r) (cp_Encrypted r) (cp_Config r))
     into_string);
  ("path", field cp_Path (λ x r, mkCreatePool (cp_Name r) (cp_Driver r) x (cp_Encrypted r) (cp_Config r))
     into_string);
  ("encrypted", field cp_Encrypted (λ x r, mkCreatePool (cp_Name r) (cp_Driver r) (cp_Path r) x (cp_Config
     r)) into_bool);
  ("config", field cp_Config (λ x r, mkCreatePool (cp_Name r) (cp_Driver r) (cp_Path r) (cp_Encrypted r) x)
     into_labels)
].

Definition CreateVolumeRequest_fields : fields CreateVolumeRequest := [
  ("name", field cv_Name (λ x r, mkCreateVolume x (cv_PoolID r) (cv_SizeBytes r) (cv_Encrypted r) (cv_Labels
     r)) into_string);
  ("pool_id", field cv_PoolID (λ x r, mkCreateVolume (cv_Name r) x (cv_SizeBytes r) (cv_Encrypted r)
     (cv_Labels r)) into_string);
  ("size_bytes", field cv_SizeBytes (λ x r, mkCreateVolume (cv_Name r) (cv_PoolID r) x (cv_Encrypted r)
     (cv_Labels r)) into_int64);
  ("encrypted", field cv_Encrypted (λ x r, mkCreateVolume (cv_Name r) (cv_PoolID r) (cv_SizeBytes r) x
     (cv_Labels r)) into_bool);
  ("labels", field cv_Labels (λ x r, mkCreateVolume (cv_Name r) (cv_PoolID r) (cv_SizeBytes r) (cv_Encrypted
     r) x) into_labels)
].

Definition size_fields : fields Z := [("size_bytes", field id (λ x _, x) into_int64)].
Definition name_fields : fields string := [("name", field id (λ x _, x) into_string)].

Inductive SValue :=
| SvPool (p : StoragePool)
| SvPools (l : list StoragePool)
| SvVolume (v : Volume)
| SvVolumes (l : list Volume) (total page perPage : Z)
| SvSnapshot (s : VolumeSnapshot)
| SvMessage (msg : string)
| SvCheck (c : Check).

Inductive storage_endpoint :=
| SeCreatePool | SeListPools | SeGetPool | SeCreateVolume | SeListVolumes | SeGetVolume | SeDeleteVolume
| SeResizeVolume | SeCloneVolume | SeCreateSnapshot | SeDeleteSnapshot | SeRestoreSnapshot
| SeLiveness | SeReadiness.

(** [RegisterRoutes] *)
Definition storage_api : table storage_endpoint := [
  ("POST", "/api/v1/storage/pools", SeCreatePool);
  ("GET", "/api/v1/storage/pools", SeListPools);
  ("GET", "/api/v1/storage/pools/{id}", SeGetPool);
  ("POST", "/api/v1/storage/volumes", SeCreateVolume);
  ("GET", "/api/v1/storage/volumes", SeListVolumes);
  ("GET", "/api/v1/storage/volumes/{id}", SeGetVolume);
  ("DELETE", "/api/v1/storage/volumes/{id}", SeDeleteVolume);
  ("PUT", "/api/v1/storage/volumes/{id}/resize", SeResizeVolume);
  ("POST", "/api/v1/storage/volumes/{id}/clone", SeCloneVolume);
  ("POST", "/api/v1/storage/volumes/{id}/snapshots", SeCreateSnapshot);
  ("DELETE", "/api/v1/storage/snapshots/{id}", SeDeleteSnapshot);
  ("POST", "/api/v1/storage/snapshots/{id}/restore", SeRestoreSnapshot)].
Definition storage_routes : table storage_endpoint :=
  storage_api ++ Handle "/health/live" SeLiveness ++ Handle "/health/ready" SeReadiness.

(** A page number or size that is not positive is replaced. *)
Definition positive_or (d n : Z) : Z := if (n <=? 0)%Z then d else n.

Section handlers.
Context {U : Type} `{Pg U} `{InfoJSON}.
Implicit Types (r : Request) (id : string).
Local Abbreviation SW := (SWorld (U:=U)).
Local Abbreviation bad := StatusBadRequest.
Local Abbreviation ise := StatusInternalServerError.

Definition sh_CreatePool r : M SW (Response SValue) :=
  with_body CreatePoolRequest_fields (mkCreatePool "" "" "" false None) r (λ req,
  answer (CreatePool req) bad (created SvPool)).
Definition sh_GetPool id : M SW (Response SValue) :=
  answer (GetPool id) StatusNotFound (found "pool not found" SvPool).
Definition sh_ListPools : M SW (Response SValue) := answer ListPools ise (ok SvPools).

Definition sh_CreateVolume r : M SW (Response SValue) :=
  with_body CreateVolumeRequest_fields (mkCreateVolume "" "" 0 false None) r (λ req,
  answer (CreateVolume req) bad (created SvVolume)).
Definition sh_GetVolume id : M SW (Response SValue) :=
  answer (GetVolume id) StatusNotFound (found "volume not found" SvVolume).
Definition sh_ListVolumes r : M SW (Response SValue) :=
  let page := positive_or 1 (query_int r "page") in
  let perPage := positive_or 20 (query_int r "per_page") in
  answer (ListVolumes (mkVolumeFilter (query r "pool_id") page perPage)) ise
    (λ lt, WriteJSON StatusOK (SvVolumes lt.1 lt.2 page perPage)).
Definition sh_DeleteVolume id r : M SW (Response SValue) :=
  answer (DeleteVolume id (ParseBool (query r "force"))) bad (λ _, WriteJSON StatusOK (SvMessage "volume deleted")).
Definition sh_ResizeVolume id r : M SW (Response SValue) :=
  with_body size_fields 0%Z r (λ n, answer (ResizeVolume id n) bad (ok SvVolume)).
Definition sh_CloneVolume id r : M SW (Response SValue) :=
  with_body name_fields "" r (λ name, answer (CloneVolume id name) bad (created SvVolume)).
Definition sh_CreateSnapshot id r : M SW (Response SValue) :=
  with_body name_fields "" r (λ name, answer (CreateSnapshot id name) bad (created SvSnapshot)).
Definition sh_DeleteSnapshot id : M SW (Response SValue) :=
  answer (DeleteVolumeSnapshot id) bad (λ _, WriteJSON StatusOK (SvMessage "snapshot deleted")).
Definition sh_RestoreSnapshot id : M SW (Response SValue) :=
  answer (RestoreVolumeSnapshot id) bad (ok SvVolume).

Context (Ping : M SW ()).
Definition storage_run (e : storage_endpoint) (id : string) : Handler SW SValue := λ r,
  match e with
  | SeCreatePool => sh_CreatePool r
  | SeListPools => sh_ListPools
  | SeGetPool => sh_GetPool id
  | SeCreateVolume => sh_CreateVolume r
  | SeListVolumes => sh_ListVolumes r
  | SeGetVolume => sh_GetVolume id
  | SeDeleteVolume => sh_DeleteVolume id r
  | SeResizeVolume => sh_ResizeVolume id r
  | SeCloneVolume => sh_CloneVolume id r
  | SeCreateSnapshot => sh_CreateSnapshot id r
  | SeDeleteSnapshot => sh_DeleteSnapshot id
  | SeRestoreSnapshot => sh_RestoreSnapshot id
  | SeLiveness => check_value SvCheck (Liveness r)
  | SeReadiness => check_value SvCheck (Readiness [("database", Ping)] r)
  end.

Definition storage_server `{Router} (validKey : string) : Handler SW SValue :=
  key_first validKey storage_routes storage_run.
End handlers.

Section proofs.
Context {U : Type} `{PgLaws U} `{InfoJSON} `{Router}.
Local Abbreviation SW := (SWorld (U:=U)).
Local Abbreviation tables_wf := (λ w : SW, wf (s_db w)).

Lemma safe_keeps {A} (m : M SW A) : safe m → keeps_op tables_wf m.
Proof using Type.
  intros Hm w Hw. eapply wp_mono; [by apply Hm|]. by intros [] w'.
Qed.
Lemma forget_keeps {A} (m : M SW A) : safe (_ ← m; mret ()) → keeps_op tables_wf m.
Proof using Type.
  intros Hm w Hw. specialize (Hm w Hw I). unfold wp, wf_post, mbind, M_bind in *.
  by destruct (m w) as [[] w'].
Qed.

Context (Ping : M SW ()) (HPing : keeps_op tables_wf Ping).

Lemma storage_run_inv e id : keeps_inv tables_wf (storage_run Ping e id).
Proof using Type*.
  intros r w Hw. pose proof (λ p v f, quiet_reads (U:=U) p v f) as Hq.
  destruct e; cbn [storage_run]; try (apply (answers_body tables_wf); [done|intros a]);
    try (by apply (answers_check tables_wf); [intros c ->%list_elem_of_singleton|]);
    try (apply (answers_op tables_wf); [|done]).
  - apply forget_keeps, (sserve_safe (RqCreatePool a)).
  - apply safe_keeps, quiet_safe, (Hq "" "" (mkVolumeFilter "" 0 0)).
  - apply safe_keeps, quiet_safe, (Hq id "" (mkVolumeFilter "" 0 0)).
  - apply forget_keeps, (sserve_safe (RqCreateVolume a)).
  - apply safe_keeps, quiet_safe, (Hq "" "").
  - apply safe_keeps, quiet_safe, (Hq "" id (mkVolumeFilter "" 0 0)).
  - apply safe_keeps, (sserve_safe (RqDeleteVolume id _)).
  - apply forget_keeps, (sserve_safe (RqResizeVolume id a)).
  - apply forget_keeps, (sserve_safe (RqCloneVolume id a)).
  - apply forget_keeps, (sserve_safe (RqCreateSnapshot id a)).
  - apply safe_keeps, (sserve_safe (RqDeleteSnapshot id)).
  - apply forget_keeps, (sserve_safe (RqRestoreSnapshot id)).
  - simpl. eauto.
Qed.

(** C8: Whatever requests arrive over HTTP, with whatever bodies, and whatever
    statements and commands fail, the storage service answers every one of them
    (no handler panics) and its tables keep their constraints. *)
Theorem storage_http_safe k rs (w : SW) : wf (s_db w) →
  wf (s_db (serve_all (storage_server Ping k) rs w).2) ∧
  Forall (λ o, ∃ resp, o = Ret resp) (serve_all (storage_server Ping k) rs w).1.
Proof using Type*.
  intros Hw. apply (serve_all_inv tables_wf); [|done].
  apply RequireAPIKey_inv, CORS_inv, serve_table_inv, storage_run_inv.
Qed.
End proofs.
