(* ===== verification/NetworkHandlers.v ===== *)
(** [services/network/handler/handler.go]: the HTTP interface of the network
    service and the chain of [cmd/networking-engine/main.go].

    Theorem: whatever requests arrive over HTTP and whatever fails, each is
    answered and the tables keep their constraints. *)
From stdpp Require Import base gmap strings list numbers.
From S2P Require Import Prelude.
From S2P Require Import GoStd.
From S2P Require Import GoJson.
From S2P Require Import PgControl.
From S2P Require Import Requests.
From S2P Require Import Http.
From S2P Require Import Network.
From S2P Require Import NetworkProofs.
From stdpp Require Import options.

Definition CreateNetworkRequest_fields : fields CreateNetworkRequest := [
  ("name", field cn_Name (λ x r, mkCreateNetwork x (cn_OrganizationID r) (cn_CIDR r) (cn_IPv6CIDR r)
     (cn_InternetGateway r)) into_string);
  ("organization_id", field cn_OrganizationID (λ x r, mkCreateNetwork (cn_Name r) x (cn_CIDR r) (cn_IPv6CIDR
     r) (cn_InternetGateway r)) into_string);
  ("cidr", field cn_CIDR (λ x r, mkCreateNetwork (cn_Name r) (cn_OrganizationID r) x (cn_IPv6CIDR r)
     (cn_InternetGateway r)) into_string);
  ("ipv6_cidr", field cn_IPv6CIDR (λ x r, mkCreateNetwork (cn_Name r) (cn_OrganizationID r) (cn_CIDR r) x
     (cn_InternetGateway r)) into_string);
  ("internet_gateway", field cn_InternetGateway (λ x r, mkCreateNetwork (cn_Name r) (cn_OrganizationID r)
     (cn_CIDR r) (cn_IPv6CIDR r) x) into_bool)
].

Definition CreateFirewallRuleRequest_fields : fields CreateFirewallRuleRequest := [
  ("network_id", field cf_NetworkID (λ x r, mkCreateRule x (cf_Name r) (cf_Priority r) (cf_Action r)
     (cf_Direction r) (cf_SourceCIDRs r) (cf_DestinationCIDRs r) (cf_Protocol r) (cf_PortMin r) (cf_PortMax
     r)) into_string);
  ("name", field cf_Name (λ x r, mkCreateRule (cf_NetworkID r) x (cf_Priority r) (cf_Action r) (cf_Direction
     r) (cf_SourceCIDRs r) (cf_DestinationCIDRs r) (cf_Protocol r) (cf_PortMin r) (cf_PortMax r))
     into_string);
  ("priority", field cf_Priority (λ x r, mkCreateRule (cf_NetworkID r) (cf_Name r) x (cf_Action r)
     (cf_Direction r) (cf_SourceCIDRs r) (cf_DestinationCIDRs r) (cf_Protocol r) (cf_PortMin r) (cf_PortMax
     r)) into_int32);
  ("action", field cf_Action (λ x r, mkCreateRule (cf_NetworkID r) (cf_Name r) (cf_Priority r) x
     (cf_Direction r) (cf_SourceCIDRs r) (cf_DestinationCIDRs r) (cf_Protocol r) (cf_PortMin r) (cf_PortMax
     r)) into_string);
  ("direction", field cf_Direction (λ x r, mkCreateRule (cf_NetworkID r) (cf_Name r) (cf_Priority r)
     (cf_Action r) x (cf_SourceCIDRs r) (cf_DestinationCIDRs r) (cf_Protocol r) (cf_PortMin r) (cf_PortMax
     r)) into_string);
  ("source_cidrs", field cf_SourceCIDRs (λ x r, mkCreateRule (cf_NetworkID r) (cf_Name r) (cf_Priority r)
     (cf_Action r) (cf_Direction r) x (cf_DestinationCIDRs r) (cf_Protocol r) (cf_PortMin r) (cf_PortMax r))
     into_tags);
  ("destination_cidrs", field cf_DestinationCIDRs (λ x r, mkCreateRule (cf_NetworkID r) (cf_Name r)
     (cf_Priority r) (cf_Action r) (cf_Direction r) (cf_SourceCIDRs r) x (cf_Protocol r) (cf_PortMin r)
     (cf_PortMax r)) into_tags);
  ("protocol", field cf_Protocol (λ x r, mkCreateRule (cf_NetworkID r) (cf_Name r) (cf_Priority r) (cf_Action
     r) (cf_Direction r) (cf_SourceCIDRs r) (cf_DestinationCIDRs r) x (cf_PortMin r) (cf_PortMax r))
     into_string);
  ("port_min", field cf_PortMin (λ x r, mkCreateRule (cf_NetworkID r) (cf_Name r) (cf_Priority r) (cf_Action
     r) (cf_Direction r) (cf_SourceCIDRs r) (cf_DestinationCIDRs r) (cf_Protocol r) x (cf_PortMax r))
     (into_ptr into_int32 0%Z));
  ("port_max", field cf_PortMax (λ x r, mkCreateRule (cf_NetworkID r) (cf_Name r) (cf_Priority r) (cf_Action
     r) (cf_Direction r) (cf_SourceCIDRs r) (cf_DestinationCIDRs r) (cf_Protocol r) (cf_PortMin r) x)
     (into_ptr into_int32 0%Z))
].

Definition network_req_zero : CreateNetworkRequest := mkCreateNetwork "" "" "" "" false.
Definition rule_req_zero : CreateFirewallRuleRequest := mkCreateRule "" "" 0 "" "" None None "" None None.
Definition rule_set_network (n : string) (r : CreateFirewallRuleRequest) : CreateFirewallRuleRequest :=
  mkCreateRule n (cf_Name r) (cf_Priority r) (cf_Action r) (cf_Direction r) (cf_SourceCIDRs r)
    (cf_DestinationCIDRs r) (cf_Protocol r) (cf_PortMin r) (cf_PortMax r).

(** The anonymous structs. *)
Definition subnet_fields : fields (string * string * bool) := [
  ("name", field (λ r, r.1.1) (λ x r, (x, r.1.2, r.2)) into_string);
  ("cidr", field (λ r, r.1.2) (λ x r, (r.1.1, x, r.2)) into_string);
  ("dhcp", field (λ r, r.2) (λ x r, (r.1, x)) into_bool)].
Definition floating_fields : fields (string * string) := [
  ("network_id", field (λ r, r.1) (λ x r, (x, r.2)) into_string);
  ("vm_id", field (λ r, r.2) (λ x r, (r.1, x)) into_string)].

Inductive NValue :=
| NvNetwork (n : PrivateNetwork)
| NvNetworks (l : list PrivateNetwork) (total page perPage : Z)
| NvSubnet (s : Subnet)
| NvRule (r : FirewallRule)
| NvFloating (f : FloatingIP)
| NvFloatings (l : list FloatingIP) (total : Z)
| NvMessage (msg : string)
| NvCheck (c : Check).

Inductive network_endpoint :=
| NeCreateNetwork | NeListNetworks | NeGetNetwork | NeDeleteNetwork | NeCreateSubnet | NeDeleteSubnet
| NeCreateFirewallRule | NeDeleteFirewallRule | NeAllocateFloatingIP | NeListFloatingIPs | NeReleaseFloatingIP
| NeLiveness | NeReadiness.

(** [RegisterRoutes] *)
Definition network_api : table network_endpoint := [
  ("POST", "/api/v1/networks", NeCreateNetwork);
  ("GET", "/api/v1/networks", NeListNetworks);
  ("GET", "/api/v1/networks/{id}", NeGetNetwork);
  ("DELETE", "/api/v1/networks/{id}", NeDeleteNetwork);
  ("POST", "/api/v1/networks/{id}/subnets", NeCreateSubnet);
  ("DELETE", "/api/v1/subnets/{id}", NeDeleteSubnet);
  ("POST", "/api/v1/networks/{id}/firewall-rules", NeCreateFirewallRule);
  ("DELETE", "/api/v1/firewall-rules/{id}", NeDeleteFirewallRule);
  ("POST", "/api/v1/floating-ips", NeAllocateFloatingIP);
  ("GET", "/api/v1/floating-ips", NeListFloatingIPs);
  ("DELETE", "/api/v1/floating-ips/{id}", NeReleaseFloatingIP)].
Definition network_routes : table network_endpoint :=
  network_api ++ Handle "/health/live" NeLiveness ++ Handle "/health/ready" NeReadiness.

Section handlers.
Context {U : Type} `{Pg U} `{InetWithin}.
Implicit Types (r : Request) (id : string).
Local Abbreviation NW := (NWorld (U:=U)).
Local Abbreviation bad := StatusBadRequest.
Local Abbreviation ise := StatusInternalServerError.
Local Abbreviation positive_or d n := (if (n <=? 0)%Z then d else n%Z).

Definition nh_CreateNetwork r : M NW (Response NValue) :=
  with_body CreateNetworkRequest_fields network_req_zero r (λ req,
  answer (CreateNetwork req) bad (created NvNetwork)).
Definition nh_GetNetwork id : M NW (Response NValue) := answer (GetNetwork id) StatusNotFound (ok NvNetwork).
Definition nh_ListNetworks r : M NW (Response NValue) :=
  let page := positive_or 1%Z (query_int r "page") in
  let perPage := positive_or 20%Z (query_int r "per_page") in
  answer (ListNetworks (mkNetFilter (query r "organization_id") page perPage)) ise
    (λ lt, WriteJSON StatusOK (NvNetworks lt.1 lt.2 page perPage)).
Definition nh_DeleteNetwork id : M NW (Response NValue) :=
  answer (DeleteNetwork id) bad (λ _, WriteJSON StatusOK (NvMessage "network deleted")).
Definition nh_CreateSubnet id r : M NW (Response NValue) :=
  with_body subnet_fields ("", "", false) r (λ req,
  answer (CreateSubnet id req.1.1 req.1.2 req.2) bad (created NvSubnet)).
Definition nh_DeleteSubnet id : M NW (Response NValue) :=
  answer (DeleteSubnet id) bad (λ _, WriteJSON StatusOK (NvMessage "subnet deleted")).
Definition nh_CreateFirewallRule id r : M NW (Response NValue) :=
  with_body CreateFirewallRuleRequest_fields rule_req_zero r (λ req,
  answer (CreateFirewallRule (rule_set_network id req)) bad (created NvRule)).
Definition nh_DeleteFirewallRule id : M NW (Response NValue) :=
  answer (DeleteFirewallRule id) bad (λ _, WriteJSON StatusOK (NvMessage "firewall rule deleted")).
Definition nh_AllocateFloatingIP r : M NW (Response NValue) :=
  with_body floating_fields ("", "") r (λ req, answer (AllocateFloatingIP req.1 req.2) bad (created NvFloating)).
Definition nh_ReleaseFloatingIP id : M NW (Response NValue) :=
  answer (ReleaseFloatingIP id) bad (λ _, WriteJSON StatusOK (NvMessage "floating IP released")).
Definition nh_ListFloatingIPs : M NW (Response NValue) := answer ListFloatingIPs ise (whole NvFloatings).

Context (Ping : M NW ()).
Definition network_run (e : network_endpoint) (id : string) : Handler NW NValue := λ r,
  match e with
  | NeCreateNetwork => nh_CreateNetwork r
  | NeListNetworks => nh_ListNetworks r
  | NeGetNetwork => nh_GetNetwork id
  | NeDeleteNetwork => nh_DeleteNetwork id
  | NeCreateSubnet => nh_CreateSubnet id r
  | NeDeleteSubnet => nh_DeleteSubnet id
  | NeCreateFirewallRule => nh_CreateFirewallRule id r
  | NeDeleteFirewallRule => nh_DeleteFirewallRule id
  | NeAllocateFloatingIP => nh_AllocateFloatingIP r
  | NeListFloatingIPs => nh_ListFloatingIPs
  | NeReleaseFloatingIP => nh_ReleaseFloatingIP id
  | NeLiveness => check_value NvCheck (Liveness r)
  | NeReadiness => check_value NvCheck (Readiness [("database", Ping)] r)
  end.

Definition network_server `{Router} (validKey : string) : Handler NW NValue :=
  key_first validKey network_routes network_run.
End handlers.

Section proofs.
Context {U : Type} `{PgLaws U} `{InetWithin} `{Router}.
Local Abbreviation NW := (NWorld (U:=U)).
Local Abbreviation tables_wf := (λ w : NW, nwf (n_db w)).

Lemma nsafe_keeps {A} (m : M NW A) : nsafe m → keeps_op tables_wf m.
Proof using Type. intros Hm w Hw. eapply wp_mono; [by apply Hm|]. by intros [] w'. Qed.
Lemma nforget_keeps {A} (m : M NW A) : nsafe (_ ← m; mret ()) → keeps_op tables_wf m.
Proof using Type.
  intros Hm w Hw. specialize (Hm w Hw). unfold wp, mbind, M_bind in *. by destruct (m w) as [[] w'].
Qed.

(** The reads. *)
Lemma nquiet_get_network id : nquiet (U:=U) (GetNetwork id).
Proof using Type.
  unfold GetNetwork. apply nquiet_bind; [apply nquiet_wrap, nquiet_net_get|].
  intros [n|]; [apply nquiet_ret|apply nquiet_fail].
Qed.
Lemma q_net_no_panic f (d : NDB (U:=U)) : q_net_matching f d ≠ Panic.
Proof using Type.
  unfold q_net_matching. destruct (String.eqb _ ""); [done|]. pose proof (n_uuid_arg_no_panic (U:=U) (ntf_OrganizationID f)).
  by destruct (uuid_arg (ntf_OrganizationID f)).
Qed.
Lemma nquiet_list_networks f : nquiet (U:=U) (ListNetworks f).
Proof using Type.
  unfold ListNetworks, NetworkRepo_List. set (f' := mkNetFilter _ _ _).
  apply nquiet_bind; [apply nquiet_query|intros total; apply nquiet_bind; [apply nquiet_query|intros nets]].
  - intros d. pose proof (q_net_no_panic f' d). by destruct (q_net_matching f' d).
  - intros d. pose proof (q_net_no_panic f' d). destruct (q_net_matching f' d); [|done|done]. simpl.
    apply page_slice_np.
  - apply nquiet_bind; [by apply nquiet_query|intros; apply nquiet_ret].
Qed.
Lemma nquiet_list_floating : nquiet (U:=U) ListFloatingIPs.
Proof using Type.
  apply nquiet_bind; [apply nquiet_query; intros d [=]|]. intros l.
  apply nquiet_bind; [by apply nquiet_query|intros; apply nquiet_ret].
Qed.

Context (Ping : M NW ()) (HPing : keeps_op tables_wf Ping).

Lemma network_run_inv e id : keeps_inv tables_wf (network_run Ping e id).
Proof using Type*.
  intros r w Hw.
  destruct e; cbn [network_run]; try (apply (answers_body tables_wf); [done|intros a]);
    try (by apply (answers_check tables_wf); [intros c ->%list_elem_of_singleton|]);
    try (apply (answers_op tables_wf); [|done]).
  - apply nforget_keeps, (nserve_safe (NqCreateNetwork a)).
  - apply nsafe_keeps, nquiet_safe, nquiet_list_networks.
  - apply nsafe_keeps, nquiet_safe, nquiet_get_network.
  - apply nsafe_keeps, (nserve_safe (NqDeleteNetwork id)).
  - apply nforget_keeps, (nserve_safe (NqCreateSubnet id _ _ _)).
  - apply nsafe_keeps, (nserve_safe (NqDeleteSubnet id)).
  - apply nforget_keeps, (nserve_safe (NqCreateFirewallRule _)).
  - apply nsafe_keeps, (nserve_safe (NqDeleteFirewallRule id)).
  - apply nforget_keeps, (nserve_safe (NqAllocateFloatingIP _ _)).
  - apply nsafe_keeps, nquiet_safe, nquiet_list_floating.
  - apply nsafe_keeps, (nserve_safe (NqReleaseFloatingIP id)).
  - simpl. eauto.
Qed.

(** C9: Whatever requests arrive over HTTP, with whatever bodies, and whatever
    statements are refused, the network service answers every one of them (no
    handler panics) and its tables keep their constraints. *)
Theorem network_http_safe k rs (w : NW) : nwf (n_db w) →
  nwf (n_db (serve_all (network_server Ping k) rs w).2) ∧
  Forall (λ o, ∃ resp, o = Ret resp) (serve_all (network_server Ping k) rs w).1.
Proof using Type*.
  intros Hw. apply (serve_all_inv tables_wf); [|done].
  apply RequireAPIKey_inv, CORS_inv, serve_table_inv, network_run_inv.
Qed.
End proofs.
