(* ===== verification/SchedulerHandlers.v ===== *)
(** [services/scheduler/handler/handler.go]: the HTTP interface of the scheduler
    and the chain of [cmd/scheduler/main.go].

    Recovering from a panic is chi's: a parameter that passes on what ends well
    and answers 500 where the handler panicked.

    Theorems: every request is answered and places or cancels at most the one
    machine it names, only with the key, on a node that satisfies the constraints
    in its body; and the scheduler as [main] builds it never places a machine. *)
From stdpp Require Import base gmap strings list numbers.
From S2P Require Import Prelude.
From S2P Require Import GoStd.
From S2P Require Import GoJson.
From S2P Require Import Requests.
From S2P Require Import Http.
From S2P Require Import Scheduler.
From stdpp Require Import options.

(** * Bodies *)
Definition into_strings : decoder (list string) := into_slice into_string "".

Definition SchedulingConstraints_fields : fields SchedulingConstraints := [
  ("preferred_node", field sc_PreferredNode (λ x c, mkConstraints x (sc_RequiredLabels c) (sc_PreferredLabels c)
     (sc_AvoidLabels c) (sc_RequireGPU c) (sc_AvailabilityZone c)) into_string);
  ("required_labels", field sc_RequiredLabels (λ x c, mkConstraints (sc_PreferredNode c) x (sc_PreferredLabels c)
     (sc_AvoidLabels c) (sc_RequireGPU c) (sc_AvailabilityZone c)) into_strings);
  ("preferred_labels", field sc_PreferredLabels (λ x c, mkConstraints (sc_PreferredNode c) (sc_RequiredLabels c) x
     (sc_AvoidLabels c) (sc_RequireGPU c) (sc_AvailabilityZone c)) into_strings);
  ("avoid_labels", field sc_AvoidLabels (λ x c, mkConstraints (sc_PreferredNode c) (sc_RequiredLabels c)
     (sc_PreferredLabels c) x (sc_RequireGPU c) (sc_AvailabilityZone c)) into_strings);
  ("require_gpu", field sc_RequireGPU (λ x c, mkConstraints (sc_PreferredNode c) (sc_RequiredLabels c)
     (sc_PreferredLabels c) (sc_AvoidLabels c) x (sc_AvailabilityZone c)) into_bool);
  ("availability_zone", field sc_AvailabilityZone (λ x c, mkConstraints (sc_PreferredNode c) (sc_RequiredLabels c)
     (sc_PreferredLabels c) (sc_AvoidLabels c) (sc_RequireGPU c) x) into_string)
].
Definition constraints_zero : SchedulingConstraints := mkConstraints "" [] [] [] false "".

Definition scheduleRequest_fields : fields scheduleRequest := [
  ("vm_id", field sr_VMID (λ x r, mkScheduleRequest x (sr_Constraints r) (sr_Priority r)) into_string);
  ("constraints", field sr_Constraints (λ x r, mkScheduleRequest (sr_VMID r) x (sr_Priority r))
     (into_ptr (into_struct SchedulingConstraints_fields) constraints_zero));
  ("priority", field sr_Priority (λ x r, mkScheduleRequest (sr_VMID r) (sr_Constraints r) x) into_int32)
].
Definition schedule_req_zero : scheduleRequest := mkScheduleRequest "" None 0.
Definition cancelRequest_fields : fields string := [("vm_id", field (λ s, s) (λ x _, x) into_string)].

(** * Answers *)
Inductive ScValue :=
| ScNode (nodeID : string)
| ScJobs (jobs : list ScheduledJob) (total page : Z)
| ScCheck (c : Check).

Inductive scheduler_endpoint := ScSchedule | ScCancel | ScListJobs | ScLiveness | ScReadiness.
Definition scheduler_api : table scheduler_endpoint :=
  Route "/api/v1/scheduler" [("POST", "/schedule", ScSchedule); ("DELETE", "/cancel", ScCancel); ("GET", "/jobs", ScListJobs)].
Definition scheduler_routes : table scheduler_endpoint :=
  scheduler_api ++ Handle "/health/live" ScLiveness ++ Handle "/health/ready" ScReadiness.

(** ** [middleware.Recoverer] *)
Class Recoverer := recoverer : ∀ {W V : Type}, Handler W V → Handler W V.
Class RecovererLaws `{Recoverer} := {
  recover_pass : ∀ {W V} (next : Handler W V) r w resp w',
    next r w = (Ret resp, w') → recoverer next r w = (Ret resp, w');
  recover_panic : ∀ {W V} (next : Handler W V) r w w', next r w = (Panic, w') →
    ∃ resp, recoverer next r w = (Ret resp, w') ∧ rs_Status resp = StatusInternalServerError;
}.

Section handlers.
Context `{SortSlice} (registry : option (outcome (list NodeInfo))).
(** The order in which [range r.jobs] visits the map. *)
Context (visit : Jobs → list ScheduledJob).

Definition hs_Schedule (r : Request) : M Jobs (Response ScValue) :=
  '(status, v) ← handleSchedule registry (decode_body scheduleRequest_fields schedule_req_zero r);
  mret (match v with inl nodeID => WriteJSON status (ScNode nodeID) | inr e => WriteError status e end).

Definition hs_Cancel (r : Request) : M Jobs (Response ScValue) :=
  '(status, v) ← handleCancel (decode_body cancelRequest_fields "" r);
  mret (match v with None => WriteHeader status | Some e => WriteError status e end).

Definition hs_ListJobs (r : Request) : M Jobs (Response ScValue) := λ jobs,
  match handleListJobs (visit jobs) (query r "node_id") (query_int r "page") (query_int r "per_page") with
  | Ret (l, total, page) => (Ret (WriteJSON StatusOK (ScJobs l total page)), jobs)
  | Err e => (Ret (WriteError StatusInternalServerError e), jobs)
  | Panic => (Panic, jobs)
  end.

Definition scheduler_run (e : scheduler_endpoint) (id : string) : Handler Jobs ScValue := λ r,
  match e with
  | ScSchedule => hs_Schedule r
  | ScCancel => hs_Cancel r
  | ScListJobs => hs_ListJobs r
  | ScLiveness => check_value ScCheck (Liveness r)
  | ScReadiness => check_value ScCheck (Readiness [] r)
  end.

(** The chain of [main]; what traces and logs requests answers nothing. *)
Definition scheduler_server `{Router, Recoverer} (validKey : string) : Handler Jobs ScValue :=
  recoverer (CORS (RequireAPIKey validKey (serve_table scheduler_routes scheduler_run))).
End handlers.

(** [scheduler.NewService(repo, nil)] *)
Definition main_registry : option (outcome (list NodeInfo)) := None.

(** * What a request does *)
Section proofs.
Context `{SortLaws} {router : Router} {HR : RouterLaws} {recov : Recoverer} {HRec : RecovererLaws}.
Context (registry : option (outcome (list NodeInfo))) (Hreg : registry ≠ Some Panic).
Context (visit : Jobs → list ScheduledJob).
Implicit Types (r : Request) (jobs : Jobs).

(** The constraints of a request: none given are no constraints. *)
Definition constraints_of (req : scheduleRequest) : option SchedulingConstraints :=
  match sr_Constraints req with Some c => Some c | None => Some constraints_zero end.

(** The step of the placements that an answer of a status tells of. *)
Inductive sched_change (r : Request) : Z → Jobs → Jobs → Prop :=
| change_none st jobs : sched_change r st jobs jobs
| change_place req nodes n jobs :
    decode_body scheduleRequest_fields schedule_req_zero r = Some req →
    jobs !! sr_VMID req = None → sr_VMID req ≠ "" →
    registry = Some (Ret nodes) → n ∈ nodes → eligible (constraints_of req) n →
    best_of (constraints_of req) (filterNodes nodes (constraints_of req)) n →
    sched_change r StatusOK jobs
      (<[sr_VMID req := mkJob (sr_VMID req) (ni_ID n) (sr_Priority req) (constraints_of req)]> jobs)
| change_cancel vmID jobs :
    decode_body cancelRequest_fields "" r = Some vmID → is_Some (jobs !! vmID) →
    sched_change r StatusNoContent jobs (delete vmID jobs).

(** A handler: it panics and leaves everything, or answers with a change. *)
Definition changes (r : Request) (m : M Jobs (Response ScValue)) : Prop := ∀ jobs,
  m jobs = (Panic, jobs) ∨ ∃ resp jobs', m jobs = (Ret resp, jobs') ∧ sched_change r (rs_Status resp) jobs jobs'.

Lemma changes_schedule r : changes r (hs_Schedule registry r).
Proof using H0 Hreg.
  intros jobs. right. unfold hs_Schedule, handleSchedule.
  destruct (decode_body scheduleRequest_fields schedule_req_zero r) as [req|] eqn:Ed; [|eexists _, jobs; split; [reflexivity|constructor]].
  destruct (String.eqb_spec (sr_VMID req) "") as [|Hne]; [eexists _, jobs; split; [reflexivity|constructor]|].
  change (match sr_Constraints req with Some c => Some c | None => Some (mkConstraints "" [] [] [] false "") end)
    with (constraints_of req).
  pose proof (schedule_places registry (sr_VMID req) (constraints_of req) (sr_Priority req) jobs Hreg) as Hs.
  unfold wp, schedule_post, post in Hs. cbv zeta. unfold attempt, mbind, M_bind.
  destruct (Schedule registry (sr_VMID req) (constraints_of req) (sr_Priority req) jobs) as [[id|e|] jobs']; simpl in Hs; [| |done].
  - destruct Hs as (Hj & nodes & n & Hr & Hn & He & Hb & -> & ->). eexists _, _. split; [reflexivity|]. by eapply change_place.
  - destruct Hs as [-> _]. eexists _, jobs. split; [reflexivity|constructor].
Qed.

Lemma changes_cancel r : changes r (hs_Cancel r).
Proof using Type.
  intros jobs. right. unfold hs_Cancel, handleCancel, CancelSchedule, repo_Delete.
  destruct (decode_body cancelRequest_fields "" r) as [vmID|] eqn:Ed; [|eexists _, jobs; split; [reflexivity|constructor]].
  destruct (String.eqb vmID ""); [eexists _, jobs; split; [reflexivity|constructor]|].
  unfold attempt, mbind, M_bind. destruct (jobs !! vmID) as [job|] eqn:Ej; simpl.
  - eexists _, _. split; [reflexivity|]. apply change_cancel; [done|by eexists].
  - eexists _, jobs. split; [reflexivity|constructor].
Qed.

Lemma changes_list r : changes r (hs_ListJobs visit r).
Proof using Type.
  intros jobs. unfold hs_ListJobs. destruct (handleListJobs _ _ _ _) as [[[l total] page]|e|]; [right..|by left];
    (eexists _, jobs; split; [reflexivity|constructor]).
Qed.

Lemma changes_run e id r : changes r (scheduler_run registry visit e id r).
Proof using H0 Hreg.
  destruct e; simpl; [apply changes_schedule|apply changes_cancel|apply changes_list|..];
    (intros jobs; right; eexists _, jobs; split; [reflexivity|constructor]).
Qed.

(** The paths that need no key lead to the health checks. *)
Definition is_health (e : scheduler_endpoint) : bool := match e with ScLiveness | ScReadiness => true | _ => false end.
Lemma health_routes r e id : health_path (rq_Path r) = true →
  route scheduler_routes (rq_Method r) (rq_Path r) = inl (e, id) → is_health e = true.
Proof using HR.
  intros Hh (p & Hin & params & Hm & _)%route_in.
  assert (Hall : forallb (λ '(_, p, e), is_health e || forallb (λ path, match matches p path with Some _ => false | None => true end)
    ["/health"; "/health/live"; "/health/ready"]) scheduler_routes = true) by (vm_compute; reflexivity).
  rewrite forallb_forall in Hall. specialize (Hall _ (proj1 (list_elem_of_In _ _) Hin)). simpl in Hall.
  destruct (is_health e); [done|]. unfold health_path in Hh.
  repeat match type of Hh with context [String.eqb ?a ?b] => destruct (String.eqb_spec a b) as [Ep|] end; simpl in Hh; try done;
    rewrite Ep in Hm; by rewrite Hm, ?andb_false_r in Hall.
Qed.

Lemma health_stays e id r jobs : is_health e = true →
  ∃ resp, scheduler_run registry visit e id r jobs = (Ret resp, jobs).
Proof using Type. destruct e; intros [=]; eexists; reflexivity. Qed.

(** What the chain before [Recoverer] does. *)
Definition guarded (key : string) (r : Request) (m : M Jobs (Response ScValue)) (jobs : Jobs) : Prop :=
  m jobs = (Panic, jobs) ∨ ∃ resp jobs', m jobs = (Ret resp, jobs') ∧
    sched_change r (rs_Status resp) jobs jobs' ∧ (jobs' ≠ jobs → key ≠ "" ∧ presents r key).

Lemma guarded_stay key r m jobs resp : m jobs = (Ret resp, jobs) → guarded key r m jobs.
Proof using Type. intros E. right. exists resp, jobs. split_and!; [done|constructor|done]. Qed.
Lemma guarded_headers key r m h jobs : guarded key r m jobs → guarded key r (resp ← m; mret (add_headers h resp)) jobs.
Proof using Type.
  unfold guarded, mbind, M_bind. intros [E|(resp & jobs' & E & Hc)]; rewrite E; [by left|right].
  by exists (add_headers h resp), jobs'.
Qed.

Lemma guarded_routed key r jobs : key ≠ "" → presents r key →
  guarded key r (serve_table scheduler_routes (scheduler_run registry visit) r) jobs.
Proof using H0 Hreg.
  intros Hk Hp. unfold serve_table. destruct (route _ _ _) as [[e id]|st]; [|by eapply guarded_stay].
  destruct (changes_run e id r jobs) as [E|(resp & jobs' & E & Hc)]; [by left|right]. by exists resp, jobs'.
Qed.

Lemma guarded_server key r jobs :
  guarded key r (CORS (RequireAPIKey key (serve_table scheduler_routes (scheduler_run registry visit))) r) jobs.
Proof using H0 Hreg HR.
  unfold CORS. destruct (String.eqb _ MethodOptions); [by eapply guarded_stay|]. apply guarded_headers.
  destruct (health_path (rq_Path r)) eqn:Hh.
  - unfold RequireAPIKey, serve_table. rewrite Hh.
    destruct (route _ _ _) as [[e id]|st] eqn:Er; [|by eapply guarded_stay].
    destruct (health_stays e id r jobs) as [resp E]; [by eapply health_routes|by eapply guarded_stay].
  - destruct (require_key_spec key (serve_table scheduler_routes (scheduler_run registry visit)) r jobs Hh)
      as [(Hk & Hp & E)|[(_ & _ & E)|(_ & E)]]; [|by eapply guarded_stay..].
    unfold guarded. rewrite E. by apply guarded_routed.
Qed.

(** C13: Every request to the scheduler is answered, whatever its body, query and
    path: a panic of a handler is answered 500.  The placements change only
    when the key was presented, and then by what the answer tells: with 200 the
    machine named in the body, which had no placement, is placed on a node of
    the registry that satisfies the constraints of the body and has the highest
    score of those; with 204 the placement of the machine named is removed. *)
Theorem scheduler_requests_place key r jobs :
  ∃ resp jobs', scheduler_server registry visit key r jobs = (Ret resp, jobs') ∧
    sched_change r (rs_Status resp) jobs jobs' ∧
    (jobs' ≠ jobs → key ≠ "" ∧ presents r key).
Proof using Type*.
  destruct (guarded_server key r jobs) as [E|(resp & jobs' & E & Hc)].
  - destruct (recover_panic _ _ _ _ E) as (resp & E' & Hst). exists resp, jobs. split_and!; [exact E'|constructor|done].
  - exists resp, jobs'. split; [by apply recover_pass|done].
Qed.
End proofs.

(** The scheduler as [main] builds it has no registry: whatever requests it gets,
    it never places a machine. *)
Theorem scheduler_main_never_places `{SortLaws} `{!Router, !RouterLaws} `{!Recoverer, !RecovererLaws} visit key rs :
  foldl (λ jobs r, (scheduler_server main_registry visit key r jobs).2) ∅ rs = ∅.
Proof.
  induction rs as [|r rs IH] using rev_ind; [done|]. rewrite foldl_app, IH. simpl.
  destruct (guarded_server main_registry ltac:(done) visit key r ∅) as [E|(resp & jobs' & E & Hc & _)].
  - destruct (recover_panic _ _ _ _ E) as (resp & E' & _). unfold scheduler_server. by rewrite E'.
  - unfold scheduler_server. rewrite (recover_pass _ _ _ _ _ E). simpl. inversion Hc as [|????? ? ? Hr|??? [? Hl]]; [done|done|].
    by rewrite lookup_empty in Hl.
Qed.
