(* ===== verification/Gateway.v ===== *)
(** [services/gateway/handler/handler.go] and [cmd/api-gateway/main.go]: the
    routes of the gateway, the service each is forwarded to, and the chain of
    handlers in front of them.

    Theorems: but for the streams, which it serves itself, the gateway forwards
    exactly the requests the services know, to the service that knows them;
    nothing is forwarded without the key. *)
From stdpp Require Import base gmap strings list numbers.
From S2P Require Import Prelude.
From S2P Require Import GoStd.
From S2P Require Import GoJson.
From S2P Require Import Http.
From S2P Require Import Streams.
From S2P Require Import SchedulerHandlers.
From S2P Require Import VMState.
From S2P Require Import Handlers.
From S2P Require Import StorageHandlers.
From S2P Require Import NetworkHandlers.
From stdpp Require Import options.

Inductive target := ToControlPlane | ToNetwork | ToStorage | ToScheduler.
#[global] Instance target_eq_dec : EqDecision target.
Proof. solve_decision. Defined.

Inductive gw_endpoint :=
| GwHealth | GwLogs | GwConsole | GwMetrics | GwVMState
| GwProxy (t : target).
#[global] Instance gw_endpoint_eq_dec : EqDecision gw_endpoint.
Proof. solve_decision. Defined.

(** * The tables *)

Section gateway_table.
Local Abbreviation cp := (GwProxy ToControlPlane).
Local Abbreviation nw := (GwProxy ToNetwork).
Local Abbreviation st := (GwProxy ToStorage).
Local Abbreviation sc := (GwProxy ToScheduler).

(** [NewGateway] *)
Definition gateway_routes : table gw_endpoint :=
  [("GET", "/health", GwHealth); ("GET", "/ws/logs", GwLogs); ("GET", "/ws/console", GwConsole);
   ("GET", "/ws/metrics", GwMetrics); ("GET", "/ws/metrics/vm/{id}", GwMetrics);
   ("GET", "/ws/vm/{id}/state", GwVMState); ("GET", "/ws/vm/{id}/logs", GwLogs);
   ("GET", "/api/v1/ws/logs", GwLogs); ("GET", "/api/v1/ws/console", GwConsole);
   ("GET", "/api/v1/ws/console/{id}", GwConsole); ("GET", "/api/v1/ws/metrics", GwMetrics);
   ("GET", "/api/v1/ws/metrics/vm/{id}", GwMetrics); ("GET", "/api/v1/ws/vm/{id}/state", GwVMState);
   ("GET", "/api/v1/ws/vm/{id}/logs", GwLogs)] ++
  Route "/api/v1" (Route "/vms" ([("POST", "/", cp); ("GET", "/", cp); ("GET", "/{id}", cp); ("PUT", "/{id}", cp);
       ("DELETE", "/{id}", cp); ("POST", "/{id}/power-on", cp); ("POST", "/{id}/power-off", cp);
       ("POST", "/{id}/reboot", cp); ("POST", "/{id}/resize", cp); ("POST", "/{id}/snapshot", cp);
       ("POST", "/{id}/clone", cp); ("POST", "/{id}/restore-snapshot", cp)]) ++
    Route "/nodes" ([("POST", "/", cp); ("GET", "/", cp); ("GET", "/{id}", cp); ("PUT", "/{id}", cp);
       ("POST", "/{id}/drain", cp); ("POST", "/{id}/heartbeat", cp)]) ++
    Route "/networks" ([("POST", "/", nw); ("GET", "/", nw); ("GET", "/{id}", nw); ("DELETE", "/{id}", nw);
       ("POST", "/{id}/subnets", nw); ("POST", "/{id}/firewall-rules", nw)]) ++
    [("DELETE", "/subnets/{id}", nw); ("DELETE", "/firewall-rules/{id}", nw)] ++
    Route "/floating-ips" ([("POST", "/", nw); ("GET", "/", nw); ("DELETE", "/{id}", nw)]) ++
    Route "/storage" (Route "/pools" ([("POST", "/", st); ("GET", "/", st); ("GET", "/{id}", st)]) ++
      Route "/volumes" ([("POST", "/", st); ("GET", "/", st); ("GET", "/{id}", st); ("DELETE", "/{id}", st);
         ("PUT", "/{id}/resize", st); ("POST", "/{id}/clone", st); ("POST", "/{id}/snapshots", st)]) ++
      [("DELETE", "/snapshots/{id}", st); ("POST", "/snapshots/{id}/restore", st)]) ++
    Route "/scheduler" ([("POST", "/schedule", sc); ("DELETE", "/cancel", sc); ("GET", "/jobs", sc)]) ++
    Route "/images" ([("GET", "/official", cp); ("POST", "/pull", cp); ("POST", "/import", cp); ("POST", "/", cp);
       ("GET", "/", cp); ("GET", "/{id}", cp); ("DELETE", "/{id}", cp)]) ++
    Route "/flavors" ([("POST", "/", cp); ("GET", "/", cp); ("GET", "/{id}", cp); ("DELETE", "/{id}", cp)]) ++
    Route "/keypairs" ([("POST", "/", cp); ("GET", "/", cp); ("GET", "/{id}", cp); ("DELETE", "/{id}", cp)]) ++
    Route "/backups" ([("POST", "/", cp); ("GET", "/", cp); ("GET", "/{id}", cp); ("DELETE", "/{id}", cp);
       ("POST", "/{id}/restore", cp)])).
End gateway_table.

(** * Forwarding *)
Section gateway.
Context {W V : Type} (check : Check → V).
(** Sending a request to a service, with its headers as they are: the answer, or
    none when the service cannot be reached.  [Allow]: the limiter. *)
Context (RoundTrip : target → Request → M W (option (Response V))) (Allow : M W bool).
Context `{Upgrader} (validKey : string).

Definition StatusBadGateway : Z := 502.
Definition proxy (t : target) : Handler W V := λ r,
  o ← RoundTrip t r;
  mret (match o with Some resp => resp | None => WriteError StatusBadGateway "service unavailable" end).

Definition health_ok : Response V :=
  mkResponse StatusOK json_header (BText ("{" +:+ Quote "status" +:+ ":" +:+ Quote "ok" +:+ "}")).

(** What the ticks of a stream fetch is in [VMState]. *)
Definition gw_run (e : gw_endpoint) (id : string) : Handler W V := λ r,
  match e with
  | GwHealth => mret health_ok
  | GwLogs => stream_reply (HandleLogs validKey r "all" []) r (λ _, mret ())
  | GwConsole => stream_reply (HandleConsole validKey r id []) r (λ _, mret ())
  | GwMetrics => stream_reply (sum_map (λ resp, resp) (λ h, (h, ())) (open_stream validKey r)) r (λ _, mret ())
  | GwVMState => stream_reply (sum_map (λ resp, resp) (λ '(h, ms, vm), (h, (ms, vm))) (HandleVMState validKey r)) r (λ _, mret ())
  | GwProxy t => proxy t r
  end.

(** [main]: the mux, and the chain in front of it. *)
Definition gateway_mux `{Router} : Handler W V := λ r,
  if String.eqb (rq_Path r) "/health" then mret health_ok
  else if String.eqb (rq_Path r) "/health/live" then check_value check (Liveness r)
  else if String.eqb (rq_Path r) "/health/ready" then check_value check (Readiness [] r)
  else serve_table gateway_routes gw_run r.

Definition gateway_server `{Router} : Handler W V :=
  RateLimit Allow (RequireAPIKey validKey (CORS gateway_mux)).
End gateway.

(** * Patterns *)

(** Two patterns that some path may match both. *)
Fixpoint overlap (ps qs : list string) : bool :=
  match ps, qs with
  | [], [] => true
  | p :: ps', q :: qs' => (String.eqb p "{id}" || String.eqb q "{id}" || String.eqb p q) && overlap ps' qs'
  | _, _ => false
  end.

Lemma match_overlap ps qs xs a b :
  match_segments ps xs = Some a → match_segments qs xs = Some b → overlap ps qs = true.
Proof.
  revert qs xs a b. induction ps as [|p ps IH]; intros [|q qs] [|x xs] a b; simpl; try done.
  destruct (String.eqb_spec p "{id}") as [->|Hp].
  - intros [a' [Ha _]]%fmap_Some. destruct (String.eqb_spec q "{id}") as [->|Hq].
    + intros [b' [Hb _]]%fmap_Some. by eapply IH.
    + destruct (String.eqb q x); [|done]. intros Hb. by eapply IH.
  - destruct (String.eqb_spec p x) as [->|]; [|done]. intros Ha. destruct (String.eqb_spec q "{id}") as [->|Hq].
    + intros [b' [Hb _]]%fmap_Some. by eapply IH.
    + destruct (String.eqb_spec q x) as [->|]; [|done]. intros Hb. rewrite String.eqb_refl. by eapply IH.
Qed.

(** A match without empty segments. *)
Lemma match_clean ps xs params : match_segments ps xs = Some params → "" ∉ xs → "" ∉ ps ∧ "" ∉ params.
Proof.
  revert xs params. induction ps as [|p ps IH]; intros [|x xs] params; simpl; try done.
  { intros [= <-] _. split; apply not_elem_of_nil. }
  destruct (String.eqb_spec p "{id}") as [->|Hp].
  - intros (ps' & Hm & ->)%fmap_Some [Hx Hxs]%not_elem_of_cons. destruct (IH _ _ Hm Hxs) as [? ?].
    split; apply not_elem_of_cons; by split.
  - destruct (String.eqb_spec p x) as [->|]; [|done]. intros Hm [Hx Hxs]%not_elem_of_cons.
    destruct (IH _ _ Hm Hxs) as [? ?]. split; [apply not_elem_of_cons; by split|done].
Qed.

(** * Which requests are forwarded, and where to *)
Definition clean (path : string) : Prop := "" ∉ tail (segments path).
Definition api_path (path : string) : Prop := segments path !! 1 = Some "api".

Definition rooted {E} (t : table E) : Prop :=
  Forall (λ e, head (segments e.1.2) = Some "") t.

Lemma names_clean path pattern id : head (segments pattern) = Some "" → names pattern path id → clean path →
  "" ∉ tail (segments pattern) ∧ ∀ params, matches pattern path = Some params → "" ∉ params.
Proof.
  unfold clean, names, matches. intros Hr (params & Hm & _) Hc. destruct (segments pattern) as [|p ps]; [done|].
  injection Hr as ->. destruct (segments path) as [|x xs]; simpl in *; [done|].
  destruct x; [|done]. split; [apply (match_clean _ _ _ Hm Hc)|].
  intros params' Hm'. apply (match_clean _ _ _ Hm' Hc).
Qed.

Section tables.
Context `{HR : RouterLaws}.

Definition finds {E} (t : table E) (method path : string) : bool :=
  match route t method path with inl _ => true | inr _ => false end.
Definition knows (t : target) (method path : string) : bool :=
  match t with
  | ToControlPlane => finds server_routes method path
  | ToNetwork => finds network_routes method path
  | ToStorage => finds storage_routes method path
  | ToScheduler => finds scheduler_api method path
  end.

(** The methods and patterns of a service. *)
Definition keys (t : target) : list (string * string) :=
  match t with
  | ToControlPlane => fst <$> server_routes
  | ToNetwork => fst <$> network_routes
  | ToStorage => fst <$> storage_routes
  | ToScheduler => fst <$> scheduler_api
  end.

Lemma finds_spec {E} (t : table E) method path : rooted t → clean path →
  finds t method path = true ↔ ∃ pattern id, (method, pattern) ∈ fst <$> t ∧ names pattern path id.
Proof using HR.
  intros Hr Hc. unfold finds. destruct (route t method path) as [[e id]|st] eqn:E'; split; try done.
  - intros _. destruct (route_in _ _ _ _ _ E') as (p & Hin & Hn). exists p, id. split; [|done].
    apply list_elem_of_fmap. by exists (method, p, e).
  - intros (p & id & ([[m q] e] & [= -> ->] & Hin)%list_elem_of_fmap & Hn). exfalso.
    destruct (route_none _ _ _ _ E') as [_ Hnone]. pose proof Hn as (params & Hm & _).
    assert (Hh : head (segments q) = Some "").
    { unfold rooted in Hr. rewrite Forall_forall in Hr. apply (Hr (m, q, e)). by apply list_elem_of_In. }
    destruct (names_clean path q id Hh Hn Hc) as [_ Hp]. by apply (Hp params Hm), (Hnone q e params).
Qed.

Lemma knows_spec t method path : clean path →
  knows t method path = true ↔ ∃ pattern id, (method, pattern) ∈ keys t ∧ names pattern path id.
Proof using HR.
  intros Hc. destruct t; apply finds_spec; try done; eapply bool_decide_unpack; vm_compute; exact I.
Qed.

End tables.

(** ** Facts of the tables *)
Definition forwarded_ok (x : string * string * gw_endpoint) : bool :=
  match x with
  | (m, p, GwProxy t) => bool_decide ("" ∈ tail (segments p)) || bool_decide ((m, p) ∈ keys t)
  | _ => true
  end.
Definition is_api (pattern : string) : bool := bool_decide (segments pattern !! 1 = Some "api").
(** The streams of the control plane, under [/api/v1/ws]. *)
Definition is_ws (pattern : string) : bool := bool_decide (segments pattern !! 3 = Some "ws").
Definition known_ok (t : target) (k : string * string) : bool :=
  negb (is_api k.2) || is_ws k.2 || bool_decide ((k, GwProxy t) ∈ gateway_routes).
(** A stream of the control plane is one of the gateway, but for one pattern. *)
Definition is_stream (e : gw_endpoint) : bool :=
  match e with GwLogs | GwConsole | GwMetrics | GwVMState => true | _ => false end.
Definition metrics_pattern : string := "/api/v1/ws/metrics/{id}".
Definition stream_known (k : string * string) : bool :=
  negb (is_ws k.2) || String.eqb k.2 metrics_pattern
  || existsb (λ e, bool_decide ((k, e) ∈ gateway_routes)) [GwLogs; GwConsole; GwMetrics; GwVMState].
(** Under [/api] the third element is text, and the streams are under [ws]. *)
Definition third_ok (x : string * string * gw_endpoint) : bool :=
  negb (is_api x.1.2) || (negb (bool_decide (segments x.1.2 !! 3 = Some "{id}")) && Bool.eqb (is_ws x.1.2) (is_stream x.2)).
(** Patterns that overlap lead to the same endpoint, but for the streams. *)
Definition apart (x y : string * string * gw_endpoint) : bool :=
  match x.2 with
  | GwProxy t => negb (overlap (segments x.1.2) (segments y.1.2)) || bool_decide (y.2 = GwProxy t)
  | _ => true
  end.

Lemma tables_checked :
  forallb forwarded_ok gateway_routes = true ∧
  (∀ t, forallb (known_ok t) (keys t) = true) ∧
  forallb (λ x, forallb (apart x) gateway_routes) gateway_routes = true ∧
  rooted gateway_routes ∧
  (∀ t, Forall (λ k, head (segments k.2) = Some "" ∧ Forall (λ s, s ≠ "{id}") (take 4 (segments k.2))) (keys t)) ∧
  Forall (λ x : string * string * gw_endpoint, Forall (λ s, s ≠ "{id}") (take 2 (segments x.1.2))) gateway_routes ∧
  forallb third_ok gateway_routes = true ∧
  forallb stream_known (keys ToControlPlane) = true ∧
  ∀ t, t ≠ ToControlPlane → forallb (λ k, negb (is_ws k.2)) (keys t) = true.
Proof.
  split_and!; [vm_compute; reflexivity|intros []; vm_compute; reflexivity|vm_compute; reflexivity|..|vm_compute; reflexivity|vm_compute; reflexivity|].
  - eapply bool_decide_unpack. vm_compute. exact I.
  - intros []; eapply bool_decide_unpack; vm_compute; exact I.
  - eapply bool_decide_unpack. vm_compute. exact I.
  - intros [] Ht; [done|vm_compute; reflexivity..].
Qed.

Lemma forallb_elem {A} (f : A → bool) l x : forallb f l = true → x ∈ l → f x = true.
Proof. intros Hf Hx. eapply forallb_forall; [exact Hf|]. by apply list_elem_of_In. Qed.

Lemma forwarded_known m p t : (m, p, GwProxy t) ∈ gateway_routes → "" ∉ tail (segments p) → (m, p) ∈ keys t.
Proof.
  intros Hin Hs. pose proof (forallb_elem _ _ _ (proj1 tables_checked) Hin) as Hok. simpl in Hok.
  rewrite bool_decide_eq_false_2 in Hok by done. by apply bool_decide_eq_true in Hok.
Qed.
Lemma known_forwarded m p t : (m, p) ∈ keys t → segments p !! 1 = Some "api" → segments p !! 3 ≠ Some "ws" →
  (m, p, GwProxy t) ∈ gateway_routes.
Proof.
  intros Hin Hs Hw. pose proof (forallb_elem _ _ _ (proj1 (proj2 tables_checked) t) Hin) as Hok. unfold known_ok, is_api, is_ws in Hok.
  rewrite bool_decide_eq_true_2, bool_decide_eq_false_2 in Hok by done. by apply bool_decide_eq_true in Hok.
Qed.
Lemma forwarded_apart m p t m' p' e path id id' :
  (m, p, GwProxy t) ∈ gateway_routes → (m', p', e) ∈ gateway_routes →
  names p path id → names p' path id' → e = GwProxy t.
Proof.
  intros Hin Hin' (a & Ha & _) (b & Hb & _).
  pose proof (forallb_elem _ _ _ (forallb_elem _ _ _ (proj1 (proj2 (proj2 tables_checked))) Hin) Hin') as Hok.
  unfold apart in Hok. cbn [fst snd] in Hok. rewrite (match_overlap _ _ _ _ _ Ha Hb) in Hok.
  by apply bool_decide_eq_true in Hok.
Qed.

(** Where a pattern has text the path has the same. *)
Lemma names_index p path id n : names p path id → segments p !! n ≠ Some "{id}" → segments path !! n = segments p !! n.
Proof.
  unfold names, matches. intros (a & Ha & _). revert n a Ha. generalize (segments path). generalize (segments p).
  induction l as [|q qs IH]; intros [|x xs] n a; simpl; try done.
  destruct (String.eqb_spec q "{id}") as [->|Hq].
  - intros (a' & Ha & _)%fmap_Some. destruct n as [|n]; [done|]. by apply (IH xs n a').
  - destruct (String.eqb_spec q x) as [->|]; [|done]. intros Ha. destruct n as [|n]; [done|]. by apply (IH xs n a).
Qed.

(** A pattern that matches a path under [/api] is one. *)
Lemma names_api p path id : head (segments p) = Some "" → Forall (λ s, s ≠ "{id}") (take 2 (segments p)) →
  names p path id → api_path path → segments p !! 1 = Some "api".
Proof.
  unfold names, matches, api_path. intros Hh Hf (a & Ha & _).
  destruct (segments p) as [|p0 [|p1 ps]], (segments path) as [|x0 [|x1 xs]]; simpl in *; try done.
  - by destruct (String.eqb p0 "{id}"), (String.eqb p0 x0).
  - apply Forall_cons_iff in Hf as [Hp0 Hf]. apply Forall_cons_iff in Hf as [Hp1 _]. revert Ha.
    rewrite (proj2 (String.eqb_neq p0 "{id}")), (proj2 (String.eqb_neq p1 "{id}")) by done.
    destruct (String.eqb p0 x0); [|done]. destruct (String.eqb_spec p1 x1) as [->|]; [|done]. by intros _ [= ->].
Qed.

Section agreement.
Context `{HR : RouterLaws}.

Definition ws_path (path : string) : Prop := segments path !! 3 = Some "ws".

(** The facts of a row of the gateway's table that matches a path under [/api]. *)
Lemma gateway_row method p e path id : (method, p, e) ∈ gateway_routes → names p path id → api_path path →
  head (segments p) = Some "" ∧ (ws_path path ↔ is_stream e = true).
Proof using Type.
  intros Hin Hn Ha. destruct tables_checked as (_ & _ & _ & Hroot & _ & Htwo & Hthird & _).
  unfold rooted in Hroot. rewrite Forall_forall in Hroot, Htwo. pose proof (proj1 (list_elem_of_In _ _) Hin) as Hin'.
  pose proof (Hroot _ Hin') as Hh. split; [exact Hh|].
  pose proof (names_api p path id Hh (Htwo _ Hin') Hn Ha) as Hp.
  pose proof (forallb_elem _ _ _ Hthird Hin) as Hok. unfold third_ok, is_api, is_ws in Hok. cbn [fst snd] in Hok.
  rewrite bool_decide_eq_true_2 in Hok by done. cbn [negb orb] in Hok. apply andb_prop in Hok as [H1 H2].
  apply negb_true_iff, bool_decide_eq_false in H1. unfold ws_path. rewrite (names_index p path id 3 Hn H1).
  apply eqb_prop in H2. rewrite <-H2. by rewrite bool_decide_eq_true.
Qed.

Lemma service_row t method p path id : (method, p) ∈ keys t → names p path id → api_path path →
  head (segments p) = Some "" ∧ segments p !! 1 = Some "api" ∧ segments path !! 3 = segments p !! 3.
Proof using Type.
  intros Hin Hn Ha. destruct tables_checked as (_ & _ & _ & _ & Hkeys & _). specialize (Hkeys t). rewrite Forall_forall in Hkeys.
  destruct (Hkeys (method, p) ltac:(by apply list_elem_of_In)) as [Hh Hf]. cbn [snd] in *.
  split; [done|]. split.
  - apply (names_api p path id Hh); [|done|done]. replace 2 with (2 `min` 4) by done. rewrite <-take_take. by apply Forall_take.
  - apply (names_index p path id 3 Hn). intros H3. rewrite Forall_lookup in Hf. apply (Hf 3 "{id}"); [|done].
    by rewrite lookup_take_lt by lia.
Qed.

Lemma gateway_knows method path t : clean path → api_path path →
  (∃ id, route gateway_routes method path = inl (GwProxy t, id)) ↔ knows t method path = true ∧ ¬ ws_path path.
Proof using HR.
  intros Hc Ha. rewrite knows_spec by done. split.
  - intros [id (p & Hin & Hn)%route_in]. destruct (gateway_row _ _ _ _ _ Hin Hn Ha) as [Hh Hw].
    split; [|by rewrite Hw]. exists p, id. split; [|done]. apply forwarded_known; [done|].
    exact (proj1 (names_clean path p id Hh Hn Hc)).
  - intros ((p & id & Hin & Hn) & Hws). destruct (service_row _ _ _ _ _ Hin Hn Ha) as (Hh & H1 & H3).
    unfold ws_path in Hws. rewrite H3 in Hws. pose proof (known_forwarded _ _ _ Hin H1 Hws) as Hgw.
    destruct (route gateway_routes method path) as [[e id']|st] eqn:E'.
    + exists id'. destruct (route_in _ _ _ _ _ E') as (p' & Hin' & Hn').
      by rewrite (forwarded_apart _ _ _ _ _ _ _ _ _ Hgw Hin' Hn Hn').
    + destruct (route_none _ _ _ _ E') as [_ Hnone]. pose proof Hn as (params & Hm & _).
      destruct (names_clean path p id Hh Hn Hc) as [_ Hp]. exfalso. by apply (Hp params Hm), (Hnone p (GwProxy t) params).
Qed.

(** The streams: served by the gateway itself. *)
Lemma gateway_streams method path : clean path → api_path path → ws_path path → knows ToControlPlane method path = true →
  (∃ e id, route gateway_routes method path = inl (e, id) ∧ is_stream e = true) ∨ is_Some (matches metrics_pattern path).
Proof using HR.
  intros Hc Ha Hws Hk. apply knows_spec in Hk as (p & id & Hin & Hn); [|done].
  destruct (service_row _ _ _ _ _ Hin Hn Ha) as (Hh & _ & H3). unfold ws_path in Hws. rewrite Hws in H3.
  destruct tables_checked as (_ & _ & _ & _ & _ & _ & _ & Hst & _). pose proof (forallb_elem _ _ _ Hst Hin) as Hok.
  unfold stream_known, is_ws in Hok. cbn [snd] in Hok. rewrite bool_decide_eq_true_2 in Hok by done. cbn [negb orb] in Hok.
  pose proof Hn as (params & Hm & _).
  apply orb_prop in Hok as [->%String.eqb_eq|(e & _ & Hgw%bool_decide_eq_true)%existsb_exists]; [right; by exists params|left].
  destruct (route gateway_routes method path) as [[e' id']|st] eqn:E'.
  - destruct (route_in _ _ _ _ _ E') as (p' & Hin' & Hn'). exists e', id'. split; [done|].
    by apply (gateway_row _ _ _ _ _ Hin' Hn' Ha).
  - destruct (route_none _ _ _ _ E') as [_ Hnone]. destruct (names_clean path p id Hh Hn Hc) as [_ Hp].
    exfalso. by apply (Hp params Hm), (Hnone p e params).
Qed.

Lemma knows_ws t method path : clean path → api_path path → ws_path path → knows t method path = true → t = ToControlPlane.
Proof using HR.
  intros Hc Ha Hws (p & id & Hin & Hn)%knows_spec; [|done]. destruct (decide (t = ToControlPlane)) as [|Ht]; [done|].
  destruct (service_row _ _ _ _ _ Hin Hn Ha) as (_ & _ & H3). unfold ws_path in Hws. rewrite Hws in H3.
  destruct tables_checked as (_ & _ & _ & _ & _ & _ & _ & _ & Hno).
  pose proof (forallb_elem _ _ _ (Hno t Ht) Hin) as Hok. unfold is_ws in Hok. cbn [snd] in Hok. by rewrite bool_decide_eq_true_2 in Hok.
Qed.

(** C10: The gateway and the services agree on the interface: for every method and
    every path under [/api] without empty segments, the streams under [ws] apart,
    the gateway forwards the request to a service exactly when that service has an
    endpoint for it; so no request is forwarded to a service that does not know
    it, none that a service knows is refused by the gateway, and no two services
    know the same one.  A stream of the control plane is served by the gateway
    itself, under the same path, except for the metrics of a machine as
    [/api/v1/ws/metrics/{id}] (see [metrics_by_id_lost]). *)
Theorem gateway_routes_agree method path : clean path → api_path path →
  (∀ t, (∃ id, route gateway_routes method path = inl (GwProxy t, id)) ↔ knows t method path = true ∧ ¬ ws_path path) ∧
  (∀ t t', knows t method path = true → knows t' method path = true → t = t') ∧
  (ws_path path → knows ToControlPlane method path = true →
     (∃ e id, route gateway_routes method path = inl (e, id) ∧ is_stream e = true) ∨ is_Some (matches metrics_pattern path)).
Proof using HR.
  intros Hc Ha. split_and!; [intros t; by apply gateway_knows| |by apply gateway_streams].
  intros t t' H1 H2. destruct (decide (ws_path path)) as [Hw|Hw].
  - by rewrite (knows_ws t method path), (knows_ws t' method path).
  - assert (∃ id, route gateway_routes method path = inl (GwProxy t, id)) as [id E1] by (by apply gateway_knows).
    assert (∃ id, route gateway_routes method path = inl (GwProxy t', id)) as [id' E2] by (by apply gateway_knows).
    congruence.
Qed.

(** The gateway does not know the metrics of a machine under that path. *)
Lemma metrics_by_id_lost :
  (∃ st, route gateway_routes "GET" "/api/v1/ws/metrics/vm1" = inr st) ∧
  knows ToControlPlane "GET" "/api/v1/ws/metrics/vm1" = true.
Proof using HR.
  split.
  - destruct (route gateway_routes _ _) as [[e id]|st] eqn:E'; [exfalso|by exists st].
    destruct (route_in _ _ _ _ _ E') as (p & Hin & (params & Hm & _)).
    assert (Hall : forallb (λ x : string * string * gw_endpoint,
      bool_decide (matches x.1.2 "/api/v1/ws/metrics/vm1" = None)) gateway_routes = true) by (vm_compute; reflexivity).
    pose proof (forallb_elem _ _ _ Hall Hin) as Hok. cbn [fst snd] in Hok. by rewrite Hm in Hok.
  - apply knows_spec; [vm_compute; set_solver|]. exists metrics_pattern, "vm1". split.
    + eapply bool_decide_unpack. vm_compute. exact I.
    + exists ["vm1"]. split; vm_compute; reflexivity.
Qed.

(** A slash at the end: the gateway forwards the creation of a network, and the
    network service does not know the path. *)
Lemma trailing_slash_lost :
  (∃ id, route gateway_routes "POST" "/api/v1/networks/" = inl (GwProxy ToNetwork, id)) ∧
  knows ToNetwork "POST" "/api/v1/networks/" = false.
Proof using HR.
  assert (Hgw : ("POST", "/api/v1/networks/", GwProxy ToNetwork) ∈ gateway_routes).
  { eapply bool_decide_unpack. vm_compute. exact I. }
  assert (Hself : names "/api/v1/networks/" "/api/v1/networks/" "") by (exists []; split; vm_compute; reflexivity).
  split.
  - destruct (route gateway_routes _ _) as [[e id]|st] eqn:E'.
    + exists id. destruct (route_in _ _ _ _ _ E') as (p & Hin & Hn).
      by rewrite (forwarded_apart _ _ _ _ _ _ _ _ _ Hgw Hin Hself Hn).
    + destruct (route_none _ _ _ _ E') as [_ Hnone].
      by destruct (not_elem_of_nil (A:=string) "" (Hnone _ _ [] Hgw ltac:(vm_compute; reflexivity))).
  - unfold knows, finds. destruct (route network_routes _ _) as [[e i]|] eqn:E'; [|done].
    destruct (route_in _ _ _ _ _ E') as (p & Hin & (params & Hm & _)). exfalso.
    assert (Hall : forallb (λ x : string * string * network_endpoint,
      negb (String.eqb x.1.1 "POST") || bool_decide (matches x.1.2 "/api/v1/networks/" = None)) network_routes = true)
      by (vm_compute; reflexivity).
    pose proof (forallb_elem _ _ _ Hall Hin) as Hok. cbn [fst snd] in Hok. rewrite Hm in Hok. done.
Qed.
End agreement.
