(* ===== verification/HandlerWitnesses.v ===== *)
(** A router that keeps the laws, and requests to the deployed control plane
    over HTTP that show the hypotheses of the theorems can hold. *)
From stdpp Require Import base gmap strings list numbers.
From S2P Require Import Prelude.
From S2P Require Import GoStd.
From S2P Require Import GoJson.
From S2P Require Import Domain.
From S2P Require Import Interfaces.
From S2P Require Import ControlPlane.
From S2P Require Import Resources.
From S2P Require Import Lifecycle.
From S2P Require Import PgControl.
From S2P Require Import PgSound.
From S2P Require Import Deployment.
From S2P Require Import Witnesses.
From S2P Require Import Http.
From S2P Require Import Requests.
From S2P Require Import Streams.
From S2P Require Import Handlers.
From S2P Require Import HandlerProofs.
From S2P Require Import Storage.
From S2P Require Import StorageProofs.
From S2P Require Import StorageWitnesses.
From S2P Require Import StorageHandlers.
From S2P Require Import Network.
From S2P Require Import NetworkProofs.
From S2P Require Import NetworkWitnesses.
From S2P Require Import NetworkHandlers.
From S2P Require Import Scheduler.
From S2P Require Import SchedulerHandlers.
From S2P Require Import Gateway.
From stdpp Require Import options.

(** * A router: the first entry that matches *)
Fixpoint find_route {E} (t : table E) (method path : string) (other : bool) : (E * string) + Z :=
  match t with
  | [] => inr (if other then 405 else 404)%Z
  | (m, p, e) :: t' =>
      match matches p path with
      | Some params => if String.eqb m method then inl (e, hd "" params) else find_route t' method path true
      | None => find_route t' method path other
      end
  end.

#[export] Instance first_router : Router := λ E t method path, find_route t method path false.

Lemma find_route_in {E} (t : table E) method path other e id :
  find_route t method path other = inl (e, id) → ∃ p, (method, p, e) ∈ t ∧ names p path id.
Proof.
  revert other. induction t as [|[[m p] e'] t IH]; intros other; simpl; [done|].
  destruct (matches p path) as [ps|] eqn:Em.
  - destruct (String.eqb_spec m method) as [->|].
    + intros [= -> <-]. exists p. split; [by left|]. by exists ps.
    + intros (q & Hq & ?)%IH. exists q. split; [by right|done].
  - intros (q & Hq & ?)%IH. exists q. split; [by right|done].
Qed.

Lemma find_route_none {E} (t : table E) method path other st :
  find_route t method path other = inr st → (st = 404%Z ∨ st = 405%Z) ∧
  ∀ p e params, (method, p, e) ∈ t → matches p path ≠ Some params.
Proof.
  revert other. induction t as [|[[m p] e'] t IH]; intros other; simpl.
  - destruct other; intros [= <-]; (split; [auto|]); intros p e ps []%not_elem_of_nil.
  - destruct (matches p path) as [ps|] eqn:Em.
    + destruct (String.eqb_spec m method) as [->|Hm]; [done|].
      intros [Hst Hn]%IH. split; [done|]. intros q e qs [[= -> -> ->]|Hq]%elem_of_cons; [done|by eapply Hn].
    + intros [Hst Hn]%IH. split; [done|]. intros q e qs [[= -> -> ->]|Hq]%elem_of_cons; [by rewrite Em|by eapply Hn].
Qed.

#[export] Instance first_router_laws : RouterLaws.
Proof.
  split.
  - intros E t method path e id. apply find_route_in.
  - intros E t method path st [Hst Hn]%find_route_none. split; [done|]. intros p e ps Hin Hm. by destruct (Hn p e ps).
Qed.

(** An upgrade that looks at the header, and streams of three ticks. *)
#[export] Instance header_upgrader : Upgrader := {
  upgrade r := if String.eqb (header r "Upgrade") "websocket" then None else Some 400%Z;
  stream_length _ := 3;
}.
#[export] Instance header_upgrader_laws : UpgraderLaws.
Proof. intros r st. unfold upgrade, header_upgrader. destruct (String.eqb _ _); [done|]. intros [= <-]. lia. Qed.

(** * Requests *)
Definition ping : M (World (U:=text)) () := mret ().
Lemma ping_idle : idle pg_abs ping.
Proof. intros w. by apply wp_ret. Qed.

Definition with_key (method path body : string) : Request :=
  mkRequest method path [("X-API-Key", "secret")] [("force", "true")] body.
Definition power_off_rq : Request := with_key "POST" "/api/v1/vms/vm-run/power-off" "".
Definition get_rq : Request := with_key "GET" "/api/v1/vms/vm-run" "".
Definition bare_rq : Request := mkRequest "DELETE" "/api/v1/vms/vm-run" [] [("force", "true")] "".

Definition status (r : outcome (Response Value) * World (U:=text)) : Z :=
  match r.1 with Ret resp => rs_Status resp | _ => 0 end.

Lemma http_refines_witness :
  status (http_server svc ping "secret" power_off_rq w0) = 200%Z ∧
  let w' := (http_server svc ping "secret" power_off_rq w0).2 in
  w' = w0 ∨ ∃ pattern e id,
    (rq_Method power_off_rq, pattern, e) ∈ server_routes ∧ names pattern (rq_Path power_off_rq) id ∧ rq_Method power_off_rq ≠ MethodOptions ∧
    (health_path (rq_Path power_off_rq) = true ∨ ("secret" ≠ "" ∧ presents power_off_rq "secret")) ∧
    lc_step (op_at pg_key e id power_off_rq) (statuses (pg_abs w0)) (statuses (pg_abs w')) ∧
    ∀ j, statuses (pg_abs w') !! j ≠ statuses (pg_abs w0) !! j → named_machine pg_key e id power_off_rq (pg_abs w0) j.
Proof.
  split; [vm_compute; reflexivity|].
  apply (http_refines_lifecycle pg_abs pg_key svc ping ping_idle).
Defined.

Lemma get_safe_witness :
  status (http_server svc ping "secret" get_rq w0) = 200%Z ∧
  pg_abs (http_server svc ping "secret" get_rq w0).2 = pg_abs w0.
Proof.
  split; [vm_compute; reflexivity|].
  by apply (get_requests_are_safe pg_abs pg_key svc ping ping_idle).
Defined.

Definition health_rq : Request := mkRequest "GET" "/health/ready" [] [] "".

Lemma no_key_witness :
  (∃ resp, (∀ w, http_server svc ping "secret" bare_rq w = (Ret resp, w)) ∧
    (rs_Status resp = 204 ∨ rs_Status resp = 401 ∨ rs_Status resp = 500)%Z ∧
    ∀ v, rs_Body resp ≠ BJson v) ∧
  status (http_server svc ping "secret" health_rq w0) = 200%Z ∧
  pg_abs (http_server svc ping "secret" health_rq w0).2 = pg_abs w0.
Proof.
  split; [|split; [vm_compute; reflexivity|]].
  - apply (no_key_no_effect pg_abs pg_key svc ping ping_idle "secret" bare_rq); [|vm_compute; reflexivity].
    intros [_ Hp]. apply provided_key_spec in Hp; [|done]. by vm_compute in Hp.
  - apply (no_key_no_effect pg_abs pg_key svc ping ping_idle "secret" health_rq).
    intros [_ Hp]. apply provided_key_spec in Hp; [|done]. by vm_compute in Hp.
Defined.

Lemma answers_typed_witness : ∃ resp,
  (http_server svc ping "secret" get_rq w0).1 = Ret resp ∧
  ((rs_Status resp = 204 ∧ rq_Method get_rq = MethodOptions ∧ rs_Body resp = BEmpty)%Z ∨
   ((rs_Status resp = 401 ∨ rs_Status resp = 500)%Z ∧ ∃ msg, rs_Body resp = BError msg) ∨
   ((rs_Status resp = 404 ∨ rs_Status resp = 405)%Z ∧ rs_Body resp = BText "") ∨
   ∃ pattern e, (rq_Method get_rq, pattern, e) ∈ server_routes ∧ conforms (contract_of e) resp).
Proof.
  eexists. split; [vm_compute; reflexivity|].
  eapply (answers_typed pg_abs pg_key svc ping ping_idle "secret" get_rq w0). vm_compute. reflexivity.
Defined.

(** Routing finds the endpoint and the id; the fixed path before the variable one;
    the router's own answers. *)
Example routes_found :
  route server_routes "POST" "/api/v1/vms/vm-run/power-off" = inl (EpPowerOffVM, "vm-run") ∧
  route server_routes "GET" "/api/v1/images/official" = inl (EpListOfficialImages, "") ∧
  route server_routes "GET" "/api/v1/vms" = inl (EpListVMs, "") ∧
  route server_routes "PATCH" "/api/v1/vms/vm-run" = inr 405%Z ∧
  route server_routes "GET" "/metrics" = inr 404%Z.
Proof. vm_compute. by split_and!. Qed.

(** * The other services *)
Definition resize_rq : Request :=
  with_key "PUT" "/api/v1/storage/volumes/v/resize" (Marshal (JObj [("size_bytes", JNum 8192)])).
Definition subnet_rq : Request :=
  with_key "POST" "/api/v1/networks/n1/subnets"
    (Marshal (JObj [("name", JStr "x"); ("cidr", JStr "10.0.0.128/25"); ("dhcp", JBool true)])).

Definition statuses_of {V} (l : list (outcome (Response V))) : list Z :=
  (λ o, match o with Ret resp => rs_Status resp | _ => 0%Z end) <$> l.

Lemma storage_http_witness :
  statuses_of (serve_all (storage_server (mret ()) "secret") [resize_rq; bare_rq] sw1).1 = [200; 401]%Z ∧
  wf (s_db (serve_all (storage_server (mret ()) "secret") [resize_rq; bare_rq] sw1).2) ∧
  Forall (λ o, ∃ resp, o = Ret resp) (serve_all (storage_server (mret ()) "secret") [resize_rq; bare_rq] sw1).1.
Proof.
  split; [vm_compute; reflexivity|].
  apply (storage_http_safe (U:=text) (mret ())); [by intros w Hw|apply sdb1_wf].
Defined.

Lemma network_http_witness :
  statuses_of (serve_all (network_server (mret ()) "secret") [subnet_rq; bare_rq] nw1).1 = [201; 401]%Z ∧
  nwf (n_db (serve_all (network_server (mret ()) "secret") [subnet_rq; bare_rq] nw1).2) ∧
  Forall (λ o, ∃ resp, o = Ret resp) (serve_all (network_server (mret ()) "secret") [subnet_rq; bare_rq] nw1).1.
Proof.
  split; [vm_compute; reflexivity|].
  apply (network_http_safe (U:=text) (mret ())); [by intros w Hw|apply ndb1_wf].
Defined.

Definition power_off_path : string := "/api/v1/vms/vm-run/power-off".
Definition stream_path : string := "/api/v1/ws/vm/vm-run/state".
Lemma gateway_agree_witness :
  knows ToControlPlane "POST" power_off_path = true ∧ knows ToControlPlane "GET" stream_path = true ∧
  (∀ t, (∃ id, route gateway_routes "POST" power_off_path = inl (GwProxy t, id)) ↔ knows t "POST" power_off_path = true ∧ ¬ ws_path power_off_path) ∧
  (ws_path stream_path → knows ToControlPlane "GET" stream_path = true →
     (∃ e id, route gateway_routes "GET" stream_path = inl (e, id) ∧ is_stream e = true) ∨ is_Some (matches metrics_pattern stream_path)).
Proof.
  split; [vm_compute; reflexivity|]. split; [vm_compute; reflexivity|]. split.
  - apply (gateway_routes_agree "POST" power_off_path); [|vm_compute; reflexivity]. eapply bool_decide_unpack. vm_compute. exact I.
  - apply (gateway_routes_agree "GET" stream_path); [|vm_compute; reflexivity]. eapply bool_decide_unpack. vm_compute. exact I.
Defined.

(** With the header of an upgrade a stream opens; without, or without a key the
    stream accepts, it is refused. *)
Definition stream_rq (h : list (string * string)) : Request := mkRequest "GET" stream_path h [] "".
Example stream_answers :
  status (http_server svc ping "secret" (stream_rq [("X-API-Key", "secret"); ("Upgrade", "websocket")]) w0) = 101%Z ∧
  status (http_server svc ping "secret" (stream_rq [("X-API-Key", "secret")]) w0) = 400%Z ∧
  (http_server svc ping "secret" (stream_rq [("Sec-WebSocket-Protocol", "Bearer secret")]) w0).1
  = Ret (add_headers cors_headers (mkResponse 401%Z [("Content-Type", "text/plain; charset=utf-8")] (BText no_key_text.2))).
Proof. split_and!; vm_compute; reflexivity. Qed.

(** A preflight request carries no key: the control plane answers it, the other
    services and the gateway refuse it. *)
Definition preflight_rq : Request :=
  mkRequest "OPTIONS" "/api/v1/networks" [("Origin", "https://console.example")] [] "".
Definition echo_target (t : target) (r : Request) : M (World (U:=text)) (option (Response Value)) := mret None.
Example preflight_answers :
  status (http_server svc ping "secret" preflight_rq w0) = 204%Z ∧
  statuses_of (serve_all (network_server (mret ()) "secret") [preflight_rq] nw1).1 = [401]%Z ∧
  statuses_of (serve_all (storage_server (mret ()) "secret") [preflight_rq] sw1).1 = [401]%Z ∧
  statuses_of (serve_all (gateway_server VCheck echo_target (mret true) "secret") [preflight_rq] w0).1 = [401]%Z.
Proof. vm_compute. by split_and!. Qed.

(** * The scheduler *)
#[export] Instance answer_500 : Recoverer := λ W V next r w,
  match next r w with
  | (Panic, w') => (Ret (WriteHeader StatusInternalServerError), w')
  | ow => ow
  end.
#[export] Instance answer_500_laws : RecovererLaws.
Proof.
  split; unfold recoverer, answer_500.
  - intros W V next r w resp w' E. by rewrite E.
  - intros W V next r w w' E. rewrite E. by eexists.
Qed.

Definition nodes_ab : option (outcome (list NodeInfo)) := Some (Ret [node_b; node_a]).
Definition all_jobs (jobs : Jobs) : list ScheduledJob := (map_to_list jobs).*2.
Definition schedule_body : string := Marshal (JObj [("vm_id", JStr "vm1"); ("priority", JNum 5);
  ("constraints", JObj [("required_labels", JArr [JStr "zone=east"])])]).
Definition schedule_rq : Request := with_key "POST" "/api/v1/scheduler/schedule" schedule_body.
Definition east : option SchedulingConstraints := Some (mkConstraints "" ["zone=east"] [] [] false "").

Lemma scheduler_requests_witness :
  scheduler_server nodes_ab all_jobs "secret" schedule_rq ∅ =
    (Ret (mkResponse StatusOK (cors_headers ++ json_header) (BJson (ScNode "a"))), {["vm1" := mkJob "vm1" "a" 5 east]}) ∧
  ∃ resp jobs', scheduler_server nodes_ab all_jobs "secret" schedule_rq ∅ = (Ret resp, jobs') ∧
    sched_change nodes_ab schedule_rq (rs_Status resp) ∅ jobs' ∧
    (jobs' ≠ ∅ → "secret" ≠ "" ∧ presents schedule_rq "secret").
Proof.
  split; [vm_compute; reflexivity|].
  apply (scheduler_requests_place nodes_ab ltac:(done) all_jobs "secret" schedule_rq ∅).
Defined.

(** The scheduler of [main] refuses the same request; a page number whose offset
    wraps around makes the handler panic. *)
Definition far_rq : Request := mkRequest "GET" "/api/v1/scheduler/jobs" [("X-API-Key", "secret")]
  [("page", "461168601842738792"); ("per_page", "20")] "".
Example scheduler_main_answers :
  (scheduler_server main_registry all_jobs "secret" schedule_rq ∅).1
  = Ret (mkResponse 500 (cors_headers ++ json_header) (BError "node registry not configured")) ∧
  statuses_of (serve_all (scheduler_server nodes_ab all_jobs "secret") [schedule_rq; far_rq] ∅).1 = [200; 500]%Z.
Proof. vm_compute. by split. Qed.
