(* ===== verification/MetricsStream.v ===== *)
(** The stream of metrics: [HandleMetrics] of [internal/ws/metrics.go] with the
    resolvers of the control plane and of the gateway
    ([services/*/handler/metrics_ws.go]), over the collector of [Metrics].

    A stream sends one message a tick, computed on the node as it is then, until
    the request is cancelled (the list of ticks ends) or a write fails.

    Theorem: every tick of the system stream gives a message with a processor
    usage that is a percentage. *)
From stdpp Require Import base gmap strings list numbers.
From S2P Require Import Prelude.
From S2P Require Import GoStd.
From S2P Require Import GoJson.
From S2P Require Import Domain.
From S2P Require Import Host.
From S2P Require Import Float64.
From S2P Require Import HostInfo.
From S2P Require Import AgentProofs.
From S2P Require Import Metrics.
From S2P Require Import Http.
From S2P Require Import Streams.
From S2P Require Import Config.
From stdpp Require Import options.

Inductive metrics_msg :=
| MsgVM (vm : VMMetrics)
| MsgSystem (sys : SystemMetrics)
| MsgError (text : string).

(** A write: what is left of the connection, or none when it fails. *)
Definition spend (budget : option nat) : option (option nat) :=
  match budget with
  | None => Some None
  | Some O => None
  | Some (S b) => Some (Some b)
  end.

(** * The system *)
Section system.
Context (statfs : M HW (Z * Z * Z)).

(** A failed write of a message ends the stream, one of an error does not. *)
Fixpoint system_stream (c : Collector) (nodes : list HW) (budget : option nat) : list metrics_msg :=
  match nodes with
  | [] => []
  | w :: nodes' =>
      match (CollectSystem statfs c w).1 with
      | Ret (sys, c') =>
          match spend budget with
          | None => []
          | Some b => MsgSystem sys :: system_stream c' nodes' b
          end
      | Err e =>
          match spend budget with
          | None => system_stream c nodes' budget
          | Some b => MsgError e :: system_stream c nodes' b
          end
      | Panic => []
      end
  end.
End system.

(** * A machine *)

(** The name, the status, the processors and the memory of a machine. *)
Definition VMResolver : Type := string → string * string * Z * Z.

(** The control plane looks the machine up ([h.svc.GetVM], whose error it drops). *)
Definition control_plane_resolver (GetVM : string → option VirtualMachine) : VMResolver := λ vmID,
  match GetVM vmID with
  | Some vm => (vm_Name vm, string_of_VMStatus (vm_Status vm), vm_VCpus vm, vm_MemoryMB vm)
  | None => (vmID, "unknown", 0, 0)%Z
  end.
Definition gateway_resolver : VMResolver := λ vmID, (vmID, "running", 0, 0)%Z.

Definition resolve (resolver : VMResolver) (vmID : string) : string * string * Z * Z :=
  let '(name, status, vcpus, mem) := resolver vmID in
  (if String.eqb name "" then vmID else name, if String.eqb status "" then "unknown" else status, vcpus, mem).

Fixpoint vm_stream (resolvers : list VMResolver) (vmID : string) (nodes : list HW) (budget : option nat) : list metrics_msg :=
  match resolvers, nodes with
  | resolver :: resolvers', w :: nodes' =>
      let '(name, status, vcpus, mem) := resolve resolver vmID in
      let sent vm := match spend budget with
                     | None => []
                     | Some b => MsgVM vm :: vm_stream resolvers' vmID nodes' b
                     end in
      match (CollectVM vmID name status vcpus mem w).1 with
      | Ret vm => sent vm
      | Err _ => sent (mkVMMetrics vmID "" status 0 0 fzero 0 fzero 0 0 0 0 0 0 0)
      | Panic => []
      end
  | _, _ => []
  end.

(** * The handler *)
Definition ExtractMetricsVMID (r : Request) (id : string) : string := extractVMID r id.

Definition HandleMetrics (validKey : string) (r : Request) (id : string) (statfs : M HW (Z * Z * Z))
    (resolvers : list VMResolver) (nodes : list HW) (budget : option nat) :
  Response json + (list (string * string) * Z * list metrics_msg) :=
  match open_stream validKey r with
  | inl resp => inl resp
  | inr h =>
      let vmID := ExtractMetricsVMID r id in
      inr (h, ParseMetricsInterval r,
           if String.eqb vmID "" then system_stream statfs NewCollector nodes budget
           else vm_stream resolvers vmID nodes budget)
  end.

(** * Every tick is a message *)
Definition message_ok (m : metrics_msg) : Prop :=
  match m with MsgSystem sys => percent (cpu_UsagePercent (sm_CPU sys)) | _ => False end.

(** The system stream sends one message a tick, on however many different states
    of the node, as many as the connection takes; none is an error, and the
    processor usage in each is a number between 0 and 100. *)
Theorem system_stream_complete statfs c nodes budget : does (λ _, True) statfs →
  length (system_stream statfs c nodes budget) =
    match budget with None => length nodes | Some b => Nat.min b (length nodes) end ∧
  Forall message_ok (system_stream statfs c nodes budget).
Proof.
  intros Hs. revert c budget. induction nodes as [|w nodes IH]; intros c budget; simpl.
  { split; [|done]. destruct budget; simpl; lia. }
  destruct (collect_system_ok statfs c w Hs) as (sys & c' & w' & -> & Hp). simpl.
  destruct budget as [[|b]|]; simpl; [done|..].
  - destruct (IH c' (Some b)) as [IH1 IH2]. split; [by rewrite IH1|by constructor].
  - destruct (IH c' None) as [IH1 IH2]. split; [by rewrite IH1|by constructor].
Qed.

(** The gateway's resolver gives every name the status running. *)
Example gateway_reports_running : (resolve gateway_resolver "no-such-machine").1.1.2 = "running".
Proof. reflexivity. Qed.
