(* ===== verification/Deadlines.v ===== *)
(** Pings and deadlines of the WebSocket streams: [setupPingPong] of
    [internal/ws/ws.go] beside a stream that writes to the same connection, and
    the deadline of the reads of [HandleConsole].

    The connection of gorilla/websocket is a parameter with the laws its
    documentation gives: a write deadline stays until it is set again, a write
    after it fails, and after a write that timed out, or when the connection is
    closed, all writes fail.  The goroutine that pings sets the deadline of
    everybody.  Pings and ticks of the stream and the end of the request come in
    any order, each at its time, one write at a time (two at once are not allowed
    by the library, and nothing in the code prevents them).

    Theorems: the streams of a machine's state, which set no deadline themselves,
    send nothing more once a tick comes ten seconds after a ping that no other
    followed, and do not end by themselves; a
    stream that sets the deadline before every write loses nothing; a console
    whose client is silent is closed after a minute. *)
From stdpp Require Import base gmap strings list numbers sorting.
From S2P Require Import Prelude.
From S2P Require Import GoStd.
From S2P Require Import GoJson.
From S2P Require Import Domain.
From S2P Require Import Http.
From S2P Require Import Streams.
From S2P Require Import VMState.
From S2P Require Import Config.
From stdpp Require Import options.

#[local] Set Default Proof Using "Type*".
Local Open Scope Z_scope.

(** * The connection *)
Inductive frame (A : Type) := PingFrame | TextFrame (m : A).
Arguments PingFrame {A}.
Arguments TextFrame {A} m.

(** [*websocket.Conn]: a write at a time has an error, or none. *)
Class WsConn (A C : Type) := {
  SetWriteDeadline : Z → C → C;
  WriteFrame : Z → frame A → C → option string * C;
  CloseConn : C → C;
  write_deadline : C → option Z;
  corrupt : C → Prop;
}.
Class WsConnLaws (A C : Type) `{WsConn A C} := {
  law_set (t : Z) (c : C) : write_deadline (SetWriteDeadline t c) = Some t ∧ (corrupt c → corrupt (SetWriteDeadline t c));
  law_write_keeps t (f : frame A) (c : C) : write_deadline (WriteFrame t f c).2 = write_deadline c;
  law_write_late t (f : frame A) (c : C) d : write_deadline c = Some d → d ≤ t →
    is_Some (WriteFrame t f c).1 ∧ corrupt (WriteFrame t f c).2;
  law_write_corrupt t (f : frame A) (c : C) : corrupt c → is_Some (WriteFrame t f c).1 ∧ corrupt (WriteFrame t f c).2;
  law_closed (c : C) : corrupt (CloseConn c);
}.

(** A connection at a moment, and the frames whose writes succeeded. *)
Record Wire (A C : Type) := mkWire { wi_now : Z; wi_conn : C; wi_sent : list (Z * frame A) }.
Arguments mkWire {A C}.
Arguments wi_now {A C}.
Arguments wi_conn {A C}.
Arguments wi_sent {A C}.

Section wire.
Context {A C : Type} `{WsConn A C}.

Definition at_time (t : Z) (w : Wire A C) : Wire A C := mkWire t (wi_conn w) (wi_sent w).

Definition write_frame (f : frame A) : M (Wire A C) () := λ w,
  match WriteFrame (wi_now w) f (wi_conn w) with
  | (None, c) => (Ret (), mkWire (wi_now w) c (wi_sent w ++ [(wi_now w, f)]))
  | (Some e, c) => (Err e, mkWire (wi_now w) c (wi_sent w))
  end.

(** [conn.SetWriteDeadline(time.Now().Add(10 * time.Second))] *)
Definition ten_seconds : M (Wire A C) () := λ w,
  (Ret (), mkWire (wi_now w) (SetWriteDeadline (wi_now w + 10 * Time.Second) (wi_conn w)) (wi_sent w)).

(** A tick of the goroutine of [setupPingPong]; whether it goes on. *)
Definition ping_tick : M (Wire A C) bool :=
  _ ← ten_seconds;
  r ← attempt (write_frame PingFrame);
  mret (match r with inl _ => true | inr _ => false end).

(** How the streams of the state write, and how those of logs and metrics do. *)
Definition write_plain (m : A) : M (Wire A C) () := ignore (write_frame (TextFrame m)).
Definition write_guarded (m : A) : M (Wire A C) () := _ ← ten_seconds; write_frame (TextFrame m).
End wire.

(** * A session: the goroutine that pings, and the handler *)
Inductive stream_event (I : Type) := PingTick | Tick (i : I) | Cancel.
Arguments PingTick {I}.
Arguments Tick {I} i.
Arguments Cancel {I}.

Record Session (A C S : Type) := mkSession {
  se_wire : Wire A C; se_state : S; se_pinging : bool; se_serving : bool }.
Arguments mkSession {A C S}.
Arguments se_wire {A C S}.
Arguments se_state {A C S}.
Arguments se_pinging {A C S}.
Arguments se_serving {A C S}.

Section session.
Context {A C I S : Type} `{WsConn A C} (send : A → M (Wire A C) ()) (tick : I → S → list A * S).

Definition close_wire (w : Wire A C) : Wire A C := mkWire (wi_now w) (CloseConn (wi_conn w)) (wi_sent w).

(** A handler that returns closes the connection. *)
Definition session_step (s : Session A C S) (te : Z * stream_event I) : Session A C S :=
  let w := at_time te.1 (se_wire s) in
  match te.2 with
  | PingTick =>
      if se_pinging s then
        let '(r, w') := ping_tick w in
        mkSession w' (se_state s) (match r with Ret b => b | _ => false end) (se_serving s)
      else mkSession w (se_state s) false (se_serving s)
  | Tick i =>
      if se_serving s then
        let '(ms, st) := tick i (se_state s) in
        let '(r, w') := iterM send ms w in
        match r with
        | Ret _ => mkSession w' st (se_pinging s) true
        | _ => mkSession (close_wire w') st (se_pinging s) false
        end
      else mkSession w (se_state s) (se_pinging s) false
  | Cancel => mkSession (close_wire w) (se_state s) (se_pinging s) false
  end.

Definition play (sched : list (Z * stream_event I)) (s : Session A C S) : Session A C S := fold_left session_step sched s.

(** The session when the connection is upgraded, the pings are set up and the
    first message is written. *)
Definition open_session (t0 : Z) (c0 : C) (hello : A) (st : S) : Session A C S :=
  mkSession (write_plain hello (mkWire t0 c0 [])).2 st true true.

(** Everything the handler has to say. *)
Fixpoint spoken (sched : list (Z * stream_event I)) (st : S) : list A :=
  match sched with
  | [] => []
  | (_, Tick i) :: sched' => let '(ms, st') := tick i st in ms ++ spoken sched' st'
  | _ :: sched' => spoken sched' st
  end.
End session.

Definition text_of_frame {A} (x : Z * frame A) : option A := match x.2 with TextFrame m => Some m | PingFrame => None end.
Definition texts {A C} (w : Wire A C) : list A := omap text_of_frame (wi_sent w).

(** * Writing *)
Section writing.
Context {A C : Type} `{WsConnLaws A C}.
Implicit Types w : Wire A C.

Lemma plain_total m w : (write_plain m w).1 = Ret ().
Proof. unfold write_plain, ignore, write_frame. by destruct (WriteFrame _ _ _) as [[]?]. Qed.

Lemma plain_all_total ms w : (iterM write_plain ms w).1 = Ret ().
Proof.
  revert w. induction ms as [|m ms IH]; intros w; [done|].
  unfold iterM in *. cbn [foldM]. unfold mbind, M_bind. pose proof (plain_total m w) as Ht.
  destruct (write_plain m w) as [[[]| |] w1]; simplify_eq/=. apply IH.
Qed.
Lemma plain_all_cons m ms w : (iterM write_plain (m :: ms) w).2 = (iterM write_plain ms (write_plain m w).2).2.
Proof.
  unfold iterM. cbn [foldM]. unfold mbind, M_bind. pose proof (plain_total m w) as Ht.
  by destruct (write_plain m w) as [[[]| |] w1].
Qed.

(** A corrupt connection stays so, and nothing comes out of it. *)
Definition mute (w w' : Wire A C) : Prop := corrupt (wi_conn w') ∧ wi_sent w' = wi_sent w.
Lemma write_mute f w : corrupt (wi_conn w) → is_Some (WriteFrame (wi_now w) f (wi_conn w)).1 ∧ mute w (write_frame f w).2.
Proof.
  intros Hc. destruct (law_write_corrupt (wi_now w) f (wi_conn w) Hc) as [[e He] Hc']. unfold write_frame.
  destruct (WriteFrame _ _ _) as [o c]. simpl in *. subst o. split; [by exists e|done].
Qed.
Lemma plain_world m w : (write_plain m w).2 = (write_frame (TextFrame m) w).2.
Proof. unfold write_plain, ignore. by destruct (write_frame _ w) as [[]?]. Qed.
Lemma plain_all_mute ms w : corrupt (wi_conn w) → mute w (iterM write_plain ms w).2.
Proof.
  revert w. induction ms as [|m ms IH]; intros w Hc; [done|]. rewrite plain_all_cons, plain_world.
  destruct (write_mute (TextFrame m) w Hc) as [_ [Hc1 E1]]. destruct (IH _ Hc1) as [Hc2 E2]. split; [done|by rewrite E2].
Qed.

(** After the deadline one message is enough. *)
Lemma plain_late m ms w d : write_deadline (wi_conn w) = Some d → d ≤ wi_now w → mute w (iterM write_plain (m :: ms) w).2.
Proof.
  intros Hd Ht. rewrite plain_all_cons, plain_world.
  assert (mute w (write_frame (TextFrame m) w).2) as [Hc E].
  { destruct (law_write_late (wi_now w) (TextFrame m) (wi_conn w) d Hd Ht) as [[e He] Hc]. unfold write_frame.
    destruct (WriteFrame _ _ _) as [o c]. simpl in *. by subst o. }
  destruct (plain_all_mute ms _ Hc) as [Hc2 E2]. split; [done|by rewrite E2].
Qed.

Lemma plain_deadline m w : write_deadline (wi_conn (write_plain m w).2) = write_deadline (wi_conn w).
Proof.
  rewrite plain_world. unfold write_frame. pose proof (law_write_keeps (wi_now w) (TextFrame m) (wi_conn w)) as Hk.
  by destruct (WriteFrame _ _ _) as [[]?].
Qed.
Lemma plain_all_deadline ms w : write_deadline (wi_conn (iterM write_plain ms w).2) = write_deadline (wi_conn w).
Proof.
  revert w. induction ms as [|m ms IH]; intros w; [done|]. rewrite plain_all_cons, IH. apply plain_deadline.
Qed.
End writing.

(** * Streams that set no deadline *)
Section plain.
Context {A C I S : Type} `{WsConnLaws A C} (tick : I → S → list A * S).
Abbreviation session := (Session A C S).
Abbreviation run := (play write_plain tick).
Abbreviation sent s := (wi_sent (se_wire (s : session))).
Abbreviation conn s := (wi_conn (se_wire (s : session))).
Abbreviation pstep := (session_step write_plain tick).

Lemma step_tick s t i : pstep s (t, Tick i) =
  if se_serving s then
    mkSession (iterM write_plain (tick i (se_state s)).1 (at_time t (se_wire s))).2 (tick i (se_state s)).2 (se_pinging s) true
  else mkSession (at_time t (se_wire s)) (se_state s) (se_pinging s) false.
Proof.
  unfold session_step. cbn [fst snd]. destruct (se_serving s); [|done]. destruct (tick i (se_state s)) as [ms st]. cbn [fst snd].
  pose proof (plain_all_total ms (at_time t (se_wire s))) as Ht.
  by destruct (iterM write_plain ms (at_time t (se_wire s))) as [[[]| |] ?].
Qed.

Lemma ping_cases (w : Wire A C) : ∃ b w', ping_tick w = (Ret b, w') ∧
  write_deadline (wi_conn w') = Some (wi_now w + 10 * Time.Second) ∧
  (corrupt (wi_conn w) → corrupt (wi_conn w') ∧ wi_sent w' = wi_sent w).
Proof.
  unfold ping_tick, ten_seconds, mbind, M_bind, attempt, write_frame, mret, M_ret. cbn [wi_now wi_conn wi_sent].
  destruct (law_set (wi_now w + 10 * Time.Second) (wi_conn w)) as [Hd Hc].
  set (c1 := SetWriteDeadline _ _) in *.
  pose proof (law_write_keeps (wi_now w) PingFrame c1) as Hk. pose proof (law_write_corrupt (wi_now w) PingFrame c1) as Hw.
  destruct (WriteFrame _ _ _) as [[e|] c2]; simpl in *; (eexists _, _; split; [reflexivity|]; split; [simpl; congruence|]);
    intros Hcc; destruct (Hw (Hc Hcc)) as [[? He] ?]; [by split|discriminate He].
Qed.

(** Nothing comes out of a corrupt connection. *)
Lemma corrupt_step s te : corrupt (conn s) → corrupt (conn (pstep s te)) ∧ sent (pstep s te) = sent s.
Proof.
  intros Hc. destruct te as [t [|i|]].
  - unfold session_step. cbn [fst snd]. destruct (se_pinging s); [|done].
    destruct (ping_cases (at_time t (se_wire s))) as (b & w' & -> & _ & Hp). by apply Hp.
  - rewrite step_tick. destruct (se_serving s); [|done]. cbn [se_wire]. by apply (plain_all_mute _ (at_time t (se_wire s))).
  - split; [apply law_closed|done].
Qed.
Lemma corrupt_run sched s : corrupt (conn s) → sent (run sched s) = sent s.
Proof.
  revert s. induction sched as [|te sched IH]; intros s Hc; [done|]. destruct (corrupt_step s te Hc) as [Hc' Hs].
  unfold play in *. cbn [fold_left]. by rewrite IH.
Qed.

(** A handler ends only with the connection. *)
Definition closed_ok (s : session) : Prop := se_serving s = false → corrupt (conn s).
Lemma closed_step s te : closed_ok s → closed_ok (pstep s te).
Proof.
  unfold closed_ok. intros Hs. destruct te as [t [|i|]].
  - intros Hn. apply corrupt_step, Hs. revert Hn. unfold session_step. cbn [fst snd]. destruct (se_pinging s); [|done].
    by destruct (ping_tick _) as [r w'].
  - rewrite step_tick. by destruct (se_serving s) eqn:Es.
  - intros _. apply law_closed.
Qed.
Lemma closed_run sched s : closed_ok s → closed_ok (run sched s).
Proof. revert s. induction sched as [|te sched IH]; intros s Hs; [done|]. by apply IH, closed_step. Qed.

(** The deadline a ping set stays until the next. *)
Definition doomed (d : Z) (s : session) : Prop := corrupt (conn s) ∨ write_deadline (conn s) = Some d.
Lemma doomed_ping s t : se_pinging s = true → doomed (t + 10 * Time.Second) (pstep s (t, PingTick)).
Proof.
  intros Hp. unfold session_step, doomed. cbn [fst snd]. rewrite Hp.
  destruct (ping_cases (at_time t (se_wire s))) as (b & w' & -> & Hd & _). by right.
Qed.
Lemma doomed_run d sched s : Forall (λ te, te.2 ≠ PingTick) sched → doomed d s → doomed d (run sched s).
Proof.
  intros Hall. revert s. induction Hall as [|[t e] sched He Hall IH]; intros s Hd; [done|]. apply (IH (pstep s (t, e))). cbn in He.
  destruct Hd as [Hd|Hd]; [left; by apply corrupt_step|]. destruct e as [|i|]; [done| |left; apply law_closed].
  rewrite step_tick. right. destruct (se_serving s); [|done]. cbn [se_wire]. by rewrite plain_all_deadline.
Qed.

(** Only the end of the request ends the handler. *)
Lemma serving_run sched s : Forall (λ te, te.2 ≠ Cancel) sched → se_serving s = true → se_serving (run sched s) = true.
Proof.
  intros Hall. revert s. induction Hall as [|[t e] sched He Hall IH]; intros s Hs; [done|]. apply (IH (pstep s (t, e))). cbn in He.
  destruct e as [|i|]; [| |done].
  - unfold session_step. cbn [fst snd]. destruct (se_pinging s); [|done]. by destruct (ping_tick _).
  - rewrite step_tick. by rewrite Hs.
Qed.

Lemma falls_silent s0 before p between t i after : closed_ok s0 →
  se_pinging (run before s0) = true →
  Forall (λ te, te.2 ≠ PingTick) between → p + 10 * Time.Second ≤ t → (∀ st, (tick i st).1 ≠ []) →
  sent (run (before ++ (p, PingTick) :: between ++ (t, Tick i) :: after) s0) =
  sent (run (before ++ (p, PingTick) :: between) s0).
Proof.
  intros Hok Hping Hb Ht Hi. rewrite (app_comm_cons between), app_assoc. unfold play. rewrite (fold_left_app _ _ (_ :: after)). cbn [fold_left].
  set (s1 := fold_left _ (before ++ _ :: between) s0).
  assert (Hd : doomed (p + 10 * Time.Second) s1).
  { unfold s1. rewrite fold_left_app. cbn [fold_left]. apply doomed_run; [done|]. by apply doomed_ping. }
  assert (Hs : closed_ok s1) by (by apply (closed_run (before ++ _ :: between))).
  assert (Hlate : corrupt (conn (pstep s1 (t, Tick i))) ∧ sent (pstep s1 (t, Tick i)) = sent s1).
  { destruct Hd as [Hd|Hd]; [by apply corrupt_step|]. rewrite step_tick. destruct (se_serving s1) eqn:Es.
    - cbn [se_wire]. destruct (tick i (se_state s1)) as [[|m ms] st'] eqn:E; [by destruct (Hi (se_state s1)); rewrite E|]. cbn [fst].
      exact (plain_late m ms (at_time t (se_wire s1)) _ Hd Ht).
    - cbn. split; [|done]. by apply Hs. }
  destruct Hlate as [Hc He]. rewrite <-He. by apply (corrupt_run after).
Qed.
End plain.

(** * Streams that set the deadline before every write *)
Section guarded.
Context {A C I S : Type} `{WsConnLaws A C} (tick : I → S → list A * S).

(** A connection that holds: a write before the deadline succeeds. *)
Class Reliable (alive : C → Prop) : Prop := {
  law_alive_set t c : alive c → alive (SetWriteDeadline t c);
  law_alive_write t (f : frame A) c d : alive c → write_deadline c = Some d → t < d →
    (WriteFrame t f c).1 = None ∧ alive (WriteFrame t f c).2;
}.

Context (alive : C → Prop) `{!Reliable alive}.

Lemma guarded_sent f (w : Wire A C) : alive (wi_conn w) →
  ∃ w', (_ ← ten_seconds; write_frame f) w = (Ret (), w') ∧ alive (wi_conn w') ∧ wi_sent w' = wi_sent w ++ [(wi_now w, f)].
Proof.
  intros Ha. unfold ten_seconds, mbind, M_bind, write_frame. cbn [wi_now wi_conn wi_sent].
  destruct (law_set (wi_now w + 10 * Time.Second) (wi_conn w)) as [Hd _]. pose proof (law_alive_set (wi_now w + 10 * Time.Second) _ Ha) as Ha1.
  destruct (law_alive_write (wi_now w) f _ _ Ha1 Hd ltac:(unfold Time.Second; lia)) as [He Ha2].
  destruct (WriteFrame _ _ _) as [o c]. simpl in *. subst o. by eexists.
Qed.

Lemma guarded_all_sent ms (w : Wire A C) : alive (wi_conn w) →
  ∃ w', iterM write_guarded ms w = (Ret (), w') ∧ alive (wi_conn w') ∧ texts w' = texts w ++ ms.
Proof.
  revert w. induction ms as [|m ms IH]; intros w Hc; [exists w; rewrite app_nil_r; done|].
  destruct (guarded_sent (TextFrame m) w Hc) as (w1 & E & Hc1 & Hs1). change (write_guarded m w = (Ret (), w1)) in E.
  destruct (IH w1 Hc1) as (w' & E' & Hc' & Ht). exists w'. unfold iterM in *. cbn [foldM]. unfold mbind, M_bind.
  rewrite E, E'. split_and!; [done..|]. rewrite Ht. unfold texts. rewrite Hs1, omap_app. cbn. by rewrite <-app_assoc.
Qed.

Lemma ping_keeps (w : Wire A C) : alive (wi_conn w) →
  ∃ w', ping_tick w = (Ret true, w') ∧ alive (wi_conn w') ∧ texts w' = texts w.
Proof.
  intros Hc. destruct (guarded_sent PingFrame w Hc) as (w' & E & Hc' & Hs). exists w'. split_and!; [|done|].
  - unfold ping_tick, mbind, M_bind, attempt in *. destruct (ten_seconds w) as [[[]| |] w1]; [|done..]. by rewrite E.
  - unfold texts. rewrite Hs, omap_app. cbn. by rewrite app_nil_r.
Qed.

(** A stream that sets the deadline before every write sends everything it has to
    say, however long it lasts and whenever pings come, while the connection
    holds and the request is not cancelled. *)
Theorem guarded_stream_lasts sched (s : Session A C S) :
  Forall (λ te, te.2 ≠ Cancel) sched → alive (wi_conn (se_wire s)) → se_serving s = true →
  let s' := play write_guarded tick sched s in
  texts (se_wire s') = texts (se_wire s) ++ spoken tick sched (se_state s) ∧ se_serving s' = true ∧ se_pinging s' = se_pinging s.
Proof.
  intros Hall. revert s. induction Hall as [|[t e] sched Hl Hall IH]; intros s Hw Hs; cbn [spoken].
  { cbn. by rewrite app_nil_r. }
  unfold play in *. cbn [fold_left]. destruct e as [|i|]; [| |done].
  - destruct (se_pinging s) eqn:Ep.
    + destruct (ping_keeps (at_time t (se_wire s)) Hw) as (w' & E & Hc' & Ht).
      assert (Es : session_step write_guarded tick s (t, PingTick) = mkSession w' (se_state s) true (se_serving s))
        by (unfold session_step; cbn [fst snd]; rewrite Ep; by rewrite E).
      rewrite Es. destruct (IH (mkSession w' (se_state s) true (se_serving s)) Hc' Hs) as (H1 & H2 & H3).
      rewrite H1. cbn. rewrite Ht. by split_and!.
    + assert (Es : session_step write_guarded tick s (t, PingTick) = mkSession (at_time t (se_wire s)) (se_state s) false (se_serving s))
        by (unfold session_step; cbn [fst snd]; by rewrite Ep).
      rewrite Es. by apply (IH (mkSession (at_time t (se_wire s)) (se_state s) false (se_serving s))).
  - destruct (tick i (se_state s)) as [ms st] eqn:Et.
    destruct (guarded_all_sent ms (at_time t (se_wire s)) Hw) as (w' & E & Hc' & Ht).
    assert (Es : session_step write_guarded tick s (t, Tick i) = mkSession w' st (se_pinging s) true)
      by (unfold session_step; cbn [fst snd]; by rewrite Hs, Et, E).
    rewrite Es. destruct (IH (mkSession w' st (se_pinging s) true) Hc' eq_refl) as (H1 & H2 & H3).
    rewrite H1. cbn [se_wire se_state]. rewrite Ht, <-app_assoc. by split_and!.
Qed.
End guarded.

(** * The streams *)
Section state_streams.
Context {C : Type} `{WsConn state_msg C}.
Definition state_session (t0 : Z) (c0 : C) : Session state_msg C StreamState := open_session t0 c0 MConnected stream_start.
Definition gateway_session (t0 : Z) (c0 : C) : Session state_msg C string := open_session t0 c0 MConnected "".
End state_streams.

(** [TailFollow]: what a read makes it write. *)
Definition follow_tick (path : string) (ev : read_event) (st : ()) : list json * () :=
  (match ev with ReadLine line => [log_msg path (Strings.trim_right is_eol line)] | _ => [] end, st).

Lemma state_speaks vmID seen st : (state_tick vmID seen st).1 ≠ [].
Proof.
  unfold state_tick. destruct (seen_vm seen) as [[vm|]|]; [|done..].
  by destruct (image_part _ _ _), (log_part _ _ _).
Qed.
(** The gateway's tick writes nothing when the answer is no JSON object. *)
Definition answer_readable (f : Fetched) : Prop :=
  match fe_vm f with inl (200, body) => is_Some (into_object body) | _ => True end.
Lemma gateway_speaks `{FloatText} f last : answer_readable f → (gateway_tick f last).1 ≠ [].
Proof.
  unfold answer_readable, gateway_tick. destruct (fe_vm f) as [[code body]|e]; [|done]. intros Hr.
  destruct (Z.eqb_spec code 404); [done|]. destruct (Z.eqb_spec code 200) as [->|]; [|done]. cbn.
  by destruct Hr as [vm ->].
Qed.

(** C14: The streams of a machine's state fall silent.  Take any run of a stream,
    the control plane's or the gateway's, over any connection with the documented
    behaviour, in which the two goroutines do not write at the same moment.  When
    the goroutine that pings makes its ping at some time, and the stream has a
    tick (of the gateway's, one that has something to say) ten seconds later or
    more with no further ping in between (pings come every thirty seconds, ticks
    every second), then from this tick on nothing is sent, whatever the machine
    does, pings included; and the handler is not told and goes on until the
    request is cancelled. *)
Theorem state_streams_fall_silent {C} `{WsConnLaws state_msg C} `{FloatText} vmID t0 (c0 : C) p t :
  p + 10 * Time.Second ≤ t →
  (∀ before between seen after,
     let run sched := play write_plain (state_tick vmID) sched (state_session t0 c0) in
     se_pinging (run before) = true → Forall (λ te, te.2 ≠ PingTick) between →
     let early := before ++ (p, PingTick) :: between in
     let all := early ++ (t, Tick seen) :: after in
     wi_sent (se_wire (run all)) = wi_sent (se_wire (run early)) ∧
     (Forall (λ te, te.2 ≠ Cancel) all → se_serving (run all) = true)) ∧
  (∀ before between f after,
     let run sched := play write_plain gateway_tick sched (gateway_session t0 c0) in
     se_pinging (run before) = true → Forall (λ te, te.2 ≠ PingTick) between → answer_readable f →
     let early := before ++ (p, PingTick) :: between in
     let all := early ++ (t, Tick f) :: after in
     wi_sent (se_wire (run all)) = wi_sent (se_wire (run early)) ∧
     (Forall (λ te, te.2 ≠ Cancel) all → se_serving (run all) = true)).
Proof.
  intros Ht. split.
  - intros before between seen after run Hp Hb early all. split; [|intros Hc; by apply serving_run].
    unfold run, all, early. rewrite <-app_assoc, <-app_comm_cons. apply falls_silent; [by intros [=]|done..|]. intros st. apply state_speaks.
  - intros before between f after run Hp Hb Hf early all. split; [|intros Hc; by apply serving_run].
    unfold run, all, early. rewrite <-app_assoc, <-app_comm_cons. apply falls_silent; [by intros [=]|done..|]. intros st. by apply gateway_speaks.
Qed.

(** * A connection

    With the laws: what was sent is not kept, but the deadline and whether a write
    failed. *)
Record plain_conn := mkConn { pc_deadline : option Z; pc_corrupt : bool }.
Definition pc_late (t : Z) (c : plain_conn) : bool := match pc_deadline c with Some d => d <=? t | None => false end.
#[export] Instance plain_ws {A} : WsConn A plain_conn := {
  SetWriteDeadline t c := mkConn (Some t) (pc_corrupt c);
  WriteFrame t f c := if pc_corrupt c || pc_late t c then (Some "i/o timeout", mkConn (pc_deadline c) true) else (None, c);
  CloseConn c := mkConn (pc_deadline c) true;
  write_deadline := pc_deadline;
  corrupt c := pc_corrupt c = true;
}.
#[export] Instance plain_ws_laws {A} : WsConnLaws A plain_conn.
Proof.
  split; cbn.
  - done.
  - intros t f c. by destruct (pc_corrupt c || pc_late t c).
  - intros t f c d Hd Ht. assert (pc_late t c = true) as ->; [|rewrite orb_true_r; simpl; eauto].
    unfold pc_late. rewrite Hd. by apply Z.leb_le.
  - intros t f c ->. simpl. eauto.
  - done.
Qed.
#[local] Instance no_floats : FloatText := λ _, "".
Definition fresh_conn : plain_conn := mkConn None false.

(** A second of a session: the tick of the stream, a moment late, and the ping
    when it is due. *)
Definition clock_second {I} (i : I) (k : nat) : list (Z * stream_event I) :=
  let t := Z.of_nat k * Time.Second in
  (if (k mod 30 =? 0)%nat then [(t, PingTick)] else []) ++ [(t + Time.Millisecond, Tick i)].
Definition clock {I} (i : I) (n : nat) : list (Z * stream_event I) := mjoin (clock_second i <$> seq 1 n).

(** Two minutes of a running machine: the last message is that of the fortieth
    second at most, and the second ping is not sent; a log that grows by a line a
    second is streamed to the end. *)
Example two_minutes :
  let s := play write_plain (state_tick "vm1") (clock (seen_as VMStatusRunning) 120) (state_session 0 fresh_conn) in
  let g := play write_guarded (follow_tick "/x.log") (clock (ReadLine "line") 120) (open_session 0 fresh_conn (JStr "connected") ()) in
  List.last (fst <$> wi_sent (se_wire s)) 0 = 39 * Time.Second + Time.Millisecond ∧
  length (filter (λ x, text_of_frame x = None) (wi_sent (se_wire s))) = 1%nat ∧
  se_serving s = true ∧
  length (texts (se_wire g)) = 121%nat.
Proof. vm_compute. done. Qed.

(** One ping after half a minute, and a tick ten seconds later. *)
Lemma state_streams_witness :
  let run sched := play write_plain (state_tick "vm1") sched (state_session 0 fresh_conn) in
  let early := clock (seen_as VMStatusRunning) 29 ++ (30 * Time.Second, PingTick) :: [] in
  se_pinging (run (clock (seen_as VMStatusRunning) 29)) = true ∧
  wi_sent (se_wire (run (early ++ (40 * Time.Second, Tick (seen_as VMStatusRunning)) :: clock (seen_as VMStatusStopped) 10)))
  = wi_sent (se_wire (run early)).
Proof.
  assert (Hp : se_pinging (play write_plain (state_tick "vm1") (clock (seen_as VMStatusRunning) 29) (state_session 0 fresh_conn)) = true)
    by (vm_compute; reflexivity).
  split; [exact Hp|].
  destruct (state_streams_fall_silent "vm1" 0 fresh_conn (30 * Time.Second) (40 * Time.Second)) as [H _]; [vm_compute; discriminate|].
  apply (H (clock (seen_as VMStatusRunning) 29) [] (seen_as VMStatusRunning)); [exact Hp|constructor].
Defined.

(** * The reads of a console

    The messages of the client with the times they arrive; what is echoed, and
    when the handler ends if the client does not close the connection. *)
Fixpoint console_reads (now : Z) (arrivals : list (Z * string)) : list string * Z :=
  let deadline := now + 60 * Time.Second in
  match arrivals with
  | [] => ([], deadline)
  | (t, m) :: arrivals' =>
      if deadline <=? t then ([], deadline)
      else let '(ms, e) := console_reads (Z.max now t) arrivals' in (m :: ms, e)
  end.

Lemma last_from (x d : Z) l : List.last (x :: l) d = List.last l x.
Proof.
  revert x d. induction l as [|y l IH]; intros x d; [done|].
  change (List.last (x :: y :: l) d) with (List.last (y :: l) d). by rewrite !IH.
Qed.

(** A console is closed a minute after the last message it answered, and answers
    the messages that come less than a minute after one another. *)
Theorem console_closes_when_idle start arrivals : StronglySorted Z.le (start :: (fst <$> arrivals)) →
  ∃ answered missed, arrivals = answered ++ missed ∧
    console_reads start arrivals = (snd <$> answered, List.last (fst <$> answered) start + 60 * Time.Second) ∧
    match missed with
    | [] => True
    | (t, _) :: _ => List.last (fst <$> answered) start + 60 * Time.Second ≤ t
    end.
Proof.
  revert start. induction arrivals as [|[t m] arrivals IH]; intros start Hs; [by exists [], []|].
  cbn [console_reads]. destruct (Z.leb_spec (start + 60 * Time.Second) t) as [Hle|Hlt].
  { exists [], ((t, m) :: arrivals). by split_and!. }
  apply StronglySorted_inv in Hs as [Hs Hall]. cbn in Hall. apply Forall_cons in Hall as [Ht _].
  rewrite Z.max_r by done. destruct (IH t Hs) as (answered & missed & -> & E & Hm). rewrite E.
  exists ((t, m) :: answered), missed.
  rewrite !fmap_cons. cbn [fst snd]. rewrite last_from.
  by split_and!.
Qed.
