(* ===== verification/Startup.v ===== *)
(** Starting and stopping a program: [internal/bootstrap/bootstrap.go],
    [internal/database/database.go], [internal/nats/nats.go] and
    [internal/logging/logging.go].

    A program is a computation that may also end the process ([os.Exit] and
    [logger.Fatal], after which no deferred call runs).  Calls to pgx, nats.go
    and zap take their fate from a list, as in [Host]; what is done to the
    outside is recorded in order.  What pgx and zap compute (the configuration
    in an URL, the level a name stands for, their two default configurations) are
    parameters.

    Theorem: for every environment, every option and every pattern of
    failures, a service is started once or not at all, with the connections its
    options ask for, and which of them are closed at the end. *)
From stdpp Require Import base gmap strings list numbers.
From S2P Require Import Prelude.
From S2P Require Import GoStd.
From S2P Require Import Config.
From stdpp Require Import options.

(** * Programs that may exit *)
Inductive ending (A : Type) :=
| Done (a : A)
| Exit (code : Z)
| Crash.
Arguments Done {_} _.
Arguments Exit {_} _.
Arguments Crash {_}.

Definition Prog (S A : Type) : Type := S → ending A * S.

#[global] Instance Prog_ret {S} : MRet (Prog S) := λ A a s, (Done a, s).
#[global] Instance Prog_bind {S} : MBind (Prog S) := λ A B f m s,
  match m s with
  | (Done a, s') => f a s'
  | (Exit c, s') => (Exit c, s')
  | (Crash, s') => (Crash, s')
  end.

(** [defer d]: a return and a panic run it, the end of the process does not. *)
Definition defer {S A} (d : S → S) (m : Prog S A) : Prog S A := λ s,
  match m s with
  | (Exit c, s') => (Exit c, s')
  | (r, s') => (r, d s')
  end.

(** A call that returns an error value: the error is kept, a panic is one. *)
Definition call {S A} (m : M S A) : Prog S (A + string) := λ s,
  match m s with
  | (Ret a, s') => (Done (inl a), s')
  | (Err e, s') => (Done (inr e), s')
  | (Panic, s') => (Crash, s')
  end.

(** * The process *)
Inductive level := LInfo | LWarn | LError | LFatal.

(** What the source sets of a [pgxpool.Config]. *)
Record PoolConfig := mkPoolConfig {
  pc_ConnString : string; pc_MaxConns : Z; pc_MinConns : Z; pc_MaxConnLifetime : Z;
  pc_MaxConnLifetimeJitter : Z; pc_MaxConnIdleTime : Z; pc_HealthCheckPeriod : Z }.

Record ZapConfig := mkZapConfig {
  zc_Level : Z; zc_EncodeLevel : string; zc_EncodeTime : string; zc_Encoding : string }.

(** Everything a connection attempt is bounded by; [None]: no deadline. *)
Definition Ctx : Type := option Z.
Definition WithTimeout (c : Ctx) (d : Z) : Ctx :=
  Some (match c with None => d | Some d' => Z.min d' d end).

Inductive action :=
| Stderr (msg : string)
| Logged (l : level) (msg : string)
| LoggerBuilt (c : ZapConfig)
| LoggerSynced
| SignalsWatched
| SignalsReleased
| PoolOpened (c : PoolConfig) (within : Ctx)
| PoolClosed
| NatsOpened (c : NATSConfig)
| NatsClosed
| StreamEnsured (c : StreamConfig)
| ServerMade (c : ServerConfig)
| ServiceCalled (pool js : bool).

(** [pr_world] is what the service itself works on. *)
Record Proc (W : Type) := mkProc {
  pr_trace : list action; pr_fates : list (option string); pr_world : W }.
Arguments mkProc {_} _ _ _.
Arguments pr_trace {_} _.
Arguments pr_fates {_} _.
Arguments pr_world {_} _.

Section process.
Context {W : Type}.

Definition emit (a : action) (p : Proc W) : Proc W := mkProc (pr_trace p ++ [a]) (pr_fates p) (pr_world p).
Definition act (a : action) : M (Proc W) () := modify (emit a).
Definition say (a : action) : Prog (Proc W) () := λ p, (Done (), emit a p).
Definition exit {A} (code : Z) : Prog (Proc W) A := λ p, (Exit code, p).
Definition Fatal {A} (msg : string) : Prog (Proc W) A := _ ← say (Logged LFatal msg); exit 1.

(** A call to a library. *)
Definition may_fail : M (Proc W) () := λ p,
  match pr_fates p with
  | [] => (Ret (), p)
  | f :: fs => (match f with None => Ret () | Some e => Err e end, mkProc (pr_trace p) fs (pr_world p))
  end.

(** A call on the world of the service. *)
Definition inside {A} (m : M W A) : Prog (Proc W) (A + string) := λ p,
  match m (pr_world p) with
  | (Ret a, w) => (Done (inl a), mkProc (pr_trace p) (pr_fates p) w)
  | (Err e, w) => (Done (inr e), mkProc (pr_trace p) (pr_fates p) w)
  | (Panic, w) => (Crash, mkProc (pr_trace p) (pr_fates p) w)
  end.

(** What pgx and zap compute. *)
Class Libs := {
  ParseConfig : string → PoolConfig + string;
  NewDevelopmentConfig : ZapConfig;
  NewProductionConfig : ZapConfig;
  UnmarshalText : string → option Z;
}.
Context `{Libs}.

(** ** [internal/logging] *)
Definition zap_config (lvl format : string) : ZapConfig :=
  let cfg := if String.eqb format "console" then NewDevelopmentConfig else NewProductionConfig in
  let cfg := match UnmarshalText lvl with
             | Some l => mkZapConfig l (zc_EncodeLevel cfg) (zc_EncodeTime cfg) (zc_Encoding cfg)
             | None => cfg
             end in
  if String.eqb format "console"
  then mkZapConfig (zc_Level cfg) "CapitalColorLevelEncoder" "ISO8601TimeEncoder" (zc_Encoding cfg)
  else cfg.

Definition logging_New (lvl format : string) : M (Proc W) () :=
  _ ← may_fail; act (LoggerBuilt (zap_config lvl format)).

(** [Must]: a logger or a panic. *)
Definition logging_Must (lvl format : string) : M (Proc W) () :=
  r ← attempt (logging_New lvl format);
  match r with inl _ => mret () | inr _ => panic end.

(** ** [internal/database] *)
Definition pool_config (cfg : DatabaseConfig) (parsed : PoolConfig) : PoolConfig :=
  let '(maxConns, minConns) := pool_sizes cfg in
  mkPoolConfig (pc_ConnString parsed) maxConns minConns (dc_ConnMaxLifetime cfg) (30 * Time.Second)
    (5 * Time.Minute) (30 * Time.Second).

Definition database_Connect (ctx : Ctx) (cfg : DatabaseConfig) : M (Proc W) PoolConfig :=
  let connectCtx := WithTimeout ctx (10 * Time.Second) in
  match ParseConfig (dc_URL cfg) with
  | inr e => fail ("database: parse config: " +:+ e)
  | inl parsed =>
      let poolCfg := pool_config cfg parsed in
      _ ← wrap "database: connect" may_fail;
      _ ← act (PoolOpened poolCfg connectCtx);
      r ← attempt may_fail;
      match r with
      | inr e => _ ← act PoolClosed; fail ("database: ping: " +:+ e)
      | inl _ => mret poolCfg
      end
  end.

(** ** [internal/nats] *)
Definition CreateOrUpdateStream (cfg : StreamConfig) : M (Proc W) () := _ ← may_fail; act (StreamEnsured cfg).

Definition nats_Connect (cfg : NATSConfig) : M (Proc W) () :=
  _ ← wrap "nats: connect" may_fail;
  _ ← act (NatsOpened cfg);
  js ← attempt may_fail;
  match js with
  | inr e => _ ← act NatsClosed; fail ("nats: jetstream: " +:+ e)
  | inl _ =>
      r ← attempt (ensureStreams CreateOrUpdateStream streams);
      match r with
      | inr e => _ ← act NatsClosed; fail ("nats: ensure streams: " +:+ e)
      | inl _ => mret ()
      end
  end.

(** ** [internal/bootstrap] *)
Record Options := mkOptions {
  op_ServiceName : string; op_NeedDB : bool; op_NeedNATS : bool; op_NATSRequired : bool }.

(** What the service is given: the configuration, the pool if there is one, and
    whether there is a stream. *)
Definition service : Type := Config → option PoolConfig → bool → Prog (Proc W) (option string).

(** [Load] returns a nil error always; it does not call [Validate]. *)
Definition config_Load (env : gmap string string) : Config + string := inl (Load env).

Definition MustLoadConfig (env : gmap string string) : Prog (Proc W) Config :=
  match config_Load env with
  | inl cfg => mret cfg
  | inr e => _ ← say (Stderr ("failed to load config: " +:+ e)); exit 1
  end.

Definition MustNewLogger (cfg : LoggingConfig) : Prog (Proc W) () :=
  r ← call (logging_New (lc_Level cfg) (lc_Format cfg));
  match r with
  | inl _ => mret ()
  | inr e => _ ← say (Stderr ("failed to create logger: " +:+ e)); exit 1
  end.

Definition ConnectDB (ctx : Ctx) (cfg : DatabaseConfig) : M (Proc W) PoolConfig := database_Connect ctx cfg.
Definition ConnectNATS (cfg : NATSConfig) : M (Proc W) () := nats_Connect cfg.

Definition announce (opts : Options) (what : string) : Prog (Proc W) () :=
  if String.eqb (op_ServiceName opts) "" then mret ()
  else say (Logged LInfo (op_ServiceName opts +:+ what)).

(** Lines 76-101: the stream, the service, its result. *)
Definition run_service (opts : Options) (cfg : Config) (pool : option PoolConfig) (fn : service) : Prog (Proc W) () :=
  js ← (if op_NeedNATS opts then
          r ← call (nats_Connect (cfg_NATS cfg));
          match r with
          | inl _ => mret true
          | inr e => if op_NATSRequired opts then Fatal "failed to connect to NATS"
                     else _ ← say (Logged LWarn "failed to connect to NATS, running without"); mret false
          end
        else mret false);
  _ ← announce opts " starting";
  _ ← say (ServiceCalled (match pool with Some _ => true | None => false end) js);
  r ← fn cfg pool js;
  match r with
  | Some e => Fatal "service failed"
  | None => announce opts " stopped"
  end.

Definition run_with_pool (opts : Options) (cfg : Config) (fn : service) : Prog (Proc W) () :=
  if op_NeedDB opts then
    r ← call (database_Connect (WithTimeout None (15 * Time.Second)) (cfg_Database cfg));
    match r with
    | inr e => Fatal "failed to connect to database"
    | inl p => defer (emit PoolClosed) (run_service opts cfg (Some p) fn)
    end
  else run_service opts cfg None fn.

Definition Run (env : gmap string string) (opts : Options) (fn : service) : Prog (Proc W) () :=
  cfg ← MustLoadConfig env;
  _ ← MustNewLogger (cfg_Logging cfg);
  defer (emit LoggerSynced) (
    _ ← say SignalsWatched;
    defer (emit SignalsReleased) (run_with_pool opts cfg fn)).

End process.
Arguments Libs : clear implicits.
Arguments service _ : clear implicits.

(** * What a trace leaves open *)
Definition pool_delta (a : action) : Z := match a with PoolOpened _ _ => 1 | PoolClosed => -1 | _ => 0 end.
Definition nats_delta (a : action) : Z := match a with NatsOpened _ => 1 | NatsClosed => -1 | _ => 0 end.
Definition pools_open (t : list action) : Z := foldr (λ a n, pool_delta a + n)%Z 0%Z t.
Definition nats_open (t : list action) : Z := foldr (λ a n, nats_delta a + n)%Z 0%Z t.
Definition service_calls : list action → list (bool * bool) :=
  omap (λ a, match a with ServiceCalled pool js => Some (pool, js) | _ => None end).
Definition ensured : list action → list StreamConfig :=
  omap (λ a, match a with StreamEnsured c => Some c | _ => None end).

(** The four together: a trace's balance. *)
Definition balance (t : list action) : Z * Z * list (bool * bool) * list StreamConfig :=
  (pools_open t, nats_open t, service_calls t, ensured t).
Definition plus (a b : Z * Z * list (bool * bool) * list StreamConfig) : Z * Z * list (bool * bool) * list StreamConfig :=
  let '(p, n, c, e) := a in let '(p', n', c', e') := b in ((p + p')%Z, (n + n')%Z, c ++ c', e ++ e').
Definition nothing : Z * Z * list (bool * bool) * list StreamConfig := (0%Z, 0%Z, [], []).

Lemma delta_app (d : action → Z) t t' :
  foldr (λ a n, d a + n)%Z 0%Z (t ++ t') = (foldr (λ a n, d a + n)%Z 0%Z t + foldr (λ a n, d a + n)%Z 0%Z t')%Z.
Proof. induction t as [|a t IH]; simpl; [lia|]. rewrite IH. lia. Qed.
Lemma balance_app t t' : balance (t ++ t') = plus (balance t) (balance t').
Proof.
  unfold balance, plus, service_calls, ensured, pools_open, nats_open. by rewrite !omap_app, !delta_app.
Qed.
Lemma plus_nothing b : plus b nothing = b.
Proof. destruct b as [[[p n] c] e]. simpl. by rewrite !Z.add_0_r, !app_nil_r. Qed.
Lemma plus_assoc a b c : plus (plus a b) c = plus a (plus b c).
Proof. destruct a as [[[??]?]?], b as [[[??]?]?], c as [[[??]?]?]. simpl. by rewrite !app_assoc, !Z.add_assoc. Qed.

#[global] Arguments balance : simpl never.
#[global] Arguments plus : simpl never.

(** Sums of known balances. *)
Ltac tally := unfold balance, plus, nothing; cbn; rewrite ?app_nil_r, ?Z.add_0_r; done.

Section balances.
Context {W : Type} `{Libs}.
Abbreviation bal p := (balance (pr_trace (W:=W) p)).

Lemma bal_emit a p : bal (emit a p) = plus (bal p) (balance [a]).
Proof. apply balance_app. Qed.

(** A call that ends as [Q] says of its outcome and of what it adds. *)
Definition adds {A} (m : M (Proc W) A) (Q : outcome A → Z * Z * list (bool * bool) * list StreamConfig → Prop) : Prop :=
  ∀ p, ∃ b, bal (m p).2 = plus (bal p) b ∧ Q (m p).1 b.

Lemma adds_ret {A} (a : A) (Q : _ → _ → Prop) : Q (Ret a) nothing → adds (mret a) Q.
Proof. intros HQ p. exists nothing. by rewrite plus_nothing. Qed.
Lemma adds_fail {A} e (Q : outcome A → _ → Prop) : Q (Err e) nothing → adds (fail e) Q.
Proof. intros HQ p. exists nothing. by rewrite plus_nothing. Qed.
Lemma adds_act a (Q : _ → _ → Prop) : Q (Ret ()) (balance [a]) → adds (act a) Q.
Proof. intros HQ p. exists (balance [a]). by rewrite <-bal_emit. Qed.
Lemma adds_may_fail (Q : _ → _ → Prop) : Q (Ret ()) nothing → (∀ e, Q (Err e) nothing) → adds may_fail Q.
Proof.
  intros HR HE p. exists nothing. rewrite plus_nothing. unfold may_fail.
  destruct (pr_fates p) as [|[e|] fs]; simpl; auto.
Qed.
Lemma adds_bind {A B} (m : M (Proc W) A) (k : A → M (Proc W) B) Qm (Q : _ → _ → Prop) :
  adds m Qm → (∀ a b, Qm (Ret a) b → adds (k a) (λ o b', Q o (plus b b'))) →
  (∀ e b, Qm (Err e) b → Q (Err e) b) → (∀ b, Qm Panic b → Q Panic b) → adds (m ≫= k) Q.
Proof.
  intros Hm Hk HE HP p. destruct (Hm p) as (b & Eb & Hb). unfold mbind, M_bind.
  destruct (m p) as [[a|e|] p'] eqn:E; simpl in *; eauto.
  destruct (Hk a b Hb p') as (b' & Eb' & Hb'). exists (plus b b'). split; [|done]. by rewrite Eb', Eb, plus_assoc.
Qed.
Lemma adds_mono {A} (m : M (Proc W) A) (Q Q' : _ → _ → Prop) : adds m Q → (∀ o b, Q o b → Q' o b) → adds m Q'.
Proof. intros Hm HQ p. destruct (Hm p) as (b & ? & ?). eauto. Qed.

(** Calls that add nothing. *)
Definition quiet {A} (o : outcome A) (b : Z * Z * list (bool * bool) * list StreamConfig) : Prop := o ≠ Panic ∧ b = nothing.

Lemma quiet_may_fail : adds may_fail quiet.
Proof. by apply adds_may_fail. Qed.
Lemma quiet_wrap {A} c (m : M (Proc W) A) : adds m quiet → adds (wrap c m) quiet.
Proof. intros Hm p. destruct (Hm p) as (b & Eb & Hb). exists b. unfold wrap. destruct (m p) as [[]]; simpl in *; by destruct Hb. Qed.
Lemma adds_bind_quiet {A B} (m : M (Proc W) A) (k : A → M (Proc W) B) (Q : _ → _ → Prop) :
  adds m quiet → (∀ a, adds (k a) Q) → (∀ e, Q (Err e) nothing) → adds (m ≫= k) Q.
Proof.
  intros Hm Hk HE. eapply adds_bind; [done|..]; [|by intros e b [_ ->]|by intros b [? _]].
  intros a b [_ ->]. eapply adds_mono; [apply Hk|]. intros o [[[??]?]?]. done.
Qed.
Lemma adds_bind_attempt {A B} (m : M (Proc W) A) (k : A + string → M (Proc W) B) Qm (Q : _ → _ → Prop) :
  adds m Qm → (∀ b, ~ Qm Panic b) →
  (∀ a b, Qm (Ret a) b → adds (k (inl a)) (λ o b', Q o (plus b b'))) →
  (∀ e b, Qm (Err e) b → adds (k (inr e)) (λ o b', Q o (plus b b'))) → adds (attempt m ≫= k) Q.
Proof.
  intros Hm HP HR HE p. destruct (Hm p) as (b & Eb & Hb). unfold mbind, M_bind, attempt.
  destruct (m p) as [[a|e|] p'] eqn:E; simpl in *; [| |by destruct (HP b)].
  - destruct (HR a b Hb p') as (b' & Eb' & Hb'). exists (plus b b'). split; [|done]. by rewrite Eb', Eb, plus_assoc.
  - destruct (HE e b Hb p') as (b' & Eb' & Hb'). exists (plus b b'). split; [|done]. by rewrite Eb', Eb, plus_assoc.
Qed.
Lemma adds_bind_act {B} a (k : () → M (Proc W) B) (Q : _ → _ → Prop) :
  adds (k ()) (λ o b', Q o (plus (balance [a]) b')) → adds (act a ≫= k) Q.
Proof.
  intros Hk. eapply adds_bind; [by apply (adds_act _ (λ o b, o = Ret () ∧ b = balance [a]))|..];
    [|by intros ? ? [? _]|by intros ? [? _]]. by intros [] b [_ ->].
Qed.

Lemma adds_logger lvl fmt : adds (logging_New lvl fmt) quiet.
Proof. apply adds_bind_quiet; [apply quiet_may_fail| |done]. intros []. by apply adds_act. Qed.

(** A pool that is not returned is closed. *)
Lemma adds_database ctx cfg : adds (database_Connect ctx cfg) (λ o b,
  match o with
  | Ret c => b = (1%Z, 0%Z, [], []) ∧ (pc_MaxConns c, pc_MinConns c) = pool_sizes cfg
  | Err _ => b = nothing
  | Panic => False
  end).
Proof.
  unfold database_Connect. destruct (ParseConfig _) as [parsed|e]; [|by apply adds_fail].
  apply adds_bind_quiet; [apply quiet_wrap, quiet_may_fail| |done]. intros [].
  apply adds_bind_act. eapply adds_bind_attempt; [apply quiet_may_fail|by intros b [? _]|..].
  - intros [] b [_ ->]. apply adds_ret. split; [done|]. unfold pool_config. by destruct (pool_sizes cfg).
  - intros e b [_ ->]. by apply adds_bind_act, adds_fail.
Qed.

(** The streams are made in order, up to the first that fails. *)
Lemma adds_streams l : adds (ensureStreams CreateOrUpdateStream l) (λ o b,
  o ≠ Panic ∧ ∃ made, made `prefix_of` l ∧ b = (0%Z, 0%Z, [], made) ∧ (∀ a, o = Ret a → made = l)).
Proof.
  induction l as [|c l IH]; simpl.
  { apply adds_ret. split; [done|]. by exists []. }
  eapply adds_bind with (Qm := λ o b, match o with Ret _ => b = (0%Z, 0%Z, [], [c]) | Err _ => b = nothing | Panic => False end).
  - intros p. unfold wrap, CreateOrUpdateStream, mbind, M_bind, may_fail, act, modify. cbn [fst snd].
    destruct (pr_fates p) as [|[e|] fs]; eexists; (split; [|reflexivity]).
    + apply bal_emit.
    + symmetry. apply plus_nothing.
    + apply (bal_emit (StreamEnsured c) (mkProc (pr_trace p) fs (pr_world p))).
  - intros [] b ->. eapply adds_mono; [apply IH|]. intros o b (? & made & Hp & -> & Ho). split; [done|].
    exists (c :: made). split_and!; [by apply prefix_cons|done|]. intros a Ha. by rewrite (Ho a Ha).
  - intros e b ->. split; [done|]. exists []. split_and!; [apply prefix_nil|done|done].
  - done.
Qed.

(** A connection without its streams is closed. *)
Lemma adds_nats cfg : adds (nats_Connect cfg) (λ o b,
  match o with
  | Ret _ => b = (0%Z, 1%Z, [], streams)
  | Err _ => ∃ made, made `prefix_of` streams ∧ b = (0%Z, 0%Z, [], made)
  | Panic => False
  end).
Proof.
  apply adds_bind_quiet; [apply quiet_wrap, quiet_may_fail| |]; [intros []|intros e; exists []; split; [apply prefix_nil|done]].
  apply adds_bind_act. eapply adds_bind_attempt; [apply quiet_may_fail|by intros b [? _]|..].
  - intros [] b [_ ->]. eapply adds_bind_attempt; [apply adds_streams|by intros b [? _]|..].
    + intros [] b (_ & made & _ & -> & Ho). rewrite (Ho () eq_refl). by apply adds_ret.
    + intros e b (_ & made & Hp & -> & _). apply adds_bind_act, adds_fail. exists made. split; [done|].
      tally.
  - intros e b [_ ->]. apply adds_bind_act, adds_fail. exists []. split; [apply prefix_nil|done].
Qed.

(** ** Programs *)
Definition ends {A} (m : Prog (Proc W) A)
    (Q : ending A → Z * Z * list (bool * bool) * list StreamConfig → Prop) (p : Proc W) : Prop :=
  ∃ b, bal (m p).2 = plus (bal p) b ∧ Q (m p).1 b.

Lemma ends_ret {A} (a : A) (Q : _ → _ → Prop) p : Q (Done a) nothing → ends (mret a) Q p.
Proof. intros HQ. exists nothing. by rewrite plus_nothing. Qed.
Lemma ends_say a (Q : _ → _ → Prop) p : Q (Done ()) (balance [a]) → ends (say a) Q p.
Proof. intros HQ. exists (balance [a]). by rewrite <-bal_emit. Qed.
Lemma ends_bind {A B} (m : Prog (Proc W) A) (k : A → Prog (Proc W) B) Qm (Q : _ → _ → Prop) p :
  ends m Qm p → (∀ a b p', Qm (Done a) b → ends (k a) (λ r b', Q r (plus b b')) p') →
  (∀ c b, Qm (Exit c) b → Q (Exit c) b) → (∀ b, Qm Crash b → Q Crash b) → ends (m ≫= k) Q p.
Proof.
  intros (b & Eb & Hb) Hk HE HC. unfold ends, mbind, Prog_bind.
  destruct (m p) as [[a|e|] p'] eqn:E; simpl in *; eauto.
  destruct (Hk a b p' Hb) as (b' & Eb' & Hb'). exists (plus b b'). split; [|done]. by rewrite Eb', Eb, plus_assoc.
Qed.
Lemma ends_call {A} (m : M (Proc W) A) Qm (Q : _ → _ → Prop) p : adds m Qm → (∀ b, ~ Qm Panic b) →
  (∀ a b, Qm (Ret a) b → Q (Done (inl a)) b) → (∀ e b, Qm (Err e) b → Q (Done (inr e)) b) → ends (call m) Q p.
Proof.
  intros Hm HP HR HE. destruct (Hm p) as (b & Eb & Hb). exists b. unfold call.
  destruct (m p) as [[a|e|] p'] eqn:E; simpl in *; eauto. by destruct (HP b).
Qed.
Lemma ends_bind_say {B} a (k : () → Prog (Proc W) B) (Q : _ → _ → Prop) p :
  (∀ p', ends (k ()) (λ r b', Q r (plus (balance [a]) b')) p') → ends (say a ≫= k) Q p.
Proof. intros Hk. destruct (Hk (emit a p)) as (b & Eb & Hb). exists (plus (balance [a]) b). split; [|done]. by rewrite <-plus_assoc, <-bal_emit. Qed.
Lemma ends_defer {A} a (m : Prog (Proc W) A) (Q : _ → _ → Prop) p :
  ends m (λ r b, Q r (match r with Exit _ => b | _ => plus b (balance [a]) end)) p → ends (defer (emit a) m) Q p.
Proof.
  intros (b & Eb & Hb). unfold ends, defer.
  assert (Hd : ∀ p', bal p' = plus (bal p) b → bal (emit a p') = plus (bal p) (plus b (balance [a]))).
  { intros p' E. by rewrite bal_emit, E, plus_assoc. }
  destruct (m p) as [[x|e|] p'] eqn:E; simpl in *; eexists; (split; [|exact Hb]); auto.
Qed.
Lemma ends_mono {A} (m : Prog (Proc W) A) (Q Q' : _ → _ → Prop) p : ends m Q p → (∀ r b, Q r b → Q' r b) → ends m Q' p.
Proof. intros (b & ? & ?) HQ. exists b. eauto. Qed.
Lemma ends_Fatal {A} msg (Q : ending A → _ → Prop) p : Q (Exit 1) nothing → ends (Fatal msg) Q p.
Proof. intros HQ. exists nothing. split; [|done]. apply bal_emit. Qed.
Lemma ends_announce opts what (Q : _ → _ → Prop) p : Q (Done ()) nothing → ends (announce opts what) Q p.
Proof. intros HQ. unfold announce. destruct (String.eqb _ ""); [by apply ends_ret|by apply ends_say]. Qed.

(** A service works with what it is given and opens nothing of its own. *)
Definition keeps_resources (fn : service W) : Prop := ∀ cfg pool js p, ends (fn cfg pool js) (λ _ b, b = nothing) p.

(** What a run may leave: the service was not called, or once. *)
Definition run_leaves (opts : Options) (pool : bool) (r : ending ())
    (b : Z * Z * list (bool * bool) * list StreamConfig) : Prop :=
  let '(pools, conns, calls, made) := b in
  (calls = [] ∧ r = Exit 1 ∧ conns = 0%Z ∧ pools = 0%Z ∧ made `prefix_of` streams) ∨
  ∃ js, calls = [(pool, js)] ∧ pools = 0%Z ∧
    (js = true → op_NeedNATS opts = true ∧ made = streams ∧ conns = 1%Z) ∧ (js = false → conns = 0%Z) ∧
    (op_NeedNATS opts = true → op_NATSRequired opts = true → js = true).

Lemma ends_run_service opts cfg pool fn p : keeps_resources fn →
  ends (run_service opts cfg pool fn) (run_leaves opts (match pool with Some _ => true | None => false end)) p.
Proof.
  intros Hfn. unfold run_service. set (b0 := match pool with Some _ => true | None => false end).
  eapply ends_bind with (Qm := λ r b, match r with
    | Done js => ∃ made, b = (0%Z, if (js : bool) then 1%Z else 0%Z, [], made) ∧
        (js = true → op_NeedNATS opts = true ∧ made = streams) ∧
        (op_NeedNATS opts = true → op_NATSRequired opts = true → js = true)
    | Exit c => c = 1%Z ∧ ∃ made, made `prefix_of` streams ∧ b = (0%Z, 0%Z, [], made)
    | Crash => False end); [| |intros c b (-> & made & ? & ->); left; done|done].
  - destruct (op_NeedNATS opts) eqn:EN; [|by apply ends_ret; exists []].
    eapply ends_bind; [by eapply (ends_call _ _ (λ r b, match r with
        | Done (inl _) => b = (0%Z, 1%Z, [], streams)
        | Done (inr _) => ∃ made, made `prefix_of` streams ∧ b = (0%Z, 0%Z, [], made)
        | _ => False end)); [apply adds_nats|..]; simpl; eauto|..]; [|done|done].
    intros [[]|e] b p' Hb; [subst b; apply ends_ret; by exists streams|]. destruct Hb as (made & Hm & ->).
    destruct (op_NATSRequired opts) eqn:ER.
    + apply ends_Fatal. split; [done|]. exists made. by rewrite plus_nothing.
    + apply ends_bind_say. intros p2. apply ends_ret. exists made. by rewrite !plus_nothing.
  - intros js b p' (made & -> & Hjs & Hreq).
    eapply ends_bind; [by apply (ends_announce _ _ (λ r b, r = Done () ∧ b = nothing))|..]; [|by intros ? ? [? _]|by intros ? [? _]].
    intros [] b p2 [_ ->]. apply ends_bind_say. intros p3.
    assert (Hok : ∀ r, run_leaves opts b0 r (plus (0%Z, if js then 1%Z else 0%Z, [], made)
      (plus nothing (balance [ServiceCalled b0 js])))).
    { intros r. replace (plus _ _) with (0%Z, if js then 1%Z else 0%Z, [(b0, js)], made) by (destruct js; tally).
      right. exists js. split_and!; try done; destruct js; try done. intros _. by destruct (Hjs eq_refl). }
    eapply ends_bind; [apply Hfn|..].
    + intros o b p4 ->. destruct o; [apply ends_Fatal|apply ends_announce]; rewrite !plus_nothing; apply Hok.
    + intros c b ->. rewrite !plus_nothing. apply Hok.
    + intros b ->. rewrite !plus_nothing. apply Hok.
Qed.

(** A whole run, up to what the process leaves behind. *)
Definition run_result (opts : Options) (r : ending ()) (b : Z * Z * list (bool * bool) * list StreamConfig) : Prop :=
  let '(pools, conns, calls, made) := b in
  (pools = match r with Exit _ => pools | _ => 0 end)%Z ∧ (0 ≤ pools ≤ if op_NeedDB opts then 1 else 0)%Z ∧
  ((calls = [] ∧ r = Exit 1 ∧ conns = 0%Z ∧ made `prefix_of` streams) ∨
   ∃ js, calls = [(op_NeedDB opts, js)] ∧ (∀ c, r = Exit c → pools = if op_NeedDB opts then 1%Z else 0%Z) ∧
    (js = true → op_NeedNATS opts = true ∧ made = streams ∧ conns = 1%Z) ∧ (js = false → conns = 0%Z) ∧
    (op_NeedNATS opts = true → op_NATSRequired opts = true → js = true)).

Lemma ends_run_with_pool opts cfg fn p : keeps_resources fn →
  ends (run_with_pool opts cfg fn) (run_result opts) p.
Proof.
  intros Hfn. unfold run_with_pool, run_result. destruct (op_NeedDB opts) eqn:ED.
  - eapply ends_bind; [eapply (ends_call _ _ (λ r b, match r with
        | Done (inl _) => b = (1%Z, 0%Z, [], []) | Done (inr _) => b = nothing | _ => False end));
        [apply adds_database|naive_solver..]|..]; [|done|done].
    intros [c|e] b p' ->.
    + apply ends_defer. eapply ends_mono; [by apply ends_run_service|].
      intros r [[[pools conns] calls] made] [(-> & -> & -> & -> & Hm)|(js & -> & -> & H1 & H2 & H3)].
      * split; [done|]. split; [lia|]. by left.
      * destruct r; (split; [done|]; split; [unfold pools_open; simpl; lia|]; right; exists js; split_and!; try done;
          rewrite ?app_nil_r; naive_solver).
    + apply ends_Fatal. split; [done|]. split; [lia|]. left. split_and!; try done. apply prefix_nil.
  - eapply ends_mono; [by apply ends_run_service|].
    intros r [[[pools conns] calls] made] [(-> & -> & -> & -> & Hm)|(js & -> & -> & H1 & H2 & H3)].
    + split; [done|]. split; [lia|]. by left.
    + split; [by destruct r|]. split; [lia|]. right. by exists js.
Qed.

Lemma config_Load_ok env : config_Load env = inl (Load env).
Proof. done. Qed.

Lemma ends_Run env opts fn p : keeps_resources fn → ends (Run env opts fn) (run_result opts) p.
Proof.
  intros Hfn. unfold Run, MustLoadConfig. rewrite config_Load_ok.
  eapply ends_bind; [by apply (ends_ret _ (λ r b, r = Done (Load env) ∧ b = nothing))|..]; [|by intros ? ? [? _]|by intros ? [? _]].
  intros cfg b p1 [E ->]. injection E as ->.
  eapply ends_bind with (Qm := λ r b, b = nothing ∧ (r = Done () ∨ r = Exit 1)).
  - eapply ends_bind; [eapply (ends_call _ _ (λ r b, match r with Done _ => b = nothing | _ => False end));
      [apply adds_logger|by intros b [? _]|by intros ? b [_ ->]|by intros ? b [_ ->]]|..]; [|done|done].
    intros [[]|e] b p2 ->; [apply ends_ret; auto|]. apply ends_bind_say. intros p3. exists nothing.
    rewrite plus_nothing. split; [done|]. split; [tally|by right].
  - intros [] b p2 [-> _]. apply ends_defer, ends_bind_say. intros p3. apply ends_defer.
    eapply ends_mono; [by apply ends_run_with_pool|]. intros r [[[pools conns] calls] made] Hr.
    assert (E : ∀ d, d = SignalsReleased ∨ d = LoggerSynced → plus (pools, conns, calls, made) (balance [d]) = (pools, conns, calls, made)).
    { intros d [-> | ->]; tally. }
    destruct r; rewrite ?E by auto;
      (replace (plus nothing (plus (balance [SignalsWatched]) _)) with (pools, conns, calls, made) by tally) || idtac; done.
  - intros c b [-> [E|E]]; [done|]. injection E as ->. split_and!; try done; [by destruct (op_NeedDB opts)|].
    left. split_and!; try done. apply prefix_nil.
  - by intros b [_ [?|?]].
Qed.

(** ** When nothing fails *)
Lemma bind_done {A B} (m : Prog (Proc W) A) (k : A → Prog (Proc W) B) a p p' : m p = (Done a, p') → (m ≫= k) p = k a p'.
Proof. intros E. unfold mbind, Prog_bind. by rewrite E. Qed.
Lemma calm_database ctx cfg c tr w : ParseConfig (dc_URL cfg) = inl c →
  ∃ pool, database_Connect ctx cfg (mkProc (W:=W) tr [] w) =
    (Ret pool, mkProc (tr ++ [PoolOpened pool (WithTimeout ctx (10 * Time.Second))]) [] w).
Proof. intros E. unfold database_Connect. rewrite E. eexists. reflexivity. Qed.
Lemma calm_nats cfg tr w : ∃ t, nats_Connect cfg (mkProc (W:=W) tr [] w) = (Ret (), mkProc (tr ++ t) [] w) ∧
  balance t = (0%Z, 1%Z, [], streams).
Proof.
  exists (NatsOpened cfg :: (StreamEnsured <$> streams)). split; [|reflexivity].
  unfold nats_Connect, mbind, M_bind, wrap, attempt, act, modify, emit, ensureStreams, CreateOrUpdateStream, may_fail,
    mret, M_ret. simpl. unfold emit. simpl. by rewrite <-!app_assoc.
Qed.
Lemma announce_calm opts what tr w : ∃ t, announce opts what (mkProc (W:=W) tr [] w) = (Done (), mkProc (tr ++ t) [] w) ∧ balance t = nothing.
Proof.
  unfold announce. destruct (String.eqb _ ""); [exists []; by rewrite app_nil_r|].
  by exists [Logged LInfo (op_ServiceName opts +:+ what)].
Qed.
Lemma announce_done opts what p : (announce (W:=W) opts what p).1 = Done ().
Proof. unfold announce. by destruct (String.eqb _ ""). Qed.

(** How a run ends is how the service ended. *)
Definition ending_of (r : ending (option string)) : ending () :=
  match r with
  | Done None => Done ()
  | Done (Some _) => Exit 1
  | Exit c => Exit c
  | Crash => Crash
  end.

Lemma calm_run_service opts cfg pool (fn : service W) tr w :
  ∃ t, (run_service opts cfg pool fn (mkProc tr [] w)).1 =
         ending_of (fn cfg pool (op_NeedNATS opts) (mkProc (tr ++ t) [] w)).1 ∧
    balance t = (0%Z, if op_NeedNATS opts then 1%Z else 0%Z, [(match pool with Some _ => true | None => false end, op_NeedNATS opts)],
                 if op_NeedNATS opts then streams else []).
Proof.
  assert (Hrest : ∀ js tr1, ∃ t, (
    (_ ← announce opts " starting";
     _ ← say (ServiceCalled (match pool with Some _ => true | None => false end) js);
     r ← fn cfg pool js;
     match r with Some e => Fatal "service failed" | None => announce opts " stopped" end) (mkProc tr1 [] w)).1 =
      ending_of (fn cfg pool js (mkProc (tr1 ++ t) [] w)).1 ∧
    balance t = (0%Z, 0%Z, [(match pool with Some _ => true | None => false end, js)], [])).
  { intros js tr1. destruct (announce_calm opts " starting" tr1 w) as (t & E & Hb).
    exists (t ++ [ServiceCalled (match pool with Some _ => true | None => false end) js]).
    rewrite balance_app, Hb. split; [|reflexivity]. unfold mbind, Prog_bind. rewrite E. unfold say, emit. cbn [pr_trace pr_fates pr_world].
    rewrite app_assoc. destruct (fn _ _ _ _) as [[[e|]|c|] p']; try done. apply announce_done. }
  unfold run_service. destruct (op_NeedNATS opts) eqn:EN.
  - destruct (calm_nats (cfg_NATS cfg) tr w) as (t1 & E1 & Hb1). destruct (Hrest true (tr ++ t1)) as (t2 & E2 & Hb2).
    exists (t1 ++ t2). rewrite balance_app, Hb1, Hb2, app_assoc, <-E2. split; [|tally].
    erewrite bind_done; [done|]. erewrite bind_done; [|unfold call; by rewrite E1]. done.
  - destruct (Hrest false tr) as (t2 & E2 & Hb2). exists t2. rewrite <-E2, Hb2. done.
Qed.
Lemma defer_ending {A} d (m : Prog (Proc W) A) p : (defer d m p).1 = (m p).1.
Proof. unfold defer. by destruct (m p) as [[] ?]. Qed.
End balances.

(** * What a run does to the world of its service: only what the service does *)
Section worlds.
Context {W : Type} `{Libs}.

Definition keeps_world {A} (m : M (Proc W) A) : Prop := ∀ p, pr_world (m p).2 = pr_world p.

Lemma kw_ret {A} (a : A) : keeps_world (mret a).
Proof. by intros p. Qed.
Lemma kw_fail {A} e : keeps_world (fail e : M (Proc W) A).
Proof. by intros p. Qed.
Lemma kw_act a : keeps_world (act a).
Proof. by intros p. Qed.
Lemma kw_may_fail : keeps_world may_fail.
Proof. intros p. unfold may_fail. by destruct (pr_fates p) as [|[e|] fs]. Qed.
Lemma kw_bind {A B} (m : M (Proc W) A) (k : A → M (Proc W) B) : keeps_world m → (∀ a, keeps_world (k a)) → keeps_world (m ≫= k).
Proof.
  intros Hm Hk p. specialize (Hm p). unfold mbind, M_bind. destruct (m p) as [[a|e|] p']; simpl in *; [|done|done]. by rewrite Hk.
Qed.
Lemma kw_wrap {A} c (m : M (Proc W) A) : keeps_world m → keeps_world (wrap c m).
Proof. intros Hm p. specialize (Hm p). unfold wrap. by destruct (m p) as [[] ?]. Qed.
Lemma kw_attempt {A} (m : M (Proc W) A) : keeps_world m → keeps_world (attempt m).
Proof. intros Hm p. specialize (Hm p). unfold attempt. by destruct (m p) as [[] ?]. Qed.
Lemma kw_streams l : keeps_world (ensureStreams CreateOrUpdateStream l).
Proof.
  induction l as [|c l IH]; simpl; [apply kw_ret|]. apply kw_bind; [|done].
  apply kw_wrap, kw_bind; [apply kw_may_fail|intros; apply kw_act].
Qed.
#[local] Hint Resolve kw_ret kw_fail kw_act kw_may_fail kw_bind kw_wrap kw_attempt kw_streams : core.

Lemma kw_logger lvl fmt : keeps_world (logging_New lvl fmt).
Proof. unfold logging_New. auto. Qed.
Lemma kw_database ctx cfg : keeps_world (database_Connect ctx cfg).
Proof. unfold database_Connect. destruct (ParseConfig _); [|auto]. repeat (apply kw_bind; [auto|intros]). case_match; auto. Qed.
Lemma kw_nats cfg : keeps_world (nats_Connect cfg).
Proof.
  unfold nats_Connect. repeat (apply kw_bind; [auto|intros]). case_match; [|auto].
  apply kw_bind; [auto|]. intros []; auto.
Qed.

(** Either the process exits before the service is called, or it ends as the
    service did. *)
Definition follows (cfg : Config) (fn : service W) (w : W) (r : ending ()) (w' : W) : Prop :=
  (r = Exit 1 ∧ w' = w) ∨
  ∃ pool js p1, pr_world p1 = w ∧ r = ending_of (fn cfg pool js p1).1 ∧ w' = pr_world (fn cfg pool js p1).2.

Lemma follows_defer cfg fn w a (m : Prog (Proc W) ()) p :
  follows cfg fn w (m p).1 (pr_world (m p).2) →
  follows cfg fn w (defer (emit a) m p).1 (pr_world (defer (emit a) m p).2).
Proof. unfold defer. by destruct (m p) as [[] p']. Qed.
Lemma call_world {A} (m : M (Proc W) A) p : keeps_world m → (∀ p, (m p).1 ≠ Panic) →
  ∃ r p', call m p = (Done r, p') ∧ pr_world p' = pr_world p.
Proof.
  intros Hm HP. specialize (Hm p). specialize (HP p). unfold call.
  destruct (m p) as [[a|e|] p']; simpl in *; [eauto|eauto|done].
Qed.
Lemma adds_no_panic {A} (m : M (Proc W) A) (Q : _ → _ → Prop) : adds m Q → (∀ b, ~ Q Panic b) → ∀ p, (m p).1 ≠ Panic.
Proof. intros Hm HQ p E. destruct (Hm p) as (b & _ & Hb). rewrite E in Hb. by eapply HQ. Qed.

Lemma say_world a p : ∃ p', say (W:=W) a p = (Done (), p') ∧ pr_world p' = pr_world p.
Proof. by eexists. Qed.
Lemma announce_world opts what p : ∃ p', announce (W:=W) opts what p = (Done (), p') ∧ pr_world p' = pr_world p.
Proof. unfold announce. destruct (String.eqb _ ""); [by exists p|apply say_world]. Qed.

Lemma run_service_follows opts cfg pool fn p :
  follows cfg fn (pr_world p) (run_service opts cfg pool fn p).1 (pr_world (run_service opts cfg pool fn p).2).
Proof.
  unfold run_service.
  match goal with |- context [(?m ≫= _) p] => set (conn := m) end.
  assert (Hc : (∃ js p', conn p = (Done js, p') ∧ pr_world p' = pr_world p) ∨
               (∃ p', conn p = (Exit 1, p') ∧ pr_world p' = pr_world p)).
  { unfold conn. destruct (op_NeedNATS opts); [|left; by exists false, p].
    destruct (call_world (nats_Connect (cfg_NATS cfg)) p (kw_nats _)) as (r & p1 & E & Hw).
    { eapply adds_no_panic; [apply adds_nats|]. by intros b Hb. }
    rewrite (bind_done _ _ _ _ _ E). destruct r as [[]|e]; [left; by exists true, p1|].
    destruct (op_NATSRequired opts); [right; by eexists|left; by eexists false, _]. }
  destruct Hc as [(js & p1 & E & Hw)|(p1 & E & Hw)].
  2:{ left. unfold mbind, Prog_bind. by rewrite E. }
  rewrite (bind_done _ _ _ _ _ E). destruct (announce_world opts " starting" p1) as (p2 & E2 & Hw2).
  rewrite (bind_done _ _ _ _ _ E2).
  destruct (say_world (ServiceCalled (match pool with Some _ => true | None => false end) js) p2) as (p3 & E3 & Hw3).
  rewrite (bind_done _ _ _ _ _ E3). right. exists pool, js, p3. split; [congruence|]. unfold mbind, Prog_bind.
  destruct (fn cfg pool js p3) as [[[e|]|c|] p4]; try done. simpl.
  destruct (announce_world opts " stopped" p4) as (p5 & -> & Hw5). done.
Qed.

Lemma Run_follows env opts fn p :
  follows (Load env) fn (pr_world p) (Run env opts fn p).1 (pr_world (Run env opts fn p).2).
Proof.
  unfold Run, MustLoadConfig. rewrite config_Load_ok. erewrite bind_done by reflexivity. unfold MustNewLogger.
  destruct (call_world (logging_New (lc_Level (cfg_Logging (Load env))) (lc_Format (cfg_Logging (Load env)))) p (kw_logger _ _)) as (r & p1 & E & Hw).
  { eapply adds_no_panic; [apply adds_logger|]. by intros b [? _]. }
  destruct r as [[]|e]; [|left; unfold mbind, Prog_bind; by rewrite E].
  erewrite bind_done; [|by rewrite (bind_done _ _ _ _ _ E)]. apply follows_defer.
  destruct (say_world SignalsWatched p1) as (p2 & E2 & Hw2). rewrite (bind_done _ _ _ _ _ E2). apply follows_defer.
  rewrite <-Hw, <-Hw2. unfold run_with_pool. destruct (op_NeedDB opts); [|apply run_service_follows].
  destruct (call_world (database_Connect (WithTimeout None (15 * Time.Second)) (cfg_Database (Load env))) p2 (kw_database _ _)) as (r & p3 & E3 & Hw3).
  { eapply adds_no_panic; [apply adds_database|]. by intros b Hb. }
  rewrite (bind_done _ _ _ _ _ E3), <-Hw3. destruct r as [c|e]; [apply follows_defer, run_service_follows|by left].
Qed.
End worlds.

(** * Properties of the start-up *)
Section startup.
Context {W : Type} `{Libs}.


Lemma startup_calm env opts (fn : service W) w : 
  (op_NeedDB opts = true → ∃ c, ParseConfig (dc_URL (cfg_Database (Load env))) = inl c) →
  ∃ t pool, (Run env opts fn (mkProc [] [] w)).1 = ending_of (fn (Load env) pool (op_NeedNATS opts) (mkProc t [] w)).1 ∧
    (is_Some pool ↔ op_NeedDB opts = true) ∧
    balance t = (if op_NeedDB opts then 1%Z else 0%Z, if op_NeedNATS opts then 1%Z else 0%Z,
                 [(op_NeedDB opts, op_NeedNATS opts)], if op_NeedNATS opts then streams else []).
Proof.
  intros HP. unfold Run, MustLoadConfig. rewrite config_Load_ok.
  erewrite bind_done by reflexivity. erewrite bind_done by reflexivity. rewrite defer_ending.
  erewrite bind_done by reflexivity. rewrite defer_ending. unfold emit. cbn [pr_trace pr_fates pr_world app].
  set (tr := [LoggerBuilt _; SignalsWatched]).
  unfold run_with_pool. destruct (op_NeedDB opts) eqn:ED.
  - destruct (HP eq_refl) as [c Ec]. destruct (calm_database (WithTimeout None (15 * Time.Second)) _ c tr w Ec) as (pool & E).
    destruct (calm_run_service opts (Load env) (Some pool) fn (tr ++ [PoolOpened pool (WithTimeout (WithTimeout None (15 * Time.Second)) (10 * Time.Second))]) w) as (t & Et & Hb).
    eexists _, (Some pool). split; [|split; [done|]].
    + erewrite bind_done; [|unfold call; by rewrite E]. cbv beta iota. rewrite defer_ending. exact Et.
    + rewrite balance_app, Hb. by destruct (op_NeedNATS opts).
  - destruct (calm_run_service opts (Load env) None fn tr w) as (t & Et & Hb). exists (tr ++ t), None.
    split; [done|]. split; [by split; [intros [? ?]|]|]. rewrite balance_app, Hb. by destruct (op_NeedNATS opts).
Qed.

(** When no call fails and the URL of the database parses, the service is
    called with the loaded configuration and with everything the options ask for,
    and the process ends as the service does: an error it returns becomes exit
    code 1. *)
Theorem startup_reaches_service env opts (fn : service W) w : 
  (op_NeedDB opts = true → ∃ c, ParseConfig (dc_URL (cfg_Database (Load env))) = inl c) →
  ∃ t pool, (Run env opts fn (mkProc [] [] w)).1 = ending_of (fn (Load env) pool (op_NeedNATS opts) (mkProc t [] w)).1 ∧
    (is_Some pool ↔ op_NeedDB opts = true) ∧
    balance t = (if op_NeedDB opts then 1%Z else 0%Z, if op_NeedNATS opts then 1%Z else 0%Z,
                 [(op_NeedDB opts, op_NeedNATS opts)], if op_NeedNATS opts then streams else []).
Proof. apply startup_calm. Qed.
End startup.
