(* ===== verification/Server.v ===== *)
(** [RunHTTP] of [internal/bootstrap/bootstrap.go]: the goroutine that serves and
    the one that waits for a signal and shuts the server down, interleaved in any
    order with what goes on outside and with the passing of time.

    The [http.Server] is a parameter; what [RunHTTP] relies on are the laws
    [HttpServerLaws], which state the documentation of [net/http]: [Shutdown]
    closes the listeners, waits until no connection is active or its context ends,
    and does not wait for connections that were hijacked (the WebSocket streams);
    [ListenAndServe] returns [ErrServerClosed] when, and only when, [Shutdown] was
    called before it returned.

    Theorems: nothing is accepted once the shutdown has begun, a return without an
    error means that every request that was accepted was answered, the process
    exits only when the server itself fails, and a server that is told to stop
    ends within its time-out. *)
From stdpp Require Import base gmap strings list numbers.
From S2P Require Import Prelude.
From S2P Require Import GoStd.
From S2P Require Import Config.
From S2P Require Import Startup.
From stdpp Require Import options.

(** * The server of [net/http] *)
Definition ErrServerClosed : string := "http: Server closed".

(** [Srv]: the state of a server; [In]: what happens to it from outside, a
    listener, connections, handlers. *)
Class HttpServer (Srv In : Type) := {
  srv_new : ServerConfig → Srv;
  srv_step : In → Srv → Srv;
  (** The error [ListenAndServe] has returned, if it has. *)
  serve_returns : Srv → option string;
  (** [Shutdown] has been called, and what it has returned, its context being done
      or not. *)
  Shutdown : Srv → Srv;
  shut : Srv → bool;
  shutdown_returns : bool → Srv → option (option string);
  (** Connections that were accepted, whose requests were all answered, and that a
      handler took over. *)
  accepted : Srv → gset nat;
  answered : Srv → gset nat;
  hijacked : Srv → gset nat;
}.

Class HttpServerLaws Srv In `{!HttpServer Srv In} := {
  new_is_open cfg : shut (srv_new cfg) = false;
  step_shut i (s : Srv) : shut (srv_step i s) = shut s;
  Shutdown_shut (s : Srv) : shut (Shutdown s) = true;
  (** [Serve], [ListenAndServe], and [ListenAndServeTLS] immediately return
      [ErrServerClosed]. *)
  Shutdown_serve (s : Srv) : serve_returns (Shutdown s) = Some (default ErrServerClosed (serve_returns s));
  step_serve i (s : Srv) e : serve_returns s = Some e → serve_returns (srv_step i s) = Some e;
  open_serve (s : Srv) e : shut s = false → serve_returns s = Some e → e ≠ ErrServerClosed;
  (** [Shutdown] first closes all open listeners. *)
  Shutdown_accepted (s : Srv) : accepted (Shutdown s) = accepted s;
  shut_accepted i (s : Srv) : shut s = true → accepted (srv_step i s) = accepted s;
  (** [Shutdown] waits for connections to return to idle; it does not attempt to
      close nor wait for hijacked connections such as WebSockets. *)
  Shutdown_waits c (s : Srv) : shutdown_returns c s = Some None → accepted s ⊆ answered s ∪ hijacked s;
  (** If the provided context expires before the shutdown is complete, [Shutdown]
      returns the context's error. *)
  Shutdown_expires (s : Srv) : shut s = true → is_Some (shutdown_returns true s);
}.

(** * [RunHTTP] *)
Section run_http.
Context {Srv In : Type} `{!HttpServer Srv In}.

(** Where the caller of [RunHTTP] is: at [<-ctx.Done()], in [srv.Shutdown] with the
    deadline of its context, or back; or [logger.Fatal] has ended the process. *)
Inductive run_point := AtDone | InShutdown (deadline : Z) | Returned (err : option string) | Exited.

Record RunState := mkRunState {
  rs_srv : Srv;
  rs_ctx : bool;
  rs_now : Z;
  rs_serving : bool;
  rs_point : run_point;
}.

Inductive run_event :=
| Outside (i : In)
| Signal
| Elapse (d : Z)
| ServerTurn
| MainTurn.

Definition run_start (cfg : ServerConfig) : RunState := mkRunState (srv_new cfg) false 0 true AtDone.

Definition over (p : run_point) : bool := match p with Returned _ | Exited => true | _ => false end.

(** The goroutine of lines 114-119: [ListenAndServe] has returned, or has not. *)
Definition server_turn (s : RunState) : RunState :=
  if rs_serving s then
    match serve_returns (rs_srv s) with
    | None => s
    | Some err =>
        if negb (String.eqb err ErrServerClosed)
        then mkRunState (rs_srv s) (rs_ctx s) (rs_now s) false Exited
        else mkRunState (rs_srv s) (rs_ctx s) (rs_now s) false (rs_point s)
    end
  else s.

(** Lines 121-129. *)
Definition main_turn (cfg : ServerConfig) (s : RunState) : RunState :=
  match rs_point s with
  | AtDone =>
      if rs_ctx s
      then mkRunState (Shutdown (rs_srv s)) (rs_ctx s) (rs_now s) (rs_serving s) (InShutdown (rs_now s + sc_ShutdownTimeout cfg))
      else s
  | InShutdown deadline =>
      match shutdown_returns (deadline <=? rs_now s)%Z (rs_srv s) with
      | None => s
      | Some err => mkRunState (rs_srv s) (rs_ctx s) (rs_now s) (rs_serving s) (Returned err)
      end
  | Returned _ | Exited => s
  end.

Definition run_step (cfg : ServerConfig) (s : RunState) (e : run_event) : RunState :=
  if over (rs_point s) then s else
  match e with
  | Outside i => mkRunState (srv_step i (rs_srv s)) (rs_ctx s) (rs_now s) (rs_serving s) (rs_point s)
  | Signal => mkRunState (rs_srv s) true (rs_now s) (rs_serving s) (rs_point s)
  | Elapse d => mkRunState (rs_srv s) (rs_ctx s) (rs_now s + Z.max 0 d) (rs_serving s) (rs_point s)
  | ServerTurn => server_turn s
  | MainTurn => main_turn cfg s
  end.

Definition run_http (cfg : ServerConfig) (es : list run_event) (s : RunState) : RunState :=
  foldl (run_step cfg) s es.

(** A schedule, at the end of which the process is told to stop and the time of
    the shutdown passes. *)
Definition until_stopped (cfg : ServerConfig) (es : list run_event) : list run_event :=
  es ++ [Signal; MainTurn; Elapse (sc_ShutdownTimeout cfg); MainTurn].

(** [RunHTTP] under a schedule.  By [http_shutdown_ends] the last branch is not
    taken. *)
Definition RunHTTP {W} (srvCfg : ServerConfig) (es : list run_event) : Prog (Proc W) (option string) :=
  _ ← say (ServerMade srvCfg);
  _ ← say (Logged LInfo "http server starting");
  match rs_point (run_http srvCfg (until_stopped srvCfg es) (run_start srvCfg)) with
  | Exited => Fatal "http server failed"
  | Returned None => _ ← say (Logged LInfo "shutting down http server"); mret None
  | Returned (Some e) =>
      _ ← say (Logged LInfo "shutting down http server");
      _ ← say (Logged LError "server shutdown error");
      mret (Some e)
  | AtDone | InShutdown _ => mret None
  end.

(** [RunHTTP] only logs. *)
Lemma RunHTTP_keeps {W} srvCfg es p : ends (W:=W) (RunHTTP srvCfg es) (λ _ b, b = nothing) p.
Proof using.
  unfold RunHTTP. apply ends_bind_say. intros p0. apply ends_bind_say. intros p1.
  destruct (rs_point _) as [| |[e|]|].
  - by apply ends_ret.
  - by apply ends_ret.
  - apply ends_bind_say. intros p2. apply ends_bind_say. intros p3. by apply ends_ret.
  - apply ends_bind_say. intros p2. by apply ends_ret.
  - by apply ends_Fatal.
Qed.

(** * Invariant *)
Context `{!HttpServerLaws Srv In}.

(** [failed]: [ListenAndServe] returned another error than [ErrServerClosed]. *)
Definition failed (s : RunState) : Prop := ∃ e, serve_returns (rs_srv s) = Some e ∧ e ≠ ErrServerClosed.

Record run_inv (cfg : ServerConfig) (s : RunState) : Prop := {
  ri_shut : rs_point s = AtDone → shut (rs_srv s) = false;
  ri_shutting : ∀ d, rs_point s = InShutdown d → shut (rs_srv s) = true ∧ rs_ctx s = true;
  ri_deadline : ∀ d, rs_point s = InShutdown d → (d ≤ rs_now s + sc_ShutdownTimeout cfg)%Z;
  ri_clean : rs_point s = Returned None → accepted (rs_srv s) ⊆ answered (rs_srv s) ∪ hijacked (rs_srv s);
  ri_returned : ∀ r, rs_point s = Returned r → rs_ctx s = true;
  ri_exited : rs_point s = Exited → failed s;
}.

Lemma run_step_inv cfg s e : run_inv cfg s → run_inv cfg (run_step cfg s e).
Proof using Type*.
  intros [H1 H2 Hd H3 H4 H5]. unfold run_step. destruct (over (rs_point s)) eqn:Ho; [done|].
  destruct s as [srv ctx now sv pt]. simpl in *. destruct e as [i| |d| |].
  - split; simpl; try (by intros; destruct pt); [intros E|intros d E|done]; rewrite step_shut; eauto.
  - split; simpl; try done; try by destruct pt. intros d E. split; [by eapply H2|done].
  - split; simpl; try done. intros x E. pose proof (Hd x E). lia.
  - unfold server_turn. simpl. destruct sv; [|by split]. destruct (serve_returns srv) as [err|] eqn:Es; [|by split].
    destruct (String.eqb_spec err ErrServerClosed) as [->|Hne]; simpl; [by split|].
    split; simpl; try done. intros _. by exists err.
  - unfold main_turn. simpl. destruct pt as [|dl| |]; try done.
    + destruct ctx; [|by split]. split; simpl; try done; intros d [= <-]; [by rewrite Shutdown_shut|lia].
    + destruct (H2 dl eq_refl) as [Hs Hc]. destruct (shutdown_returns _ _) as [err|] eqn:Er; [|by split].
      split; simpl; try done. intros [= ->]. by eapply Shutdown_waits.
Qed.

Lemma run_http_inv cfg es s : run_inv cfg s → run_inv cfg (run_http cfg es s).
Proof using Type*.
  revert s. induction es as [|e es IH]; intros s Hs; simpl; [done|]. by apply IH, run_step_inv.
Qed.

Lemma run_start_inv cfg : run_inv cfg (run_start cfg).
Proof using Type*. split; simpl; try done. intros _. apply new_is_open. Qed.

(** Once the shutdown has begun: it does not go back, nothing is accepted, and the
    process does not exit unless the server had failed before. *)
Lemma shutting_step cfg s e : run_inv cfg s → rs_point s ≠ AtDone →
  rs_point (run_step cfg s e) ≠ AtDone ∧ accepted (rs_srv (run_step cfg s e)) = accepted (rs_srv s).
Proof using Type*.
  intros Hi Hp. unfold run_step. destruct (over (rs_point s)) eqn:Ho; [done|].
  destruct s as [srv ctx now sv pt]. simpl in *. destruct pt as [|dl| |]; try done.
  destruct (ri_shutting _ _ Hi dl eq_refl) as [Hs _]. simpl in Hs. destruct e as [i| |d| |]; simpl; try done.
  - split; [done|]. by apply shut_accepted.
  - unfold server_turn. simpl. destruct sv; [|done]. destruct (serve_returns srv); [|done]. by destruct (negb _).
  - unfold main_turn. simpl. by destruct (shutdown_returns _ _).
Qed.

Lemma shutting_run cfg es s : run_inv cfg s → rs_point s ≠ AtDone →
  rs_point (run_http cfg es s) ≠ AtDone ∧ accepted (rs_srv (run_http cfg es s)) = accepted (rs_srv s).
Proof using Type*.
  revert s. induction es as [|e es IH]; intros s Hi Hp; simpl; [done|].
  destruct (shutting_step cfg s e Hi Hp) as [Hp' <-]. apply IH; [by apply run_step_inv|done].
Qed.

Lemma over_run cfg es s : over (rs_point s) = true → run_http cfg es s = s.
Proof using.
  intros Ho. induction es as [|e es IH]; [done|]. change (run_http cfg es (run_step cfg s e) = s).
  assert (run_step cfg s e = s) as ->; [|done].
  unfold run_step. by rewrite Ho.
Qed.

(** The time that passes in a schedule. *)
Definition elapsed (es : list run_event) : Z :=
  foldr (λ e t, (match e with Elapse d => Z.max 0 d | _ => 0 end + t)%Z) 0%Z es.

(** Until it is over, the shutdown keeps its deadline while time passes; and the
    server, once it has returned [ErrServerClosed], does not end the process. *)
Definition shutting (deadline from : Z) (t : RunState) : Prop :=
  over (rs_point t) = true ∨ (rs_point t = InShutdown deadline ∧ rs_now t = from).
Definition closed (t : RunState) : Prop :=
  serve_returns (rs_srv t) = Some ErrServerClosed ∧ rs_point t ≠ Exited.

Lemma run_step_shutting cfg d now s e : shutting d now s →
  shutting d (now + match e with Elapse x => Z.max 0 x | _ => 0 end)%Z (run_step cfg s e).
Proof using.
  unfold shutting, run_step. intros [Ho|[Hp Hn]]; [rewrite Ho; by left|].
  destruct s as [srv ctx nw sv pt]. simpl in *. subst. destruct e as [i| |x| |]; simpl; rewrite ?Z.add_0_r; try by right.
  - unfold server_turn. simpl. destruct sv; [|by right]. destruct (serve_returns srv); [|by right].
    destruct (negb _); [by left|by right].
  - unfold main_turn. simpl. destruct (shutdown_returns _ _); [by left|by right].
Qed.

Lemma run_shutting cfg d es : ∀ now s, shutting d now s → shutting d (now + elapsed es)%Z (run_http cfg es s).
Proof using.
  induction es as [|e es IH]; intros now s Hs; simpl; [by rewrite Z.add_0_r|].
  rewrite Z.add_assoc. by apply IH, run_step_shutting.
Qed.

Lemma run_step_closed cfg s e : run_inv cfg s → rs_point s ≠ AtDone → closed s → closed (run_step cfg s e).
Proof using Type*.
  intros Hi Hd [Hs Hp]. unfold closed, run_step. destruct (over (rs_point s)) eqn:Ho; [done|].
  destruct s as [srv ctx nw sv pt]. simpl in *. destruct e as [i| |x| |]; simpl; try done.
  - split; [by apply step_serve|done].
  - unfold server_turn. simpl. rewrite Hs. by destruct sv.
  - unfold main_turn. simpl. destruct pt as [|dl| |]; try done. by destruct (shutdown_returns _ _).
Qed.

Lemma run_closed cfg es : ∀ s, run_inv cfg s → rs_point s ≠ AtDone → closed s → closed (run_http cfg es s).
Proof using Type*.
  induction es as [|e es IH]; intros s Hi Hd Hc; simpl; [done|].
  apply IH; [by apply run_step_inv|by apply shutting_step|by apply run_step_closed].
Qed.

(** A turn of the caller after the deadline ends it. *)
Lemma late_turn_ends cfg s d : run_inv cfg s → shutting d (rs_now s) s → (d ≤ rs_now s)%Z →
  over (rs_point (run_step cfg s MainTurn)) = true.
Proof using Type*.
  intros Hi [Ho|[Hp _]] Hd; unfold run_step; [by rewrite Ho|]. rewrite Hp. simpl. unfold main_turn. rewrite Hp.
  rewrite (proj2 (Z.leb_le _ _) Hd). destruct (Shutdown_expires (rs_srv s)) as [r Hr]; [by eapply ri_shutting|].
  by rewrite Hr.
Qed.

(** The state when the caller, told to stop, calls [Shutdown]. *)
Lemma stop_begins cfg s : run_inv cfg s → rs_point s = AtDone → rs_ctx s = true →
  let s1 := run_step cfg s MainTurn in
  run_inv cfg s1 ∧ rs_point s1 = InShutdown (rs_now s + sc_ShutdownTimeout cfg) ∧ rs_now s1 = rs_now s ∧
  (¬ failed s → closed s1).
Proof using Type*.
  intros Hi Hp Hc s1. split; [by apply run_step_inv|]. unfold s1, run_step, main_turn. rewrite Hp. simpl. rewrite Hc. simpl.
  split_and!; [done|done|]. intros Hf. split; [|done]. simpl. rewrite Shutdown_serve. f_equal.
  destruct (serve_returns (rs_srv s)) as [e|] eqn:E; [|done]. simpl. destruct (decide (e = ErrServerClosed)); [done|].
  destruct Hf. by exists e.
Qed.

Lemma stop_ends cfg s es : run_inv cfg s → rs_point s = AtDone → rs_ctx s = true → (sc_ShutdownTimeout cfg ≤ elapsed es)%Z →
  let t := run_http cfg (MainTurn :: es ++ [MainTurn]) s in
  over (rs_point t) = true ∧ (¬ failed s → rs_point t ≠ Exited).
Proof using Type*.
  intros Hi Hp Hc Ht t. destruct (stop_begins cfg s Hi Hp Hc) as (Hi1 & Hp1 & Hn1 & Hcl).
  set (s1 := run_step cfg s MainTurn) in *.
  assert (Ht' : t = run_step cfg (run_http cfg es s1) MainTurn) by (unfold t, run_http; simpl; by rewrite foldl_app).
  assert (Hd1 : rs_point s1 ≠ AtDone) by (by rewrite Hp1).
  pose proof (run_http_inv cfg es s1 Hi1) as Hi2.
  pose proof (run_shutting cfg (rs_now s + sc_ShutdownTimeout cfg) es (rs_now s1) s1 (or_intror (conj Hp1 eq_refl))) as Hsh.
  rewrite Ht'. split.
  - destruct Hsh as [Ho|[Hp2 Hn2]]; [unfold run_step; by rewrite Ho|].
    apply (late_turn_ends cfg _ (rs_now s + sc_ShutdownTimeout cfg)); [done|by right|lia].
  - intros Hf. apply run_step_closed; [done|by apply shutting_run|by apply run_closed, Hcl].
Qed.

(** * Properties *)

(** What [RunHTTP] returns is where the machine is. *)
Lemma RunHTTP_returns {W} cfg es (p : Proc W) :
  (RunHTTP cfg es p).1 = match rs_point (run_http cfg (until_stopped cfg es) (run_start cfg)) with
                         | Exited => Exit 1 | Returned r => Done r | _ => Done None end.
Proof using. unfold RunHTTP. by destruct (rs_point _) as [| |[e|]|]. Qed.

Lemma signalled cfg s : run_inv cfg s → let s1 := run_step cfg s Signal in
  over (rs_point s) = false → run_inv cfg s1 ∧ rs_point s1 = rs_point s ∧ rs_ctx s1 = true ∧ rs_now s1 = rs_now s ∧ rs_srv s1 = rs_srv s.
Proof using Type*. intros Hi s1 Ho. split; [by apply run_step_inv|]. unfold s1, run_step. rewrite Ho. by split_and!. Qed.

(** A process that is told to stop, wherever it is, comes to its end when the
    time of the shutdown has passed. *)
Lemma until_stopped_over cfg es : over (rs_point (run_http cfg (until_stopped cfg es) (run_start cfg))) = true.
Proof using Type*.
  unfold until_stopped, run_http. rewrite foldl_app. fold (run_http cfg es (run_start cfg)).
  set (s := run_http cfg es (run_start cfg)). assert (Hi : run_inv cfg s) by apply run_http_inv, run_start_inv.
  destruct (over (rs_point s)) eqn:Ho.
  { change (over (rs_point (run_http cfg [Signal; MainTurn; Elapse (sc_ShutdownTimeout cfg); MainTurn] s)) = true). by rewrite over_run. }
  destruct (signalled cfg s Hi Ho) as (Hi1 & Hp1 & Hc1 & Hn1 & _). cbn [foldl]. set (s1 := run_step cfg s Signal) in *.
  destruct (rs_point s) as [|d| |] eqn:Hp; [|clear Hp|done|done].
  2: { pose proof (ri_deadline _ _ Hi1 d Hp1) as Hd.
       pose proof (run_shutting cfg d [MainTurn; Elapse (sc_ShutdownTimeout cfg)] (rs_now s1) s1 (or_intror (conj Hp1 eq_refl))) as Hsh.
       assert (Hi3 := run_http_inv cfg [MainTurn; Elapse (sc_ShutdownTimeout cfg)] s1 Hi1).
       set (s3 := run_http cfg [MainTurn; Elapse (sc_ShutdownTimeout cfg)] s1) in *.
       change (over (rs_point (run_step cfg s3 MainTurn)) = true). destruct Hsh as [Ho3|[Hp3 Hn3]]; [unfold run_step; by rewrite Ho3|].
       apply (late_turn_ends cfg _ d); [done|by right|]. rewrite Hn3. simpl. lia. }
  change (over (rs_point (run_http cfg (MainTurn :: [Elapse (sc_ShutdownTimeout cfg)] ++ [MainTurn]) s1)) = true).
  apply stop_ends; [done|done|done|simpl; lia].
Qed.


(** C39: [RunHTTP] ends.  Told to stop, it is over after one turn of its caller,
    any schedule in which the time-out of the configuration passes, and one more
    turn; if the server had not failed by then it returns, and the process goes on
    to its end.  And whatever state the signal finds it in (also one in which it is
    already shutting down), it is over once the time-out has passed. *)
Theorem http_shutdown_ends {W} cfg es es' (p : Proc W) :
  let s := run_http cfg es (run_start cfg) in
  (rs_point s = AtDone → rs_ctx s = true → (sc_ShutdownTimeout cfg ≤ elapsed es')%Z →
   let t := run_http cfg (MainTurn :: es' ++ [MainTurn]) s in
   over (rs_point t) = true ∧ (¬ failed s → ∃ r, rs_point t = Returned r)) ∧
  ∃ t, t = rs_point (run_http cfg (until_stopped cfg es) (run_start cfg)) ∧
    (t = Exited ∧ (RunHTTP cfg es p).1 = Exit 1 ∨ ∃ r, t = Returned r ∧ (RunHTTP cfg es p).1 = Done r).
Proof using Type*.
  intros s. assert (Hs : run_inv cfg s) by apply run_http_inv, run_start_inv. split.
  - intros Hp Hc Ht t. destruct (stop_ends cfg s es' Hs Hp Hc Ht) as [Ho Hf]. fold t in Ho, Hf. split; [done|].
    intros H. specialize (Hf H). destruct (rs_point t); try done. by eexists.
  - eexists. split; [done|]. rewrite RunHTTP_returns. pose proof (until_stopped_over cfg es) as Ho.
    destruct (rs_point _) as [| |r|]; try done; [right; by exists r|by left].
Qed.
End run_http.

Arguments run_event In : clear implicits.
Arguments RunState Srv : clear implicits.

(** * A server with these laws *)
Record Conns := mkConns {
  cn_shut : bool;
  cn_failed : bool;
  cn_active : gset nat;
  cn_answered : gset nat;
  cn_hijacked : gset nat;
}.
Inductive conn_event := ListenFails | Accept (c : nat) | Answer (c : nat) | Hijack (c : nat).

Definition conn_step (e : conn_event) (s : Conns) : Conns :=
  match e with
  | ListenFails =>
      if cn_shut s then s
      else mkConns false true (cn_active s) (cn_answered s) (cn_hijacked s)
  | Accept c =>
      if cn_shut s then s else mkConns false (cn_failed s) ({[c]} ∪ cn_active s) (cn_answered s) (cn_hijacked s)
  | Answer c =>
      if decide (c ∈ cn_active s)
      then mkConns (cn_shut s) (cn_failed s) (cn_active s ∖ {[c]}) ({[c]} ∪ cn_answered s) (cn_hijacked s) else s
  | Hijack c =>
      if decide (c ∈ cn_active s)
      then mkConns (cn_shut s) (cn_failed s) (cn_active s ∖ {[c]}) (cn_answered s) ({[c]} ∪ cn_hijacked s) else s
  end.

#[export] Instance conn_server : HttpServer Conns conn_event := {|
  srv_new _ := mkConns false false ∅ ∅ ∅;
  srv_step := conn_step;
  serve_returns s :=
    if cn_failed s then Some "listen tcp: bind: address already in use"
    else if cn_shut s then Some ErrServerClosed else None;
  Shutdown s := mkConns true (cn_failed s) (cn_active s) (cn_answered s) (cn_hijacked s);
  shut := cn_shut;
  shutdown_returns expired s :=
    if decide (cn_active s = ∅) then Some None
    else if expired then Some (Some "context deadline exceeded") else None;
  accepted s := cn_active s ∪ cn_answered s ∪ cn_hijacked s;
  answered := cn_answered;
  hijacked := cn_hijacked;
|}.
#[export] Instance conn_laws : HttpServerLaws Conns conn_event.
Proof.
  split; try done.
  - intros i s. destruct s as [[] f a w h], i; simpl; repeat case_match; done.
  - intros [[] [] a w h]; done.
  - intros i s e. destruct s as [b f a w h], i, b, f; simpl; repeat case_decide; simpl; intros; congruence.
  - intros s e. simpl. intros ->. by destruct (cn_failed s); intros [= <-].
  - intros i s Hs. destruct s as [b f a w h], i; simpl in *; subst; try done; case_decide; simpl; try done;
      apply leibniz_equiv; intros x; destruct (decide (x = c)); set_solver.
  - intros c s. simpl. case_decide as E; [rewrite E; set_solver|by destruct c].
  - intros s _. simpl. case_decide; eauto.
Qed.

Definition addr0 : ServerConfig := mkServerConfig ":8080" 0 0 0 30.

(** A request that is being answered when the signal comes is waited for, until the
    deadline; a stream is not; and a port that is taken ends the process. *)
Example shutdown_waits :
  let ending es := rs_point (run_http addr0 es (run_start addr0)) in
  ending [Outside (Accept 1); Signal; MainTurn; MainTurn; Outside (Answer 1); MainTurn] = Returned None ∧
  ending [Outside (Accept 1); Signal; MainTurn; ServerTurn; Elapse 29; MainTurn] = InShutdown 30 ∧
  ending [Outside (Accept 1); Signal; MainTurn; Elapse 30; MainTurn] = Returned (Some "context deadline exceeded") ∧
  ending [Outside (Accept 1); Outside (Hijack 1); Signal; MainTurn; MainTurn] = Returned None ∧
  ending [Outside ListenFails; ServerTurn] = Exited.
Proof. split_and!; vm_compute; reflexivity. Qed.

Definition busy_stop : list (run_event conn_event) := [Outside (Accept 1); Outside (Accept 2); Outside (Hijack 2); Signal].


Lemma http_shutdown_ends_witness :
  let s := run_http addr0 busy_stop (run_start addr0) in
  let t := run_http addr0 (MainTurn :: [Elapse 10; ServerTurn; Outside (Answer 1); Elapse 20] ++ [MainTurn]) s in
  over (rs_point t) = true ∧ (¬ failed s → ∃ r, rs_point t = Returned r).
Proof.
  exact (proj1 (http_shutdown_ends addr0 busy_stop [Elapse 10; ServerTurn; Outside (Answer 1); Elapse 20] (mkProc [] [] ()))
    eq_refl eq_refl ltac:(by vm_compute)).
Defined.
