(* ===== verification/Background.v ===== *)
(** The control plane's background work: [Recover] of
    [services/controlplane/recovery.go] with the goroutines it starts, between
    the requests the server answers meanwhile, and [WaitReady] of
    [services/controlplane/image_puller.go].

    The reconciliation reads a list of machines once and then treats them one by
    one; requests are served between any two of these steps.

    Theorems: the statuses of the machines only make the steps of the life cycle
    and those the list determines, for every interleaving; without interleaving the goroutine is [reconcileVMs]; the wait
    ends. *)
From stdpp Require Import base gmap strings list numbers relations.
From S2P Require Import Prelude.
From S2P Require Import GoStd.
From S2P Require Import GoJson.
From S2P Require Import Domain.
From S2P Require Import Interfaces.
From S2P Require Import Puller.
From S2P Require Import ControlPlane.
From S2P Require Import VMService.
From S2P Require Import Resources.
From S2P Require Import Recovery.
From S2P Require Import Lifecycle.
From S2P Require Import Http.
From S2P Require Import Requests.
From S2P Require Import Streams.
From S2P Require Import Handlers.
From S2P Require Import HandlerProofs.
From S2P Require Import Config.
From stdpp Require Import options.

(** * Goroutines *)
Inductive goroutine (W : Type) :=
| GResume (p : PullerState W)
| GReconcile
| GMachines (vms : list VirtualMachine).
Arguments GResume {_} _.
Arguments GReconcile {_}.
Arguments GMachines {_} _.

Section background.
Context {W : Type} (s : Service W).

(** What [Recover] starts, with the delay of each; it always returns nil. *)
Definition Recover : M W (list (Z * goroutine W)) :=
  mret ((match puller s with Some p => [(2 * Time.Second, GResume p)%Z] | None => [] end)
        ++ [((3 * Time.Second)%Z, GReconcile)]).

(** One step of a goroutine and what is left of it. *)
Definition wake (g : goroutine W) : M W (list (goroutine W)) :=
  match g with
  | GResume p => _ ← ResumeDownloads p; mret []
  | GReconcile =>
      r ← attempt (VM_List (vmRepo s) (mkVMFilter "" "" "" "" "" 1 1000));
      mret (match r with inl vms => [GMachines vms.1] | inr _ => [] end)
  | GMachines [] => mret []
  | GMachines (vm :: vms) => _ ← reconcile_one s vm; mret [GMachines vms]
  end.

(** The process: the server's requests and the goroutines, in any order. *)
Context `{Router} `{!Upgrader} (Ping : M W ()) (validKey : string).

Inductive bg_step : W * list (goroutine W) → W * list (goroutine W) → Prop :=
| bg_request r w gs : bg_step (w, gs) ((http_server s Ping validKey r w).2, gs)
| bg_wake gs1 g gs2 w rest w' :
    wake g w = (Ret rest, w') → bg_step (w, gs1 ++ g :: gs2) (w', gs1 ++ rest ++ gs2).

(** The goroutine by itself. *)
Fixpoint drive (fuel : nat) (gs : list (goroutine W)) (w : W) : list (goroutine W) * W :=
  match fuel, gs with
  | S fuel', g :: gs' =>
      match wake g w with
      | (Ret rest, w') => drive fuel' (rest ++ gs') w'
      | (_, w') => (gs', w')
      end
  | _, _ => (gs, w)
  end.
End background.

(** * What the statuses do *)

(** The statuses of the machines, and the machines that were listed and are still
    to be treated, each with the status it had when the list was made. *)
Definition bg_state : Type := gmap string VMStatus * list (string * VMStatus).

(** A request; a list of machines as they are; a machine of a list that needs
    nothing; one that is written, for the status it was listed with, whatever it
    has now. *)
Inductive bg_lc : bg_state → bg_state → Prop :=
| bl_request op m m' todo : lc_step op m m' → bg_lc (m, todo) (m', todo)
| bl_list m before l after : Forall (λ ks, m !! ks.1 = Some ks.2) l → bg_lc (m, before ++ after) (m, before ++ l ++ after)
| bl_skip m before x after : bg_lc (m, before ++ x :: after) (m, before ++ after)
| bl_late m before k st after st' : reconciled st st' → st' ≠ st →
    bg_lc (m, before ++ (k, st) :: after) (alter (λ _, st') k m, before ++ after).

Lemma bg_lc_in_use x y : bg_lc x y → map_Forall (λ _, in_use) x.1 → map_Forall (λ _, in_use) y.1.
Proof.
  intros [op ??? Hs| | |m ? k st ? st' Hr Hne]; simpl; try done; [by eapply in_use_step|]. intros Hm j x' Hj.
  destruct (decide (k = j)) as [<-|]; [|rewrite lookup_alter_ne in Hj by done; eauto].
  rewrite lookup_alter_eq in Hj. destruct (m !! k); simplify_eq/=.
  destruct Hr as [|Hr]; [done|]. unfold in_use. destruct st; try done; rewrite Hr; set_solver.
Qed.

(** What a goroutine has still to treat. *)
Definition listed_vm (vm : VirtualMachine) : string * VMStatus := (vm_ID vm, vm_Status vm).
Definition todo_of {W} (g : goroutine W) : list (string * VMStatus) :=
  match g with GMachines vms => listed_vm <$> vms | _ => [] end.
Definition todo {W} (gs : list (goroutine W)) : list (string * VMStatus) := gs ≫= todo_of.

Section proofs.
Context {W : Type} (abs : W → Abs) (key : string → string) (s : Service W).
Context `{!ServiceLaws abs key s} `{!Router, !RouterLaws} `{!Upgrader}.
Context (Ping : M W ()) (HPing : idle abs Ping) (validKey : string).
Abbreviation sts w := (statuses (abs w)).
#[local] Hint Extern 0 (rtc _ ?x ?x) => apply rtc_refl : core.

(** What the treatment of a machine listed with status [st] leaves. *)
Definition treated (k : string) (st : VMStatus) (w w' : W) : Prop :=
  sts w' = sts w ∨ ∃ st', reconciled st st' ∧ st' ≠ st ∧ sts w' = alter (λ _, st') k (sts w).

Lemma late_write k st0 st w0 w : reconciled st0 st → st ≠ st0 → key k = k →
  sts w = sts w0 ∨ sts w = alter (λ _, st) k (sts w0) →
  wp (ignore (VM_UpdateStatus (vmRepo s) k st))
    (post (λ _ w', sts w' = sts w0 ∨ sts w' = alter (λ _, st) k (sts w0)) (λ _ _, False)) w.
Proof using ServiceLaws0.
  intros Hst Hne Hk Hw. eapply wp_post; [apply wp_ignore, (law_vm_status abs key)| |done].
  rewrite Hk. intros [] w' [[? E]|[? E]]; [|by rewrite E]. right.
  assert (sts w' = alter (λ _, st) k (sts w)) as ->.
  { rewrite E. unfold statuses. simpl. apply map_eq. intros j. rewrite !lookup_fmap.
    destruct (decide (k = j)) as [<-|]; [rewrite !lookup_alter_eq, lookup_fmap|rewrite !lookup_alter_ne, lookup_fmap by done]; by destruct (_ !! _). }
  destruct Hw as [-> | ->]; [done|]. apply map_eq. intros j.
  destruct (decide (k = j)) as [<-|]; [rewrite !lookup_alter_eq|by rewrite !lookup_alter_ne by done]. by destruct (_ !! _).
Qed.

Lemma stays_ret k st w : wp (mret () : M W ()) (post (λ _ w', treated k st w w') (λ _ _, False)) w.
Proof using Type. apply wp_ret. by left. Qed.

Lemma written_treated k st0 st w (m : M W ()) : reconciled st0 st → st ≠ st0 →
  wp m (post (λ _ w', sts w' = sts w ∨ sts w' = alter (λ _, st) k (sts w)) (λ _ _, False)) w →
  wp m (post (λ _ w', treated k st0 w w') (λ (_ : string) _, False)) w.
Proof using Type.
  intros Hr Hne Hm. eapply wp_post; [exact Hm| |done]. intros [] w' [E|E]; [by left|right]. by exists st.
Qed.

Lemma reconcile_disk_late vm disk w0 w : vm_Status vm = VMStatusCreating → key (vm_ID vm) = vm_ID vm →
  sts w = sts w0 ∨ sts w = alter (λ _, VMStatusError) (vm_ID vm) (sts w0) →
  wp (reconcile_disk s vm disk)
    (post (λ _ w', sts w' = sts w0 ∨ sts w' = alter (λ _, VMStatusError) (vm_ID vm) (sts w0)) (λ _ _, False)) w.
Proof using ServiceLaws0.
  intros Hst Hk Hw. unfold reconcile_disk. destruct (String.eqb _ ""); [by apply wp_ret|].
  eapply wp_bind_peeks; [apply peeks_or_zero, (law_image_get abs key)|]. intros img w2 _ E2. rewrite <-E2 in Hw.
  destruct img as [img|]; [|by apply wp_ret]. case_bool_decide; [|by apply wp_ret].
  apply (late_write _ VMStatusCreating); [by right|done|done|done].
Qed.

(** A machine of the list, whatever happened to it since. *)
Lemma reconcile_one_late vm w : key (vm_ID vm) = vm_ID vm →
  wp (reconcile_one s vm) (post (λ _ w', treated (vm_ID vm) (vm_Status vm) w w') (λ _ _, False)) w.
Proof using ServiceLaws0.
  intros Hk. unfold reconcile_one.
  assert (Hnode : reconciled (vm_Status vm) VMStatusError → VMStatusError ≠ vm_Status vm →
    wp (match assigned vm with
        | Some nodeID =>
            r ← attempt (Node_GetByID (nodeRepo s) nodeID);
            if (match r with
                | inl (Some node) => bool_decide (node_Status node = NodeStatusOnline)
                | _ => false
                end)
            then mret ()
            else ignore (VM_UpdateStatus (vmRepo s) (vm_ID vm) VMStatusError)
        | None => mret ()
        end) (post (λ _ w', treated (vm_ID vm) (vm_Status vm) w w') (λ _ _, False)) w).
  { intros Hst Hne. apply (written_treated _ _ VMStatusError); [done|done|].
    destruct (assigned vm) as [nodeID|]; [|by apply wp_ret; left].
    eapply wp_bind_peeks; [apply peeks_attempt, (law_node_get abs key)|]. intros r w1 _ E1. rewrite <-E1.
    destruct (match r with inl _ => _ | inr _ => _ end); [by apply wp_ret; left|]. eapply late_write; [exact Hst|done|done|by left]. }
  destruct (vm_Status vm) eqn:Hst; try apply stays_ret; try (apply Hnode; [by right|done]).
  - apply (written_treated _ _ VMStatusError); [by right|done|].
    apply (wp_iterM _ (λ _ w', sts w' = sts w ∨ sts w' = alter (λ _, VMStatusError) (vm_ID vm) (sts w))); [|by left].
    intros dn disk w1 Hr1. by apply reconcile_disk_late.
  - apply (written_treated _ _ VMStatusStopped); [by right|done|].
    apply (late_write _ VMStatusShuttingDown); [by right|done|done|by left].
Qed.

Lemma resume_one_steady p img : puller s = Some p → steady abs (resume_one p img).
Proof using ServiceLaws0.
  intros Hp. destruct (sl_puller p Hp) as [Hi He]. unfold resume_one.
  destruct (in_progress _); [|apply steady_ret]. destruct (String.eqb _ ""); [apply steady_ret|].
  apply steady_bind; [eapply steady_reads; by apply (file_exists_reads abs key)|]. intros b.
  destruct (b && _); [apply steady_ret|]. eapply steady_post; [intros w; apply (law_go abs key)|intros w [] w' E; by rewrite E|done].
Qed.

Lemma ResumeDownloads_steady p : puller s = Some p → steady abs (ResumeDownloads p).
Proof using ServiceLaws0.
  intros Hp. destruct (sl_puller p Hp) as [Hi He]. unfold ResumeDownloads. apply steady_bind.
  - intros w. eapply wp_mono; [apply peeks_attempt, (law_image_list abs key)|].
    intros [a|e|] w'; simpl; [|done|done]. intros [_ E]. by rewrite E.
  - intros [[images n]|e]; [|apply steady_ret]. unfold iterM. induction images as [|i l IH]; simpl; [apply steady_ret|].
    apply steady_bind; [by apply resume_one_steady|]. by intros [].
Qed.

(** ** Runs *)
Definition goroutine_ok (g : goroutine W) : Prop :=
  match g with
  | GResume p => puller s = Some p
  | GReconcile => True
  | GMachines vms => Forall (λ vm, key (vm_ID vm) = vm_ID vm) vms
  end.

(** One step of a goroutine, between what others have to treat. *)
Lemma wake_spec g w before after : goroutine_ok g →
  wp (wake s g) (λ o w', o ≠ Panic ∧ ∀ rest, o = Ret rest → Forall goroutine_ok rest ∧
    rtc bg_lc (sts w, before ++ todo_of g ++ after) (sts w', before ++ todo rest ++ after)) w.
Proof using ServiceLaws0.
  destruct g as [p| |[|vm vms]]; simpl.
  - intros Hp. apply wp_bind. eapply wp_mono; [by apply ResumeDownloads_steady|].
    intros [[]|e|] w' [? E]; [apply wp_ret|done|done]. split; [done|]. rewrite E. by intros rest [= <-].
  - intros _. eapply wp_bind_peeks; [apply peeks_attempt, (law_vm_list abs key)|]. intros r w1 Hr E1. apply wp_ret.
    rewrite E1. split; [done|]. intros rest [= <-]. destruct r as [[vms n]|e]; [|done]. simpl in Hr. split.
    + constructor; [|done]. simpl. eapply Forall_impl; [exact Hr|]. by intros vm [_ ?].
    + apply rtc_once. unfold todo. simpl. rewrite app_nil_r. apply bl_list. apply Forall_fmap. eapply Forall_impl; [exact Hr|].
      intros vm [Hl _]. simpl. by apply (statuses_lookup _ _ (vm_untimed vm)).
  - intros _. apply wp_ret. split; [done|]. by intros rest [= <-].
  - intros [Hk Hks]%Forall_cons_iff. eapply wp_bind_post; [by apply reconcile_one_late| |done].
    intros [] w' Hr. apply wp_ret. split; [done|]. intros rest [= <-]. split; [by constructor|].
    unfold todo. simpl. rewrite app_nil_r. apply rtc_once. destruct Hr as [-> |(st' & Hr & Hne & ->)]; [apply bl_skip|by apply bl_late].
Qed.

Abbreviation bg_abs c := (sts c.1, todo c.2).

Lemma bg_step_spec c c' : bg_step s Ping validKey c c' → Forall goroutine_ok c.2 →
  rtc bg_lc (bg_abs c) (bg_abs c') ∧ Forall goroutine_ok c'.2.
Proof using Type*.
  intros [r w gs|gs1 g gs2 w rest w' E] Hok; simpl in *.
  - split; [|done]. destruct (http_lifecycle abs key s Ping HPing validKey r w) as [->|(p & e & id & _ & _ & _ & _ & Hs & _)]; [done|].
    by eapply rtc_once, bl_request.
  - apply Forall_app in Hok as [Hgs1 [Hg Hgs2]%Forall_cons_iff]. pose proof (wake_spec g w (todo gs1) (todo gs2) Hg) as Hw.
    unfold wp in Hw. rewrite E in Hw. destruct Hw as (_ & Hr). destruct (Hr rest eq_refl) as [Hrest Hlc]. split.
    + unfold todo in *. rewrite !bind_app. simpl. exact Hlc.
    + apply Forall_app. split; [done|]. apply Forall_app. by split.
Qed.

Lemma bg_run_spec c c' : rtc (bg_step s Ping validKey) c c' → Forall goroutine_ok c.2 →
  rtc bg_lc (bg_abs c) (bg_abs c') ∧ Forall goroutine_ok c'.2.
Proof using Type*.
  induction 1 as [|c1 c2 c3 Hs _ IH]; intros Hok; [done|]. destruct (bg_step_spec _ _ Hs Hok) as [? Hok2].
  destruct (IH Hok2). split; [by etrans|done].
Qed.

Lemma recover_spec w : ∃ gs, Recover s w = (Ret gs, w) ∧ Forall goroutine_ok gs.*2.
Proof using Type.
  eexists. split; [reflexivity|]. destruct (puller s) as [p|] eqn:E; simpl; repeat constructor. done.
Qed.

(** ** Without requests in between *)
Lemma drive_step n g gs w rest w' : wake s g w = (Ret rest, w') → drive s (S n) (g :: gs) w = drive s n (rest ++ gs) w'.
Proof using Type. intros E. simpl. by rewrite E. Qed.

Lemma wake_machine vm vms w : key (vm_ID vm) = vm_ID vm →
  wake s (GMachines (vm :: vms)) w = (Ret [GMachines vms], (reconcile_one s vm w).2) ∧
  (reconcile_one s vm w).1 = Ret ().
Proof using ServiceLaws0.
  intros Hk. pose proof (reconcile_one_late vm w Hk) as Hl. unfold wp in Hl. simpl. unfold mbind, M_bind.
  by destruct (reconcile_one s vm w) as [[[]|e|] w'].
Qed.

Lemma drive_machines vms w : Forall (λ vm, key (vm_ID vm) = vm_ID vm) vms →
  drive s (S (length vms)) [GMachines vms] w = ([], (iterM (reconcile_one s) vms w).2) ∧
  (iterM (reconcile_one s) vms w).1 = Ret ().
Proof using ServiceLaws0.
  intros Hks. revert w. induction Hks as [|vm vms Hk _ IH]; intros w; [done|].
  destruct (wake_machine vm vms w Hk) as [E1 E2]. cbn [length]. rewrite (drive_step _ _ _ _ _ _ E1).
  destruct (IH (reconcile_one s vm w).2) as [IH1 IH2]. cbn [app]. rewrite IH1. unfold iterM in *. simpl. unfold mbind, M_bind.
  destruct (reconcile_one s vm w) as [[[]|e|] w1]; simpl in *; done.
Qed.

Lemma drive_reconcile w : ∃ n, drive s n [GReconcile] w = ([], (reconcileVMs s w).2).
Proof using ServiceLaws0.
  pose proof (law_vm_list abs key (mkVMFilter "" "" "" "" "" 1 1000) w) as Hl. unfold reads, wp in Hl.
  unfold reconcileVMs, wrap, mbind, M_bind.
  destruct (VM_List (vmRepo s) _ w) as [[[vms n]|e|] w1] eqn:E; simpl in Hl; [|exists 1; simpl; unfold mbind, M_bind, attempt; by rewrite E|done].
  destruct Hl as [Hl _]. exists (S (S (length vms))). erewrite drive_step; [|simpl; unfold mbind, M_bind, attempt; by rewrite E].
  apply drive_machines. eapply Forall_impl; [exact Hl|]. by intros vm [_ ?].
Qed.

End proofs.

(** * Waiting for an image

    What one round of the loop sees: the time, the row, the size of the file, and
    whether the context ends before the two seconds do. *)
Record Round := mkRound {
  rd_now : Z; rd_row : option Image + string; rd_size : option Z; rd_ctx : option string }.

Definition round_ready (r : Round) : bool :=
  match rd_row r with
  | inl (Some img) => bool_decide (img_Status img = ImageStatusReady) &&
      match rd_size r with Some n => (0 <? n)%Z | None => false end
  | _ => false
  end.
Definition round_failed (r : Round) : bool :=
  match rd_row r with inl (Some img) => bool_decide (img_Status img = ImageStatusError) | _ => false end.

Section wait_ready.
Context (imageID : string) (rounds : nat → Round).

Definition timeout_error : string := "timeout waiting for image " +:+ imageID +:+ " to be ready".

(** [None]: the fuel is used up. *)
Fixpoint wait_loop (fuel n : nat) (deadline : Z) : option (outcome ()) :=
  match fuel with
  | O => None
  | S fuel' =>
      let r := rounds n in
      if (deadline <=? rd_now r)%Z then Some (Err timeout_error)
      else match rd_row r with
           | inr e => Some (Err e)
           | inl _ =>
               if round_ready r then Some (Ret ())
               else if round_failed r then Some (Err ("image " +:+ imageID +:+ " failed to download"))
               else match rd_ctx r with
                    | Some e => Some (Err e)
                    | None => wait_loop fuel' (S n) deadline
                    end
           end
  end.

(** One round more than the timeout holds pauses. *)
Definition wait_fuel (timeout : Z) : nat := S (S (Z.to_nat (timeout / (2 * Time.Second)))).
Definition WaitReady (start timeout : Z) : option (outcome ()) := wait_loop (wait_fuel timeout) 0 (start + timeout).

(** A pause that is not cut short takes two seconds. *)
Definition paced (start : Z) : Prop :=
  (start ≤ rd_now (rounds 0))%Z ∧
  ∀ n, rd_ctx (rounds n) = None → (rd_now (rounds n) + 2 * Time.Second ≤ rd_now (rounds (S n)))%Z.

Definition waiting_round (n : nat) : Prop :=
  round_ready (rounds n) = false ∧ round_failed (rounds n) = false ∧ rd_ctx (rounds n) = None.

Lemma wait_loop_ends start deadline fuel n :
  (∀ k, rd_ctx (rounds k) = None → (rd_now (rounds k) + 2 * Time.Second ≤ rd_now (rounds (S k)))%Z) →
  (start + Z.of_nat n * (2 * Time.Second) ≤ rd_now (rounds n))%Z →
  (deadline < start + Z.of_nat (n + fuel) * (2 * Time.Second) - 2 * Time.Second)%Z → 0 < fuel →
  ∃ o m, wait_loop fuel n deadline = Some o ∧ n ≤ m ∧ (∀ k, n ≤ k < m → waiting_round k) ∧
    match o with
    | Ret _ => round_ready (rounds m) = true ∧ (rd_now (rounds m) < deadline)%Z
    | Err e => (e = timeout_error ∧ (deadline ≤ rd_now (rounds m))%Z) ∨ rd_row (rounds m) = inr e ∨
               round_failed (rounds m) = true ∨ rd_ctx (rounds m) = Some e
    | Panic => False
    end.
Proof.
  intros Hp. revert n. induction fuel as [|fuel IH]; intros n Hn Hd Hf; [lia|]. simpl.
  destruct (Z.leb_spec deadline (rd_now (rounds n))) as [Hle|Hlt].
  { exists (Err timeout_error), n. split_and!; [done|lia|lia|]. by left. }
  destruct (rd_row (rounds n)) as [img|e] eqn:Erow; [|exists (Err e), n; split_and!; [done|lia|lia|auto]].
  destruct (round_ready (rounds n)) eqn:Er; [by exists (Ret ()), n; split_and!; [|lia|lia| |]|].
  destruct (round_failed (rounds n)) eqn:Ef; [eexists (Err _), n; split_and!; [done|lia|lia|auto]|].
  destruct (rd_ctx (rounds n)) as [e|] eqn:Ec; [exists (Err e), n; split_and!; [done|lia|lia|auto]|].
  assert (Hfuel : 0 < fuel).
  { destruct fuel; [|lia]. exfalso. unfold Time.Second in *. lia. }
  destruct (IH (S n)) as (o & m & E & Hm & Hw & Ho); [|by replace (S n + fuel) with (n + S fuel) by lia|done|].
  { specialize (Hp n Ec). unfold Time.Second in *. lia. }
  exists o, m. split_and!; [done|lia| |done]. intros k Hk. destruct (decide (k = n)) as [->|]; [done|]. apply Hw. lia.
Qed.

(** [WaitReady] ends for every timeout, whatever the rows, the files and the
    context do, as long as time passes: the rounds it is given are enough.  It
    returns nil only when, before the deadline, the row said ready and the file
    was there; it reports a timeout only when the deadline had passed and no
    round had seen the image ready or failed. *)
Theorem wait_ready_ends start timeout : (0 ≤ timeout)%Z → paced start →
  ∃ o m, WaitReady start timeout = Some o ∧ (∀ k, k < m → waiting_round k) ∧
    match o with
    | Ret _ => round_ready (rounds m) = true ∧ (rd_now (rounds m) < start + timeout)%Z
    | Err e => (e = timeout_error ∧ (start + timeout ≤ rd_now (rounds m))%Z) ∨ rd_row (rounds m) = inr e ∨
               round_failed (rounds m) = true ∨ rd_ctx (rounds m) = Some e
    | Panic => False
    end.
Proof.
  intros Ht [H0 Hp]. destruct (wait_loop_ends start (start + timeout) (wait_fuel timeout) 0) as (o & m & E & Hm & Hw & Ho);
    [done|lia| |unfold wait_fuel; lia|exists o, m; split_and!; [done| |done]; intros k Hk; apply Hw; lia].
  unfold wait_fuel. assert (0 < 2 * Time.Second)%Z as Hs by (unfold Time.Second; lia).
  pose proof (Z.div_pos timeout _ Ht Hs). pose proof (Z.mul_div_le timeout _ Hs).
  pose proof (Z.mod_pos_bound timeout _ Hs). pose proof (Z.div_mod timeout (2 * Time.Second) ltac:(lia)).
  unfold Time.Second in *. lia.
Qed.
End wait_ready.

Lemma wait_ready_witness :
  let rounds n := mkRound (Z.of_nat n * 2 * Time.Second) (inl None) None None in
  WaitReady "img" rounds 0 (5 * Time.Second) = Some (Err (timeout_error "img")) ∧
  ∃ o m, WaitReady "img" rounds 0 (5 * Time.Second) = Some o ∧ (∀ k, k < m → waiting_round rounds k) ∧
    match o with
    | Ret _ => round_ready (rounds m) = true ∧ (rd_now (rounds m) < 0 + 5 * Time.Second)%Z
    | Err e => (e = timeout_error "img" ∧ (0 + 5 * Time.Second ≤ rd_now (rounds m))%Z) ∨ rd_row (rounds m) = inr e ∨
               round_failed (rounds m) = true ∨ rd_ctx (rounds m) = Some e
    | Panic => False
    end.
Proof.
  split; [reflexivity|]. apply wait_ready_ends; [by vm_compute|]. split; [by vm_compute|].
  intros n _. cbn [rd_now]. unfold Time.Second. lia.
Defined.
