(* ===== verification/Mains.v ===== *)
(** The programs under [cmd]: what each [main] asks [bootstrap.Run] for and the
    service it runs, over [Startup], [Server], [Background] and [Agent].

    The schedules are arguments: what arrives at an HTTP server and when it is
    told to stop, and for the node agent the commands its handler gets to the end
    of (NATS calls the handler of a consumer for one message at a time) and the
    ticks of its timer.  When the node agent is told to stop it sleeps for a second
    and exits; a command that is still being carried out then is cut off, wherever
    it is, without an answer, and is not part of the schedule.

    Theorems: no program opens a connection beside those [Run] opens, so the
    accounting of [Startup] holds of all of them; the node agent survives every
    command and every failure of its host and answers each command that it gets to
    the end of once. *)
From stdpp Require Import base gmap strings list numbers.
From S2P Require Import Prelude.
From S2P Require Import GoStd.
From S2P Require Import GoJson.
From S2P Require Import Domain.
From S2P Require Import Interfaces.
From S2P Require Import ControlPlane.
From S2P Require Import PgControl.
From S2P Require Import Deployment.
From S2P Require Import Qcow2.
From S2P Require Import Host.
From S2P Require Import HostInfo.
From S2P Require Import Qemu.
From S2P Require Import Agent.
From S2P Require Import AgentProofs.
From S2P Require Import Config.
From S2P Require Import Startup.
From S2P Require Import Server.
From S2P Require Import Background.
From stdpp Require Import options.

(** * Options *)
Definition control_plane_opts : Options := mkOptions "control-plane" true true false.
Definition gateway_opts : Options := mkOptions "api-gateway" false false false.
Definition network_opts : Options := mkOptions "networking-engine" true false false.
Definition storage_opts : Options := mkOptions "storage-manager" true false false.
Definition scheduler_opts : Options := mkOptions "scheduler" false false false.
Definition agent_opts : Options := mkOptions "node-agent" false true true.

(** [cfg.Server.Addr = config.ResolveServerAddr(cfg.Server.Addr, name)] *)
Definition resolved (name : string) (c : ServerConfig) : ServerConfig :=
  mkServerConfig (ResolveServerAddr (sc_Addr c) name) (sc_ReadTimeout c) (sc_WriteTimeout c) (sc_IdleTimeout c)
    (sc_ShutdownTimeout c).

(** The services that only serve HTTP. *)
Definition http_main {Srv In} `{!HttpServer Srv In} {W} (name : string) (es : list (run_event In)) : service W := λ cfg _ _,
  RunHTTP (resolved name (cfg_Server cfg)) es.

(** * The control plane *)
Section control_plane.
Context {U : Type} `{Pg U, !PgLaws U} {Srv In : Type} `{!HttpServer Srv In}.

Definition control_plane_main (es : list (run_event In)) : service (World (U:=U)) := λ cfg _ js,
  let svc := control_plane (stc_ImagesPath (cfg_Storage cfg)) js in
  r ← inside (Recover svc);
  _ ← (match r with
       | inl _ => mret ()
       | inr _ => say (Logged LWarn "initial recovery failed")
       end);
  RunHTTP (resolved "control-plane" (cfg_Server cfg)) es.
End control_plane.

(** * The node agent *)
Inductive agent_event := AeTick | AeCommand (data : string).

Section agent.
Context `{Host HW}.
Context (environ : gmap string string) (hostname : string).

Definition logged {A} (m : M HW A) (msg : string) : Prog (Proc HW) () :=
  r ← inside m;
  match r with
  | inl _ => mret ()
  | inr _ => say (Logged LError msg)
  end.

Fixpoint agent_loop (nodeID base images : string) (es : list agent_event) : Prog (Proc HW) () :=
  match es with
  | [] => mret ()
  | AeTick :: es' =>
      _ ← logged (SendHeartbeat nodeID base) "failed to send heartbeat";
      agent_loop nodeID base images es'
  | AeCommand data :: es' =>
      _ ← inside (handleCommand base images data);
      agent_loop nodeID base images es'
  end.

(** [early]: the commands that are carried out before the recovery of the
    machines; [es]: what happens afterwards, until the process is told to stop;
    [late]: the commands whose handler ends within the second of
    [time.Sleep(1 * time.Second)].  The ticker is made by a goroutine, whose panic
    ends the process, and which returns when the process is told to stop. *)
Definition node_agent_main (early : list string) (es : list agent_event) (late : list string) : service HW := λ cfg _ _,
  let nodeID := node_identity (ndc_ID (cfg_Node cfg)) hostname in
  let '(base, images) := agent_dirs (Getenv environ "RYMEVISOR_VMS_PATH") (stc_ImagesPath (cfg_Storage cfg)) in
  r ← inside (SubscribeCommands nodeID);
  match r with
  | inr _ => Fatal "failed to subscribe to commands"
  | inl _ =>
      _ ← agent_loop nodeID base images (AeCommand <$> early);
      _ ← logged (RecoverVMs base images) "VM recovery failed";
      let interval := heartbeat_interval cfg in
      match NewTicker interval with
      | Ret _ =>
          _ ← logged (SendHeartbeat nodeID base) "failed to send initial heartbeat";
          _ ← say (Logged LInfo "node-agent started");
          _ ← agent_loop nodeID base images es;
          _ ← say (Logged LInfo "node-agent stopping");
          _ ← agent_loop nodeID base images (AeCommand <$> late);
          mret None
      | _ => λ p, (Crash, p)
      end
  end.
End agent.

(** * Programs that only work on their world *)

(** The messages of the stream that were answered. *)
Definition is_answer (e : sys_event) : bool := match e with Ack | Nak => true | _ => false end.
Definition answers (l : list sys_event) : nat := length (List.filter is_answer l).
Definition commands (es : list agent_event) : nat :=
  length (List.filter (λ e, match e with AeCommand _ => true | AeTick => false end) es).

Lemma answers_app l l' : answers (l ++ l') = answers l + answers l'.
Proof. unfold answers. by rewrite List.filter_app, length_app. Qed.
Lemma answers_none l : Forall (λ e, is_answer e = false) l → answers l = 0.
Proof. induction 1 as [|e l He _ IH]; [done|]. unfold answers in *. simpl. by rewrite He. Qed.

(** [advances n m Q]: [m] ends with a value in [Q], answers [n] messages, and only
    logs. *)
Definition advances {A} (n : nat) (m : Prog (Proc HW) A) (Q : A → Prop) : Prop := ∀ p, ∃ a p',
  m p = (Done a, p') ∧ Q a ∧ answers (h_log (pr_world p')) = answers (h_log (pr_world p)) + n ∧
  balance (pr_trace p') = balance (pr_trace p).

Local Abbreviation any := (λ _, True).

Lemma advances_ret {A} (a : A) (Q : A → Prop) : Q a → advances 0 (mret a) Q.
Proof. intros Ha p. exists a, p. split_and!; [done|done|lia|done]. Qed.
Lemma advances_bind {A B} n n' (m : Prog (Proc HW) A) (k : A → Prog (Proc HW) B) Q Q' :
  advances n m Q → (∀ a, Q a → advances n' (k a) Q') → advances (n + n') (m ≫= k) Q'.
Proof.
  intros Hm Hk p. destruct (Hm p) as (a & p1 & E1 & Hq1 & Ha1 & Hb1).
  destruct (Hk a Hq1 p1) as (b & p2 & E2 & Hq2 & Ha2 & Hb2).
  exists b, p2. split_and!; [|done|lia|congruence]. unfold mbind, Prog_bind. by rewrite E1.
Qed.
Lemma advances_log l msg : advances 0 (say (Logged l msg)) any.
Proof.
  intros p. eexists _, _. split_and!; [reflexivity|done|simpl; lia|].
  rewrite bal_emit. replace (balance [Logged l msg]) with nothing by done. apply plus_nothing.
Qed.
Lemma advances_inside {A} (m : M HW A) : does (λ e, is_answer e = false) m → advances 0 (inside m) any.
Proof.
  intros Hm p. destruct (Hm (pr_world p)) as (Hp & (l & Hl & Hq) & _). unfold inside.
  destruct (m (pr_world p)) as [[a|e|] w]; simpl in *; [| |done]; eexists _, _; (split; [reflexivity|]); simpl; split; try done;
    by rewrite Hl, answers_app, (answers_none l Hq).
Qed.

Section agent_proofs.
Context (prog : list string → gmap string string → gmap string string).
#[local] Instance node_programs : Host HW := host_programs prog.
Local Abbreviation quiet := (λ e, is_answer e = false).

Lemma advances_logged {A} (m : M HW A) msg : does quiet m → advances 0 (logged m msg) any.
Proof.
  intros Hm. apply (advances_bind 0 0 _ _ any); [by apply advances_inside|]. intros [] _; [by apply advances_ret|apply advances_log].
Qed.

#[local] Hint Resolve does_read does_readdir : does.

Lemma used_cpus_quiet : does quiet ReadUsedCPUs.
Proof.
  unfold ReadUsedCPUs, proc_file. apply does_bind; [does|]. intros data. destruct (used_line data) as [fields|] eqn:E; [|does].
  apply does_bind; [by eapply does_lift, used_counters_ranged|]. intros [[[? ?] ?] ?]. does; unfold ReadCPUCores, proc_file; does.
Qed.
#[local] Hint Resolve used_cpus_quiet : does.

Lemma heartbeat_quiet nodeID base : does quiet (SendHeartbeat nodeID base).
Proof.
  unfold SendHeartbeat, collectHeartbeat, listVMs, list_entry, now_unix, ReadMemory, js_Publish.
  does; unfold ReadCPUCores, proc_file; does.
  - by apply does_m_GetVMStatus.
  - by apply does_log.
Qed.
Lemma recover_quiet base images : does quiet (RecoverVMs base images).
Proof. unfold RecoverVMs. does. by apply does_recover. Qed.
Lemma subscribe_quiet nodeID : does quiet (SubscribeCommands nodeID).
Proof. unfold SubscribeCommands. does. by apply does_log. Qed.

(** A message is answered once. *)
Lemma command_advances base images data : advances 1 (inside (handleCommand base images data)) any.
Proof.
  intros p. destruct (command_answers prog base images data (pr_world p)) as (w' & E & Hw).
  unfold inside. change (handleCommand base images data) with (@handleCommand (host_programs prog) base images data). rewrite E.
  eexists _, _. split; [reflexivity|]. simpl. split; [done|]. split; [|done].
  destruct (decode_command data) as [cmd|]; [|by rewrite Hw, answers_app].
  destruct Hw as (did & _ & Hd & ->). rewrite !answers_app.
  rewrite (answers_none did) by (eapply List.Forall_impl; [|exact Hd]; by intros []).
  by destruct (fails_next _), (perform _ _ _ _).1.
Qed.

Lemma loop_advances nodeID base images es : advances (commands es) (agent_loop nodeID base images es) any.
Proof.
  induction es as [|[|data] es IH]; simpl; [by apply advances_ret|..].
  - eapply (advances_bind 0); [apply advances_logged, heartbeat_quiet|]. by intros [] _.
  - eapply (advances_bind 1); [apply command_advances|]. done.
Qed.
Lemma commands_all l : commands (AeCommand <$> l) = length l.
Proof. unfold commands. induction l as [|d l IH]; simpl; [done|]. by f_equal. Qed.

Lemma subscribe_calm nodeID w : h_fates w = [] → (SubscribeCommands nodeID w).1 = Ret ().
Proof. intros E. unfold SubscribeCommands, wrap, mbind, M_bind, Host.may_fail, fate, mbind, M_bind. rewrite E; simpl. by rewrite E. Qed.

(** The whole of [main]: it is over before the first command when the
    subscription fails. *)
Definition agent_ended (early : list string) (es : list agent_event) (late : list string) (p : Proc HW) (r : ending (option string)) (p' : Proc HW) : Prop :=
  (r = Exit 1 ∧ answers (h_log (pr_world p')) = answers (h_log (pr_world p)) ∧ h_fates (pr_world p) ≠ []) ∨
  (r = Done None ∧ answers (h_log (pr_world p')) = answers (h_log (pr_world p)) + length early + commands es + length late).

Lemma agent_main_ends environ hostname early es late cfg pool js p : (0 < heartbeat_interval cfg)%Z →
  agent_ended early es late p (node_agent_main environ hostname early es late cfg pool js p).1
    (node_agent_main environ hostname early es late cfg pool js p).2 ∧
  balance (pr_trace (node_agent_main environ hostname early es late cfg pool js p).2) = balance (pr_trace p).
Proof.
  intros Hi. unfold node_agent_main. destruct (agent_dirs _ _) as [base images].
  set (nodeID := node_identity _ _).
  destruct (advances_inside _ (subscribe_quiet nodeID) p) as (r & p1 & E1 & _ & Ha1 & Hb1).
  rewrite (bind_done _ _ _ _ _ E1). destruct r as [[]|e].
  2:{ split; [left; split_and!; [done|simpl; lia|]|].
      { intros Hf. pose proof (subscribe_calm nodeID _ Hf) as Hs. revert E1. unfold inside.
        by destruct (SubscribeCommands nodeID (pr_world p)) as [[] ?]; simplify_eq/=. }
      etrans; [exact (bal_emit (Logged LFatal "failed to subscribe to commands") p1)|]. rewrite Hb1. apply plus_nothing. }
  assert (NewTicker (heartbeat_interval cfg) = Ret (heartbeat_interval cfg)) as ->.
  { unfold NewTicker. by rewrite (proj2 (Z.leb_gt _ _) Hi). }
  match goal with |- agent_ended _ _ _ _ (?m p1).1 _ ∧ _ =>
    assert (Hm : advances (length early + (0 + (0 + (0 + (commands es + (0 + (length late + 0))))))) m (λ r, r = None)) end.
  { eapply advances_bind; [rewrite <-(commands_all early); apply loop_advances|intros _ _].
    eapply advances_bind; [apply advances_logged, recover_quiet|intros _ _].
    eapply advances_bind; [apply advances_logged, heartbeat_quiet|intros _ _].
    eapply advances_bind; [apply advances_log|intros _ _]. eapply advances_bind; [apply loop_advances|intros _ _].
    eapply advances_bind; [apply advances_log|intros _ _].
    eapply advances_bind; [rewrite <-(commands_all late); apply loop_advances|intros _ _]. by apply advances_ret. }
  destruct (Hm p1) as (? & p2 & -> & -> & Ha2 & Hb2). simpl. split; [right; split; [done|lia]|congruence].
Qed.

(** C40: The program of the node agent, from [main] on: whatever calls fail while it
    starts and on its host, whatever is delivered to it and however often its
    timer ticks, the process does not crash when the configured heartbeat interval
    is positive (or 0, which means the default); it exits with code 1 only before
    the first command, having answered none; otherwise every command whose handler
    ended before the process did, before or after the recovery of the machines or
    in the second after it was told to stop, has been answered exactly once, and
    the process stops without an error.  When nothing fails it gets that far.  A
    command that the exit cuts off is not covered. *)
Theorem node_agent_survives `{Libs} environ hostname early es late fates w :
  (0 < heartbeat_interval (Load environ))%Z →
  let run := Run environ agent_opts (node_agent_main environ hostname early es late) (mkProc [] fates w) in
  let handled := length early + commands es + length late in
  (run.1 = Exit 1 ∧ answers (h_log (pr_world run.2)) = answers (h_log w) ∨
   run.1 = Done () ∧ answers (h_log (pr_world run.2)) = answers (h_log w) + handled) ∧
  (fates = [] → h_fates w = [] → run.1 = Done ()).
Proof.
  intros Hi run handled. split.
  - destruct (Run_follows environ agent_opts (node_agent_main environ hostname early es late) (mkProc [] fates w))
      as [[E Ew]|(pool & js & p1 & Hw & E & Ew)]; fold run in E, Ew; rewrite Ew; [by left|].
    destruct (agent_main_ends environ hostname early es late (Load environ) pool js p1 Hi) as [[(Hr & Ha & _)|(Hr & Ha)] _];
      rewrite Hr in E; simpl in *; rewrite Hw in Ha; [by left|right; split; [done|unfold handled; lia]].
  - intros -> Hf. unfold run. destruct (startup_calm environ agent_opts (node_agent_main environ hostname early es late) w) as (t & pool & -> & _); [done|].
    destruct (agent_main_ends environ hostname early es late (Load environ) pool (op_NeedNATS agent_opts) (mkProc t [] w) Hi) as [[(_ & _ & Hn)|(Hr & _)] _]; [done|].
    by rewrite Hr.
Qed.
End agent_proofs.

(** * All programs *)
Lemma http_main_keeps {Srv In} `{!HttpServer Srv In} {W} name (es : list (run_event In)) : keeps_resources (W:=W) (http_main name es).
Proof. intros cfg pool js p. apply RunHTTP_keeps. Qed.

Lemma control_plane_main_keeps {U} `{Pg U, !PgLaws U} {Srv In} `{!HttpServer Srv In} (es : list (run_event In)) : keeps_resources (control_plane_main (U:=U) es).
Proof.
  intros cfg pool js [tr fs w]. unfold control_plane_main. set (srv := resolved _ _). unfold ends. erewrite bind_done by reflexivity.
  erewrite bind_done by reflexivity. apply (RunHTTP_keeps srv es).
Qed.

Lemma node_agent_main_keeps prog environ hostname early es late cfg pool js p : (0 < heartbeat_interval cfg)%Z →
  ends (@node_agent_main (host_programs prog) environ hostname early es late cfg pool js) (λ _ b, b = nothing) p.
Proof.
  intros Hi. exists nothing. split; [|done]. rewrite plus_nothing. by apply agent_main_ends.
Qed.

(** * Concrete runs *)

(** A pgx that reads any URL, and zap with its levels as numbers. *)
#[local] Instance libs0 : Libs := {|
  ParseConfig url := inl (mkPoolConfig url 4 0 0 0 0 0);
  NewDevelopmentConfig := mkZapConfig (-1) "CapitalLevelEncoder" "ISO8601TimeEncoder" "console";
  NewProductionConfig := mkZapConfig 0 "LowercaseLevelEncoder" "EpochTimeEncoder" "json";
  UnmarshalText s := if String.eqb s "debug" then Some (-1)%Z else if String.eqb s "info" then Some 0%Z else None;
|}.


Lemma startup_reaches_witness :
  let fn := http_main (W:=()) "storage-manager" [] in
  ∃ t pool, (Run ∅ storage_opts fn (mkProc [] [] ())).1 =
      ending_of (fn (Load ∅) pool (op_NeedNATS storage_opts) (mkProc t [] ())).1 ∧
    (is_Some pool ↔ op_NeedDB storage_opts = true) ∧
    balance t = (if op_NeedDB storage_opts then 1%Z else 0%Z, if op_NeedNATS storage_opts then 1%Z else 0%Z,
                 [(op_NeedDB storage_opts, op_NeedNATS storage_opts)], if op_NeedNATS storage_opts then streams else []).
Proof. intros fn. apply startup_reaches_service. intros _. eexists. reflexivity. Defined.

(** A pool that was opened stays open when the service fails: the deferred call
    does not run. *)
Example failed_service_leaks_pool :
  let run := Run ∅ storage_opts (http_main "storage-manager" [Outside (Accept 1)]) (mkProc [] [] ()) in
  run.1 = Exit 1 ∧ pools_open (pr_trace run.2) = 1%Z.
Proof. vm_compute. split; reflexivity. Qed.

(** The connection to NATS outlives every run of the control plane. *)
Example nats_never_closed :
  let run := Run ∅ control_plane_opts (http_main "control-plane" []) (mkProc [] [] ()) in
  run.1 = Done () ∧ nats_open (pr_trace run.2) = 1%Z ∧ pools_open (pr_trace run.2) = 0%Z.
Proof. vm_compute. split_and!; reflexivity. Qed.

(** A level that is no level: the debug level of the development configuration
    with the console format, else the info level. *)
Example unknown_level :
  zc_Level (zap_config "verbose" "console") = (-1)%Z ∧ zc_Level (zap_config "verbose" "json") = 0%Z.
Proof. split; reflexivity. Qed.

Definition node0 : HW := mkHW ∅ ∅ 0 [] [] [] [] [] (λ _ _, false).
Definition prog_none : list string → gmap string string → gmap string string := λ _ fs, fs.

Lemma node_agent_witness :
  let run := Run ∅ agent_opts (@node_agent_main (host_programs prog_none) ∅ "node-1" ["not a command"] [AeTick; AeCommand "null"] ["{}"]) (mkProc [] [] node0) in
  let handled := length ["not a command"] + commands [AeTick; AeCommand "null"] + length ["{}"] in
  (run.1 = Exit 1 ∧ answers (h_log (pr_world run.2)) = answers (h_log node0) ∨
   run.1 = Done () ∧ answers (h_log (pr_world run.2)) = answers (h_log node0) + handled) ∧
  (@nil (option string) = [] → h_fates node0 = [] → run.1 = Done ()).
Proof. apply node_agent_survives. vm_compute. reflexivity. Defined.
