(* ===== verification/AnswerFields.v ===== *)
(** The text of the control plane's answers: the JSON of the structs of
    [services/controlplane/domain] by their tags, of the lists and of the health
    checks, what [jsonutil.WriteJSON] writes, and the structs as a client decodes
    them.

    [omitempty] leaves out what is nil or empty, so that a client cannot tell an
    empty list of tags from none; a nil slice is written as [null].  How a time is
    written depends on the zone of the process and is a parameter; times are left
    out of what a client decodes.  A status that is none of the constants cannot
    be represented and does not decode. *)
From stdpp Require Import base gmap strings list numbers.
From S2P Require Import Prelude.
From S2P Require Import GoStd.
From S2P Require Import GoJson.
From S2P Require Import Domain.
From S2P Require Import Host.
From S2P Require Import Http.
From S2P Require Import Requests.
From S2P Require Import Handlers.
From stdpp Require Import options.

(** * Members *)
Definition must (k : string) (v : json) : list (string * json) := [(k, v)].
Definition omit_ptr (k : string) (o : option string) : list (string * json) :=
  match o with Some s => [(k, JStr s)] | None => [] end.
Definition omit_tags (k : string) (o : option (list string)) : list (string * json) :=
  omit_arr k (JStr <$> default [] o).

(** [map[string]string], with its keys sorted. *)
Definition map_entries (m : gmap string string) : list (string * string) :=
  sort_by (λ a b, string_lt a.1 b.1) (map_to_list m).
Definition omit_map (k : string) (o : option (gmap string string)) : list (string * json) :=
  match map_entries (default ∅ o) with
  | [] => []
  | l => [(k, JObj ((λ kv, (kv.1, JStr kv.2)) <$> l))]
  end.

(** What is left of a field with [omitempty]. *)
Definition present_tags (o : option (list string)) : option (list string) :=
  match o with Some [] => None | _ => o end.
Definition present_map (o : option (gmap string string)) : option (gmap string string) :=
  match o with Some m => if decide (m = ∅) then None else Some m | None => None end.

(** A string type with named constants. *)
Definition into_enum {A} (names : list (string * A)) : decoder A := λ v old,
  match v with
  | JStr s => snd <$> List.find (λ kv, String.eqb kv.1 s) names
  | JNull => Some old
  | _ => None
  end.
Definition VMStatus_names : list (string * VMStatus) := (λ s, (string_of_VMStatus s, s)) <$>
  [VMStatusCreating; VMStatusRunning; VMStatusStopped; VMStatusPaused; VMStatusRebooting; VMStatusShuttingDown;
   VMStatusTerminated; VMStatusError; VMStatusMigrating; VMStatusSnapshottting].
Definition NodeStatus_names : list (string * NodeStatus) := (λ s, (string_of_NodeStatus s, s)) <$>
  [NodeStatusOnline; NodeStatusOffline; NodeStatusDraining; NodeStatusMaintenance; NodeStatusError].
Definition ImageStatus_names : list (string * ImageStatus) := (λ s, (string_of_ImageStatus s, s)) <$>
  [ImageStatusReady; ImageStatusDownloading; ImageStatusProcessing; ImageStatusError].
Definition string_of_BackupStatus (s : BackupStatus) : string :=
  match s with
  | BackupStatusCreating => "creating"
  | BackupStatusRunning => "running"
  | BackupStatusCompleted => "completed"
  | BackupStatusFailed => "failed"
  | BackupStatusDeleted => "deleted"
  end.
Definition BackupStatus_names : list (string * BackupStatus) := (λ s, (string_of_BackupStatus s, s)) <$>
  [BackupStatusCreating; BackupStatusRunning; BackupStatusCompleted; BackupStatusFailed; BackupStatusDeleted].

Section answers.
Context (time_text : Z → string).
Definition time_json (t : Z) : json := JStr (time_text t).
Definition omit_time (k : string) (o : option Z) : list (string * json) :=
  match o with Some t => [(k, time_json t)] | None => [] end.

(** * The structs

    For each: its JSON, the zero value, its fields by name, what a client gets to
    see of it, and the ranges of its numbers. *)
Definition json_of_Disk (d : Disk) : json := JObj (
  must "id" (JStr (disk_ID d)) ++ must "name" (JStr (disk_Name d)) ++
  must "size_bytes" (JNum (disk_SizeBytes d)) ++ must "type" (JStr (disk_Type d)) ++
  must "storage_pool" (JStr (disk_StoragePool d)) ++ omit_str "image_id" (disk_ImageID d) ++
  must "boot" (JBool (disk_Boot d)) ++ must "order" (JNum (disk_Order d)) ++ []).

Definition Disk_json_zero : Disk := mkDisk "" "" 0 "" "" "" false 0.

Definition Disk_json_fields : fields Disk := [
  ("id", field disk_ID (λ x d, mkDisk x (disk_Name d) (disk_SizeBytes d) (disk_Type d) (disk_StoragePool d)
     (disk_ImageID d) (disk_Boot d) (disk_Order d)) into_string);
  ("name", field disk_Name (λ x d, mkDisk (disk_ID d) x (disk_SizeBytes d) (disk_Type d)
     (disk_StoragePool d) (disk_ImageID d) (disk_Boot d) (disk_Order d)) into_string);
  ("size_bytes", field disk_SizeBytes (λ x d, mkDisk (disk_ID d) (disk_Name d) x (disk_Type d)
     (disk_StoragePool d) (disk_ImageID d) (disk_Boot d) (disk_Order d)) into_int64);
  ("type", field disk_Type (λ x d, mkDisk (disk_ID d) (disk_Name d) (disk_SizeBytes d) x
     (disk_StoragePool d) (disk_ImageID d) (disk_Boot d) (disk_Order d)) into_string);
  ("storage_pool", field disk_StoragePool (λ x d, mkDisk (disk_ID d) (disk_Name d) (disk_SizeBytes d)
     (disk_Type d) x (disk_ImageID d) (disk_Boot d) (disk_Order d)) into_string);
  ("image_id", field disk_ImageID (λ x d, mkDisk (disk_ID d) (disk_Name d) (disk_SizeBytes d) (disk_Type d)
     (disk_StoragePool d) x (disk_Boot d) (disk_Order d)) into_string);
  ("boot", field disk_Boot (λ x d, mkDisk (disk_ID d) (disk_Name d) (disk_SizeBytes d) (disk_Type d)
     (disk_StoragePool d) (disk_ImageID d) x (disk_Order d)) into_bool);
  ("order", field disk_Order (λ x d, mkDisk (disk_ID d) (disk_Name d) (disk_SizeBytes d) (disk_Type d)
     (disk_StoragePool d) (disk_ImageID d) (disk_Boot d) x) into_int32)
].

Definition Disk_shown (d : Disk) : Disk := d.

Definition Disk_fits (d : Disk) : Prop := in_int64 (disk_SizeBytes d) ∧ in_int32 (disk_Order d).

Definition json_of_NIC (n : NetworkInterface) : json := JObj (
  must "id" (JStr (nic_ID n)) ++ must "name" (JStr (nic_Name n)) ++
  must "network_id" (JStr (nic_NetworkID n)) ++ must "mac_address" (JStr (nic_MACAddress n)) ++
  omit_arr "ipv4_addresses" (JStr <$> (nic_IPv4Addresses n)) ++
  omit_arr "ipv6_addresses" (JStr <$> (nic_IPv6Addresses n)) ++
  must "is_primary" (JBool (nic_IsPrimary n)) ++ []).

Definition NIC_json_zero : NetworkInterface := mkNIC "" "" "" "" [] [] false.

Definition NIC_json_fields : fields NetworkInterface := [
  ("id", field nic_ID (λ x n, mkNIC x (nic_Name n) (nic_NetworkID n) (nic_MACAddress n)
     (nic_IPv4Addresses n) (nic_IPv6Addresses n) (nic_IsPrimary n)) into_string);
  ("name", field nic_Name (λ x n, mkNIC (nic_ID n) x (nic_NetworkID n) (nic_MACAddress n)
     (nic_IPv4Addresses n) (nic_IPv6Addresses n) (nic_IsPrimary n)) into_string);
  ("network_id", field nic_NetworkID (λ x n, mkNIC (nic_ID n) (nic_Name n) x (nic_MACAddress n)
     (nic_IPv4Addresses n) (nic_IPv6Addresses n) (nic_IsPrimary n)) into_string);
  ("mac_address", field nic_MACAddress (λ x n, mkNIC (nic_ID n) (nic_Name n) (nic_NetworkID n) x
     (nic_IPv4Addresses n) (nic_IPv6Addresses n) (nic_IsPrimary n)) into_string);
  ("ipv4_addresses", field nic_IPv4Addresses (λ x n, mkNIC (nic_ID n) (nic_Name n) (nic_NetworkID n)
     (nic_MACAddress n) x (nic_IPv6Addresses n) (nic_IsPrimary n)) (into_slice into_string ""));
  ("ipv6_addresses", field nic_IPv6Addresses (λ x n, mkNIC (nic_ID n) (nic_Name n) (nic_NetworkID n)
     (nic_MACAddress n) (nic_IPv4Addresses n) x (nic_IsPrimary n)) (into_slice into_string ""));
  ("is_primary", field nic_IsPrimary (λ x n, mkNIC (nic_ID n) (nic_Name n) (nic_NetworkID n)
     (nic_MACAddress n) (nic_IPv4Addresses n) (nic_IPv6Addresses n) x) into_bool)
].

Definition NIC_shown (n : NetworkInterface) : NetworkInterface := n.

Definition NIC_fits (n : NetworkInterface) : Prop := True.

Definition json_of_VM (v : VirtualMachine) : json := JObj (
  must "id" (JStr (vm_ID v)) ++ must "name" (JStr (vm_Name v)) ++ omit_ptr "node_id" (vm_NodeID v) ++
  must "organization_id" (JStr (vm_OrganizationID v)) ++ omit_ptr "project_id" (vm_ProjectID v) ++
  must "status" (JStr (string_of_VMStatus (vm_Status v))) ++ must "vcpus" (JNum (vm_VCpus v)) ++
  must "memory_mb" (JNum (vm_MemoryMB v)) ++ must "cpu_model" (JStr (vm_CPUModel v)) ++
  must "machine_type" (JStr (vm_MachineType v)) ++
  must "enable_secure_boot" (JBool (vm_EnableSecureBoot v)) ++
  must "enable_tpm" (JBool (vm_EnableTPM v)) ++ must "hugepages" (JBool (vm_Hugepages v)) ++
  must "cloud_init" (JStr (vm_CloudInit v)) ++ omit_ptr "ssh_key_id" (vm_SSHKeyID v) ++
  omit_tags "tags" (vm_Tags v) ++ omit_map "metadata" (vm_Metadata v) ++ omit_map "labels" (vm_Labels v) ++
  omit_arr "disks" (json_of_Disk <$> (vm_Disks v)) ++
  omit_arr "network_interfaces" (json_of_NIC <$> (vm_NetworkInterfaces v)) ++
  must "created_at" (time_json (vm_CreatedAt v)) ++ must "updated_at" (time_json (vm_UpdatedAt v)) ++ []).

Definition VM_json_zero : VirtualMachine := mkVM "" "" None "" None VMStatusCreating 0 0 "" "" false false false "" None None None None [] [] 0 0.

Definition VM_json_fields : fields VirtualMachine := [
  ("id", field vm_ID (λ x v, mkVM x (vm_Name v) (vm_NodeID v) (vm_OrganizationID v) (vm_ProjectID v)
     (vm_Status v) (vm_VCpus v) (vm_MemoryMB v) (vm_CPUModel v) (vm_MachineType v) (vm_EnableSecureBoot v)
     (vm_EnableTPM v) (vm_Hugepages v) (vm_CloudInit v) (vm_SSHKeyID v) (vm_Tags v) (vm_Metadata v)
     (vm_Labels v) (vm_Disks v) (vm_NetworkInterfaces v) (vm_CreatedAt v) (vm_UpdatedAt v)) into_string);
  ("name", field vm_Name (λ x v, mkVM (vm_ID v) x (vm_NodeID v) (vm_OrganizationID v) (vm_ProjectID v)
     (vm_Status v) (vm_VCpus v) (vm_MemoryMB v) (vm_CPUModel v) (vm_MachineType v) (vm_EnableSecureBoot v)
     (vm_EnableTPM v) (vm_Hugepages v) (vm_CloudInit v) (vm_SSHKeyID v) (vm_Tags v) (vm_Metadata v)
     (vm_Labels v) (vm_Disks v) (vm_NetworkInterfaces v) (vm_CreatedAt v) (vm_UpdatedAt v)) into_string);
  ("node_id", field vm_NodeID (λ x v, mkVM (vm_ID v) (vm_Name v) x (vm_OrganizationID v) (vm_ProjectID v)
     (vm_Status v) (vm_VCpus v) (vm_MemoryMB v) (vm_CPUModel v) (vm_MachineType v) (vm_EnableSecureBoot v)
     (vm_EnableTPM v) (vm_Hugepages v) (vm_CloudInit v) (vm_SSHKeyID v) (vm_Tags v) (vm_Metadata v)
     (vm_Labels v) (vm_Disks v) (vm_NetworkInterfaces v) (vm_CreatedAt v) (vm_UpdatedAt v)) (into_ptr
     into_string ""));
  ("organization_id", field vm_OrganizationID (λ x v, mkVM (vm_ID v) (vm_Name v) (vm_NodeID v) x
     (vm_ProjectID v) (vm_Status v) (vm_VCpus v) (vm_MemoryMB v) (vm_CPUModel v) (vm_MachineType v)
     (vm_EnableSecureBoot v) (vm_EnableTPM v) (vm_Hugepages v) (vm_CloudInit v) (vm_SSHKeyID v) (vm_Tags v)
     (vm_Metadata v) (vm_Labels v) (vm_Disks v) (vm_NetworkInterfaces v) (vm_CreatedAt v) (vm_UpdatedAt v))
     into_string);
  ("project_id", field vm_ProjectID (λ x v, mkVM (vm_ID v) (vm_Name v) (vm_NodeID v) (vm_OrganizationID v)
     x (vm_Status v) (vm_VCpus v) (vm_MemoryMB v) (vm_CPUModel v) (vm_MachineType v)
     (vm_EnableSecureBoot v) (vm_EnableTPM v) (vm_Hugepages v) (vm_CloudInit v) (vm_SSHKeyID v) (vm_Tags v)
     (vm_Metadata v) (vm_Labels v) (vm_Disks v) (vm_NetworkInterfaces v) (vm_CreatedAt v) (vm_UpdatedAt v))
     (into_ptr into_string ""));
  ("status", field vm_Status (λ x v, mkVM (vm_ID v) (vm_Name v) (vm_NodeID v) (vm_OrganizationID v)
     (vm_ProjectID v) x (vm_VCpus v) (vm_MemoryMB v) (vm_CPUModel v) (vm_MachineType v)
     (vm_EnableSecureBoot v) (vm_EnableTPM v) (vm_Hugepages v) (vm_CloudInit v) (vm_SSHKeyID v) (vm_Tags v)
     (vm_Metadata v) (vm_Labels v) (vm_Disks v) (vm_NetworkInterfaces v) (vm_CreatedAt v) (vm_UpdatedAt v))
     (into_enum VMStatus_names));
  ("vcpus", field vm_VCpus (λ x v, mkVM (vm_ID v) (vm_Name v) (vm_NodeID v) (vm_OrganizationID v)
     (vm_ProjectID v) (vm_Status v) x (vm_MemoryMB v) (vm_CPUModel v) (vm_MachineType v)
     (vm_EnableSecureBoot v) (vm_EnableTPM v) (vm_Hugepages v) (vm_CloudInit v) (vm_SSHKeyID v) (vm_Tags v)
     (vm_Metadata v) (vm_Labels v) (vm_Disks v) (vm_NetworkInterfaces v) (vm_CreatedAt v) (vm_UpdatedAt v))
     into_int32);
  ("memory_mb", field vm_MemoryMB (λ x v, mkVM (vm_ID v) (vm_Name v) (vm_NodeID v) (vm_OrganizationID v)
     (vm_ProjectID v) (vm_Status v) (vm_VCpus v) x (vm_CPUModel v) (vm_MachineType v)
     (vm_EnableSecureBoot v) (vm_EnableTPM v) (vm_Hugepages v) (vm_CloudInit v) (vm_SSHKeyID v) (vm_Tags v)
     (vm_Metadata v) (vm_Labels v) (vm_Disks v) (vm_NetworkInterfaces v) (vm_CreatedAt v) (vm_UpdatedAt v))
     into_int64);
  ("cpu_model", field vm_CPUModel (λ x v, mkVM (vm_ID v) (vm_Name v) (vm_NodeID v) (vm_OrganizationID v)
     (vm_ProjectID v) (vm_Status v) (vm_VCpus v) (vm_MemoryMB v) x (vm_MachineType v)
     (vm_EnableSecureBoot v) (vm_EnableTPM v) (vm_Hugepages v) (vm_CloudInit v) (vm_SSHKeyID v) (vm_Tags v)
     (vm_Metadata v) (vm_Labels v) (vm_Disks v) (vm_NetworkInterfaces v) (vm_CreatedAt v) (vm_UpdatedAt v))
     into_string);
  ("machine_type", field vm_MachineType (λ x v, mkVM (vm_ID v) (vm_Name v) (vm_NodeID v)
     (vm_OrganizationID v) (vm_ProjectID v) (vm_Status v) (vm_VCpus v) (vm_MemoryMB v) (vm_CPUModel v) x
     (vm_EnableSecureBoot v) (vm_EnableTPM v) (vm_Hugepages v) (vm_CloudInit v) (vm_SSHKeyID v) (vm_Tags v)
     (vm_Metadata v) (vm_Labels v) (vm_Disks v) (vm_NetworkInterfaces v) (vm_CreatedAt v) (vm_UpdatedAt v))
     into_string);
  ("enable_secure_boot", field vm_EnableSecureBoot (λ x v, mkVM (vm_ID v) (vm_Name v) (vm_NodeID v)
     (vm_OrganizationID v) (vm_ProjectID v) (vm_Status v) (vm_VCpus v) (vm_MemoryMB v) (vm_CPUModel v)
     (vm_MachineType v) x (vm_EnableTPM v) (vm_Hugepages v) (vm_CloudInit v) (vm_SSHKeyID v) (vm_Tags v)
     (vm_Metadata v) (vm_Labels v) (vm_Disks v) (vm_NetworkInterfaces v) (vm_CreatedAt v) (vm_UpdatedAt v))
     into_bool);
  ("enable_tpm", field vm_EnableTPM (λ x v, mkVM (vm_ID v) (vm_Name v) (vm_NodeID v) (vm_OrganizationID v)
     (vm_ProjectID v) (vm_Status v) (vm_VCpus v) (vm_MemoryMB v) (vm_CPUModel v) (vm_MachineType v)
     (vm_EnableSecureBoot v) x (vm_Hugepages v) (vm_CloudInit v) (vm_SSHKeyID v) (vm_Tags v)
     (vm_Metadata v) (vm_Labels v) (vm_Disks v) (vm_NetworkInterfaces v) (vm_CreatedAt v) (vm_UpdatedAt v))
     into_bool);
  ("hugepages", field vm_Hugepages (λ x v, mkVM (vm_ID v) (vm_Name v) (vm_NodeID v) (vm_OrganizationID v)
     (vm_ProjectID v) (vm_Status v) (vm_VCpus v) (vm_MemoryMB v) (vm_CPUModel v) (vm_MachineType v)
     (vm_EnableSecureBoot v) (vm_EnableTPM v) x (vm_CloudInit v) (vm_SSHKeyID v) (vm_Tags v)
     (vm_Metadata v) (vm_Labels v) (vm_Disks v) (vm_NetworkInterfaces v) (vm_CreatedAt v) (vm_UpdatedAt v))
     into_bool);
  ("cloud_init", field vm_CloudInit (λ x v, mkVM (vm_ID v) (vm_Name v) (vm_NodeID v) (vm_OrganizationID v)
     (vm_ProjectID v) (vm_Status v) (vm_VCpus v) (vm_MemoryMB v) (vm_CPUModel v) (vm_MachineType v)
     (vm_EnableSecureBoot v) (vm_EnableTPM v) (vm_Hugepages v) x (vm_SSHKeyID v) (vm_Tags v)
     (vm_Metadata v) (vm_Labels v) (vm_Disks v) (vm_NetworkInterfaces v) (vm_CreatedAt v) (vm_UpdatedAt v))
     into_string);
  ("ssh_key_id", field vm_SSHKeyID (λ x v, mkVM (vm_ID v) (vm_Name v) (vm_NodeID v) (vm_OrganizationID v)
     (vm_ProjectID v) (vm_Status v) (vm_VCpus v) (vm_MemoryMB v) (vm_CPUModel v) (vm_MachineType v)
     (vm_EnableSecureBoot v) (vm_EnableTPM v) (vm_Hugepages v) (vm_CloudInit v) x (vm_Tags v)
     (vm_Metadata v) (vm_Labels v) (vm_Disks v) (vm_NetworkInterfaces v) (vm_CreatedAt v) (vm_UpdatedAt v))
     (into_ptr into_string ""));
  ("tags", field vm_Tags (λ x v, mkVM (vm_ID v) (vm_Name v) (vm_NodeID v) (vm_OrganizationID v)
     (vm_ProjectID v) (vm_Status v) (vm_VCpus v) (vm_MemoryMB v) (vm_CPUModel v) (vm_MachineType v)
     (vm_EnableSecureBoot v) (vm_EnableTPM v) (vm_Hugepages v) (vm_CloudInit v) (vm_SSHKeyID v) x
     (vm_Metadata v) (vm_Labels v) (vm_Disks v) (vm_NetworkInterfaces v) (vm_CreatedAt v) (vm_UpdatedAt v))
     into_tags);
  ("metadata", field vm_Metadata (λ x v, mkVM (vm_ID v) (vm_Name v) (vm_NodeID v) (vm_OrganizationID v)
     (vm_ProjectID v) (vm_Status v) (vm_VCpus v) (vm_MemoryMB v) (vm_CPUModel v) (vm_MachineType v)
     (vm_EnableSecureBoot v) (vm_EnableTPM v) (vm_Hugepages v) (vm_CloudInit v) (vm_SSHKeyID v) (vm_Tags v)
     x (vm_Labels v) (vm_Disks v) (vm_NetworkInterfaces v) (vm_CreatedAt v) (vm_UpdatedAt v)) into_labels);
  ("labels", field vm_Labels (λ x v, mkVM (vm_ID v) (vm_Name v) (vm_NodeID v) (vm_OrganizationID v)
     (vm_ProjectID v) (vm_Status v) (vm_VCpus v) (vm_MemoryMB v) (vm_CPUModel v) (vm_MachineType v)
     (vm_EnableSecureBoot v) (vm_EnableTPM v) (vm_Hugepages v) (vm_CloudInit v) (vm_SSHKeyID v) (vm_Tags v)
     (vm_Metadata v) x (vm_Disks v) (vm_NetworkInterfaces v) (vm_CreatedAt v) (vm_UpdatedAt v))
     into_labels);
  ("disks", field vm_Disks (λ x v, mkVM (vm_ID v) (vm_Name v) (vm_NodeID v) (vm_OrganizationID v)
     (vm_ProjectID v) (vm_Status v) (vm_VCpus v) (vm_MemoryMB v) (vm_CPUModel v) (vm_MachineType v)
     (vm_EnableSecureBoot v) (vm_EnableTPM v) (vm_Hugepages v) (vm_CloudInit v) (vm_SSHKeyID v) (vm_Tags v)
     (vm_Metadata v) (vm_Labels v) x (vm_NetworkInterfaces v) (vm_CreatedAt v) (vm_UpdatedAt v))
     (into_slice (into_struct Disk_json_fields) Disk_json_zero));
  ("network_interfaces", field vm_NetworkInterfaces (λ x v, mkVM (vm_ID v) (vm_Name v) (vm_NodeID v)
     (vm_OrganizationID v) (vm_ProjectID v) (vm_Status v) (vm_VCpus v) (vm_MemoryMB v) (vm_CPUModel v)
     (vm_MachineType v) (vm_EnableSecureBoot v) (vm_EnableTPM v) (vm_Hugepages v) (vm_CloudInit v)
     (vm_SSHKeyID v) (vm_Tags v) (vm_Metadata v) (vm_Labels v) (vm_Disks v) x (vm_CreatedAt v)
     (vm_UpdatedAt v)) (into_slice (into_struct NIC_json_fields) NIC_json_zero))
].

Definition VM_shown (v : VirtualMachine) : VirtualMachine := mkVM (vm_ID v) (vm_Name v) (vm_NodeID v)
  (vm_OrganizationID v) (vm_ProjectID v) (vm_Status v) (vm_VCpus v) (vm_MemoryMB v) (vm_CPUModel v)
  (vm_MachineType v) (vm_EnableSecureBoot v) (vm_EnableTPM v) (vm_Hugepages v) (vm_CloudInit v)
  (vm_SSHKeyID v) (present_tags (vm_Tags v)) (present_map (vm_Metadata v)) (present_map (vm_Labels v))
  (vm_Disks v) (vm_NetworkInterfaces v) 0 0.

Definition VM_fits (v : VirtualMachine) : Prop := in_int32 (vm_VCpus v) ∧ in_int64 (vm_MemoryMB v) ∧ Forall
  Disk_fits (vm_Disks v).

Definition json_of_Snapshot (s : Snapshot) : json := JObj (
  must "id" (JStr (snap_ID s)) ++ must "vm_id" (JStr (snap_VMID s)) ++ must "name" (JStr (snap_Name s)) ++
  must "description" (JStr (snap_Description s)) ++ must "size_bytes" (JNum (snap_SizeBytes s)) ++
  must "status" (JStr (snap_Status s)) ++ must "created_at" (time_json (snap_CreatedAt s)) ++ []).

Definition Snapshot_json_zero : Snapshot := mkSnapshot "" "" "" "" 0 "" 0.

Definition Snapshot_json_fields : fields Snapshot := [
  ("id", field snap_ID (λ x s, mkSnapshot x (snap_VMID s) (snap_Name s) (snap_Description s)
     (snap_SizeBytes s) (snap_Status s) (snap_CreatedAt s)) into_string);
  ("vm_id", field snap_VMID (λ x s, mkSnapshot (snap_ID s) x (snap_Name s) (snap_Description s)
     (snap_SizeBytes s) (snap_Status s) (snap_CreatedAt s)) into_string);
  ("name", field snap_Name (λ x s, mkSnapshot (snap_ID s) (snap_VMID s) x (snap_Description s)
     (snap_SizeBytes s) (snap_Status s) (snap_CreatedAt s)) into_string);
  ("description", field snap_Description (λ x s, mkSnapshot (snap_ID s) (snap_VMID s) (snap_Name s) x
     (snap_SizeBytes s) (snap_Status s) (snap_CreatedAt s)) into_string);
  ("size_bytes", field snap_SizeBytes (λ x s, mkSnapshot (snap_ID s) (snap_VMID s) (snap_Name s)
     (snap_Description s) x (snap_Status s) (snap_CreatedAt s)) into_int64);
  ("status", field snap_Status (λ x s, mkSnapshot (snap_ID s) (snap_VMID s) (snap_Name s)
     (snap_Description s) (snap_SizeBytes s) x (snap_CreatedAt s)) into_string)
].

Definition Snapshot_shown (s : Snapshot) : Snapshot := mkSnapshot (snap_ID s) (snap_VMID s) (snap_Name s)
  (snap_Description s) (snap_SizeBytes s) (snap_Status s) 0.

Definition Snapshot_fits (s : Snapshot) : Prop := in_int64 (snap_SizeBytes s).

Definition json_of_Node (n : Node) : json := JObj (
  must "id" (JStr (node_ID n)) ++ must "name" (JStr (node_Name n)) ++
  must "address" (JStr (node_Address n)) ++ must "port" (JNum (node_Port n)) ++
  must "status" (JStr (string_of_NodeStatus (node_Status n))) ++
  must "total_cpus" (JNum (res_TotalCPUs (node_Resources n))) ++
  must "used_cpus" (JNum (res_UsedCPUs (node_Resources n))) ++
  must "total_memory_mb" (JNum (res_TotalMemoryMB (node_Resources n))) ++
  must "used_memory_mb" (JNum (res_UsedMemoryMB (node_Resources n))) ++
  must "total_storage_bytes" (JNum (res_TotalStorageBytes (node_Resources n))) ++
  must "used_storage_bytes" (JNum (res_UsedStorageBytes (node_Resources n))) ++
  must "total_gpus" (JNum (res_TotalGPUs (node_Resources n))) ++
  must "used_gpus" (JNum (res_UsedGPUs (node_Resources n))) ++ omit_map "labels" (node_Labels n) ++
  omit_map "metadata" (node_Metadata n) ++ omit_time "last_heartbeat" (node_LastHeartbeat n) ++
  must "created_at" (time_json (node_CreatedAt n)) ++ must "updated_at" (time_json (node_UpdatedAt n)) ++ []).

Definition Node_json_zero : Node := mkNode "" "" "" 0 NodeStatusOnline resources_zero None None None 0 0.

Definition Node_json_fields : fields Node := [
  ("id", field node_ID (λ x n, mkNode x (node_Name n) (node_Address n) (node_Port n) (node_Status n)
     (node_Resources n) (node_Labels n) (node_Metadata n) (node_LastHeartbeat n) (node_CreatedAt n)
     (node_UpdatedAt n)) into_string);
  ("name", field node_Name (λ x n, mkNode (node_ID n) x (node_Address n) (node_Port n) (node_Status n)
     (node_Resources n) (node_Labels n) (node_Metadata n) (node_LastHeartbeat n) (node_CreatedAt n)
     (node_UpdatedAt n)) into_string);
  ("address", field node_Address (λ x n, mkNode (node_ID n) (node_Name n) x (node_Port n) (node_Status n)
     (node_Resources n) (node_Labels n) (node_Metadata n) (node_LastHeartbeat n) (node_CreatedAt n)
     (node_UpdatedAt n)) into_string);
  ("port", field node_Port (λ x n, mkNode (node_ID n) (node_Name n) (node_Address n) x (node_Status n)
     (node_Resources n) (node_Labels n) (node_Metadata n) (node_LastHeartbeat n) (node_CreatedAt n)
     (node_UpdatedAt n)) into_int32);
  ("status", field node_Status (λ x n, mkNode (node_ID n) (node_Name n) (node_Address n) (node_Port n) x
     (node_Resources n) (node_Labels n) (node_Metadata n) (node_LastHeartbeat n) (node_CreatedAt n)
     (node_UpdatedAt n)) (into_enum NodeStatus_names));
  ("total_cpus", field (λ n, res_TotalCPUs (node_Resources n)) (λ x n, mkNode (node_ID n) (node_Name n)
     (node_Address n) (node_Port n) (node_Status n) (mkResources x (res_UsedCPUs (node_Resources n))
     (res_TotalMemoryMB (node_Resources n)) (res_UsedMemoryMB (node_Resources n)) (res_TotalStorageBytes
     (node_Resources n)) (res_UsedStorageBytes (node_Resources n)) (res_TotalGPUs (node_Resources n))
     (res_UsedGPUs (node_Resources n))) (node_Labels n) (node_Metadata n) (node_LastHeartbeat n)
     (node_CreatedAt n) (node_UpdatedAt n)) into_int32);
  ("used_cpus", field (λ n, res_UsedCPUs (node_Resources n)) (λ x n, mkNode (node_ID n) (node_Name n)
     (node_Address n) (node_Port n) (node_Status n) (mkResources (res_TotalCPUs (node_Resources n)) x
     (res_TotalMemoryMB (node_Resources n)) (res_UsedMemoryMB (node_Resources n)) (res_TotalStorageBytes
     (node_Resources n)) (res_UsedStorageBytes (node_Resources n)) (res_TotalGPUs (node_Resources n))
     (res_UsedGPUs (node_Resources n))) (node_Labels n) (node_Metadata n) (node_LastHeartbeat n)
     (node_CreatedAt n) (node_UpdatedAt n)) into_int32);
  ("total_memory_mb", field (λ n, res_TotalMemoryMB (node_Resources n)) (λ x n, mkNode (node_ID n)
     (node_Name n) (node_Address n) (node_Port n) (node_Status n) (mkResources (res_TotalCPUs
     (node_Resources n)) (res_UsedCPUs (node_Resources n)) x (res_UsedMemoryMB (node_Resources n))
     (res_TotalStorageBytes (node_Resources n)) (res_UsedStorageBytes (node_Resources n)) (res_TotalGPUs
     (node_Resources n)) (res_UsedGPUs (node_Resources n))) (node_Labels n) (node_Metadata n)
     (node_LastHeartbeat n) (node_CreatedAt n) (node_UpdatedAt n)) into_int64);
  ("used_memory_mb", field (λ n, res_UsedMemoryMB (node_Resources n)) (λ x n, mkNode (node_ID n)
     (node_Name n) (node_Address n) (node_Port n) (node_Status n) (mkResources (res_TotalCPUs
     (node_Resources n)) (res_UsedCPUs (node_Resources n)) (res_TotalMemoryMB (node_Resources n)) x
     (res_TotalStorageBytes (node_Resources n)) (res_UsedStorageBytes (node_Resources n)) (res_TotalGPUs
     (node_Resources n)) (res_UsedGPUs (node_Resources n))) (node_Labels n) (node_Metadata n)
     (node_LastHeartbeat n) (node_CreatedAt n) (node_UpdatedAt n)) into_int64);
  ("total_storage_bytes", field (λ n, res_TotalStorageBytes (node_Resources n)) (λ x n, mkNode (node_ID n)
     (node_Name n) (node_Address n) (node_Port n) (node_Status n) (mkResources (res_TotalCPUs
     (node_Resources n)) (res_UsedCPUs (node_Resources n)) (res_TotalMemoryMB (node_Resources n))
     (res_UsedMemoryMB (node_Resources n)) x (res_UsedStorageBytes (node_Resources n)) (res_TotalGPUs
     (node_Resources n)) (res_UsedGPUs (node_Resources n))) (node_Labels n) (node_Metadata n)
     (node_LastHeartbeat n) (node_CreatedAt n) (node_UpdatedAt n)) into_int64);
  ("used_storage_bytes", field (λ n, res_UsedStorageBytes (node_Resources n)) (λ x n, mkNode (node_ID n)
     (node_Name n) (node_Address n) (node_Port n) (node_Status n) (mkResources (res_TotalCPUs
     (node_Resources n)) (res_UsedCPUs (node_Resources n)) (res_TotalMemoryMB (node_Resources n))
     (res_UsedMemoryMB (node_Resources n)) (res_TotalStorageBytes (node_Resources n)) x (res_TotalGPUs
     (node_Resources n)) (res_UsedGPUs (node_Resources n))) (node_Labels n) (node_Metadata n)
     (node_LastHeartbeat n) (node_CreatedAt n) (node_UpdatedAt n)) into_int64);
  ("total_gpus", field (λ n, res_TotalGPUs (node_Resources n)) (λ x n, mkNode (node_ID n) (node_Name n)
     (node_Address n) (node_Port n) (node_Status n) (mkResources (res_TotalCPUs (node_Resources n))
     (res_UsedCPUs (node_Resources n)) (res_TotalMemoryMB (node_Resources n)) (res_UsedMemoryMB
     (node_Resources n)) (res_TotalStorageBytes (node_Resources n)) (res_UsedStorageBytes
     (node_Resources n)) x (res_UsedGPUs (node_Resources n))) (node_Labels n) (node_Metadata n)
     (node_LastHeartbeat n) (node_CreatedAt n) (node_UpdatedAt n)) into_int32);
  ("used_gpus", field (λ n, res_UsedGPUs (node_Resources n)) (λ x n, mkNode (node_ID n) (node_Name n)
     (node_Address n) (node_Port n) (node_Status n) (mkResources (res_TotalCPUs (node_Resources n))
     (res_UsedCPUs (node_Resources n)) (res_TotalMemoryMB (node_Resources n)) (res_UsedMemoryMB
     (node_Resources n)) (res_TotalStorageBytes (node_Resources n)) (res_UsedStorageBytes
     (node_Resources n)) (res_TotalGPUs (node_Resources n)) x) (node_Labels n) (node_Metadata n)
     (node_LastHeartbeat n) (node_CreatedAt n) (node_UpdatedAt n)) into_int32);
  ("labels", field node_Labels (λ x n, mkNode (node_ID n) (node_Name n) (node_Address n) (node_Port n)
     (node_Status n) (node_Resources n) x (node_Metadata n) (node_LastHeartbeat n) (node_CreatedAt n)
     (node_UpdatedAt n)) into_labels);
  ("metadata", field node_Metadata (λ x n, mkNode (node_ID n) (node_Name n) (node_Address n) (node_Port n)
     (node_Status n) (node_Resources n) (node_Labels n) x (node_LastHeartbeat n) (node_CreatedAt n)
     (node_UpdatedAt n)) into_labels)
].

Definition Node_shown (n : Node) : Node := mkNode (node_ID n) (node_Name n) (node_Address n) (node_Port n)
  (node_Status n) (node_Resources n) (present_map (node_Labels n)) (present_map (node_Metadata n)) None 0
  0.

Definition Node_fits (n : Node) : Prop := in_int32 (node_Port n) ∧ in_int32 (res_TotalCPUs
  (node_Resources n)) ∧ in_int32 (res_UsedCPUs (node_Resources n)) ∧ in_int64 (res_TotalMemoryMB
  (node_Resources n)) ∧ in_int64 (res_UsedMemoryMB (node_Resources n)) ∧ in_int64 (res_TotalStorageBytes
  (node_Resources n)) ∧ in_int64 (res_UsedStorageBytes (node_Resources n)) ∧ in_int32 (res_TotalGPUs
  (node_Resources n)) ∧ in_int32 (res_UsedGPUs (node_Resources n)).

Definition json_of_Image (i : Image) : json := JObj (
  must "id" (JStr (img_ID i)) ++ must "name" (JStr (img_Name i)) ++
  must "description" (JStr (img_Description i)) ++ must "os" (JStr (img_OS i)) ++
  must "os_version" (JStr (img_OSVersion i)) ++ must "architecture" (JStr (img_Architecture i)) ++
  must "type" (JStr (img_Type i)) ++ must "size_bytes" (JNum (img_SizeBytes i)) ++
  must "status" (JStr (string_of_ImageStatus (img_Status i))) ++ must "checksum" (JStr (img_Checksum i)) ++
  omit_str "source_url" (img_SourceURL i) ++ omit_tags "tags" (img_Tags i) ++
  must "created_at" (time_json (img_CreatedAt i)) ++ must "updated_at" (time_json (img_UpdatedAt i)) ++ []).

Definition Image_json_zero : Image := mkImage "" "" "" "" "" "" "" 0 ImageStatusReady "" "" None 0 0.

Definition Image_json_fields : fields Image := [
  ("id", field img_ID (λ x i, mkImage x (img_Name i) (img_Description i) (img_OS i) (img_OSVersion i)
     (img_Architecture i) (img_Type i) (img_SizeBytes i) (img_Status i) (img_Checksum i) (img_SourceURL i)
     (img_Tags i) (img_CreatedAt i) (img_UpdatedAt i)) into_string);
  ("name", field img_Name (λ x i, mkImage (img_ID i) x (img_Description i) (img_OS i) (img_OSVersion i)
     (img_Architecture i) (img_Type i) (img_SizeBytes i) (img_Status i) (img_Checksum i) (img_SourceURL i)
     (img_Tags i) (img_CreatedAt i) (img_UpdatedAt i)) into_string);
  ("description", field img_Description (λ x i, mkImage (img_ID i) (img_Name i) x (img_OS i)
     (img_OSVersion i) (img_Architecture i) (img_Type i) (img_SizeBytes i) (img_Status i) (img_Checksum i)
     (img_SourceURL i) (img_Tags i) (img_CreatedAt i) (img_UpdatedAt i)) into_string);
  ("os", field img_OS (λ x i, mkImage (img_ID i) (img_Name i) (img_Description i) x (img_OSVersion i)
     (img_Architecture i) (img_Type i) (img_SizeBytes i) (img_Status i) (img_Checksum i) (img_SourceURL i)
     (img_Tags i) (img_CreatedAt i) (img_UpdatedAt i)) into_string);
  ("os_version", field img_OSVersion (λ x i, mkImage (img_ID i) (img_Name i) (img_Description i) (img_OS i)
     x (img_Architecture i) (img_Type i) (img_SizeBytes i) (img_Status i) (img_Checksum i)
     (img_SourceURL i) (img_Tags i) (img_CreatedAt i) (img_UpdatedAt i)) into_string);
  ("architecture", field img_Architecture (λ x i, mkImage (img_ID i) (img_Name i) (img_Description i)
     (img_OS i) (img_OSVersion i) x (img_Type i) (img_SizeBytes i) (img_Status i) (img_Checksum i)
     (img_SourceURL i) (img_Tags i) (img_CreatedAt i) (img_UpdatedAt i)) into_string);
  ("type", field img_Type (λ x i, mkImage (img_ID i) (img_Name i) (img_Description i) (img_OS i)
     (img_OSVersion i) (img_Architecture i) x (img_SizeBytes i) (img_Status i) (img_Checksum i)
     (img_SourceURL i) (img_Tags i) (img_CreatedAt i) (img_UpdatedAt i)) into_string);
  ("size_bytes", field img_SizeBytes (λ x i, mkImage (img_ID i) (img_Name i) (img_Description i) (img_OS i)
     (img_OSVersion i) (img_Architecture i) (img_Type i) x (img_Status i) (img_Checksum i)
     (img_SourceURL i) (img_Tags i) (img_CreatedAt i) (img_UpdatedAt i)) into_int64);
  ("status", field img_Status (λ x i, mkImage (img_ID i) (img_Name i) (img_Description i) (img_OS i)
     (img_OSVersion i) (img_Architecture i) (img_Type i) (img_SizeBytes i) x (img_Checksum i)
     (img_SourceURL i) (img_Tags i) (img_CreatedAt i) (img_UpdatedAt i)) (into_enum ImageStatus_names));
  ("checksum", field img_Checksum (λ x i, mkImage (img_ID i) (img_Name i) (img_Description i) (img_OS i)
     (img_OSVersion i) (img_Architecture i) (img_Type i) (img_SizeBytes i) (img_Status i) x
     (img_SourceURL i) (img_Tags i) (img_CreatedAt i) (img_UpdatedAt i)) into_string);
  ("source_url", field img_SourceURL (λ x i, mkImage (img_ID i) (img_Name i) (img_Description i) (img_OS i)
     (img_OSVersion i) (img_Architecture i) (img_Type i) (img_SizeBytes i) (img_Status i) (img_Checksum i)
     x (img_Tags i) (img_CreatedAt i) (img_UpdatedAt i)) into_string);
  ("tags", field img_Tags (λ x i, mkImage (img_ID i) (img_Name i) (img_Description i) (img_OS i)
     (img_OSVersion i) (img_Architecture i) (img_Type i) (img_SizeBytes i) (img_Status i) (img_Checksum i)
     (img_SourceURL i) x (img_CreatedAt i) (img_UpdatedAt i)) into_tags)
].

Definition Image_shown (i : Image) : Image := mkImage (img_ID i) (img_Name i) (img_Description i)
  (img_OS i) (img_OSVersion i) (img_Architecture i) (img_Type i) (img_SizeBytes i) (img_Status i)
  (img_Checksum i) (img_SourceURL i) (present_tags (img_Tags i)) 0 0.

Definition Image_fits (i : Image) : Prop := in_int64 (img_SizeBytes i).

Definition json_of_Official (o : OfficialImage) : json := JObj (
  must "name" (JStr (oi_Name o)) ++ must "os" (JStr (oi_OS o)) ++
  must "os_version" (JStr (oi_OSVersion o)) ++ must "architecture" (JStr (oi_Architecture o)) ++
  must "url" (JStr (oi_URL o)) ++ omit_str "checksum" (oi_Checksum o) ++
  must "size_bytes" (JNum (oi_SizeBytes o)) ++ must "description" (JStr (oi_Description o)) ++ []).

Definition Official_json_zero : OfficialImage := mkOfficial "" "" "" "" "" "" 0 "".

Definition Official_json_fields : fields OfficialImage := [
  ("name", field oi_Name (λ x o, mkOfficial x (oi_OS o) (oi_OSVersion o) (oi_Architecture o) (oi_URL o)
     (oi_Checksum o) (oi_SizeBytes o) (oi_Description o)) into_string);
  ("os", field oi_OS (λ x o, mkOfficial (oi_Name o) x (oi_OSVersion o) (oi_Architecture o) (oi_URL o)
     (oi_Checksum o) (oi_SizeBytes o) (oi_Description o)) into_string);
  ("os_version", field oi_OSVersion (λ x o, mkOfficial (oi_Name o) (oi_OS o) x (oi_Architecture o)
     (oi_URL o) (oi_Checksum o) (oi_SizeBytes o) (oi_Description o)) into_string);
  ("architecture", field oi_Architecture (λ x o, mkOfficial (oi_Name o) (oi_OS o) (oi_OSVersion o) x
     (oi_URL o) (oi_Checksum o) (oi_SizeBytes o) (oi_Description o)) into_string);
  ("url", field oi_URL (λ x o, mkOfficial (oi_Name o) (oi_OS o) (oi_OSVersion o) (oi_Architecture o) x
     (oi_Checksum o) (oi_SizeBytes o) (oi_Description o)) into_string);
  ("checksum", field oi_Checksum (λ x o, mkOfficial (oi_Name o) (oi_OS o) (oi_OSVersion o)
     (oi_Architecture o) (oi_URL o) x (oi_SizeBytes o) (oi_Description o)) into_string);
  ("size_bytes", field oi_SizeBytes (λ x o, mkOfficial (oi_Name o) (oi_OS o) (oi_OSVersion o)
     (oi_Architecture o) (oi_URL o) (oi_Checksum o) x (oi_Description o)) into_int64);
  ("description", field oi_Description (λ x o, mkOfficial (oi_Name o) (oi_OS o) (oi_OSVersion o)
     (oi_Architecture o) (oi_URL o) (oi_Checksum o) (oi_SizeBytes o) x) into_string)
].

Definition Official_shown (o : OfficialImage) : OfficialImage := o.

Definition Official_fits (o : OfficialImage) : Prop := in_int64 (oi_SizeBytes o).

Definition json_of_Flavor (f : Flavor) : json := JObj (
  must "id" (JStr (fl_ID f)) ++ must "name" (JStr (fl_Name f)) ++
  must "description" (JStr (fl_Description f)) ++ must "vcpus" (JNum (fl_VCpus f)) ++
  must "memory_mb" (JNum (fl_MemoryMB f)) ++ must "disk_gb" (JNum (fl_DiskGB f)) ++
  must "created_at" (time_json (fl_CreatedAt f)) ++ must "updated_at" (time_json (fl_UpdatedAt f)) ++ []).

Definition Flavor_json_zero : Flavor := mkFlavor "" "" "" 0 0 0 0 0.

Definition Flavor_json_fields : fields Flavor := [
  ("id", field fl_ID (λ x f, mkFlavor x (fl_Name f) (fl_Description f) (fl_VCpus f) (fl_MemoryMB f)
     (fl_DiskGB f) (fl_CreatedAt f) (fl_UpdatedAt f)) into_string);
  ("name", field fl_Name (λ x f, mkFlavor (fl_ID f) x (fl_Description f) (fl_VCpus f) (fl_MemoryMB f)
     (fl_DiskGB f) (fl_CreatedAt f) (fl_UpdatedAt f)) into_string);
  ("description", field fl_Description (λ x f, mkFlavor (fl_ID f) (fl_Name f) x (fl_VCpus f)
     (fl_MemoryMB f) (fl_DiskGB f) (fl_CreatedAt f) (fl_UpdatedAt f)) into_string);
  ("vcpus", field fl_VCpus (λ x f, mkFlavor (fl_ID f) (fl_Name f) (fl_Description f) x (fl_MemoryMB f)
     (fl_DiskGB f) (fl_CreatedAt f) (fl_UpdatedAt f)) into_int32);
  ("memory_mb", field fl_MemoryMB (λ x f, mkFlavor (fl_ID f) (fl_Name f) (fl_Description f) (fl_VCpus f) x
     (fl_DiskGB f) (fl_CreatedAt f) (fl_UpdatedAt f)) into_int64);
  ("disk_gb", field fl_DiskGB (λ x f, mkFlavor (fl_ID f) (fl_Name f) (fl_Description f) (fl_VCpus f)
     (fl_MemoryMB f) x (fl_CreatedAt f) (fl_UpdatedAt f)) into_int64)
].

Definition Flavor_shown (f : Flavor) : Flavor := mkFlavor (fl_ID f) (fl_Name f) (fl_Description f)
  (fl_VCpus f) (fl_MemoryMB f) (fl_DiskGB f) 0 0.

Definition Flavor_fits (f : Flavor) : Prop := in_int32 (fl_VCpus f) ∧ in_int64 (fl_MemoryMB f) ∧ in_int64
  (fl_DiskGB f).

Definition json_of_Keypair (k : Keypair) : json := JObj (
  must "id" (JStr (kp_ID k)) ++ must "name" (JStr (kp_Name k)) ++
  must "public_key" (JStr (kp_PublicKey k)) ++ must "fingerprint" (JStr (kp_Fingerprint k)) ++
  must "organization_id" (JStr (kp_OrganizationID k)) ++ must "created_at" (time_json (kp_CreatedAt k)) ++ []).

Definition Keypair_json_zero : Keypair := mkKeypair "" "" "" "" "" 0.

Definition Keypair_json_fields : fields Keypair := [
  ("id", field kp_ID (λ x k, mkKeypair x (kp_Name k) (kp_PublicKey k) (kp_Fingerprint k)
     (kp_OrganizationID k) (kp_CreatedAt k)) into_string);
  ("name", field kp_Name (λ x k, mkKeypair (kp_ID k) x (kp_PublicKey k) (kp_Fingerprint k)
     (kp_OrganizationID k) (kp_CreatedAt k)) into_string);
  ("public_key", field kp_PublicKey (λ x k, mkKeypair (kp_ID k) (kp_Name k) x (kp_Fingerprint k)
     (kp_OrganizationID k) (kp_CreatedAt k)) into_string);
  ("fingerprint", field kp_Fingerprint (λ x k, mkKeypair (kp_ID k) (kp_Name k) (kp_PublicKey k) x
     (kp_OrganizationID k) (kp_CreatedAt k)) into_string);
  ("organization_id", field kp_OrganizationID (λ x k, mkKeypair (kp_ID k) (kp_Name k) (kp_PublicKey k)
     (kp_Fingerprint k) x (kp_CreatedAt k)) into_string)
].

Definition Keypair_shown (k : Keypair) : Keypair := mkKeypair (kp_ID k) (kp_Name k) (kp_PublicKey k)
  (kp_Fingerprint k) (kp_OrganizationID k) 0.

Definition Keypair_fits (k : Keypair) : Prop := True.

Definition json_of_Backup (b : Backup) : json := JObj (
  must "id" (JStr (bk_ID b)) ++ must "name" (JStr (bk_Name b)) ++ must "vm_id" (JStr (bk_VMID b)) ++
  must "organization_id" (JStr (bk_OrganizationID b)) ++
  must "status" (JStr (string_of_BackupStatus (bk_Status b))) ++
  must "size_bytes" (JNum (bk_SizeBytes b)) ++ must "type" (JStr (bk_Type b)) ++
  must "storage_pool" (JStr (bk_StoragePool b)) ++ must "created_at" (time_json (bk_CreatedAt b)) ++
  omit_time "completed_at" (bk_CompletedAt b) ++ []).

Definition Backup_json_zero : Backup := mkBackup "" "" "" "" BackupStatusCreating 0 "" "" 0 None.

Definition Backup_json_fields : fields Backup := [
  ("id", field bk_ID (λ x b, mkBackup x (bk_Name b) (bk_VMID b) (bk_OrganizationID b) (bk_Status b)
     (bk_SizeBytes b) (bk_Type b) (bk_StoragePool b) (bk_CreatedAt b) (bk_CompletedAt b)) into_string);
  ("name", field bk_Name (λ x b, mkBackup (bk_ID b) x (bk_VMID b) (bk_OrganizationID b) (bk_Status b)
     (bk_SizeBytes b) (bk_Type b) (bk_StoragePool b) (bk_CreatedAt b) (bk_CompletedAt b)) into_string);
  ("vm_id", field bk_VMID (λ x b, mkBackup (bk_ID b) (bk_Name b) x (bk_OrganizationID b) (bk_Status b)
     (bk_SizeBytes b) (bk_Type b) (bk_StoragePool b) (bk_CreatedAt b) (bk_CompletedAt b)) into_string);
  ("organization_id", field bk_OrganizationID (λ x b, mkBackup (bk_ID b) (bk_Name b) (bk_VMID b) x
     (bk_Status b) (bk_SizeBytes b) (bk_Type b) (bk_StoragePool b) (bk_CreatedAt b) (bk_CompletedAt b))
     into_string);
  ("status", field bk_Status (λ x b, mkBackup (bk_ID b) (bk_Name b) (bk_VMID b) (bk_OrganizationID b) x
     (bk_SizeBytes b) (bk_Type b) (bk_StoragePool b) (bk_CreatedAt b) (bk_CompletedAt b))
     (into_enum BackupStatus_names));
  ("size_bytes", field bk_SizeBytes (λ x b, mkBackup (bk_ID b) (bk_Name b) (bk_VMID b)
     (bk_OrganizationID b) (bk_Status b) x (bk_Type b) (bk_StoragePool b) (bk_CreatedAt b)
     (bk_CompletedAt b)) into_int64);
  ("type", field bk_Type (λ x b, mkBackup (bk_ID b) (bk_Name b) (bk_VMID b) (bk_OrganizationID b)
     (bk_Status b) (bk_SizeBytes b) x (bk_StoragePool b) (bk_CreatedAt b) (bk_CompletedAt b)) into_string);
  ("storage_pool", field bk_StoragePool (λ x b, mkBackup (bk_ID b) (bk_Name b) (bk_VMID b)
     (bk_OrganizationID b) (bk_Status b) (bk_SizeBytes b) (bk_Type b) x (bk_CreatedAt b)
     (bk_CompletedAt b)) into_string)
].

Definition Backup_shown (b : Backup) : Backup := mkBackup (bk_ID b) (bk_Name b) (bk_VMID b)
  (bk_OrganizationID b) (bk_Status b) (bk_SizeBytes b) (bk_Type b) (bk_StoragePool b) 0 None.

Definition Backup_fits (b : Backup) : Prop := in_int64 (bk_SizeBytes b).

(** * Answers *)

(** [{"items": l, "total": n}]; a slice that was never appended to is nil. *)
Definition items_json (l : list json) : json := match l with [] => JNull | _ => JArr l end.
Definition list_json (l : list json) (total : Z) : json := JObj [("items", items_json l); ("total", JNum total)].

Definition string_of_Status (s : Status) : string := match s with StatusUp => "up" | StatusDown => "down" end.
Definition json_of_Check (c : Check) : json := JObj [
  ("status", JStr (string_of_Status (ck_Status c)));
  ("checks", match ck_Checks c with
             | None => JNull
             | Some m => JObj ((λ kv, (kv.1, JStr (string_of_Status kv.2)))
                               <$> sort_by (λ a b, string_lt a.1 b.1) (map_to_list m))
             end)].

Definition render (v : Value) : json :=
  match v with
  | VVM vm => json_of_VM vm
  | VVMs l n => list_json (json_of_VM <$> l) n
  | VSnapshot s => json_of_Snapshot s
  | VNode n => json_of_Node n
  | VNodes l n => list_json (json_of_Node <$> l) n
  | VImage i => json_of_Image i
  | VImages l n => list_json (json_of_Image <$> l) n
  | VOfficial l n => list_json (json_of_Official <$> l) n
  | VFlavor f => json_of_Flavor f
  | VFlavors l n => list_json (json_of_Flavor <$> l) n
  | VKeypair k => json_of_Keypair k
  | VKeypairs l n => list_json (json_of_Keypair <$> l) n
  | VBackup b => json_of_Backup b
  | VBackups l n => list_json (json_of_Backup <$> l) n
  | VCheck c => json_of_Check c
  end.

(** [json.NewEncoder(w).Encode(v)] ends the text with a newline. *)
Definition newline : string := String (Ascii.ascii_of_N 10) "".
Definition Encode (v : json) : string := Marshal v +:+ newline.

Definition body_text (b : Body Value) : string :=
  match b with
  | BJson v => Encode (render v)
  | BError msg => Encode (JObj [("error", JStr msg)])
  | BText s => s
  | BEmpty => ""
  end.
End answers.
