(* ===== verification/Answers.v ===== *)
(** What a client can make of the control plane's answers: every struct it sends
    is read back from the text of the answer, up to times and to the difference
    between nil and empty; and the machine that [GET /vms/{id}] sends is the one
    that is stored.  With this the gateway's stream of a machine's state is
    compared with the control plane's own, from the database to the last
    message. *)
From stdpp Require Import base gmap strings list numbers.
From S2P Require Import Prelude.
From S2P Require Import GoStd.
From S2P Require Import GoNet.
From S2P Require Import GoJson.
From S2P Require Import Domain.
From S2P Require Import Interfaces.
From S2P Require Import ControlPlane.
From S2P Require Import VMService.
From S2P Require Import Resources.
From S2P Require Import Host.
From S2P Require Import Http.
From S2P Require Import Requests.
From S2P Require Import Streams.
From S2P Require Import Handlers.
From S2P Require Import HandlerProofs.
From S2P Require Import VMState.
From S2P Require Import AnswerFields.
From stdpp Require Import options.

(** * Structs that are written and read

    [shown] is what a client can see of a value, [fits] that its numbers are in
    the range of their types. *)
Class JsonCodec (A : Type) := {
  to_json : A → json;
  json_fields : fields A;
  json_zero : A;
  shown : A → A;
  fits : A → Prop;
}.
Class JsonLaws (A : Type) `{JsonCodec A} : Prop := {
  json_read : ∀ a, fits a → into_struct json_fields (to_json a) json_zero = Some (shown a);
  json_object : ∀ a, ∃ kv kvs, to_json a = JObj (kv :: kvs);
  json_depth : ∀ a, nested 4 (to_json a);
}.

(** * Members *)
Section members.
Context {A : Type} (fs : fields A).
Implicit Types (a : A).

Lemma read_must k f v a' rest a : find_field fs k = Some f → f v a = Some a' →
  into_members fs (must k v ++ rest) a = into_members fs rest a'.
Proof. apply read_member. Qed.
Lemma read_skip k v rest a : find_field fs k = None → into_members fs (must k v ++ rest) a = into_members fs rest a.
Proof. intros E. simpl. by rewrite E. Qed.
Lemma skip_time time_text k o rest a : find_field fs k = None →
  into_members fs (omit_time time_text k o ++ rest) a = into_members fs rest a.
Proof. intros E. destruct o; [|done]. simpl. by rewrite E. Qed.
Lemma read_ptr k get set o rest a :
  find_field fs k = Some (field get set (into_ptr into_string "")) → set None a = a →
  into_members fs (omit_ptr k o ++ rest) a = into_members fs rest (set o a).
Proof. intros Hf Hz. destruct o; simpl; [by rewrite Hf|by rewrite Hz]. Qed.
End members.

(** ** Lists of strings and maps *)
Lemma strings_read l : into_slice into_string "" (JArr (JStr <$> l)) [] = Some l.
Proof. unfold into_slice. rewrite (into_slice_map _ _ _ (λ s, s)) by done. by rewrite list_fmap_id. Qed.

Lemma entries_read l m : NoDup l.*1 →
  into_entries ((λ kv : string * string, (kv.1, JStr kv.2)) <$> l) m = Some (list_to_map l ∪ m).
Proof.
  revert m. induction l as [|[k v] l IH]; intros m Hl; csimpl; [by rewrite (left_id_L ∅ (∪))|].
  apply list.NoDup_cons in Hl as [Hk Hl]. rewrite IH by done. f_equal.
  rewrite <-insert_union_r by (by apply not_elem_of_list_to_map_1). by rewrite insert_union_l.
Qed.

Lemma map_entries_perm m : map_entries m ≡ₚ map_to_list m.
Proof. apply sort_by_perm. Qed.
Lemma map_entries_nodup m : NoDup (map_entries m).*1.
Proof. rewrite map_entries_perm. apply NoDup_fst_map_to_list. Qed.
Lemma map_entries_map m : list_to_map (map_entries m) = m.
Proof.
  rewrite (list_to_map_proper _ (map_to_list m)); [apply list_to_map_to_list|apply map_entries_nodup|apply map_entries_perm].
Qed.
Lemma map_entries_nil m : map_entries m = [] ↔ m = ∅.
Proof.
  split; [|by intros ->]. intros E. pose proof (map_entries_perm m) as Hp. rewrite E in Hp.
  by apply map_to_list_empty_iff, Permutation_nil_r.
Qed.

(** A list of structs. *)
Lemma structs_read {A} (fs : fields A) zero (g : A → json) (h : A → A) l :
  (∀ x, x ∈ l → into_struct fs (g x) zero = Some (h x)) → into_slice (into_struct fs) zero (JArr (g <$> l)) [] = Some (h <$> l).
Proof. intros Hl. unfold into_slice. by apply into_slice_map. Qed.

Section members2.
Context {A : Type} (fs : fields A).
Implicit Types (a : A).

Lemma read_tags k get set o rest a :
  find_field fs k = Some (field get set into_tags) → get a = None → set None a = a →
  into_members fs (omit_tags k o ++ rest) a = into_members fs rest (set (present_tags o) a).
Proof.
  intros Hf Hg Hz. destruct o as [[|s l]|]; [by simpl; rewrite Hz| |by simpl; rewrite Hz].
  apply (read_member fs k (field get set into_tags) (JArr (JStr <$> s :: l))); [done|]. unfold field, into_tags. rewrite Hg. cbn [default].
  by rewrite (strings_read (s :: l)).
Qed.

Lemma read_map k get set o rest a :
  find_field fs k = Some (field get set into_labels) → get a = None → set None a = a →
  into_members fs (omit_map k o ++ rest) a = into_members fs rest (set (present_map o) a).
Proof.
  intros Hf Hg Hz. unfold omit_map. destruct (map_entries (default ∅ o)) as [|e l] eqn:E.
  - apply map_entries_nil in E. assert (present_map o = None) as ->; [|by rewrite Hz].
    destruct o as [m|]; simpl in *; [|done]. by rewrite decide_True.
  - destruct o as [m|]; [|done]. simpl in E. apply (read_member fs k (field get set into_labels)); [done|].
    unfold field, into_labels, into_map. rewrite Hg, <-E. cbn [default].
    rewrite entries_read, map_entries_map, (right_id_L ∅ (∪)) by apply map_entries_nodup.
    simpl. rewrite decide_False; [done|]. intros ->. by rewrite (proj2 (map_entries_nil ∅)) in E.
Qed.

Lemma read_strings k get set l rest a :
  find_field fs k = Some (field get set (into_slice into_string "")) → get a = [] → set [] a = a →
  into_members fs (omit_arr k (JStr <$> l) ++ rest) a = into_members fs rest (set l a).
Proof.
  intros Hf Hg Hz. destruct l as [|x l]; [by rewrite Hz|]. apply (read_member fs k (field get set (into_slice into_string "")) (JArr (JStr <$> x :: l))); [done|].
  unfold field. by rewrite Hg, (strings_read (x :: l)).
Qed.

Lemma read_structs {B} (gs : fields B) zero (g : B → json) k get set l rest a :
  find_field fs k = Some (field get set (into_slice (into_struct gs) zero)) → get a = [] → set [] a = a →
  (∀ x, x ∈ l → into_struct gs (g x) zero = Some x) →
  into_members fs (omit_arr k (g <$> l) ++ rest) a = into_members fs rest (set l a).
Proof.
  intros Hf Hg Hz Hl. destruct l as [|x l]; [by rewrite Hz|].
  apply (read_member fs k (field get set (into_slice (into_struct gs) zero)) (JArr (g <$> x :: l))); [done|].
  unfold field. rewrite Hg, (structs_read gs zero g (λ x, x)) by done. by rewrite list_fmap_id.
Qed.
End members2.

Lemma enum_read {A} (names : list (string * A)) s x old : List.find (λ kv, String.eqb kv.1 s) names = Some (s, x) →
  into_enum names (JStr s) old = Some x.
Proof. intros E. simpl. by rewrite E. Qed.

(** One member after the other; what has been read so far is kept as a record. *)
Ltac tidy := match goal with |- into_members _ _ ?a = _ => let a' := eval cbn in a in change a with a' end.
Ltac read_one :=
  first
  [ erewrite read_must; [|reflexivity|cbn; reflexivity]
  | erewrite read_must; [|reflexivity|in_range]
  | rewrite read_skip by reflexivity
  | rewrite skip_time by reflexivity
  | erewrite read_omit_str; [|reflexivity|cbn; reflexivity|by intros ->]
  | erewrite read_ptr by reflexivity; tidy
  | erewrite read_tags by reflexivity; tidy
  | erewrite read_map by reflexivity; tidy
  | erewrite read_strings by reflexivity; tidy ].

Lemma Disk_read d : Disk_fits d → into_struct Disk_json_fields (json_of_Disk d) Disk_json_zero = Some d.
Proof.
  destruct d as [id name size ty pool img boot ord]. intros [H1 H2]. simpl in H1, H2.
  unfold json_of_Disk. cbn [into_struct disk_ID disk_Name disk_SizeBytes disk_Type disk_StoragePool disk_ImageID disk_Boot disk_Order].
  unfold Disk_json_zero. repeat read_one. done.
Qed.

Lemma NIC_read n : into_struct NIC_json_fields (json_of_NIC n) NIC_json_zero = Some n.
Proof.
  destruct n as [id name net mac v4 v6 prim]. unfold json_of_NIC, NIC_json_zero.
  cbn [into_struct nic_ID nic_Name nic_NetworkID nic_MACAddress nic_IPv4Addresses nic_IPv6Addresses nic_IsPrimary].
  repeat read_one. done.
Qed.

Section timed.
Context (time_text : Z → string).

Lemma VM_read v : VM_fits v → into_struct VM_json_fields (json_of_VM time_text v) VM_json_zero = Some (VM_shown v).
Proof.
  destruct v as [id name node org proj st vc mem cpu mt sb tpm hp ci ssh tags meta labels disks nics ca ua].
  intros (H1 & H2 & H3). simpl in H1, H2, H3. unfold json_of_VM, VM_json_zero, VM_shown.
  cbn [into_struct vm_ID vm_Name vm_NodeID vm_OrganizationID vm_ProjectID vm_Status vm_VCpus vm_MemoryMB vm_CPUModel
    vm_MachineType vm_EnableSecureBoot vm_EnableTPM vm_Hugepages vm_CloudInit vm_SSHKeyID vm_Tags vm_Metadata vm_Labels
    vm_Disks vm_NetworkInterfaces vm_CreatedAt vm_UpdatedAt].
  do 5 read_one. erewrite read_must; [|reflexivity|by destruct st]. do 12 read_one.
  erewrite read_structs; [|reflexivity|reflexivity|reflexivity|].
  2:{ intros d Hd. apply Disk_read. by eapply Forall_forall, list_elem_of_In. }
  tidy. erewrite read_structs; [|reflexivity|reflexivity|reflexivity|intros n _; apply NIC_read].
  tidy. do 2 read_one. done.
Qed.
Lemma Snapshot_read s : Snapshot_fits s → into_struct Snapshot_json_fields (json_of_Snapshot time_text s) Snapshot_json_zero = Some (Snapshot_shown s).
Proof.
  destruct s as [x0 x1 x2 x3 x4 x5 x6]. intros H0. simpl in H0. unfold json_of_Snapshot, Snapshot_json_zero, Snapshot_shown.
  cbn [into_struct snap_ID snap_VMID snap_Name snap_Description snap_SizeBytes snap_Status snap_CreatedAt].
  repeat read_one. done.
Qed.

Lemma Image_read i : Image_fits i → into_struct Image_json_fields (json_of_Image time_text i) Image_json_zero = Some (Image_shown i).
Proof.
  destruct i as [x0 x1 x2 x3 x4 x5 x6 x7 x8 x9 x10 x11 x12 x13]. intros H0. simpl in H0. unfold json_of_Image, Image_json_zero, Image_shown.
  cbn [into_struct img_ID img_Name img_Description img_OS img_OSVersion img_Architecture img_Type img_SizeBytes img_Status img_Checksum img_SourceURL img_Tags img_CreatedAt img_UpdatedAt].
  do 8 read_one. erewrite read_must; [|reflexivity|by destruct x8]. repeat read_one. done.
Qed.

Lemma Flavor_read f : Flavor_fits f → into_struct Flavor_json_fields (json_of_Flavor time_text f) Flavor_json_zero = Some (Flavor_shown f).
Proof.
  destruct f as [x0 x1 x2 x3 x4 x5 x6 x7]. intros (H0 & H1 & H2). simpl in H0, H1, H2. unfold json_of_Flavor, Flavor_json_zero, Flavor_shown.
  cbn [into_struct fl_ID fl_Name fl_Description fl_VCpus fl_MemoryMB fl_DiskGB fl_CreatedAt fl_UpdatedAt].
  repeat read_one. done.
Qed.

Lemma Keypair_read k : Keypair_fits k → into_struct Keypair_json_fields (json_of_Keypair time_text k) Keypair_json_zero = Some (Keypair_shown k).
Proof.
  destruct k as [x0 x1 x2 x3 x4 x5]. intros _. unfold json_of_Keypair, Keypair_json_zero, Keypair_shown.
  cbn [into_struct kp_ID kp_Name kp_PublicKey kp_Fingerprint kp_OrganizationID kp_CreatedAt].
  repeat read_one. done.
Qed.

Lemma Backup_read b : Backup_fits b → into_struct Backup_json_fields (json_of_Backup time_text b) Backup_json_zero = Some (Backup_shown b).
Proof.
  destruct b as [x0 x1 x2 x3 x4 x5 x6 x7 x8 x9]. intros H0. simpl in H0. unfold json_of_Backup, Backup_json_zero, Backup_shown.
  cbn [into_struct bk_ID bk_Name bk_VMID bk_OrganizationID bk_Status bk_SizeBytes bk_Type bk_StoragePool bk_CreatedAt bk_CompletedAt].
  do 4 read_one. erewrite read_must; [|reflexivity|by destruct x4]. repeat read_one. done.
Qed.

Lemma Official_read o : Official_fits o → into_struct Official_json_fields (json_of_Official o) Official_json_zero = Some (Official_shown o).
Proof.
  destruct o as [x0 x1 x2 x3 x4 x5 x6 x7]. intros H0. simpl in H0. unfold json_of_Official, Official_json_zero, Official_shown.
  cbn [into_struct oi_Name oi_OS oi_OSVersion oi_Architecture oi_URL oi_Checksum oi_SizeBytes oi_Description].
  repeat read_one. done.
Qed.

Lemma Node_read n : Node_fits n → into_struct Node_json_fields (json_of_Node time_text n) Node_json_zero = Some (Node_shown n).
Proof.
  destruct n as [id name addr port st [r1 r2 r3 r4 r5 r6 r7 r8] labels meta hb ca ua].
  intros (H0 & H1 & H2 & H3 & H4 & H5 & H6 & H7 & H8). simpl in H0, H1, H2, H3, H4, H5, H6, H7, H8.
  unfold json_of_Node, Node_json_zero, Node_shown, resources_zero.
  cbn [into_struct node_ID node_Name node_Address node_Port node_Status node_Resources node_Labels node_Metadata
    node_LastHeartbeat node_CreatedAt node_UpdatedAt res_TotalCPUs res_UsedCPUs res_TotalMemoryMB res_UsedMemoryMB
    res_TotalStorageBytes res_UsedStorageBytes res_TotalGPUs res_UsedGPUs].
  do 4 read_one. erewrite read_must; [|reflexivity|by destruct st]. repeat read_one. done.
Qed.
End timed.

(** * Depth *)
Lemma nested_obj d kvs : Forall (λ kv, nested d kv.2) kvs → nested (S d) (JObj kvs).
Proof. done. Qed.
Lemma nested_arr d l : Forall (nested d) l → nested (S d) (JArr l).
Proof. done. Qed.
Lemma Forall_must (Q : string * json → Prop) k v : Q (k, v) → Forall Q (must k v).
Proof. by repeat constructor. Qed.
Lemma Forall_omit_ptr (Q : string * json → Prop) k o : (∀ s, Q (k, JStr s)) → Forall Q (omit_ptr k o).
Proof. intros HQ. destruct o; by repeat constructor. Qed.
Lemma Forall_omit_time (Q : string * json → Prop) tt k o : (∀ s, Q (k, JStr s)) → Forall Q (omit_time tt k o).
Proof. intros HQ. destruct o; repeat constructor. apply HQ. Qed.
Lemma strings_nested d (l : list string) : nested (S d) (JArr (JStr <$> l)).
Proof. cbn [nested]. apply Forall_fmap, Forall_forall. intros s _. by destruct d. Qed.
Lemma map_nested d (l : list (string * string)) : nested (S d) (JObj ((λ kv, (kv.1, JStr kv.2)) <$> l)).
Proof. cbn [nested]. apply Forall_fmap, Forall_forall. intros s _. by destruct d. Qed.
Lemma Forall_omit_tags (Q : string * json → Prop) k o : (∀ l : list string, Q (k, JArr (JStr <$> l))) → Forall Q (omit_tags k o).
Proof. intros HQ. unfold omit_tags. destruct (default [] o) as [|s l]; [constructor|]. repeat constructor. apply (HQ (s :: l)). Qed.
Lemma Forall_omit_map (Q : string * json → Prop) k o :
  (∀ l : list (string * string), Q (k, JObj ((λ kv, (kv.1, JStr kv.2)) <$> l))) → Forall Q (omit_map k o).
Proof. intros HQ. unfold omit_map. destruct (map_entries _) as [|e l]; [constructor|]. repeat constructor. apply (HQ (e :: l)). Qed.

Ltac depth :=
  repeat match goal with
    | |- Forall _ (_ ++ _) => apply Forall_app; split
    | |- Forall _ [] => constructor
    | |- Forall _ (must _ _) => apply Forall_must; exact I
    | |- Forall _ (omit_str _ _) => apply Forall_omit_str; intros ?; exact I
    | |- Forall _ (omit_ptr _ _) => apply Forall_omit_ptr; intros ?; exact I
    | |- Forall _ (omit_time _ _ _) => apply Forall_omit_time; intros ?; exact I
    | |- Forall _ (omit_tags _ _) => apply Forall_omit_tags; intros ?; apply strings_nested
    | |- Forall _ (omit_map _ _) => apply Forall_omit_map; intros ?; apply map_nested
    end.

Lemma Disk_nested d : nested 1 (json_of_Disk d).
Proof. apply nested_obj. depth. Qed.
Lemma NIC_nested n : nested 2 (json_of_NIC n).
Proof. apply nested_obj. depth; apply Forall_omit_arr; intros _; apply strings_nested. Qed.

(** * The instances *)
Class TimeText := time_text : Z → string.

Section instances.
Context `{TimeText}.

#[export] Instance VM_codec : JsonCodec VirtualMachine := {|
  to_json := json_of_VM time_text; json_fields := VM_json_fields; json_zero := VM_json_zero; shown := VM_shown; fits := VM_fits |}.
#[export] Instance VM_laws : JsonLaws VirtualMachine.
Proof.
  split; [apply VM_read|by intros; eexists _, _|]. intros v. apply nested_obj. depth.
  - apply Forall_omit_arr. intros _. apply nested_arr, Forall_fmap, Forall_forall. intros d _.
    apply (nested_mono 1); [apply Disk_nested|lia].
  - apply Forall_omit_arr. intros _. apply nested_arr, Forall_fmap, Forall_forall. intros n _. apply NIC_nested.
Qed.

#[export] Instance Snapshot_codec : JsonCodec Snapshot := {|
  to_json := json_of_Snapshot time_text; json_fields := Snapshot_json_fields; json_zero := Snapshot_json_zero; shown := Snapshot_shown; fits := Snapshot_fits |}.
#[export] Instance Snapshot_laws : JsonLaws Snapshot.
Proof. split; [apply Snapshot_read|by intros; eexists _, _|]. intros x. apply nested_obj. depth. Qed.

#[export] Instance Node_codec : JsonCodec Node := {|
  to_json := json_of_Node time_text; json_fields := Node_json_fields; json_zero := Node_json_zero; shown := Node_shown; fits := Node_fits |}.
#[export] Instance Node_laws : JsonLaws Node.
Proof. split; [apply Node_read|by intros; eexists _, _|]. intros x. apply nested_obj. depth. Qed.

#[export] Instance Image_codec : JsonCodec Image := {|
  to_json := json_of_Image time_text; json_fields := Image_json_fields; json_zero := Image_json_zero; shown := Image_shown; fits := Image_fits |}.
#[export] Instance Image_laws : JsonLaws Image.
Proof. split; [apply Image_read|by intros; eexists _, _|]. intros x. apply nested_obj. depth. Qed.

#[export] Instance Official_codec : JsonCodec OfficialImage := {|
  to_json := json_of_Official; json_fields := Official_json_fields; json_zero := Official_json_zero; shown := Official_shown; fits := Official_fits |}.
#[export] Instance Official_laws : JsonLaws OfficialImage.
Proof. split; [apply Official_read|by intros; eexists _, _|]. intros x. apply nested_obj. depth. Qed.

#[export] Instance Flavor_codec : JsonCodec Flavor := {|
  to_json := json_of_Flavor time_text; json_fields := Flavor_json_fields; json_zero := Flavor_json_zero; shown := Flavor_shown; fits := Flavor_fits |}.
#[export] Instance Flavor_laws : JsonLaws Flavor.
Proof. split; [apply Flavor_read|by intros; eexists _, _|]. intros x. apply nested_obj. depth. Qed.

#[export] Instance Keypair_codec : JsonCodec Keypair := {|
  to_json := json_of_Keypair time_text; json_fields := Keypair_json_fields; json_zero := Keypair_json_zero; shown := Keypair_shown; fits := Keypair_fits |}.
#[export] Instance Keypair_laws : JsonLaws Keypair.
Proof. split; [apply Keypair_read|by intros; eexists _, _|]. intros x. apply nested_obj. depth. Qed.

#[export] Instance Backup_codec : JsonCodec Backup := {|
  to_json := json_of_Backup time_text; json_fields := Backup_json_fields; json_zero := Backup_json_zero; shown := Backup_shown; fits := Backup_fits |}.
#[export] Instance Backup_laws : JsonLaws Backup.
Proof. split; [apply Backup_read|by intros; eexists _, _|]. intros x. apply nested_obj. depth. Qed.
End instances.

(** * Text *)
Lemma Unmarshal_Encode kvs : kvs ≠ [] → nested 10 (JObj kvs) → Unmarshal (Encode (JObj kvs)) = Some (JObj kvs).
Proof.
  intros Hne Hn. destruct kvs as [|kv kvs]; [done|]. unfold Unmarshal, Encode, Marshal, dec_top, lit, newline.
  rewrite list_ascii_app, String.list_ascii_of_string_of_list_ascii.
  assert (Hd : ∀ d, 10 ≤ d → dec_value d (enc (JObj (kv :: kvs)) ++ [Ascii.ascii_of_N 10]) = Some (JObj (kv :: kvs), [Ascii.ascii_of_N 10])).
  { intros [|d] Hd; [lia|]. apply dec_value_obj. intros kv' Hkv. apply dec_value_enc, (nested_mono 9); [|lia].
    cbn [nested] in Hn. by eapply (proj1 (Forall_forall _ _) Hn), list_elem_of_In. }
  change (String.list_ascii_of_string (String (Ascii.ascii_of_N 10) "")) with [Ascii.ascii_of_N 10].
  rewrite Hd; [done|]. unfold maxNestingDepth. lia.
Qed.

(** A client: it reads the text of an answer into the struct, or into a list with
    its total. *)
Section client.
Context {A : Type} `{JsonLaws A}.

Definition decode_answer (text : string) : option A := v ← Unmarshal text; into_struct json_fields v json_zero.

Definition list_fields : fields (list A * Z) := [
  ("items", field fst (λ x p, (x, p.2)) (into_slice (into_struct json_fields) json_zero));
  ("total", field snd (λ x p, (p.1, x)) into_int64)].
Definition decode_list (text : string) : option (list A * Z) := v ← Unmarshal text; into_struct list_fields v ([], 0%Z).

Lemma struct_read_back (a : A) : fits a → decode_answer (Encode (to_json a)) = Some (shown a).
Proof using Type*.
  intros Hf. destruct (json_object a) as (kv & kvs & E). pose proof (json_depth a) as Hd. pose proof (json_read a Hf) as Hr.
  rewrite E in *. unfold decode_answer. rewrite Unmarshal_Encode; [done|done|by apply (nested_mono 4); [|lia]].
Qed.

Lemma list_read_back (l : list A) total : Forall fits l → in_int64 total →
  decode_list (Encode (list_json (to_json <$> l) total)) = Some (shown <$> l, total).
Proof using Type*.
  intros Hl Ht. unfold decode_list, list_json. rewrite Unmarshal_Encode; [|done|].
  - cbn [mbind option_bind into_struct]. erewrite (read_member _ _ _ _ (shown <$> l, 0%Z)); [|reflexivity|].
    + erewrite read_member; [|reflexivity|in_range]. reflexivity.
    + unfold field. cbn [fst]. destruct l as [|x l]; [done|].
      change (items_json (to_json <$> x :: l)) with (JArr (to_json <$> x :: l)).
      rewrite (structs_read json_fields json_zero to_json shown); [done|].
      intros y Hy. apply json_read. by eapply (proj1 (Forall_forall _ _) Hl), list_elem_of_In.
  - apply nested_obj. repeat constructor. cbn [snd]. unfold items_json. destruct l as [|x l]; [exact I|].
    apply nested_arr, Forall_fmap, Forall_forall. intros y _. apply (nested_mono 4); [apply json_depth|lia].
Qed.
End client.

(** ** Every value that is written *)
Section values.
Context `{TimeText}.

Definition value_fits (v : Value) : Prop :=
  match v with
  | VVM vm => fits vm
  | VVMs l n => Forall fits l ∧ in_int64 n
  | VSnapshot s => fits s
  | VNode n => fits n
  | VNodes l n => Forall fits l ∧ in_int64 n
  | VImage i => fits i
  | VImages l n => Forall fits l ∧ in_int64 n
  | VOfficial l n => Forall fits l ∧ in_int64 n
  | VFlavor f => fits f
  | VFlavors l n => Forall fits l ∧ in_int64 n
  | VKeypair k => fits k
  | VKeypairs l n => Forall fits l ∧ in_int64 n
  | VBackup b => fits b
  | VBackups l n => Forall fits l ∧ in_int64 n
  | VCheck _ => True
  end.

(** What a client that knows which answer it waits for gets from the text. *)
Definition client_gets (v : Value) (text : string) : Prop :=
  match v with
  | VVM vm => decode_answer text = Some (shown vm)
  | VVMs l n => decode_list text = Some (shown <$> l, n)
  | VSnapshot s => decode_answer text = Some (shown s)
  | VNode x => decode_answer text = Some (shown x)
  | VNodes l n => decode_list text = Some (shown <$> l, n)
  | VImage i => decode_answer text = Some (shown i)
  | VImages l n => decode_list text = Some (shown <$> l, n)
  | VOfficial l n => decode_list text = Some (shown <$> l, n)
  | VFlavor f => decode_answer text = Some (shown f)
  | VFlavors l n => decode_list text = Some (shown <$> l, n)
  | VKeypair k => decode_answer text = Some (shown k)
  | VKeypairs l n => decode_list text = Some (shown <$> l, n)
  | VBackup b => decode_answer text = Some (shown b)
  | VBackups l n => decode_list text = Some (shown <$> l, n)
  | VCheck c => Unmarshal text = Some (json_of_Check c)
  end.

(** C12: Whatever the control plane writes as the answer of an endpoint, a client
    that decodes the text into the struct it stands for gets the value back, up to
    times and to the difference between an empty list or map and none: machines
    with their disks and interfaces, snapshots, nodes, images, official images,
    flavors, keys, backups, and the lists of them with their totals. *)
Theorem answers_read_back v : value_fits v → client_gets v (body_text time_text (BJson v)).
Proof using Type.
  intros Hf. destruct v as [vm|l n|s|x|l n|i|l n|l n|f|l n|k|l n|b|l n|c]; cbn [value_fits client_gets body_text render] in *;
    try exact (struct_read_back _ Hf); try exact (list_read_back l n (proj1 Hf) (proj2 Hf)).
  unfold json_of_Check. rewrite Unmarshal_Encode; [done|done|]. apply nested_obj. repeat constructor. cbn [snd].
  destruct (ck_Checks c); [|exact I]. apply nested_obj, Forall_fmap, Forall_forall. by intros.
Qed.
End values.

(** * The machine a client is shown *)

(** The path of a machine leads to its endpoint, whatever the router. *)
Lemma split_slash (a b : string) : segments (a +:+ String slash b) = segments a ++ segments b.
Proof.
  unfold segments. induction a as [|c a IH]; [done|].
  assert (∃ t ts, Strings.SplitByte a slash = t :: ts) as (t & ts & Ha).
  { clear. induction a as [|c a (t & ts & IH)]; [by eexists _, _|]. cbn [Strings.SplitByte]. rewrite IH.
    destruct (Ascii.eqb c slash); eauto. }
  change (String c a +:+ String slash b) with (String c (a +:+ String slash b)). cbn [Strings.SplitByte].
  rewrite IH, Ha. by destruct (Ascii.eqb c slash).
Qed.

Definition vm_path (id : string) : string := "/api/v1/vms/" +:+ id.
Lemma vm_path_segments id : segments id = [id] → segments (vm_path id) = ["" ; "api"; "v1"; "vms"; id].
Proof.
  intros Hid. change (vm_path id) with ("/api/v1/vms" +:+ String slash id). rewrite split_slash, Hid. reflexivity.
Qed.

#[global] Instance endpoint_eq_dec : EqDecision endpoint.
Proof. solve_decision. Defined.

Lemma vm_route `{RouterLaws} id : segments id = [id] → id ≠ "" →
  route server_routes "GET" (vm_path id) = inl (EpGetVM, id).
Proof.
  intros Hid Hne. apply (route_to _ "GET" "/api/v1/vms/{id}" EpGetVM _ [id]); [vm_compute; reflexivity| | |set_solver].
  - apply list_elem_of_In. vm_compute. tauto.
  - unfold matches. by rewrite vm_path_segments.
Qed.

(** ** Members by name *)
Lemma find_absent (k : string) (l : list (string * json)) : Forall (λ kv, kv.1 ≠ k) l → List.find (λ kv, String.eqb kv.1 k) (rev l) = None.
Proof.
  intros Hl. destruct (List.find _ (rev l)) as [kv|] eqn:E; [|done].
  apply List.find_some in E as [Hin%List.in_rev Hk%String.eqb_eq]. by destruct (proj1 (Forall_forall _ _) Hl kv Hin).
Qed.
Lemma find_app {A} (p : A → bool) l l' : List.find p (l ++ l') = match List.find p l with Some x => Some x | None => List.find p l' end.
Proof. induction l as [|x l IH]; simpl; [done|]. by destruct (p x). Qed.
Lemma member_skip k piece rest : Forall (λ kv, kv.1 ≠ k) piece → member k (piece ++ rest) = member k rest.
Proof.
  intros Hp. unfold member. rewrite rev_app_distr, find_app, (find_absent k piece Hp). by destruct (List.find _ (rev rest)) as [[]|].
Qed.
Lemma member_here k v rest : Forall (λ kv, kv.1 ≠ k) rest → member k (must k v ++ rest) = v.
Proof.
  intros Hr. unfold member. rewrite rev_app_distr, find_app, (find_absent k rest Hr). simpl. by rewrite String.eqb_refl.
Qed.

(** No member of this name. *)
Ltac absent :=
  repeat match goal with
    | |- Forall _ (_ ++ _) => apply Forall_app; split
    | |- Forall _ [] => constructor
    | |- Forall _ (must _ _) => apply Forall_must; discriminate
    | |- Forall _ (omit_str _ _) => apply Forall_omit_str; discriminate
    | |- Forall _ (omit_ptr _ _) => apply Forall_omit_ptr; discriminate
    | |- Forall _ (omit_time _ _ _) => apply Forall_omit_time; discriminate
    | |- Forall _ (omit_tags _ _) => apply Forall_omit_tags; discriminate
    | |- Forall _ (omit_map _ _) => apply Forall_omit_map; discriminate
    | |- Forall _ (omit_arr _ _) => apply Forall_omit_arr; discriminate
    end.
Ltac named := repeat (rewrite member_skip by absent); apply member_here; absent.

(** ** What the server answers *)
Section deployed.
Context {W : Type} (abs : W → Abs) (key : string → string) (s : Service W).
Context `{!ServiceLaws abs key s} `{!Router, !RouterLaws} `{!Upgrader} `{!TimeText} `{!FloatText}.
Context (Ping : M W ()) (validKey : string).

(** The request of the gateway ([vm_state_ws.go]), and what it gets back. *)
Definition fetch_vm (vmID : string) : Request := mkRequest "GET" (vm_path vmID) [("X-API-Key", validKey)] [] "".
Definition status_and_text (o : outcome (Response Value)) : (Z * string) + string :=
  match o with
  | Ret resp => inl (rs_Status resp, body_text time_text (rs_Body resp))
  | _ => inr "EOF"
  end.
Definition fetched (vmID : string) (image : string → option string) (w : W) : Fetched :=
  mkFetched (status_and_text (http_server s Ping validKey (fetch_vm vmID) w).1) image.

(** What the control plane's own stream sees at the same time. *)
Definition seen (vmID : string) (image : string → option Image) (stat : string → option Z) (open : string → option string) (w : W) : Seen :=
  mkSeen (match (GetVM s vmID w).1 with Ret o => inl o | Err e => inr e | Panic => inr "" end) image stat open.

(** A request with the key that the table knows runs its endpoint. *)
Lemma keyed_request_runs method path q body e id w : method ≠ MethodOptions → health_path path = false → validKey ≠ "" →
  route server_routes method path = inl (e, id) →
  http_server s Ping validKey (mkRequest method path [("X-API-Key", validKey)] q body) w =
  (resp ← run s Ping validKey e id (mkRequest method path [("X-API-Key", validKey)] q body); mret (add_headers cors_headers resp)) w.
Proof using Type*.
  intros Hm Hh Hk Hr. set (r := mkRequest method path _ q body). unfold http_server, CORS.
  change (rq_Method r) with method. rewrite (proj2 (String.eqb_neq _ _) Hm).
  assert (E : RequireAPIKey validKey (serve_table server_routes (run s Ping validKey)) r = serve_table server_routes (run s Ping validKey) r).
  { unfold RequireAPIKey. change (rq_Path r) with path. rewrite Hh, (proj2 (String.eqb_neq validKey "") Hk).
    unfold provided_key, ExtractAPIKey. change (header r "X-API-Key") with validKey.
    do 4 (simpl; rewrite ?(proj2 (String.eqb_neq validKey "") Hk)). simpl. by rewrite String.eqb_refl. }
  rewrite E. unfold serve_table. cbn [rq_Method rq_Path r]. by rewrite Hr.
Qed.

Lemma fetch_vm_runs vmID w : segments vmID = [vmID] → vmID ≠ "" → validKey ≠ "" →
  http_server s Ping validKey (fetch_vm vmID) w = (resp ← h_GetVM s vmID; mret (add_headers cors_headers resp)) w.
Proof using Type*. intros Hid Hne Hk. by apply (keyed_request_runs "GET" (vm_path vmID) [] "" EpGetVM vmID), vm_route. Qed.

(** Sizes that a [float64] represents. *)
Definition exact_sizes (a : Abs) : Prop :=
  map_Forall (λ _ vm, exact (vm_VCpus vm) = true ∧ exact (vm_MemoryMB vm) = true) (a_vms a).

(** A machine that was found is sent with status 200 and its fields, nothing is
    sent with 404, and a failed look-up with 500. *)
Lemma fetch_vm_shows vmID image image' stat open w : segments vmID = [vmID] → vmID ≠ "" → validKey ≠ "" → exact_sizes (abs w) →
  shows (seen vmID image' stat open w) (fetched vmID image w).
Proof using Type*.
  intros Hid Hne Hk Hex. unfold shows, seen, fetched, status_and_text. cbn [seen_vm fe_vm].
  rewrite fetch_vm_runs by done. unfold h_GetVM, answer, mbind, M_bind, attempt.
  pose proof (law_vm_get abs key vmID w) as Hg. unfold reads, wp, GetVM in *.
  destruct (VM_GetByID (vmRepo s) vmID w) as [[[vm|]|e|] w1]; simpl in Hg; [| | |done].
  - eexists _, _. split; [reflexivity|]. split.
    { unfold into_object. cbn [rs_Body found add_headers WriteJSON body_text render]. unfold json_of_VM.
      rewrite Unmarshal_Encode; [reflexivity|done|]. apply (nested_mono 4); [|lia].
      pose proof (json_depth vm) as Hd. exact Hd. }
    destruct Hg as [[Hl _] _]. destruct (Hex _ _ (eq_sym Hl)) as [Hc Hm]. split_and!; [named..|exact Hc|exact Hm].
  - eexists. reflexivity.
  - eexists. reflexivity.
Qed.


(** What a client gets from [GET /api/v1/vms/{id}]: with the key, the answer is
    the machine stored under that id, read back from the text with all its fields,
    or 404 when none is stored; a failed statement gives 500; and nothing changes. *)
Theorem get_vm_returns_stored vmID w : segments vmID = [vmID] → vmID ≠ "" → validKey ≠ "" →
  ∃ resp w', http_server s Ping validKey (fetch_vm vmID) w = (Ret resp, w') ∧ abs w' = abs w ∧
  ((rs_Status resp = 200%Z ∧ ∃ vm, a_vms (abs w) !! key vmID = Some (vm_untimed vm) ∧
     (VM_fits vm → decode_answer (body_text time_text (rs_Body resp)) = Some (shown vm))) ∨
   (rs_Status resp = 404%Z ∧ a_vms (abs w) !! key vmID = None) ∨ rs_Status resp = 500%Z).
Proof using Type*.
  intros Hid Hne Hk. rewrite fetch_vm_runs by done. unfold h_GetVM, answer, mbind, M_bind, attempt.
  pose proof (law_vm_get abs key vmID w) as Hg. unfold reads, wp, GetVM in *.
  destruct (VM_GetByID (vmRepo s) vmID w) as [[[vm|]|e|] w1]; simpl in Hg; [| | |done].
  - destruct Hg as [[Hl _] E]. eexists _, w1. split; [reflexivity|]. split; [done|]. left. split; [done|]. exists vm. split; [done|].
    exact (struct_read_back vm).
  - destruct Hg as [[Hl _] E]. eexists _, w1. split; [reflexivity|]. split; [done|]. right; left. by split.
  - eexists _, w1. split; [reflexivity|]. split; [done|]. by right; right.
Qed.
End deployed.
