(* ===== verification/RuntimeWitnesses.v ===== *)
(** Concrete runs of the deployed control plane: the hypotheses of the theorems of
    [Background] and [Answers] hold of it, and a reconciliation that overwrites
    what a request did meanwhile. *)
From stdpp Require Import base gmap strings list numbers relations pretty.
From S2P Require Import Prelude.
From S2P Require Import GoStd.
From S2P Require Import GoJson.
From S2P Require Import Domain.
From S2P Require Import Interfaces.
From S2P Require Import Puller.
From S2P Require Import ControlPlane.
From S2P Require Import Resources.
From S2P Require Import Recovery.
From S2P Require Import Lifecycle.
From S2P Require Import PgControl.
From S2P Require Import PgSound.
From S2P Require Import Deployment.
From S2P Require Import Witnesses.
From S2P Require Import Http.
From S2P Require Import Requests.
From S2P Require Import Handlers.
From S2P Require Import HandlerProofs.
From S2P Require Import HandlerWitnesses.
From S2P Require Import Config.
From S2P Require Import Background.
From S2P Require Import VMState.
From S2P Require Import AnswerFields.
From S2P Require Import Answers.
From stdpp Require Import options.

Abbreviation W0 := (World (U:=text)).

(** Draining the node, making the list, a request, the rest of the list. *)
Definition drain_rq : Request := with_key "POST" "/api/v1/nodes/n1/drain" "".
Definition serve1 (r : Request) (w : W0) : W0 := (http_server svc ping "secret" r w).2.
Definition after {A} (m : M W0 A) (w : W0) : W0 := (m w).2.
Definition result {A} (m : M W0 A) (w : W0) : option A := match (m w).1 with Ret a => Some a | _ => None end.

Definition w_drained : W0 := serve1 drain_rq w0.
Definition w_listed : W0 := after (wake svc GReconcile) w_drained.
Definition listed : list (goroutine W0) := default [] (result (wake svc GReconcile) w_drained).

Lemma ran {A} (m : M W0 A) (w : W0) d : Witnesses.ok (m w) = true → m w = (Ret (default d (result m w)), after m w).
Proof. unfold Witnesses.ok, result, after. by destruct (m w) as [[] w']. Qed.


Definition status_in (w : W0) (k : string) : option VMStatus := statuses (pg_abs w) !! k.

(** The machine is running on a node that is being drained when the list is made;
    its owner powers it off, with success; then the reconciliation, which knows
    only the list, makes it failed, and a failed machine cannot be powered on
    again. *)
Example stale_list_overwrites_power_off :
  let w1 := serve1 power_off_rq w_listed in
  let w2 := (drive svc 10 listed w1).2 in
  status (http_server svc ping "secret" power_off_rq w_listed) = 200%Z ∧
  status_in w1 "vm-run" = Some VMStatusStopped ∧
  status_in w2 "vm-run" = Some VMStatusError ∧
  status (http_server svc ping "secret" (with_key "POST" "/api/v1/vms/vm-run/power-on" "") w2) = 400%Z.
Proof. vm_compute. split_and!; reflexivity. Qed.

(** * Answers *)
#[local] Instance unix_time : TimeText := λ t, pretty t.

Definition labelled : VirtualMachine :=
  mkVM "vm-7" "web <1>" (Some "n1") org0 None VMStatusRunning 2 2048 "host" "q35" false true false "" None (Some ["prod"; "eu"])
    (Some ∅) (Some {["tier" := "gold"; "app" := "shop"]}) [a_disk] [a_nic "52:54:00:00:00:01" "10.1.0.2/24"] 5 6.

Lemma answers_read_back_witness :
  value_fits (VVMs [labelled; labelled] 2) ∧
  client_gets (VVMs [labelled; labelled] 2) (body_text time_text (BJson (VVMs [labelled; labelled] 2))).
Proof.
  assert (H : value_fits (VVMs [labelled; labelled] 2)).
  { split; [|by unfold in_int64]. repeat constructor; vm_compute; try done; repeat constructor; done. }
  split; [exact H|]. exact (answers_read_back (VVMs [labelled; labelled] 2) H).
Defined.

(** A list without elements is sent as [null]. *)
Example empty_list_is_null :
  body_text time_text (BJson (VKeypairs [] 0)) = Encode (JObj [("items", JNull); ("total", JNum 0)]).
Proof. reflexivity. Qed.

Definition w_off : W0 := serve1 power_off_rq w0.

(** Go's text of a large number, only written for numbers of more than 53 bits. *)
#[local] Instance float_digits : FloatText := λ n, pretty n.

Lemma sizes_are_exact : Forall (λ w, exact_sizes (pg_abs w)) [w0; w_off; w0].
Proof. unfold exact_sizes. apply (bool_decide_unpack _). by vm_compute. Qed.


Lemma get_vm_witness :
  ∃ resp w', http_server svc ping "secret" (fetch_vm "secret" "vm-run") w0 = (Ret resp, w') ∧ pg_abs w' = pg_abs w0 ∧
  ((rs_Status resp = 200%Z ∧ ∃ vm, a_vms (pg_abs w0) !! pg_key (U:=text) "vm-run" = Some (vm_untimed vm) ∧
     (VM_fits vm → decode_answer (body_text time_text (rs_Body resp)) = Some (shown vm))) ∨
   (rs_Status resp = 404%Z ∧ a_vms (pg_abs w0) !! pg_key (U:=text) "vm-run" = None) ∨ rs_Status resp = 500%Z).
Proof. exact (get_vm_returns_stored pg_abs pg_key svc ping "secret" "vm-run" w0 eq_refl ltac:(done) ltac:(done)). Defined.
