(* ===== verification/Messages.v ===== *)
(** What the control plane says to the stream: for the service as [main] builds
    it, every message a request publishes is an event of a machine or of a node,
    or a power or start command to a node, and a request only adds messages.

    The calculus [says] follows the code of the service and of the repositories
    by its syntax: a statement to the database says nothing, [js.Publish] says at
    most what it was given. *)
From stdpp Require Import base gmap strings list numbers.
From S2P Require Import Prelude.
From S2P Require Import GoStd.
From S2P Require Import GoJson.
From S2P Require Import Ipam.
From S2P Require Import Domain.
From S2P Require Import Interfaces.
From S2P Require Import Puller.
From S2P Require Import ControlPlane.
From S2P Require Import Resources.
From S2P Require Import PgControl.
From S2P Require Import Deployment.
From S2P Require Import Http.
From S2P Require Import Requests.
From S2P Require Import Streams.
From S2P Require Import Handlers.
From stdpp Require Import options.

#[local] Set Default Proof Using "Type*".

(** * The messages *)
Inductive message : string * json → Prop :=
| vm_event ev id d : message ("events.vm." +:+ id +:+ "." +:+ ev, d)
| node_event ev id d : message ("events.node." +:+ id +:+ "." +:+ ev, d)
| power_message action id force node : action ∈ ["stop"; "reboot"] →
    message (SubjectForNode node action, power_command action id force)
| start_message vm sshKey cs node : cs ≠ [] → nic_configs (vm_ID vm) (vm_NetworkInterfaces vm) = Ret cs →
    message (SubjectForNode node "start", start_command vm sshKey cs).

Section says.
Context {U : Type} `{Pg U}.
Abbreviation World := (PgControl.World (U:=U)).
Abbreviation DB := (PgControl.DB (U:=U)).

(** * Computations that only add messages *)
Definition says {A} (m : M World A) : Prop :=
  ∀ w, ∃ l, w_msgs (m w).2 = w_msgs w ++ l ∧ Forall message l.

Lemma says_nothing {A} (m : M World A) : (∀ w, w_msgs (m w).2 = w_msgs w) → says m.
Proof using Type. intros Hm w. exists []. by rewrite app_nil_r. Qed.

Lemma says_ret {A} (a : A) : says (mret a).
Proof using Type. by apply says_nothing. Qed.
Lemma says_fail {A} e : says (A:=A) (fail e).
Proof using Type. by apply says_nothing. Qed.
Lemma says_panic {A} : says (A:=A) panic.
Proof using Type. by apply says_nothing. Qed.
Lemma says_lift {A} (o : outcome A) : says (lift o).
Proof using Type. by apply says_nothing. Qed.
Lemma says_gets {A} (f : World → A) : says (gets f).
Proof using Type. by apply says_nothing. Qed.
Lemma says_uuid : says uuid_New.
Proof using Type. by apply says_nothing. Qed.
Lemma says_download t : says (start_download t).
Proof using Type. by apply says_nothing. Qed.
Lemma says_stmt {A} (f : DB → outcome (A * DB)) : says (stmt f).
Proof using Type.
  apply says_nothing. intros w. unfold stmt.
  destruct (w_faults w) as [|[e|] l]; [|done|]; by destruct (f (w_db w)) as [[]| |].
Qed.

(** When the continuation needs to know what the first part returned. *)
Lemma says_bind_result {A B} (m : M World A) (k : A → M World B) :
  says m → (∀ w a w', m w = (Ret a, w') → says (k a)) → says (m ≫= k).
Proof using Type.
  intros Hm Hk w. specialize (Hk w). destruct (Hm w) as (l & El & Hl). unfold mbind, M_bind.
  destruct (m w) as [[a|e|] w1]; simpl in El |- *; [|by exists l..].
  destruct (Hk a w1 eq_refl w1) as (l' & E' & Hl'). exists (l ++ l').
  split; [by rewrite E', El, (assoc_L (++))|by apply Forall_app_2].
Qed.
Lemma says_bind {A B} (m : M World A) (k : A → M World B) : says m → (∀ a, says (k a)) → says (m ≫= k).
Proof using Type. intros Hm Hk. by apply says_bind_result. Qed.

(** Constructs that run one computation. *)
Definition same_effects {A B} (m : M World A) (m' : M World B) : Prop := ∀ w, w_msgs (m' w).2 = w_msgs (m w).2.
Lemma says_same {A B} (m : M World A) (m' : M World B) : same_effects m m' → says m → says m'.
Proof using Type. intros E Hm w. rewrite E. apply Hm. Qed.
Lemma says_wrap {A} c (m : M World A) : says m → says (wrap c m).
Proof using Type. apply says_same. intros w. unfold wrap. by destruct (m w) as [[] w']. Qed.
Lemma says_attempt {A} (m : M World A) : says m → says (attempt m).
Proof using Type. apply says_same. intros w. unfold attempt. by destruct (m w) as [[] w']. Qed.
Lemma says_or_zero {A} d (m : M World A) : says m → says (or_zero d m).
Proof using Type. apply says_same. intros w. unfold or_zero. by destruct (m w) as [[] w']. Qed.
Lemma says_ignore {A} (m : M World A) : says m → says (ignore m).
Proof using Type. apply says_same. intros w. unfold ignore. by destruct (m w) as [[] w']. Qed.
Lemma says_transaction {A} (m : M World A) : says m → says (transaction m).
Proof using Type. apply says_same. intros w. unfold transaction. by destruct (m w) as [[] w']. Qed.

Lemma says_imapM {A B} (f : nat → A → M World B) i l : (∀ i a, says (f i a)) → says (imapM f i l).
Proof using Type.
  intros Hf. revert i. induction l as [|a l IH]; intros i; [apply says_ret|].
  apply says_bind; [apply Hf|]. intros b. apply says_bind; [apply IH|]. intros bs. apply says_ret.
Qed.
Lemma says_foldM {A B} (f : B → A → M World B) b l : (∀ b a, says (f b a)) → says (foldM f b l).
Proof using Type.
  intros Hf. revert b. induction l as [|a l IH]; intros b; [apply says_ret|]. apply says_bind; [apply Hf|done].
Qed.

Lemma says_repeat n (m : M World ()) : says m → says (repeatM n m).
Proof using Type. intros Hm. induction n as [|n IH]; [apply says_ret|]. by apply says_bind. Qed.

Lemma says_publish subj d : message (subj, d) → says (pub_Publish subj d).
Proof using Type.
  intros Hm. apply says_wrap. intros w. unfold js_Publish.
  destruct (w_pub_faults w) as [|[[e []]|] ?]; simpl; try (exists [(subj, d)]; by repeat constructor).
  exists []. by rewrite app_nil_r.
Qed.
End says.

(** Follow the syntax; unfold the head when there is nothing to follow. *)
Ltac says_step :=
  lazymatch goal with
  | |- says (mret _) => apply says_ret
  | |- says (fail _) => apply says_fail
  | |- says panic => apply says_panic
  | |- says (lift _) => apply says_lift
  | |- says (gets _) => apply says_gets
  | |- says uuid_New => apply says_uuid
  | |- says (start_download _) => apply says_download
  | |- says (stmt _) => apply says_stmt
  | |- says (pub_Publish (_ +:+ _) _) => apply says_publish; constructor
  | |- says (mbind _ _) => apply says_bind; [|intros ?]
  | |- says (wrap _ _) => apply says_wrap
  | |- says (attempt _) => apply says_attempt
  | |- says (or_zero _ _) => apply says_or_zero
  | |- says (ignore _) => apply says_ignore
  | |- says (transaction _) => apply says_transaction
  | |- says (imapM _ _ _) => apply says_imapM; intros ? ?
  | |- says (repeatM _ _) => apply says_repeat
  | |- says (foldM _ _ _) => apply says_foldM; intros ? ?
  | |- says (match ?x with _ => _ end) => destruct x
  end.
Ltac head t := lazymatch t with ?f _ => head f | _ => t end.
(** A call of a repository, of the publisher or of the environment. *)
Ltac says_call :=
  progress cbn [
    VM_Create VM_GetByID VM_List VM_Update VM_Delete VM_UpdateStatus VM_AssignNode
    Node_Create Node_GetByID Node_GetByName Node_List Node_Update Node_Delete Node_UpdateStatus Node_UpdateHeartbeat
    Image_Create Image_GetByID Image_GetByName Image_List Image_Update Image_UpdateStatus Image_Delete
    Snap_Create Snap_GetByID Snap_ListByVM Snap_Delete
    Backup_Create Backup_GetByID Backup_List Backup_Update Backup_Delete
    Flavor_Create Flavor_GetByID Flavor_GetByName Flavor_List Flavor_Delete
    Keypair_Create Keypair_GetByID Keypair_GetByName Keypair_List Keypair_Delete
    EnsureDefaultNetwork AllocateIP Publish PublishVMEvent PublishNodeEvent new_uuid os_Stat go_download
    vmRepo nodeRepo imageRepo backupRepo snapRepo flavorRepo keypairRepo ipam publisher puller env
    p_imageRepo p_imagesDir p_env ns_repo ns_publisher ns_env NodeService
    control_plane NewService InitPuller SetFlavorRepository SetKeypairRepository SetIPAMAllocator NewPuller
    pg_VMRepository pg_NodeRepository pg_ImageRepository pg_SnapshotRepository pg_BackupRepository
    pg_FlavorRepository pg_KeypairRepository pg_IPAM pg_Env nats_EventPublisher].
Ltac says_unfold :=
  lazymatch goal with |- says ?m => let h := head m in unfold h; cbv beta zeta end.
Ltac says := repeat first [ says_call | says_step | says_unfold ].

Section control_plane.
Context {U : Type} `{Pg U} (imagesDir : string).
Abbreviation World := (PgControl.World (U:=U)).
Abbreviation s := (control_plane (U:=U) imagesDir true).

Lemma subject_result node action w subj w' : nodeCommandSubject s node action w = (Ret subj, w') →
  ∃ label, subj = SubjectForNode label action.
Proof.
  unfold nodeCommandSubject, mbind, M_bind. destruct (attempt _ w) as [[a| |] w1]; [|done..].
  intros [= <- _]. eauto.
Qed.
Lemma says_subject node action : says (nodeCommandSubject s node action).
Proof. says. Qed.

Lemma says_send action id force vm : action ∈ ["stop"; "reboot"] → says (send_command s action id force vm).
Proof.
  intros Ha. unfold send_command. simpl. destruct (assigned vm) as [node|]; [|apply says_ret].
  apply says_bind_result; [apply says_subject|]. intros w subj w' (label & ->)%subject_result.
  by apply says_ignore, says_publish, power_message.
Qed.

Lemma says_start vm : says (publishVMStart s vm).
Proof.
  unfold publishVMStart. simpl. apply says_bind_result; [apply says_lift|]. intros w cs w' [= Hcs _].
  destruct cs as [|c cs]; [apply says_fail|]. apply says_bind; [by says|]. intros sshKey.
  destruct (vm_NodeID vm) as [node|]; [|apply says_panic].
  apply says_bind_result; [apply says_subject|]. intros w1 subj w1' (label & ->)%subject_result.
  by apply says_publish, start_message.
Qed.

Ltac says_command :=
  lazymatch goal with
  | |- says (publishVMStart _ _) => apply says_start
  | |- says (send_command _ _ _ _ _) => apply says_send; by repeat constructor
  | H : says ?m |- says ?m => exact H
  end.
Ltac says_more := repeat first [ says_command | says_call | says_step | says_unfold ].

(** Every endpoint. *)
Lemma says_run `{!Upgrader} Ping k e id r : says Ping → says (run s Ping k e id r).
Proof.
  intros HP. destruct e; cbn [run]; try by says_more.
  unfold check_value, Readiness, readiness_step. cbn [foldM fst snd]. says_more.
Qed.

Lemma says_server `{Router} `{!Upgrader} Ping k r : says Ping → says (http_server s Ping k r).
Proof.
  intros HP. unfold http_server, CORS, RequireAPIKey, serve_table.
  repeat first [ says_step | by apply says_run ].
Qed.
End control_plane.
