(* ===== verification/System.v ===== *)
(** The system put together: the control plane of [cmd/control-plane/main.go],
    the stream COMMANDS of [internal/nats/nats.go] and the agents of
    [cmd/node-agent/main.go], each on its node.

    A step is a step of the control plane (a request, or a goroutine of
    [Background]), whose messages under the subjects of COMMANDS join the queue;
    the delivery of a queued message to an agent whose consumer's filter matches,
    which leaves the queue when it is acknowledged and the acknowledgement
    arrives, and else stays; a change of a node by itself (heartbeats, recovery,
    processes that end); and the loss of a queued message (its age, the bound on
    their number).  Messages may be delivered in any order: a message given back
    comes again later.

    Theorem: an agent takes only what the control plane published for it, as it
    was meant.  [EndToEnd] adds what a request makes a node do. *)
From stdpp Require Import base gmap strings list numbers relations.
From S2P Require Import Prelude.
From S2P Require Import GoStd.
From S2P Require Import GoJson.
From S2P Require Import Ipam.
From S2P Require Import Domain.
From S2P Require Import Interfaces.
From S2P Require Import Puller.
From S2P Require Import ControlPlane.
From S2P Require Import VMService.
From S2P Require Import Resources.
From S2P Require Import Recovery.
From S2P Require Import PgControl.
From S2P Require Import PgSound.
From S2P Require Import Deployment.
From S2P Require Import Host.
From S2P Require Import Qemu.
From S2P Require Import Agent.
From S2P Require Import AgentProofs.
From S2P Require Import AgentCommands.
From S2P Require Import AgentLive.
From S2P Require Import Http.
From S2P Require Import Requests.
From S2P Require Import Streams.
From S2P Require Import Handlers.
From S2P Require Import HandlerProofs.
From S2P Require Import Config.
From S2P Require Import Background.
From S2P Require Import Answers.
From S2P Require Import Messages.
From stdpp Require Import options.

#[local] Set Default Proof Using "Type*".

(** [NewAgent]: where an agent keeps machines and images, and the programs of its
    node. *)
Record AgentConf := mkAgentConf {
  ag_prog : list string → gmap string string → gmap string string;
  ag_baseDir : string;
  ag_imagesDir : string;
}.

(** A message as COMMANDS keeps it: the subject and the text. *)
Definition queued : Type := string * string.
Definition to_queue (l : list (string * json)) : list queued :=
  omap (λ m, if bool_decide ("COMMANDS" ∈ keepers m.1) then Some (m.1, Marshal m.2) else None) l.

(** * Commands *)

(** The command an agent is to read in a message to [node]. *)
Inductive command_for (node : string) : string * json → Prop :=
| power_for action id force :
    action ∈ ["stop"; "reboot"] →
    decode_command (Marshal (power_command action id force)) = Some (mkCommand action id None force) →
    command_for node (SubjectForNode node action, power_command action id force)
| start_for vm sshKey cs :
    nic_configs (vm_ID vm) (vm_NetworkInterfaces vm) = Ret cs →
    (fits_types vm → ∃ ns, reads_as (vm_NetworkInterfaces vm) cs ns ∧
       decode_command (Marshal (start_command vm sshKey cs))
       = Some (mkCommand "start" (vm_ID vm) (Some (decoded_cfg vm sshKey ns)) false)) →
    command_for node (SubjectForNode node "start", start_command vm sshKey cs).

Lemma power_command_decodes action id force :
  decode_command (Marshal (power_command action id force)) = Some (mkCommand action id None force).
Proof.
  unfold decode_command. rewrite Unmarshal_Marshal.
  2:{ eapply (deep_enough 1); [|lia]. destruct force; repeat constructor. }
  unfold power_command. by destruct force.
Qed.

Lemma message_command m : message m → "COMMANDS" ∈ keepers m.1 → ∃ node, command_for node m.
Proof.
  intros Hm Hk. destruct Hm as [ev id d|ev id d|action id force node Ha|vm sshKey cs node Hne Hcs]; cbn [fst] in Hk.
  - rewrite (proj1 (published_messages_kept id ev "" "")) in Hk. set_solver.
  - rewrite (proj1 (proj2 (published_messages_kept id ev "" ""))) in Hk. set_solver.
  - exists node. constructor; [done|apply power_command_decodes].
  - exists node. constructor; [done|]. intros Hf. destruct (nic_configs_read _ _ _ Hcs) as [ns Hr]. exists ns.
    split; [done|by apply start_command_decodes].
Qed.

(** * The system *)
Section system.
Context {U : Type} `{Pg U, !PgLaws U} `{!Router, !RouterLaws} `{!Upgrader}.
Context (imagesDir validKey : string) (agents : string → AgentConf).
Abbreviation World := (PgControl.World (U:=U)).
Abbreviation service := (control_plane (U:=U) imagesDir true).
Context (Ping : M World ()).

Record Sys := mkSys {
  y_cp : World;
  y_tasks : list (goroutine World);
  y_queue : list queued;
  y_nodes : gmap string HW;
}.

(** What the stream gets of a step of the control plane. *)
Definition published (w w' : World) : list (string * json) := drop (length (w_msgs w)) (w_msgs w').
Definition cp_moves (w' : World) (gs : list (goroutine World)) (y : Sys) : Sys :=
  mkSys w' gs (y_queue y ++ to_queue (published (y_cp y) w')) (y_nodes y).

Definition sys_request (r : Request) (y : Sys) : outcome (Response Value) * Sys :=
  let '(o, w') := http_server service Ping validKey r (y_cp y) in (o, cp_moves w' (y_tasks y) y).

(** [cons.Consume]: the consumer's filter, and the callback. *)
Definition consumes (n subj : string) : bool := subject_matches (SubjectForNode n ">") subj.
Definition agent_handles (n data : string) : M HW () :=
  @handleCommand (host_programs (ag_prog (agents n))) (ag_baseDir (agents n)) (ag_imagesDir (agents n)) data.

(** The [i]-th message goes to node [n]; an acknowledgement removes it. *)
Definition sys_deliver (n : string) (i : nat) (y : Sys) : option (sys_event * Sys) :=
  hw ← y_nodes y !! n;
  m ← y_queue y !! i;
  if consumes n m.1 then
    let hw' := (agent_handles n m.2 hw).2 in
    a ← last (h_log hw');
    Some (a, mkSys (y_cp y) (y_tasks y)
               (match a with Ack => delete i (y_queue y) | _ => y_queue y end) (<[n := hw']> (y_nodes y)))
  else None.

(** The acknowledgement did not arrive. *)
Definition unacked (q : list queued) (y : Sys) : Sys := mkSys (y_cp y) (y_tasks y) q (y_nodes y).

Inductive label :=
| LControl
| LTakes (n : string) (m : queued)
| LOther.

Inductive sys_step : Sys → label → Sys → Prop :=
| sys_req r o y y' : sys_request r y = (o, y') → sys_step y LControl y'
| sys_wake gs1 g gs2 rest w' y : y_tasks y = gs1 ++ g :: gs2 → wake service g (y_cp y) = (Ret rest, w') →
    sys_step y LControl (cp_moves w' (gs1 ++ rest ++ gs2) y)
| sys_take n i m a y y' : y_queue y !! i = Some m → sys_deliver n i y = Some (a, y') → sys_step y (LTakes n m) y'
| sys_take_again n i m a y y' : y_queue y !! i = Some m → sys_deliver n i y = Some (a, y') →
    sys_step y (LTakes n m) (unacked (y_queue y) y')
| sys_node n hw y : sys_step y LOther (mkSys (y_cp y) (y_tasks y) (y_queue y) (<[n := hw]> (y_nodes y)))
| sys_lost i y : sys_step y LOther (unacked (delete i (y_queue y)) y).

(** The labels of a run, the latest first. *)
Inductive sys_run (y : Sys) : list label → Sys → Prop :=
| run_nil : sys_run y [] y
| run_snoc ls l y1 y2 : sys_run y ls y1 → sys_step y1 l y2 → sys_run y (l :: ls) y2.

(** At the start: nothing published, nothing queued, the goroutines of [Recover]. *)
Definition sys_start (y : Sys) : Prop :=
  w_msgs (y_cp y) = [] ∧ y_queue y = [] ∧
  ∃ gs, Recover service (y_cp y) = (Ret gs, y_cp y) ∧ y_tasks y = gs.*2.

(** * What an agent takes *)
(** ** The invariant *)
Definition sent (w : World) (m : queued) : Prop :=
  ∃ node j, (m.1, j) ∈ w_msgs w ∧ m.2 = Marshal j ∧ command_for node (m.1, j).
Definition own_task (g : goroutine World) : Prop :=
  match g with GResume p => puller service = Some p | _ => True end.
Definition sys_inv (y : Sys) : Prop := Forall (sent (y_cp y)) (y_queue y) ∧ Forall own_task (y_tasks y).

Lemma says_wake g : own_task g → says (wake service g).
Proof.
  destruct g as [p| |[|vm vms]]; simpl; intros Hp; [injection Hp as <-|..]; says.
Qed.

Lemma wake_own g w rest w' : wake service g w = (Ret rest, w') → Forall own_task rest.
Proof.
  destruct g as [p| |[|vm vms]]; simpl; unfold mbind, M_bind, mret, M_ret; intros E;
    repeat case_match; simplify_eq/=; repeat constructor.
Qed.

Lemma sent_grows w l m : sent w m → ∀ w', w_msgs w' = w_msgs w ++ l → sent w' m.
Proof using. intros (node & j & Hj & ?) w' E. exists node, j. rewrite E, elem_of_app. auto. Qed.

(** A step of the control plane that only adds messages. *)
Lemma cp_moves_inv {A} (m : M World A) gs y : says m → Forall own_task gs → sys_inv y →
  sys_inv (cp_moves (m (y_cp y)).2 gs y) ∧ ∃ l, w_msgs (m (y_cp y)).2 = w_msgs (y_cp y) ++ l.
Proof using.
  intros Hm Hgs [Hq _]. destruct (Hm (y_cp y)) as (l & E & Hl). split; [|by exists l]. split; [|done]. simpl.
  apply Forall_app_2; [eapply Forall_impl; [exact Hq|]; intros x Hx; by eapply sent_grows|].
  unfold published. rewrite E, drop_app_length. apply Forall_forall. intros [subj data] Hin.
  unfold to_queue in Hin. apply list_elem_of_omap in Hin as ([subj' j] & Hin & Hk). simpl in Hk.
  case_bool_decide as Hk'; simplify_eq. rewrite Forall_forall in Hl.
  pose proof (message_command _ (Hl _ Hin) Hk') as [node Hc].
  exists node, j. simpl. rewrite E, elem_of_app. auto.
Qed.

Lemma deliver_inv n i y a y' : sys_deliver n i y = Some (a, y') → ∃ hw (m : queued), y_nodes y !! n = Some hw ∧ y_queue y !! i = Some m ∧
  consumes n m.1 = true ∧ y_cp y' = y_cp y ∧ y_tasks y' = y_tasks y ∧
  y_nodes y' = <[n := (agent_handles n m.2 hw).2]> (y_nodes y) ∧
  y_queue y' = match a with Ack => delete i (y_queue y) | _ => y_queue y end.
Proof using.
  unfold sys_deliver. destruct (y_nodes y !! n) as [hw|]; [|done]. destruct (y_queue y !! i) as [m|]; [|done].
  cbn [mbind option_bind]. destruct (consumes n m.1) eqn:Hc; [|done]. destruct (last _) as [a'|]; [|done].
  intros [= <- <-]. by exists hw, m.
Qed.

Context (HPing : says Ping).

Lemma step_inv y l y' : sys_step y l y' → sys_inv y →
  sys_inv y' ∧ (∃ new, w_msgs (y_cp y') = w_msgs (y_cp y) ++ new) ∧
  (∀ n m, l = LTakes n m → sent (y_cp y) m ∧ consumes n m.1 = true).
Proof.
  assert (Hdel : ∀ P i (q : list queued), Forall P q → Forall P (delete i q)).
  { intros P i q Hq. rewrite delete_take_drop. apply Forall_app_2; [by apply Forall_take|by apply Forall_drop]. }
  assert (Hsame : ∀ y : Sys, ∃ new, w_msgs (y_cp y) = w_msgs (y_cp y) ++ new) by (intros y0; exists []; by rewrite app_nil_r).
  intros [r o y0 y1 E|gs1 g gs2 rest w' y0 Eg Ew|n i m a y0 y1 Em E|n i m a y0 y1 Em E|n hw y0|i y0] Hinv.
  - pose proof (says_server imagesDir Ping validKey r HPing) as Hs. unfold sys_request in E.
    destruct (cp_moves_inv _ (y_tasks y0) y0 Hs (proj2 Hinv) Hinv) as [Hi Hn].
    destruct (http_server _ _ _ _ _) as [o' w']. injection E as <- <-. done.
  - assert (Hg : Forall own_task (gs1 ++ g :: gs2)) by (rewrite <-Eg; apply Hinv).
    apply Forall_app in Hg as [H1g [Hg H2g]%Forall_cons].
    destruct (cp_moves_inv (wake service g) (gs1 ++ rest ++ gs2) y0) as [Hi Hn]; [by apply says_wake| |done|].
    + rewrite !Forall_app. split_and!; [done|by eapply wake_own|done].
    + rewrite Ew in Hi, Hn. done.
  - destruct Hinv as [Hq Ht]. apply deliver_inv in E as (hw & m' & _ & Em' & Hc & Ecp & Et & _ & Eq). simplify_eq.
    split_and!; [|rewrite Ecp; apply Hsame|].
    + split; rewrite ?Ecp, ?Et, ?Eq; [|done]. destruct a; by auto.
    + intros ?? [= <- <-]. split; [|done]. by eapply Forall_lookup_1.
  - destruct Hinv as [Hq Ht]. apply deliver_inv in E as (hw & m' & _ & Em' & Hc & Ecp & Et & _ & Eq). simplify_eq.
    split_and!; [|simpl; rewrite Ecp; apply Hsame|].
    + split; simpl; by rewrite ?Ecp, ?Et.
    + intros ?? [= <- <-]. split; [|done]. by eapply Forall_lookup_1.
  - split_and!; [done|apply (Hsame y0)|done].
  - destruct Hinv. split_and!; [|apply (Hsame y0)|done]. split; simpl; auto.
Qed.

Lemma start_inv y : sys_start y → sys_inv y.
Proof.
  intros (_ & Hq & gs & E & Ht). split; [by rewrite Hq|]. rewrite Ht. injection E as <-. repeat constructor.
Qed.

Lemma run_inv y ls y' : sys_start y → sys_run y ls y' →
  sys_inv y' ∧ ∀ n m, LTakes n m ∈ ls → sent (y_cp y') m ∧ consumes n m.1 = true.
Proof.
  intros Hs. induction 1 as [|ls l y1 y2 Hr [Hi IH] Hstep].
  - split; [by apply start_inv|]. by intros n m ?%not_elem_of_nil.
  - destruct (step_inv _ _ _ Hstep Hi) as (Hi2 & [new E] & Hl). split; [done|].
    intros n m [Heq|Hin]%elem_of_cons; [destruct (Hl n m (eq_sym Heq))|destruct (IH n m Hin)];
      (split; [by eapply sent_grows|done]).
Qed.

(** C3: Only the control plane commands the nodes.  Whatever requests arrive, at
    the server, whatever fails, in whatever order and however often messages
    are delivered: every message an agent takes was published by the control
    plane, is a stop, a reboot or a start addressed to a node, and reads as that
    command; and among nodes whose names have no dots it is the agent's own. *)
Theorem agents_obey_control_plane y ls y' n m : sys_start y → sys_run y ls y' → LTakes n m ∈ ls →
  ∃ node j, (m.1, j) ∈ w_msgs (y_cp y') ∧ m.2 = Marshal j ∧ command_for node (m.1, j) ∧
    (no_dot node → no_dot n → n ≠ "*" → node = n).
Proof.
  intros Hs Hr Hin. destruct (run_inv _ _ _ Hs Hr) as [_ Hl]. destruct (Hl n m Hin) as [(node & j & Hj & Ed & Hc) Hm].
  exists node, j. split_and!; [done..|]. intros Hn1 Hn2 Hw. unfold consumes in Hm.
  assert (∃ action, m.1 = SubjectForNode node action) as [action Ea] by (inversion Hc; eauto).
  rewrite Ea in Hm. by apply (own_commands node n action).
Qed.
End system.
