(* ===== verification/EndToEnd.v ===== *)
(** From a request to a running machine, across the whole system: when nothing is
    refused and nothing fails, a request to power a machine on is answered with
    the running machine, its node gets exactly one command, and when the message
    is delivered the node runs QEMU with the machine as it is stored,
    acknowledges, and the queue is as it was before.  ([SystemWitnesses] has a run
    in which a start fails first and comes again too late.) *)
From stdpp Require Import base gmap strings list numbers relations.
From S2P Require Import Prelude.
From S2P Require Import GoStd.
From S2P Require Import GoJson.
From S2P Require Import Ipam.
From S2P Require Import Domain.
From S2P Require Import Interfaces.
From S2P Require Import Puller.
From S2P Require Import ControlPlane.
From S2P Require Import VMService.
From S2P Require Import PgControl.
From S2P Require Import PgSound.
From S2P Require Import Deployment.
From S2P Require Import Host.
From S2P Require Import Qemu.
From S2P Require Import Agent.
From S2P Require Import AgentProofs.
From S2P Require Import AgentCommands.
From S2P Require AgentLive.
From S2P Require Import Http.
From S2P Require Import Requests.
From S2P Require Import Streams.
From S2P Require Import Handlers.
From S2P Require Import Config.
From S2P Require Import Background.
From S2P Require Import Answers.
From S2P Require Import Messages.
From S2P Require Import System.
From stdpp Require Import options.

#[local] Set Default Proof Using "Type*".

(** * Paths *)
Definition action_path (id action : string) : string := "/api/v1/vms/" +:+ id +:+ "/" +:+ action.
Lemma action_path_segments id action : segments id = [id] → segments action = [action] →
  segments (action_path id action) = ["" ; "api"; "v1"; "vms"; id; action].
Proof.
  intros Hid Ha. change (action_path id action) with ("/api/v1/vms" +:+ String slash (id +:+ String slash action)).
  by rewrite !split_slash, Hid, Ha.
Qed.

Lemma power_on_route `{RouterLaws} id : segments id = [id] → id ≠ "" →
  route server_routes "POST" (action_path id "power-on") = inl (EpPowerOnVM, id).
Proof.
  intros Hid Hne.
  apply (route_to _ "POST" "/api/v1/vms/{id}/power-on" EpPowerOnVM _ [id]); [vm_compute; reflexivity| | |].
  - apply list_elem_of_In. vm_compute. tauto.
  - unfold matches. by rewrite action_path_segments.
  - by intros [?|[]%not_elem_of_nil]%elem_of_cons.
Qed.

(** * The delivery *)
Lemma filter_own (ts : list string) a l : filter_matches (ts ++ [">"]) (ts ++ a :: l) = true.
Proof.
  induction ts as [|t ts IH]; [done|]. cbn [app]. destruct (ts ++ [">"]) as [|g gs] eqn:E; [by destruct ts|].
  rewrite filter_step, String.eqb_refl, orb_true_r. exact IH.
Qed.
Lemma consumes_own n action : consumes n (SubjectForNode n action) = true.
Proof.
  unfold consumes, subject_matches. rewrite !command_tokens. destruct (tokens_ne action) as (t & ts & ->).
  apply (filter_own ("commands" :: "node" :: tokens n)).
Qed.

Lemma queue_command node action cmd id ev d :
  to_queue [(SubjectForNode node action, cmd); ("events.vm." +:+ id +:+ "." +:+ ev, d)]
  = [(SubjectForNode node action, Marshal cmd)].
Proof.
  destruct (published_messages_kept id ev node action) as (He & _ & Hc & _).
  unfold to_queue. cbn [omap list_omap fst snd]. by rewrite He, Hc.
Qed.

Section end_to_end.
Context {U : Type} `{Pg U, !PgLaws U} `{!Router, !RouterLaws} `{!Upgrader}.
Context (imagesDir validKey : string) (agents : string → AgentConf).
Abbreviation World := (PgControl.World (U:=U)).
Abbreviation DB := (PgControl.DB (U:=U)).
Abbreviation service := (control_plane (U:=U) imagesDir true).
Context (Ping : M World ()).

(** * The service *)

(** A computation that reads: it ends well, and changes nothing. *)
Lemma succeeds_look {A} d (m : M World A) w : calm w → (∃ o, m w = (o, w) ∧ o ≠ Panic) →
  succeeds (or_zero d m) w (λ _ w', w' = w).
Proof using.
  intros Hc (o & E & Ho). unfold succeeds, or_zero. rewrite E. destruct o; [by eexists _, _..|done].
Qed.

Lemma keypair_look k w : calm w → ∃ o, KeypairRepo_GetByID k w = (o, w) ∧ o ≠ Panic.
Proof using.
  intros Hc. unfold KeypairRepo_GetByID, wrap. rewrite query_calm by done.
  unfold q_by_id, uuid_arg. destruct (uuid_in k); simpl; eexists; by split.
Qed.

Lemma subject_succeeds n action w : calm w →
  succeeds (nodeCommandSubject service (uuid_out n) action) w
    (λ subj w', subj = SubjectForNode (node_label (w_db w) n) action ∧ w' = w).
Proof.
  intros Hc. unfold nodeCommandSubject. simpl. eapply succeeds_bind.
  { apply succeeds_attempt, succeeds_wrap, (succeeds_query _ (node_read n <$> t_nodes (w_db w) !! n)); [done|].
    unfold q_by_id, uuid_arg. by rewrite uuid_in_out. }
  intros o w1 Hc1 (a & -> & -> & ->). apply succeeds_ret; [done|]. split; [|done].
  unfold node_label. by destruct (t_nodes (w_db w) !! n).
Qed.

Lemma publish_start_succeeds vm n cs w : calm w → vm_NodeID vm = Some (uuid_out n) →
  nic_configs (vm_ID vm) (vm_NetworkInterfaces vm) = Ret cs → cs ≠ [] →
  succeeds (publishVMStart service vm) w (λ _ w', w_db w' = w_db w ∧ ∃ sshKey,
    w_msgs w' = w_msgs w ++ [(SubjectForNode (node_label (w_db w) n) "start", start_command vm sshKey cs)]).
Proof.
  intros Hc Hn Hcs Hne. unfold publishVMStart. simpl.
  eapply (succeeds_bind _ _ _ (λ c w', c = cs ∧ w' = w)); [exists cs, w; unfold lift; by rewrite Hcs|].
  intros c w1 _ [-> ->]. destruct cs as [|c cs]; [done|].
  eapply (succeeds_bind _ _ _ (λ _ w', w' = w)).
  { destruct (vm_SSHKeyID vm) as [k|]; [|by apply succeeds_ret]. destruct (String.eqb k ""); [by apply succeeds_ret|].
    eapply succeeds_bind; [by apply succeeds_look, keypair_look|]. intros kp w1 Hc1 ->. by apply succeeds_ret. }
  intros sshKey w1 _ ->. rewrite Hn. eapply succeeds_bind; [by apply subject_succeeds|].
  intros subj w1 _ [-> ->]. eapply succeeds_mono; [by apply succeeds_publish|]. intros [] w' [? ?]. eauto.
Qed.

Definition power_on_guard (st : VMStatus) : Prop :=
  st = VMStatusStopped ∨ st = VMStatusPaused ∨ st = VMStatusCreating.

Lemma power_on_succeeds id u r n cs w : calm w → uuid_in id = Some u → t_vms (w_db w) !! u = Some r →
  power_on_guard (vm_Status (vr_val r)) → vr_node r = Some n →
  nic_configs (uuid_out u) (vm_NetworkInterfaces (full_vm u r)) = Ret cs → cs ≠ [] →
  succeeds (PowerOn service id) w (λ vm w',
    vm = vm_set_status VMStatusRunning (full_vm u r) ∧
    a_vms (pg_abs w') !! pg_key id = Some (vm_untimed vm) ∧
    ∃ sshKey, w_msgs w' = w_msgs w ++
      [(SubjectForNode (node_label (w_db w) n) "start", start_command vm sshKey cs);
       ("events.vm." +:+ id +:+ ".started", JObj [("vm_id", JStr id)])]).
Proof.
  intros Hc Hu Hr Hg Hn Hcs Hne. eapply succeeds_bind; [by apply get_vm_succeeds|]. intros vm w1 _ [-> ->].
  destruct (negb _ && negb _ && negb _) eqn:E.
  { exfalso. revert Hg E. unfold power_on_guard. change (vm_Status (full_vm u r)) with (vm_Status (vr_val r)).
    by intros [-> |[-> | ->]]. }
  assert (Ha : assigned (full_vm u r) = Some (uuid_out n)).
  { unfold assigned. simpl. rewrite Hn. simpl.
    destruct (String.eqb_spec (uuid_out n) "") as [E'|_]; [by destruct (uuid_out_ne n)|done]. }
  unfold schedule_node. rewrite Ha.
  eapply (succeeds_bind _ _ _ (λ v w', v = full_vm u r ∧ w' = w)); [by apply succeeds_ret|]. intros v w1 _ [-> ->].
  eapply succeeds_bind; [apply succeeds_wrap; by eapply update_status_succeeds|].
  intros [] w1 Hc1 (Hm1 & Hn1 & r1 & Hv1 & Hr1). cbv zeta.
  change (assigned (vm_set_status VMStatusRunning (full_vm u r))) with (assigned (full_vm u r)). rewrite Ha.
  change (publisher service) with (Some (nats_EventPublisher (U:=U))).
  eapply succeeds_bind.
  { apply succeeds_ignore, (publish_start_succeeds _ n cs); [done|simpl; by rewrite Hn|done|done]. }
  intros [] w2 Hc2 (_ & Hd2 & sshKey & Hm2).
  eapply succeeds_bind; [by apply succeeds_ignore, succeeds_publish|].
  intros [] w3 Hc3 (_ & Hd3 & Hm3). apply succeeds_ret; [done|]. split_and!; [done| |].
  - unfold pg_key. rewrite Hu. simpl. rewrite Hd3, Hd2, view_lookup, Hv1, lookup_insert_eq. simpl. by rewrite Hr1.
  - exists sshKey. rewrite Hm3, Hm2, Hm1. unfold node_label. rewrite Hn1. by rewrite <-(assoc_L (++)).
Qed.

(** * The request *)
Definition power_on_request (id : string) : Request :=
  mkRequest "POST" (action_path id "power-on") [("X-API-Key", validKey)] [] "".

Lemma power_on_runs id w : segments id = [id] → id ≠ "" → validKey ≠ "" →
  http_server service Ping validKey (power_on_request id) w
  = (resp ← h_PowerOnVM service id; mret (add_headers cors_headers resp)) w.
Proof.
  intros Hid Hne Hk. by apply (keyed_request_runs pg_abs pg_key service Ping validKey "POST" _ [] "" EpPowerOnVM id), power_on_route.
Qed.

(** The last message of the queue is delivered and acknowledged. *)
Lemma deliver_last n q0 subj data hw hw' (y : Sys (U:=U)) : y_nodes y !! n = Some hw → y_queue y = q0 ++ [(subj, data)] →
  consumes n subj = true → agent_handles agents n data hw = (Ret (), hw') → last (h_log hw') = Some Ack →
  sys_deliver agents n (length q0) y = Some (Ack, mkSys (y_cp y) (y_tasks y) q0 (<[n := hw']> (y_nodes y))).
Proof using.
  intros Hn Hq Hc Hh Hl. unfold sys_deliver. rewrite Hn, Hq, list_lookup_middle by done. cbn [mbind option_bind fst snd].
  rewrite Hc, Hh. cbn [snd]. rewrite Hl. cbn [option_bind]. do 3 f_equal.
  rewrite delete_take_drop, take_app_length, drop_ge; [by rewrite app_nil_r|]. rewrite length_app. simpl. lia.
Qed.

(** C4: From the request to the machine.  When no statement is refused, the
    stream keeps what it gets and nothing fails on the node, a request to
    power on a machine that may be started and has a node and an address is
    answered 200 with the machine running; it is stored running; the queue gets
    one message; delivered to the agent of the machine's node it makes the
    agent run QEMU with that machine, report success and acknowledge; then the
    queue is as before and no other node has changed. *)
Theorem power_on_starts_machine id u r k cs hw (y : Sys (U:=U)) :
  let w := y_cp y in
  let n := node_label (w_db w) k in
  let vm := vm_set_status VMStatusRunning (full_vm u r) in
  segments id = [id] → id ≠ "" → validKey ≠ "" →
  calm w → uuid_in id = Some u → t_vms (w_db w) !! u = Some r →
  power_on_guard (vm_Status (vr_val r)) → vr_node r = Some k →
  nic_configs (vm_ID vm) (vm_NetworkInterfaces vm) = Ret cs → fits_types vm →
  (∃ nic, nic ∈ vm_NetworkInterfaces vm ∧ first_address nic ≠ "") →
  y_nodes y !! n = Some hw → AgentLive.untroubled hw →
  ∃ resp y1 y2 hw' sshKey q kvm before,
    sys_request imagesDir validKey Ping (power_on_request id) y = (Ret resp, y1) ∧
    rs_Status resp = StatusOK ∧ rs_Body resp = BJson (VVM vm) ∧
    a_vms (pg_abs (y_cp y1)) !! pg_key id = Some (vm_untimed vm) ∧
    y_queue y1 = y_queue y ++ [(SubjectForNode n "start", Marshal (start_command vm sshKey cs))] ∧
    sys_deliver agents n (length (y_queue y)) y1 = Some (Ack, y2) ∧
    y_cp y2 = y_cp y1 ∧ y_queue y2 = y_queue y ∧ y_nodes y2 = <[n := hw']> (y_nodes y) ∧
    describes vm cs q ∧
    h_log hw' = h_log hw ++ before ++
      [Exec ("qemu-system-x86_64" :: qemu_args (ag_baseDir (agents n)) q kvm);
       Published ("events.vm." +:+ vm_ID vm +:+ ".start") (Marshal (result_json (vm_ID vm) "start" "success" ""));
       Ack].
Proof.
  intros w n vm Hid Hne Hk Hc Hu Hr Hg Hn Hcs Hf Hip Hhw Hun.
  assert (Hcs0 : cs ≠ []).
  { intros ->. destruct Hip as (nic & Hin & _). change (vm_NetworkInterfaces vm) with (vm_NetworkInterfaces (full_vm u r)) in *.
    destruct (vm_NetworkInterfaces (full_vm u r)) as [|x l]; [by apply not_elem_of_nil in Hin|].
    simpl in Hcs. by repeat case_match. }
  destruct (power_on_succeeds id u r k cs w Hc Hu Hr Hg Hn Hcs Hcs0) as (v & w' & E & Hc' & -> & Hst & sshKey & Hm).
  fold vm in E, Hst, Hm.
  destruct (AgentLive.start_command_live (ag_prog (agents n)) (ag_baseDir (agents n)) (ag_imagesDir (agents n)) vm sshKey cs hw Hcs Hf Hip Hun)
    as (hw' & q & kvm & before & Eh & Hd & Hl).
  assert (Hq : y_queue (cp_moves w' (y_tasks y) y) = y_queue y ++ [(SubjectForNode n "start", Marshal (start_command vm sshKey cs))]).
  { simpl. unfold published. rewrite Hm, drop_app_length.
    apply (f_equal (app (y_queue y))), (queue_command n "start" _ id "started"). }
  eexists _, (cp_moves w' (y_tasks y) y), _, hw', sshKey, q, kvm, before. split_and!.
  - unfold sys_request. rewrite power_on_runs by done. unfold h_PowerOnVM, answer, attempt, mbind, M_bind.
    change (y_cp y) with w. rewrite E. reflexivity.
  - done.
  - done.
  - done.
  - exact Hq.
  - eapply deliver_last; [exact Hhw|exact Hq|apply consumes_own|exact Eh|]. rewrite Hl, !last_app. done.
  - done.
  - done.
  - done.
  - exact Hd.
  - exact Hl.
Qed.
End end_to_end.
