(* ===== verification/SystemWitnesses.v ===== *)
(** Concrete runs of the whole system: the hypotheses of the theorems of [System]
    and [EndToEnd] hold of it, and a start command that comes again after the
    machine was powered off. *)
From stdpp Require Import base gmap strings list numbers relations.
From S2P Require Import Prelude.
From S2P Require Import GoStd.
From S2P Require Import GoJson.
From S2P Require Import Ipam.
From S2P Require Import Domain.
From S2P Require Import Interfaces.
From S2P Require Import Puller.
From S2P Require Import ControlPlane.
From S2P Require Import VMService.
From S2P Require Import PgControl.
From S2P Require Import PgSound.
From S2P Require Import Deployment.
From S2P Require Import Witnesses.
From S2P Require Import Host.
From S2P Require Import Qemu.
From S2P Require Import Agent.
From S2P Require Import AgentProofs.
From S2P Require Import AgentCommands.
From S2P Require AgentLive.
From S2P Require Import AgentWitnesses.
From S2P Require Import Http.
From S2P Require Import Requests.
From S2P Require Import Handlers.
From S2P Require Import HandlerWitnesses.
From S2P Require Import Config.
From S2P Require Import Background.
From S2P Require Import Answers.
From S2P Require Import Messages.
From S2P Require Import System.
From S2P Require Import EndToEnd.
From S2P Require Import RuntimeWitnesses.
From stdpp Require Import options.

Abbreviation Sys0 := (Sys (U:=text)).
Definition agents0 (n : string) : AgentConf := mkAgentConf prog0 base0 images0.
Definition tasks0 : list (goroutine W0) := [GResume puller0; GReconcile].
Definition y_start : Sys0 := mkSys w0 tasks0 [] {["node-1" := w_start]}.

Definition request0 (r : Request) (y : Sys0) : Sys0 := (sys_request "" "secret" ping r y).2.
Definition deliver0 (i : nat) (y : Sys0) : Sys0 := (default (Nak, y) (sys_deliver agents0 "node-1" i y)).2.
Definition power_on_rq : Request := power_on_request "secret" "vm-run".

(** Powered off, and the stop command delivered. *)
Definition y_asked : Sys0 := request0 power_off_rq y_start.
Definition y_off : Sys0 := deliver0 0 y_asked.

Lemma says_ping : says (U:=text) ping.
Proof. by apply says_nothing. Qed.

(** * Runs *)
Abbreviation step0 := (sys_step "" "secret" agents0 ping).
Abbreviation run0 := (sys_run "" "secret" agents0 ping).

Definition taken (i : nat) (y : Sys0) : option queued :=
  match sys_deliver agents0 "node-1" i y with Some _ => y_queue y !! i | None => None end.

Lemma asks r y : step0 y LControl (request0 r y).
Proof. unfold request0. destruct (sys_request "" "secret" ping r y) as [o y'] eqn:E. by apply (sys_req _ _ _ _ r o). Qed.
Lemma takes i m y : taken i y = Some m → step0 y (LTakes "node-1" m) (deliver0 i y).
Proof.
  unfold taken, deliver0. destruct (sys_deliver agents0 "node-1" i y) as [[a y']|] eqn:E; [|done].
  intros Hm. by apply (sys_take _ _ _ _ "node-1" i m a).
Qed.

Definition stop_text : string := Marshal (power_command "stop" "vm-run" true).
Definition m_stop : queued := ("commands.node.node-1.stop", stop_text).

Lemma agents_obey_witness : ∃ ls,
  run0 y_start ls y_off ∧ LTakes "node-1" m_stop ∈ ls ∧
  ∃ node j, ("commands.node.node-1.stop", j) ∈ w_msgs (y_cp y_off) ∧ stop_text = Marshal j ∧
    command_for node ("commands.node.node-1.stop", j) ∧ (no_dot node → no_dot "node-1" → "node-1" ≠ "*" → node = "node-1").
Proof.
  assert (Hrun : run0 y_start [LTakes "node-1" m_stop; LControl] y_off).
  { apply (run_snoc _ _ _ _ _ [LControl] _ y_asked); [apply (run_snoc _ _ _ _ _ [] _ y_start); [apply run_nil|apply asks]|].
    apply takes. vm_compute. reflexivity. }
  assert (Hin : LTakes "node-1" m_stop ∈ [LTakes "node-1" m_stop; LControl]) by left.
  exists [LTakes "node-1" m_stop; LControl]. split; [exact Hrun|]. split; [exact Hin|].
  apply (agents_obey_control_plane "" "secret" agents0 ping says_ping y_start [LTakes "node-1" m_stop; LControl] y_off "node-1" m_stop);
    [|exact Hrun|exact Hin].
  split; [reflexivity|]. split; [reflexivity|]. eexists. split; reflexivity.
Defined.

(** * A start *)
Definition u_run : text := id "vm-run" I.
Definition r_off : vm_row (U:=text) := default (mkVMRow None (a_vm "" VMStatusError) [] []) (t_vms (w_db (y_cp y_off)) !! u_run).
Definition vm_on : VirtualMachine := vm_set_status VMStatusRunning (full_vm u_run r_off).
Definition cs_on : list (string * json) :=
  match nic_configs (vm_ID vm_on) (vm_NetworkInterfaces vm_on) with Ret cs => cs | _ => [] end.
Definition hw_off : HW := default w_start (y_nodes y_off !! "node-1").

Lemma power_on_starts_witness :
  ∃ resp y1 y2 hw' sshKey q kvm before,
    sys_request "" "secret" ping power_on_rq y_off = (Ret resp, y1) ∧
    rs_Status resp = StatusOK ∧ rs_Body resp = BJson (VVM vm_on) ∧
    a_vms (pg_abs (y_cp y1)) !! pg_key (U:=text) "vm-run" = Some (vm_untimed vm_on) ∧
    y_queue y1 = y_queue y_off ++ [(SubjectForNode "node-1" "start", Marshal (start_command vm_on sshKey cs_on))] ∧
    sys_deliver agents0 "node-1" (length (y_queue y_off)) y1 = Some (Ack, y2) ∧
    y_cp y2 = y_cp y1 ∧ y_queue y2 = y_queue y_off ∧ y_nodes y2 = <["node-1" := hw']> (y_nodes y_off) ∧
    describes vm_on cs_on q ∧
    h_log hw' = h_log hw_off ++ before ++
      [Exec ("qemu-system-x86_64" :: qemu_args base0 q kvm);
       Published ("events.vm." +:+ vm_ID vm_on +:+ ".start") (Marshal (result_json (vm_ID vm_on) "start" "success" ""));
       Ack].
Proof.
  refine (power_on_starts_machine "" "secret" agents0 ping "vm-run" u_run r_off (id "n1" I) cs_on hw_off y_off _ _ _ _ _ _ _ _ _ _ _ _ _);
    [reflexivity|done|done|split; reflexivity|reflexivity|vm_compute; reflexivity|by left|vm_compute; reflexivity|
     vm_compute; reflexivity| | |vm_compute; reflexivity|].
  - unfold fits_types, in_int32, in_int64. repeat split; vm_compute; first [discriminate | reflexivity].
  - eexists. split; [|]; [vm_compute; left|done].
  - split; [|split; [|split]]; try (vm_compute; reflexivity). eexists _, _. vm_compute. reflexivity.
Defined.

(** * A start that comes too late

    The start of the machine fails once on the node and is given back; its owner
    powers the machine off, and the stop succeeds, there being nothing to stop;
    then the start comes again and succeeds.  The machine is stored stopped, no
    message is left, and the last program the node ran is its QEMU. *)
Definition failing (e : string) (y : Sys0) : Sys0 :=
  mkSys (y_cp y) (y_tasks y) (y_queue y) (<["node-1" :=
    let w := default w_start (y_nodes y !! "node-1") in
    mkHW (h_files w) (h_dirs w) (h_clock w) (h_log w) [Some e] (h_delays w) (h_conns w) (h_results w) (h_alive w)]> (y_nodes y)).

Definition y_on : Sys0 := request0 power_on_rq y_off.
Definition y_failed : Sys0 := deliver0 0 (failing "no space left on device" y_on).
Definition y_stopped : Sys0 := request0 power_off_rq y_failed.
Definition y_late : Sys0 := deliver0 0 (deliver0 1 y_stopped).

Definition is_program (e : sys_event) : bool := match e with Exec _ => true | _ => false end.
Definition last_program (y : Sys0) : option string :=
  w ← y_nodes y !! "node-1";
  match List.filter is_program (rev (h_log w)) with Exec (p :: _) :: _ => Some p | _ => None end.

Example late_start_after_power_off : ∃ ls,
  run0 y_start ls y_late ∧
  (y_queue y_failed).*1 = ["commands.node.node-1.start"] ∧
  (y_queue y_stopped).*1 = ["commands.node.node-1.start"; "commands.node.node-1.stop"] ∧
  status_in (y_cp y_stopped) "vm-run" = Some VMStatusStopped ∧ last_program y_stopped = None ∧
  status_in (y_cp y_late) "vm-run" = Some VMStatusStopped ∧ y_queue y_late = [] ∧
  last_program y_late = Some "qemu-system-x86_64".
Proof.
  assert (Hs : ∀ i y, is_Some (taken i y) → ∃ m, step0 y (LTakes "node-1" m) (deliver0 i y)).
  { intros i y [m Hm]. exists m. by apply takes. }
  destruct (Hs 0 y_asked) as [m1 H1]; [eexists; vm_compute; reflexivity|].
  destruct (Hs 0 (failing "no space left on device" y_on)) as [m2 H2]; [eexists; vm_compute; reflexivity|].
  destruct (Hs 1 y_stopped) as [m3 H3]; [eexists; vm_compute; reflexivity|].
  destruct (Hs 0 (deliver0 1 y_stopped)) as [m4 H4]; [eexists; vm_compute; reflexivity|].
  eexists. split.
  - do 2 (eapply run_snoc; [|eassumption]). eapply run_snoc; [|apply asks]. eapply run_snoc; [|exact H2].
    eapply run_snoc; [|apply sys_node]. eapply run_snoc; [|apply asks]. eapply run_snoc; [|exact H1].
    eapply run_snoc; [|apply asks]. apply run_nil.
  - vm_compute. split_and!; reflexivity.
Qed.
