(* ===== verification/Contention.v ===== *)
(** Creating machines at the same time: an address is picked in one statement and
    stored in another, so that two requests may pick the same one; the unique
    index of the table refuses the second, and [CreateVM] tries again, three times
    in all.

    The loop of [CreateVM] is cut at its calls of the database, and any number of
    such loops run in any order.  Theorems: one loop by itself is the loop of the
    code; among three machines with one interface created at the same time on one
    network all are stored, with different addresses, whatever the order; among four one may be
    refused although there are free addresses. *)
From stdpp Require Import base gmap strings list numbers relations pretty.
From S2P Require Import Prelude.
From S2P Require Import GoStd.
From S2P Require Import GoNet.
From S2P Require Import Ipam.
From S2P Require Import Domain.
From S2P Require Import Interfaces.
From S2P Require Import Puller.
From S2P Require Import ControlPlane.
From S2P Require Import PgControl.
From S2P Require Import PgSound.
From S2P Require Import Deployment.
From stdpp Require Import options.

#[local] Set Default Proof Using "Type*".

(** * What the allocator gives *)
Lemma allocated_unused cidr n used a gw : is_v4_block cidr n → NextAvailableIP cidr used = Ret (a, gw) → a ∉ used.
Proof.
  intros Hb E Hin. pose proof (NextAvailableIP_v4 cidr n used Hb) as H. rewrite E in H.
  destruct H as (c & (Hh & Hc & _) & -> & _). apply Hc. unfold used_addrs. apply elem_of_list_to_set, list_elem_of_omap.
  eexists. split; [exact Hin|]. apply used_addr_cidr_text; destruct (v4_block_bounds _ _ Hb); unfold host, in_uint32 in *; lia.
Qed.

Lemma allocation_room cidr n used : is_v4_block cidr n → (Z.of_nat (length used) < capacity n)%Z →
  ∃ a gw, NextAvailableIP cidr used = Ret (a, gw).
Proof.
  intros Hb Hlen. pose proof (NextAvailableIP_v4 cidr n used Hb) as H.
  destruct (NextAvailableIP cidr used) as [[a gw]|e|]; [by eauto| |done]. exfalso.
  set (hosts := seqZ ((block n).1 + 2) (capacity n)).
  assert (Hsub : hosts ⊆+ omap used_addr used).
  { apply NoDup_submseteq; [apply NoDup_seqZ|]. intros c Hc%elem_of_seqZ.
    assert (c ∈ used_addrs used) as Hu by (apply H; unfold host, capacity in *; lia).
    unfold used_addrs in Hu. by apply elem_of_list_to_set in Hu. }
  apply submseteq_length in Hsub. unfold hosts in Hsub. rewrite length_seqZ in Hsub.
  assert (length (omap used_addr used) ≤ length used) by (clear; induction used as [|x l IH]; csimpl; [done|destruct (used_addr x); simpl; lia]).
  lia.
Qed.

(** * The rows of a machine that is being created *)
Section rows.
Context {U : Type} `{Pg U, !PgLaws U}.
Abbreviation World := (PgControl.World (U:=U)).
Abbreviation DB := (PgControl.DB (U:=U)).
Abbreviation vm_row := (PgControl.vm_row (U:=U)).

(** The ids a machine with one interface needs, and the MAC addresses it may get. *)
Record plan := mkPlan {
  pl_id : U;
  pl_disks : list (disk_row (U:=U));
  pl_nic : U;
  pl_macs : list string;
}.

(** The references of the machine hold. *)
Definition vm_ready (d : DB) (vm : VirtualMachine) (p : plan) : Prop :=
  uuid_in (vm_ID vm) = Some (pl_id p) ∧
  ∃ node org proj ssh, uuid_opt (vm_NodeID vm) = Ret node ∧ fk_broken (t_nodes d) node = false ∧
    uuid_arg (vm_OrganizationID vm) = Ret (org : U) ∧ uuid_opt (vm_ProjectID vm) = Ret (proj : option U) ∧
    uuid_opt (vm_SSHKeyID vm) = Ret (ssh : option U).
Definition disk_ready (d : DB) (disk : Disk) (r : disk_row (U:=U)) : Prop :=
  uuid_arg (disk_ID disk) = Ret (dk_id r) ∧ existsb (String.eqb (disk_Type disk)) disk_types = true ∧
  uuid_nullif (disk_ImageID disk) = Ret (dk_image r) ∧ fk_broken (t_images d) (dk_image r) = false ∧ dk_val r = disk.
(** The interface, on the network [net], with the address [a]. *)
Definition nic_ready (net : U) (a : string) (nic : NetworkInterface) (p : plan) : Prop :=
  uuid_arg (nic_ID nic) = Ret (pl_nic p) ∧ uuid_nullif (nic_NetworkID nic) = Ret (Some net) ∧
  nic_IPv4Addresses nic = [a] ∧ nic_IPv6Addresses nic = [] ∧ inet_in a = Some a ∧ nic_MACAddress nic ∈ pl_macs p.

Definition realises (d : DB) (net : U) (p : plan) (a : string) (vm : VirtualMachine) : Prop :=
  vm_ready d vm p ∧ Forall2 (disk_ready d) (vm_Disks vm) (pl_disks p) ∧ NoDup (dk_id <$> pl_disks p) ∧
  ∃ nic, vm_NetworkInterfaces vm = [nic] ∧ nic_ready net a nic p.

(** Another machine's rows do not use these ids or MAC addresses. *)
Definition apart_from (p : plan) (r : vm_row) : Prop :=
  (∀ x, x ∈ vr_disks r → dk_id x ∉ dk_id <$> pl_disks p) ∧
  (∀ x, x ∈ vr_nics r → nk_id x ≠ pl_nic p ∧ nic_MACAddress (nk_val x) ∉ pl_macs p).
Definition unused_by (p : plan) (d : DB) : Prop :=
  t_vms d !! pl_id p = None ∧ map_Forall (λ _, apart_from p) (t_vms d).

(** An interface on [net] has the address [a]. *)
Definition holds (net : U) (a : string) (r : vm_row) : Prop :=
  ∃ x l, x ∈ vr_nics r ∧ nk_net x = Some net ∧ nic_IPv4Addresses (nk_val x) = a :: l.
Definition taken (net : U) (a : string) (d : DB) : Prop := ∃ u r, t_vms d !! u = Some r ∧ holds net a r.

(** The row that is stored. *)
Definition stored_as (net : U) (p : plan) (a : string) (r : vm_row) : Prop :=
  vr_disks r = pl_disks p ∧ ∃ x, vr_nics r = [x] ∧ nk_id x = pl_nic p ∧ nk_net x = Some net ∧
    nic_IPv4Addresses (nk_val x) = [a] ∧ nic_MACAddress (nk_val x) ∈ pl_macs p.

(** ** Statements, when nothing is refused *)
Lemma exec_calm (f : DB → outcome DB) w : calm w →
  exec f w = match f (w_db w) with Ret d => (Ret (), set_db (tick d) w) | Err e => (Err e, w) | Panic => (Panic, w) end.
Proof using.
  intros [Hf _]. unfold exec, stmt. rewrite Hf.
  assert (Ep : pop_fault w = w) by (by destruct w; simpl in *; subst).
  by destruct (f (w_db w)); simpl; rewrite ?Ep.
Qed.

Lemma elem_of_disks (d : DB) x : x ∈ all_disks d ↔ ∃ r, t_vms d !! x.1 = Some r ∧ x.2 ∈ vr_disks r.
Proof using.
  unfold all_disks. rewrite list_elem_of_bind. split.
  - intros ([u r] & (y & -> & Hy)%list_elem_of_fmap & Hr%elem_of_map_to_list). by exists r.
  - destruct x as [u y]. intros (r & Hr & Hy). exists (u, r). split; [by apply list_elem_of_fmap_2|by apply elem_of_map_to_list].
Qed.
Lemma elem_of_nics (d : DB) x : x ∈ all_nics d ↔ ∃ r, t_vms d !! x.1 = Some r ∧ x.2 ∈ vr_nics r.
Proof using.
  unfold all_nics. rewrite list_elem_of_bind. split.
  - intros ([u r] & (y & -> & Hy)%list_elem_of_fmap & Hr%elem_of_map_to_list). by exists r.
  - destruct x as [u y]. intros (r & Hr & Hy). exists (u, r). split; [by apply list_elem_of_fmap_2|by apply elem_of_map_to_list].
Qed.
Lemma existsb_none {A} (f : A → bool) (l : list A) : (∀ x, x ∈ l → f x = false) → existsb f l = false.
Proof using.
  intros Hl. apply not_true_is_false. intros (x & Hx & Hf)%existsb_exists. apply list_elem_of_In in Hx.
  rewrite (Hl x Hx) in Hf. done.
Qed.

(** ** The three kinds of rows *)
Section one.
Context (d0 : DB) (p : plan) (m : gmap U vm_row) (vm : VirtualMachine).
Context (Hnew : m !! pl_id p = None) (Hapart : map_Forall (λ _, apart_from p) m).
Context (Hvm : vm_ready d0 vm p).
Abbreviation u := (pl_id p).
(** The database while the machine has the row [r]. *)
Abbreviation having r t := (db_with (<[u := r]> m) t d0).

Lemma insert_vm_ready : t_vms d0 = m → ∃ node v, insert_vm vm d0 = Ret (on_t_vms <[u := mkVMRow node v [] []]> d0).
Proof.
  intros Em. destruct Hvm as (Hid & node & org & proj & ssh & Hn & Hfk & Ho & Hp & Hs).
  assert (Hid' : uuid_arg (vm_ID vm) = Ret u) by (unfold uuid_arg; by rewrite Hid).
  unfold insert_vm. rewrite Hid', Hn, Ho, Hp, Hs. unfold vm_exists.
  cbn -[fk_broken]. rewrite Em, Hnew, bool_decide_eq_false_2 by (by intros [? ?]). rewrite Hfk. by eexists _, _.
Qed.

Lemma insert_disk_ready r t disk dr : disk_ready d0 disk dr → dk_id dr ∈ dk_id <$> pl_disks p →
  dk_id dr ∉ dk_id <$> vr_disks r →
  insert_disk (vm_ID vm) disk (having r t) = Ret (having (vm_add_disk dr r) t).
Proof.
  intros (Hid & Hty & Him & Hfk & Hv) Hp Hr. destruct Hvm as (Hu & _).
  assert (Hu' : uuid_arg (vm_ID vm) = Ret u) by (unfold uuid_arg; by rewrite Hu).
  unfold insert_disk. rewrite Hid, Hu', Hty, Him. cbn.
  rewrite existsb_none, Hfk.
  2:{ intros [v y] (r' & Hr' & Hy)%elem_of_disks. cbn in Hr', Hy |- *. apply bool_decide_eq_false_2. intros Ey.
      apply lookup_insert_Some in Hr' as [[<- <-]|[Hne Hr']].
      - apply Hr. rewrite <-Ey. by apply list_elem_of_fmap_2.
      - destruct (Hapart v r' Hr') as [Hd _]. apply (Hd y Hy). by rewrite Ey. }
  unfold vm_exists. cbn. rewrite lookup_insert_eq. rewrite bool_decide_eq_true_2 by (by eexists). cbn. f_equal.
  unfold on_t_vms, db_with. cbn. f_equal. rewrite alter_insert_eq. f_equal. destruct dr; simpl in *; by subst.
Qed.

Lemma same_ip_spec net a (x : nic_row (U:=U)) : same_ip (Some net) [a] x = true ↔
  nk_net x = Some net ∧ ∃ l, nic_IPv4Addresses (nk_val x) = a :: l.
Proof using.
  unfold same_ip. destruct (nk_net x) as [n'|]; [|naive_solver]. destruct (nic_IPv4Addresses (nk_val x)) as [|b l]; [naive_solver|].
  rewrite andb_true_iff, bool_decide_eq_true, String.eqb_eq. naive_solver.
Qed.

Lemma insert_nic_ready r t net a nic : nic_ready net a nic p → vr_nics r = [] →
  ((∃ v r', m !! v = Some r' ∧ holds net a r') ∧
   insert_nic (vm_ID vm) nic (having r t) = Err (dup_error "idx_vm_nics_unique_ip_per_network")) ∨
  (¬ (∃ v r', m !! v = Some r' ∧ holds net a r') ∧
   ∃ x, insert_nic (vm_ID vm) nic (having r t) = Ret (having (vm_add_nic x r) t) ∧ nk_id x = pl_nic p ∧
     nk_net x = Some net ∧ nic_IPv4Addresses (nk_val x) = [a] ∧ nic_MACAddress (nk_val x) ∈ pl_macs p).
Proof.
  intros (Hid & Hnet & H4 & H6 & Ha & Hmac) Hr. destruct Hvm as (Hu & _).
  assert (Hu' : uuid_arg (vm_ID vm) = Ret u) by (unfold uuid_arg; by rewrite Hu).
  assert (Hnics : ∀ x, x ∈ all_nics (having r t) → ∃ r', m !! x.1 = Some r' ∧ x.2 ∈ vr_nics r').
  { intros x (r' & Hr' & Hx)%elem_of_nics. cbn in Hr'.
    apply lookup_insert_Some in Hr' as [[_ <-]|[_ Hr']]; [rewrite Hr in Hx; by apply not_elem_of_nil in Hx|by exists r']. }
  unfold insert_nic. rewrite Hid, Hu', Hnet, H4, H6. cbn [inet_args]. rewrite Ha. cbn [mbind outcome_bind].
  rewrite existsb_none.
  2:{ intros x (r' & Hr' & Hx)%Hnics. apply bool_decide_eq_false_2. intros Ex. by destruct (Hapart _ _ Hr') as [_ Hn]; destruct (Hn _ Hx). }
  destruct (existsb (λ ur, same_ip (Some net) [a] ur.2) (all_nics (having r t))) eqn:E.
  - left. split; [|done]. apply existsb_exists in E as (x & Hx%list_elem_of_In & Hs%same_ip_spec).
    destruct (Hnics x Hx) as (r' & Hr' & Hx'). destruct Hs as (Hn & l & Hl). exists x.1, r'. split; [done|]. by exists x.2, l.
  - right. split.
    + intros (v & r' & Hv & x & l & Hx & Hn & Hl). apply not_true_iff_false in E. apply E, existsb_exists. exists (v, x). split.
      * apply list_elem_of_In, elem_of_nics. exists r'. split; [|done]. cbn. rewrite lookup_insert_ne; [done|]. intros <-. by rewrite Hnew in Hv.
      * apply same_ip_spec. eauto.
    + rewrite existsb_none.
      2:{ intros x (r' & Hr' & Hx)%Hnics. unfold same_mac. destruct (Hapart _ _ Hr') as [_ Hn]. destruct (Hn _ Hx) as [_ Hm].
          destruct (String.eqb_spec (nic_MACAddress nic) (nic_MACAddress (nk_val x.2))) as [E'|]; [|by rewrite andb_false_r].
          by rewrite E' in Hmac. }
      unfold vm_exists. cbn. rewrite lookup_insert_eq, bool_decide_eq_true_2 by (by eexists). cbn.
      exists (mkNICRow (pl_nic p) (Some net) (mkNIC "" (nic_Name nic) "" (nic_MACAddress nic) [a] [] (nic_IsPrimary nic))).
      split; [|by split_and!]. f_equal. unfold on_t_vms, db_with. cbn. f_equal. by rewrite alter_insert_eq.
Qed.

Lemma disks_inserted w disks rows : calm w → ∀ r t, Forall2 (disk_ready d0) disks rows →
  NoDup (dk_id <$> (vr_disks r ++ rows)) → (∀ x, x ∈ rows → dk_id x ∈ dk_id <$> pl_disks p) →
  ∃ t', iterM (λ disk, wrap "vm_repo: insert disk" (exec (insert_disk (vm_ID vm) disk))) disks (set_db (having r t) w)
        = (Ret (), set_db (having (mkVMRow (vr_node r) (vr_val r) (vr_disks r ++ rows) (vr_nics r)) t') w).
Proof.
  intros Hc r t Hall. revert r t. induction Hall as [|disk dr disks rows Hd Hall IH]; intros r t Hnd Hin.
  { exists t. rewrite app_nil_r. by destruct r. }
  unfold iterM in *. cbn [foldM]. unfold mbind, M_bind, wrap. rewrite exec_calm by done. cbn [w_db set_db].
  rewrite (insert_disk_ready r t disk dr Hd); [|apply Hin; left|].
  - destruct (IH (vm_add_disk dr r) (t + 1)%Z) as [t' E].
    + unfold vm_add_disk. cbn. by rewrite <-(assoc_L (++)).
    + intros x Hx. apply Hin. by right.
    + exists t'. unfold vm_add_disk in E. cbn in E. rewrite <-(assoc_L (++)) in E. exact E.
  - rewrite fmap_app, fmap_cons in Hnd. apply NoDup_app in Hnd as (_ & Hdis & _). intros Hx. apply (Hdis _ Hx). left.
Qed.
End one.

Lemma having_self (d : DB) (f : gmap U vm_row → gmap U vm_row) : tick (on_t_vms f d) = db_with (f (t_vms d)) (t_now d + 1) d.
Proof using. done. Qed.

(** [Create] when nothing is refused: the machine is stored, unless the address of
    its interface is taken, which is a violation of a unique index. *)
Lemma create_calm net p a vm (w : World) : calm w → realises (w_db w) net p a vm → unused_by p (w_db w) →
  (taken net a (w_db w) ∧ ∃ e, VMRepo_Create vm w = (Err e, w) ∧ isUniqueViolation e = true) ∨
  (¬ taken net a (w_db w) ∧ ∃ r t, stored_as net p a r ∧
     VMRepo_Create vm w = (Ret (), set_db (db_with (<[pl_id p := r]> (t_vms (w_db w))) t (w_db w)) w)).
Proof.
  intros Hc (Hvm & Hdisks & Hnd & nic & Hns & Hnic) [Hnew Hap]. set (d := w_db w) in *.
  destruct (insert_vm_ready d p (t_vms d) vm Hnew Hap Hvm eq_refl) as (node & v & Ev).
  destruct (disks_inserted d p (t_vms d) vm Hnew Hap Hvm w (vm_Disks vm) (pl_disks p) Hc (mkVMRow node v [] []) (t_now d + 1)%Z Hdisks)
    as [t Ed]; [done|by intros x Hx; apply list_elem_of_fmap_2|].
  set (r := mkVMRow node v (pl_disks p) []) in *.
  assert (E : VMRepo_Create vm w = transaction (λ _,
    (_ ← iterM (λ nic, wrap "vm_repo: insert nic" (exec (insert_nic (vm_ID vm) nic))) (vm_NetworkInterfaces vm);
     query (λ _, Ret ())) (set_db (db_with (<[pl_id p := r]> (t_vms d)) t d) w)) w).
  { unfold VMRepo_Create, transaction. f_equal. unfold mbind at 1, M_bind at 1, wrap at 1. rewrite query_calm by done.
    unfold mbind at 1, M_bind at 1, wrap at 1. rewrite exec_calm by done. fold d. rewrite Ev, having_self.
    unfold mbind at 1, M_bind at 1. by rewrite Ed. }
  rewrite E, Hns. unfold transaction, iterM. cbn [foldM]. unfold mbind, M_bind, wrap.
  rewrite exec_calm by done. cbn [w_db set_db].
  destruct (insert_nic_ready d p (t_vms d) vm Hnew Hap Hvm r t net a nic Hnic eq_refl) as [[Ht En]|[Ht (x & En & Hx)]]; rewrite En.
  - left. split; [exact Ht|].
    exists ("vm_repo: insert nic" +:+ ": " +:+ dup_error "idx_vm_nics_unique_ip_per_network").
    split; [|vm_compute; reflexivity]. f_equal. unfold d. by destruct w.
  - right. split; [exact Ht|]. exists (vm_add_nic x r), (t + 1)%Z. split.
    + split; [done|]. exists x. by split.
    + cbn [mret M_ret]. unfold mret, M_ret. by rewrite query_calm.
Qed.
End rows.

(** * Creations at the same time *)

(** Where a request to create a machine is, once the ids of the machine, its disks
    and interfaces are drawn and the networks are known: before the addresses of its
    interfaces are allocated; about to store the machine, the attempts made so
    far; after a violation of a unique index; done. *)
Inductive creation :=
| Starting (vm : VirtualMachine)
| Trying (att : nat) (vm : VirtualMachine)
| Colliding (att : nat) (vm : VirtualMachine) (err : string)
| Made (vm : VirtualMachine)
| GaveUp (err : string).

Definition give (ips : list string) (nic : NetworkInterface) : NetworkInterface :=
  mkNIC (nic_ID nic) (nic_Name nic) (nic_NetworkID nic) (nic_MACAddress nic) ips (nic_IPv6Addresses nic) (nic_IsPrimary nic).

Section turns.
Context {W : Type} (s : Service W).

(** One turn: the code up to the next call of the database another request may
    come before. *)
Definition create_turn (c : creation) : M W creation :=
  match c with
  | Starting vm =>
      r ← attempt (imapM (λ _ nic,
            ips ← allocate_first s ("allocate IP in network " +:+ nic_NetworkID nic) (nic_NetworkID nic);
            mret (give ips nic)) 0 (vm_NetworkInterfaces vm));
      mret (match r with inl nics => Trying 0 (vm_set_related (vm_Disks vm) nics vm) | inr e => GaveUp e end)
  | Trying att vm =>
      r ← attempt (VM_Create (vmRepo s) vm);
      mret (match r with
            | inl _ => Made vm
            | inr err => if isUniqueViolation err then Colliding att vm err else GaveUp ("create vm: " +:+ err)
            end)
  | Colliding att vm err =>
      nics ← imapM (λ _, realloc_nic s (vm_ID vm) ("-" +:+ pretty (N.of_nat att))) 0 (vm_NetworkInterfaces vm);
      mret (if bool_decide (att = 2) then GaveUp ("create vm: " +:+ err)
            else Trying (S att) (vm_set_related (vm_Disks vm) nics vm))
  | c => mret c
  end.

Definition over (c : creation) : bool := match c with Made _ | GaveUp _ => true | _ => false end.

(** A request by itself is the loop of [CreateVM]. *)
Fixpoint turns (k : nat) (c : creation) : M W creation :=
  match k with O => mret c | S k' => c' ← create_turn c; turns k' c' end.
Definition finish (c : creation) : M W VirtualMachine :=
  match c with Made vm => mret vm | GaveUp e => fail e | _ => panic end.

Lemma turns_over c k w : over c = true → turns k c w = (Ret c, w).
Proof using Type. intros Hc. induction k as [|k IH]; [done|]. by destruct c. Qed.

Lemma turns_loop k att vm w : att + S k = 3 →
  (c ← turns (2 * S k) (Trying att vm); finish c) w = create_loop s (S k) att vm w.
Proof using Type.
  revert att vm w. induction k as [|k IH]; intros att vm w Hk;
    [change (2 * 1) with 2|replace (2 * S (S k)) with (S (S (2 * S k))) by lia];
    cbn [turns create_loop]; cbn [create_turn]; unfold mbind, M_bind, attempt, mret, M_ret;
    (destruct (VM_Create (vmRepo s) vm w) as [[[]|e|] w1]; [..|done]);
    try (cbn [create_turn]; unfold mret, M_ret; by rewrite ?turns_over).
  all: destruct (isUniqueViolation e); [|cbn [create_turn]; unfold mret, M_ret; by rewrite ?turns_over].
  all: cbn [create_turn]; unfold mbind, M_bind, mret, M_ret;
    destruct (imapM (λ _ : nat, realloc_nic s (vm_ID vm) ("-" +:+ pretty (N.of_nat att))) 0 (vm_NetworkInterfaces vm) w1)
      as [[nics|e'|] w2]; [|done..].
  - rewrite bool_decide_eq_true_2 by lia. done.
  - rewrite bool_decide_eq_false_2 by lia. apply (IH (S att)). lia.
Qed.
End turns.

(** Requests in any order: one of them makes its next turn. *)
Inductive race_step {W} (s : Service W) : W * list creation → W * list creation → Prop :=
| race_turn i c c' w w' cs : cs !! i = Some c → over c = false → create_turn s c w = (Ret c', w') →
    race_step s (w, cs) (w', <[i := c']> cs).

(** ** Counting *)
Definition made (c : creation) : nat := match c with Made _ => 1 | _ => 0 end.
Definition made_count (cs : list creation) : nat := sum_list (made <$> cs).
(** The turns a request has left at most. *)
Definition weight (c : creation) : nat :=
  match c with Starting _ => 7 | Trying att _ => 2 * (3 - att) | Colliding att _ _ => 2 * (3 - att) - 1 | _ => 0 end.
Definition weights (cs : list creation) : nat := sum_list (weight <$> cs).

Lemma sum_insert (f : creation → nat) cs i c c' : cs !! i = Some c →
  sum_list (f <$> <[i := c']> cs) + f c = sum_list (f <$> cs) + f c'.
Proof.
  revert i. induction cs as [|x cs IH]; intros [|i]; csimpl; try done; [intros [= ->]; lia|]. intros Hi. specialize (IH i Hi). lia.
Qed.
Lemma made_le cs : made_count cs ≤ length cs.
Proof. unfold made_count. induction cs as [|[]]; csimpl; simpl; lia. Qed.
Lemma made_others cs i c : cs !! i = Some c → made c = 0 → made_count cs < length cs.
Proof.
  intros Hi Hm. pose proof (sum_insert made cs i c (Made (mkVM "" "" None "" None VMStatusError 0 0 "" "" false false false "" None None None None [] [] 0 0)) Hi) as Hs.
  pose proof (made_le (<[i := Made (mkVM "" "" None "" None VMStatusError 0 0 "" "" false false false "" None None None None [] [] 0 0)]> cs)) as Hl.
  unfold made_count in *. rewrite length_insert in Hl. simpl in *. lia.
Qed.

Section race.
Context {U : Type} `{Pg U, !PgLaws U}.
Abbreviation World := (PgControl.World (U:=U)).
Abbreviation DB := (PgControl.DB (U:=U)).
Abbreviation vm_row := (PgControl.vm_row (U:=U)).
Context (imagesDir : string) (js : bool).
Abbreviation s := (control_plane (U:=U) imagesDir js).

(** The network, its block, and the world at the start. *)
Context (w0 : World) (Hcalm : calm w0) (net : U) (cidr gw : string) (n : IPNet).
Context (Hblock : is_v4_block cidr n).
Context (Hinet : ∀ c, host n c → inet_in (cidr_text (PutUint32 c) (block n).2) = Some (cidr_text (PutUint32 c) (block n).2)).
Abbreviation d0 := (w_db w0).
(** The world when the machines are [m]. *)
Abbreviation world m t := (set_db (db_with m t d0) w0).

(** The addresses in use on the network. *)
Definition used_on (d : DB) : list string :=
  omap (λ ur, head (nic_IPv4Addresses (nk_val ur.2))) (filter (λ ur : U * nic_row (U:=U), nk_net ur.2 = Some net) (all_nics d)).

Lemma taken_used a d : taken net a d ↔ a ∈ used_on d.
Proof using.
  unfold used_on, taken. rewrite list_elem_of_omap. split.
  - intros (u & r & Hu & x & l & Hx & Hn & Ha). exists (u, x). rewrite list_elem_of_filter, elem_of_nics. simpl. rewrite Ha.
    split; [split; [done|by exists r]|done].
  - intros ([u x] & [Hn (r & Hr & Hx)%elem_of_nics]%list_elem_of_filter & Ha). simpl in *.
    destruct (nic_IPv4Addresses (nk_val x)) as [|b l] eqn:E; simplify_eq/=. exists u, r. split; [done|]. by exists x, l.
Qed.

Lemma used_insert m t u r : m !! u = None →
  length (used_on (db_with (<[u := r]> m) t d0)) ≤ length (vr_nics r) + length (used_on (db_with m t d0)).
Proof using.
  intros Hu. unfold used_on, all_nics. simpl.
  rewrite (map_to_list_insert m u r Hu). simpl. rewrite filter_app, omap_app, length_app.
  apply Nat.add_le_mono_r. rewrite <-(length_fmap (pair u) (vr_nics r)).
  generalize (pair u <$> vr_nics r). intros l. induction l as [|x l IH]; [done|].
  rewrite filter_cons. destruct (decide _); csimpl; [destruct (head _); simpl|]; lia.
Qed.

(** ** Allocation *)
Definition on_net (netID : string) : Prop :=
  netID ≠ "" ∧ uuid_arg netID = Ret net ∧ q_subnet netID d0 = Ret (cidr, gw).

Lemma alloc_ok netID m t : on_net netID → (Z.of_nat (length (used_on (db_with m t d0))) < capacity n)%Z →
  ∃ a g, IPAM_AllocateIP netID (world m t) = (Ret (a, g, cidr), world m t) ∧ inet_in a = Some a ∧ ¬ taken net a (db_with m t d0).
Proof using Hcalm Hblock Hinet.
  intros (_ & Hnet & Hsub) Hroom. destruct (allocation_room cidr n _ Hblock Hroom) as (a & gw2 & E).
  exists a, (if String.eqb gw "" then gw2 else gw). split_and!.
  - unfold IPAM_AllocateIP, mbind, M_bind, wrap, rows_err. rewrite !query_calm by done. cbn [w_db set_db].
    change (q_subnet netID (db_with m t d0)) with (q_subnet netID d0). rewrite Hsub.
    rewrite query_calm by done. cbn [w_db set_db].
    assert (Eu : q_used netID (db_with m t d0) = Ret (used_on (db_with m t d0))) by (unfold q_used; by rewrite Hnet).
    rewrite Eu, query_calm by done. cbn [fst snd]. by rewrite E.
  - pose proof (NextAvailableIP_v4 cidr n (used_on (db_with m t d0)) Hblock) as Hn. rewrite E in Hn.
    destruct Hn as (c & (Hh & _) & -> & _). by apply Hinet.
  - rewrite taken_used. by eapply allocated_unused.
Qed.

(** ** A machine on its way *)
Definition nic_ok (p : plan (U:=U)) (vm : VirtualMachine) (nic : NetworkInterface) : Prop :=
  uuid_arg (nic_ID nic) = Ret (pl_nic p) ∧ on_net (nic_NetworkID nic) ∧ nic_IPv6Addresses nic = [] ∧
  nic_MACAddress nic ∈ pl_macs p ∧
  ∀ att, att ≤ 2 → GenerateNICMAC (vm_ID vm) (nic_ID nic +:+ ("-" +:+ pretty (N.of_nat att))) ∈ pl_macs p.
Definition prepared (p : plan (U:=U)) (vm : VirtualMachine) : Prop :=
  vm_ready d0 vm p ∧ Forall2 (disk_ready d0) (vm_Disks vm) (pl_disks p) ∧ NoDup (dk_id <$> pl_disks p) ∧
  ∃ nic, vm_NetworkInterfaces vm = [nic] ∧ nic_ok p vm nic.
Definition at_address (a : string) (vm : VirtualMachine) : Prop :=
  ∃ nic, vm_NetworkInterfaces vm = [nic] ∧ nic_IPv4Addresses nic = [a] ∧ inet_in a = Some a.

Lemma prepared_realises p vm a m t : prepared p vm → at_address a vm → realises (db_with m t d0) net p a vm.
Proof using.
  intros (Hv & Hd & Hnd & nic & Hn & (Hid & (Hne & Hnet & _) & H6 & Hmac & _)) (nic' & Hn' & H4 & Hi).
  rewrite Hn in Hn'. injection Hn' as <-. split_and!; [exact Hv|exact Hd|exact Hnd|]. exists nic. split; [done|].
  split_and!; try done. unfold uuid_nullif. by rewrite (proj2 (String.eqb_neq _ _) Hne), Hnet.
Qed.
Lemma prepared_set p vm nic : prepared p vm → nic_ok p vm nic → prepared p (vm_set_related (vm_Disks vm) [nic] vm).
Proof using. intros (Hv & Hd & Hnd & _) Hn. split_and!; [exact Hv|exact Hd|exact Hnd|]. by exists nic. Qed.

Definition creation_inv (m : gmap U vm_row) (M : nat) (p : plan (U:=U)) (c : creation) : Prop :=
  let unused := m !! pl_id p = None ∧ map_Forall (λ _, apart_from p) m in
  match c with
  | Starting vm => prepared p vm ∧ unused
  | Trying att vm => prepared p vm ∧ unused ∧ ∃ a, at_address a vm ∧ att ≤ M ∧ (taken net a (db_with m 0 d0) → S att ≤ M)
  | Colliding att vm _ => prepared p vm ∧ unused ∧ S att ≤ M
  | Made vm => ∃ a r, at_address a vm ∧ m !! pl_id p = Some r ∧ stored_as net p a r
  | GaveUp _ => False
  end.

(** A new address, and what [pgx] then does with the machine. *)
Lemma turn_ok m t M p c : creation_inv m M p c → over c = false → M ≤ 2 →
  (Z.of_nat (length (used_on (db_with m t d0))) < capacity n)%Z →
  ∃ c' m' t', create_turn s c (world m t) = (Ret c', world m' t') ∧ weight c' < weight c ∧
    ((m' = m ∧ creation_inv m M p c' ∧ made c' = 0) ∨
     (∃ vm a r, c' = Made vm ∧ at_address a vm ∧ ¬ taken net a (db_with m 0 d0) ∧ m !! pl_id p = None ∧
        m' = <[pl_id p := r]> m ∧ stored_as net p a r)).
Proof using Hcalm Hblock Hinet PgLaws0.
  intros Hi Hov HM Hroom. destruct c as [vm|att vm|att vm err|vm|err]; [| | |done|done].
  - destruct Hi as (Hp & Hun). pose proof Hp as (_ & _ & _ & nic & Hn & Hok).
    destruct Hok as (Hid & Hon & H6 & Hmac & Hmacs). pose proof Hon as (Hne & _).
    destruct (alloc_ok (nic_NetworkID nic) m t Hon Hroom) as (a & g & E & Ha & Hfree).
    exists (Trying 0 (vm_set_related (vm_Disks vm) [give [a] nic] vm)), m, t.
    split; [|split; [|left; split_and!; [done| |done]]].
    + cbn [create_turn]. rewrite Hn. cbn [imapM]. unfold allocate_first. change (ipam s) with (Some (pg_IPAM (U:=U))).
      rewrite (proj2 (String.eqb_neq _ _) Hne). unfold attempt, mbind, M_bind, wrap. cbn [AllocateIP pg_IPAM]. rewrite E. reflexivity.
    + simpl. lia.
    + split_and!; [|exact (proj1 Hun)|exact (proj2 Hun)|].
      * apply prepared_set; [done|]. by split_and!.
      * exists a. split_and!; [by exists (give [a] nic)|lia|]. intros Ht. by destruct Hfree.
  - destruct Hi as (Hp & Hun & a & Ha & Hatt & Htk).
    destruct (create_calm net p a vm (world m t) Hcalm (prepared_realises p vm a m t Hp Ha) Hun)
      as [[Ht (e & E & Hu)]|[Ht (r & t' & Hst & E)]].
    + exists (Colliding att vm e), m, t. split; [|split; [simpl; lia|left; split_and!; [done| |done]]].
      * cbn [create_turn]. change (VM_Create (vmRepo s) vm) with (VMRepo_Create (U:=U) vm). unfold attempt, mbind, M_bind.
        rewrite E. by rewrite Hu.
      * split_and!; [done|exact (proj1 Hun)|exact (proj2 Hun)|]. by apply Htk.
    + exists (Made vm), (<[pl_id p := r]> m), t'. split; [|split; [simpl; lia|right; exists vm, a, r; split_and!; try done; apply Hun]].
      cbn [create_turn]. change (VM_Create (vmRepo s) vm) with (VMRepo_Create (U:=U) vm). unfold attempt, mbind, M_bind.
      rewrite E. done.
  - destruct Hi as (Hp & Hun & Hatt). pose proof Hp as (_ & _ & _ & nic & Hn & Hok).
    destruct Hok as (Hid & Hon & H6 & Hmac & Hmacs). pose proof Hon as (Hne & _).
    destruct (alloc_ok (nic_NetworkID nic) m t Hon Hroom) as (a & g & E & Ha & Hfree).
    set (nic' := mkNIC (nic_ID nic) (nic_Name nic) (nic_NetworkID nic)
      (GenerateNICMAC (vm_ID vm) (nic_ID nic +:+ ("-" +:+ pretty (N.of_nat att)))) [a] (nic_IPv6Addresses nic) (nic_IsPrimary nic)).
    exists (Trying (S att) (vm_set_related (vm_Disks vm) [nic'] vm)), m, t.
    split; [|split; [simpl; lia|left; split_and!; [done| |done]]].
    + cbn [create_turn]. rewrite Hn. cbn [imapM]. unfold realloc_nic. change (ipam s) with (Some (pg_IPAM (U:=U))).
      rewrite (proj2 (String.eqb_neq _ _) Hne). unfold attempt, mbind, M_bind. cbn [AllocateIP pg_IPAM]. rewrite E.
      unfold mret, M_ret. by rewrite bool_decide_eq_false_2 by lia.
    + split_and!; [|exact (proj1 Hun)|exact (proj2 Hun)|].
      * apply prepared_set; [done|]. split_and!; try done. simpl. apply Hmacs. lia.
      * exists a. split_and!; [by exists nic'|lia|]. intros Ht. by destruct Hfree.
Qed.

(** ** The race *)
Definition disjoint_plans (p q : plan (U:=U)) : Prop :=
  pl_id p ≠ pl_id q ∧ (∀ x, x ∈ pl_disks q → dk_id x ∉ dk_id <$> pl_disks p) ∧ pl_nic q ≠ pl_nic p ∧
  (∀ y, y ∈ pl_macs q → y ∉ pl_macs p).

Context (ps : list (plan (U:=U))) (Hps : ∀ i j p q, i ≠ j → ps !! i = Some p → ps !! j = Some q → disjoint_plans p q).

Record race_inv (cs : list creation) (m : gmap U vm_row) : Prop := {
  ri_each : Forall2 (creation_inv m (made_count cs)) ps cs;
  ri_room : (Z.of_nat (length (used_on (db_with m 0 d0))) + Z.of_nat (length cs - made_count cs) ≤ capacity n)%Z;
  ri_addr : ∀ i j vm vm' a, i ≠ j → cs !! i = Some (Made vm) → cs !! j = Some (Made vm') → at_address a vm → ¬ at_address a vm';
}.

Lemma stored_apart p q a r : disjoint_plans q p → stored_as net p a r → apart_from q r.
Proof using.
  intros (_ & Hd & Hn & Hm) (Ed & x & Ex & Hid & _ & _ & Hmac). split; [by rewrite Ed|].
  intros y Hy. rewrite Ex in Hy. apply list_elem_of_singleton in Hy as ->. rewrite Hid. split; [done|by apply Hm].
Qed.

(** Another machine is stored. *)
Lemma inv_other m M p q c a r : creation_inv m M q c → disjoint_plans q p → stored_as net p a r → m !! pl_id p = None →
  creation_inv (<[pl_id p := r]> m) (S M) q c.
Proof using.
  intros Hi Hd Hst Hnew. pose proof Hd as (Hne & _).
  assert (Hun : (m !! pl_id q = None ∧ map_Forall (λ _, apart_from q) m) →
    (<[pl_id p := r]> m !! pl_id q = None ∧ map_Forall (λ _, apart_from q) (<[pl_id p := r]> m))).
  { intros [H1 H2]. split; [by rewrite lookup_insert_ne|]. apply map_Forall_insert_2; [by eapply stored_apart|done]. }
  destruct c as [vm|att vm|att vm err|vm|err]; simpl in *; [| | | |done].
  - destruct Hi as (Hp & H1). by split; [|apply Hun].
  - destruct Hi as (Hp & H1 & b & Hb & Hatt & _). split_and!; [done|by apply Hun|by apply Hun|]. exists b. split_and!; [done|lia|]. intros _. lia.
  - destruct Hi as (Hp & H1 & Hatt). split_and!; [done|by apply Hun|by apply Hun|lia].
  - destruct Hi as (b & r' & Hb & Hl & Hs). exists b, r'. split_and!; [done|by rewrite lookup_insert_ne|done].
Qed.

Lemma race_ok cs m t w' cs' : race_inv cs m → length cs ≤ 3 → race_step s (world m t, cs) (w', cs') →
  ∃ m' t', w' = world m' t' ∧ race_inv cs' m' ∧ weights cs' < weights cs ∧ length cs' = length cs.
Proof using Hcalm Hblock Hinet PgLaws0 Hps.
  intros [Heach Hroom Haddr] Hlen Hstep. inversion Hstep as [i c c' w w'' cs0 Hi Hov E]; simplify_eq.
  destruct (Forall2_lookup_r _ _ _ _ _ Heach Hi) as (p & Hp & Hc).
  assert (Hm0 : made c = 0) by (by destruct c).
  pose proof (made_others cs i c Hi Hm0) as HM.
  destruct (turn_ok m t (made_count cs) p c Hc Hov ltac:(lia)) as (c1 & m' & t' & E' & Hw & Hcase).
  { change (used_on (db_with m t d0)) with (used_on (db_with m 0 d0)). lia. }
  rewrite E in E'. injection E' as -> ->. exists m', t'.
  pose proof (sum_insert made cs i c c1 Hi) as Hs1. pose proof (sum_insert weight cs i c c1 Hi) as Hs2.
  fold (made_count cs) (made_count (<[i := c1]> cs)) in Hs1. fold (weights cs) (weights (<[i := c1]> cs)) in Hs2.
  split; [done|]. split; [|split; [lia|by rewrite length_insert]].
  destruct Hcase as [(-> & Hc1 & Hm1)|(vm & a & r & -> & Ha & Hfree & Hnew & -> & Hst)].
  - assert (made_count (<[i := c1]> cs) = made_count cs) as EM by lia. split; rewrite ?EM, ?length_insert; [|done|].
    + rewrite <-(list_insert_id ps i p Hp). by apply Forall2_insert.
    + intros j k vm vm' a Hjk Hj Hk. apply (Haddr j k); [done| |].
      * destruct (decide (i = j)) as [<-|]; [|by rewrite list_lookup_insert_ne in Hj].
        rewrite list_lookup_insert_eq in Hj by (by eapply lookup_lt_Some). injection Hj as ->. done.
      * destruct (decide (i = k)) as [<-|]; [|by rewrite list_lookup_insert_ne in Hk].
        rewrite list_lookup_insert_eq in Hk by (by eapply lookup_lt_Some). injection Hk as ->. done.
  - assert (made_count (<[i := Made vm]> cs) = S (made_count cs)) as EM by (simpl in Hs1; lia). split; rewrite ?EM, ?length_insert.
    + apply Forall2_same_length_lookup_2; [by rewrite length_insert, (Forall2_length _ _ _ Heach)|].
      intros j q cj Hq Hj. destruct (decide (i = j)) as [<-|Hij].
      * rewrite list_lookup_insert_eq in Hj by (by eapply lookup_lt_Some). injection Hj as <-.
        rewrite Hp in Hq. injection Hq as <-. exists a, r. by rewrite lookup_insert_eq.
      * rewrite list_lookup_insert_ne in Hj by done. destruct (Forall2_lookup_r _ _ _ _ _ Heach Hj) as (q' & Hq' & Hcj).
        rewrite Hq in Hq'. injection Hq' as <-. eapply inv_other; [done| |done|done]. by apply (Hps j i).
    + pose proof (used_insert m 0 (pl_id p) r Hnew) as Hu. destruct Hst as (_ & x & Ex & _). rewrite Ex in Hu. simpl in Hu. lia.
    + assert (Hold : ∀ k vm', i ≠ k → cs !! k = Some (Made vm') → ∀ b, at_address b vm → ¬ at_address b vm').
      { intros k vm' Hik Hk b Hb Hb'. destruct (Forall2_lookup_r _ _ _ _ _ Heach Hk) as (q & _ & b' & r' & Hb2 & Hr' & Hst').
        apply Hfree. destruct Ha as (nic & Hn & H4 & _), Hb as (nic2 & Hn2 & H42 & _). rewrite Hn in Hn2. injection Hn2 as <-.
        rewrite H4 in H42. injection H42 as <-. destruct Hb' as (nic3 & Hn3 & H43 & _), Hb2 as (nic4 & Hn4 & H44 & _).
        rewrite Hn3 in Hn4. injection Hn4 as <-. rewrite H43 in H44. injection H44 as <-.
        destruct Hst' as (_ & x & Ex & _ & Hnet & H4x & _). exists (pl_id q), r'. split; [done|]. exists x, []. rewrite Ex. split_and!; [left|done|done]. }
      intros j k vm1 vm2 b Hjk Hj Hk.
      destruct (decide (i = j)) as [<-|Hij]; [rewrite list_lookup_insert_eq in Hj by (by eapply lookup_lt_Some)|rewrite list_lookup_insert_ne in Hj by done];
      (destruct (decide (i = k)) as [<-|Hik]; [rewrite list_lookup_insert_eq in Hk by (by eapply lookup_lt_Some)|rewrite list_lookup_insert_ne in Hk by done]);
      simplify_eq.
      * intros H1. by eapply Hold.
      * intros H1 H2. by eapply (Hold j).
      * by apply (Haddr j k).
Qed.

Lemma world_self (w : World) : set_db (db_with (t_vms (w_db w)) (t_now (w_db w)) (w_db w)) w = w.
Proof using. by destruct w as [[] ????? ?]. Qed.

Definition gave_up (c : creation) : bool := match c with GaveUp _ => true | _ => false end.

Lemma race_run k cs m t w' cs' : race_inv cs m → length cs ≤ 3 → nsteps (race_step s) k (world m t, cs) (w', cs') →
  ∃ m' t', w' = world m' t' ∧ race_inv cs' m' ∧ k + weights cs' ≤ weights cs ∧ length cs' = length cs.
Proof using Hcalm Hblock Hinet PgLaws0 Hps.
  revert cs m t. induction k as [|k IH]; intros cs m t Hi Hl Hr; inversion Hr as [|? ? y ? Hs Hr']; simplify_eq.
  { by exists m, t. }
  destruct y as [w1 cs1]. destruct (race_ok cs m t w1 cs1 Hi Hl Hs) as (m1 & t1 & -> & Hi1 & Hw1 & Hl1).
  destruct (IH cs1 m1 t1 Hi1 ltac:(lia) Hr') as (m' & t' & -> & Hi' & Hw' & Hl'). exists m', t'. split_and!; [done|done|lia|lia].
Qed.

(** At the start nothing is counted and every machine is on its way. *)
Lemma race_start vms : Forall2 prepared ps vms → Forall (λ p, unused_by p d0) ps →
  (Z.of_nat (length (used_on d0) + length vms) ≤ capacity n)%Z → race_inv (Starting <$> vms) (t_vms d0).
Proof using.
  intros Hp Hu Hr.
  assert (E0 : made_count (Starting <$> vms) = 0) by (unfold made_count; clear; induction vms as [|v vms IH]; csimpl; simpl; lia).
  split.
  - apply Forall2_fmap_r. apply Forall2_same_length_lookup_2; [by eapply Forall2_length|].
    intros i p vm Hpi Hvi. destruct (Forall2_lookup_lr _ _ _ _ _ _ Hp Hpi Hvi). split; [by eapply Forall2_lookup_lr|].
    by eapply (Forall_lookup_1 _ _ _ _ Hu).
  - rewrite E0, length_fmap, Nat.sub_0_r. change (used_on (db_with (t_vms d0) 0 d0)) with (used_on d0). lia.
  - intros i j vm vm' a _ Hi. apply list_lookup_fmap_Some in Hi as (? & [=] & _).
Qed.

(** C17: Machines created at the same time.  Take up to three requests that create
    machines with exactly one interface each, all on one network with an IPv4
    block, with ids of machines, disks and interfaces and MAC addresses (those
    drawn again on a collision too) that are stored nowhere and that no two
    requests share, when the network has free addresses for all and no statement
    is refused.  In whatever order their turns come, picking addresses that others
    pick too, none gives up, [n] requests take at most [7 * n] turns in all, and
    when no turn is left every machine is stored, and no two have the same
    address. *)
Theorem three_creations_succeed vms k w' cs' :
  length vms ≤ 3 → Forall2 prepared ps vms → Forall (λ p, unused_by p d0) ps →
  (Z.of_nat (length (used_on d0) + length vms) ≤ capacity n)%Z →
  nsteps (race_step s) k (w0, Starting <$> vms) (w', cs') →
  k ≤ 7 * length vms ∧ Forall (λ c, gave_up c = false) cs' ∧
  ((∃ y, race_step s (w', cs') y) ∨
   ∃ vms', cs' = Made <$> vms' ∧
     (∀ i j vm vm' a, i ≠ j → vms' !! i = Some vm → vms' !! j = Some vm' → at_address a vm → ¬ at_address a vm') ∧
     Forall2 (λ p vm, ∃ a r, at_address a vm ∧ t_vms (w_db w') !! pl_id p = Some r ∧ stored_as net p a r) ps vms').
Proof using Hcalm Hblock Hinet PgLaws0 Hps.
  intros Hl Hp Hu Hroom Hrun. pose proof (race_start vms Hp Hu Hroom) as Hi. rewrite <-(world_self w0) in Hrun.
  destruct (race_run k _ _ _ _ _ Hi ltac:(by rewrite length_fmap) Hrun) as (m & t & -> & [Heach Hr Ha] & Hk & Hlen).
  assert (Hw : weights (Starting <$> vms) = 7 * length vms) by (unfold weights; clear; induction vms as [|v vms IH]; csimpl; simpl; lia).
  split; [lia|]. split.
  { apply Forall_lookup. intros i c Hc. destruct (Forall2_lookup_r _ _ _ _ _ Heach Hc) as (p & _ & Hci). by destruct c. }
  destruct (decide (Forall (λ c, over c = true) cs')) as [Hall|Hnot].
  - right. assert (∃ vms', cs' = Made <$> vms') as [vms' ->].
    { clear -Heach Hall. generalize dependent (made_count cs'). revert Hall. generalize dependent ps.
      induction cs' as [|c cs' IH]; intros ps0 Hall M H2; [by exists []|].
      apply Forall_cons in Hall as [Hc Hall]. inversion H2 as [|p ? ps1 ? Hci H2']; simplify_eq.
      destruct (IH ps1 Hall M H2') as [vms' ->]. destruct c as [| | |vm|]; try done. by exists (vm :: vms'). }
    exists vms'. split; [done|]. split.
    + intros i j vm vm' a Hij Hvi Hvj. apply (Ha i j); [done|rewrite list_lookup_fmap, Hvi; done|rewrite list_lookup_fmap, Hvj; done].
    + rewrite Forall2_fmap_r in Heach. exact Heach.
  - left. apply not_Forall_Exists, Exists_exists in Hnot as (c & Hin & Hov); [|intros c; apply _].
    apply list_elem_of_lookup in Hin as [i Hci]. destruct (Forall2_lookup_r _ _ _ _ _ Heach Hci) as (p & _ & Hc).
    assert (over c = false) as Hov' by (destruct (over c) eqn:Eo; [by destruct Hov|done]). assert (Hm0 : made c = 0) by (by destruct c).
    pose proof (made_others cs' i c Hci Hm0). rewrite length_fmap in Hlen.
    destruct (turn_ok m t (made_count cs') p c Hc Hov' ltac:(lia)) as (c1 & m' & t' & E & _).
    { change (used_on (db_with m t d0)) with (used_on (db_with m 0 d0)). lia. }
    eexists. by eapply race_turn.
Qed.
End race.
