(* ===== verification/ContentionWitnesses.v ===== *)
(** Three and four machines created at the same time on the concrete database of
    [Witnesses]: all turns interleaved so that every request picks the same
    address. *)
From stdpp Require Import base gmap strings list numbers relations pretty.
From S2P Require Import Prelude.
From S2P Require Import GoStd.
From S2P Require Import GoNet.
From S2P Require Import Ipam.
From S2P Require Import Domain.
From S2P Require Import Interfaces.
From S2P Require Import Puller.
From S2P Require Import ControlPlane.
From S2P Require Import PgControl.
From S2P Require Import PgSound.
From S2P Require Import Deployment.
From S2P Require Import Witnesses.
From S2P Require Import Contention.
From stdpp Require Import options.

Abbreviation W0 := (World (U:=text)).

(** * Requests that differ in a letter *)
Definition racer_disk (k : string) : Disk := mkDisk ("disk-" +:+ k) "root" gib20 "qcow2" "default" "" true 0.
Definition racer_nic (k : string) : NetworkInterface :=
  mkNIC ("nic-" +:+ k) "eth0" "net1" (GenerateNICMAC ("vm-" +:+ k) ("nic-" +:+ k)) [] [] true.
Definition racer (k : string) : VirtualMachine :=
  mkVM ("vm-" +:+ k) k None org0 None VMStatusCreating 1 1024 "host" "q35" false false false "" None None None None
    [racer_disk k] [racer_nic k] 0 0.
Definition macs (k : string) : list string :=
  GenerateNICMAC ("vm-" +:+ k) <$> [("nic-" +:+ k); ("nic-" +:+ k) +:+ "-0"; ("nic-" +:+ k) +:+ "-1"; ("nic-" +:+ k) +:+ "-2"].
Definition plan_of (k : string) : plan (U:=text) :=
  mkPlan (id ("vm-" +:+ k) I) [mkDiskRow (id ("disk-" +:+ k) I) None (racer_disk k)] (id ("nic-" +:+ k) I) (macs k).

(** * Runs *)
Abbreviation state := (W0 * list creation)%type.
Definition turn_of (i : nat) (y : state) : option state :=
  c ← y.2 !! i;
  if over c then None
  else match create_turn svc c y.1 with (Ret c', w') => Some (w', <[i := c']> y.2) | _ => None end.
Fixpoint race (order : list nat) (y : state) : option state :=
  match order with [] => Some y | i :: order' => y' ← turn_of i y; race order' y' end.

Lemma race_steps order y y' : race order y = Some y' → nsteps (race_step svc) (length order) y y'.
Proof.
  revert y. induction order as [|i order IH]; intros [w cs] E; simpl in E; [injection E as <-; constructor|].
  unfold turn_of in E. simpl in E. destruct (cs !! i) as [c|] eqn:Hi; [|done]. cbn in E. destruct (over c) eqn:Ho; [done|].
  destruct (create_turn svc c w) as [[c'| |] w'] eqn:Ec; [|done..]. cbn in E.
  apply (nsteps_l _ _ _ (w', <[i := c']> cs)); [by eapply race_turn|by apply IH].
Qed.

Definition addresses (cs : list creation) : list (list string) :=
  (λ c, match c with
        | Made vm => concat (nic_IPv4Addresses <$> vm_NetworkInterfaces vm)
        | _ => []
        end) <$> cs.

(** Everybody allocates, then everybody inserts, and so on: with three requests
    the last one succeeds with its third attempt, with four it gives up. *)
Definition order3 : list nat := [0; 1; 2; 0; 1; 2; 1; 2; 1; 2; 2; 2].
Definition order4 : list nat := [0; 1; 2; 3; 0; 1; 2; 3; 1; 2; 3; 1; 2; 3; 2; 3; 2; 3; 3].
Definition y3 : state := (w0, Starting <$> [racer "a"; racer "b"; racer "c"]).
Definition y4 : state := (w0, Starting <$> [racer "a"; racer "b"; racer "c"; racer "d"]).

(** Three requests. *)
Definition plans3 : list (plan (U:=text)) := [plan_of "a"; plan_of "b"; plan_of "c"].
Definition net24 : IPNet := default (mkIPNet [] []) (snd <$> ParseCIDR "10.1.0.0/24").

Lemma inet24 c : host net24 c →
  inet_in (U:=text) (cidr_text (PutUint32 c) (block net24).2) = Some (cidr_text (PutUint32 c) (block net24).2).
Proof. done. Qed.

Lemma racer_prepared k (p := plan_of k) : uuid_in (vm_ID (racer k)) = Some (pl_id p) →
  uuid_arg ("disk-" +:+ k) = Ret (id ("disk-" +:+ k) I) → uuid_arg ("nic-" +:+ k) = Ret (pl_nic p) →
  prepared w0 (id "net1" I) "10.1.0.0/24" "10.1.0.1" p (racer k).
Proof.
  intros Hv Hd Hn. split_and!.
  - split; [done|]. exists None, (id org0 I), None, None. by split_and!.
  - constructor; [by split_and!|constructor].
  - apply NoDup_singleton.
  - exists (racer_nic k). split; [done|]. split_and!; [done|by split_and!|done|left|].
    intros [|[|[|att]]] Hatt; [right; left|right; right; left|right; right; right; left|lia].
Qed.

Lemma plans_apart i j p q : i ≠ j → plans3 !! i = Some p → plans3 !! j = Some q → disjoint_plans p q.
Proof.
  assert (H : ∀ p q : plan (U:=text), bool_decide (pl_id p ≠ pl_id q ∧ Forall (λ x, dk_id x ∉ dk_id <$> pl_disks p) (pl_disks q) ∧
    pl_nic q ≠ pl_nic p ∧ Forall (λ y, y ∉ pl_macs p) (pl_macs q)) = true → disjoint_plans p q).
  { intros p' q' (H1 & H2 & H3 & H4)%bool_decide_eq_true. rewrite !Forall_forall in *. by split_and!. }
  intros Hij Hi Hj. apply H.
  destruct i as [|[|[|i]]], j as [|[|[|j]]]; try discriminate Hi; try discriminate Hj; try (by destruct Hij);
    injection Hi as <-; injection Hj as <-; vm_compute; reflexivity.
Qed.

Lemma plans_unused : Forall (λ p, unused_by p (w_db w0)) plans3.
Proof.
  assert (H : ∀ p : plan (U:=text), bool_decide (t_vms db0 !! pl_id p = None ∧
    Forall (λ ur, Forall (λ x, dk_id x ∉ dk_id <$> pl_disks p) (vr_disks ur.2) ∧
      Forall (λ x, nk_id x ≠ pl_nic p ∧ nic_MACAddress (nk_val x) ∉ pl_macs p) (vr_nics ur.2)) (map_to_list (t_vms db0))) = true →
    unused_by p (w_db w0)).
  { intros p (H1 & H2)%bool_decide_eq_true. split; [done|]. intros u r Hr%elem_of_map_to_list.
    rewrite Forall_forall in H2. destruct (H2 _ Hr) as [Hd Hn]. rewrite Forall_forall in Hd. rewrite Forall_forall in Hn. by split. }
  unfold plans3. rewrite !Forall_cons, Forall_nil. split_and!; [apply H; vm_compute; reflexivity..|done].
Qed.

Lemma race3_ends : match race order3 y3 with
                   | Some (_, cs) => forallb over cs = true ∧
                                     addresses cs = [["10.1.0.4/24"]; ["10.1.0.5/24"]; ["10.1.0.6/24"]]
                   | None => False
                   end.
Proof.
  enough (H : option_map (λ y, (forallb over y.2, addresses y.2)) (race order3 y3)
              = Some (true, [["10.1.0.4/24"]; ["10.1.0.5/24"]; ["10.1.0.6/24"]])).
  { by destruct (race order3 y3) as [[w cs]|]; [injection H|]. }
  vm_compute. reflexivity.
Qed.

(** Three requests that all pick the first free address at first. *)
Lemma three_creations_witness : ∃ w' vms',
  race order3 y3 = Some (w', Made <$> vms') ∧
  addresses (Made <$> vms') = [["10.1.0.4/24"]; ["10.1.0.5/24"]; ["10.1.0.6/24"]] ∧
  ∀ i j vm vm' a, i ≠ j → vms' !! i = Some vm → vms' !! j = Some vm' →
    at_address (U:=text) a vm → ¬ at_address (U:=text) a vm'.
Proof.
  pose proof race3_ends as H. pose proof (race_steps order3 y3) as Hs. revert H Hs.
  generalize (race order3 y3). intros [[w' cs']|] H Hs; [|destruct H]. destruct H as [Ho Ha].
  destruct (three_creations_succeed "" true w0 (conj eq_refl eq_refl) (id "net1" I) "10.1.0.0/24" "10.1.0.1" net24
    (conj eq_refl eq_refl) inet24 plans3 plans_apart [racer "a"; racer "b"; racer "c"] (length order3) w' cs')
    as (_ & _ & [[y Hy]|(vms' & -> & Hne & _)]).
  - simpl. lia.
  - unfold plans3. rewrite !Forall2_cons, Forall2_nil. split_and!; [by apply racer_prepared..|done].
  - apply plans_unused.
  - apply Z.leb_le. vm_compute. reflexivity.
  - apply Hs. reflexivity.
  - exfalso. inversion Hy as [i c c' w w'' cs Hi Hc]; simplify_eq. rewrite forallb_forall in Ho.
    rewrite (Ho c) in Hc; [done|]. apply list_elem_of_In. by eapply list_elem_of_lookup_2.
  - exists w', vms'. split; [reflexivity|]. split; [exact Ha|exact Hne].
Defined.

(** Four requests at the same time, with free addresses left: one of them makes
    three attempts, each with an address another request stores first. *)
Example four_creations_one_gives_up :
  option_map (λ y, (addresses y.2, gave_up <$> y.2)) (race order4 y4)
  = Some ([["10.1.0.4/24"]; ["10.1.0.5/24"]; ["10.1.0.6/24"]; []], [false; false; false; true]).
Proof. vm_compute. reflexivity. Qed.
